(* ===== verification/_CoqProject ===== *)
-Q . S2P
Prelude.v
Task.v
AddrSpace.v
PageTable.v
PageLoong.v
Elf.v
Path.v
FileObject.v
Vfs.v
VfsInv.v
VfsSpec.v
Process.v
KernelEnv.v
ProcTable.v
ProcSpec.v
ProcProps.v
ProcTree.v
FdTable.v
Locks.v
Calendar.v
Abi.v
AbiSpec.v
Keys.v
Sys.v
SysFile.v
SysProc.v
SysMem.v
SysNet.v
SysExec.v
SysDispatch.v
SysInv.v
SysRun.v
KernelCore.v
CoreInv.v
SignalSpec.v
FutexSpec.v
ExecSpec.v
Dma.v
Discovery.v
Plic.v
Block.v
Ext4Fs.v
Platform.v
Asm.v
AsmRiscv.v
AsmLoong.v
Cpu.v
Idle.v
Rv64.v
LoongCore.v
FdBoot.v
LoongInv.v
Layout.v
UserInit.v
Xtask.v
XtaskRun.v
FileInv.v
FileRun.v
UnitTests.v
CallTests.v
