(* ===== verification/Prelude.v ===== *)
(** * A verification of the whuse kernel

    Whuse is an operating-system kernel in Rust for riscv64 and loongarch64
    virtual machines.  Its crates, under src/crates/, are: [task] (scheduler
    and wait queues), [mm] (address spaces, page tables, program loader),
    [vfs] (file name space, open files, pipes, sockets), [fs-ext4] (an
    adapter to an ext4 library), [proc] (process table), [syscall] (the
    system-call layer over the others), [kernel-core] (the trap loop, one
    file per architecture), [hal-api], [hal-virtio] and the two platforms
    [hal-riscv64-virt] and [hal-loongarch64-virt], and [user-init] (the first
    programs and files).  tools/xtask prepares the disk images and starts the
    emulator.  System calls run one at a time under the kernel lock, so the
    components are sequential state machines that call each other: the trap
    loop calls [syscall]; [syscall] calls [proc], [vfs], [mm] and [task];
    [proc] owns the address spaces and file handles; [vfs] reads files of
    [fs-ext4], which reads sectors of a platform's block device, which moves
    them through the DMA arena of [hal-virtio].

    ** Files

    Foundations:
    - [Prelude] (this file): outcomes of kernel code, the state monad,
      machine integers, ordered maps, list searches, byte memory, the
      preservation logic [keeps], the tactics [inv_bind], [stm_step],
      [reflect_bools] and the hint database [whuse].

    Scheduler and memory:
    - [Task] (crates/task): [Scheduler] and [WaitQueue] with every method.
    - [AddrSpace] (crates/mm): the frame allocator, segments and their
      storage, [AddressSpace] with mapping, unmapping, protection, program
      break, byte access and the clone of fork.
    - [PageTable] (crates/mm): the Sv39 and LoongArch table builders and
      [rebuild_page_table], what the loops build over any builder that keeps
      the laws of the class [BuilderLaws], and the instance for Sv39 with the
      walk of the hardware; [PageLoong]: the TLB refill handler of loongarch64
      and the instance for its tables.
    - [Elf] (crates/mm): ELF headers, segment loading, the initial stack.

    Files:
    - [Path], [FileObject], [Vfs] (crates/vfs): path strings; nodes, handles
      and the [KernelObject] methods; [KernelVfs] with every public method.
      [Arc<Node>] is a key of the node store, so aliasing of nodes and
      channels by several handles is kept.  [VfsInv] has the reference
      invariant over all methods, [VfsSpec] functional specifications.

    Processes:
    - [Process], [ProcTable] (crates/proc): a process with its descriptors
      and its trap frame; the process table with every method that changes
      it.  [KernelEnv] is the interface through which the table reaches user
      memory and file handles and its instance for the kernel.  [ProcSpec]
      has the table invariant, [ProcProps], [ProcTree] and [FdTable]
      specifications of waiting, exiting, executing and descriptors.

    System calls (crates/syscall):
    - [Locks] (record locks), [Calendar] (dates of the clock device), [Keys]
      (keyrings), [Abi] and [AbiSpec] (user structures and their codecs);
    - [Sys] (the state of the kernel and the calls into the other crates),
      [SysFile], [SysProc], [SysMem], [SysNet], [SysExec] (the calls by
      domain) and [SysDispatch] (the dispatcher);
    - [SysInv], [SysRun]: every call keeps the kernel's state consistent.

    Kernel loops (crates/kernel-core):
    - [KernelCore] (lib_riscv.inc.rs) and [LoongCore] (lib_loongarch.inc.rs):
      traps, signal delivery, the watchdog, idle time, the start of init;
      [CoreInv] and [LoongInv] their invariants, [FdBoot] the descriptor
      tables the boot makes.
    - [SignalSpec], [FutexSpec], [ExecSpec]: behaviour across the trap loop,
      the dispatcher and the process table.
    - [Idle] (lib_riscv.inc.rs): the run from the boot on, idle time and the
      service of interrupts.
    - [Rv64]: the words and the assembly of the instructions of the first
      programs, and a processor that runs them through the page table of the
      kernel; [UserInit] (crates/user-init): the programs of riscv64, and
      runs of them from the boot on a bench with one page of stack.
    - [Layout] (both files and crates/user-init): the built-in files and the
      preparation of the file system at boot.
    - [FileInv], [FileRun]: references to files over all components, from
      the boot file system through both loops.

    Devices:
    - [Dma], [Discovery] (crates/hal-virtio): the DMA arena and the search of
      the device tree; [Plic], [Block], [Platform] (the two platforms): the
      interrupt controller, the block device, clocks, bounce buffers and PCI
      registers; [Ext4Fs] (crates/fs-ext4): the byte reader over sectors and
      the mount, with the instance of the interface [Vfs] uses.  The block
      device and the bounce buffers of the two platforms are the same code.

    Tools:
    - [Xtask], [XtaskRun] (tools/xtask): preparation and check of disk images,
      command lines of the emulator on the host and in a container; the
      commands of the tool, from the build to the check of a release.

    Tests:
    - [UnitTests], [CallTests] ([mod tests] of the crates): the unit tests of
      the source, run on the definitions of the other files.

    ** How code is modelled

    A function returning [Result<T, i32>] is an [outcome]; a method on
    [&mut self] is a [stm], and what it changed before an error stays
    changed.  The kernel is built with overflow checks, so overflow, an index
    out of range and a failed [unwrap] are [Panic].  A [BTreeMap] is a [gmap]
    read in key order, a [Vec] a list.  Raw pointers to segment memory are
    addresses of a byte store.  Loops that are not structural have fuel and
    return [Diverge] when it runs out; the theorems show that the fuel given
    is enough: the number of mappings plus one for the gap search, the number
    of bytes plus one for byte copies and for reads of an ext4 file, the
    number of pages plus one for table building, sixteen for symbolic links
    (the bound of the code), the number of path components plus one for the
    creation of missing directories, the file size plus one for reading a
    whole file, the number of processes plus two for the search of descendants,
    and seven rounds of execve, of which at most six are used.

    What is not in the repository, or is chosen when the kernel is built or
    runs, is a parameter: [HalMemory] (memory regions and the physical mapping
    of the platform), [Ext4Ops] for the users of a mount and [Ext4Lib] (the
    ext4 library) for the mount itself, [VirtIOBlk] (the virtio driver),
    [can_reserve] (whether the kernel heap has room), [heap] (its fill level),
    [loongarch] (the architecture), [builtin_program] (the assembled
    programs), [run_user] of the loops (what a user program does until its
    next trap: any change of its registers and memory; [Rv64] has an instance
    that fetches and executes instructions), the clock readings in
    the kernel state, [asset] (the texts of embedded scripts), the frame supply [fresh]
    of the page tables (on loongarch64 with a bound below which it gives
    addresses of 48 bits) and [Host] (the machine the tool runs on).  The laws of
    [BlockLaws], [VirtIOBlkLaws] and [Ext4FileLaws] are the documented
    behaviour of device and libraries; each has an instance that shows it can
    hold.

    ** What the theorems show

    - Kernel loops: whatever user programs, the clock and the watchdog do,
      every state reached from boot keeps scheduler, process table, record
      locks and keyrings consistent ([CoreInv], [LoongInv]); no descriptor
      of any process is ever on a node that does not exist ([FileRun]).
      A signal interrupts a program and rt_sigreturn restores it; a futex
      wait and wake meet; exit and wait4 meet; execve ends.
    - Task: every reachable scheduler state keeps each task in exactly one of
      ready queue, running slot and blocked map; yielding is fair; waking and
      group exit do exactly what they promise.
    - AddrSpace: the segment map stays disjoint and sorted; unmapping,
      protecting and mapping change the segments of exactly the addresses they
      name (the bytes behind owned memory that is cut shift), and a fork shares
      the frames of the parent;
      byte access is the byte-by-byte translation through the map.
    - PageTable: the tables built on activation translate every mapped user
      page to its frame with its permissions, no other user page, and the
      kernel windows to themselves; what the hardware reaches is what the
      kernel reads and writes.  On loongarch64 the same holds of what the
      refill handler puts into the TLB ([PageLoong]).
    - Elf: malformed images are refused, the initial stack has the layout the
      C runtime expects.
    - Path, FileObject, Vfs, Layout: canonical paths; regular files, pipes and
      stream sockets deliver exactly the bytes written; references never
      dangle over any run of the kernel and over the boot; creation, removal,
      renaming, directory reading and symbolic links behave as specified.
    - Proc: descriptors with duplicates refine a table of shared open files,
      from the tables the boot makes on ([FdBoot]);
      the process tree is consistent over every run of the table's methods;
      the descendants of a group are found exactly.
    - Syscall data: codecs are inverse, the calendar counts days and seconds,
      keyrings of users are apart, record locks keep exclusion.
    - Devices: live DMA ranges are aligned and disjoint and allocation fails
      only without room; sectors and files are read byte for byte; PCI windows
      are disjoint; buffers shared with a device come back with its bytes.
    - Assembly: [run_user] starts a program with the state of its frame and
      returns with the state at the trap in the frame; an interrupt of the
      kernel on riscv64 keeps its registers.  What the entries lose is stated
      too: callee-saved registers on both platforms, floating-point registers,
      interrupts and kernel traps on loongarch64.
    - User programs: the first program of riscv64, run from its machine code,
      makes the system calls stated with the results stated; where it and the
      kernel do not agree, it stops short, and the machine stands still, as
      every machine does on which the first process waits alone ([UserInit],
      [Idle]).  The processor reads through the page tables that
      the kernel builds ([Rv64]).
    - Xtask: images it reports as prepared hold a known profile, which the
      kernel of riscv64 takes (that of loongarch64 does not read it); a release
      that passes its check was seen to boot ([XtaskRun]).
    - Tests: the definitions pass the unit tests of the source, except two that
      the source cannot pass either; their lemmas say why.

    Some theorems pin down behaviour that is a defect; their comments say so.

    ** What is not modelled

    The two user programs of loongarch64: what la.local gives depends on the
    assembler and on where they are linked.  In [Asm] a control register
    keeps what is written to it, memory is words at their addresses, and the
    translation of addresses is not part of the machine.  Tracing and debug snapshots: no state depends on them.  The shell
    scripts embedded in the kernel: texts, read as bytes.  Network devices:
    the traits have no implementation that does anything.  What
    the programs do that tools/xtask starts, and its messages.  Vendored
    crates. *)

From stdpp Require Export base gmap list sorting strings numbers fin_maps.
From stdpp Require Export options.
From Stdlib Require Export Lia ZArith.

#[export] Unset Default Proof Using.
#[global] Open Scope Z_scope.

(** ** Outcomes of kernel code

    A Rust function of type [Result<T, i32>] returns [Ok] or [Err errno].
    The kernel is built with the dev profile, so an arithmetic overflow, an
    out-of-range index or a failed [unwrap] aborts it: [Panic].  A loop whose
    fuel ran out is [Diverge]; theorems about loops rule it out. *)
Inductive outcome (A : Type) : Type :=
  | Ok (a : A)
  | Err (errno : Z)
  | Panic
  | Diverge.
Arguments Ok {_} _.
Arguments Err {_} _.
Arguments Panic {_}.
Arguments Diverge {_}.

#[export] Instance outcome_ret : MRet outcome := fun _ a => Ok a.
#[export] Instance outcome_bind : MBind outcome := fun A B k m =>
  match m with
  | Ok a => k a
  | Err e => Err e
  | Panic => Panic
  | Diverge => Diverge
  end.
#[export] Instance outcome_fmap : FMap outcome := fun A B f m =>
  match m with
  | Ok a => Ok (f a)
  | Err e => Err e
  | Panic => Panic
  | Diverge => Diverge
  end.

#[export] Instance outcome_eq_dec `{EqDecision A} : EqDecision (outcome A).
Proof. solve_decision. Defined.

(** [Option::ok_or] *)
Definition ok_or {A} (o : option A) (e : Z) : outcome A :=
  match o with Some a => Ok a | None => Err e end.
Lemma ok_or_inv {A} (o : option A) e a : ok_or o e = Ok a → o = Some a.
Proof. by destruct o; [intros [= ->]|]. Qed.

(** [Option::unwrap], slice indexing: abort on [None] *)
Definition unwrap {A} (o : option A) : outcome A :=
  match o with Some a => Ok a | None => Panic end.

(** ** Stateful kernel code

    A method taking [&mut self] and returning a [Result] is a function from
    the state to the outcome and the new state: a mutation made before an
    error return persists. *)
Definition stm (S A : Type) : Type := S → outcome A * S.

#[export] Instance stm_ret {S} : MRet (stm S) := fun _ a s => (Ok a, s).
#[export] Instance stm_bind {S} : MBind (stm S) := fun A B k m s =>
  match m s with
  | (Ok a, s') => k a s'
  | (Err e, s') => (Err e, s')
  | (Panic, s') => (Panic, s')
  | (Diverge, s') => (Diverge, s')
  end.

Definition get {S} : stm S S := fun s => (Ok s, s).
Definition put {S} (s : S) : stm S unit := fun _ => (Ok tt, s).
Definition modify {S} (f : S → S) : stm S unit := fun s => (Ok tt, f s).
Definition lift {S A} (o : outcome A) : stm S A := fun s => (o, s).
Definition fail {S A} (e : Z) : stm S A := fun s => (Err e, s).

(** A pure lookup that may panic or fail, used on the current state. *)
Definition reads {S A} (f : S → outcome A) : stm S A := fun s => (f s, s).

(** ** Machine integers

    [usize] is 64 bits on both targets (riscv64, loongarch64).  Values are in
    [Z]; the operators [+], [-], [*] abort on overflow in the dev profile. *)
Definition USIZE_MAX : Z := 2 ^ 64 - 1.
Definition U32_MAX : Z := 2 ^ 32 - 1.

Definition is_usize (z : Z) : Prop := 0 ≤ z ≤ USIZE_MAX.

Definition uadd (a b : Z) : outcome Z :=
  if a + b <=? USIZE_MAX then Ok (a + b) else Panic.
Definition usub (a b : Z) : outcome Z :=
  if b <=? a then Ok (a - b) else Panic.
Definition umul (a b : Z) : outcome Z :=
  if a * b <=? USIZE_MAX then Ok (a * b) else Panic.

Definition checked_add (a b : Z) : option Z :=
  if a + b <=? USIZE_MAX then Some (a + b) else None.
Definition checked_sub (a b : Z) : option Z :=
  if b <=? a then Some (a - b) else None.
Definition saturating_add (a b : Z) : Z := Z.min (a + b) USIZE_MAX.
Definition saturating_sub (a b : Z) : Z := Z.max (a - b) 0.
Definition saturating_mul (a b : Z) : Z := Z.min (a * b) USIZE_MAX.

(** Bitwise complement of a 64-bit word. *)
Definition unot (z : Z) : Z := USIZE_MAX - z.

(** [align_up] and [align_down] as written in crates/mm and crates/vfs. *)
Definition align_up (value alignment : Z) : outcome Z :=
  s ← uadd value alignment;
  s' ← usub s 1;
  Ok (Z.land s' (unot (alignment - 1))).
Definition align_down (value alignment : Z) : Z :=
  Z.land value (unot (alignment - 1)).

(** Little-endian codecs of [to_le_bytes] / [from_le_bytes]. *)
Fixpoint to_le_bytes (n : nat) (z : Z) : list Z :=
  match n with
  | O => []
  | S n' => z mod 256 :: to_le_bytes n' (z / 256)
  end.
Fixpoint from_le_bytes (bs : list Z) : Z :=
  match bs with
  | [] => 0
  | b :: bs' => b + 256 * from_le_bytes bs'
  end.

Definition is_byte (b : Z) : Prop := 0 ≤ b < 256.

(** ** Ordered maps

    A [BTreeMap] is a [gmap]; what the code observes of its order is the list
    of its keys in ascending order. *)
Section btree.
Context {K : Type} (R : relation K) `{Countable K, !RelDecision R}.

Definition keys_by {V} (m : gmap K V) : list K := merge_sort R (elements (dom m)).

Lemma elem_of_keys_by {V} (m : gmap K V) k : k ∈ keys_by m ↔ is_Some (m !! k).
Proof.
  unfold keys_by. rewrite merge_sort_Permutation, elem_of_elements.
  apply elem_of_dom.
Qed.

Lemma NoDup_keys_by {V} (m : gmap K V) : NoDup (keys_by m).
Proof. unfold keys_by. rewrite merge_sort_Permutation. apply NoDup_elements. Qed.

Lemma length_keys_by {V} (m : gmap K V) : length (keys_by m) = size m.
Proof.
  unfold keys_by. rewrite merge_sort_Permutation. by rewrite <- (size_dom m).
Qed.

Lemma keys_by_sorted {V} (m : gmap K V) `{!Transitive R, !Total R} :
  StronglySorted R (keys_by m).
Proof. apply StronglySorted_merge_sort; apply _. Qed.

Lemma keys_by_empty {V} : keys_by (∅ : gmap K V) = [].
Proof. unfold keys_by. by rewrite dom_empty_L, elements_empty. Qed.
End btree.

Abbreviation keys m := (keys_by Z.le m).

(** The entries in key order ([BTreeMap::iter]). *)
Definition items {V} (m : gmap Z V) : list (Z * V) :=
  omap (fun k => pair k <$> m !! k) (keys m).
Definition values {V} (m : gmap Z V) : list V := (items m).*2.

Lemma elem_of_items {V} (m : gmap Z V) k v : (k, v) ∈ items m ↔ m !! k = Some v.
Proof.
  unfold items. rewrite list_elem_of_omap. split.
  - intros (k' & _ & Hk). apply fmap_Some in Hk as (v' & ? & ?). by simplify_eq.
  - intros Hk. exists k. rewrite elem_of_keys_by, Hk. split; [eauto|done].
Qed.

Lemma items_fst {V} (m : gmap Z V) : (items m).*1 = keys m.
Proof.
  unfold items.
  assert (∀ k, k ∈ keys m → is_Some (m !! k)) as Hin by (intros k; apply elem_of_keys_by).
  revert Hin. generalize (keys m) as ks. intros ks Hin.
  induction ks as [|k ks IH]; [done|]. simpl.
  destruct (Hin k) as [v Hv]; [set_solver|]. rewrite Hv. simpl.
  f_equal. apply IH. set_solver.
Qed.

Lemma NoDup_items {V} (m : gmap Z V) : NoDup (items m).
Proof. apply (NoDup_fmap_1 fst). rewrite items_fst. apply NoDup_keys_by. Qed.

Lemma elem_of_values {V} (m : gmap Z V) v : v ∈ values m ↔ ∃ k, m !! k = Some v.
Proof.
  unfold values. rewrite list_elem_of_fmap. split.
  - intros ([k v'] & -> & Hin). exists k. by apply elem_of_items.
  - intros [k Hk]. exists (k, v). by rewrite elem_of_items.
Qed.

Lemma items_Permutation {V} (m : gmap Z V) : items m ≡ₚ map_to_list m.
Proof.
  apply NoDup_Permutation; [apply NoDup_items|apply NoDup_map_to_list|].
  intros [k v]. by rewrite elem_of_items, elem_of_map_to_list.
Qed.

Lemma values_insert {V} (m : gmap Z V) k v :
  m !! k = None → values (<[k := v]> m) ≡ₚ v :: values m.
Proof.
  intros Hk. unfold values. rewrite !items_Permutation.
  by rewrite map_to_list_insert.
Qed.

Lemma values_delete {V} (m : gmap Z V) k v :
  m !! k = Some v → values m ≡ₚ v :: values (delete k m).
Proof.
  intros Hk. rewrite <- values_insert with (k := k) by apply lookup_delete_eq.
  by rewrite insert_delete_id.
Qed.

Lemma values_empty {V} : values (∅ : gmap Z V) = [].
Proof. unfold values, items. by rewrite keys_by_empty. Qed.

(** ** Inversion of monadic code *)
Lemma bind_Ok {A B} (m : outcome A) (k : A → outcome B) b :
  (m ≫= k) = Ok b ↔ ∃ a, m = Ok a ∧ k a = Ok b.
Proof. destruct m; simpl; naive_solver. Qed.

Lemma bind_Err {A B} (m : outcome A) (k : A → outcome B) e :
  (m ≫= k) = Err e ↔ m = Err e ∨ ∃ a, m = Ok a ∧ k a = Err e.
Proof. destruct m; simpl; naive_solver. Qed.

Lemma stm_bind_eq {S A B} (m : stm S A) (k : A → stm S B) s :
  (m ≫= k) s =
  match m s with
  | (Ok a, s') => k a s'
  | (Err e, s') => (Err e, s')
  | (Panic, s') => (Panic, s')
  | (Diverge, s') => (Diverge, s')
  end.
Proof. done. Qed.

Lemma stm_bind_Ok {S A B} (m : stm S A) (k : A → stm S B) s b s'' :
  (m ≫= k) s = (Ok b, s'') ↔ ∃ a s', m s = (Ok a, s') ∧ k a s' = (Ok b, s'').
Proof. rewrite stm_bind_eq. destruct (m s) as [[]]; naive_solver. Qed.

(** ** Facts about machine arithmetic *)
Create HintDb whuse.

Lemma uadd_ok a b : a + b ≤ USIZE_MAX → uadd a b = Ok (a + b).
Proof. intros. unfold uadd. destruct (Z.leb_spec (a + b) USIZE_MAX); [done|lia]. Qed.

Lemma usub_ok a b : b ≤ a → usub a b = Ok (a - b).
Proof. intros. unfold usub. destruct (Z.leb_spec b a); [done|lia]. Qed.

Lemma umul_ok a b : a * b ≤ USIZE_MAX → umul a b = Ok (a * b).
Proof. intros. unfold umul. destruct (Z.leb_spec (a * b) USIZE_MAX); [done|lia]. Qed.

Lemma uadd_Ok_inv a b c : uadd a b = Ok c → c = a + b ∧ a + b ≤ USIZE_MAX.
Proof. unfold uadd. destruct (Z.leb_spec (a + b) USIZE_MAX); naive_solver. Qed.

Lemma usub_Ok_inv a b c : usub a b = Ok c → c = a - b ∧ b ≤ a.
Proof. unfold usub. destruct (Z.leb_spec b a); naive_solver. Qed.

Lemma checked_add_Some a b c :
  checked_add a b = Some c ↔ c = a + b ∧ a + b ≤ USIZE_MAX.
Proof. unfold checked_add. destruct (Z.leb_spec (a + b) USIZE_MAX); naive_solver lia. Qed.

Lemma checked_add_None a b : checked_add a b = None ↔ USIZE_MAX < a + b.
Proof. unfold checked_add. destruct (Z.leb_spec (a + b) USIZE_MAX); naive_solver lia. Qed.

(** Masking with the complement of [2^k - 1] clears the low [k] bits. *)
Lemma land_unot_pow2 v k :
  0 ≤ k ≤ 64 → is_usize v → Z.land v (unot (2 ^ k - 1)) = v - v mod 2 ^ k.
Proof.
  unfold is_usize, unot, USIZE_MAX. intros Hk Hv.
  assert (2 ^ 64 - 1 - (2 ^ k - 1) = Z.ldiff (Z.ones 64) (Z.ones k)) as ->.
  { rewrite <- Z.sub_nocarry_ldiff.
    - rewrite !Z.ones_equiv. lia.
    - apply Z.bits_inj'; intros n Hn.
      rewrite Z.ldiff_spec, Z.bits_0, !Z.testbit_ones_nonneg by lia.
      destruct (Z.ltb_spec n k), (Z.ltb_spec n 64); simpl; try done; lia. }
  assert (Z.land v (Z.ldiff (Z.ones 64) (Z.ones k)) = Z.ldiff v (Z.ones k)) as ->.
  { apply Z.bits_inj'; intros n Hn.
    rewrite Z.land_spec, !Z.ldiff_spec, !Z.testbit_ones_nonneg by lia.
    destruct (Z.ltb_spec n 64); simpl; [done|].
    rewrite (Z.bits_above_log2 v n); [done|lia|].
    destruct (decide (v = 0)) as [->|]; [simpl; lia|].
    apply Z.log2_lt_pow2; [lia|].
    apply Z.lt_le_trans with (2 ^ 64); [lia|apply Z.pow_le_mono_r; lia]. }
  rewrite Z.ldiff_ones_r by lia.
  rewrite Z.shiftr_div_pow2, Z.shiftl_mul_pow2 by lia.
  rewrite (Z.mod_eq v (2 ^ k)) by lia. lia.
Qed.

Lemma align_down_pow2 v k :
  0 ≤ k ≤ 64 → is_usize v → align_down v (2 ^ k) = v - v mod 2 ^ k.
Proof. apply land_unot_pow2. Qed.

(** Round [v] up to a multiple of [a]. *)
Definition round_up (v a : Z) : Z := (v + a - 1) / a * a.

Lemma align_up_pow2 v k :
  0 ≤ k < 64 → is_usize v → v + 2 ^ k ≤ USIZE_MAX →
  align_up v (2 ^ k) = Ok (round_up v (2 ^ k)).
Proof.
  intros Hk Hv Hle. unfold align_up.
  pose proof (Z.pow_pos_nonneg 2 k ltac:(lia) ltac:(lia)).
  rewrite uadd_ok by done. simpl.
  rewrite usub_ok by (unfold is_usize in *; lia). simpl.
  rewrite land_unot_pow2 by (unfold is_usize in *; lia).
  unfold round_up. f_equal.
  rewrite (Z.mod_eq (v + 2 ^ k - 1) (2 ^ k)) by lia. lia.
Qed.

Lemma align_up_overflow v a : USIZE_MAX < v + a → align_up v a = Panic.
Proof.
  intros. unfold align_up, uadd.
  destruct (Z.leb_spec (v + a) USIZE_MAX); [lia|done].
Qed.

Lemma round_up_spec v a :
  0 < a → v ≤ round_up v a < v + a ∧ (a | round_up v a).
Proof.
  intros Ha. unfold round_up. split; [|apply Z.divide_factor_r].
  pose proof (Z.div_mod (v + a - 1) a ltac:(lia)).
  pose proof (Z.mod_pos_bound (v + a - 1) a ltac:(lia)). lia.
Qed.

Lemma round_up_id v a : 0 < a → (a | v) → round_up v a = v.
Proof.
  intros Ha [q ->]. unfold round_up.
  replace (q * a + a - 1) with (q * a + (a - 1)) by lia.
  rewrite Z.div_add_l, (Z.div_small (a - 1)) by lia. lia.
Qed.

(** ** Little-endian codecs *)
Lemma length_to_le_bytes n z : length (to_le_bytes n z) = n.
Proof. revert z; induction n; intros; simpl; auto. Qed.

Lemma to_le_bytes_byte n z : Forall is_byte (to_le_bytes n z).
Proof.
  revert z; induction n as [|n IH]; intros z; simpl; constructor; [|apply IH].
  apply Z.mod_pos_bound; lia.
Qed.

Lemma from_to_le_bytes n z :
  0 ≤ z < 256 ^ Z.of_nat n → from_le_bytes (to_le_bytes n z) = z.
Proof.
  revert z; induction n as [|n IH]; intros z Hz; simpl.
  - simpl in Hz. lia.
  - rewrite Nat2Z.inj_succ, Z.pow_succ_r in Hz by lia.
    rewrite IH.
    + pose proof (Z.div_mod z 256). lia.
    + split; [apply Z.div_pos; lia|apply Z.div_lt_upper_bound; lia].
Qed.

Lemma to_from_le_bytes bs :
  Forall is_byte bs → to_le_bytes (length bs) (from_le_bytes bs) = bs.
Proof.
  induction 1 as [|b bs Hb _ IH]; [done|]. simpl. unfold is_byte in Hb.
  replace (b + 256 * from_le_bytes bs) with (from_le_bytes bs * 256 + b) by lia.
  rewrite Z.div_add_l by lia. rewrite (Z.div_small b), Z.add_0_r, IH by lia.
  rewrite Z.add_comm, Z.mod_add, Z.mod_small by lia. done.
Qed.

Lemma from_le_bytes_bound bs :
  Forall is_byte bs → 0 ≤ from_le_bytes bs < 256 ^ Z.of_nat (length bs).
Proof.
  induction 1 as [|b bs Hb _ IH]; simpl; [lia|]. unfold is_byte in Hb.
  rewrite Nat2Z.inj_succ, Z.pow_succ_r by lia. lia.
Qed.

(** ** Lists *)
(** [Vec::len] *)
Definition zlen {A} (l : list A) : Z := Z.of_nat (length l).

Lemma zlen_app {A} (l1 l2 : list A) : zlen (l1 ++ l2) = zlen l1 + zlen l2.
Proof. unfold zlen. rewrite length_app. lia. Qed.

Lemma zlen_replicate {A} n (x : A) : zlen (replicate n x) = Z.of_nat n.
Proof. unfold zlen. by rewrite length_replicate. Qed.

Lemma zlen_nonneg {A} (l : list A) : 0 ≤ zlen l.
Proof. unfold zlen. lia. Qed.

(** Position of the first element satisfying [P] ([Iterator::position]). *)
Fixpoint position {A} (P : A → bool) (l : list A) : option nat :=
  match l with
  | [] => None
  | x :: l' => if P x then Some O else S <$> position P l'
  end.

(** First element satisfying [P] ([Iterator::find]). *)
Fixpoint find_first {A} (P : A → bool) (l : list A) : option A :=
  match l with
  | [] => None
  | x :: l' => if P x then Some x else find_first P l'
  end.

(** First image ([Iterator::find_map]). *)
Fixpoint find_map {A B} (f : A → option B) (l : list A) : option B :=
  match l with
  | [] => None
  | x :: l' => match f x with Some y => Some y | None => find_map f l' end
  end.

Lemma find_first_Some {A} (P : A → bool) l x :
  find_first P l = Some x → x ∈ l ∧ P x = true.
Proof.
  induction l as [|y l IH]; simpl; [done|].
  destruct (P y) eqn:HP; intros Heq; simplify_eq.
  - by split; [left|].
  - destruct IH; [done|]. by split; [right|].
Qed.

Lemma find_first_None {A} (P : A → bool) l :
  find_first P l = None ↔ ∀ x, x ∈ l → P x = false.
Proof.
  induction l as [|y l IH]; simpl; [set_solver|].
  destruct (P y) eqn:HP.
  - split; [done|]. intros H. specialize (H y ltac:(by left)). congruence.
  - rewrite IH. setoid_rewrite elem_of_cons. naive_solver.
Qed.

Lemma find_map_None {A B} (f : A → option B) l :
  find_map f l = None ↔ ∀ x, x ∈ l → f x = None.
Proof.
  induction l as [|y l IH]; simpl; [set_solver|].
  destruct (f y) eqn:HP.
  - split; [done|]. intros H. specialize (H y ltac:(by left)). congruence.
  - rewrite IH. setoid_rewrite elem_of_cons. naive_solver.
Qed.

Lemma find_map_Some {A B} (f : A → option B) l y :
  find_map f l = Some y → ∃ x, x ∈ l ∧ f x = Some y.
Proof.
  induction l as [|x l IH]; simpl; [done|].
  destruct (f x) eqn:HP; intros Heq; simplify_eq.
  - exists x. set_solver.
  - destruct IH as (x' & ? & ?); [done|]. exists x'. set_solver.
Qed.

Lemma position_Some {A} (P : A → bool) l i :
  position P l = Some i →
  ∃ x, l !! i = Some x ∧ P x = true ∧ ∀ j y, (j < i)%nat → l !! j = Some y → P y = false.
Proof.
  revert i; induction l as [|x l IH]; intros i; simpl; [done|].
  destruct (P x) eqn:HP; intros Heq; simplify_eq.
  - exists x. split_and!; [done|done|lia].
  - apply fmap_Some in Heq as (i' & Hi & ->).
    destruct (IH _ Hi) as (y & ? & ? & Hlt). exists y. split_and!; [done|done|].
    intros [|j] z Hj Hz; simpl in *; simplify_eq; [done|]. apply (Hlt j); [lia|done].
Qed.

Lemma position_None {A} (P : A → bool) l :
  position P l = None ↔ ∀ x, x ∈ l → P x = false.
Proof.
  induction l as [|y l IH]; simpl; [set_solver|].
  destruct (P y) eqn:HP.
  - split; [done|]. intros H. specialize (H y ltac:(by left)). congruence.
  - rewrite fmap_None, IH. setoid_rewrite elem_of_cons. naive_solver.
Qed.

(** Loops over a sequence whose body may return early or panic. *)
Fixpoint foldM {A B} (f : B → A → outcome B) (b : B) (l : list A) : outcome B :=
  match l with
  | [] => Ok b
  | x :: l' => b' ← f b x; foldM f b' l'
  end.

(** [Iterator::any] and [Iterator::find_map] with a body that may panic. *)
Fixpoint anyM {A} (f : A → outcome bool) (l : list A) : outcome bool :=
  match l with
  | [] => Ok false
  | x :: l' => b ← f x; if (b : bool) then Ok true else anyM f l'
  end.
Fixpoint find_mapM {A B} (f : A → outcome (option B)) (l : list A) : outcome (option B) :=
  match l with
  | [] => Ok None
  | x :: l' => o ← f x; match (o : option B) with Some y => Ok (Some y) | None => find_mapM f l' end
  end.

Lemma anyM_pure {A} (f : A → outcome bool) (g : A → bool) l :
  (∀ x, x ∈ l → f x = Ok (g x)) → anyM f l = Ok (existsb g l).
Proof.
  induction l as [|x l IH]; intros H; simpl; [done|].
  rewrite H by by left. simpl. destruct (g x); simpl; [done|].
  apply IH. intros y Hy. apply H. by right.
Qed.

Lemma find_mapM_pure {A B} (f : A → outcome (option B)) (g : A → option B) l :
  (∀ x, x ∈ l → f x = Ok (g x)) → find_mapM f l = Ok (find_map g l).
Proof.
  induction l as [|x l IH]; intros H; simpl; [done|].
  rewrite H by by left. simpl. destruct (g x); simpl; [done|].
  apply IH. intros y Hy. apply H. by right.
Qed.

(** ** Byte-addressed kernel memory

    Raw pointers are addresses of a byte store; bytes never written are 0. *)
Definition read_mem (mem : gmap Z Z) (p n : Z) : list Z :=
  (fun i => default 0 (mem !! (p + i))) <$> seqZ 0 n.
Fixpoint write_mem (mem : gmap Z Z) (p : Z) (bs : list Z) : gmap Z Z :=
  match bs with
  | [] => mem
  | b :: bs' => write_mem (<[p := b]> mem) (p + 1) bs'
  end.

Lemma length_read_mem mem p n : length (read_mem mem p n) = Z.to_nat n.
Proof. unfold read_mem. by rewrite length_fmap, length_seqZ. Qed.

Lemma lookup_write_mem mem p bs a :
  write_mem mem p bs !! a =
  if decide (p ≤ a < p + Z.of_nat (length bs)) then bs !! Z.to_nat (a - p) else mem !! a.
Proof.
  revert mem p; induction bs as [|b bs IH]; intros mem p; cbn [write_mem length].
  - rewrite decide_False by lia. done.
  - rewrite IH. destruct (decide (p + 1 ≤ a < p + 1 + Z.of_nat (length bs))).
    + rewrite decide_True by lia.
      replace (Z.to_nat (a - p)) with (S (Z.to_nat (a - (p + 1)))) by lia. done.
    + destruct (decide (a = p)) as [->|].
      * rewrite lookup_insert_eq, decide_True by lia. by rewrite Z.sub_diag.
      * rewrite lookup_insert_ne, decide_False by lia. done.
Qed.

(** ** Invariants of stateful code

    [keeps inv le s m Q]: run from a state [s] that satisfies [inv], the
    method [m] ends in a state that satisfies [inv] and is [le]-later,
    whatever its outcome, and a result satisfies [Q]. *)
Section Keeps.
Context {S : Type} (inv : S → Prop) (le : relation S) `{!PreOrder le}.

Definition keeps {A} (s : S) (m : stm S A) (Q : A → S → Prop) : Prop :=
  inv s → inv (m s).2 ∧ le s (m s).2 ∧ ∀ a, (m s).1 = Ok a → Q a (m s).2.

Lemma keeps_bind {A B} s (m : stm S A) (k : A → stm S B) Q R :
  keeps s m Q →
  (∀ a s', inv s' → le s s' → Q a s' → keeps s' (k a) R) →
  keeps s (m ≫= k) R.
Proof.
  intros Hm Hk Hi. destruct (Hm Hi) as (Hi' & Hle & HQ). rewrite stm_bind_eq.
  destruct (m s) as [[a| | |] s']; simpl in *; [|naive_solver..].
  destruct (Hk a s' Hi' Hle (HQ a eq_refl) Hi') as (? & ? & ?).
  split_and!; [done|by etrans|done].
Qed.

Lemma keeps_weaken {A} s (m : stm S A) (Q R : A → S → Prop) :
  keeps s m Q → (∀ a s', inv s' → le s s' → Q a s' → R a s') → keeps s m R.
Proof. intros Hm HQR Hi. destruct (Hm Hi) as (? & ? & ?). naive_solver. Qed.

Lemma keeps_ret {A} s (a : A) (Q : A → S → Prop) : (inv s → Q a s) → keeps s (mret a) Q.
Proof. intros HQ Hi. split_and!; [done|done|]. intros ? [= <-]. by apply HQ. Qed.

Lemma keeps_reads {A} s (o : outcome A) (Q : A → S → Prop) :
  (∀ a, inv s → o = Ok a → Q a s) → keeps s (lift o) Q.
Proof. intros HQ Hi. split_and!; [done|done|]. simpl. naive_solver. Qed.

Lemma keeps_fail {A} s e (Q : A → S → Prop) : keeps s (fail e) Q.
Proof. intros Hi. split_and!; [done|done|]. done. Qed.

Lemma keeps_get s (Q : S → S → Prop) : (inv s → Q s s) → keeps s get Q.
Proof. intros HQ Hi. split_and!; [done|done|]. intros ? [= <-]. by apply HQ. Qed.

Lemma keeps_modify s f (Q : () → S → Prop) :
  (inv s → inv (f s) ∧ le s (f s) ∧ Q tt (f s)) → keeps s (modify f) Q.
Proof. intros HQ Hi. destruct (HQ Hi) as (? & ? & ?). split_and!; [done|done|]. by intros []. Qed.
End Keeps.

(** ** Tactics *)
(** Split the outcome of monadic code in hypotheses, one bind at a time. *)
Ltac inv_bind :=
  repeat match goal with
  | H : (?m ≫= ?k) = Ok _ |- _ => apply bind_Ok in H as (? & ? & ?)
  | H : (?m ≫= ?k) ?s = (Ok _, _) |- _ => apply stm_bind_Ok in H as (? & ? & ? & ?)
  | H : uadd _ _ = Ok _ |- _ => apply uadd_Ok_inv in H as [? ?]
  | H : usub _ _ = Ok _ |- _ => apply usub_Ok_inv in H as [? ?]
  | H : Ok _ = Ok _ |- _ => injection H as H
  | H : (Ok _, _) = (Ok _, _) |- _ => injection H as H
  | _ => progress simplify_eq
  end.

(** One bind of stateful code, without unfolding anything else. *)
Ltac stm_step :=
  rewrite stm_bind_eq;
  cbv beta iota delta [get put modify lift reads fail mret stm_ret].

(** Reflect boolean comparisons in the context and the goal. *)
Ltac reflect_bools :=
  repeat match goal with
  | H : (_ && _) = true |- _ => apply andb_true_iff in H as [? ?]
  | H : (_ || _) = false |- _ => apply orb_false_iff in H as [? ?]
  | H : negb _ = true |- _ => apply negb_true_iff in H
  | H : negb _ = false |- _ => apply negb_false_iff in H
  | H : (_ =? _) = true |- _ => apply Z.eqb_eq in H
  | H : (_ =? _) = false |- _ => apply Z.eqb_neq in H
  | H : (_ <? _) = true |- _ => apply Z.ltb_lt in H
  | H : (_ <? _) = false |- _ => apply Z.ltb_ge in H
  | H : (_ <=? _) = true |- _ => apply Z.leb_le in H
  | H : (_ <=? _) = false |- _ => apply Z.leb_gt in H
  end.

(** One step of a method under [keeps]: [prim] proves the primitive steps of
    the state, [facts] prepares what a step left in the context. *)
Ltac kstep_with prim facts :=
  match goal with
  | |- keeps _ _ _ (mbind _ _) _ => eapply keeps_bind; [apply _|solve [prim]|facts]
  | |- keeps _ _ _ (mbind _ _) _ =>
      eapply keeps_bind with (Q := fun _ _ => True); [apply _| |facts]
  | |- keeps _ _ _ (mret _) _ => apply keeps_ret; [apply _|facts; first [exact I|eauto with whuse]]
  | |- keeps _ _ _ (fail _) _ => apply keeps_fail; apply _
  | |- keeps _ _ _ (match ?x with _ => _ end) _ => case_match; facts
  | |- keeps _ _ _ _ _ => eapply keeps_weaken; [solve [prim]|facts; eauto with whuse]
  end.
