(* ===== verification/Task.v ===== *)
(** * The cooperative scheduler (crates/task/src/lib.rs)

    [Scheduler] holds the ready queue, the running task and the blocked
    tasks; [WaitQueue] holds the ids of tasks waiting for an event.  Every
    method of both is a definition below, with the mutated [self] threaded
    through.  The proofs establish the invariant of the task sets
    ([sched_wf]), that no operation loses or duplicates a task, the fairness
    of [yield_now] and that a wake-up reaches every registered waiter. *)

From S2P Require Import Prelude.

Module Sched.

Inductive TaskState := Ready | Running | Blocked | Exited.

#[export] Instance TaskState_eq_dec : EqDecision TaskState.
Proof. solve_decision. Defined.

Record Task := mkTask {
  id : Z;
  process_id : Z;
  name : string;
  state : TaskState;
}.

Definition set_state (t : Task) (st : TaskState) : Task :=
  mkTask (id t) (process_id t) (name t) st.

Record WaitToken := mkWaitToken { queue_id : Z; task_id : Z }.

Record WaitQueue := mkWaitQueue { wq_id : Z; waiters : list Z }.

Definition WaitQueue_new (i : Z) : WaitQueue := mkWaitQueue i [].

Definition register (q : WaitQueue) (tid : Z) : WaitToken * WaitQueue :=
  let q' := if existsb (fun w => w =? tid) (waiters q) then q
            else mkWaitQueue (wq_id q) (waiters q ++ [tid]) in
  (mkWaitToken (wq_id q) tid, q').

Definition queue_wake_one (q : WaitQueue) : option Z * WaitQueue :=
  match waiters q with
  | [] => (None, q)
  | w :: ws => (Some w, mkWaitQueue (wq_id q) ws)
  end.

Definition queue_wake_all (q : WaitQueue) : list Z * WaitQueue :=
  (waiters q, mkWaitQueue (wq_id q) []).

Record Scheduler := mkScheduler {
  next_id : Z;
  ready : list Task;
  current : option Task;
  blocked : gmap Z Task;
  next_wait_queue : Z;
}.

Definition Scheduler_new : Scheduler := mkScheduler 1 [] None ∅ 1.

Definition with_ready (s : Scheduler) r :=
  mkScheduler (next_id s) r (current s) (blocked s) (next_wait_queue s).
Definition with_current (s : Scheduler) c :=
  mkScheduler (next_id s) (ready s) c (blocked s) (next_wait_queue s).
Definition with_blocked (s : Scheduler) b :=
  mkScheduler (next_id s) (ready s) (current s) b (next_wait_queue s).

Definition create_wait_queue (s : Scheduler) : outcome (WaitQueue * Scheduler) :=
  n ← uadd (next_wait_queue s) 1;
  Ok (WaitQueue_new (next_wait_queue s),
      mkScheduler (next_id s) (ready s) (current s) (blocked s) n).

Definition spawn (s : Scheduler) (nm : string) (thread_id pid : Z)
  : outcome (Z * Scheduler) :=
  n ← uadd thread_id 1;
  Ok (thread_id,
      mkScheduler (Z.max (next_id s) n) (ready s ++ [mkTask thread_id pid nm Ready])
        (current s) (blocked s) (next_wait_queue s)).

Definition schedule_next (s : Scheduler) : option Z * Scheduler :=
  match ready s with
  | [] => (None, s)
  | t :: r => (Some (id t), with_current (with_ready s r) (Some (set_state t Running)))
  end.

Definition start (s : Scheduler) : option Z * Scheduler := schedule_next s.

Definition ensure_current (s : Scheduler) : option Z * Scheduler :=
  match current s with
  | Some c => (Some (id c), s)
  | None => schedule_next s
  end.

Definition yield_now (s : Scheduler) : option Z * Scheduler :=
  match current s with
  | Some c =>
      let s1 := with_current s None in
      schedule_next
        (if decide (state c = Exited) then s1
         else with_ready s1 (ready s1 ++ [set_state c Ready]))
  | None => schedule_next s
  end.

(** The taken task is dropped. *)
Definition exit_current (s : Scheduler) : Scheduler :=
  match current s with
  | Some _ => with_current s None
  | None => s
  end.

Definition current_process_id (s : Scheduler) : option Z := process_id <$> current s.
Definition current_thread_id (s : Scheduler) : option Z := id <$> current s.

Definition block_current_on (s : Scheduler) (q : WaitQueue)
  : option WaitToken * Scheduler * WaitQueue :=
  match current s with
  | None => (None, s, q)
  | Some c =>
      let '(token, q') := register q (id c) in
      let s1 := with_blocked (with_current s None)
                  (<[id c := set_state c Blocked]> (blocked s)) in
      (Some token, (schedule_next s1).2, q')
  end.

Definition block_current (s : Scheduler) : option Z * Scheduler :=
  match current s with
  | None => (None, s)
  | Some c =>
      let s1 := with_blocked (with_current s None)
                  (<[id c := set_state c Blocked]> (blocked s)) in
      (Some (id c), (schedule_next s1).2)
  end.

Definition wake_task (s : Scheduler) (tid : Z) : bool * Scheduler :=
  match blocked s !! tid with
  | None => (false, s)
  | Some t =>
      (true, with_ready (with_blocked s (delete tid (blocked s)))
               (ready s ++ [set_state t Ready]))
  end.

(** The loop shared by [wake_all_blocked] and [wake_all]. *)
Fixpoint wake_tasks (s : Scheduler) (tids : list Z) : nat * Scheduler :=
  match tids with
  | [] => (0%nat, s)
  | tid :: tids' =>
      let '(woke, s1) := wake_task s tid in
      let '(n, s2) := wake_tasks s1 tids' in
      ((if woke then S n else n), s2)
  end.

Definition wake_all_blocked (s : Scheduler) : nat * Scheduler :=
  wake_tasks s (keys (blocked s)).

Definition wake_one (s : Scheduler) (q : WaitQueue) : option Z * Scheduler * WaitQueue :=
  match queue_wake_one q with
  | (None, q') => (None, s, q')
  | (Some tid, q') => (Some tid, (wake_task s tid).2, q')
  end.

Definition wake_all (s : Scheduler) (q : WaitQueue) : nat * Scheduler * WaitQueue :=
  let '(tids, q') := queue_wake_all q in
  let '(n, s') := wake_tasks s tids in (n, s', q').

Definition blocked_count (s : Scheduler) : nat := size (blocked s).
Definition ready_count (s : Scheduler) : nat := length (ready s).
Definition blocked_task_ids (s : Scheduler) : list Z := keys (blocked s).

Definition is_blocked (s : Scheduler) (tid : Z) : bool := bool_decide (is_Some (blocked s !! tid)).
Definition is_ready (s : Scheduler) (tid : Z) : bool :=
  existsb (fun t => id t =? tid) (ready s).
Definition is_current (s : Scheduler) (tid : Z) : bool :=
  match current s with Some t => id t =? tid | None => false end.

Definition task_state_label (s : Scheduler) (tid : Z) : string :=
  if is_current s tid then "running"
  else if is_ready s tid then "ready"
  else if is_blocked s tid then "blocked"
  else "gone".

Definition remove_task (s : Scheduler) (tid : Z) : bool * Scheduler :=
  if is_current s tid then (true, with_current s None)
  else match position (fun t => id t =? tid) (ready s) with
  | Some i => (true, with_ready s (take i (ready s) ++ drop (S i) (ready s)))
  | None => (is_blocked s tid, with_blocked s (delete tid (blocked s)))
  end.

(** [blocked_ids] of [exit_group]: the blocked tasks of the process. *)
Definition blocked_ids_of (s : Scheduler) (pid : Z) : list Z :=
  omap (fun '(k, t) => if process_id t =? pid then Some k else None) (items (blocked s)).

Definition exit_group (s : Scheduler) (pid : Z) : nat * Scheduler :=
  let hit := match current s with Some t => process_id t =? pid | None => false end in
  let s1 := if hit then with_current s None else s in
  let kept := filter (fun t => process_id t ≠ pid) (ready s1) in
  let removed := ((if hit then 1 else 0) + (length (ready s1) - length kept))%nat in
  let ids := blocked_ids_of s pid in
  ((removed + length ids)%nat,
   with_blocked (with_ready s1 kept) (foldl (fun b k => delete k b) (blocked s1) ids)).

(** ** The invariant of the task sets *)

Definition all_tasks (s : Scheduler) : list Task :=
  ready s ++ option_list (current s) ++ values (blocked s).
Definition task_ids (s : Scheduler) : list Z := id <$> all_tasks s.

Record sched_wf (s : Scheduler) : Prop := {
  wf_nodup : NoDup (task_ids s);
  wf_ready : ∀ t, t ∈ ready s → state t = Ready;
  wf_current : ∀ t, current s = Some t → state t = Running;
  wf_blocked : ∀ k t, blocked s !! k = Some t → id t = k ∧ state t = Blocked;
  wf_fresh : ∀ i, i ∈ task_ids s → i < next_id s;
}.

(** The scheduler calls the kernel makes.  [spawn] is given a thread id of no
    live task; [start] is only called with no running task. *)
Inductive sched_step : Scheduler → Scheduler → Prop :=
  | step_spawn s nm tid pid i s' :
      tid ∉ task_ids s → spawn s nm tid pid = Ok (i, s') → sched_step s s'
  | step_queue s q s' : create_wait_queue s = Ok (q, s') → sched_step s s'
  | step_start s : current s = None → sched_step s (start s).2
  | step_ensure s : sched_step s (ensure_current s).2
  | step_yield s : sched_step s (yield_now s).2
  | step_exit s : sched_step s (exit_current s)
  | step_block_on s q : sched_step s (block_current_on s q).1.2
  | step_block s : sched_step s (block_current s).2
  | step_wake s tid : sched_step s (wake_task s tid).2
  | step_wake_blocked s : sched_step s (wake_all_blocked s).2
  | step_wake_one s q : sched_step s (wake_one s q).1.2
  | step_wake_all s q : sched_step s (wake_all s q).1.2
  | step_remove s tid : sched_step s (remove_task s tid).2
  | step_exit_group s pid : sched_step s (exit_group s pid).2.

Definition reachable (s : Scheduler) : Prop := rtc sched_step Scheduler_new s.

(** ** Lemmas *)

Lemma task_ids_eq s :
  task_ids s = (id <$> ready s) ++ (id <$> option_list (current s)) ++ (id <$> values (blocked s)).
Proof. unfold task_ids, all_tasks. by rewrite !fmap_app. Qed.

(** An operation that permutes the tasks keeps ids unique and bounded. *)
Lemma wf_perm s s' :
  task_ids s' ⊆+ task_ids s → next_id s ≤ next_id s' →
  (∀ t, t ∈ ready s' → state t = Ready) →
  (∀ t, current s' = Some t → state t = Running) →
  (∀ k t, blocked s' !! k = Some t → id t = k ∧ state t = Blocked) →
  sched_wf s → sched_wf s'.
Proof.
  intros Hsub Hle Hr Hc Hb [Hnd _ _ _ Hf]. split; try done.
  - destruct (submseteq_Permutation _ _ Hsub) as [k Hk].
    rewrite Hk in Hnd. by apply NoDup_app in Hnd as (? & _).
  - intros i Hi. eapply Z.lt_le_trans; [apply Hf|done].
    by eapply elem_of_submseteq.
Qed.

Lemma schedule_next_ids s :
  current s = None → task_ids (schedule_next s).2 ≡ₚ task_ids s.
Proof.
  intros Hc. unfold schedule_next. rewrite !task_ids_eq.
  destruct (ready s) as [|t r] eqn:Hr; simpl.
  - by rewrite Hr, Hc.
  - rewrite Hc. simpl. by rewrite <- Permutation_middle.
Qed.

Lemma schedule_next_wf s : current s = None → sched_wf s → sched_wf (schedule_next s).2.
Proof.
  intros Hc Hwf. pose proof Hwf as [Hnd Hr Hcur Hb Hf].
  apply (wf_perm s); [| | | | |done].
  - by rewrite schedule_next_ids.
  - unfold schedule_next. by destruct (ready s).
  - unfold schedule_next. destruct (ready s) as [|t r] eqn:He; simpl; [by rewrite He|].
    intros t' ?. apply Hr. by right.
  - unfold schedule_next. destruct (ready s) as [|t r] eqn:He; simpl; naive_solver.
  - unfold schedule_next. destruct (ready s); simpl; done.
Qed.

(** [yield_now] and the blocking calls first move the running task. *)
Definition requeue_current (s : Scheduler) (c : Task) : Scheduler :=
  with_ready (with_current s None) (ready s ++ [set_state c Ready]).
Definition park_current (s : Scheduler) (c : Task) : Scheduler :=
  with_blocked (with_current s None) (<[id c := set_state c Blocked]> (blocked s)).

Lemma current_not_blocked s c :
  sched_wf s → current s = Some c → blocked s !! id c = None.
Proof.
  intros [Hnd _ _ Hb _] Hc. apply eq_None_not_Some. intros [t Ht].
  rewrite task_ids_eq, Hc in Hnd. simpl in Hnd.
  apply NoDup_app in Hnd as (_ & _ & Hnd). apply NoDup_cons in Hnd as [Hnin _].
  apply Hnin. destruct (Hb _ _ Ht) as [Hid _]. rewrite <- Hid.
  apply list_elem_of_fmap. exists t. split; [done|]. apply elem_of_values. eauto.
Qed.

Lemma requeue_current_ids s c :
  current s = Some c → task_ids (requeue_current s c) ≡ₚ task_ids s.
Proof.
  intros Hc. rewrite !task_ids_eq. simpl. rewrite Hc, fmap_app. simpl.
  by rewrite <- app_assoc.
Qed.

Lemma park_current_ids s c :
  sched_wf s → current s = Some c → task_ids (park_current s c) ≡ₚ task_ids s.
Proof.
  intros Hwf Hc. rewrite !task_ids_eq. simpl. rewrite Hc. simpl.
  rewrite values_insert by by apply current_not_blocked. done.
Qed.

Lemma requeue_current_wf s c :
  current s = Some c → sched_wf s → sched_wf (requeue_current s c).
Proof.
  intros Hc Hwf. pose proof Hwf as [Hnd Hr Hcur Hb Hf].
  apply (wf_perm s); [by rewrite requeue_current_ids|done|..|done]; simpl.
  - intros t Ht. apply elem_of_app in Ht as [?|?%list_elem_of_singleton]; [by apply Hr|by subst].
  - done.
  - done.
Qed.

Lemma park_current_wf s c : current s = Some c → sched_wf s → sched_wf (park_current s c).
Proof.
  intros Hc Hwf. pose proof Hwf as [Hnd Hr Hcur Hb Hf].
  apply (wf_perm s); [by rewrite park_current_ids|done|..|done]; simpl; [done|done|].
  intros k t. rewrite lookup_insert_Some. intros [[<- <-]|[? ?]]; [done|by apply Hb].
Qed.

Lemma wake_task_ids s tid : sched_wf s → task_ids (wake_task s tid).2 ≡ₚ task_ids s.
Proof.
  intros Hwf. unfold wake_task. destruct (blocked s !! tid) as [t|] eqn:Ht; [|done].
  simpl. rewrite !task_ids_eq. simpl. rewrite fmap_app. simpl.
  rewrite (values_delete (blocked s) tid t) by done. simpl.
  rewrite <- !app_assoc. simpl. apply Permutation_app_head.
  rewrite (Permutation_middle _ _ (id t)). done.
Qed.

Lemma wake_task_wf s tid : sched_wf s → sched_wf (wake_task s tid).2.
Proof.
  intros Hwf. pose proof Hwf as [Hnd Hr Hcur Hb Hf].
  apply (wf_perm s); [by rewrite wake_task_ids|..|done]; unfold wake_task;
    destruct (blocked s !! tid) as [t|] eqn:Ht; simpl; try done.
  - intros t' Ht'. apply elem_of_app in Ht' as [?|?%list_elem_of_singleton]; [by apply Hr|by subst].
  - intros k t'. rewrite lookup_delete_Some. intros [? ?]. by apply Hb.
Qed.

Lemma wake_tasks_wf s tids :
  sched_wf s → sched_wf (wake_tasks s tids).2 ∧ task_ids (wake_tasks s tids).2 ≡ₚ task_ids s.
Proof.
  revert s; induction tids as [|tid tids IH]; intros s Hwf; simpl; [done|].
  pose proof (wake_task_wf s tid Hwf) as Hwf1. pose proof (wake_task_ids s tid Hwf) as Hp.
  destruct (wake_task s tid) as [woke s1]. simpl in *.
  destruct (IH s1 Hwf1) as [? Hp1]. destruct (wake_tasks s1 tids). simpl in *.
  split; [done|]. by rewrite Hp1.
Qed.

Lemma exit_current_wf s : sched_wf s → sched_wf (exit_current s).
Proof.
  intros Hwf. pose proof Hwf as [Hnd Hr Hcur Hb Hf]. unfold exit_current.
  destruct (current s) as [c|] eqn:Hc; [|done].
  apply (wf_perm s); simpl; try done.
  rewrite !task_ids_eq. simpl. apply submseteq_app; [done|].
  by apply submseteq_inserts_l.
Qed.

Lemma remove_task_wf s tid : sched_wf s → sched_wf (remove_task s tid).2.
Proof.
  intros Hwf. pose proof Hwf as [Hnd Hr Hcur Hb Hf]. unfold remove_task.
  destruct (is_current s tid).
  { apply (wf_perm s); simpl; try done. rewrite !task_ids_eq. simpl.
    apply submseteq_app; [done|]. by apply submseteq_inserts_l. }
  destruct (position _ (ready s)) as [i|] eqn:Hi; simpl.
  - assert (take i (ready s) ++ drop (S i) (ready s) ⊆+ ready s) as Hsub.
    { rewrite <- (take_drop i (ready s)) at 3. apply submseteq_app; [done|].
      rewrite <- Nat.add_1_r, <- drop_drop. apply sublist_submseteq, sublist_drop. }
    apply (wf_perm s); simpl; try done.
    + rewrite !task_ids_eq. simpl. apply submseteq_app; [|done].
      by apply fmap_submseteq.
    + intros t Ht. apply Hr. by eapply elem_of_submseteq.
  - destruct (blocked s !! tid) as [t|] eqn:Ht.
    + apply (wf_perm s); simpl; try done.
      * rewrite !task_ids_eq. simpl. rewrite (values_delete (blocked s) tid t) by done.
        apply submseteq_app; [done|]. apply submseteq_app; [done|].
        by apply submseteq_cons.
      * intros k t'. rewrite lookup_delete_Some. intros [? ?]. by apply Hb.
    + rewrite delete_id by done. by destruct s.
Qed.

Lemma foldl_delete_lookup (b : gmap Z Task) ids k :
  foldl (fun b k => delete k b) b ids !! k = if decide (k ∈ ids) then None else b !! k.
Proof.
  revert b; induction ids as [|i ids IH]; intros b; cbn [foldl].
  - destruct (decide (k ∈ [])); [set_solver|done].
  - rewrite IH, lookup_delete.
    destruct (decide (k ∈ ids)), (decide (k ∈ i :: ids)), (decide (i = k)); set_solver.
Qed.

Lemma elem_of_blocked_ids_of s pid k :
  k ∈ blocked_ids_of s pid ↔ ∃ t, blocked s !! k = Some t ∧ process_id t = pid.
Proof.
  unfold blocked_ids_of. rewrite list_elem_of_omap. split.
  - intros ([k' t] & Hin & Hk). destruct (Z.eqb_spec (process_id t) pid); simplify_eq.
    exists t. split; [by apply elem_of_items|done].
  - intros (t & Ht & <-). exists (k, t). rewrite elem_of_items, Z.eqb_refl. done.
Qed.

(** The blocked map of [exit_group] keeps the tasks of other processes. *)
Lemma exit_group_blocked s pid k :
  blocked (exit_group s pid).2 !! k =
  match blocked s !! k with
  | Some t => if decide (process_id t = pid) then None else Some t
  | None => None
  end.
Proof.
  unfold exit_group. cbn [snd blocked with_blocked].
  rewrite foldl_delete_lookup.
  assert (blocked (if match current s with Some t => process_id t =? pid | None => false end
                   then with_current s None else s) = blocked s) as ->
    by (by destruct (current s) as [t|]; [destruct (process_id t =? pid)|]).
  destruct (blocked s !! k) as [t|] eqn:Ht.
  - destruct (decide (process_id t = pid)).
    + rewrite decide_True; [done|]. apply elem_of_blocked_ids_of. eauto.
    + rewrite decide_False; [done|]. rewrite elem_of_blocked_ids_of. naive_solver.
  - rewrite decide_False; [done|]. rewrite elem_of_blocked_ids_of. naive_solver.
Qed.

Lemma values_filter_submseteq (m m' : gmap Z Task) :
  m' ⊆ m → values m' ⊆+ values m.
Proof.
  intros Hsub. unfold values. apply fmap_submseteq. rewrite !items_Permutation.
  by apply map_to_list_submseteq.
Qed.

Lemma exit_group_wf s pid : sched_wf s → sched_wf (exit_group s pid).2.
Proof.
  intros Hwf. pose proof Hwf as [Hnd Hr Hcur Hb Hf].
  assert (blocked (exit_group s pid).2 ⊆ blocked s) as Hsub.
  { apply map_subseteq_spec. intros k t. rewrite exit_group_blocked.
    destruct (blocked s !! k) as [t'|]; [|done]. by destruct (decide _). }
  apply (wf_perm s); [| | | | |done].
  - rewrite !task_ids_eq. repeat apply submseteq_app; apply fmap_submseteq.
    + cbn. apply sublist_submseteq. destruct (current s) as [t|];
        [destruct (process_id t =? pid)|]; apply sublist_filter.
    + cbn. destruct (current s) as [t|] eqn:Hc; [|by rewrite Hc].
      destruct (process_id t =? pid); simpl; [apply submseteq_nil_l|by rewrite Hc].
    + by apply values_filter_submseteq.
  - cbn. destruct (current s) as [t|]; [destruct (process_id t =? pid)|]; done.
  - cbn. intros t Ht. apply list_elem_of_filter in Ht as [_ Ht]. apply Hr.
    destruct (current s) as [c|]; [destruct (process_id c =? pid)|]; done.
  - cbn. intros t Ht. apply Hcur.
    destruct (current s) as [c|] eqn:Hc; [destruct (process_id c =? pid)|]; simpl in *; congruence.
  - intros k t Ht. apply Hb. by eapply lookup_weaken.
Qed.

Lemma spawn_ids s nm tid pid i s' :
  spawn s nm tid pid = Ok (i, s') → i = tid ∧ task_ids s' ≡ₚ tid :: task_ids s.
Proof.
  unfold spawn. intros H. inv_bind. split; [done|].
  rewrite !task_ids_eq. simpl. rewrite fmap_app. simpl.
  by rewrite <- app_assoc, Permutation_app_swap_app.
Qed.

Lemma spawn_wf s nm tid pid i s' :
  tid ∉ task_ids s → spawn s nm tid pid = Ok (i, s') → sched_wf s → sched_wf s'.
Proof.
  intros Hnin Hsp [Hnd Hr Hcur Hb Hf]. destruct (spawn_ids _ _ _ _ _ _ Hsp) as [-> Hp].
  unfold spawn in Hsp. inv_bind. split; [|simpl; try done..|].
  - rewrite Hp. by apply NoDup_cons.
  - intros t Ht. apply elem_of_app in Ht as [?|?%list_elem_of_singleton]; [by apply Hr|by subst].
  - intros i. rewrite Hp, elem_of_cons. simpl.
    intros [->|Hi]; [lia|]. specialize (Hf _ Hi). lia.
Qed.

(** Every scheduler call keeps the invariant. *)
Lemma sched_step_wf s s' : sched_step s s' → sched_wf s → sched_wf s'.
Proof.
  intros Hstep Hwf. pose proof Hwf as [Hnd Hr Hcur Hb Hf]. destruct Hstep.
  - by eapply spawn_wf.
  - unfold create_wait_queue in *. inv_bind. by split.
  - by apply schedule_next_wf.
  - unfold ensure_current. destruct (current s) eqn:Hc; [done|]. by apply schedule_next_wf.
  - unfold yield_now. destruct (current s) as [c|] eqn:Hc; [|by apply schedule_next_wf].
    rewrite decide_False by (rewrite (Hcur c eq_refl); done).
    apply schedule_next_wf; [done|]. by apply (requeue_current_wf s c).
  - by apply exit_current_wf.
  - unfold block_current_on. destruct (current s) as [c|] eqn:Hc; [|done].
    destruct (register q (id c)). cbn. apply schedule_next_wf; [done|]. by apply park_current_wf.
  - unfold block_current. destruct (current s) as [c|] eqn:Hc; [|done].
    apply schedule_next_wf; [done|]. by apply park_current_wf.
  - by apply wake_task_wf.
  - by apply wake_tasks_wf.
  - unfold wake_one. destruct (queue_wake_one q) as [[tid|] q']; [by apply wake_task_wf|done].
  - unfold wake_all, queue_wake_all.
    destruct (wake_tasks_wf s (waiters q) Hwf) as [? _].
    by destruct (wake_tasks s (waiters q)).
  - by apply remove_task_wf.
  - by apply exit_group_wf.
Qed.

Lemma Scheduler_new_wf : sched_wf Scheduler_new.
Proof.
  assert (task_ids Scheduler_new = []) as He
    by (unfold task_ids, all_tasks; simpl; by rewrite values_empty).
  split; rewrite ?He; simpl; try done; try (by intros ? ?%elem_of_nil).
  constructor.
Qed.

(** The invariant is decidable: a check that evaluates. *)
Definition sched_wf_check (s : Scheduler) : bool :=
  bool_decide (NoDup (task_ids s)) &&
  bool_decide (Forall (fun t => state t = Ready) (ready s)) &&
  bool_decide (Forall (fun t => state t = Running) (option_list (current s))) &&
  bool_decide (Forall (fun '(k, t) => id t = k ∧ state t = Blocked) (items (blocked s))) &&
  bool_decide (Forall (fun i => i < next_id s) (task_ids s)).

Lemma sched_wf_check_sound s : sched_wf_check s = true → sched_wf s.
Proof.
  unfold sched_wf_check. rewrite !andb_true_iff, !bool_decide_eq_true, !Forall_forall.
  intros ((((? & ?) & Hc) & Hb) & ?). split; try done.
  - intros t Ht. apply Hc. rewrite Ht. set_solver.
  - intros k t Hk. apply (Hb (k, t)). by apply elem_of_items.
Qed.

Definition sample_scheduler : Scheduler :=
  mkScheduler 6 [mkTask 2 2 "b" Ready; mkTask 3 3 "c" Ready] (Some (mkTask 1 1 "a" Running))
    {[ 4 := mkTask 4 1 "d" Blocked; 5 := mkTask 5 2 "e" Blocked ]} 1.

(** ** Theorems *)

(** C9: in every state the scheduler can reach, each task is in exactly one of
    the ready queue, the running slot and the blocked map, with the state tag
    of its place; blocked tasks are filed under their own id, and ids stay
    below [next_id]. *)
Theorem reachable_wf s : reachable s → sched_wf s.
Proof.
  intros Hs. unfold reachable in Hs. revert Hs.
  apply (rtc_ind_r (fun s => sched_wf s)); [apply Scheduler_new_wf|].
  intros. by eapply sched_step_wf.
Qed.

Lemma reachable_wf_witness :
  sched_wf (yield_now (mkScheduler 3 [mkTask 1 1 "a" Ready; mkTask 2 2 "b" Ready] None ∅ 1)).2.
Proof.
  apply reachable_wf.
  eapply rtc_l; [eapply (step_spawn _ "a" 1 1); [set_solver|reflexivity]|].
  eapply rtc_l; [eapply (step_spawn _ "b" 2 2)|].
  - vm_compute. intros H. apply list_elem_of_singleton in H. done.
  - reflexivity.
  - eapply rtc_l; [apply step_yield|]. apply rtc_refl.
Defined.

Lemma yield_now_eq s c :
  sched_wf s → current s = Some c →
  yield_now s = schedule_next (requeue_current s c).
Proof.
  intros [_ _ Hcur _ _] Hc. unfold yield_now. rewrite Hc.
  rewrite decide_False by (rewrite (Hcur c Hc); done). done.
Qed.

Definition yield_iter (n : nat) (s : Scheduler) : Scheduler :=
  Nat.iter n (fun s => (yield_now s).2) s.

Lemma yield_iter_S n s : yield_iter (S n) s = yield_iter n (yield_now s).2.
Proof. unfold yield_iter. induction n as [|n IH]; [done|]. simpl in *. by rewrite IH. Qed.

(** One turn of the rotation on the ready queue and the running task. *)
Lemma yield_now_rotate s c t r :
  sched_wf s → current s = Some c → ready s = t :: r →
  (yield_now s).2 = with_current (with_ready s (r ++ [set_state c Ready])) (Some (set_state t Running)).
Proof.
  intros Hwf Hc Hr. rewrite (yield_now_eq s c Hwf Hc).
  unfold schedule_next, requeue_current. simpl. by rewrite Hr.
Qed.

Lemma yield_now_wf s : sched_wf s → sched_wf (yield_now s).2.
Proof. intros. eapply sched_step_wf; [apply step_yield|done]. Qed.

Lemma set_state_same t st st' : state t = st → set_state (set_state t st') st = t.
Proof. intros <-. by destruct t. Qed.

(** After [i] turns the queue is rotated by [i]. *)
Lemma yield_iter_rotate s c r1 r2 :
  sched_wf s → current s = Some c → ready s = r1 ++ r2 → r2 ≠ [] →
  ∃ t, r2 !! O = Some t ∧
    yield_iter (S (length r1)) s =
      with_current (with_ready s (tail r2 ++ set_state c Ready :: r1)) (Some (set_state t Running)).
Proof.
  revert s c r2; induction r1 as [|t1 r1 IH]; intros s c r2 Hwf Hc Hr Hne.
  - destruct r2 as [|t r2]; [done|]. exists t. split; [done|].
    simpl. by rewrite (yield_now_rotate s c t r2).
  - rewrite yield_iter_S.
    pose proof (yield_now_wf s Hwf) as Hwf'. pose proof Hwf as [_ Hrdy _ _ _].
    rewrite (yield_now_rotate s c t1 (r1 ++ r2)) in * by done.
    destruct r2 as [|t r2]; [done|]. clear Hne.
    destruct (IH _ (set_state t1 Running) (t :: r2 ++ [set_state c Ready]) Hwf') as (t' & Ht' & Heq);
      [done|simpl; by rewrite <- app_assoc|done|].
    exists t'. split; [done|]. simpl in Ht'. simplify_eq. cbn [length].
    rewrite Heq. simpl. rewrite <- !app_assoc. simpl.
    rewrite (set_state_same t1 Ready); [done|]. apply Hrdy. rewrite Hr. by left.
Qed.

Lemma yield_iter_wf n s : sched_wf s → sched_wf (yield_iter n s).
Proof. intros. induction n as [|n IH]; [done|]. simpl. by apply yield_now_wf. Qed.

Lemma yield_alone s c :
  sched_wf s → current s = Some c → ready s = [] → yield_iter 1 s = s.
Proof.
  intros Hwf Hc Hr. pose proof Hwf as [_ _ Hcur _ _]. simpl.
  rewrite (yield_now_eq s c Hwf Hc). unfold schedule_next. simpl. rewrite Hr. simpl.
  rewrite set_state_same by by apply Hcur.
  destruct s; unfold with_current, with_ready; simpl in *; congruence.
Qed.

Lemma scheduler_restore s c t r :
  sched_wf s → current s = Some c → ready s = r ++ [t] →
  with_current (with_ready (with_current (with_ready s (set_state c Ready :: r))
      (Some (set_state t Running))) (r ++ [set_state (set_state t Running) Ready]))
    (Some (set_state (set_state c Ready) Running)) = s.
Proof.
  intros [_ Hrdy Hcur _ _] Hc Hr.
  rewrite set_state_same by (apply Hrdy; rewrite Hr; set_solver).
  rewrite set_state_same by by apply Hcur.
  destruct s; unfold with_current, with_ready; simpl in *; congruence.
Qed.

(** C25: round-robin fairness.  The task at position [i] of the ready queue is
    the running task after [i + 1] yields, and after one yield more than the
    queue is long the scheduler is back in the state it started from. *)
Theorem yield_round_robin s c :
  sched_wf s → current s = Some c →
  (∀ i t, ready s !! i = Some t → current_thread_id (yield_iter (S i) s) = Some (id t)) ∧
  yield_iter (S (length (ready s))) s = s.
Proof.
  intros Hwf Hc. split.
  - intros i t Ht.
    destruct (yield_iter_rotate s c (take i (ready s)) (drop i (ready s)) Hwf Hc) as (t' & Ht' & Heq).
    + by rewrite take_drop.
    + intros Hd. apply (f_equal (lookup O)) in Hd. rewrite lookup_drop, Nat.add_0_r, Ht in Hd. done.
    + rewrite lookup_drop, Nat.add_0_r, Ht in Ht'. simplify_eq.
      rewrite length_take_le in Heq by (apply lookup_lt_Some in Ht; lia).
      by rewrite Heq.
  - destruct (decide (ready s = [])) as [Hr|Hne].
    + rewrite Hr. by apply (yield_alone s c).
    + destruct (exists_last Hne) as (r & t & Hr).
      destruct (yield_iter_rotate s c r [t] Hwf Hc Hr) as (t' & [= <-] & Heq); [done|].
      rewrite Hr, length_app, Nat.add_1_r. cbn [length].
      change (yield_iter (S (S (length r))) s) with (yield_now (yield_iter (S (length r)) s)).2.
      pose proof (yield_iter_wf (S (length r)) s Hwf) as Hwf'. rewrite Heq in *.
      rewrite (yield_now_rotate _ (set_state t Running) (set_state c Ready) r Hwf') by done.
      apply scheduler_restore; [done|done|by rewrite Hr].
Qed.

Lemma yield_round_robin_witness :
  current_thread_id (yield_iter 2 sample_scheduler) = Some 3 ∧
  yield_iter 3 sample_scheduler = sample_scheduler.
Proof.
  destruct (yield_round_robin sample_scheduler (mkTask 1 1 "a" Running)) as [Hi Hn].
  - by apply sched_wf_check_sound.
  - done.
  - split; [exact (Hi 1%nat (mkTask 3 3 "c" Ready) eq_refl)|exact Hn].
Defined.

(** Waking a list of distinct ids, in order. *)
Lemma wake_tasks_spec s tids :
  NoDup tids →
  wake_tasks s tids =
    (length (omap (fun k => blocked s !! k) tids),
     with_ready (with_blocked s (foldl (fun b k => delete k b) (blocked s) tids))
       (ready s ++ ((fun t => set_state t Ready) <$> omap (fun k => blocked s !! k) tids))).
Proof.
  revert s; induction tids as [|tid tids IH]; intros s Hnd; cbn [wake_tasks omap list_omap foldl].
  { simpl. rewrite app_nil_r. by destruct s. }
  apply NoDup_cons in Hnd as [Hnin Hnd]. unfold wake_task.
  destruct (blocked s !! tid) as [t|] eqn:Ht.
  - rewrite IH by done. simpl.
    assert (omap (fun k => delete tid (blocked s) !! k) tids =
            omap (fun k => blocked s !! k) tids) as ->.
    { apply list_omap_ext, Forall2_same_length_lookup_2; [done|].
      intros i x y Hx Hy. simplify_eq. rewrite lookup_delete_ne; [done|].
      intros ->. apply Hnin. by eapply list_elem_of_lookup_2. }
    rewrite <- app_assoc. done.
  - rewrite IH by done. rewrite (delete_id _ tid) by done. done.
Qed.

(** waking a wait queue loses no waiter.  The queue is emptied; the tasks
    it held that were blocked join the ready queue in the order they
    registered, none of its waiters is left blocked, tasks outside the queue
    stay blocked, and the count returned is the number of tasks woken. *)
Theorem wake_all_spec s q n s' q' :
  sched_wf s → NoDup (waiters q) → wake_all s q = (n, s', q') →
  waiters q' = [] ∧
  ready s' = ready s ++ ((fun t => set_state t Ready) <$> omap (fun k => blocked s !! k) (waiters q)) ∧
  (∀ k, blocked s' !! k = if decide (k ∈ waiters q) then None else blocked s !! k) ∧
  n = (blocked_count s - blocked_count s')%nat ∧
  task_ids s' ≡ₚ task_ids s.
Proof.
  intros Hwf Hnd. unfold wake_all, queue_wake_all.
  destruct (wake_tasks_wf s (waiters q) Hwf) as [_ Hp].
  rewrite wake_tasks_spec in Hp |- * by done. intros [= <- <- <-]. simpl in *.
  split_and!; [done|done|apply foldl_delete_lookup| |done].
  rewrite !task_ids_eq in Hp. apply Permutation_length in Hp. simpl in Hp.
  rewrite !length_app, !length_fmap, length_app, length_fmap in Hp.
  assert (∀ m : gmap Z Task, length (values m) = size m) as Hlen.
  { intros m. unfold values. by rewrite length_fmap, items_Permutation, length_map_to_list. }
  rewrite !Hlen in Hp. unfold blocked_count. simpl. lia.
Qed.

Lemma wake_all_spec_witness :
  (wake_all sample_scheduler (mkWaitQueue 1 [5; 7; 4])).1.1 = 2%nat ∧
  ready (wake_all sample_scheduler (mkWaitQueue 1 [5; 7; 4])).1.2 =
    [mkTask 2 2 "b" Ready; mkTask 3 3 "c" Ready; mkTask 5 2 "e" Ready; mkTask 4 1 "d" Ready].
Proof.
  pose proof (wake_all_spec sample_scheduler (mkWaitQueue 1 [5; 7; 4]) _ _ _
    ltac:(by apply sched_wf_check_sound) ltac:(by apply (bool_decide_unpack _)) eq_refl)
    as (_ & Hr & _ & _).
  split; [reflexivity|exact Hr].
Defined.

Lemma NoDup_blocked_ids_of s pid : NoDup (blocked_ids_of s pid).
Proof.
  assert (sublist (blocked_ids_of s pid) (items (blocked s)).*1) as Hsub.
  { unfold blocked_ids_of. induction (items (blocked s)) as [|[k t] l IH]; simpl; [constructor|].
    destruct (process_id t =? pid); by constructor. }
  rewrite items_fst in Hsub.
  by eapply sublist_NoDup, Hsub; apply NoDup_keys_by.
Qed.

Lemma size_foldl_delete (b : gmap Z Task) ids :
  NoDup ids → (∀ k, k ∈ ids → is_Some (b !! k)) →
  (size (foldl (fun b k => delete k b) b ids) + length ids = size b)%nat.
Proof.
  revert b; induction ids as [|i ids IH]; intros b Hnd Hin; cbn [foldl length]; [lia|].
  apply NoDup_cons in Hnd as [Hnin Hnd].
  destruct (Hin i) as [t Ht]; [set_solver|].
  assert (size b = S (size (delete i b))) as ->.
  { rewrite map_size_delete, Ht. simpl.
    assert (size b ≠ 0%nat); [|lia].
    intros He. apply map_size_empty_inv in He as ->. by rewrite lookup_empty in Ht. }
  rewrite <- (IH (delete i b)); [lia|done|].
  intros k Hk. rewrite lookup_delete_ne by (intros ->; done). apply Hin. by right.
Qed.

Lemma length_values (m : gmap Z Task) : length (values m) = size m.
Proof. unfold values. by rewrite length_fmap, items_Permutation, length_map_to_list. Qed.

(** [exit_group] removes exactly the tasks of the process: the ready queue
    keeps the other processes' tasks in order, the running task is dropped
    only if it belongs to the process, the blocked map keeps the other
    processes' tasks, and the result is the number of tasks removed. *)
Theorem exit_group_spec s pid n s' :
  exit_group s pid = (n, s') →
  ready s' = filter (fun t => process_id t ≠ pid) (ready s) ∧
  option_list (current s') = filter (fun t => process_id t ≠ pid) (option_list (current s)) ∧
  (∀ k, blocked s' !! k =
     match blocked s !! k with
     | Some t => if decide (process_id t = pid) then None else Some t
     | None => None
     end) ∧
  (n + length (all_tasks s') = length (all_tasks s))%nat.
Proof.
  intros Heq. pose proof (exit_group_blocked s pid) as Hb. rewrite Heq in Hb. simpl in Hb.
  unfold exit_group in Heq.
  assert (size (foldl (fun b k => delete k b) (blocked s) (blocked_ids_of s pid)) +
          length (blocked_ids_of s pid) = size (blocked s))%nat as Hsz.
  { apply size_foldl_delete; [apply NoDup_blocked_ids_of|].
    intros k (t & ? & ?)%elem_of_blocked_ids_of. eauto. }
  pose proof (length_filter (fun t => process_id t ≠ pid) (ready s)) as Hle.
  assert (∀ s0 : Scheduler, length (all_tasks s0) =
            (length (ready s0) + length (option_list (current s0)) + size (blocked s0))%nat) as Hall.
  { intros s0. unfold all_tasks. rewrite !length_app, length_values. lia. }
  rewrite !Hall.
  destruct (current s) as [c|] eqn:Hc; [destruct (Z.eqb_spec (process_id c) pid) as [Hp|Hp]|];
    simpl in Heq; injection Heq as <- <-; simpl in *; rewrite ?Hc; simpl;
    split_and!; try done; try lia.
  - rewrite filter_cons_False by (intros H; by apply H). done.
  - rewrite filter_cons_True by done. done.
Qed.

Lemma is_current_true s tid :
  is_current s tid = true ↔ tid ∈ id <$> option_list (current s).
Proof.
  unfold is_current. destruct (current s) as [t|]; simpl; [|set_solver].
  rewrite Z.eqb_eq, list_elem_of_singleton. naive_solver.
Qed.

Lemma is_ready_true s tid : is_ready s tid = true ↔ tid ∈ id <$> ready s.
Proof.
  unfold is_ready. rewrite existsb_exists, list_elem_of_fmap.
  setoid_rewrite Z.eqb_eq. setoid_rewrite <- list_elem_of_In. naive_solver.
Qed.

Lemma is_blocked_true s tid :
  sched_wf s → is_blocked s tid = true ↔ tid ∈ id <$> values (blocked s).
Proof.
  intros [_ _ _ Hb _]. unfold is_blocked. rewrite bool_decide_eq_true, list_elem_of_fmap.
  setoid_rewrite elem_of_values. split.
  - intros [t Ht]. exists t. split; [symmetry; by apply (Hb _ _ Ht)|eauto].
  - intros (t & -> & k & Hk). destruct (Hb _ _ Hk) as [-> _]. eauto.
Qed.

(** the three membership tests agree with the task sets: a task known to
    the scheduler satisfies exactly one of [is_current], [is_ready] and
    [is_blocked], and [task_state_label] answers "gone" for any other id. *)
Theorem task_state_label_spec s tid :
  sched_wf s →
  (tid ∈ task_ids s ↔ task_state_label s tid ≠ "gone"%string) ∧
  (is_current s tid = true → is_ready s tid = false ∧ is_blocked s tid = false) ∧
  (is_ready s tid = true → is_blocked s tid = false).
Proof.
  intros Hwf. pose proof Hwf as [Hnd _ _ _ _].
  pose proof (is_current_true s tid) as Hc. pose proof (is_ready_true s tid) as Hr.
  pose proof (is_blocked_true s tid Hwf) as Hb.
  rewrite task_ids_eq in *. rewrite !elem_of_app, <- Hc, <- Hr, <- Hb.
  apply NoDup_app in Hnd as (_ & Hnd1 & Hnd). apply NoDup_app in Hnd as (_ & Hnd2 & _).
  specialize (Hnd1 tid). specialize (Hnd2 tid). rewrite elem_of_app in Hnd1.
  rewrite <- Hc, <- Hr, <- Hb in *. unfold task_state_label.
  destruct (is_current s tid), (is_ready s tid), (is_blocked s tid); naive_solver.
Qed.

Lemma exit_group_spec_witness :
  ready (exit_group sample_scheduler 2).2 = [mkTask 3 3 "c" Ready] ∧
  (exit_group sample_scheduler 2).1 = 2%nat.
Proof.
  pose proof (exit_group_spec sample_scheduler 2 _ _ eq_refl) as (Hr & _ & _ & _).
  split; [exact Hr|reflexivity].
Defined.

Lemma task_state_label_spec_witness : 4 ∈ task_ids sample_scheduler.
Proof.
  apply (task_state_label_spec sample_scheduler 4); [by apply sched_wf_check_sound|].
  vm_compute. discriminate.
Defined.

End Sched.
