(* ===== verification/AddrSpace.v ===== *)
(** * User address spaces (crates/mm/src/lib.rs, first part)

    The bump frame allocator and the segment map of [AddressSpace]: mapping,
    unmapping, protection, the program break and byte access.  The state is
    [AddressSpaceInner] together with the kernel memory its raw pointers
    refer to.  An allocation the source makes on the Rust heap is an argument:
    [can_reserve] says whether [try_reserve_exact] succeeds, and [raw_ptr] is
    the address of a fresh [Vec]. *)

From S2P Require Import Prelude.

Definition EFAULT : Z := 14.
Definition EINVAL : Z := 22.
Definition ENOEXEC : Z := 8.
Definition ENOMEM : Z := 12.

Definition USER_HEAP_BASE : Z := 0x40000000.
Definition USER_STACK_SIZE : Z := 0x80000.
Definition USER_STACK_TOP : Z := 0x7ffff000.
Definition USER_MMAP_BASE : Z := 0x50000000.
Definition DEFAULT_PROT : Z := 3.
Definition PAGE_SIZE : Z := 4096.

(** ** HAL interface: the part of [HalMemory] the crate uses. *)
Record MemoryRegion := mkRegion { mr_start : Z; mr_size : Z; mr_usable : bool }.

Class HalMemory := {
  memory_regions : list MemoryRegion;
  phys_to_virt : Z → Z;
}.

Module Mm.

(** ** Frame allocator *)
Record FrameAllocator := mkFA { fa_start : Z; fa_end : Z; fa_next : Z }.

Definition from_regions (regions : list MemoryRegion) : outcome FrameAllocator :=
  let usable := default (mkRegion 0 0 false) (find_first mr_usable regions) in
  e ← uadd (mr_start usable) (mr_size usable);
  Ok (mkFA (mr_start usable) e (mr_start usable)).

Definition alloc_page (fa : FrameAllocator) : option (Z * FrameAllocator) :=
  let page := fa_next fa in
  match checked_add page PAGE_SIZE with
  | None => None
  | Some next =>
      if fa_end fa <? next then None
      else Some (page, mkFA (fa_start fa) (fa_end fa) next)
  end.

Definition used_bytes (fa : FrameAllocator) : Z := saturating_sub (fa_next fa) (fa_start fa).

(** ** Segments *)
Record MappingArea := mkArea { start : Z; len : Z; prot : Z }.

(** [Arc<OwnedFramesInner>] is immutable; an [Arc<Mutex<Vec<u8>>>] is the
    base address and length of its buffer. *)
Inductive SegmentStorage :=
  | Owned (phys_base num_pages : Z)
  | Shared (vec_base vec_len ptr : Z)
  | Host (ptr hlen : Z).

Record Segment := mkSegment { area : MappingArea; storage : SegmentStorage }.

Definition seg_len (s : Segment) : Z := len (area s).

Record PageTableSpace := mkPTS { pts_root_phys : Z; pts_tables : gmap Z (gmap Z Z) }.

Record AddressSpaceInner := mkInner {
  token : Z;
  mappings : gmap Z Segment;
  program_break : Z;
  next_mapping_base : Z;
  page_table : option PageTableSpace;
  dirty : bool;
  frame_allocator : FrameAllocator;
}.

(** An address space and the kernel memory. *)
Record space := mkSpace { inner : AddressSpaceInner; kmem : gmap Z Z }.

Definition with_mappings (i : AddressSpaceInner) m :=
  mkInner (token i) m (program_break i) (next_mapping_base i) (page_table i) (dirty i) (frame_allocator i).
Definition with_program_break (i : AddressSpaceInner) b :=
  mkInner (token i) (mappings i) b (next_mapping_base i) (page_table i) (dirty i) (frame_allocator i).
Definition with_next_mapping_base (i : AddressSpaceInner) b :=
  mkInner (token i) (mappings i) (program_break i) b (page_table i) (dirty i) (frame_allocator i).
Definition with_dirty (i : AddressSpaceInner) b :=
  mkInner (token i) (mappings i) (program_break i) (next_mapping_base i) (page_table i) b (frame_allocator i).
Definition with_frame_allocator (i : AddressSpaceInner) fa :=
  mkInner (token i) (mappings i) (program_break i) (next_mapping_base i) (page_table i) (dirty i) fa.
Definition with_inner (s : space) i := mkSpace i (kmem s).
Definition with_kmem (s : space) m := mkSpace (inner s) m.

Definition page_offset_of (addr : Z) : Z := Z.land addr (PAGE_SIZE - 1).

(** ** Range queries over the segment map *)
Definition overlaps (m : gmap Z Segment) (st ln : Z) : outcome bool :=
  let end_ := saturating_add st ln in
  anyM (fun '(base, s) =>
    seg_end ← uadd base (seg_len s);
    Ok ((st <? seg_end) && (base <? end_))) (items m).

Definition first_overlap_end (m : gmap Z Segment) (st ln : Z) : outcome (option Z) :=
  let end_ := saturating_add st ln in
  find_mapM (fun '(base, s) =>
    seg_end ← uadd base (seg_len s);
    Ok (if (st <? seg_end) && (base <? end_) then Some seg_end else None)) (items m).

(** [find_segment] and [find_segment_mut] are the same search. *)
Definition find_segment (m : gmap Z Segment) (addr ln : Z) : outcome (Segment * Z) :=
  end_ ← ok_or (checked_add addr ln) EFAULT;
  match find_first (fun '(base, s) =>
          match checked_add base (seg_len s) with
          | None => false
          | Some seg_end => (base <=? addr) && (end_ <=? seg_end)
          end) (items m) with
  | Some (base, s) => Ok (s, addr - base)
  | None => Err EFAULT
  end.

(** ** Splitting segments *)
Definition slice_segment_storage (s : Segment) (st ln : Z) : outcome SegmentStorage :=
  offset ← usub st (start (area s));
  Ok match storage s with
     | Owned pb n => Owned pb n
     | Shared vb vl ptr => Shared vb vl (saturating_add ptr offset)
     | Host ptr _ => Host (saturating_add ptr offset) ln
     end.

Definition slice_segment (s : Segment) (st ln pr : Z) : outcome Segment :=
  sto ← slice_segment_storage s st ln;
  Ok (mkSegment (mkArea st ln pr) sto).

(** One iteration of the loop of [unmap_range_inner]. *)
Definition unmap_step (st end_ : Z) (acc : gmap Z Segment * bool) (key : Z)
  : outcome (gmap Z Segment * bool) :=
  let '(m, changed) := acc in
  match m !! key with
  | None => Ok (m, changed)
  | Some s =>
      let m := delete key m in
      let seg_start := start (area s) in
      seg_end ← uadd seg_start (seg_len s);
      if (end_ <=? seg_start) || (seg_end <=? st) then Ok (<[seg_start := s]> m, changed)
      else
        m ← (if seg_start <? st then
               left ← slice_segment s seg_start (st - seg_start) (prot (area s));
               Ok (<[start (area left) := left]> m)
             else Ok m);
        m ← (if end_ <? seg_end then
               right ← slice_segment s end_ (seg_end - end_) (prot (area s));
               Ok (<[start (area right) := right]> m)
             else Ok m);
        Ok (m, true)
  end.

Definition unmap_range_inner (i : AddressSpaceInner) (st ln : Z) : outcome AddressSpaceInner :=
  if ln =? 0 then Err EINVAL
  else
    end_ ← ok_or (checked_add st ln) EINVAL;
    '(m, changed) ← foldM (unmap_step st end_) (mappings i, false) (keys (mappings i));
    let i' := with_mappings i m in
    Ok (if (changed : bool) then with_dirty i' true else i').

(** One iteration of the loop of [mprotect]. *)
Definition mprotect_step (addr end_ pr : Z) (m : gmap Z Segment) (key : Z)
  : outcome (gmap Z Segment) :=
  match m !! key with
  | None => Ok m
  | Some s =>
      let m := delete key m in
      let seg_start := start (area s) in
      seg_end ← uadd seg_start (seg_len s);
      if (end_ <=? seg_start) || (seg_end <=? addr) then Ok (<[seg_start := s]> m)
      else
        m ← (if seg_start <? addr then
               left ← slice_segment s seg_start (addr - seg_start) (prot (area s));
               Ok (<[start (area left) := left]> m)
             else Ok m);
        let mid_start := Z.max seg_start addr in
        let mid_end := Z.min seg_end end_ in
        mid_len ← usub mid_end mid_start;
        mid ← slice_segment s mid_start mid_len pr;
        let m := <[start (area mid) := mid]> m in
        if end_ <? seg_end then
          right ← slice_segment s end_ (seg_end - end_) (prot (area s));
          Ok (<[start (area right) := right]> m)
        else Ok m
  end.

(** Kernel pointer of byte [offset] of a segment, as [read_bytes] and
    [write_bytes] compute it. *)
Definition storage_ptr `{HalMemory} (s : Segment) (offset : Z) : outcome Z :=
  match storage s with
  | Owned pb _ =>
      t ← uadd (phys_to_virt pb) (page_offset_of (start (area s)));
      uadd t offset
  | Shared _ _ ptr => uadd ptr offset
  | Host ptr _ => uadd ptr offset
  end.

Section AddressSpace.
Context `{HalMemory} (can_reserve : Z → bool).

(** The [while allocated_pages < num_pages] loop: [n] more frames.  On
    failure the frames stay allocated ([dealloc_page] does nothing). *)
Fixpoint alloc_more (n : nat) (fa : FrameAllocator) : bool * FrameAllocator :=
  match n with
  | O => (true, fa)
  | S n' =>
      match alloc_page fa with
      | Some (_, fa') => alloc_more n' fa'
      | None => (false, fa)
      end
  end.

Definition create_owned_storage (addr : Z) (data : list Z) : stm space SegmentStorage :=
  let data := match data with [] => [0] | _ => data end in
  let ln := Z.of_nat (length data) in
  let page_offset := page_offset_of addr in
  t ← lift (uadd page_offset ln);
  map_len ← lift (align_up t PAGE_SIZE);
  t ← lift (uadd map_len PAGE_SIZE);
  t ← lift (usub t 1);
  let num_pages := t / PAGE_SIZE in
  s ← get;
  match alloc_page (frame_allocator (inner s)) with
  | None => fail ENOMEM
  | Some (phys_base, fa) =>
      let '(got, fa) := alloc_more (Z.to_nat (num_pages - 1)) fa in
      _ ← put (with_inner s (with_frame_allocator (inner s) fa));
      if (got : bool) then
        aligned_base ← lift (align_up (phys_to_virt phys_base) PAGE_SIZE);
        ptr ← lift (uadd aligned_base page_offset);
        _ ← modify (fun s => with_kmem s (write_mem (kmem s) ptr data));
        mret (Owned phys_base num_pages)
      else fail ENOMEM
  end.

(** [raw_ptr] is the address of the new zeroed vector. *)
Definition create_shared_storage (raw_ptr addr : Z) (data : list Z) : stm space SegmentStorage :=
  let data := match data with [] => [0] | _ => data end in
  let ln := Z.of_nat (length data) in
  let page_offset := page_offset_of addr in
  t ← lift (uadd page_offset ln);
  map_len ← lift (align_up t PAGE_SIZE);
  total ← lift (uadd map_len PAGE_SIZE);
  aligned_base ← lift (align_up raw_ptr PAGE_SIZE);
  ptr ← lift (uadd aligned_base page_offset);
  _ ← modify (fun s => with_kmem s
        (write_mem (write_mem (kmem s) raw_ptr (replicate (Z.to_nat total) 0)) ptr data));
  mret (Shared raw_ptr total ptr).

Definition insert_segment (seg : Segment) : stm space unit :=
  s ← get;
  o ← lift (overlaps (mappings (inner s)) (start (area seg)) (len (area seg)));
  i ← (if (o : bool)
       then lift (unmap_range_inner (inner s) (start (area seg)) (len (area seg)))
       else mret (inner s));
  put (with_inner s (with_dirty (with_mappings i (<[start (area seg) := seg]> (mappings i))) true)).

Definition map_owned (addr : Z) (bytes : list Z) (pr : Z) : stm space unit :=
  let ln := Z.max (Z.of_nat (length bytes)) 1 in
  sto ← create_owned_storage addr bytes;
  insert_segment (mkSegment (mkArea addr ln pr) sto).

Definition map_shared (raw_ptr addr : Z) (bytes : list Z) (pr : Z) : stm space unit :=
  let ln := Z.max (Z.of_nat (length bytes)) 1 in
  sto ← create_shared_storage raw_ptr addr bytes;
  insert_segment (mkSegment (mkArea addr ln pr) sto).

(** [data] is the base and length of the shared vector. *)
Definition map_shared_existing (addr : Z) (data : Z * Z) (pr : Z) : stm space Z :=
  let ln := Z.max data.2 1 in
  _ ← insert_segment (mkSegment (mkArea addr ln pr) (Shared data.1 data.2 addr));
  mret addr.

(** The search loop of [map_anonymous]: the first gap of [aligned] bytes at
    or after [st]. *)
Fixpoint find_gap (fuel : nat) (m : gmap Z Segment) (st aligned : Z) : outcome Z :=
  match fuel with
  | O => Diverge
  | S fuel' =>
      o ← first_overlap_end m st aligned;
      match (o : option Z) with
      | Some overlap_end => st' ← align_up overlap_end PAGE_SIZE; find_gap fuel' m st' aligned
      | None => Ok st
      end
  end.

(** The gap search with the update of [next_mapping_base]. *)
Definition reserve_gap (aligned : Z) : stm space Z :=
  s ← get;
  st ← lift (align_up (next_mapping_base (inner s)) PAGE_SIZE);
  st ← lift (find_gap (S (size (mappings (inner s)))) (mappings (inner s)) st aligned);
  next ← lift (ok_or (checked_add st aligned) ENOMEM);
  _ ← put (with_inner s (with_next_mapping_base (inner s) next));
  mret st.

Definition map_anonymous (ln pr : Z) : stm space Z :=
  if ln =? 0 then fail EINVAL
  else
    aligned ← lift (align_up ln PAGE_SIZE);
    st ← reserve_gap aligned;
    if can_reserve aligned then
      _ ← map_owned st (replicate (Z.to_nat aligned) 0) pr;
      mret st
    else fail ENOMEM.

Definition map_anonymous_shared (raw_ptr ln pr : Z) : stm space Z :=
  if ln =? 0 then fail EINVAL
  else
    aligned ← lift (align_up ln PAGE_SIZE);
    st ← reserve_gap aligned;
    if can_reserve aligned then
      _ ← map_shared raw_ptr st (replicate (Z.to_nat aligned) 0) pr;
      mret st
    else fail ENOMEM.

Definition map_fixed_bytes (addr : Z) (bytes : list Z) (mem_len pr : Z) : stm space unit :=
  if (mem_len =? 0) || (mem_len <? Z.of_nat (length bytes)) then fail EINVAL
  else if can_reserve mem_len then
    map_owned addr (bytes ++ replicate (Z.to_nat mem_len - length bytes) 0) pr
  else fail ENOMEM.

Definition map_fixed_shared_bytes (raw_ptr addr : Z) (bytes : list Z) (mem_len pr : Z)
  : stm space unit :=
  if (mem_len =? 0) || (mem_len <? Z.of_nat (length bytes)) then fail EINVAL
  else if can_reserve mem_len then
    map_shared raw_ptr addr (bytes ++ replicate (Z.to_nat mem_len - length bytes) 0) pr
  else fail ENOMEM.

Definition map_anonymous_at (addr ln pr : Z) : stm space Z :=
  if (ln =? 0) || negb (page_offset_of addr =? 0) then fail EINVAL
  else
    aligned ← lift (align_up ln PAGE_SIZE);
    _ ← map_fixed_bytes addr [] aligned pr;
    mret addr.

Definition map_anonymous_shared_at (raw_ptr addr ln pr : Z) : stm space Z :=
  if (ln =? 0) || negb (page_offset_of addr =? 0) then fail EINVAL
  else
    aligned ← lift (align_up ln PAGE_SIZE);
    _ ← map_fixed_shared_bytes raw_ptr addr [] aligned pr;
    mret addr.

Definition is_range_available (s : space) (addr ln : Z) : outcome bool :=
  if (ln =? 0) || negb (page_offset_of addr =? 0) then Err EINVAL
  else
    aligned ← align_up ln PAGE_SIZE;
    o ← overlaps (mappings (inner s)) addr aligned;
    Ok (negb o).

Definition install_host_range (addr ln pr : Z) : stm space unit :=
  if ln =? 0 then fail EINVAL
  else insert_segment (mkSegment (mkArea addr ln pr) (Host addr ln)).

Definition unmap (addr ln : Z) : stm space unit :=
  if ln =? 0 then fail EINVAL
  else
    aligned ← lift (align_up ln PAGE_SIZE);
    s ← get;
    i ← lift (unmap_range_inner (inner s) addr aligned);
    put (with_inner s i).

Definition mprotect (addr ln pr : Z) : stm space unit :=
  if ln =? 0 then fail EINVAL
  else
    aligned ← lift (align_up ln PAGE_SIZE);
    end_ ← lift (ok_or (checked_add addr aligned) EINVAL);
    s ← get;
    m ← lift (foldM (mprotect_step addr end_ pr) (mappings (inner s)) (keys (mappings (inner s))));
    put (with_inner s (with_dirty (with_mappings (inner s) m) true)).

Definition brk (new_break : option Z) : stm space Z :=
  match new_break with
  | None => s ← get; mret (program_break (inner s))
  | Some requested =>
      if requested <? USER_HEAP_BASE then fail EINVAL
      else
        new_break ← lift (align_up requested 16);
        s ← get;
        let old_break := program_break (inner s) in
        _ ← (if old_break <? new_break then
               map_start ← lift (align_up old_break PAGE_SIZE);
               map_end ← lift (align_up new_break PAGE_SIZE);
               if map_start <? map_end
               then map_fixed_bytes map_start [] (map_end - map_start) DEFAULT_PROT
               else mret tt
             else if new_break <? old_break then
               unmap_start ← lift (align_up new_break PAGE_SIZE);
               unmap_end ← lift (align_up old_break PAGE_SIZE);
               if unmap_start <? unmap_end then
                 s ← get;
                 i ← lift (unmap_range_inner (inner s) unmap_start (unmap_end - unmap_start));
                 put (with_inner s i)
               else mret tt
             else mret tt);
        _ ← modify (fun s => with_inner s (with_program_break (inner s) new_break));
        mret new_break
  end.

Definition clear (i : AddressSpaceInner) : AddressSpaceInner :=
  mkInner (token i) ∅ USER_HEAP_BASE USER_MMAP_BASE (page_table i) true (frame_allocator i).

(** ** Byte access *)
Fixpoint read_loop (fuel : nat) (m : gmap Z Segment) (mem : gmap Z Z)
    (cursor remaining : Z) (out : list Z) : outcome (list Z) :=
  match fuel with
  | O => Diverge
  | S fuel' =>
      if remaining =? 0 then Ok out
      else
        '(seg, offset) ← find_segment m cursor 1;
        let available := saturating_sub (seg_len seg) offset in
        let take := Z.min available remaining in
        if take =? 0 then Err EFAULT
        else
          p ← storage_ptr seg offset;
          cursor' ← ok_or (checked_add cursor take) EFAULT;
          read_loop fuel' m mem cursor' (remaining - take) (out ++ read_mem mem p take)
  end.

(** Every iteration consumes at least one byte: [ln + 1] rounds suffice. *)
Definition read_bytes (s : space) (addr ln : Z) : outcome (list Z) :=
  if ln =? 0 then Ok []
  else if can_reserve ln
  then read_loop (S (Z.to_nat ln)) (mappings (inner s)) (kmem s) addr ln []
  else Err ENOMEM.

(** [bytes] is what is still to be written. *)
Fixpoint write_loop (fuel : nat) (cursor : Z) (bytes : list Z) : stm space unit :=
  match fuel with
  | O => lift Diverge
  | S fuel' =>
      match bytes with
      | [] => mret tt
      | _ :: _ =>
          s ← get;
          '(seg, offset) ← lift (find_segment (mappings (inner s)) cursor 1);
          let available := saturating_sub (seg_len seg) offset in
          let tk := Z.min available (Z.of_nat (length bytes)) in
          _ ← match storage seg with
              | Host _ hlen =>
                  t ← lift (uadd offset tk);
                  if hlen <? t then fail EFAULT else mret tt
              | _ => mret tt
              end;
          p ← lift (storage_ptr seg offset);
          _ ← modify (fun s => with_kmem s (write_mem (kmem s) p (take (Z.to_nat tk) bytes)));
          cursor' ← lift (ok_or (checked_add cursor tk) EFAULT);
          write_loop fuel' cursor' (drop (Z.to_nat tk) bytes)
      end
  end.

Definition write_bytes (addr : Z) (bytes : list Z) : stm space unit :=
  match bytes with
  | [] => mret tt
  | _ => write_loop (S (length bytes)) addr bytes
  end.

Definition install_bytes (addr : Z) (bytes : list Z) : stm space unit := fun s =>
  match write_bytes addr bytes s with
  | (Err _, s') =>
      match map_fixed_bytes addr bytes (Z.max (Z.of_nat (length bytes)) 1) DEFAULT_PROT s' with
      | (Err _, s'') => (Ok tt, s'')
      | r => r
      end
  | r => r
  end.

Definition MAX_STR_LEN : Z := 16 * PAGE_SIZE.

(** The byte-by-byte fallback of [read_cstr]: [inl bs] is a string that ended
    at a NUL, [inr out] the bytes collected so far with the new offset. *)
Fixpoint cstr_probe (n : nat) (s : space) (addr offset : Z) (out : list Z)
  : outcome (list Z + Z * list Z) :=
  match n with
  | O => Ok (inr (offset, out))
  | S n' =>
      if offset <? MAX_STR_LEN then
        a ← uadd addr offset;
        match read_bytes s a 1 with
        | Ok (b :: _) =>
            if b =? 0 then Ok (inl out) else cstr_probe n' s addr (offset + 1) (out ++ [b])
        | Ok [] => Panic
        | Err _ => Err EFAULT
        | Panic => Panic
        | Diverge => Diverge
        end
      else Ok (inr (offset, out))
  end.

(** The page loop of [read_cstr]; the NUL-terminated bytes before decoding. *)
Fixpoint cstr_loop (fuel : nat) (s : space) (addr offset : Z) (out : list Z) : outcome (list Z) :=
  match fuel with
  | O => Diverge
  | S fuel' =>
      if offset <? MAX_STR_LEN then
        a ← uadd addr offset;
        let chunk_len := Z.min (PAGE_SIZE - page_offset_of a) (MAX_STR_LEN - offset) in
        match read_bytes s a chunk_len with
        | Ok chunk =>
            match position (fun b => b =? 0) chunk with
            | Some nul => Ok (out ++ take nul chunk)
            | None => cstr_loop fuel' s addr (offset + Z.of_nat (length chunk)) (out ++ chunk)
            end
        | Err _ =>
            r ← cstr_probe (Z.to_nat chunk_len) s addr offset out;
            match (r : list Z + Z * list Z) with
            | inl bs => Ok bs
            | inr (offset', out') => cstr_loop fuel' s addr offset' out'
            end
        | Panic => Panic
        | Diverge => Diverge
        end
      else Err EFAULT
  end.

(** [String::from_utf8] is a parameter: which byte strings are UTF-8. *)
Definition read_cstr (is_utf8 : list Z → bool) (s : space) (addr : Z) : outcome (list Z) :=
  bs ← cstr_loop (S (Z.to_nat MAX_STR_LEN)) s addr 0 [];
  if is_utf8 bs then Ok bs else Err EFAULT.

Definition clone_storage (sto : SegmentStorage) : outcome SegmentStorage :=
  match sto with
  | Owned pb n => Ok (Owned pb n)
  | Shared vb vl ptr => Ok (Shared vb vl ptr)
  | Host ptr hlen => n ← align_up hlen PAGE_SIZE; Ok (Owned ptr (n / PAGE_SIZE))
  end.

Definition clone_private (i : AddressSpaceInner) : outcome AddressSpaceInner :=
  m ← foldM (fun m '(st, seg) =>
        sto ← clone_storage (storage seg);
        Ok (<[st := mkSegment (area seg) sto]> m)) ∅ (items (mappings i));
  fa ← from_regions memory_regions;
  Ok (mkInner 0 m (program_break i) (next_mapping_base i) None true fa).

Definition new_user : outcome AddressSpaceInner :=
  fa ← from_regions memory_regions;
  Ok (mkInner 0 ∅ USER_HEAP_BASE USER_MMAP_BASE None true fa).

Definition estimated_private_clone_bytes (i : AddressSpaceInner) : outcome Z :=
  foldM (fun acc seg =>
    let page_offset := page_offset_of (start (area seg)) in
    let sl := Z.max (seg_len seg) 1 in
    t ← uadd page_offset sl;
    map_len ← align_up t PAGE_SIZE;
    Ok (saturating_add acc (saturating_add map_len PAGE_SIZE))) 0 (values (mappings i)).

End AddressSpace.

(** ** The invariant of the segment map *)

Definition seg_ok (k : Z) (s : Segment) : Prop :=
  start (area s) = k ∧ 0 ≤ k ∧ 0 < seg_len s ∧ k + seg_len s ≤ USIZE_MAX.

(** Segments are filed under their start and do not overlap. *)
Record mappings_wf (m : gmap Z Segment) : Prop := {
  mw_seg : ∀ k s, m !! k = Some s → seg_ok k s;
  mw_disj : ∀ k1 s1 k2 s2, m !! k1 = Some s1 → m !! k2 = Some s2 → k1 ≠ k2 →
    k1 + seg_len s1 ≤ k2 ∨ k2 + seg_len s2 ≤ k1;
}.

(** Address [a] lies in the segment [s] filed under [k]. *)
Definition covers (m : gmap Z Segment) (a k : Z) (s : Segment) : Prop :=
  m !! k = Some s ∧ k ≤ a < k + seg_len s.

Lemma covers_unique m a k1 s1 k2 s2 :
  mappings_wf m → covers m a k1 s1 → covers m a k2 s2 → k1 = k2 ∧ s1 = s2.
Proof.
  intros [_ Hd] [H1 ?] [H2 ?]. destruct (decide (k1 = k2)) as [->|Hne]; [naive_solver|].
  destruct (Hd _ _ _ _ H1 H2 Hne); lia.
Qed.

Lemma mappings_wf_empty : mappings_wf ∅.
Proof. split; intros *; rewrite lookup_empty; done. Qed.

(** [find_segment] finds the covering segment. *)
Lemma find_segment_covers m a k s :
  mappings_wf m → covers m a k s → find_segment m a 1 = Ok (s, a - k).
Proof.
  intros Hwf Hc. pose proof Hc as [Hk Ha]. pose proof Hwf as [Hok _].
  destruct (Hok _ _ Hk) as (_ & ? & ? & ?). unfold find_segment.
  assert (checked_add a 1 = Some (a + 1)) as -> by (apply checked_add_Some; lia). simpl.
  destruct (find_first _ (items m)) as [[k' s']|] eqn:Hf.
  - apply find_first_Some in Hf as [Hin Ht]. apply elem_of_items in Hin.
    destruct (Hok _ _ Hin) as (_ & ? & ? & ?).
    assert (checked_add k' (seg_len s') = Some (k' + seg_len s')) as Hca by (apply checked_add_Some; lia).
    rewrite Hca in Ht. reflect_bools.
    destruct (covers_unique m a k s k' s') as [-> ->]; [done|done|split; [done|lia]|]. done.
  - exfalso. rewrite find_first_None in Hf. specialize (Hf (k, s)).
    rewrite elem_of_items in Hf. specialize (Hf Hk). simpl in Hf.
    assert (checked_add k (seg_len s) = Some (k + seg_len s)) as Hca by (apply checked_add_Some; lia).
    rewrite Hca in Hf. apply andb_false_iff in Hf as [?|?]; reflect_bools; lia.
Qed.

Lemma find_segment_Ok m a s off :
  mappings_wf m → find_segment m a 1 = Ok (s, off) → covers m a (a - off) s.
Proof.
  intros [Hok _]. unfold find_segment. intros He.
  destruct (checked_add a 1) as [e|] eqn:Ha; simpl in He; [|done].
  apply checked_add_Some in Ha as [-> ?].
  destruct (find_first _ (items m)) as [[k' s']|] eqn:Hf; simplify_eq.
  apply find_first_Some in Hf as [Hin Ht]. apply elem_of_items in Hin.
  destruct (Hok _ _ Hin) as (_ & ? & ? & ?).
  assert (checked_add k' (seg_len s) = Some (k' + seg_len s)) as Hca by (apply checked_add_Some; lia).
  rewrite Hca in Ht. reflect_bools. replace (a - (a - k')) with k' by lia. split; [done|lia].
Qed.

Lemma find_segment_none m a :
  mappings_wf m → (∀ k s, ¬ covers m a k s) → find_segment m a 1 = Err EFAULT.
Proof.
  intros Hwf Hnone. destruct (find_segment m a 1) as [[s off]|e| |] eqn:Hf.
  - by apply find_segment_Ok, Hnone in Hf.
  - unfold find_segment in Hf. destruct (checked_add a 1); simpl in Hf; [|congruence].
    destruct (find_first _ _) as [[]|]; congruence.
  - unfold find_segment in Hf. destruct (checked_add a 1); simpl in Hf; [|done].
    by destruct (find_first _ _) as [[]|].
  - unfold find_segment in Hf. destruct (checked_add a 1); simpl in Hf; [|done].
    by destruct (find_first _ _) as [[]|].
Qed.

(** On a well-formed map the range queries do not panic. *)
Lemma overlaps_spec m st ln :
  mappings_wf m → 0 ≤ st → 0 < ln → st + ln ≤ USIZE_MAX →
  ∃ b, overlaps m st ln = Ok b ∧
    (b = false ↔ ∀ k s, m !! k = Some s → st + ln ≤ k ∨ k + seg_len s ≤ st).
Proof.
  intros [Hok _] ? ? ?. eexists. split.
  - unfold overlaps. apply anyM_pure with
      (g := fun '(base, s) => (st <? base + seg_len s) && (base <? saturating_add st ln)).
    intros [k s] Hin. apply elem_of_items in Hin. destruct (Hok _ _ Hin) as (_ & ? & ? & ?).
    by rewrite uadd_ok by lia.
  - rewrite <- not_true_iff_false, existsb_exists. unfold saturating_add. split.
    + intros Hn k s Hk. destruct (decide (st + ln ≤ k)); [by left|]. right.
      destruct (decide (k + seg_len s ≤ st)); [done|]. exfalso. apply Hn.
      exists (k, s). rewrite <- list_elem_of_In, elem_of_items. split; [done|].
      apply andb_true_iff. split; apply Z.ltb_lt; lia.
    + intros Hall ([k s] & Hin & Hb). rewrite <- list_elem_of_In, elem_of_items in Hin.
      reflect_bools. destruct (Hall _ _ Hin); lia.
Qed.

Lemma first_overlap_end_spec m st ln :
  mappings_wf m → 0 ≤ st → 0 < ln →
  ∃ o, first_overlap_end m st ln = Ok o ∧
    match o with
    | Some e => ∃ k s, m !! k = Some s ∧ e = k + seg_len s ∧ st < e
    | None => ∀ k s, m !! k = Some s → saturating_add st ln ≤ k ∨ k + seg_len s ≤ st
    end.
Proof.
  intros [Hok _] ? ?. eexists. split.
  - unfold first_overlap_end. apply find_mapM_pure with
      (g := fun '(base, s) => if (st <? base + seg_len s) && (base <? saturating_add st ln)
                              then Some (base + seg_len s) else None).
    intros [k s] Hin. apply elem_of_items in Hin. destruct (Hok _ _ Hin) as (_ & ? & ? & ?).
    by rewrite uadd_ok by lia.
  - destruct (find_map _ (items m)) as [e|] eqn:Hf.
    + apply find_map_Some in Hf as ([k s] & Hin & Hb). apply elem_of_items in Hin.
      destruct ((st <? k + seg_len s) && (k <? saturating_add st ln)) eqn:Hc; simplify_eq.
      reflect_bools. eauto.
    + rewrite find_map_None in Hf. intros k s Hk. specialize (Hf (k, s)).
      rewrite elem_of_items in Hf. specialize (Hf Hk). simpl in Hf.
      destruct ((st <? k + seg_len s) && (k <? saturating_add st ln)) eqn:Hc; [done|].
      apply andb_false_iff in Hc as [?|?]; reflect_bools; [by right|by left].
Qed.

(** ** Replacing segments by pieces of themselves

    [unmap_range_inner] and [mprotect] walk over the keys the map had at the
    start and replace each segment by pieces of it. *)
Definition insert_pieces (m : gmap Z Segment) (ps : list Segment) : gmap Z Segment :=
  foldl (fun m p => <[start (area p) := p]> m) m ps.

Definition resplit (f : Segment → list Segment) (m : gmap Z Segment) (k : Z) : gmap Z Segment :=
  match m !! k with
  | None => m
  | Some s => insert_pieces (delete k m) (f s)
  end.

Definition seg_start (s : Segment) : Z := start (area s).
Definition contains (s : Segment) (a : Z) : Prop := seg_start s ≤ a < seg_start s + seg_len s.

(** The pieces are inside the segment, in ascending order. *)
Definition pieces_ok (s : Segment) (ps : list Segment) : Prop :=
  Forall (fun p => seg_start s ≤ seg_start p ∧ 0 < seg_len p ∧
                   seg_start p + seg_len p ≤ seg_start s + seg_len s) ps ∧
  StronglySorted (fun p q => seg_start p + seg_len p ≤ seg_start q) ps.

Lemma insert_pieces_lookup m ps k :
  StronglySorted (fun p q => seg_start p + seg_len p ≤ seg_start q) ps →
  Forall (fun p => 0 < seg_len p) ps →
  insert_pieces m ps !! k =
  match find_first (fun p => seg_start p =? k) ps with Some p => Some p | None => m !! k end.
Proof.
  revert m; induction ps as [|p ps IH]; intros m Hs Hp; [done|].
  apply StronglySorted_inv in Hs as [Hs Hlt]. apply Forall_cons in Hp as [Hp0 Hp].
  cbn [insert_pieces foldl]. fold (insert_pieces (<[start (area p) := p]> m) ps).
  rewrite IH by done. simpl. unfold seg_start in *.
  destruct (Z.eqb_spec (start (area p)) k) as [<-|Hne].
  - destruct (find_first _ ps) as [q|] eqn:Hf.
    + apply find_first_Some in Hf as [Hin Heq]. apply Z.eqb_eq in Heq.
      rewrite Forall_forall in Hlt. specialize (Hlt q Hin). lia.
    + apply lookup_insert_eq.
  - destruct (find_first _ ps); [done|]. by rewrite lookup_insert_ne.
Qed.

Lemma sorted_pieces_disjoint ps p q :
  StronglySorted (fun p q => seg_start p + seg_len p ≤ seg_start q) ps →
  p ∈ ps → q ∈ ps → seg_start p ≠ seg_start q →
  seg_start p + seg_len p ≤ seg_start q ∨ seg_start q + seg_len q ≤ seg_start p.
Proof.
  induction 1 as [|r ps Hs IH Hall]; [by intros ?%elem_of_nil|].
  rewrite !elem_of_cons. rewrite Forall_forall in Hall.
  intros [->|Hp] [->|Hq] Hne; [done|left; by apply Hall|right; by apply Hall|by apply IH].
Qed.

Section Resplit.
Context (f : Segment → list Segment).
Hypothesis f_ok : ∀ k s, seg_ok k s → pieces_ok s (f s).

Lemma resplit_lookup m k s k' :
  mappings_wf m → m !! k = Some s →
  resplit f m k !! k' =
  match find_first (fun p => seg_start p =? k') (f s) with
  | Some p => Some p
  | None => if decide (k' = k) then None else m !! k'
  end.
Proof.
  intros [Hok _] Hk. unfold resplit. rewrite Hk.
  destruct (f_ok k s (Hok _ _ Hk)) as [Hin Hs].
  rewrite insert_pieces_lookup; [|done|by eapply Forall_impl; [exact Hin|simpl; tauto]].
  destruct (find_first _ _); [done|]. rewrite lookup_delete.
  destruct (decide (k = k')), (decide (k' = k)); congruence.
Qed.

Lemma find_piece s k p :
  pieces_ok s (f s) → p ∈ f s → seg_start p = k →
  find_first (fun p => seg_start p =? k) (f s) = Some p.
Proof.
  intros [Hin Hs]. generalize dependent (f s). clear f_ok. intros ps Hall Hsrt Hp Hk.
  induction ps as [|q ps IH]; [by apply elem_of_nil in Hp|]. simpl.
  apply StronglySorted_inv in Hsrt as [Hsrt Hlt]. apply Forall_cons in Hall as [Hq Hall].
  rewrite Forall_forall in Hlt.
  apply elem_of_cons in Hp as [->|Hp]; [by rewrite (proj2 (Z.eqb_eq _ _) Hk)|].
  specialize (Hlt p Hp). destruct (Z.eqb_spec (seg_start q) k); [lia|by apply IH].
Qed.

(** Other keys keep their segment. *)
Lemma resplit_other m k k' s' :
  mappings_wf m → k' ≠ k → m !! k' = Some s' → resplit f m k !! k' = Some s'.
Proof.
  intros Hwf Hne Hk'. destruct (m !! k) as [s|] eqn:Hk; [|unfold resplit; by rewrite Hk].
  rewrite (resplit_lookup m k s) by done. rewrite decide_False by done.
  destruct (find_first _ _) as [p|] eqn:Hf; [|done]. exfalso.
  apply find_first_Some in Hf as [Hin Heq]. apply Z.eqb_eq in Heq.
  pose proof Hwf as [Hok Hd]. destruct (Hok _ _ Hk) as (Hs & ? & ? & ?).
  destruct (Hok _ _ Hk') as (_ & ? & ? & ?).
  destruct (f_ok k s (Hok _ _ Hk)) as [Hall _]. rewrite Forall_forall in Hall.
  destruct (Hall p Hin) as (? & ? & ?). unfold seg_start in *.
  destruct (Hd k s k' s' Hk Hk'); [done|lia..].
Qed.

(** What an entry of the new map is. *)
Lemma resplit_inv m k s k' s' :
  mappings_wf m → m !! k = Some s → resplit f m k !! k' = Some s' →
  (s' ∈ f s ∧ seg_start s' = k') ∨ (k' ≠ k ∧ m !! k' = Some s').
Proof.
  intros Hwf Hk. rewrite (resplit_lookup m k s) by done.
  destruct (find_first _ _) as [p|] eqn:Hf.
  - intros [= <-]. apply find_first_Some in Hf as [? ?]. reflect_bools. by left.
  - destruct (decide (k' = k)); [done|]. by right.
Qed.

Lemma resplit_wf m k : mappings_wf m → mappings_wf (resplit f m k).
Proof.
  intros Hwf. destruct (m !! k) as [s|] eqn:Hk; [|unfold resplit; by rewrite Hk].
  pose proof Hwf as [Hok Hd]. destruct (Hok _ _ Hk) as (Hs & ? & ? & ?).
  destruct (f_ok k s (Hok _ _ Hk)) as [Hall Hsrt]. rewrite Forall_forall in Hall.
  unfold seg_start in *. split.
  - intros k' s' Hk'. destruct (resplit_inv m k s k' s' Hwf Hk Hk') as [[Hin He]|[_ ?]]; [|by apply Hok].
    destruct (Hall s' Hin) as (? & ? & ?). unfold seg_ok, seg_start in *. lia.
  - intros k1 s1 k2 s2 Hk1 Hk2 Hne.
    destruct (resplit_inv m k s k1 s1 Hwf Hk Hk1) as [[Hin1 He1]|[Hne1 Ho1]],
             (resplit_inv m k s k2 s2 Hwf Hk Hk2) as [[Hin2 He2]|[Hne2 Ho2]].
    + unfold seg_start in *. subst. by apply (sorted_pieces_disjoint (f s)).
    + destruct (Hall s1 Hin1) as (? & ? & ?). unfold seg_start in *.
      destruct (Hd k s k2 s2 Hk Ho2); [done|lia..].
    + destruct (Hall s2 Hin2) as (? & ? & ?). unfold seg_start in *.
      destruct (Hd k s k1 s1 Hk Ho1); [done|lia..].
    + by apply (Hd k1 s1 k2 s2).
Qed.

(** The start of a piece is not the key of another segment. *)
Lemma piece_key_fresh m k s p ks :
  mappings_wf m → m !! k = Some s → k ∉ ks → (∀ k0, k0 ∈ k :: ks → is_Some (m !! k0)) →
  p ∈ f s → seg_start p ∉ ks.
Proof.
  intros [Hok Hd] Hk Hnin Hin Hp Hks.
  destruct (Hin (seg_start p)) as [s' Hs']; [by right|].
  destruct (Hok _ _ Hk) as (Hs & ? & ? & ?). destruct (Hok _ _ Hs') as (_ & ? & ? & ?).
  destruct (f_ok k s (Hok _ _ Hk)) as [Hall _]. rewrite Forall_forall in Hall.
  destruct (Hall p Hp) as (? & ? & ?). unfold seg_start in *.
  destruct (Hd k s (start (area p)) s' Hk Hs'); [intros ->; done|lia..].
Qed.

(** The addresses covered after all keys were processed are those of the
    pieces. *)
Lemma resplit_all m ks :
  mappings_wf m → NoDup ks → (∀ k, k ∈ ks → is_Some (m !! k)) →
  mappings_wf (foldl (resplit f) m ks) ∧
  ∀ k' s', foldl (resplit f) m ks !! k' = Some s' ↔
    (∃ k s, k ∈ ks ∧ m !! k = Some s ∧ s' ∈ f s ∧ (seg_start s' = k')) ∨
    ((k' ∉ ks) ∧ m !! k' = Some s').
Proof.
  revert m; induction ks as [|k ks IH]; intros m Hwf Hnd Hin.
  { simpl. split; [done|]. intros k' s'. set_solver. }
  apply NoDup_cons in Hnd as [Hnin Hnd].
  destruct (Hin k) as [s Hk]; [by left|].
  assert (∀ k0, k0 ∈ ks → k0 ≠ k) as Hne by (intros k0 ? ->; done).
  assert (∀ k0, k0 ∈ ks → resplit f m k !! k0 = m !! k0) as Hsame.
  { intros k0 Hk0. destruct (Hin k0) as [s0 Hs0]; [by right|]. rewrite Hs0.
    apply resplit_other; auto. }
  cbn [foldl].
  destruct (IH (resplit f m k)) as [Hwf' Hlk]; [by apply resplit_wf|done|..].
  { intros k0 Hk0. rewrite Hsame by done. apply Hin. by right. }
  split; [done|]. intros k' s'. rewrite Hlk. split.
  - intros [(k0 & s0 & Hk0 & Hm & ? & ?)|[Hnin' Hm]].
    + left. exists k0, s0. rewrite Hsame in Hm by done. set_solver.
    + destruct (resplit_inv m k s k' s' Hwf Hk Hm) as [[? ?]|[? ?]]; [left|right].
      * exists k, s. split_and!; [by left|done..].
      * split; [set_solver|done].
  - intros [(k0 & s0 & Hk0 & Hm & Hp & Hst)|[Hnin' Hm]].
    + apply elem_of_cons in Hk0 as [->|Hk0].
      * rewrite Hk in Hm. simplify_eq. right. split; [by apply (piece_key_fresh m k s0)|].
        rewrite (resplit_lookup m k s0) by done.
        rewrite (find_piece s0 (seg_start s') s'); [done| |done|done].
        eapply f_ok. by apply Hwf.
      * left. exists k0, s0. by rewrite Hsame.
    + right. rewrite not_elem_of_cons in Hnin'. split; [tauto|]. apply resplit_other; tauto.
Qed.

End Resplit.

(** ** The pieces of [unmap_range_inner] and [mprotect] *)
Definition slice_storage (s : Segment) (st ln : Z) : SegmentStorage :=
  match storage s with
  | Owned pb n => Owned pb n
  | Shared vb vl ptr => Shared vb vl (saturating_add ptr (st - seg_start s))
  | Host ptr _ => Host (saturating_add ptr (st - seg_start s)) ln
  end.
Definition slice (s : Segment) (st ln pr : Z) : Segment :=
  mkSegment (mkArea st ln pr) (slice_storage s st ln).

Lemma slice_segment_ok s st ln pr :
  seg_start s ≤ st → slice_segment s st ln pr = Ok (slice s st ln pr).
Proof.
  intros. unfold slice_segment, slice_segment_storage. rewrite usub_ok by done. simpl.
  unfold slice, slice_storage, seg_start. by destruct (storage s).
Qed.

Definition seg_end (s : Segment) : Z := seg_start s + seg_len s.

Definition unmap_pieces (st end_ : Z) (s : Segment) : list Segment :=
  if (end_ <=? seg_start s) || (seg_end s <=? st) then [s]
  else (if seg_start s <? st then [slice s (seg_start s) (st - seg_start s) (prot (area s))] else []) ++
       (if end_ <? seg_end s then [slice s end_ (seg_end s - end_) (prot (area s))] else []).

Definition mprotect_pieces (addr end_ pr : Z) (s : Segment) : list Segment :=
  if (end_ <=? seg_start s) || (seg_end s <=? addr) then [s]
  else (if seg_start s <? addr then [slice s (seg_start s) (addr - seg_start s) (prot (area s))] else []) ++
       slice s (Z.max (seg_start s) addr)
         (Z.min (seg_end s) end_ - Z.max (seg_start s) addr) pr ::
       (if end_ <? seg_end s then [slice s end_ (seg_end s - end_) (prot (area s))] else []).

Ltac solve_pieces :=
  repeat case_match; reflect_bools; split; simpl;
  repeat (apply Forall_cons || apply Forall_nil || apply SSorted_nil || apply SSorted_cons || split);
  unfold slice, seg_end, seg_start, seg_len in *; simpl in *; try done; try lia.

Lemma unmap_pieces_ok st end_ k s :
  st < end_ → seg_ok k s → pieces_ok s (unmap_pieces st end_ s).
Proof.
  intros Hlt (Hs & ? & ? & ?). unfold pieces_ok, unmap_pieces.
  destruct ((end_ <=? seg_start s) || (seg_end s <=? st)) eqn:Hc; solve_pieces.
Qed.

Lemma mprotect_pieces_ok addr end_ pr k s :
  addr < end_ → seg_ok k s → pieces_ok s (mprotect_pieces addr end_ pr s).
Proof.
  intros Hlt (Hs & ? & ? & ?). unfold pieces_ok, mprotect_pieces.
  destruct ((end_ <=? seg_start s) || (seg_end s <=? addr)) eqn:Hc; solve_pieces.
Qed.

(** The loop bodies compute the pieces. *)
Lemma unmap_step_resplit st end_ m c k :
  mappings_wf m → st < end_ →
  ∃ c', unmap_step st end_ (m, c) k = Ok (resplit (unmap_pieces st end_) m k, c').
Proof.
  intros [Hok _] Hlt. unfold unmap_step, resplit, unmap_pieces.
  destruct (m !! k) as [s|] eqn:Hk; [|eauto].
  destruct (Hok _ _ Hk) as (Hs & ? & ? & ?).
  rewrite uadd_ok by (rewrite Hs; lia). simpl.
  unfold seg_end, seg_start in *.
  destruct ((end_ <=? _) || (_ <=? st)) eqn:Hc; [by eexists|]. reflect_bools.
  rewrite !slice_segment_ok by (unfold seg_start; lia). simpl.
  destruct (Z.ltb_spec (start (area s)) st), (Z.ltb_spec end_ (start (area s) + seg_len s));
    simpl; by eexists.
Qed.

Lemma mprotect_step_resplit addr end_ pr m k :
  mappings_wf m → addr < end_ →
  mprotect_step addr end_ pr m k = Ok (resplit (mprotect_pieces addr end_ pr) m k).
Proof.
  intros [Hok _] Hlt. unfold mprotect_step, resplit, mprotect_pieces.
  destruct (m !! k) as [s|] eqn:Hk; [|done].
  destruct (Hok _ _ Hk) as (Hs & ? & ? & ?).
  rewrite uadd_ok by (rewrite Hs; lia). simpl.
  unfold seg_end, seg_start in *.
  destruct ((end_ <=? _) || (_ <=? addr)) eqn:Hc; [done|]. reflect_bools.
  rewrite usub_ok by lia. rewrite !slice_segment_ok by (unfold seg_start; lia). simpl.
  destruct (Z.ltb_spec (start (area s)) addr), (Z.ltb_spec end_ (start (area s) + seg_len s));
    simpl; rewrite ?slice_segment_ok by (unfold seg_start; lia); done.
Qed.

Lemma unmap_fold st end_ m c ks :
  mappings_wf m → st < end_ →
  ∃ c', foldM (unmap_step st end_) (m, c) ks =
        Ok (foldl (resplit (unmap_pieces st end_)) m ks, c').
Proof.
  revert m c; induction ks as [|k ks IH]; intros m c Hwf Hlt; [by eexists|].
  cbn [foldM foldl]. destruct (unmap_step_resplit st end_ m c k Hwf Hlt) as [c' ->]. simpl.
  apply IH; [|done]. apply resplit_wf; [|done]. intros. by eapply unmap_pieces_ok.
Qed.

Lemma mprotect_fold addr end_ pr m ks :
  mappings_wf m → addr < end_ →
  foldM (mprotect_step addr end_ pr) m ks = Ok (foldl (resplit (mprotect_pieces addr end_ pr)) m ks).
Proof.
  revert m; induction ks as [|k ks IH]; intros m Hwf Hlt; [done|].
  cbn [foldM foldl]. rewrite mprotect_step_resplit by done. simpl.
  apply IH; [|done]. apply resplit_wf; [|done]. intros. by eapply mprotect_pieces_ok.
Qed.

(** Entries of a fully processed map are pieces of entries. *)
Lemma resplit_keys f m :
  (∀ k s, seg_ok k s → pieces_ok s (f s)) → mappings_wf m →
  mappings_wf (foldl (resplit f) m (keys m)) ∧
  ∀ k' s', foldl (resplit f) m (keys m) !! k' = Some s' ↔
    ∃ k s, m !! k = Some s ∧ s' ∈ f s ∧ seg_start s' = k'.
Proof.
  intros Hf Hwf.
  destruct (resplit_all f Hf m (keys m) Hwf) as [? Hlk]; [apply NoDup_keys_by|..].
  { intros k. by rewrite elem_of_keys_by. }
  split; [done|]. intros k' s'. rewrite Hlk, elem_of_keys_by. split.
  - intros [(k & s & _ & ? & ? & ?)|[Hn Hk]]; [eauto|]. exfalso. apply Hn. eauto.
  - intros (k & s & ? & ? & ?). left. exists k, s. rewrite elem_of_keys_by. eauto.
Qed.

(** ** What user code sees of an address *)

(** The protection of the page of [a], [None] when it is unmapped. *)
Definition addr_prot (m : gmap Z Segment) (a : Z) : option Z :=
  match find_segment m a 1 with Ok (s, _) => Some (prot (area s)) | _ => None end.

(** The kernel pointer to the byte at [a]. *)
Definition addr_ptr `{HalMemory} (m : gmap Z Segment) (a : Z) : option Z :=
  match find_segment m a 1 with
  | Ok (s, off) => match storage_ptr s off with Ok p => Some p | _ => None end
  | _ => None
  end.

Definition is_owned (s : Segment) : bool := match storage s with Owned _ _ => true | _ => false end.

Definition addr_owned (m : gmap Z Segment) (a : Z) : bool :=
  match find_segment m a 1 with Ok (s, _) => is_owned s | _ => false end.

Lemma covers_dec m a : mappings_wf m → (∃ k s, covers m a k s) ∨ (∀ k s, ¬ covers m a k s).
Proof.
  intros Hwf. destruct (find_segment m a 1) as [[s off]|e| |] eqn:Hf.
  - left. apply find_segment_Ok in Hf; eauto.
  - right. intros k s Hc. apply find_segment_covers in Hc; [congruence|done].
  - right. intros k s Hc. apply find_segment_covers in Hc; [congruence|done].
  - right. intros k s Hc. apply find_segment_covers in Hc; [congruence|done].
Qed.

Lemma addr_prot_covers m a k s :
  mappings_wf m → covers m a k s → addr_prot m a = Some (prot (area s)).
Proof. intros Hwf Hc. unfold addr_prot. by rewrite (find_segment_covers m a k s). Qed.

Lemma addr_prot_none m a :
  mappings_wf m → (∀ k s, ¬ covers m a k s) → addr_prot m a = None.
Proof. intros Hwf Hc. unfold addr_prot. by rewrite find_segment_none. Qed.

Lemma slice_ptr `{HalMemory} s st ln pr a p :
  is_owned s = false → seg_start s ≤ st ≤ a →
  storage_ptr s (a - seg_start s) = Ok p → storage_ptr (slice s st ln pr) (a - st) = Ok p.
Proof.
  unfold is_owned, storage_ptr, slice, slice_storage, seg_start. simpl.
  destruct (storage s) as [|vb vl ptr|ptr hl]; simpl; [done|..]; intros _ Hst Hp.
  - apply uadd_Ok_inv in Hp as [-> ?]. unfold saturating_add. rewrite Z.min_l by lia.
    rewrite uadd_ok by lia. f_equal. lia.
  - apply uadd_Ok_inv in Hp as [-> ?]. unfold saturating_add. rewrite Z.min_l by lia.
    rewrite uadd_ok by lia. f_equal. lia.
Qed.

(** A splitting function that keeps the addresses satisfying [Q], with the
    protection changed by [g]. *)
Section Views.
Context `{HalMemory} (f : Segment → list Segment) (Q : Z → Prop) (g : Z → Z → Z).
Context `{!∀ a, Decision (Q a)}.
Hypothesis f_ok : ∀ k s, seg_ok k s → pieces_ok s (f s).
Hypothesis f_sound : ∀ k s s' a, seg_ok k s → s' ∈ f s → contains s' a →
  contains s a ∧ Q a ∧ prot (area s') = g a (prot (area s)) ∧
  (is_owned s = false → ∀ p, storage_ptr s (a - seg_start s) = Ok p →
     storage_ptr s' (a - seg_start s') = Ok p).
Hypothesis f_complete : ∀ k s a, seg_ok k s → contains s a → Q a →
  ∃ s', s' ∈ f s ∧ contains s' a.

Lemma resplit_covers m a :
  mappings_wf m →
  let m' := foldl (resplit f) m (keys m) in
  (∀ k s, covers m a k s → Q a → ∃ k' s', covers m' a k' s' ∧ s' ∈ f s ∧ contains s' a) ∧
  (∀ k' s', covers m' a k' s' → ∃ k s, covers m a k s ∧ Q a ∧ s' ∈ f s ∧ contains s' a).
Proof.
  intros Hwf m'. destruct (resplit_keys f m f_ok Hwf) as [Hwf' Hlk]. split.
  - intros k s [Hk Ha] HQ. pose proof Hwf as [Hok _].
    pose proof (Hok _ _ Hk) as Hsk. pose proof Hsk as (Hst & ? & ? & ?).
    destruct (f_complete k s a Hsk) as (s' & Hin & Hc); [by unfold contains, seg_start; rewrite Hst|done|].
    exists (seg_start s'), s'. split_and!; [|done|done]. split; [|exact Hc].
    apply Hlk. eauto.
  - intros k' s' [Hk' Ha']. apply Hlk in Hk' as (k & s & Hk & Hin & <-).
    pose proof Hwf as [Hok _]. pose proof (Hok _ _ Hk) as Hsk.
    destruct (f_sound k s s' a Hsk Hin Ha') as (Hc & HQ & _ & _).
    exists k, s. destruct Hsk as (Hst & _).
    split; [split; [done|]|by split_and!].
    unfold contains, seg_start in Hc. by rewrite Hst in Hc.
Qed.

Lemma resplit_view m :
  mappings_wf m →
  let m' := foldl (resplit f) m (keys m) in
  (∀ a, addr_prot m' a = if decide (Q a) then g a <$> addr_prot m a else None) ∧
  (∀ a p, Q a → addr_owned m a = false → addr_ptr m a = Some p → addr_ptr m' a = Some p).
Proof.
  intros Hwf m'. destruct (resplit_keys f m f_ok Hwf) as [Hwf' _].
  pose proof Hwf as [Hok _]. split.
  - intros a. destruct (resplit_covers m a Hwf) as [Hfw Hbw].
    destruct (decide (Q a)) as [HQ|HQ].
    + destruct (covers_dec m a Hwf) as [(k & s & Hc)|Hn].
      * destruct (Hfw k s Hc HQ) as (k' & s' & Hc' & Hin & Hcon).
        rewrite (addr_prot_covers m a k s), (addr_prot_covers m' a k' s') by done. simpl.
        destruct Hc as [Hk _]. by destruct (f_sound k s s' a (Hok _ _ Hk) Hin Hcon) as (_ & _ & -> & _).
      * rewrite (addr_prot_none m a), (addr_prot_none m' a); try done.
        intros k' s' Hc'. destruct (Hbw _ _ Hc') as (k & s & ? & _). by eapply Hn.
    + rewrite addr_prot_none; [done|done|].
      intros k' s' Hc'. destruct (Hbw _ _ Hc') as (k & s & _ & ? & _). done.
  - intros a p HQ Hown Hp. destruct (resplit_covers m a Hwf) as [Hfw _].
    destruct (covers_dec m a Hwf) as [(k & s & Hc)|Hn].
    + destruct (Hfw k s Hc HQ) as (k' & s' & Hc' & Hin & Hcon).
      unfold addr_ptr, addr_owned in *. rewrite (find_segment_covers m a k s) in Hp, Hown by done.
      rewrite (find_segment_covers m' a k' s') by done.
      pose proof Hwf' as [Hok' _]. destruct Hc' as [Hk' _]. destruct (Hok' _ _ Hk') as (Hst' & _).
      destruct Hc as [Hk _]. pose proof (Hok _ _ Hk) as Hsk. pose proof Hsk as (Hst & _).
      destruct (f_sound k s s' a Hsk Hin Hcon) as (_ & _ & _ & Hptr).
      destruct (storage_ptr s (a - k)) as [p0| | |] eqn:Hp0; try done. injection Hp as ->.
      assert (storage_ptr s' (a - k') = Ok p) as ->; [|done].
      rewrite <- Hst'. apply (Hptr Hown). unfold seg_start. by rewrite Hst.
    + unfold addr_ptr in Hp. by rewrite find_segment_none in Hp.
Qed.

End Views.

Lemma unmap_pieces_sound `{HalMemory} st end_ k s s' a :
  seg_ok k s → s' ∈ unmap_pieces st end_ s → contains s' a →
  contains s a ∧ ¬ (st ≤ a < end_) ∧ prot (area s') = prot (area s) ∧
  (is_owned s = false → ∀ p, storage_ptr s (a - seg_start s) = Ok p →
     storage_ptr s' (a - seg_start s') = Ok p).
Proof.
  intros (Hs & ? & ? & ?) Hin Hc. unfold unmap_pieces in Hin.
  destruct ((end_ <=? seg_start s) || (seg_end s <=? st)) eqn:Hb.
  - apply list_elem_of_singleton in Hin as ->. unfold contains, seg_end in *.
    split; [done|]. split; [|eauto]. apply orb_true_iff in Hb as [?|?]; reflect_bools; lia.
  - reflect_bools. apply elem_of_app in Hin as [Hin|Hin].
    + destruct (Z.ltb_spec (seg_start s) st); [|by apply elem_of_nil in Hin].
      apply list_elem_of_singleton in Hin as ->.
      unfold contains, seg_end, seg_len in *. simpl in *. unfold seg_start in *. simpl in *.
      split_and!; try done; try lia. intros Ho p Hp. apply slice_ptr; unfold seg_start; [done|lia|done].
    + destruct (Z.ltb_spec end_ (seg_end s)); [|by apply elem_of_nil in Hin].
      apply list_elem_of_singleton in Hin as ->.
      unfold contains, seg_end, seg_len in *. simpl in *. unfold seg_start in *. simpl in *.
      split_and!; try done; try lia. intros Ho p Hp. apply slice_ptr; unfold seg_start; [done|lia|done].
Qed.

Lemma unmap_pieces_complete st end_ s a :
  contains s a → ¬ (st ≤ a < end_) → ∃ s', s' ∈ unmap_pieces st end_ s ∧ contains s' a.
Proof.
  unfold unmap_pieces, contains. intros Hc Hn.
  destruct ((end_ <=? seg_start s) || (seg_end s <=? st)) eqn:Hb.
  - exists s. split; [by apply list_elem_of_singleton|done].
  - reflect_bools. unfold seg_end in *. destruct (decide (a < st)).
    + rewrite (proj2 (Z.ltb_lt _ _)) by lia. eexists. split; [by left|].
      unfold seg_len, seg_start in *. simpl. lia.
    + rewrite (proj2 (Z.ltb_lt end_ _)) by lia. eexists. split; [apply elem_of_app; right; by left|].
      unfold seg_len, seg_start in *. simpl. lia.
Qed.

Definition prot_in (addr end_ pr a old : Z) : Z :=
  if decide (addr ≤ a < end_) then pr else old.

Lemma mprotect_pieces_sound `{HalMemory} addr end_ pr k s s' a :
  seg_ok k s → s' ∈ mprotect_pieces addr end_ pr s → contains s' a →
  contains s a ∧ True ∧ prot (area s') = prot_in addr end_ pr a (prot (area s)) ∧
  (is_owned s = false → ∀ p, storage_ptr s (a - seg_start s) = Ok p →
     storage_ptr s' (a - seg_start s') = Ok p).
Proof.
  intros (Hs & ? & ? & ?) Hin Hc. unfold mprotect_pieces, prot_in in *.
  destruct ((end_ <=? seg_start s) || (seg_end s <=? addr)) eqn:Hb.
  - apply list_elem_of_singleton in Hin as ->. unfold contains, seg_end in *.
    apply orb_true_iff in Hb as [?|?]; reflect_bools; rewrite decide_False by lia; eauto.
  - reflect_bools. rewrite elem_of_app, elem_of_cons in Hin.
    destruct Hin as [Hin|[->|Hin]].
    + destruct (Z.ltb_spec (seg_start s) addr); [|by apply elem_of_nil in Hin].
      apply list_elem_of_singleton in Hin as ->.
      unfold contains, seg_end, seg_len in *. simpl in *. unfold seg_start in *. simpl in *.
      rewrite decide_False by lia. split_and!; try done; try lia.
      intros Ho p Hp. apply slice_ptr; unfold seg_start; [done|lia|done].
    + unfold contains, seg_end, seg_len in *. simpl in *. unfold seg_start in *. simpl in *.
      rewrite decide_True by lia. split_and!; try done; try lia.
      intros Ho p Hp. apply slice_ptr; unfold seg_start; [done|lia|done].
    + destruct (Z.ltb_spec end_ (seg_end s)); [|by apply elem_of_nil in Hin].
      apply list_elem_of_singleton in Hin as ->.
      unfold contains, seg_end, seg_len in *. simpl in *. unfold seg_start in *. simpl in *.
      rewrite decide_False by lia. split_and!; try done; try lia.
      intros Ho p Hp. apply slice_ptr; unfold seg_start; [done|lia|done].
Qed.

Lemma mprotect_pieces_complete addr end_ pr s a :
  addr < end_ → contains s a → ∃ s', s' ∈ mprotect_pieces addr end_ pr s ∧ contains s' a.
Proof.
  unfold mprotect_pieces, contains. intros Hlt Hc.
  destruct ((end_ <=? seg_start s) || (seg_end s <=? addr)) eqn:Hb.
  - exists s. split; [by apply list_elem_of_singleton|done].
  - reflect_bools. unfold seg_end in *. destruct (decide (a < addr)), (decide (a < end_)).
    + rewrite (proj2 (Z.ltb_lt _ _)) by lia. eexists. split; [by left|].
      unfold seg_len, seg_start in *. simpl. lia.
    + lia.
    + eexists. split; [apply elem_of_app; right; by left|].
      unfold seg_len, seg_start in *. simpl. lia.
    + rewrite (proj2 (Z.ltb_lt end_ _)) by lia. eexists.
      split; [apply elem_of_app; right; right; by left|].
      unfold seg_len, seg_start in *. simpl. lia.
Qed.

(** ** Unmapping and protecting ranges *)
Lemma unmap_range_inner_spec `{HalMemory} i st ln :
  mappings_wf (mappings i) → 0 ≤ st → 0 < ln → st + ln ≤ USIZE_MAX →
  ∃ m d, unmap_range_inner i st ln = Ok (with_dirty (with_mappings i m) d) ∧
    m = foldl (resplit (unmap_pieces st (st + ln))) (mappings i) (keys (mappings i)) ∧
    mappings_wf m ∧
    (∀ a, addr_prot m a =
       if decide (st ≤ a < st + ln) then None else addr_prot (mappings i) a) ∧
    (∀ a p, ¬ (st ≤ a < st + ln) → addr_owned (mappings i) a = false →
       addr_ptr (mappings i) a = Some p → addr_ptr m a = Some p).
Proof.
  intros Hwf ? Hln Hle. unfold unmap_range_inner.
  rewrite (proj2 (Z.eqb_neq ln 0)) by lia.
  assert (checked_add st ln = Some (st + ln)) as -> by (by apply checked_add_Some). simpl.
  destruct (unmap_fold st (st + ln) (mappings i) false (keys (mappings i)) Hwf) as [c ->]; [lia|].
  simpl. set (m := foldl _ _ _). exists m, (c || dirty i).
  assert (∀ k s, seg_ok k s → pieces_ok s (unmap_pieces st (st + ln) s)) as Hok
    by (intros; eapply unmap_pieces_ok; [lia|done]).
  destruct (resplit_keys _ _ Hok Hwf) as [Hwf' _].
  destruct (resplit_view (unmap_pieces st (st + ln)) (fun a => ¬ (st ≤ a < st + ln))
              (fun _ pr => pr) Hok) with (m := mappings i) as [Hv Hp]; [..|done|].
  { intros. by eapply unmap_pieces_sound. }
  { intros. by apply unmap_pieces_complete. }
  split_and!; [by destruct c; destruct i|done|done| |exact Hp].
  intros a. fold m in Hv. rewrite Hv.
  destruct (decide (¬ (st ≤ a < st + ln))), (decide (st ≤ a < st + ln)); try tauto.
  by destruct (addr_prot (mappings i) a).
Qed.

Lemma mprotect_fold_spec `{HalMemory} m0 addr end_ pr :
  mappings_wf m0 → addr < end_ →
  ∃ m, foldM (mprotect_step addr end_ pr) m0 (keys m0) = Ok m ∧ mappings_wf m ∧
    (∀ a, addr_prot m a = prot_in addr end_ pr a <$> addr_prot m0 a) ∧
    (∀ a p, addr_owned m0 a = false → addr_ptr m0 a = Some p → addr_ptr m a = Some p).
Proof.
  intros Hwf Hlt. rewrite mprotect_fold by done. eexists. split; [done|].
  assert (∀ k s, seg_ok k s → pieces_ok s (mprotect_pieces addr end_ pr s)) as Hok
    by (intros; by eapply mprotect_pieces_ok).
  destruct (resplit_keys _ _ Hok Hwf) as [Hwf' _].
  destruct (resplit_view (mprotect_pieces addr end_ pr) (fun a => True)
              (prot_in addr end_ pr) Hok) with (m := m0) as [Hv Hp]; [..|done|].
  { intros. by eapply mprotect_pieces_sound. }
  { intros. by apply mprotect_pieces_complete. }
  split_and!; [done| |intros; by apply Hp].
  intros a. by rewrite Hv.
Qed.

Lemma align_up_page v :
  0 ≤ v → v + PAGE_SIZE ≤ USIZE_MAX → align_up v PAGE_SIZE = Ok (round_up v PAGE_SIZE).
Proof.
  intros. change PAGE_SIZE with (2 ^ 12) in *. apply align_up_pow2; [lia| |done].
  unfold is_usize. lia.
Qed.

Lemma round_up_page v : v ≤ round_up v PAGE_SIZE < v + PAGE_SIZE ∧ (PAGE_SIZE | round_up v PAGE_SIZE).
Proof. apply round_up_spec. unfold PAGE_SIZE. lia. Qed.

Lemma page_offset_mod v : page_offset_of v = v mod PAGE_SIZE.
Proof.
  unfold page_offset_of, PAGE_SIZE. change (4096 - 1) with (Z.ones 12).
  by rewrite Z.land_ones by lia.
Qed.

Lemma page_offset_aligned v : (PAGE_SIZE | v) ↔ page_offset_of v = 0.
Proof. rewrite page_offset_mod. symmetry. apply Z.mod_divide. done. Qed.

(** C11: [munmap] of a valid range succeeds, keeps the segment map well formed,
    unmaps exactly the page-rounded range, keeps the protection of every other
    address, and for shared and host memory keeps the backing byte. *)
Theorem unmap_spec `{HalMemory} s addr ln :
  mappings_wf (mappings (inner s)) → 0 ≤ addr → 0 < ln → ln + PAGE_SIZE ≤ USIZE_MAX →
  addr + round_up ln PAGE_SIZE ≤ USIZE_MAX →
  ∃ i, unmap addr ln s = (Ok tt, with_inner s i) ∧ mappings_wf (mappings i) ∧
    (∀ a, addr_prot (mappings i) a =
       if decide (addr ≤ a < addr + round_up ln PAGE_SIZE) then None
       else addr_prot (mappings (inner s)) a) ∧
    (∀ a p, ¬ (addr ≤ a < addr + round_up ln PAGE_SIZE) →
       addr_owned (mappings (inner s)) a = false →
       addr_ptr (mappings (inner s)) a = Some p → addr_ptr (mappings i) a = Some p) ∧
    program_break i = program_break (inner s).
Proof.
  intros Hwf ? ? ? ?. pose proof (round_up_page ln) as [? _].
  destruct (unmap_range_inner_spec (inner s) addr (round_up ln PAGE_SIZE))
    as (m & d & Hu & _ & Hwf' & Hv & Hp); [done|lia..|].
  exists (with_dirty (with_mappings (inner s) m) d).
  split; [|split_and!; [exact Hwf'|exact Hv|exact Hp|done]].
  unfold unmap. rewrite (proj2 (Z.eqb_neq ln 0)) by lia.
  rewrite stm_bind_eq. unfold lift. rewrite align_up_page by lia.
  rewrite stm_bind_eq. simpl. by rewrite stm_bind_eq, Hu.
Qed.

(** C26: [mprotect] of a valid range succeeds, keeps the segment map well
    formed, gives the mapped addresses of the page-rounded range the new
    protection and keeps the protection of all others; an address that is not
    in owned memory keeps the kernel byte behind it (the frames of an owned
    segment that is cut shift, see [unmap_head_shifts_owned]). *)
Theorem mprotect_spec `{HalMemory} s addr ln pr :
  mappings_wf (mappings (inner s)) → 0 ≤ addr → 0 < ln → ln + PAGE_SIZE ≤ USIZE_MAX →
  addr + round_up ln PAGE_SIZE ≤ USIZE_MAX →
  ∃ i, mprotect addr ln pr s = (Ok tt, with_inner s i) ∧ mappings_wf (mappings i) ∧
    dirty i = true ∧
    (∀ a, addr_prot (mappings i) a =
       (fun old => if decide (addr ≤ a < addr + round_up ln PAGE_SIZE) then pr else old)
         <$> addr_prot (mappings (inner s)) a) ∧
    (∀ a p, addr_owned (mappings (inner s)) a = false →
       addr_ptr (mappings (inner s)) a = Some p → addr_ptr (mappings i) a = Some p).
Proof.
  intros Hwf ? ? ? ?. pose proof (round_up_page ln) as [? _].
  destruct (mprotect_fold_spec (mappings (inner s)) addr (addr + round_up ln PAGE_SIZE) pr)
    as (m & Hm & Hwf' & Hv & Hp); [done|lia|].
  exists (with_dirty (with_mappings (inner s) m) true).
  split; [|split_and!; [exact Hwf'|done|exact Hv|exact Hp]].
  unfold mprotect. rewrite (proj2 (Z.eqb_neq ln 0)) by lia.
  rewrite stm_bind_eq. unfold lift. rewrite align_up_page by lia.
  rewrite stm_bind_eq.
  assert (checked_add addr (round_up ln PAGE_SIZE) = Some (addr + round_up ln PAGE_SIZE)) as ->
    by (apply checked_add_Some; lia).
  simpl. rewrite stm_bind_eq. simpl. by rewrite stm_bind_eq, Hm.
Qed.

(** ** Inserting a segment *)
Definition free_range (m : gmap Z Segment) (st ln : Z) : Prop :=
  ∀ k s, m !! k = Some s → st + ln ≤ k ∨ k + seg_len s ≤ st.

Lemma free_range_uncovered m st ln :
  mappings_wf m → 0 < ln → (∀ a, st ≤ a < st + ln → addr_prot m a = None) → free_range m st ln.
Proof.
  intros Hwf Hln Hno k s Hk. pose proof Hwf as [Hok _]. destruct (Hok _ _ Hk) as (_ & ? & ? & ?).
  destruct (decide (st + ln ≤ k)); [by left|]. right.
  destruct (decide (k + seg_len s ≤ st)); [done|]. exfalso.
  assert (addr_prot m (Z.max k st) = Some (prot (area s))) as Hp.
  { apply addr_prot_covers with k; [done|]. split; [done|lia]. }
  rewrite Hno in Hp by lia. done.
Qed.

Lemma insert_free_wf m seg :
  mappings_wf m → seg_ok (seg_start seg) seg → free_range m (seg_start seg) (seg_len seg) →
  mappings_wf (<[seg_start seg := seg]> m).
Proof.
  intros [Hok Hd] Hseg Hfree. split.
  - intros k s [[<- <-]|[? ?]]%lookup_insert_Some; [done|by apply Hok].
  - intros k1 s1 k2 s2 [[<- <-]|[? H1]]%lookup_insert_Some [[<- <-]|[? H2]]%lookup_insert_Some Hne.
    + done.
    + destruct (Hfree _ _ H2); auto.
    + destruct (Hfree _ _ H1); auto.
    + by apply (Hd k1 s1 k2 s2).
Qed.

Lemma insert_free_find m seg a :
  mappings_wf m → seg_ok (seg_start seg) seg → free_range m (seg_start seg) (seg_len seg) →
  find_segment (<[seg_start seg := seg]> m) a 1 =
  if decide (contains seg a) then Ok (seg, a - seg_start seg) else find_segment m a 1.
Proof.
  intros Hwf Hseg Hfree. pose proof (insert_free_wf m seg Hwf Hseg Hfree) as Hwf'.
  assert (m !! seg_start seg = None) as Hnone.
  { destruct (m !! seg_start seg) as [s|] eqn:Hk; [|done]. pose proof Hwf as [Hok _].
    destruct (Hok _ _ Hk) as (_ & ? & ? & ?). destruct Hseg as (_ & ? & ? & ?).
    destruct (Hfree _ _ Hk); lia. }
  destruct (decide (contains seg a)) as [Hc|Hc].
  - apply find_segment_covers; [done|]. split; [apply lookup_insert_eq|exact Hc].
  - destruct (covers_dec m a Hwf) as [(k & s & Hcov)|Hn].
    + rewrite (find_segment_covers m a k s) by done. apply find_segment_covers; [done|].
      destruct Hcov as [Hk ?]. split; [|done]. rewrite lookup_insert_ne; [done|]. congruence.
    + rewrite (find_segment_none m) by done. apply find_segment_none; [done|].
      intros k s [[[<- <-]|[? Hk]]%lookup_insert_Some Ha]; [by apply Hc|].
      by eapply Hn; split.
Qed.

(** [i'] is [i] with the addresses of [seg] remapped to it. *)
Record inserted `{HalMemory} (i : AddressSpaceInner) (seg : Segment) (i' : AddressSpaceInner) : Prop := {
  ins_wf : mappings_wf (mappings i');
  ins_prot : ∀ a, addr_prot (mappings i') a =
    if decide (contains seg a) then Some (prot (area seg)) else addr_prot (mappings i) a;
  ins_find : ∀ a, contains seg a → find_segment (mappings i') a 1 = Ok (seg, a - seg_start seg);
  ins_ptr : ∀ a p, ¬ contains seg a → addr_owned (mappings i) a = false →
    addr_ptr (mappings i) a = Some p → addr_ptr (mappings i') a = Some p;
  ins_free : free_range (mappings i) (seg_start seg) (seg_len seg) →
    mappings i' = <[seg_start seg := seg]> (mappings i);
  ins_fa : frame_allocator i' = frame_allocator i;
  ins_brk : program_break i' = program_break i;
  ins_base : next_mapping_base i' = next_mapping_base i;
  ins_dirty : dirty i' = true;
}.

Lemma insert_segment_spec `{HalMemory} seg s :
  mappings_wf (mappings (inner s)) → seg_ok (seg_start seg) seg →
  ∃ i', insert_segment seg s = (Ok tt, with_inner s i') ∧ inserted (inner s) seg i'.
Proof.
  intros Hwf Hseg. pose proof Hseg as (_ & ? & ? & ?).
  destruct (overlaps_spec (mappings (inner s)) (seg_start seg) (seg_len seg)) as (b & Hb & Hfree);
    [done|done|done|done|].
  unfold insert_segment. fold (seg_start seg) (seg_len seg). rewrite !stm_bind_eq. simpl.
  rewrite stm_bind_eq. unfold lift. rewrite Hb. destruct b.
  - destruct (unmap_range_inner_spec (inner s) (seg_start seg) (seg_len seg))
      as (m & d & Hu & _ & Hwf' & Hv & Hp); [done..|].
    assert (free_range m (seg_start seg) (seg_len seg)) as Hfr.
    { apply free_range_uncovered; [done|done|]. intros a Ha. rewrite Hv, decide_True; done. }
    rewrite stm_bind_eq, Hu. eexists. split; [done|]. split; simpl; try done.
    + by apply insert_free_wf.
    + intros a. unfold addr_prot at 1. rewrite insert_free_find by done.
      destruct (decide (contains seg a)) as [|Hc]; [done|].
      change (addr_prot m a = addr_prot (mappings (inner s)) a).
      rewrite Hv, decide_False; [done|]. exact Hc.
    + intros a Ha. rewrite insert_free_find, decide_True; done.
    + intros a p Hc Ho Hpa. unfold addr_ptr. rewrite insert_free_find, decide_False by done.
      by apply Hp.
    + intros Hfree0. by pose proof (proj2 Hfree Hfree0).
  - rewrite stm_bind_eq. simpl. eexists. split; [done|].
    assert (free_range (mappings (inner s)) (seg_start seg) (seg_len seg)) as Hfr by exact (proj1 Hfree eq_refl).
    split; simpl; try done.
    + by apply insert_free_wf.
    + intros a. unfold addr_prot at 1. rewrite insert_free_find by done.
      by destruct (decide (contains seg a)).
    + intros a Ha. rewrite insert_free_find, decide_True; done.
    + intros a p Hc Ho Hpa. unfold addr_ptr. by rewrite insert_free_find, decide_False by done.
Qed.

(** ** The gap search *)

(** Every segment ends at least a page below the top of the address space. *)
Definition below_top (m : gmap Z Segment) : Prop :=
  ∀ k s, m !! k = Some s → k + seg_len s + PAGE_SIZE ≤ USIZE_MAX.

(** Segments that end above [st]. *)
Definition above (m : gmap Z Segment) (st : Z) : list (Z * Segment) :=
  filter (fun '(k, s) => st < k + seg_len s) (items m).

Lemma length_items {V} (m : gmap Z V) : length (items m) = size m.
Proof. rewrite <- (length_fmap fst), items_fst. apply length_keys_by. Qed.

Lemma filter_length_lt {A} (P Q : A → Prop) `{!∀ x, Decision (P x), !∀ x, Decision (Q x)} l x :
  (∀ y, P y → Q y) → x ∈ l → Q x → ¬ P x → (length (filter P l) < length (filter Q l))%nat.
Proof.
  intros HPQ Hin HQ HP. assert (∀ l, length (filter P l) ≤ length (filter Q l))%nat as Hle.
  { intros l0. induction l0 as [|y l0 IH]; [done|]. rewrite !filter_cons.
    destruct (decide (P y)) as [Hy|], (decide (Q y)); simpl; try lia. exfalso. auto. }
  induction l as [|y l IH]; [by apply elem_of_nil in Hin|].
  rewrite !filter_cons. apply elem_of_cons in Hin as [->|Hin].
  - rewrite decide_False, decide_True by done. simpl. specialize (Hle l). lia.
  - specialize (IH Hin). destruct (decide (P y)) as [Hy|], (decide (Q y)); simpl; try lia.
    exfalso. auto.
Qed.

Lemma find_gap_spec m fuel st aligned :
  mappings_wf m → below_top m → 0 ≤ st → 0 < aligned → (length (above m st) < fuel)%nat →
  (PAGE_SIZE | st) →
  ∃ r, find_gap fuel m st aligned = Ok r ∧ st ≤ r ∧ (PAGE_SIZE | r) ∧
    (r = st ∨ ∃ k s, m !! k = Some s ∧ r < k + seg_len s + PAGE_SIZE) ∧
    ∀ k s, m !! k = Some s → saturating_add r aligned ≤ k ∨ k + seg_len s ≤ r.
Proof.
  intros Hwf Htop. revert st; induction fuel as [|fuel IH]; intros st Hst Hal Hfuel Hdiv; [lia|].
  simpl. destruct (first_overlap_end_spec m st aligned) as (o & -> & Ho); [done..|]. simpl.
  destruct o as [e|]; [|exists st; split_and!; [done|lia|done|by left|done]].
  destruct Ho as (k & s & Hk & -> & Hlt). pose proof (Htop _ _ Hk).
  rewrite align_up_page by lia. simpl. pose proof (round_up_page (k + seg_len s)) as [? ?].
  destruct (IH (round_up (k + seg_len s) PAGE_SIZE)) as (r & Hr & ? & ? & Hbound & ?); [lia|done| |done|].
  { apply Nat.lt_le_trans with (length (above m st)); [|lia].
    apply filter_length_lt with (k, s); [|by apply elem_of_items|lia|lia].
    intros [k' s'] ?. lia. }
  exists r. split_and!; [done|lia|done| |done]. right.
  destruct Hbound as [->|?]; [|done]. exists k, s. split; [done|lia].
Qed.

Lemma find_gap_enough m st : (length (above m st) < S (size m))%nat.
Proof. rewrite <- length_items. unfold above. pose proof (length_filter (fun '(k, s) => st < k + seg_len s) (items m)). lia. Qed.

(** ** Frame allocation *)
Definition fa_room (fa : FrameAllocator) (bytes : Z) : Prop :=
  0 ≤ fa_next fa ∧ fa_next fa + bytes ≤ fa_end fa ∧ fa_end fa ≤ USIZE_MAX.

Definition fa_advance (fa : FrameAllocator) (bytes : Z) : FrameAllocator :=
  mkFA (fa_start fa) (fa_end fa) (fa_next fa + bytes).

Lemma alloc_page_room fa :
  fa_room fa PAGE_SIZE → alloc_page fa = Some (fa_next fa, fa_advance fa PAGE_SIZE).
Proof.
  intros (? & ? & ?). unfold alloc_page.
  assert (checked_add (fa_next fa) PAGE_SIZE = Some (fa_next fa + PAGE_SIZE)) as ->
    by (apply checked_add_Some; lia).
  by rewrite (proj2 (Z.ltb_ge _ _)).
Qed.

Lemma alloc_more_room n fa :
  fa_room fa (Z.of_nat n * PAGE_SIZE) →
  alloc_more n fa = (true, fa_advance fa (Z.of_nat n * PAGE_SIZE)).
Proof.
  revert fa; induction n as [|n IH]; intros fa (? & ? & ?); cbn [alloc_more].
  - unfold fa_advance. rewrite Z.add_0_r. by destruct fa.
  - rewrite alloc_page_room by (unfold fa_room, PAGE_SIZE in *; lia).
    rewrite IH by (unfold fa_room, fa_advance, PAGE_SIZE in *; simpl; lia).
    unfold fa_advance. simpl. do 2 f_equal. unfold PAGE_SIZE. lia.
Qed.

(** the frame allocator hands out pairwise disjoint, page-sized ranges in
    ascending order, inside the region, and stops exactly when the region has
    no whole page left. *)
Theorem alloc_page_bounds fa :
  0 ≤ fa_start fa ≤ fa_next fa → fa_next fa ≤ fa_end fa → fa_end fa ≤ USIZE_MAX →
  match alloc_page fa with
  | Some (page, fa') =>
      page = fa_next fa ∧ fa_start fa ≤ page ∧ page + PAGE_SIZE ≤ fa_end fa ∧
      fa_next fa' = page + PAGE_SIZE ∧ fa_start fa' = fa_start fa ∧ fa_end fa' = fa_end fa ∧
      used_bytes fa' = used_bytes fa + PAGE_SIZE
  | None => fa_end fa < fa_next fa + PAGE_SIZE
  end.
Proof.
  intros ? ? ?. unfold alloc_page. destruct (checked_add (fa_next fa) PAGE_SIZE) as [n|] eqn:Hn.
  - apply checked_add_Some in Hn as [-> ?].
    destruct (Z.ltb_spec (fa_end fa) (fa_next fa + PAGE_SIZE)); [done|].
    unfold used_bytes, saturating_sub. simpl. unfold PAGE_SIZE in *. split_and!; try done; lia.
  - apply checked_add_None in Hn. lia.
Qed.

(** ** Owned storage *)
Section OwnedStorage.
Context `{HalMemory} (can_reserve : Z → bool).

(** Bytes of frames behind [n] bytes mapped at [addr]. *)
Definition frames_for (addr n : Z) : Z := round_up (page_offset_of addr + n) PAGE_SIZE.

(** The kernel window can reach [bytes] bytes at the frame the allocator
    hands out next. *)
Definition frames_ready (fa : FrameAllocator) (bytes : Z) : Prop :=
  fa_room fa bytes ∧ 0 ≤ phys_to_virt (fa_next fa) ∧ (PAGE_SIZE | phys_to_virt (fa_next fa)) ∧
  phys_to_virt (fa_next fa) + bytes + PAGE_SIZE ≤ USIZE_MAX.

Lemma page_offset_bound a : 0 ≤ page_offset_of a < PAGE_SIZE.
Proof. rewrite page_offset_mod. apply Z.mod_pos_bound. unfold PAGE_SIZE. lia. Qed.

Lemma round_up_pages v : (round_up v PAGE_SIZE + PAGE_SIZE - 1) / PAGE_SIZE * PAGE_SIZE = round_up v PAGE_SIZE.
Proof.
  change (round_up (round_up v PAGE_SIZE) PAGE_SIZE = round_up v PAGE_SIZE).
  apply round_up_id; [done|]. apply round_up_page.
Qed.

Lemma create_owned_storage_spec addr data s :
  data ≠ [] → frames_for addr (Z.of_nat (length data)) + 2 * PAGE_SIZE ≤ USIZE_MAX →
  let n := frames_for addr (Z.of_nat (length data)) in
  let fa := frame_allocator (inner s) in
  frames_ready fa n →
  create_owned_storage addr data s =
    (Ok (Owned (fa_next fa) (n / PAGE_SIZE)),
     mkSpace (with_frame_allocator (inner s) (fa_advance fa n))
             (write_mem (kmem s) (phys_to_virt (fa_next fa) + page_offset_of addr) data)).
Proof.
  intros Hne Hbig n fa (Hroom & Hpos & Hdiv & Hv).
  assert (0 < Z.of_nat (length data)) as Hlen by (destruct data; [done|simpl; lia]).
  pose proof (page_offset_bound addr). pose proof (round_up_page (page_offset_of addr + Z.of_nat (length data))) as [Hr Hrd].
  fold (frames_for addr (Z.of_nat (length data))) in Hr, Hrd. fold n in Hr, Hrd, Hbig.
  unfold create_owned_storage. replace (match data with [] => [0] | _ => data end) with data by (by destruct data).
  rewrite !stm_bind_eq. unfold lift. rewrite uadd_ok by (unfold PAGE_SIZE in *; lia).
  rewrite stm_bind_eq, align_up_page by (unfold PAGE_SIZE in *; lia).
  fold (frames_for addr (Z.of_nat (length data))). fold n.
  rewrite stm_bind_eq, uadd_ok by (unfold PAGE_SIZE in *; lia).
  rewrite stm_bind_eq, usub_ok by (unfold PAGE_SIZE in *; lia).
  assert ((n + PAGE_SIZE - 1) / PAGE_SIZE = n / PAGE_SIZE) as ->.
  { destruct Hrd as [q ->]. rewrite Z.div_mul by done.
    replace (q * PAGE_SIZE + PAGE_SIZE - 1) with (q * PAGE_SIZE + (PAGE_SIZE - 1)) by lia.
    rewrite Z.div_add_l, (Z.div_small (PAGE_SIZE - 1)) by (unfold PAGE_SIZE; lia). lia. }
  rewrite stm_bind_eq. simpl. fold fa.
  destruct Hrd as [q Hq]. assert (0 < q) by (unfold PAGE_SIZE in *; lia).
  destruct Hroom as (? & ? & ?).
  rewrite alloc_page_room by (unfold fa_room, PAGE_SIZE in *; lia).
  assert (n / PAGE_SIZE = q) as Hnq by (rewrite Hq; by apply Z.div_mul).
  rewrite Hnq.
  rewrite alloc_more_room by (unfold fa_room, fa_advance, PAGE_SIZE in *; simpl; lia).
  replace (fa_advance (fa_advance fa PAGE_SIZE) _) with (fa_advance fa n)
    by (unfold fa_advance; simpl; f_equal; unfold PAGE_SIZE in *; lia).
  rewrite stm_bind_eq. simpl. rewrite stm_bind_eq, align_up_page by lia.
  rewrite round_up_id by done. rewrite stm_bind_eq, uadd_ok by (unfold PAGE_SIZE in *; lia).
  by rewrite stm_bind_eq.
Qed.

Lemma map_owned_spec addr bytes pr s :
  mappings_wf (mappings (inner s)) → bytes ≠ [] → 0 ≤ addr →
  let ln := Z.of_nat (length bytes) in
  let n := frames_for addr ln in
  let fa := frame_allocator (inner s) in
  addr + ln ≤ USIZE_MAX → n + 2 * PAGE_SIZE ≤ USIZE_MAX → frames_ready fa n →
  let seg := mkSegment (mkArea addr ln pr) (Owned (fa_next fa) (n / PAGE_SIZE)) in
  ∃ i', map_owned addr bytes pr s =
    (Ok tt, mkSpace i' (write_mem (kmem s) (phys_to_virt (fa_next fa) + page_offset_of addr) bytes)) ∧
    inserted (with_frame_allocator (inner s) (fa_advance fa n)) seg i'.
Proof.
  intros Hwf Hne Ha ln n fa Hend Hbig Hready seg.
  assert (1 ≤ Z.of_nat (length bytes)) as Hl by (destruct bytes; [done|simpl; lia]).
  unfold map_owned. rewrite Z.max_l by done. rewrite stm_bind_eq.
  rewrite create_owned_storage_spec by done. fold ln fa n seg.
  destruct (insert_segment_spec seg (mkSpace (with_frame_allocator (inner s) (fa_advance fa n))
     (write_mem (kmem s) (phys_to_virt (fa_next fa) + page_offset_of addr) bytes)))
    as (i' & Hi & Hins); [done|unfold seg_ok, seg_start, seg_len; simpl; lia|].
  exists i'. by rewrite Hi.
Qed.

(** The byte at offset [j] of fresh owned memory. *)
Lemma owned_ptr addr ln pr pb n j :
  phys_to_virt pb + page_offset_of addr + j ≤ USIZE_MAX → 0 ≤ j →
  storage_ptr (mkSegment (mkArea addr ln pr) (Owned pb n)) j
  = Ok (phys_to_virt pb + page_offset_of addr + j).
Proof. intros. unfold storage_ptr. simpl. rewrite uadd_ok by lia. simpl. by rewrite uadd_ok by lia. Qed.

End OwnedStorage.

(** ** Anonymous mappings *)

(** Address space above the segments and above the mapping base for
    [aligned] more bytes. *)
Record mmap_room (i : AddressSpaceInner) (aligned : Z) : Prop := {
  mr_base : 0 ≤ next_mapping_base i;
  mr_base_top : next_mapping_base i + aligned + 2 * PAGE_SIZE ≤ USIZE_MAX;
  mr_segs : ∀ k s, mappings i !! k = Some s → k + seg_len s + aligned + PAGE_SIZE ≤ USIZE_MAX;
}.

Section Anonymous.
Context `{HalMemory} (can_reserve : Z → bool).

Lemma reserve_gap_spec aligned s :
  mappings_wf (mappings (inner s)) → 0 < aligned → mmap_room (inner s) aligned →
  ∃ st, reserve_gap aligned s =
      (Ok st, with_inner s (with_next_mapping_base (inner s) (st + aligned))) ∧
    (PAGE_SIZE | st) ∧ next_mapping_base (inner s) ≤ st ∧ st + aligned ≤ USIZE_MAX ∧
    free_range (mappings (inner s)) st aligned.
Proof.
  intros Hwf Hal [? ? Hseg]. unfold reserve_gap. stm_step. stm_step. rewrite align_up_page by (unfold PAGE_SIZE in *; lia).
  pose proof (round_up_page (next_mapping_base (inner s))) as [? ?].
  destruct (find_gap_spec (mappings (inner s)) (S (size (mappings (inner s))))
    (round_up (next_mapping_base (inner s)) PAGE_SIZE) aligned) as (st & Hgap & ? & ? & Hb & Hf);
    [done| |lia|lia|apply find_gap_enough|done|].
  { intros k s0 Hk. specialize (Hseg _ _ Hk). lia. }
  stm_step. rewrite Hgap.
  assert (st + aligned ≤ USIZE_MAX) as Hst.
  { destruct Hb as [->|(k & s0 & Hk & ?)]; [unfold PAGE_SIZE in *; lia|]. specialize (Hseg _ _ Hk). lia. }
  assert (checked_add st aligned = Some (st + aligned)) as Hca by (apply checked_add_Some; lia).
  stm_step. rewrite Hca. simpl. stm_step.
  exists st. split_and!; [done|done|lia|done|].
  intros k s0 Hk. destruct (Hf _ _ Hk) as [Hx|?]; [left|by right].
  unfold saturating_add in Hx. rewrite Z.min_l in Hx by lia. done.
Qed.

(** C14: an anonymous [mmap] with room succeeds.  It returns a page-aligned
    address at or above the mapping base whose whole rounded range was free;
    exactly that range becomes mapped, with the requested protection, and
    every byte of it reads as zero; no other address changes its segment, and
    the only kernel bytes written are those of the frames the allocator of this
    address space hands out next. *)
Theorem map_anonymous_spec s ln pr :
  mappings_wf (mappings (inner s)) → 0 < ln → ln + PAGE_SIZE ≤ USIZE_MAX →
  mmap_room (inner s) (round_up ln PAGE_SIZE) →
  frames_ready (frame_allocator (inner s)) (round_up ln PAGE_SIZE) →
  can_reserve (round_up ln PAGE_SIZE) = true →
  ∃ st s', map_anonymous can_reserve ln pr s = (Ok st, s') ∧
    (PAGE_SIZE | st) ∧ next_mapping_base (inner s) ≤ st ∧
    free_range (mappings (inner s)) st (round_up ln PAGE_SIZE) ∧
    mappings_wf (mappings (inner s')) ∧
    (∀ a, addr_prot (mappings (inner s')) a =
       if decide (st ≤ a < st + round_up ln PAGE_SIZE) then Some pr
       else addr_prot (mappings (inner s)) a) ∧
    (∀ a, st ≤ a < st + round_up ln PAGE_SIZE →
       ∃ p, addr_ptr (mappings (inner s')) a = Some p ∧ kmem s' !! p = Some 0) ∧
    (∀ a, ¬ (st ≤ a < st + round_up ln PAGE_SIZE) →
       find_segment (mappings (inner s')) a 1 = find_segment (mappings (inner s)) a 1) ∧
    (let frames := phys_to_virt (fa_next (frame_allocator (inner s))) in
     ∀ p, ¬ (frames ≤ p < frames + round_up ln PAGE_SIZE) → kmem s' !! p = kmem s !! p).
Proof.
  intros Hwf Hln Hle Hroom Hready Hres. pose proof (round_up_page ln) as [? Hal].
  set (al := round_up ln PAGE_SIZE) in *.
  destruct (reserve_gap_spec al s Hwf ltac:(lia) Hroom) as (st & Hgap & Hst & Hbase & Hend & Hfree).
  unfold map_anonymous. rewrite (proj2 (Z.eqb_neq ln 0)) by lia.
  rewrite stm_bind_eq. unfold lift. rewrite align_up_page by lia. fold al.
  rewrite stm_bind_eq, Hgap, Hres, stm_bind_eq.
  set (zs := replicate (Z.to_nat al) 0). set (s1 := with_inner s _).
  assert (Z.of_nat (length zs) = al) as Hzs by (unfold zs; rewrite length_replicate; lia).
  assert (frames_for st al = al) as Hff.
  { unfold frames_for. apply page_offset_aligned in Hst. rewrite Hst. by apply round_up_id. }
  pose proof Hroom as [? ? _]. pose proof Hready as ((? & ? & ?) & ? & ? & ?).
  destruct (map_owned_spec st zs pr s1) as (i' & Hmo & Hins); rewrite ?Hzs, ?Hff; try done.
  { destruct zs; [simpl in *; lia|done]. }
  { lia. }
  { unfold PAGE_SIZE in *. lia. }
  exists st, (mkSpace i' (write_mem (kmem s1)
    (phys_to_virt (fa_next (frame_allocator (inner s))) + page_offset_of st) zs)).
  rewrite Hmo. split; [done|]. rewrite Hzs, Hff in Hins.
  set (seg := mkSegment _ _) in Hins. simpl in Hins.
  assert (∀ a, contains seg a ↔ st ≤ a < st + al) as Hcon by done.
  destruct Hins as [Hw Hpr Hfd _ Hfr _ _ _ _]. split_and!; try done.
  - intros a Ha. simpl. unfold addr_ptr. rewrite Hfd by done. unfold seg_start. simpl.
    unfold seg. change (frame_allocator (inner s1)) with (frame_allocator (inner s)).
    apply page_offset_aligned in Hst. rewrite owned_ptr by lia.
    eexists. split; [done|]. rewrite lookup_write_mem, Hzs, decide_True by lia.
    unfold zs. apply lookup_replicate_2. lia.
  - intros a Ha. simpl. rewrite Hfr by done.
    rewrite insert_free_find; [|done| |done].
    + by rewrite decide_False by (by rewrite Hcon).
    + unfold seg_ok, seg_start, seg_len. simpl. lia.
  - intros p Hp. apply page_offset_aligned in Hst. simpl. rewrite Hst, lookup_write_mem, Hzs, decide_False; [done|].
    rewrite Z.add_0_r. exact Hp.
Qed.

End Anonymous.

(** A machine with one region of 256 MiB and a direct map. *)
Definition sample_hal : HalMemory := {|
  memory_regions := [mkRegion 0 0x80000000 false; mkRegion 0x80000000 0x10000000 true];
  phys_to_virt := fun p => p + 0xffffffc000000000;
|}.

Definition sample_space : space :=
  mkSpace (mkInner 0 ∅ USER_HEAP_BASE USER_MMAP_BASE None true
             (mkFA 0x80000000 0x90000000 0x80000000)) ∅.

Lemma sample_space_new : @new_user sample_hal = Ok (inner sample_space).
Proof. reflexivity. Qed.

Lemma sample_mmap_room n : 0 ≤ n ≤ 2 ^ 40 → mmap_room (inner sample_space) n.
Proof.
  intros. split; [done| |intros k s Hk; simpl in Hk; by rewrite lookup_empty in Hk].
  change (USER_MMAP_BASE + n + 2 * PAGE_SIZE ≤ USIZE_MAX).
  unfold USER_MMAP_BASE, PAGE_SIZE, USIZE_MAX. lia.
Qed.

Lemma sample_frames_ready :
  @frames_ready sample_hal (frame_allocator (inner sample_space)) 8192.
Proof.
  split; [|split_and!].
  - unfold fa_room, USIZE_MAX. simpl. lia.
  - done.
  - by exists 4503599560785920.
  - unfold USIZE_MAX, PAGE_SIZE. simpl. lia.
Qed.

Lemma map_anonymous_spec_witness :
  ∃ st s', @map_anonymous sample_hal (fun _ => true) 5000 3 sample_space = (Ok st, s') ∧
    addr_prot (mappings (inner s')) st = Some 3.
Proof.
  destruct (@map_anonymous_spec sample_hal (fun _ => true) sample_space 5000 3)
    as (st & s' & Hm & _ & _ & _ & _ & Hp & _).
  - apply mappings_wf_empty.
  - done.
  - done.
  - by apply sample_mmap_room.
  - apply sample_frames_ready.
  - done.
  - exists st, s'. split; [done|]. rewrite Hp, decide_True; [done|].
    change (round_up 5000 PAGE_SIZE) with 8192. lia.
Defined.

Lemma mappings_wf_singleton seg :
  seg_ok (seg_start seg) seg → mappings_wf {[seg_start seg := seg]}.
Proof.
  intros Hok. split.
  - intros k s [<- <-]%lookup_singleton_Some. done.
  - intros k1 s1 k2 s2 [<- <-]%lookup_singleton_Some [<- <-]%lookup_singleton_Some. done.
Qed.

(** Three pages of host memory at 0x10000. *)
Definition sample_host_seg : Segment :=
  mkSegment (mkArea 0x10000 0x3000 3) (Host 0x10000 0x3000).
Definition sample_host_space : space :=
  with_inner sample_space (with_mappings (inner sample_space) {[0x10000 := sample_host_seg]}).

Lemma sample_host_wf : mappings_wf (mappings (inner sample_host_space)).
Proof. apply (mappings_wf_singleton sample_host_seg). unfold seg_ok. split_and!; by vm_compute. Qed.

Lemma unmap_spec_witness :
  ∃ i, @unmap 0x11000 1 sample_host_space = (Ok tt, with_inner sample_host_space i) ∧
    addr_prot (mappings i) 0x11fff = None ∧ addr_prot (mappings i) 0x12000 = Some 3.
Proof.
  destruct (@unmap_spec sample_hal sample_host_space 0x11000 1) as (i & Hu & _ & Hp & _).
  - apply sample_host_wf.
  - done.
  - done.
  - done.
  - done.
  - exists i. rewrite !Hp. split; [done|]. split; vm_compute; done.
Defined.

Lemma mprotect_spec_witness :
  ∃ i, @mprotect 0x11000 1 5 sample_host_space = (Ok tt, with_inner sample_host_space i) ∧
    addr_prot (mappings i) 0x11fff = Some 5 ∧ addr_prot (mappings i) 0x12000 = Some 3.
Proof.
  destruct (@mprotect_spec sample_hal sample_host_space 0x11000 1 5) as (i & Hu & _ & _ & Hp & _).
  - apply sample_host_wf.
  - done.
  - done.
  - done.
  - done.
  - exists i. rewrite !Hp. split; [done|]. split; vm_compute; done.
Defined.

Lemma alloc_page_bounds_witness :
  match alloc_page (mkFA 0x1000 0x3000 0x2000) with
  | Some (page, fa') => page = 0x2000 ∧ fa_next fa' = 0x3000
  | None => False
  end.
Proof.
  pose proof (alloc_page_bounds (mkFA 0x1000 0x3000 0x2000)) as Hb.
  vm_compute in Hb |- *. destruct Hb as (? & _ & _ & ? & _); done.
Defined.

(** ** Byte access *)

(** A segment whose every byte has a kernel pointer; host segments carry
    their own length. *)
Definition seg_backed `{HalMemory} (s : Segment) : Prop :=
  (∀ i, 0 ≤ i < seg_len s → ∃ p, storage_ptr s i = Ok p) ∧
  match storage s with Host _ hlen => hlen = seg_len s | _ => True end.

Definition backed `{HalMemory} (m : gmap Z Segment) : Prop :=
  ∀ k s, m !! k = Some s → seg_backed s.

Section ByteAccess.
Context `{HalMemory} (can_reserve : Z → bool).

(** One user byte, through the segment map. *)
Definition peek (m : gmap Z Segment) (mem : gmap Z Z) (a : Z) : option Z :=
  (fun p => default 0 (mem !! p)) <$> addr_ptr m a.

Lemma storage_ptr_offset s i p j :
  storage_ptr s i = Ok p → 0 ≤ i → 0 ≤ j → (∃ q, storage_ptr s (i + j) = Ok q) →
  storage_ptr s (i + j) = Ok (p + j).
Proof.
  unfold storage_ptr. destruct (storage s) as [pb n|vb vl ptr|ptr hl]; intros Hp ? ? [q Hq]; inv_bind.
  - rewrite uadd_ok by lia. simpl. rewrite uadd_ok by lia. f_equal. lia.
  - rewrite uadd_ok by lia. f_equal. lia.
  - rewrite uadd_ok by lia. f_equal. lia.
Qed.

Lemma addr_ptr_covers m a k s p :
  mappings_wf m → covers m a k s → storage_ptr s (a - k) = Ok p → addr_ptr m a = Some p.
Proof. intros Hwf Hc Hp. unfold addr_ptr. by rewrite (find_segment_covers m a k s), Hp. Qed.

(** A run of bytes inside one segment is contiguous in kernel memory. *)
Lemma run_contiguous m a k s p n j :
  mappings_wf m → backed m → covers m a k s → storage_ptr s (a - k) = Ok p →
  a + n ≤ k + seg_len s → 0 ≤ j < n → addr_ptr m (a + j) = Some (p + j).
Proof.
  intros Hwf Hb Hc Hp Hn Hj. pose proof Hc as [Hk ?].
  apply addr_ptr_covers with k s; [done|split; [done|lia]|].
  replace (a + j - k) with (a - k + j) by lia.
  apply storage_ptr_offset; [done|lia|lia|]. apply (Hb k s Hk). lia.
Qed.

Lemma mapM_peek_run m mem a n p :
  0 ≤ n → (∀ j, 0 ≤ j < n → addr_ptr m (a + j) = Some (p + j)) →
  mapM (peek m mem) (seqZ a n) = Some (read_mem mem p n).
Proof.
  intros Hn Hrun. unfold read_mem. apply mapM_Some_2.
  replace (seqZ a n) with (Z.add a <$> seqZ 0 n) by (rewrite fmap_add_seqZ; f_equal; lia).
  apply Forall2_fmap. apply Forall_Forall2_diag, Forall_forall. intros j Hj. apply elem_of_seqZ in Hj.
  unfold peek. by rewrite Hrun by lia.
Qed.

Lemma mapM_app_option {A B} (f : A → option B) l1 l2 :
  mapM f (l1 ++ l2) = (r1 ← mapM f l1; r2 ← mapM f l2; Some (r1 ++ r2)).
Proof.
  induction l1 as [|x l1 IH]; simpl.
  - by destruct (mapM f l2).
  - destruct (f x); simpl; [|done]. rewrite IH. destruct (mapM f l1); simpl; [|done].
    by destruct (mapM f l2).
Qed.

Lemma read_loop_spec m mem fuel cursor remaining out :
  mappings_wf m → backed m → 0 ≤ remaining → (Z.to_nat remaining < fuel)%nat →
  read_loop fuel m mem cursor remaining out =
  match mapM (peek m mem) (seqZ cursor remaining) with
  | Some bs => Ok (out ++ bs)
  | None => Err EFAULT
  end.
Proof.
  intros Hwf Hb. revert cursor remaining out. induction fuel as [|fuel IH]; intros cur rem out Hr Hf; [lia|].
  cbn [read_loop]. destruct (Z.eqb_spec rem 0) as [->|Hne].
  { simpl. by rewrite app_nil_r. }
  destruct (covers_dec m cur Hwf) as [(k & s & Hc)|Hn]; cycle 1.
  { rewrite find_segment_none by done. rewrite seqZ_cons by lia.
    assert (peek m mem cur = None) as Hpk by (unfold peek, addr_ptr; by rewrite find_segment_none).
    simpl. by rewrite Hpk. }
  rewrite (find_segment_covers m cur k s) by done. cbn [mbind outcome_bind].
  pose proof Hc as [Hk ?]. pose proof Hwf as [Hok _]. destruct (Hok _ _ Hk) as (_ & ? & ? & ?).
  unfold saturating_sub. rewrite (Z.max_l (seg_len s - (cur - k))) by lia.
  set (tk := Z.min (seg_len s - (cur - k)) rem). assert (0 < tk ≤ rem) by lia.
  rewrite (proj2 (Z.eqb_neq tk 0)) by lia.
  destruct (Hb k s Hk) as [Hall _]. destruct (Hall (cur - k)) as [p Hp]; [lia|].
  rewrite Hp. cbn [mbind outcome_bind].
  assert (checked_add cur tk = Some (cur + tk)) as -> by (apply checked_add_Some; lia).
  cbn [ok_or mbind outcome_bind]. rewrite IH by lia.
  replace (seqZ cur rem) with (seqZ cur (tk + (rem - tk))) by (f_equal; lia).
  rewrite seqZ_app, mapM_app_option by lia.
  rewrite (mapM_peek_run m mem cur tk p);
    [|lia|intros; apply (run_contiguous m cur k s p tk); auto; lia].
  simpl. destruct (mapM _ (seqZ (cur + tk) (rem - tk))); simpl; [|done]. by rewrite app_assoc.
Qed.

(** C15: [read_bytes] is the byte-by-byte translation through the segment map:
    it returns the bytes when every address of the range is mapped and
    [EFAULT] otherwise, also across segment boundaries, and always returns. *)
Theorem read_bytes_spec s addr ln :
  mappings_wf (mappings (inner s)) → backed (mappings (inner s)) → 0 ≤ ln →
  can_reserve ln = true →
  read_bytes can_reserve s addr ln =
  match mapM (peek (mappings (inner s)) (kmem s)) (seqZ addr ln) with
  | Some bs => Ok bs
  | None => Err EFAULT
  end.
Proof.
  intros Hwf Hb Hln Hres. unfold read_bytes. destruct (Z.eqb_spec ln 0) as [->|]; [done|].
  rewrite Hres. apply (read_loop_spec _ _ _ _ _ []); [done|done|done|lia].
Qed.

(** One user byte after another, stopping at the first unmapped one. *)
Fixpoint poke (m : gmap Z Segment) (mem : gmap Z Z) (a : Z) (bs : list Z) : outcome unit * gmap Z Z :=
  match bs with
  | [] => (Ok tt, mem)
  | b :: bs' =>
      match addr_ptr m a with
      | Some p => poke m (<[p := b]> mem) (a + 1) bs'
      | None => (Err EFAULT, mem)
      end
  end.

Lemma poke_run m mem a p bs bs' :
  (∀ j, 0 ≤ j < Z.of_nat (length bs) → addr_ptr m (a + j) = Some (p + j)) →
  poke m mem a (bs ++ bs') = poke m (write_mem mem p bs) (a + Z.of_nat (length bs)) bs'.
Proof.
  revert mem a p; induction bs as [|b bs IH]; intros mem a p Hrun.
  { simpl. by rewrite Z.add_0_r. }
  cbn [app poke write_mem]. specialize (Hrun 0) as H0. rewrite !Z.add_0_r in H0.
  cbn [length] in *. rewrite H0 by lia. rewrite IH with (p := p + 1).
  - f_equal. lia.
  - intros j Hj. replace (a + 1 + j) with (a + (1 + j)) by lia. rewrite Hrun by lia. f_equal. lia.
Qed.

Lemma write_loop_spec fuel cursor bs s :
  mappings_wf (mappings (inner s)) → backed (mappings (inner s)) → (length bs < fuel)%nat →
  let '(o, mem) := poke (mappings (inner s)) (kmem s) cursor bs in
  write_loop fuel cursor bs s = (o, with_kmem s mem).
Proof.
  revert cursor bs s; induction fuel as [|fuel IH]; intros cur bs s Hwf Hb Hf; [lia|].
  cbn [write_loop]. destruct bs as [|b bs]; [by destruct s|].
  set (bs0 := b :: bs) in *. set (m := mappings (inner s)) in *.
  stm_step. stm_step. fold m.
  destruct (covers_dec m cur Hwf) as [(k & sg & Hc)|Hn]; cycle 1.
  { rewrite find_segment_none by done. simpl.
    assert (addr_ptr m cur = None) as -> by (unfold addr_ptr; by rewrite find_segment_none).
    by destruct s. }
  rewrite (find_segment_covers m cur k sg) by done.
  pose proof Hc as [Hk ?]. pose proof Hwf as [Hok _]. destruct (Hok _ _ Hk) as (_ & ? & ? & ?).
  unfold saturating_sub. rewrite (Z.max_l (seg_len sg - (cur - k))) by lia.
  set (tk := Z.min (seg_len sg - (cur - k)) (Z.of_nat (length bs0))).
  assert (0 < tk ≤ Z.of_nat (length bs0)) by (unfold bs0 in *; simpl in *; lia).
  destruct (Hb k sg Hk) as [Hall Hhost]. destruct (Hall (cur - k)) as [p Hp]; [lia|].
  stm_step.
  replace (match storage sg with Host _ hlen => _ | _ => _ end s) with ((Ok tt, s) : outcome unit * space).
  2: { destruct (storage sg) as [| |ptr hl]; [done..|]. subst hl. stm_step.
       rewrite uadd_ok by lia. rewrite (proj2 (Z.ltb_ge _ _)) by lia. done. }
  stm_step. rewrite Hp. stm_step. stm_step.
  assert (checked_add cur tk = Some (cur + tk)) as -> by (apply checked_add_Some; lia).
  cbn [ok_or].
  assert (length (take (Z.to_nat tk) bs0) = Z.to_nat tk) as Htk by (rewrite length_take; lia).
  specialize (IH (cur + tk) (drop (Z.to_nat tk) bs0)
    (with_kmem s (write_mem (kmem s) p (take (Z.to_nat tk) bs0))) Hwf Hb).
  assert (poke m (kmem s) cur bs0 = poke m (write_mem (kmem s) p (take (Z.to_nat tk) bs0))
            (cur + tk) (drop (Z.to_nat tk) bs0)) as ->.
  { pose proof (poke_run m (kmem s) cur p (take (Z.to_nat tk) bs0) (drop (Z.to_nat tk) bs0)) as Hr.
    rewrite take_drop, Htk, Z2Nat.id in Hr by lia. apply Hr.
    intros j Hj. apply (run_contiguous m cur k sg p tk); auto; lia. }
  apply IH. rewrite length_drop. lia.
Qed.

(** C16: [write_bytes] stores the bytes one user address after another through
    the segment map, across segment boundaries: it succeeds when the whole
    range is mapped, and otherwise returns [EFAULT] with exactly the prefix
    below the first unmapped address written. *)
Theorem write_bytes_spec s addr bs :
  mappings_wf (mappings (inner s)) → backed (mappings (inner s)) →
  let '(o, mem) := poke (mappings (inner s)) (kmem s) addr bs in
  write_bytes addr bs s = (o, with_kmem s mem).
Proof.
  intros Hwf Hb. unfold write_bytes. destruct bs as [|b bs]; [by destruct s|].
  apply write_loop_spec; [done|done|]. lia.
Qed.

Lemma poke_lookup m mem a bs mem' q :
  poke m mem a bs = (Ok tt, mem') →
  (∀ j, 0 ≤ j < Z.of_nat (length bs) → addr_ptr m (a + j) ≠ Some q) → mem' !! q = mem !! q.
Proof.
  revert mem a; induction bs as [|b bs IH]; intros mem a; cbn [poke]; [congruence|].
  destruct (addr_ptr m a) as [p|] eqn:Hp; [|done]. intros Hpk Hne.
  rewrite (IH _ _ Hpk).
  - apply lookup_insert_ne. intros ->. apply (Hne 0); [simpl; lia|]. by rewrite Z.add_0_r.
  - intros j Hj. replace (a + 1 + j) with (a + (1 + j)) by lia. apply Hne. simpl; lia.
Qed.

(** Distinct addresses of the range have distinct kernel bytes. *)
Definition unaliased (m : gmap Z Segment) (a n : Z) : Prop :=
  ∀ i j, 0 ≤ i < n → 0 ≤ j < n → i ≠ j → addr_ptr m (a + i) ≠ addr_ptr m (a + j).

Lemma poke_peek m mem a bs mem' :
  poke m mem a bs = (Ok tt, mem') → unaliased m a (Z.of_nat (length bs)) →
  mapM (peek m mem') (seqZ a (Z.of_nat (length bs))) = Some bs.
Proof.
  revert mem a; induction bs as [|b bs IH]; intros mem a Hpk Hun; [done|].
  cbn [poke] in Hpk. destruct (addr_ptr m a) as [p|] eqn:Hp; [|done].
  rewrite seqZ_cons by (simpl; lia).
  replace (Z.succ a) with (a + 1) by lia.
  replace (Z.pred (Z.of_nat (length (b :: bs)))) with (Z.of_nat (length bs)) by (simpl; lia).
  assert (peek m mem' a = Some b) as Hb.
  { unfold peek. rewrite Hp. simpl. rewrite (poke_lookup _ _ _ _ _ p Hpk).
    - by rewrite lookup_insert_eq.
    - intros j Hj. rewrite <- Hp. replace (a + 1 + j) with (a + (1 + j)) by lia.
      rewrite <- (Z.add_0_r a) at 2. apply Hun; simpl; lia. }
  cbn [mapM]. rewrite Hb. cbn [mbind option_bind].
  rewrite (IH _ _ Hpk); [done|].
  intros i j Hi Hj Hne. replace (a + 1 + i) with (a + (1 + i)) by lia.
  replace (a + 1 + j) with (a + (1 + j)) by lia. apply Hun; simpl; lia.
Qed.

(** what [write_bytes] stored, [read_bytes] returns, over any range of
    mapped addresses that do not share kernel bytes. *)
Theorem write_read_roundtrip s addr bs s' :
  mappings_wf (mappings (inner s)) → backed (mappings (inner s)) →
  unaliased (mappings (inner s)) addr (Z.of_nat (length bs)) →
  can_reserve (Z.of_nat (length bs)) = true →
  write_bytes addr bs s = (Ok tt, s') →
  read_bytes can_reserve s' addr (Z.of_nat (length bs)) = Ok bs.
Proof.
  intros Hwf Hb Hun Hres Hw.
  pose proof (write_loop_spec (S (length bs)) addr bs s Hwf Hb ltac:(lia)) as Hl.
  assert (write_bytes addr bs s = write_loop (S (length bs)) addr bs s) as Heq by (by destruct bs).
  destruct (poke _ _ addr bs) as [o mem] eqn:Hpk. rewrite Heq, Hl in Hw. simplify_eq.
  unfold read_bytes. destruct (Z.eqb_spec (Z.of_nat (length bs)) 0) as [H0|H0].
  { destruct bs; [done|simpl in H0; lia]. }
  rewrite Hres, read_loop_spec; [|done|done|lia|lia].
  cbn [with_kmem inner kmem]. by rewrite (poke_peek _ _ _ _ _ Hpk).
Qed.

End ByteAccess.

Lemma sample_host_backed : @backed sample_hal (mappings (inner sample_host_space)).
Proof.
  intros k s Hk. change (({[0x10000 := sample_host_seg]} : gmap Z Segment) !! k = Some s) in Hk.
  apply lookup_singleton_Some in Hk as [<- <-]. split; [|done].
  intros i Hi. exists (0x10000 + i). unfold storage_ptr. simpl.
  apply uadd_ok. unfold seg_len in Hi. simpl in Hi. unfold USIZE_MAX. lia.
Qed.

Lemma read_bytes_spec_witness :
  @read_bytes sample_hal (fun _ => true) sample_host_space 0x12ffe 3 = Err EFAULT.
Proof.
  rewrite (@read_bytes_spec sample_hal (fun _ => true) sample_host_space 0x12ffe 3).
  - by vm_compute.
  - apply sample_host_wf.
  - apply sample_host_backed.
  - done.
  - done.
Defined.

Lemma write_bytes_spec_witness :
  ∃ mem, @write_bytes sample_hal 0x12ffe [1; 2; 3] sample_host_space =
    (Err EFAULT, with_kmem sample_host_space mem) ∧ mem !! 0x12fff = Some 2.
Proof.
  pose proof (@write_bytes_spec sample_hal sample_host_space 0x12ffe [1; 2; 3]
    sample_host_wf sample_host_backed) as Hw.
  destruct (poke _ _ _ _) as [o mem] eqn:Hp in Hw. vm_compute in Hp. injection Hp as <- <-.
  eexists. split; [exact Hw|]. by vm_compute.
Defined.

Lemma sample_unaliased : @unaliased sample_hal (mappings (inner sample_host_space)) 0x11000 3.
Proof.
  intros i j Hi Hj Hne. assert (i = 0 ∨ i = 1 ∨ i = 2) as Hi' by lia.
  assert (j = 0 ∨ j = 1 ∨ j = 2) as Hj' by lia.
  destruct Hi' as [->|[->| ->]], Hj' as [->|[->| ->]]; try (exfalso; lia);
    vm_compute; discriminate.
Qed.

Lemma write_read_roundtrip_witness :
  @read_bytes sample_hal (fun _ => true) (@write_bytes sample_hal 0x11000 [7; 8; 9] sample_host_space).2 0x11000 3
  = Ok [7; 8; 9].
Proof.
  apply (@write_read_roundtrip sample_hal (fun _ => true) sample_host_space 0x11000 [7; 8; 9]).
  - apply sample_host_wf.
  - apply sample_host_backed.
  - apply sample_unaliased.
  - done.
  - by vm_compute.
Defined.

(** ** Cloning for fork *)
Section Clone.
Context `{HalMemory}.

Definition clone_seg (s : Segment) : Segment :=
  mkSegment (area s) match storage s with
                     | Host ptr hlen => Owned ptr (round_up hlen PAGE_SIZE / PAGE_SIZE)
                     | sto => sto
                     end.

(** Host segments have a length that can be rounded to pages. *)
Definition host_lens_ok (m : gmap Z Segment) : Prop :=
  ∀ k s ptr hlen, m !! k = Some s → storage s = Host ptr hlen →
    0 ≤ hlen ∧ hlen + PAGE_SIZE ≤ USIZE_MAX.

Lemma clone_storage_ok k s m :
  host_lens_ok m → m !! k = Some s → clone_storage (storage s) = Ok (storage (clone_seg s)).
Proof.
  intros Hh Hk. unfold clone_storage, clone_seg. simpl. destruct (storage s) eqn:Hs; [done..|].
  destruct (Hh _ _ _ _ Hk Hs). by rewrite align_up_page.
Qed.

Lemma clone_fold m (acc : gmap Z Segment) l :
  host_lens_ok m → (∀ k s, (k, s) ∈ l → m !! k = Some s) →
  foldM (fun (m : gmap Z Segment) '(st, seg) =>
        sto ← clone_storage (storage seg);
        Ok (<[st := mkSegment (area seg) sto]> m)) acc l
  = Ok (foldl (fun (m : gmap Z Segment) '(st, seg) => <[st := clone_seg seg]> m) acc l).
Proof.
  intros Hh. revert acc; induction l as [|[k s] l IH]; intros acc Hl; [done|].
  cbn [foldM foldl]. rewrite (clone_storage_ok k s m); [|done|by apply Hl; left]. simpl.
  apply IH. intros k' s' Hin. apply Hl. by right.
Qed.

Lemma foldl_insert_lookup (l : list (Z * Segment)) (acc : gmap Z Segment) k :
  NoDup l.*1 →
  foldl (fun (m : gmap Z Segment) '(st, seg) => <[st := clone_seg seg]> m) acc l !! k =
  match find_first (fun '(k', _) => k' =? k) l with
  | Some (_, s) => Some (clone_seg s)
  | None => acc !! k
  end.
Proof.
  revert acc; induction l as [|[k' s] l IH]; intros acc; cbn [fmap list_fmap]; [done|].
  intros [Hnin Hnd]%NoDup_cons. cbn [foldl find_first]. rewrite IH by done.
  destruct (Z.eqb_spec k' k) as [<-|Hne].
  - destruct (find_first _ l) as [[k0 s0]|] eqn:Hf; [|apply lookup_insert_eq].
    apply find_first_Some in Hf as [Hin Heq]. reflect_bools. subst.
    exfalso. apply Hnin. by apply (list_elem_of_fmap_2 fst l (k', s0)).
  - destruct (find_first _ l) as [[k0 s0]|]; [done|]. by rewrite lookup_insert_ne.
Qed.

Lemma clone_mappings m :
  host_lens_ok m →
  foldM (fun (m : gmap Z Segment) '(st, seg) =>
        sto ← clone_storage (storage seg);
        Ok (<[st := mkSegment (area seg) sto]> m)) ∅ (items m) = Ok (clone_seg <$> m).
Proof.
  intros Hh. rewrite (clone_fold m) by (done || (intros ? ?; apply elem_of_items)).
  f_equal. apply map_eq. intros k.
  rewrite foldl_insert_lookup by (rewrite items_fst; apply NoDup_keys_by).
  rewrite lookup_fmap, lookup_empty.
  destruct (find_first _ (items m)) as [[k' s]|] eqn:Hf.
  - apply find_first_Some in Hf as [Hin Heq]. reflect_bools. subst.
    apply elem_of_items in Hin. by rewrite Hin.
  - destruct (m !! k) as [s|] eqn:Hk; [|done]. exfalso.
    rewrite find_first_None in Hf. specialize (Hf (k, s)). rewrite elem_of_items, Z.eqb_refl in Hf.
    by specialize (Hf Hk).
Qed.

Lemma clone_wf m : mappings_wf m → mappings_wf (clone_seg <$> m).
Proof.
  intros [Hok Hd]. split.
  - intros k s. rewrite lookup_fmap. intros (s0 & Hk & ->)%fmap_Some. apply (Hok _ _ Hk).
  - intros k1 s1 k2 s2. rewrite !lookup_fmap.
    intros (t1 & H1 & ->)%fmap_Some (t2 & H2 & ->)%fmap_Some. apply (Hd _ _ _ _ H1 H2).
Qed.

Lemma clone_find m a :
  mappings_wf m →
  find_segment (clone_seg <$> m) a 1 =
  match find_segment m a 1 with Ok (s, off) => Ok (clone_seg s, off) | _ => Err EFAULT end.
Proof.
  intros Hwf. destruct (covers_dec m a Hwf) as [(k & s & Hc)|Hn].
  - rewrite (find_segment_covers m a k s) by done.
    apply find_segment_covers; [by apply clone_wf|]. destruct Hc as [Hk ?].
    split; [|done]. by rewrite lookup_fmap, Hk.
  - rewrite (find_segment_none m) by done. apply find_segment_none; [by apply clone_wf|].
    intros k s [Hk ?]. rewrite lookup_fmap in Hk. apply fmap_Some in Hk as (s0 & Hk & ->).
    by eapply Hn; split.
Qed.

(** C27: the address space [fork] gives the child has the parent's mapped
    addresses, protections, program break and mapping base, and behind every
    address that is not host memory the {e same} kernel byte as the parent:
    frames are shared and not copied. Behind host memory the child has owned
    frames numbered from the pointer of the parent's memory. *)
Theorem clone_private_spec i fa :
  mappings_wf (mappings i) → host_lens_ok (mappings i) →
  from_regions memory_regions = Ok fa →
  ∃ c, clone_private i = Ok c ∧ mappings_wf (mappings c) ∧
    (∀ a, addr_prot (mappings c) a = addr_prot (mappings i) a) ∧
    program_break c = program_break i ∧ next_mapping_base c = next_mapping_base i ∧
    frame_allocator c = fa ∧ dirty c = true ∧
    (∀ a s off, find_segment (mappings i) a 1 = Ok (s, off) →
       (∀ ptr hlen, storage s ≠ Host ptr hlen) →
       addr_ptr (mappings c) a = addr_ptr (mappings i) a) ∧
    (∀ a s off ptr hlen, find_segment (mappings i) a 1 = Ok (s, off) → storage s = Host ptr hlen →
       find_segment (mappings c) a 1 = Ok (mkSegment (area s) (Owned ptr (round_up hlen PAGE_SIZE / PAGE_SIZE)), off)).
Proof.
  intros Hwf Hh Hfa. unfold clone_private. rewrite clone_mappings by done. simpl. rewrite Hfa. simpl.
  eexists. split; [done|]. simpl. split_and!; try done.
  - by apply clone_wf.
  - intros a. unfold addr_prot. rewrite clone_find by done.
    by destruct (find_segment (mappings i) a 1) as [[s off]| | |].
  - intros a s off Hf Hno. unfold addr_ptr. rewrite clone_find, Hf by done.
    unfold storage_ptr, clone_seg. simpl. destruct (storage s); [done..|]. by edestruct Hno.
  - intros a s off ptr hlen Hf Hs. rewrite clone_find, Hf by done. unfold clone_seg. by rewrite Hs.
Qed.

(** every address space starts its own allocator at the same frame: the
    first frame a new process or a forked child allocates is the first frame
    of the usable region, whatever other address spaces already hold. *)
Theorem spaces_share_frames i i1 i2 :
  clone_private i = Ok i1 → new_user = Ok i2 →
  frame_allocator i1 = frame_allocator i2 ∧
  alloc_page (frame_allocator i1) = alloc_page (frame_allocator i2) ∧
  fa_next (frame_allocator i1) = fa_start (frame_allocator i1).
Proof.
  unfold clone_private, new_user, from_regions. intros H1 H2. inv_bind. done.
Qed.

End Clone.

(** Two pages of owned frames at 0x10000. *)
Definition sample_owned_seg : Segment :=
  mkSegment (mkArea 0x10000 0x2000 3) (Owned 0x80000000 2).
Definition sample_owned_space : space :=
  with_inner sample_space (with_mappings (inner sample_space) {[0x10000 := sample_owned_seg]}).

Lemma clone_private_spec_witness :
  ∃ c, @clone_private sample_hal (inner sample_owned_space) = Ok c ∧
    @addr_ptr sample_hal (mappings c) 0x11005 =
    @addr_ptr sample_hal (mappings (inner sample_owned_space)) 0x11005.
Proof.
  destruct (@clone_private_spec sample_hal (inner sample_owned_space) (mkFA 0x80000000 0x90000000 0x80000000))
    as (c & Hc & _ & _ & _ & _ & _ & _ & Hp & _).
  - apply (mappings_wf_singleton sample_owned_seg). unfold seg_ok. split_and!; by vm_compute.
  - intros k s ptr hlen Hk Hs.
    change (({[0x10000 := sample_owned_seg]} : gmap Z Segment) !! k = Some s) in Hk.
    apply lookup_singleton_Some in Hk as [<- <-]. done.
  - done.
  - exists c. split; [done|]. apply (Hp 0x11005 sample_owned_seg 0x1005); [by vm_compute|done].
Defined.

Lemma spaces_share_frames_witness :
  ∃ c, @clone_private sample_hal (inner sample_space) = Ok c ∧
    alloc_page (frame_allocator c) = Some (0x80000000, mkFA 0x80000000 0x90000000 0x80001000).
Proof.
  destruct (@clone_private sample_hal (inner sample_space)) as [c| | |] eqn:Hc; try by vm_compute in Hc.
  exists c. split; [done|].
  destruct (@spaces_share_frames sample_hal (inner sample_space) c (inner sample_space)) as (_ & -> & _).
  - done.
  - done.
  - by vm_compute.
Defined.

(** ** Splitting owned memory *)

(** unmapping the first page of owned memory moves the remaining pages
    onto the start of the frames: the byte at [a] of the rest, once backed by
    the frame byte at its own offset, is afterwards backed by the one a page
    before. *)
Theorem unmap_head_shifts_owned `{HalMemory} s k len0 pr pb n a :
  mappings (inner s) = {[k := mkSegment (mkArea k len0 pr) (Owned pb n)]} →
  0 ≤ k → (PAGE_SIZE | k) → PAGE_SIZE < len0 → k + len0 ≤ USIZE_MAX →
  0 ≤ phys_to_virt pb → phys_to_virt pb + len0 ≤ USIZE_MAX →
  k + PAGE_SIZE ≤ a < k + len0 →
  addr_ptr (mappings (inner s)) a = Some (phys_to_virt pb + (a - k)) ∧
  ∃ s', unmap k PAGE_SIZE s = (Ok tt, s') ∧
    addr_ptr (mappings (inner s')) a = Some (phys_to_virt pb + (a - k) - PAGE_SIZE).
Proof.
  intros Hm Hk Hdiv Hlen Htop Hv Hvt Ha. assert (0 < PAGE_SIZE) by done. set (seg := mkSegment _ _) in Hm.
  assert (mappings_wf (mappings (inner s))) as Hwf.
  { rewrite Hm. apply (mappings_wf_singleton seg). unfold seg_ok, seg_start, seg_len, PAGE_SIZE in *. simpl. lia. }
  pose proof (proj1 (page_offset_aligned k) Hdiv) as Hk0.
  assert (page_offset_of (k + PAGE_SIZE) = 0) as Hk1.
  { apply page_offset_aligned. apply Z.divide_add_r; [done|]. apply Z.divide_refl. }
  split.
  - unfold addr_ptr. rewrite (find_segment_covers _ a k seg); [|done|].
    + unfold seg. rewrite owned_ptr by lia. f_equal. lia.
    + rewrite Hm. split; [apply lookup_singleton_eq|]. unfold seg_len. simpl. unfold PAGE_SIZE in *. lia.
  - assert (round_up PAGE_SIZE PAGE_SIZE = PAGE_SIZE) as Hr by done.
    destruct (unmap_range_inner_spec (inner s) k PAGE_SIZE) as (m & d & Hu & Hmm & Hwf' & _);
      [done|done|done|unfold PAGE_SIZE in *; lia|].
    eexists. split.
    + unfold unmap. rewrite (proj2 (Z.eqb_neq PAGE_SIZE 0)) by done. stm_step.
      rewrite align_up_page, Hr by (unfold PAGE_SIZE in *; done || lia).
      stm_step. stm_step. rewrite Hu. done.
    + simpl. unfold addr_ptr.
      rewrite (find_segment_covers m a (k + PAGE_SIZE) (slice seg (k + PAGE_SIZE) (len0 - PAGE_SIZE) pr)).
      * unfold slice, slice_storage. simpl. rewrite owned_ptr; [f_equal; unfold PAGE_SIZE in *; lia|lia|lia].
      * done.
      * split; [|unfold seg_len; simpl; lia]. subst m.
        apply (resplit_keys (unmap_pieces k (k + PAGE_SIZE)));
          [intros; eapply unmap_pieces_ok; [unfold PAGE_SIZE; lia|done]|done|].
        exists k, seg. rewrite Hm. split_and!; [apply lookup_singleton_eq| |done].
        unfold unmap_pieces, seg_end, seg_start, seg_len. simpl.
        rewrite (proj2 (Z.leb_gt _ _)), (proj2 (Z.leb_gt _ k)) by (unfold PAGE_SIZE in *; lia). simpl.
        rewrite (proj2 (Z.ltb_ge _ _)), (proj2 (Z.ltb_lt _ _)) by lia. simpl.
        apply list_elem_of_singleton.
        by replace (k + len0 - (k + PAGE_SIZE)) with (len0 - PAGE_SIZE) by lia.
Qed.

Lemma unmap_head_shifts_owned_witness :
  ∃ s', @unmap 0x10000 PAGE_SIZE sample_owned_space = (Ok tt, s') ∧
    @addr_ptr sample_hal (mappings (inner s')) 0x11005 = Some (@phys_to_virt sample_hal 0x80000000 + 5).
Proof.
  destruct (@unmap_head_shifts_owned sample_hal sample_owned_space 0x10000 0x2000 3 0x80000000 2 0x11005)
    as [_ (s' & Hu & Hp)].
  - done.
  - done.
  - by exists 16.
  - done.
  - done.
  - done.
  - done.
  - by unfold PAGE_SIZE.
  - exists s'. rewrite Hp. split; [done|]. by vm_compute.
Defined.

End Mm.
