(* ===== verification/PageTable.v ===== *)
(** * Hardware page tables (crates/mm/src/lib.rs, middle part)

    The Sv39 and LoongArch page-table builders and the rebuild that runs when
    an address space is activated.  A table page is a map from entry index to
    entry, zero where never written; the builder's pages are filed under their
    address.  [fresh] stands for the kernel heap: the address of the next
    [Box<PageTablePage>].  A reference to a page the builder does not own is
    undefined behaviour of the source and is [Panic] here. *)

From S2P Require Import Prelude AddrSpace.

Module Pt.
Import Mm.

Definition RISCV_PTE_V : Z := 1.
Definition RISCV_PTE_R : Z := 2.
Definition RISCV_PTE_W : Z := 4.
Definition RISCV_PTE_X : Z := 8.
Definition RISCV_PTE_U : Z := 16.
Definition RISCV_PTE_A : Z := 64.
Definition RISCV_PTE_D : Z := 128.

Definition LA_PTE_V : Z := 1.
Definition LA_PTE_D : Z := 2.
Definition LA_PTE_PLVL : Z := 4.
Definition LA_PTE_PLVH : Z := 8.
Definition LA_PTE_MATL : Z := 16.
Definition LA_PTE_MATH : Z := 32.
Definition LA_PTE_GH : Z := 64.
Definition LA_PTE_P : Z := 128.
Definition LA_PTE_W : Z := 256.
Definition LA_PTE_NR : Z := 2 ^ 61.
Definition LA_PTE_NX : Z := 2 ^ 62.
Definition LA_PTE_ADDR_MASK : Z := 0x0000fffffffff000.

Definition RISCV_MMIO_BASE : Z := 0x02000000.
Definition RISCV_MMIO_SIZE : Z := 0x1e000000.
Definition LOONGARCH_MMIO_BASE : Z := 0x10000000.
Definition LOONGARCH_MMIO_SIZE : Z := 0x10000000.
Definition LOONGARCH_PHYS_BASE : Z := 0x90000000.
Definition LOONGARCH_PHYS_SIZE : Z := 512 * 1024 * 1024.

(** ** Page-table entries *)
Definition riscv_make_leaf_pte (paddr flags : Z) : Z :=
  Z.lor (Z.lor (Z.shiftl (Z.shiftr paddr 12) 10) flags) RISCV_PTE_V.
Definition riscv_make_table_pte (paddr : Z) : Z :=
  Z.lor (Z.shiftl (Z.shiftr paddr 12) 10) RISCV_PTE_V.

Definition prot_bit (prot bit : Z) : bool := negb (Z.land prot bit =? 0).

Definition riscv_segment_pte_flags (prot : Z) : Z :=
  let flags := Z.lor RISCV_PTE_U (Z.lor RISCV_PTE_A RISCV_PTE_D) in
  let read := prot_bit prot 1 in
  let write := prot_bit prot 2 in
  let exec := prot_bit prot 4 in
  let read := if exec then true else read in
  let flags := if read then Z.lor flags RISCV_PTE_R else flags in
  let flags := if write then Z.lor flags RISCV_PTE_W else flags in
  let flags := if exec then Z.lor flags RISCV_PTE_X else flags in
  if Z.land flags (Z.lor RISCV_PTE_R (Z.lor RISCV_PTE_W RISCV_PTE_X)) =? 0
  then Z.lor flags (Z.lor RISCV_PTE_R RISCV_PTE_W) else flags.

Definition loong_make_leaf_pte (paddr flags : Z) : Z := Z.lor (Z.land paddr LA_PTE_ADDR_MASK) flags.
Definition loong_make_table_pte (paddr : Z) : Z := Z.land paddr LA_PTE_ADDR_MASK.

Definition loong_pte_flags (read write exec user device : bool) : Z :=
  let flags := Z.lor LA_PTE_V LA_PTE_P in
  let flags := if negb read then Z.lor flags LA_PTE_NR else flags in
  let flags := if write then Z.lor flags (Z.lor LA_PTE_W LA_PTE_D) else flags in
  let flags := if negb exec then Z.lor flags LA_PTE_NX else flags in
  let flags := if user then Z.lor flags (Z.lor LA_PTE_PLVL LA_PTE_PLVH) else flags in
  if device then Z.lor flags LA_PTE_MATH else Z.lor flags LA_PTE_MATL.

Definition loong_kernel_pte_flags (read write exec device : bool) : Z :=
  loong_pte_flags read write exec false device.

Definition loong_segment_pte_flags (prot : Z) : Z :=
  let read := prot_bit prot 1 in
  let write := prot_bit prot 2 in
  let exec := prot_bit prot 4 in
  let read := if write || exec then true else read in
  let read := if negb read && negb write && negb exec then true else read in
  loong_pte_flags read write exec true false.

Definition segment_phys_base (s : Segment) : option Z :=
  let page_offset := page_offset_of (start (area s)) in
  match storage s with
  | Owned pb _ => Some pb
  | Shared _ _ ptr => Some (saturating_sub ptr page_offset)
  | Host ptr _ =>
      if page_offset_of ptr =? page_offset then Some (saturating_sub ptr page_offset) else None
  end.

(** ** Table pages *)
Abbreviation tables := (gmap Z (gmap Z Z)).

Definition entry (t : gmap Z Z) (i : Z) : Z := default 0 (t !! i).

Definition table (ts : tables) (phys : Z) : outcome (gmap Z Z) := unwrap (ts !! phys).

Definition set_entry (ts : tables) (phys index pte : Z) : outcome tables :=
  t ← table ts phys;
  Ok (<[phys := <[index := pte]> t]> ts).

(** Index of a table level in an address. *)
Definition vpn (vaddr shift : Z) : Z := Z.land (Z.shiftr vaddr shift) 0x1ff.

Definition misaligned (vaddr paddr size : Z) : bool :=
  negb (Z.land (Z.lor vaddr paddr) (size - 1) =? 0).

Section Builders.
Context (fresh : tables → Z).

(** [Box::new(PageTablePage::new())], pushed to the pages. *)
Definition new_page (ts : tables) : Z * tables := (fresh ts, <[fresh ts := ∅]> ts).

(** A builder is its root and its pages. *)
Definition builder_new : PageTableSpace :=
  let '(root, ts) := new_page ∅ in mkPTS root ts.

(** ** Sv39 *)
Definition sv39_ensure_next_table (ts : tables) (table_phys index : Z) : outcome (Z * tables) :=
  t ← table ts table_phys;
  let existing := entry t index in
  if negb (Z.land existing RISCV_PTE_V =? 0) &&
     (Z.land existing (Z.lor RISCV_PTE_R (Z.lor RISCV_PTE_W RISCV_PTE_X)) =? 0)
  then Ok (Z.shiftl (Z.shiftr existing 10) 12, ts)
  else if negb (Z.land existing RISCV_PTE_V =? 0) then Ok (0, ts)
  else
    let '(next_phys, ts) := new_page ts in
    ts ← set_entry ts table_phys index (riscv_make_table_pte next_phys);
    Ok (next_phys, ts).

Definition sv39_map_2m (b : PageTableSpace) (vaddr paddr flags : Z) : outcome PageTableSpace :=
  if misaligned vaddr paddr (2 ^ 21) then Ok b
  else
    let vpn2 := vpn vaddr 30 in
    let vpn1 := vpn vaddr 21 in
    '(l1_phys, ts) ← sv39_ensure_next_table (pts_tables b) (pts_root_phys b) vpn2;
    ts ← set_entry ts l1_phys vpn1 (riscv_make_leaf_pte paddr flags);
    Ok (mkPTS (pts_root_phys b) ts).

Definition sv39_map_4k (b : PageTableSpace) (vaddr paddr flags : Z) : outcome PageTableSpace :=
  if misaligned vaddr paddr PAGE_SIZE then Ok b
  else
    let vpn2 := vpn vaddr 30 in
    let vpn1 := vpn vaddr 21 in
    let vpn0 := vpn vaddr 12 in
    '(l1_phys, ts) ← sv39_ensure_next_table (pts_tables b) (pts_root_phys b) vpn2;
    if l1_phys =? 0 then Ok (mkPTS (pts_root_phys b) ts)
    else
      '(l0_phys, ts) ← sv39_ensure_next_table ts l1_phys vpn1;
      if l0_phys =? 0 then Ok (mkPTS (pts_root_phys b) ts)
      else
        ts ← set_entry ts l0_phys vpn0 (riscv_make_leaf_pte paddr flags);
        Ok (mkPTS (pts_root_phys b) ts).

(** ** LoongArch *)
Definition loong_ensure_next_table (ts : tables) (table_phys index : Z) : outcome (Z * tables) :=
  t ← table ts table_phys;
  let existing := entry t index in
  if existing =? 0 then
    let '(next_phys, ts) := new_page ts in
    ts ← set_entry ts table_phys index (loong_make_table_pte next_phys);
    Ok (next_phys, ts)
  else if negb (Z.land existing (Z.lor LA_PTE_P LA_PTE_V) =? 0) then Ok (0, ts)
  else Ok (Z.land existing (unot (PAGE_SIZE - 1)), ts).

Definition loong_map_2m (b : PageTableSpace) (vaddr paddr flags : Z) : outcome PageTableSpace :=
  if misaligned vaddr paddr (2 ^ 21) then Ok b
  else
    let dir3 := vpn vaddr 39 in
    let dir2 := vpn vaddr 30 in
    let dir1 := vpn vaddr 21 in
    '(l2_phys, ts) ← loong_ensure_next_table (pts_tables b) (pts_root_phys b) dir3;
    if l2_phys =? 0 then Ok (mkPTS (pts_root_phys b) ts)
    else
      '(l1_phys, ts) ← loong_ensure_next_table ts l2_phys dir2;
      if l1_phys =? 0 then Ok (mkPTS (pts_root_phys b) ts)
      else
        ts ← set_entry ts l1_phys dir1 (loong_make_leaf_pte paddr (Z.lor flags LA_PTE_GH));
        Ok (mkPTS (pts_root_phys b) ts).

Definition loong_map_4k (b : PageTableSpace) (vaddr paddr flags : Z) : outcome PageTableSpace :=
  if misaligned vaddr paddr PAGE_SIZE then Ok b
  else
    let dir3 := vpn vaddr 39 in
    let dir2 := vpn vaddr 30 in
    let dir1 := vpn vaddr 21 in
    let pt := vpn vaddr 12 in
    '(l2_phys, ts) ← loong_ensure_next_table (pts_tables b) (pts_root_phys b) dir3;
    if l2_phys =? 0 then Ok (mkPTS (pts_root_phys b) ts)
    else
      '(l1_phys, ts) ← loong_ensure_next_table ts l2_phys dir2;
      if l1_phys =? 0 then Ok (mkPTS (pts_root_phys b) ts)
      else
        '(l0_phys, ts) ← loong_ensure_next_table ts l1_phys dir1;
        if l0_phys =? 0 then Ok (mkPTS (pts_root_phys b) ts)
        else
          ts ← set_entry ts l0_phys pt (loong_make_leaf_pte paddr flags);
          Ok (mkPTS (pts_root_phys b) ts).

(** ** The loops, the same for both builders *)
Section Loops.
Context (map_2m map_4k : PageTableSpace → Z → Z → Z → outcome PageTableSpace).

Fixpoint identity_loop (fuel : nat) (b : PageTableSpace) (cursor limit flags : Z)
  : outcome PageTableSpace :=
  match fuel with
  | O => Diverge
  | S fuel' =>
      if cursor <? limit then
        b ← map_2m b cursor cursor flags;
        cursor ← uadd cursor (2 ^ 21);
        identity_loop fuel' b cursor limit flags
      else Ok b
  end.

Definition map_identity_2m (b : PageTableSpace) (st end_ flags : Z) : outcome PageTableSpace :=
  let cursor := align_down st (2 ^ 21) in
  limit ← align_up end_ (2 ^ 21);
  identity_loop (S (Z.to_nat ((limit - cursor) / 2 ^ 21))) b cursor limit flags.

Fixpoint segment_loop (fuel : nat) (b : PageTableSpace) (vaddr st end_ phys_base flags : Z)
  : outcome PageTableSpace :=
  match fuel with
  | O => Diverge
  | S fuel' =>
      if vaddr <? end_ then
        p ← uadd phys_base (vaddr - st);
        b ← map_4k b vaddr p flags;
        vaddr ← uadd vaddr PAGE_SIZE;
        segment_loop fuel' b vaddr st end_ phys_base flags
      else Ok b
  end.

(** [map_segment_pages_riscv] and [map_segment_pages_loongarch] differ in the
    identity window and the flags. *)
Definition map_segment_pages (id_lo id_hi : Z) (pte_flags : Z → Z)
    (b : PageTableSpace) (s : Segment) : outcome PageTableSpace :=
  match segment_phys_base s with
  | None => Ok b
  | Some phys_base =>
      let st := align_down (start (area s)) PAGE_SIZE in
      e ← uadd (start (area s)) (seg_len s);
      end_ ← align_up e PAGE_SIZE;
      if (id_lo <=? st) && (st <? id_hi) && (phys_base =? st) then Ok b
      else
        segment_loop (S (Z.to_nat ((end_ - st) / PAGE_SIZE))) b st st end_ phys_base
          (pte_flags (prot (area s)))
  end.
End Loops.

Definition map_segment_pages_riscv : PageTableSpace → Segment → outcome PageTableSpace :=
  map_segment_pages sv39_map_4k 0x80000000 0x100000000 riscv_segment_pte_flags.

Definition map_segment_pages_loongarch : PageTableSpace → Segment → outcome PageTableSpace :=
  map_segment_pages loong_map_4k LOONGARCH_PHYS_BASE (LOONGARCH_PHYS_BASE + LOONGARCH_PHYS_SIZE)
    loong_segment_pte_flags.

Definition with_table (i : AddressSpaceInner) (b : PageTableSpace) : AddressSpaceInner :=
  mkInner (pts_root_phys b) (mappings i) (program_break i) (next_mapping_base i) (Some b)
    (dirty i) (frame_allocator i).

Definition build_riscv_page_table (i : AddressSpaceInner) : outcome AddressSpaceInner :=
  b ← map_identity_2m sv39_map_2m builder_new 0x80000000 0x100000000
        (Z.lor RISCV_PTE_R (Z.lor RISCV_PTE_W (Z.lor RISCV_PTE_X (Z.lor RISCV_PTE_A RISCV_PTE_D))));
  b ← map_identity_2m sv39_map_2m b RISCV_MMIO_BASE (RISCV_MMIO_BASE + RISCV_MMIO_SIZE)
        (Z.lor RISCV_PTE_R (Z.lor RISCV_PTE_W (Z.lor RISCV_PTE_A RISCV_PTE_D)));
  b ← foldM map_segment_pages_riscv b (values (mappings i));
  Ok (with_table i b).

Definition build_loongarch_page_table (i : AddressSpaceInner) : outcome AddressSpaceInner :=
  b ← map_identity_2m loong_map_2m builder_new LOONGARCH_PHYS_BASE
        (LOONGARCH_PHYS_BASE + LOONGARCH_PHYS_SIZE) (loong_kernel_pte_flags true true true false);
  b ← map_identity_2m loong_map_2m b LOONGARCH_MMIO_BASE
        (LOONGARCH_MMIO_BASE + LOONGARCH_MMIO_SIZE) (loong_kernel_pte_flags true true false true);
  b ← foldM map_segment_pages_loongarch b (values (mappings i));
  Ok (with_table i b).

Inductive target_arch := Riscv64 | Loongarch64 | OtherArch.

Definition rebuild_page_table (arch : target_arch) (i : AddressSpaceInner) : outcome AddressSpaceInner :=
  match arch with
  | Riscv64 => build_riscv_page_table i
  | Loongarch64 => build_loongarch_page_table i
  | OtherArch =>
      Ok (mkInner 0 (mappings i) (program_break i) (next_mapping_base i) None (dirty i)
            (frame_allocator i))
  end.

(** [AddressSpace::token]: rebuild when dirty. *)
Definition space_token (arch : target_arch) : stm AddressSpaceInner Z :=
  i ← get;
  _ ← (if dirty i then
         i' ← lift (rebuild_page_table arch i);
         put (with_dirty i' false)
       else mret tt);
  i ← get;
  mret (token i).

End Builders.

(** ** Trees of tables

    The builders of the two architectures differ in the depth of the tree, in
    the form of the entries and in the code that finds the table below an
    entry; the shape of what they build is the same. *)
Section Tree.
Context (table_pte : Z → Z) (leaf : Z → bool) (depth leaf_from : nat) (good : Z → Prop).

(** [A] names each table by the indices that lead to it.  Tables are distinct
    and their addresses [good]; entries are table entries of the children,
    leaves or empty, with leaves from the level [leaf_from] on. *)
Record tree_rep (ts : tables) (A : gmap (list Z) Z) (root : Z) : Prop := {
  rep_root : A !! [] = Some root;
  rep_inj : ∀ p1 p2 q, A !! p1 = Some q → A !! p2 = Some q → p1 = p2;
  rep_addr : ∀ p q, A !! p = Some q → good q ∧ is_Some (ts !! q);
  rep_len : ∀ p q, A !! p = Some q → (length p ≤ depth)%nat;
  rep_prefix : ∀ p i r, A !! (p ++ [i]) = Some r → is_Some (A !! p);
  rep_entry : ∀ p q t i, A !! p = Some q → ts !! q = Some t →
    match A !! (p ++ [i]) with
    | Some r => entry t i = table_pte r
    | None => entry t i = 0 ∨ ((leaf_from ≤ length p)%nat ∧ leaf (entry t i) = true)
    end;
}.

(** The entry [i] of the table at path [p]. *)
Definition look (ts : tables) (A : gmap (list Z) Z) (p : list Z) (i : Z) : Z :=
  match A !! p with
  | Some q => entry (default ∅ (ts !! q)) i
  | None => 0
  end.
Lemma look_eq ts A p q t i : A !! p = Some q → ts !! q = Some t → look ts A p i = entry t i.
Proof. intros Hp Hq. unfold look. by rewrite Hp, Hq. Qed.

(** Writing a leaf over an entry that has no child table. *)
Lemma rep_set ts A root p q t i pte :
  tree_rep ts A root → A !! p = Some q → ts !! q = Some t → A !! (p ++ [i]) = None → (leaf_from ≤ length p)%nat →
  leaf pte = true →
  tree_rep (<[q := <[i := pte]> t]> ts) A root ∧
  ∀ p' i', look (<[q := <[i := pte]> t]> ts) A p' i' =
           if decide ((p', i') = (p, i)) then pte else look ts A p' i'.
Proof.
  intros Hr Hp Hq Hno Hne Hleaf.
  assert (∀ p' q', A !! p' = Some q' → p' ≠ p → q' ≠ q) as Hdist.
  { intros p' q' Hp' Hpp ->. apply Hpp. by apply (rep_inj _ _ _ Hr p' p q). }
  split.
  - destruct Hr as [R1 R2 R3 R4 R5 R6]. split; [done|done| |done|done|].
    + intros p' q' Hp'. destruct (R3 _ _ Hp') as (? & ?). split; [done|].
      rewrite lookup_insert_is_Some'. by right.
    + intros p' q' t' i' Hp' Ht'. destruct (decide (p' = p)) as [->|Hpp].
      * rewrite Hp in Hp'. injection Hp' as <-. rewrite lookup_insert_eq in Ht'. injection Ht' as <-.
        specialize (R6 p q t i' Hp Hq). unfold entry in *. destruct (decide (i' = i)) as [->|Hii].
        -- rewrite Hno. rewrite lookup_insert_eq. simpl. by right.
        -- by rewrite lookup_insert_ne.
      * rewrite lookup_insert_ne in Ht' by (intros ->; by eapply Hdist). by apply (R6 p' q').
  - intros p' i'. unfold look. destruct (A !! p') as [q'|] eqn:Hp'.
    + destruct (decide (p' = p)) as [->|Hpp].
      * rewrite Hp in Hp'. injection Hp' as <-. rewrite lookup_insert_eq, Hq. simpl. unfold entry.
        destruct (decide (i' = i)) as [->|Hii].
        -- rewrite decide_True, lookup_insert_eq by done. done.
        -- rewrite decide_False, lookup_insert_ne by congruence. done.
      * rewrite decide_False by congruence.
        rewrite lookup_insert_ne by (intros ->; by eapply Hdist). done.
    + rewrite decide_False; [done|]. congruence.
Qed.

(** Linking a new table below [p]. *)
Lemma rep_link ts A root p q t i n :
  tree_rep ts A root → A !! p = Some q → ts !! q = Some t → A !! (p ++ [i]) = None →
  entry t i = 0 → (length p < depth)%nat → ts !! n = None → good n →
  let ts' := <[q := <[i := table_pte n]> t]> (<[n := ∅]> ts) in
  tree_rep ts' (<[p ++ [i] := n]> A) root ∧
  ∀ p' i', look ts' (<[p ++ [i] := n]> A) p' i' =
           if decide ((p', i') = (p, i)) then table_pte n else look ts A p' i'.
Proof.
  intros Hr Hp Hq Hno He Hlen Hn Hgood ts'.
  assert (∀ p' q', A !! p' = Some q' → q' ≠ n) as Hold.
  { intros p' q' Hp' ->. destruct (rep_addr _ _ _ Hr _ _ Hp') as (_ & [? ?]). congruence. }
  assert (∀ p' q', A !! p' = Some q' → p' ≠ p → q' ≠ q) as Hdist.
  { intros p' q' Hp' Hpp ->. apply Hpp. by apply (rep_inj _ _ _ Hr p' p q). }
  assert (q ≠ n) as Hqn by (by eapply Hold).
  assert (p ≠ p ++ [i]) as Hpi.
  { intros Heq. apply (f_equal length) in Heq. rewrite length_app in Heq. simpl in Heq. lia. }
  assert (∀ j, A !! ((p ++ [i]) ++ [j]) = None) as Hnochild.
  { intros j. destruct (A !! ((p ++ [i]) ++ [j])) eqn:Hj; [|done].
    apply (rep_prefix _ _ _ Hr) in Hj as [? ?]. congruence. }
  assert (∀ q', q' ≠ q → q' ≠ n → ts' !! q' = ts !! q') as Hsame.
  { intros q' ? ?. unfold ts'. by rewrite !lookup_insert_ne by congruence. }
  split.
  - destruct Hr as [R1 R2 R3 R4 R5 R6]. split.
    + rewrite lookup_insert_ne; [done|]. by destruct p.
    + intros p1 p2 q' [[<- <-]|[? H1]]%lookup_insert_Some [[<- ?]|[? H2]]%lookup_insert_Some; try done.
      * by apply Hold in H2.
      * subst. by apply Hold in H1.
      * by apply (R2 p1 p2 q').
    + intros p' q' [[<- <-]|[? Hp']]%lookup_insert_Some.
      * split; [done|]. unfold ts'. rewrite lookup_insert_ne, lookup_insert_eq by done. eauto.
      * destruct (R3 _ _ Hp') as (? & ?). split; [done|].
        unfold ts'. rewrite !lookup_insert_is_Some'. by right; right.
    + intros p' q' [[<- <-]|[? Hp']]%lookup_insert_Some; [rewrite length_app; simpl; lia|by apply (R4 p' q')].
    + intros p' i' r Hr'. destruct (decide (p' = p ++ [i])) as [->|Hpp].
      { rewrite lookup_insert_eq. eauto. }
      rewrite lookup_insert_ne by done. apply lookup_insert_Some in Hr' as [[Heq _]|[_ Hr']].
      * apply app_inj_2 in Heq as [<- _]; [|done]. eauto.
      * by apply (R5 p' i' r).
    + intros p' q' t' i' Hp' Ht'. apply lookup_insert_Some in Hp' as [[<- <-]|[Hpp Hp']].
      * unfold ts' in Ht'. rewrite lookup_insert_ne, lookup_insert_eq in Ht' by done. injection Ht' as <-.
        rewrite lookup_insert_ne, Hnochild; [by left|].
        intros Heq. apply (f_equal length) in Heq. rewrite !length_app in Heq. simpl in Heq. lia.
      * destruct (decide (p' = p)) as [->|Hpp'].
        -- rewrite Hp in Hp'. injection Hp' as <-. unfold ts' in Ht'. rewrite lookup_insert_eq in Ht'.
           injection Ht' as <-. unfold entry. destruct (decide (i' = i)) as [->|Hii].
           ++ by rewrite !lookup_insert_eq.
           ++ rewrite !lookup_insert_ne by (congruence || (intros [_ ?]%app_inj_2; [congruence|done])).
              by apply (R6 p q t i').
        -- rewrite lookup_insert_ne by (intros [? _]%app_inj_2; [congruence|done]).
           rewrite Hsame in Ht'; [by apply (R6 p' q')|by eapply Hdist|by eapply Hold].
  - intros p' i'. unfold look. destruct (decide (p' = p ++ [i])) as [->|Hpp].
    + rewrite lookup_insert_eq, decide_False, Hno by congruence.
      unfold ts'. by rewrite lookup_insert_ne, lookup_insert_eq by done.
    + rewrite lookup_insert_ne by done. destruct (A !! p') as [q'|] eqn:Hp'.
      * destruct (decide (p' = p)) as [->|Hpp'].
        -- rewrite Hp in Hp'. injection Hp' as <-. unfold ts'. rewrite lookup_insert_eq, Hq. simpl. unfold entry.
           destruct (decide (i' = i)) as [->|]; [by rewrite lookup_insert_eq, decide_True|].
           by rewrite lookup_insert_ne, decide_False by congruence.
        -- rewrite decide_False by congruence. rewrite Hsame; [done|by eapply Hdist|by eapply Hold].
      * rewrite decide_False; [done|]. congruence.
Qed.

(** A tree of one empty table. *)
Lemma rep_empty root : good root →
  tree_rep {[ root := ∅ ]} {[ [] := root ]} root ∧ (∀ p i, look {[ root := ∅ ]} {[ [] := root ]} p i = 0) ∧
  ∀ p, is_Some (({[ [] := root ]} : gmap (list Z) Z) !! p) → p = [].
Proof.
  intros Hgood. assert (∀ p q, ({[ [] := root ]} : gmap (list Z) Z) !! p = Some q → p = [] ∧ q = root) as HA
    by (intros p q [<- <-]%lookup_singleton_Some; done).
  split_and!.
  - split.
    + apply lookup_singleton_eq.
    + by intros p1 p2 q [-> _]%HA [-> _]%HA.
    + intros p q [-> ->]%HA. split; [done|]. rewrite lookup_singleton_eq. eauto.
    + intros p q [-> _]%HA. simpl. lia.
    + intros p i r [Hp _]%HA. by destruct p.
    + intros p q t i [-> ->]%HA Ht. rewrite lookup_singleton_eq in Ht. injection Ht as <-.
      destruct (({[ [] := root ]} : gmap (list Z) Z) !! ([] ++ [i])) as [r|] eqn:Hi; [by apply HA in Hi as [? _]|by left].
  - intros p i. unfold look. destruct (({[ [] := root ]} : gmap (list Z) Z) !! p) as [q|] eqn:Hp; [|done].
    apply HA in Hp as [-> ->]. by rewrite lookup_singleton_eq.
  - intros p [q Hp]. by apply HA in Hp as [-> _].
Qed.

(** What a builder's [ensure_next_table] does with the three kinds of entries. *)
Class EnsureLaws (fresh : tables → Z) (ensure : tables → Z → Z → outcome (Z * tables)) : Prop := {
  ens_table ts q t i r : ts !! q = Some t → good r → entry t i = table_pte r → ensure ts q i = Ok (r, ts);
  ens_new ts q t i : ts !! q = Some t → entry t i = 0 →
    ensure ts q i = (let '(n, ts') := new_page fresh ts in ts'' ← set_entry ts' q i (table_pte n); Ok (n, ts''));
  ens_leaf ts q t i : ts !! q = Some t → leaf (entry t i) = true → ensure ts q i = Ok (0, ts);
  ens_fresh ts : ts !! fresh ts = None;
  ens_table_leaf q : good q → leaf (table_pte q) = false;
  ens_zero_leaf : leaf 0 = false;
  ens_pos q : good q → 0 < q;
}.

Context (fresh : tables → Z) (ensure : tables → Z → Z → outcome (Z * tables)) `{!EnsureLaws fresh ensure}.
(** [ensure_next_table] at a path that may have children: it returns the
    child, or 0 at a leaf; no leaf entry of the tree changes, and there is at
    most one more table. *)
Lemma ensure_spec ts A root p q i :
  tree_rep ts A root → A !! p = Some q → (length p < depth)%nat → good (fresh ts) →
  ∃ r ts' A', ensure ts q i = Ok (r, ts') ∧ tree_rep ts' A' root ∧
    (∀ p' i', leaf (look ts' A' p' i') = leaf (look ts A p' i')) ∧
    (∀ p' i', leaf (look ts A p' i') = true → look ts' A' p' i' = look ts A p' i') ∧
    (∀ p' q', A !! p' = Some q' → A' !! p' = Some q') ∧
    (∀ p', is_Some (A' !! p') → is_Some (A !! p') ∨ p' = p ++ [i]) ∧
    (if leaf (look ts A p i) then r = 0 ∧ A' !! (p ++ [i]) = None
     else 0 < r ∧ A' !! (p ++ [i]) = Some r) ∧ (size ts' ≤ size ts + 1)%nat.
Proof.
  intros Hr Hp Hlen Hfresh. destruct (rep_addr _ _ _ Hr _ _ Hp) as (_ & [t Ht]).
  pose proof (rep_entry _ _ _ Hr p q t i Hp Ht) as He. rewrite (look_eq ts A p q t i) by done.
  destruct (A !! (p ++ [i])) as [r|] eqn:Hc.
  - destruct (rep_addr _ _ _ Hr _ _ Hc) as (Hgood & _). rewrite (ens_table ts q t i r) by done.
    rewrite He, ens_table_leaf by done. pose proof (ens_pos r Hgood). exists r, ts, A. split_and!; eauto; lia.
  - destruct He as [He|[Hne He]].
    + rewrite (ens_new ts q t i) by done. rewrite He, ens_zero_leaf. simpl.
      assert (fresh ts ≠ q) as Hfq by (intros <-; rewrite ens_fresh in Ht; done).
      unfold set_entry, table. rewrite lookup_insert_ne, Ht by done.
      simpl. destruct (rep_link ts A root p q t i (fresh ts)) as [Hr' Hl]; try done; [apply ens_fresh|].
      assert (look ts A p i = 0) as Hz by (by rewrite (look_eq ts A p q t i)).
      eexists _, _, _. split; [done|]. split_and!.
      * done.
      * intros p' i'. rewrite Hl. destruct (decide _) as [Heq|]; [|done]. injection Heq as -> ->.
        rewrite Hz, ens_zero_leaf. by apply ens_table_leaf.
      * intros p' i' Hlf. rewrite Hl. rewrite decide_False; [done|]. intros [= -> ->]. by rewrite Hz, ens_zero_leaf in Hlf.
      * intros p' q' Hp'. rewrite lookup_insert_ne; [done|]. congruence.
      * intros p' [x Hx]. apply lookup_insert_Some in Hx as [[<- _]|[_ Hx]]; eauto.
      * by apply ens_pos.
      * apply lookup_insert_eq.
      * rewrite map_size_insert_Some by (rewrite lookup_insert_ne by done; eauto).
        rewrite map_size_insert_None by apply ens_fresh. lia.
    + rewrite (ens_leaf ts q t i) by done. rewrite He. exists 0, ts, A. split_and!; eauto; lia.
Qed.
(** An entry above the level of the leaves is none. *)
Lemma look_no_leaf ts A root p i : tree_rep ts A root → (length p < leaf_from)%nat → leaf (look ts A p i) = false.
Proof.
  intros Hr Hlen. unfold look. destruct (A !! p) as [q|] eqn:Hp; [|apply ens_zero_leaf].
  destruct (rep_addr _ _ _ Hr _ _ Hp) as (_ & [t Ht]). rewrite Ht. simpl. pose proof (rep_entry _ _ _ Hr p q t i Hp Ht) as He.
  destruct (A !! (p ++ [i])) as [r|] eqn:Hr'.
  - rewrite He. apply ens_table_leaf. by apply (rep_addr _ _ _ Hr _ _ Hr').
  - destruct He as [->|[? _]]; [apply ens_zero_leaf|lia].
Qed.
End Tree.
Lemma aligned_ok va pa k :
  0 ≤ k → (2 ^ k | va) → (2 ^ k | pa) → misaligned va pa (2 ^ k) = false.
Proof.
  intros Hk Hv Hp. unfold misaligned. apply negb_false_iff, Z.eqb_eq.
  replace (2 ^ k - 1) with (Z.ones k) by (rewrite Z.ones_equiv; lia).
  rewrite Z.land_lor_distr_l, !Z.land_ones by done.
  assert (2 ^ k ≠ 0) as Hne by (apply Z.pow_nonzero; lia).
  by rewrite (proj2 (Z.mod_divide va _ Hne) Hv), (proj2 (Z.mod_divide pa _ Hne) Hp).
Qed.

(** The pages a segment touches. *)
Definition seg_lo (s : Segment) : Z := seg_start s - seg_start s mod PAGE_SIZE.
Definition seg_hi (s : Segment) : Z := round_up (seg_end s) PAGE_SIZE.
Definition in_pages (s : Segment) (va : Z) : bool := (seg_lo s <=? va) && (va <? seg_hi s).
Definition seg_pages (s : Segment) : nat := Z.to_nat ((seg_hi s - seg_lo s) / PAGE_SIZE).
Lemma seg_lo_aligned s : (PAGE_SIZE | seg_lo s).
Proof.
  unfold seg_lo. exists (seg_start s / PAGE_SIZE).
  pose proof (Z.div_mod (seg_start s) PAGE_SIZE ltac:(done)). lia.
Qed.

Lemma window_decide lo hi va : bool_decide (lo ≤ va < hi) = (lo <=? va) && (va <? hi).
Proof.
  destruct (Z.leb_spec lo va), (Z.ltb_spec va hi); simpl;
    (apply bool_decide_eq_true || apply bool_decide_eq_false); lia.
Qed.

Lemma covered_in_pages m va s off :
  mappings_wf m → find_segment m va 1 = Ok (s, off) →
  m !! (va - off) = Some s ∧ in_pages s va = true.
Proof.
  intros Hwf Hf. apply find_segment_Ok in Hf as [Hks Hin]; [|done]. split; [done|].
  pose proof Hwf as [Hok _]. destruct (Hok _ _ Hks) as (Hst & ? & ? & ?).
  unfold in_pages, seg_lo, seg_hi, seg_end, seg_start. rewrite Hst.
  pose proof (round_up_page (va - off + seg_len s)) as [? _].
  pose proof (Z.mod_pos_bound (va - off) PAGE_SIZE ltac:(done)).
  apply andb_true_iff. split; [apply Z.leb_le|apply Z.ltb_lt]; lia.
Qed.

(** ** What the loops build

    A builder of pages: [walk] is the translation of the hardware, with a flag
    for pages of 2 MiB, for addresses below [top].  [flat n] and [ok n] say
    that there are at most [n] tables, with and without pages of 2 MiB only;
    [fits n], that the heap has room for them. *)
Section LoopSpecs.
Context (map_2m map_4k : PageTableSpace → Z → Z → Z → outcome PageTableSpace).
Context (walk : PageTableSpace → Z → option (bool * Z)) (top : Z) (flags_ok : Z → Prop) (mega_pte small_pte : Z → Z → Z).
Context (flat ok : nat → PageTableSpace → Prop) (fits : nat → Prop).

(** Whether [va] lies in a 2 MiB page. *)
Definition mega (b : PageTableSpace) (va : Z) : bool :=
  match walk b va with Some (true, _) => true | _ => false end.

Class BuilderLaws : Prop := {
  bl_top : top ≤ 2 ^ 62;
  bl_fits n m : (n ≤ m)%nat → fits m → fits n;
  bl_flat n b : flat n b → ok n b;
  bl_mega n b va va' : ok n b → 0 ≤ va < top → 0 ≤ va' < top → va' / PAGE_SIZE = va / PAGE_SIZE → mega b va' = mega b va;
  bl_2m n b va pa flags :
    flat n b → fits (n + 2)%nat → misaligned va pa (2 ^ 21) = false → flags_ok flags → 0 ≤ va < top →
    ∃ b', map_2m b va pa flags = Ok b' ∧ flat (n + 2) b' ∧
      ∀ va', 0 ≤ va' < top → walk b' va' =
        if decide (va' / 2 ^ 21 = va / 2 ^ 21) then Some (true, mega_pte pa flags) else walk b va';
  (** A page outside the 2 MiB pages is the only one that changes; inside one
      nothing does. *)
  bl_4k n b va pa flags :
    ok n b → fits (n + 3)%nat → misaligned va pa PAGE_SIZE = false → flags_ok flags → 0 ≤ va < top →
    ∃ b', map_4k b va pa flags = Ok b' ∧ ok (n + 3) b' ∧
      ∀ va', 0 ≤ va' < top → walk b' va' =
        if decide (va' / PAGE_SIZE = va / PAGE_SIZE) then
          if mega b va then walk b va' else Some (false, small_pte pa flags)
        else walk b va';
}.
Context `{!BuilderLaws}.

Lemma mega_walk b b' va : walk b' va = walk b va → mega b' va = mega b va.
Proof. intros Heq. unfold mega. by rewrite Heq. Qed.

Lemma identity_loop_spec n fuel b cursor limit flags (k := Z.to_nat ((limit - cursor) / 2 ^ 21)) :
  flat n b → fits (n + 2 * k)%nat → flags_ok flags → (2 ^ 21 | cursor) → (2 ^ 21 | limit) → 0 ≤ cursor → limit ≤ top →
  (k < fuel)%nat →
  ∃ b', identity_loop map_2m fuel b cursor limit flags = Ok b' ∧ flat (n + 2 * k) b' ∧
    ∀ va, 0 ≤ va < top → walk b' va =
      if decide (cursor ≤ va < limit) then Some (true, mega_pte (va / 2 ^ 21 * 2 ^ 21) flags) else walk b va.
Proof.
  unfold k. clear k. intros Hb Hfit Hfl Hc Hl Hpos Htop. revert n b cursor Hb Hfit Hc Hpos.
  induction fuel as [|fuel IH]; intros n b cursor Hb Hfit Hc Hpos Hfuel; [lia|]. cbn [identity_loop].
  destruct Hc as [c ->]. destruct Hl as [l ->].
  replace (l * 2 ^ 21 - c * 2 ^ 21) with ((l - c) * 2 ^ 21) in * by lia. rewrite Z.div_mul in * by lia.
  destruct (Z.ltb_spec (c * 2 ^ 21) (l * 2 ^ 21)) as [Hlt|Hge].
  2: { exists b. replace (Z.to_nat (l - c)) with 0%nat by lia. rewrite Nat.mul_0_r, Nat.add_0_r. split_and!; [done|done|].
       intros va Hva. by rewrite decide_False by lia. }
  destruct (bl_2m n b (c * 2 ^ 21) (c * 2 ^ 21) flags Hb) as (b1 & -> & Hb1 & Hw1);
    [refine (bl_fits _ _ _ Hfit); lia|apply (aligned_ok _ _ 21); [done|apply Z.divide_factor_r..]|done|lia|].
  cbn [mbind outcome_bind]. pose proof bl_top.
  rewrite uadd_ok by (unfold USIZE_MAX; lia). cbn [mbind outcome_bind].
  replace (c * 2 ^ 21 + 2 ^ 21) with ((c + 1) * 2 ^ 21) by lia.
  assert (l * 2 ^ 21 - (c + 1) * 2 ^ 21 = (l - (c + 1)) * 2 ^ 21) as Hd by lia.
  destruct (IH (n + 2)%nat b1 ((c + 1) * 2 ^ 21)) as (b' & -> & Hb' & Hw');
    [done|rewrite Hd, Z.div_mul by lia; refine (bl_fits _ _ _ Hfit); lia|apply Z.divide_factor_r|lia
    |rewrite Hd, Z.div_mul by lia; lia|].
  exists b'. rewrite Hd, Z.div_mul in Hb' by lia.
  replace (n + 2 + 2 * Z.to_nat (l - (c + 1)))%nat with (n + 2 * Z.to_nat (l - c))%nat in Hb' by lia.
  split_and!; [done|done|]. intros va Hva. rewrite Hw', Hw1 by done. rewrite Z.div_mul by lia.
  assert (va / 2 ^ 21 = c ↔ c * 2 ^ 21 ≤ va < (c + 1) * 2 ^ 21) as Hiff by (clear - va c; Z.to_euclidean_division_equations; lia).
  destruct (decide (va / 2 ^ 21 = c)) as [Hvc|Hvc].
  - pose proof (proj1 Hiff Hvc). rewrite decide_False, decide_True by lia. by rewrite Hvc.
  - assert (¬ (c * 2 ^ 21 ≤ va < (c + 1) * 2 ^ 21)) by (by rewrite <- Hiff).
    case_decide; case_decide; (done || lia).
Qed.

Lemma map_identity_spec n b st end_ flags (k := Z.to_nat ((end_ - st) / 2 ^ 21)) :
  flat n b → fits (n + 2 * k)%nat → flags_ok flags → (2 ^ 21 | st) → (2 ^ 21 | end_) → 0 ≤ st → st ≤ end_ → end_ ≤ top →
  ∃ b', map_identity_2m map_2m b st end_ flags = Ok b' ∧ flat (n + 2 * k) b' ∧
    ∀ va, 0 ≤ va < top → walk b' va =
      if decide (st ≤ va < end_) then Some (true, mega_pte (va / 2 ^ 21 * 2 ^ 21) flags) else walk b va.
Proof.
  unfold k. intros Hb Hfit Hfl Hst Hen ? ? ?. unfold map_identity_2m. pose proof bl_top.
  rewrite align_down_pow2, align_up_pow2 by (unfold is_usize, USIZE_MAX; lia).
  rewrite round_up_id by (lia || done). cbn [mbind outcome_bind].
  rewrite (proj2 (Z.mod_divide st (2 ^ 21) ltac:(lia)) Hst), Z.sub_0_r.
  apply identity_loop_spec; auto with lia.
Qed.

(** The page of [va] relative to [st], on the frames at [phys]. *)
Definition page_entry (phys st va flags : Z) : Z := small_pte (phys + (va / PAGE_SIZE * PAGE_SIZE - st)) flags.

Lemma segment_loop_spec n fuel b vaddr st end_ phys flags (k := Z.to_nat ((end_ - vaddr) / PAGE_SIZE)) :
  ok n b → fits (n + 3 * k)%nat → flags_ok flags → (PAGE_SIZE | vaddr) → (PAGE_SIZE | end_) → (PAGE_SIZE | st) →
  (PAGE_SIZE | phys) → 0 ≤ st ≤ vaddr → end_ ≤ top → phys + (end_ - st) ≤ USIZE_MAX → (k < fuel)%nat →
  ∃ b', segment_loop map_4k fuel b vaddr st end_ phys flags = Ok b' ∧ ok (n + 3 * k) b' ∧
    ∀ va, 0 ≤ va < top → walk b' va =
      if decide (vaddr ≤ va < end_ ∧ mega b va = false) then Some (false, page_entry phys st va flags) else walk b va.
Proof.
  unfold k. clear k. intros Hb Hfit Hfl Hv He Hs Hp Hst Htop Hphys. revert n b vaddr Hb Hfit Hv Hst.
  induction fuel as [|fuel IH]; intros n b vaddr Hb Hfit Hv Hst Hfuel; [lia|]. cbn [segment_loop]. pose proof bl_top as Ht62.
  destruct (Z.ltb_spec vaddr end_) as [Hlt|Hge].
  2: { exists b. replace (Z.to_nat ((end_ - vaddr) / PAGE_SIZE)) with 0%nat by (unfold PAGE_SIZE; Z.to_euclidean_division_equations; lia).
       rewrite Nat.mul_0_r, Nat.add_0_r. split_and!; [done|done|]. intros va Hva. by rewrite decide_False by lia. }
  rewrite (uadd_ok phys) by lia. cbn [mbind outcome_bind].
  assert (∃ k, Z.to_nat ((end_ - vaddr) / PAGE_SIZE) = S k ∧ Z.to_nat ((end_ - (vaddr + PAGE_SIZE)) / PAGE_SIZE) = k) as (k & Hk & Hk').
  { destruct Hv as [c ->]. destruct He as [l ->]. unfold PAGE_SIZE in *. exists (Z.to_nat (l - c - 1)).
    replace (l * 4096 - c * 4096) with ((l - c) * 4096) by lia. replace (l * 4096 - (c * 4096 + 4096)) with ((l - c - 1) * 4096) by lia.
    rewrite !Z.div_mul by lia. lia. }
  rewrite Hk in *.
  destruct (bl_4k n b vaddr (phys + (vaddr - st)) flags Hb) as (b1 & -> & Hb1 & Hw1);
    [refine (bl_fits _ _ _ Hfit); lia| |done|lia|].
  { apply (aligned_ok _ _ 12); [done|done|]. apply Z.divide_add_r; [done|]. by apply Z.divide_sub_r. }
  cbn [mbind outcome_bind]. rewrite uadd_ok by (unfold PAGE_SIZE, USIZE_MAX in *; lia). cbn [mbind outcome_bind].
  destruct (IH (n + 3)%nat b1 (vaddr + PAGE_SIZE)) as (b' & -> & Hb' & Hw');
    [done|rewrite Hk'; refine (bl_fits _ _ _ Hfit); lia|apply Z.divide_add_r; [assumption|apply Z.divide_refl]|unfold PAGE_SIZE; lia|lia|].
  exists b'. rewrite Hk' in Hb'. replace (n + 3 * S k)%nat with (n + 3 + 3 * k)%nat by lia. split_and!; [done|done|].
  intros va Hva. rewrite Hw' by done.
  assert (va / PAGE_SIZE = vaddr / PAGE_SIZE ↔ vaddr ≤ va < vaddr + PAGE_SIZE) as Hiff.
  { destruct Hv as [c ->]. unfold PAGE_SIZE. rewrite Z.div_mul by lia. clear - va c. Z.to_euclidean_division_equations. lia. }
  assert (vaddr + PAGE_SIZE ≤ end_) as Hle.
  { destruct Hv as [c ->]. destruct He as [l ->]. unfold PAGE_SIZE in *. lia. }
  destruct (decide (va / PAGE_SIZE = vaddr / PAGE_SIZE)) as [Hpg|Hpg].
  - assert (mega b va = mega b vaddr) as Hmg by (apply (bl_mega n); [done|lia|done|done]).
    rewrite (decide_False _ _ (P := vaddr + PAGE_SIZE ≤ va < end_ ∧ _)) by (apply Hiff in Hpg; lia).
    rewrite Hw1, decide_True, Hmg by done. pose proof (proj1 Hiff Hpg). destruct (mega b vaddr).
    + by rewrite decide_False by (intros [_ ?]; done).
    + rewrite decide_True by (split; [lia|done]). unfold page_entry. rewrite Hpg. do 4 f_equal.
      destruct Hv as [c ->]. unfold PAGE_SIZE. rewrite Z.div_mul by lia. reflexivity.
  - assert (walk b1 va = walk b va) as Hsame by (by rewrite Hw1, decide_False).
    rewrite (mega_walk b b1 va Hsame), Hsame.
    assert (¬ (vaddr ≤ va < vaddr + PAGE_SIZE)) by (by rewrite <- Hiff).
    unfold PAGE_SIZE in *. apply decide_ext. split; intros [? ?]; (split; [lia|done]).
Qed.
End LoopSpecs.

(** A segment the page-table code maps in full: its backing is page aligned,
    it lies below [top], and it is not the identity-mapped kernel image
    itself. *)
Record mappable_in (top id_lo id_hi : Z) (s : Segment) (phys : Z) : Prop := {
  mp_phys : segment_phys_base s = Some phys;
  mp_aligned : (PAGE_SIZE | phys);
  mp_start : 0 ≤ seg_start s;
  mp_len : 0 < seg_len s;
  mp_top : seg_hi s ≤ top;
  mp_phys_top : phys + (seg_hi s - seg_lo s) ≤ USIZE_MAX;
  mp_user : ¬ (id_lo ≤ seg_lo s < id_hi ∧ phys = seg_lo s);
}.

Section SegmentSpecs.
Context (map_2m map_4k : PageTableSpace → Z → Z → Z → outcome PageTableSpace).
Context (walk : PageTableSpace → Z → option (bool * Z)) (top : Z) (flags_ok : Z → Prop) (mega_pte small_pte : Z → Z → Z).
Context (flat ok : nat → PageTableSpace → Prop) (fits : nat → Prop).
Context `{Hlaws : !BuilderLaws map_2m map_4k walk top flags_ok mega_pte small_pte flat ok fits}.
Context (id_lo id_hi : Z) (pte_flags : Z → Z) (Hflags : ∀ prot, flags_ok (pte_flags prot)).
Abbreviation mappable := (mappable_in top id_lo id_hi).
Abbreviation map_segment := (map_segment_pages map_4k id_lo id_hi pte_flags).
Abbreviation mega := (mega walk).

Definition seg_entry (s : Segment) (va : Z) : Z :=
  page_entry small_pte (default 0 (segment_phys_base s)) (seg_lo s) va (pte_flags (prot (area s))).

Lemma fits_le n m : (n ≤ m)%nat → fits m → fits n.
Proof. apply (bl_fits map_2m map_4k walk top flags_ok mega_pte small_pte flat ok fits). Qed.
Lemma map_segment_spec n b s phys :
  ok n b → fits (n + 3 * seg_pages s)%nat → mappable s phys →
  ∃ b', map_segment b s = Ok b' ∧ ok (n + 3 * seg_pages s) b' ∧
    ∀ va, 0 ≤ va < top → walk b' va =
      if in_pages s va && negb (mega b va) then Some (false, seg_entry s va) else walk b va.
Proof.
  intros Hb Hfit [Hp Hal Hst Hlen Htop Hpt Hu]. unfold map_segment_pages. pose proof (bl_top map_2m map_4k walk top flags_ok mega_pte small_pte flat ok fits) as Ht62.
  rewrite Hp. pose proof (round_up_page (seg_end s)) as [Hhi Hhid]. fold (seg_hi s) in Hhi, Hhid.
  unfold seg_end in Hhi. change (start (area s)) with (seg_start s).
  assert (align_down (seg_start s) PAGE_SIZE = seg_lo s) as ->.
  { change PAGE_SIZE with (2 ^ 12). rewrite align_down_pow2; [done|lia|].
    unfold is_usize, USIZE_MAX. lia. }
  rewrite uadd_ok by (unfold USIZE_MAX; lia). cbn [mbind outcome_bind].
  rewrite align_up_page by (unfold USIZE_MAX, PAGE_SIZE in *; lia). cbn [mbind outcome_bind].
  fold (seg_end s). fold (seg_hi s).
  replace ((id_lo <=? seg_lo s) && (seg_lo s <? id_hi) && (phys =? seg_lo s)) with false
    by (symmetry; apply not_true_iff_false; intros Hx; reflect_bools; apply Hu; lia).
  cbv iota.
  pose proof (seg_lo_aligned s). assert (0 ≤ seg_lo s).
  { unfold seg_lo. pose proof (Z.mod_le (seg_start s) PAGE_SIZE). unfold PAGE_SIZE in *. lia. }
  destruct (segment_loop_spec map_2m map_4k walk top flags_ok mega_pte small_pte flat ok fits n
    (S (Z.to_nat ((seg_hi s - seg_lo s) / PAGE_SIZE))) b (seg_lo s) (seg_lo s) (seg_hi s) phys (pte_flags (prot (area s))))
    as (b' & -> & Hb' & Hw); try done; [lia..|].
  exists b'. split_and!; [done|done|]. intros va Hva. rewrite Hw by done. unfold seg_entry. rewrite Hp. simpl.
  unfold in_pages. case_decide as Hd.
  - destruct Hd as [? ->]. by rewrite (proj2 (Z.leb_le _ _)), (proj2 (Z.ltb_lt _ _)) by lia.
  - destruct (mega b va); simpl; [by rewrite andb_false_r|].
    destruct (Z.leb_spec (seg_lo s) va), (Z.ltb_spec va (seg_hi s)); simpl; try done.
    exfalso. apply Hd. done.
Qed.

(** After a list of segments, a page outside the 2 MiB pages belongs to the
    last segment that touches it. *)
Lemma map_segments_spec segs n b :
  ok n b → fits (n + 3 * sum_list_with seg_pages segs)%nat → Forall (fun s => ∃ phys, mappable s phys) segs →
  ∃ b', foldM map_segment b segs = Ok b' ∧ ok (n + 3 * sum_list_with seg_pages segs) b' ∧
    ∀ va, 0 ≤ va < top → walk b' va =
      if mega b va then walk b va
      else match find_first (fun s => in_pages s va) (reverse segs) with
           | Some s => Some (false, seg_entry s va)
           | None => walk b va
           end.
Proof.
  revert n b; induction segs as [|s segs IH]; intros n b Hb Hfit Hall.
  { exists b. simpl. rewrite Nat.add_0_r. split_and!; [done|done|]. intros va _. by destruct (mega b va). }
  apply Forall_cons in Hall as [[phys Hs] Hall]. cbn [foldM]. simpl in Hfit.
  destruct (map_segment_spec n b s phys Hb) as (b1 & -> & Hb1 & Hw1); [refine (fits_le _ _ _ Hfit); lia|done|].
  cbn [mbind outcome_bind].
  destruct (IH (n + 3 * seg_pages s)%nat b1 Hb1) as (b' & -> & Hb' & Hw'); [refine (fits_le _ _ _ Hfit); lia|done|].
  assert (ok (n + 3 * (seg_pages s + sum_list_with seg_pages segs)) b') as Hok.
  { by replace (n + 3 * (seg_pages s + sum_list_with seg_pages segs))%nat
      with (n + 3 * seg_pages s + 3 * sum_list_with seg_pages segs)%nat by lia. }
  exists b'. split; [done|]. split; [exact Hok|].
  intros va Hva. rewrite Hw' by done. rewrite reverse_cons.
  assert (find_first (fun s => in_pages s va) (reverse segs ++ [s]) =
    match find_first (fun s => in_pages s va) (reverse segs) with
    | Some s' => Some s' | None => if in_pages s va then Some s else None end) as ->.
  { clear. induction (reverse segs) as [|x l IHl]; simpl; [done|]. by destruct (in_pages x va). }
  specialize (Hw1 va Hva). destruct (mega b va) eqn:Hm.
  { rewrite andb_false_r in Hw1. by rewrite (mega_walk walk b b1 va Hw1), Hm, Hw1. }
  rewrite andb_true_r in Hw1. assert (mega b1 va = false) as ->.
  { destruct (in_pages s va); [unfold Pt.mega; by rewrite Hw1|by rewrite (mega_walk walk b b1 va Hw1)]. }
  rewrite Hw1. by destruct (find_first _ (reverse segs)), (in_pages s va).
Qed.

(** The table of a segment map whose segments do not share pages, over the
    windows [b] of the kernel. *)
Lemma segments_refine n b m :
  mappings_wf m → ok n b → fits (n + 3 * sum_list_with seg_pages (values m))%nat →
  (∀ k s, m !! k = Some s → ∃ phys, mappable s phys) →
  (∀ k1 s1 k2 s2 va, m !! k1 = Some s1 → m !! k2 = Some s2 → in_pages s1 va = true → in_pages s2 va = true → k1 = k2) →
  ∃ b', foldM map_segment b (values m) = Ok b' ∧
    (∀ va, 0 ≤ va < top → mega b va = true → walk b' va = walk b va) ∧
    (∀ va s off, 0 ≤ va < top → mega b va = false → find_segment m va 1 = Ok (s, off) → walk b' va = Some (false, seg_entry s va)) ∧
    (∀ va, 0 ≤ va < top → mega b va = false → (∀ k s, m !! k = Some s → in_pages s va = false) → walk b' va = walk b va).
Proof.
  intros Hwf Hb Hfit Hmp Hdis. destruct (map_segments_spec (values m) n b Hb Hfit) as (b' & -> & _ & Hw).
  { apply Forall_forall. intros s [k Hk]%elem_of_values. by apply (Hmp k). }
  exists b'. split; [done|]. split_and!.
  - intros va Hva Hm. by rewrite Hw, Hm.
  - intros va s off Hva Hm Hf. rewrite Hw, Hm by done. apply covered_in_pages in Hf as [Hks Hp]; [|done].
    destruct (find_first _ (reverse (values m))) as [s'|] eqn:Hff.
    + apply find_first_Some in Hff as [Hin' Hp']. rewrite elem_of_reverse, elem_of_values in Hin'.
      destruct Hin' as [k' Hk']. assert (va - off = k') as Heq by (by apply (Hdis _ s _ s' va)).
      rewrite Heq in Hks. congruence.
    + rewrite find_first_None in Hff. rewrite (Hff s) in Hp; [done|].
      rewrite elem_of_reverse, elem_of_values. eauto.
  - intros va Hva Hm Hno. rewrite Hw, Hm by done.
    destruct (find_first _ (reverse (values m))) as [s'|] eqn:Hff; [|done].
    apply find_first_Some in Hff as [Hin' Hp']. rewrite elem_of_reverse, elem_of_values in Hin'.
    destruct Hin' as [k' Hk']. by rewrite (Hno _ _ Hk') in Hp'.
Qed.
End SegmentSpecs.

(** ** Entry encodings *)
Definition pte_valid (e : Z) : bool := negb (Z.land e RISCV_PTE_V =? 0).
Definition pte_rwx (e : Z) : bool :=
  negb (Z.land e (Z.lor RISCV_PTE_R (Z.lor RISCV_PTE_W RISCV_PTE_X)) =? 0).
Definition pte_leaf (e : Z) : bool := pte_valid e && pte_rwx e.

(** Flag words of the leaf entries: ten bits with one of R, W, X. *)
Definition leaf_flags (f : Z) : Prop := 0 ≤ f < 2 ^ 10 ∧ pte_rwx f = true.

Lemma land_lor_high a b m k :
  0 ≤ k → 0 ≤ m < 2 ^ k → Z.land (Z.lor (Z.shiftl a k) b) m = Z.land b m.
Proof.
  intros Hk Hm. rewrite Z.land_lor_distr_l.
  assert (Z.land (Z.shiftl a k) m = 0) as ->; [|done].
  apply Z.bits_inj'. intros n Hn. rewrite Z.land_spec, Z.bits_0, Z.shiftl_spec by lia.
  destruct (Z.ltb_spec n k).
  - rewrite Z.testbit_neg_r by lia. done.
  - destruct (decide (m = 0)) as [->|]; [by rewrite Z.bits_0, andb_false_r|].
    rewrite (Z.bits_above_log2 m n), andb_false_r; [done|lia|].
    apply Z.lt_le_trans with k; [|lia]. apply Z.log2_lt_pow2; lia.
Qed.

Lemma table_pte_facts q :
  (PAGE_SIZE | q) →
  pte_valid (riscv_make_table_pte q) = true ∧ pte_rwx (riscv_make_table_pte q) = false ∧
  Z.shiftl (Z.shiftr (riscv_make_table_pte q) 10) 12 = q.
Proof.
  intros [k ->]. unfold pte_valid, pte_rwx, riscv_make_table_pte.
  rewrite !land_lor_high by (by vm_compute). split_and!; [done..|].
  rewrite Z.shiftr_lor, Z.shiftr_shiftl_l by lia. rewrite Z.shiftl_0_r. simpl (Z.shiftr RISCV_PTE_V 10).
  rewrite Z.lor_0_r, Z.shiftr_div_pow2, Z.shiftl_mul_pow2 by lia.
  unfold PAGE_SIZE. change (2 ^ 12) with 4096. rewrite Z.div_mul by lia. done.
Qed.

Lemma leaf_pte_leaf paddr f : leaf_flags f → pte_leaf (riscv_make_leaf_pte paddr f) = true.
Proof.
  intros [? Hf]. unfold pte_leaf, pte_valid, pte_rwx, riscv_make_leaf_pte in *.
  rewrite <- Z.lor_assoc, !land_lor_high by (by vm_compute).
  rewrite !Z.land_lor_distr_l. simpl (Z.land RISCV_PTE_V _). rewrite Z.lor_0_r, Hf, andb_true_r.
  apply negb_true_iff, Z.eqb_neq. intros H0. apply Z.lor_eq_0_iff in H0 as [_ ?]. done.
Qed.

(** the entry of a user page keeps the frame number and the flags apart:
    the hardware reads back the frame address and the flag bits the kernel
    put in. *)
Theorem leaf_pte_decodes paddr f :
  leaf_flags f → (PAGE_SIZE | paddr) →
  Z.shiftl (Z.shiftr (riscv_make_leaf_pte paddr f) 10) 12 = paddr ∧
  Z.land (riscv_make_leaf_pte paddr f) (2 ^ 10 - 1) = Z.lor f RISCV_PTE_V.
Proof.
  intros [? _] [k ->]. unfold riscv_make_leaf_pte. rewrite <- Z.lor_assoc.
  assert (0 ≤ Z.lor f RISCV_PTE_V < 2 ^ 10) as Hb.
  { split; [apply Z.lor_nonneg; unfold RISCV_PTE_V; lia|].
    destruct (decide (Z.lor f RISCV_PTE_V = 0)) as [->|Hne]; [done|].
    apply Z.log2_lt_pow2; [unfold RISCV_PTE_V in *; pose proof (Z.lor_nonneg f 1); lia|].
    rewrite Z.log2_lor by (unfold RISCV_PTE_V; lia). apply Z.max_lub_lt; [|done].
    destruct (decide (f = 0)) as [->|]; [done|]. apply Z.log2_lt_pow2; lia. }
  split.
  - rewrite Z.shiftr_lor, Z.shiftr_shiftl_l, Z.shiftl_0_r by lia.
    rewrite (Z.shiftr_div_pow2 (Z.lor _ _)), (Z.div_small (Z.lor _ _)), Z.lor_0_r by lia.
    rewrite Z.shiftr_div_pow2, Z.shiftl_mul_pow2 by lia.
    unfold PAGE_SIZE. change (2 ^ 12) with 4096. by rewrite Z.div_mul by lia.
  - rewrite land_lor_high by (simpl; lia). change (2 ^ 10 - 1) with (Z.ones 10).
    rewrite Z.land_ones by lia. by apply Z.mod_small.
Qed.

Lemma leaf_pte_decodes_witness :
  Z.shiftl (Z.shiftr (riscv_make_leaf_pte 0x80005000 (riscv_segment_pte_flags 5)) 10) 12 = 0x80005000.
Proof.
  apply (leaf_pte_decodes 0x80005000 (riscv_segment_pte_flags 5)).
  - by vm_compute.
  - by exists 0x80005.
Defined.

(** Eight protections: the flag word has the user, accessed and dirty bits,
    execute exactly when asked, and is a leaf. *)
Lemma segment_flags_leaf prot : leaf_flags (riscv_segment_pte_flags prot).
Proof.
  unfold riscv_segment_pte_flags.
  destruct (prot_bit prot 1), (prot_bit prot 2), (prot_bit prot 4); by vm_compute.
Qed.

(** [prot] to Sv39 flags: every mapping is a user leaf; it is executable
    exactly when PROT_EXEC is set, and writable exactly when PROT_WRITE is set
    or no permission is asked for at all.  A write-only protection gives the
    reserved encoding W without R. *)
Theorem riscv_flags_spec prot :
  let f := riscv_segment_pte_flags prot in
  let has bit := negb (Z.land f bit =? 0) in
  has RISCV_PTE_U = true ∧ pte_rwx f = true ∧
  has RISCV_PTE_X = prot_bit prot 4 ∧
  has RISCV_PTE_W = prot_bit prot 2 || negb (prot_bit prot 1 || prot_bit prot 2 || prot_bit prot 4) ∧
  (has RISCV_PTE_R = false ↔ prot_bit prot 1 = false ∧ prot_bit prot 2 = true ∧ prot_bit prot 4 = false).
Proof.
  unfold riscv_segment_pte_flags.
  destruct (prot_bit prot 1), (prot_bit prot 2), (prot_bit prot 4); vm_compute; naive_solver.
Qed.

(** ** The walk of Sv39 *)

(** Sv39 translation of [va]: the entry found and whether it is a 2 MiB page. *)
Definition sv39_walk (b : PageTableSpace) (va : Z) : option (bool * Z) :=
  t2 ← pts_tables b !! pts_root_phys b;
  let e2 := entry t2 (vpn va 30) in
  if pte_valid e2 && negb (pte_rwx e2) then
    t1 ← pts_tables b !! Z.shiftl (Z.shiftr e2 10) 12;
    let e1 := entry t1 (vpn va 21) in
    if pte_leaf e1 then Some (true, e1)
    else if pte_valid e1 then
      t0 ← pts_tables b !! Z.shiftl (Z.shiftr e1 10) 12;
      let e0 := entry t0 (vpn va 12) in
      if pte_leaf e0 then Some (false, e0) else None
    else None
  else None.

(** What the kernel heap promises of the pages it hands out. *)
Definition page_address (q : Z) : Prop := 0 < q ∧ (PAGE_SIZE | q).
Class PageHeap (fresh : tables → Z) : Prop := {
  fresh_new : ∀ ts, ts !! fresh ts = None;
  fresh_page : ∀ ts, page_address (fresh ts);
}.

Abbreviation rep := (tree_rep riscv_make_table_pte pte_leaf 2 1 page_address).

Lemma table_pte_not_leaf q : (PAGE_SIZE | q) → pte_leaf (riscv_make_table_pte q) = false.
Proof. intros (_ & H & _)%table_pte_facts. unfold pte_leaf. by rewrite H, andb_false_r. Qed.

(** The walk reads the leaf entries of the tree. *)
Lemma walk_look b A va :
  rep (pts_tables b) A (pts_root_phys b) →
  sv39_walk b va =
  let e1 := look (pts_tables b) A [vpn va 30] (vpn va 21) in
  if pte_leaf e1 then Some (true, e1)
  else let e0 := look (pts_tables b) A [vpn va 30; vpn va 21] (vpn va 12) in
       if pte_leaf e0 then Some (false, e0) else None.
Proof.
  intros Hr. destruct b as [root ts]. simpl in *. unfold sv39_walk. simpl.
  pose proof (rep_root _ _ _ _ _ _ _ _ Hr) as H0. destruct (rep_addr _ _ _ _ _ _ _ _ Hr _ _ H0) as (_ & [t2 Ht2]).
  rewrite Ht2. simpl. pose proof (rep_entry _ _ _ _ _ _ _ _ Hr [] root t2 (vpn va 30) H0 Ht2) as He2. simpl in He2.
  destruct (A !! [vpn va 30]) as [q1|] eqn:Hq1.
  - rewrite He2. destruct (rep_addr _ _ _ _ _ _ _ _ Hr _ _ Hq1) as ([_ Hdiv] & [t1 Ht1]).
    destruct (table_pte_facts q1 Hdiv) as (-> & -> & ->). simpl. rewrite Ht1. simpl.
    rewrite (look_eq ts A [vpn va 30] q1 t1) by done.
    destruct (pte_leaf (entry t1 (vpn va 21))) eqn:Hl; [done|].
    pose proof (rep_entry _ _ _ _ _ _ _ _ Hr [vpn va 30] q1 t1 (vpn va 21) Hq1 Ht1) as He1. simpl in He1.
    destruct (A !! [vpn va 30; vpn va 21]) as [q0|] eqn:Hq0.
    + rewrite He1. destruct (rep_addr _ _ _ _ _ _ _ _ Hr _ _ Hq0) as ([_ Hdiv0] & [t0 Ht0]).
      destruct (table_pte_facts q0 Hdiv0) as (-> & _ & ->). rewrite Ht0. simpl.
      by rewrite (look_eq ts A _ q0 t0) by done.
    + destruct He1 as [->|[_ ?]]; [|congruence]. unfold look. by rewrite Hq0.
  - destruct He2 as [->|[? _]]; [|lia]. simpl.
    assert (A !! [vpn va 30; vpn va 21] = None) as Hq0.
    { destruct (A !! [vpn va 30; vpn va 21]) as [q0|] eqn:Hq0; [|done].
      apply (rep_prefix _ _ _ _ _ _ _ _ Hr [vpn va 30]) in Hq0 as [? ?]. congruence. }
    unfold look. by rewrite Hq1, Hq0.
Qed.

Section Sv39.
Context (fresh : tables → Z) `{!PageHeap fresh}.

#[export] Instance sv39_ensure_laws :
  EnsureLaws riscv_make_table_pte pte_leaf page_address fresh (sv39_ensure_next_table fresh).
Proof.
  assert (∀ e, (Z.land e (Z.lor RISCV_PTE_R (Z.lor RISCV_PTE_W RISCV_PTE_X)) =? 0) = negb (pte_rwx e)) as Hrwx
    by (intros; unfold pte_rwx; by rewrite negb_involutive).
  assert (∀ ts q t i, ts !! q = Some t → sv39_ensure_next_table fresh ts q i =
    if pte_valid (entry t i) && negb (pte_rwx (entry t i)) then Ok (Z.shiftl (Z.shiftr (entry t i) 10) 12, ts)
    else if pte_valid (entry t i) then Ok (0, ts)
    else let '(n, ts') := new_page fresh ts in ts'' ← set_entry ts' q i (riscv_make_table_pte n); Ok (n, ts'')) as He.
  { intros ts q t i Ht. unfold sv39_ensure_next_table, table. rewrite Ht. cbn [unwrap mbind outcome_bind].
    change (negb (Z.land (entry t i) RISCV_PTE_V =? 0)) with (pte_valid (entry t i)). by rewrite Hrwx. }
  split.
  - intros ts q t i r Ht [_ Hdiv] Hr. rewrite (He _ _ t), Hr by done. by destruct (table_pte_facts r Hdiv) as (-> & -> & ->).
  - intros ts q t i Ht H0. by rewrite (He _ _ t), H0.
  - intros ts q t i Ht [Hv Hx]%andb_true_iff. by rewrite (He _ _ t), Hv, Hx.
  - apply fresh_new.
  - intros q [_ Hd]. by apply table_pte_not_leaf.
  - done.
  - by intros q [? _].
Qed.

Definition page_of (va : Z) : Z * Z * Z := (vpn va 30, vpn va 21, vpn va 12).
Definition tree_ok (b : PageTableSpace) : Prop := ∃ A, rep (pts_tables b) A (pts_root_phys b).
(** A tree with 2 MiB pages only. *)
Definition flat (b : PageTableSpace) : Prop :=
  ∃ A, rep (pts_tables b) A (pts_root_phys b) ∧ ∀ p, is_Some (A !! p) → (length p ≤ 1)%nat.
Abbreviation in_mega := (mega sv39_walk).

Lemma in_mega_look b A va :
  rep (pts_tables b) A (pts_root_phys b) →
  in_mega b va = pte_leaf (look (pts_tables b) A [vpn va 30] (vpn va 21)).
Proof.
  intros Hr. unfold mega. rewrite (walk_look b A va Hr). simpl.
  destruct (pte_leaf (look _ _ [_] _)); [done|]. by destruct (pte_leaf _).
Qed.

(** Two trees whose leaf entries agree at [va] translate it alike. *)
Lemma walk_agree b A b' A' va :
  rep (pts_tables b) A (pts_root_phys b) → rep (pts_tables b') A' (pts_root_phys b') →
  (∀ p i, (p, i) ∈ [([vpn va 30], vpn va 21); ([vpn va 30; vpn va 21], vpn va 12)] →
     pte_leaf (look (pts_tables b') A' p i) = pte_leaf (look (pts_tables b) A p i) ∧
     (pte_leaf (look (pts_tables b) A p i) = true →
      look (pts_tables b') A' p i = look (pts_tables b) A p i)) →
  sv39_walk b' va = sv39_walk b va.
Proof.
  intros Hr Hr' Hag. rewrite (walk_look b A va Hr), (walk_look b' A' va Hr'). simpl.
  destruct (Hag [vpn va 30] (vpn va 21)) as [E1 F1]; [set_solver|].
  destruct (Hag [vpn va 30; vpn va 21] (vpn va 12)) as [E0 F0]; [set_solver|].
  rewrite E1, E0. destruct (pte_leaf (look _ A [_] _)); [by rewrite F1|].
  destruct (pte_leaf (look _ A [_; _] _)); [by rewrite F0|done].
Qed.

Abbreviation ensure := (ensure_spec riscv_make_table_pte pte_leaf 2 1 page_address fresh (sv39_ensure_next_table fresh)).
Abbreviation no_leaf := (look_no_leaf riscv_make_table_pte pte_leaf 2 1 page_address fresh (sv39_ensure_next_table fresh)).

(** [map_4k] of an aligned page outside 2 MiB pages changes the translation
    of exactly that page; inside one it changes nothing. *)
Lemma map_4k_spec b va pa flags :
  tree_ok b → misaligned va pa PAGE_SIZE = false → leaf_flags flags →
  ∃ b', sv39_map_4k fresh b va pa flags = Ok b' ∧ tree_ok b' ∧
    ∀ va', sv39_walk b' va' =
      if decide (page_of va' = page_of va) then
        if in_mega b va then sv39_walk b va' else Some (false, riscv_make_leaf_pte pa flags)
      else sv39_walk b va'.
Proof.
  intros [A Hr] Hal Hfl. unfold sv39_map_4k. rewrite Hal. destruct b as [root ts].
  cbn [pts_tables pts_root_phys] in *.
  destruct (ensure ts A root [] root (vpn va 30)) as (r1 & ts1 & A1 & -> & Hr1 & E1 & F1 & K1 & _ & C1 & _);
    [done|by apply (rep_root _ _ _ _ _ _ _ _ Hr)|simpl; lia|apply fresh_page|]. cbn [app mbind outcome_bind] in C1 |- *.
  rewrite (no_leaf ts A root []) in C1 by (done || simpl; lia). destruct C1 as [Hpos1 HA1].
  rewrite (proj2 (Z.eqb_neq r1 0)) by lia.
  destruct (ensure ts1 A1 root [vpn va 30] r1 (vpn va 21)) as (r0 & ts0 & A0 & -> & Hr0 & E0 & F0 & K0 & _ & C0 & _);
    [done|done|simpl; lia|apply fresh_page|]. cbn [app mbind outcome_bind] in C0 |- *.
  rewrite (in_mega_look (mkPTS root ts) A va Hr). cbn [pts_tables].
  rewrite E1 in C0. destruct (pte_leaf (look ts A [vpn va 30] (vpn va 21))) eqn:Hmega.
  - destruct C0 as [-> _]. eexists. split; [done|]. split; [by exists A0|].
    intros va'. assert (sv39_walk (mkPTS root ts0) va' = sv39_walk (mkPTS root ts) va') as ->; [|by case_decide].
    apply (walk_agree (mkPTS root ts) A _ A0); [done|done|]. intros p i _. cbn [pts_tables]. rewrite E0, E1. split; [done|].
    intros Hlf. rewrite F0 by (by rewrite E1). by apply F1.
  - destruct C0 as [Hpos0 HA0]. rewrite (proj2 (Z.eqb_neq r0 0)) by lia.
    destruct (rep_addr _ _ _ _ _ _ _ _ Hr0 _ _ HA0) as (_ & [t0 Ht0]).
    unfold set_entry, table. rewrite Ht0. cbn [unwrap mbind outcome_bind].
    assert (A0 !! ([vpn va 30; vpn va 21] ++ [vpn va 12]) = None) as Hno.
    { destruct (A0 !! ([vpn va 30; vpn va 21] ++ [vpn va 12])) eqn:Hx; [|done].
      apply (rep_len _ _ _ _ _ _ _ _ Hr0) in Hx. simpl in Hx. lia. }
    pose proof (leaf_pte_leaf pa flags Hfl) as Hleaf.
    destruct (rep_set _ _ _ _ _ ts0 A0 root [vpn va 30; vpn va 21] r0 t0 (vpn va 12) (riscv_make_leaf_pte pa flags)
      Hr0 HA0 Ht0 Hno ltac:(simpl; lia) Hleaf) as [Hr' Hl].
    set (b' := mkPTS root (<[r0 := <[vpn va 12 := riscv_make_leaf_pte pa flags]> t0]> ts0)).
    exists b'. split; [done|]. split; [by exists A0|]. intros va'. case_decide as Hpg.
    + injection Hpg as H30 H21 H12. rewrite (walk_look b' A0 va' Hr'). unfold b'. cbn [pts_tables].
      rewrite !Hl, H30, H21, H12, decide_False, decide_True by done.
      by rewrite E0, E1, Hmega, Hleaf.
    + apply (walk_agree (mkPTS root ts) A b' A0); [done|done|]. intros p i Hin. unfold b'. cbn [pts_tables].
      rewrite Hl, decide_False.
      * rewrite E0, E1. split; [done|]. intros Hlf. rewrite F0 by (by rewrite E1). by apply F1.
      * intros [= -> ->]. apply Hpg. unfold page_of. rewrite !elem_of_cons in Hin.
        destruct Hin as [[=]|[[= E30 E21 E12]|Hin%elem_of_nil]]; [|done]. by rewrite E30, E21, E12.
Qed.

Lemma flat_tree_ok b : flat b → tree_ok b.
Proof. intros (A & ? & _). by exists A. Qed.

Lemma builder_new_flat : flat (builder_new fresh) ∧ ∀ va, sv39_walk (builder_new fresh) va = None.
Proof.
  destruct (rep_empty riscv_make_table_pte pte_leaf 2 1 page_address (fresh ∅) (fresh_page ∅)) as (Hr & Hl & HA).
  rewrite <- (insert_empty (M := gmap Z) (fresh ∅)) in Hr, Hl. split.
  - exists {[ [] := fresh ∅ ]}. split; [done|]. intros p ->%HA. simpl. lia.
  - intros va. rewrite (walk_look (builder_new fresh) _ va Hr). cbn [pts_tables builder_new new_page]. by rewrite !Hl.
Qed.

Lemma map_2m_spec b va pa flags :
  flat b → misaligned va pa (2 ^ 21) = false → leaf_flags flags →
  ∃ b', sv39_map_2m fresh b va pa flags = Ok b' ∧ flat b' ∧
    ∀ va', sv39_walk b' va' =
      if decide (vpn va' 30 = vpn va 30 ∧ vpn va' 21 = vpn va 21)
      then Some (true, riscv_make_leaf_pte pa flags) else sv39_walk b va'.
Proof.
  intros (A & Hr & Hflat) Hal Hfl. unfold sv39_map_2m. rewrite Hal. destruct b as [root ts].
  cbn [pts_tables pts_root_phys] in *.
  destruct (ensure ts A root [] root (vpn va 30)) as (r1 & ts1 & A1 & -> & Hr1 & E1 & F1 & K1 & G1 & C1 & _);
    [done|by apply (rep_root _ _ _ _ _ _ _ _ Hr)|simpl; lia|apply fresh_page|]. cbn [app mbind outcome_bind] in C1, G1 |- *.
  rewrite (no_leaf ts A root []) in C1 by (done || simpl; lia). destruct C1 as [Hpos1 HA1].
  destruct (rep_addr _ _ _ _ _ _ _ _ Hr1 _ _ HA1) as (_ & [t1 Ht1]).
  unfold set_entry, table. rewrite Ht1. cbn [unwrap mbind outcome_bind].
  assert (∀ p, is_Some (A1 !! p) → (length p ≤ 1)%nat) as Hflat1.
  { intros p [?| ->]%G1; [by apply Hflat|simpl; lia]. }
  assert (A1 !! ([vpn va 30] ++ [vpn va 21]) = None) as Hno.
  { destruct (A1 !! ([vpn va 30] ++ [vpn va 21])) eqn:Hx; [|done].
    specialize (Hflat1 _ (mk_is_Some _ _ Hx)). simpl in Hflat1. lia. }
  pose proof (leaf_pte_leaf pa flags Hfl) as Hleaf.
  destruct (rep_set _ _ _ _ _ ts1 A1 root [vpn va 30] r1 t1 (vpn va 21) (riscv_make_leaf_pte pa flags)
    Hr1 HA1 Ht1 Hno ltac:(simpl; lia) Hleaf) as [Hr' Hl].
  set (b' := mkPTS root (<[r1 := <[vpn va 21 := riscv_make_leaf_pte pa flags]> t1]> ts1)).
  exists b'. split; [done|]. split; [by exists A1|]. intros va'. case_decide as Hpg.
  - destruct Hpg as [H30 H21]. rewrite (walk_look b' A1 va' Hr'). unfold b'. cbn [pts_tables].
    by rewrite !Hl, H30, H21, decide_True, Hleaf by done.
  - apply (walk_agree (mkPTS root ts) A b' A1); [done|done|]. intros p i Hin. unfold b'. cbn [pts_tables].
    rewrite Hl, decide_False.
    + split; [by apply E1|by apply F1].
    + intros [= -> ->]. apply Hpg. rewrite !elem_of_cons in Hin.
      destruct Hin as [[= E30 E21]|[[=]|Hin%elem_of_nil]]; [|done]. done.
Qed.
End Sv39.
(** ** Addresses and their indices *)
Lemma vpn_div va k : 0 ≤ k → vpn va k = (va / 2 ^ k) mod 512.
Proof.
  intros. unfold vpn. rewrite Z.shiftr_div_pow2 by done. change 0x1ff with (Z.ones 9).
  by rewrite Z.land_ones by lia.
Qed.

Lemma mega_vpn a b :
  0 ≤ a < 2 ^ 39 → 0 ≤ b < 2 ^ 39 →
  (vpn a 30 = vpn b 30 ∧ vpn a 21 = vpn b 21) ↔ a / 2 ^ 21 = b / 2 ^ 21.
Proof.
  intros Ha Hb. rewrite !vpn_div by lia.
  change (2 ^ 30) with (2 ^ 21 * 512). rewrite <- !Z.div_div by lia.
  assert (∀ x, 0 ≤ x < 2 ^ 39 → 0 ≤ x / 2 ^ 21 < 512 * 512) as Hx.
  { intros x Hx. split; [apply Z.div_pos; lia|apply Z.div_lt_upper_bound; lia]. }
  pose proof (Hx a Ha). pose proof (Hx b Hb).
  generalize dependent (a / 2 ^ 21). generalize dependent (b / 2 ^ 21). clear. intros y ? x ?.
  Z.to_euclidean_division_equations. lia.
Qed.

Lemma page_of_inj a b :
  0 ≤ a < 2 ^ 39 → 0 ≤ b < 2 ^ 39 → page_of a = page_of b ↔ a / PAGE_SIZE = b / PAGE_SIZE.
Proof.
  intros Ha Hb. unfold page_of, PAGE_SIZE.
  assert (∀ x, x / 2 ^ 21 = x / 4096 / 512) as H21 by (intros; by rewrite Z.div_div by lia).
  split.
  - intros [= H1 H2 H3]. assert (a / 2 ^ 21 = b / 2 ^ 21) as Hm by (by apply mega_vpn).
    rewrite !vpn_div in H3 by lia. change (2 ^ 12) with 4096 in H3. rewrite !H21 in Hm.
    clear - Hm H3. Z.to_euclidean_division_equations. lia.
  - intros Hpg. assert (a / 2 ^ 21 = b / 2 ^ 21) as Hm by (by rewrite !H21, Hpg).
    apply mega_vpn in Hm as [-> ->]; [|done..]. f_equal.
    rewrite !vpn_div by lia. change (2 ^ 12) with 4096. by rewrite Hpg.
Qed.

Section Build.
Context (fresh : tables → Z) `{!PageHeap fresh}.

(** The builder of Sv39; the heap always has room. *)
#[export] Instance sv39_builder_laws :
  BuilderLaws (sv39_map_2m fresh) (sv39_map_4k fresh) sv39_walk (2 ^ 39) leaf_flags riscv_make_leaf_pte riscv_make_leaf_pte
    (fun _ => flat) (fun _ => tree_ok) (fun _ => True).
Proof.
  split; try done.
  - intros _ b. apply flat_tree_ok.
  - intros _ b va va' [A Hr] Hva Hva' Hpg. apply page_of_inj in Hpg as [= H30 H21 _]; [|done..].
    by rewrite !(in_mega_look b A) by done; rewrite H30, H21.
  - intros _ b va pa flags Hb _ Hal Hfl Hva. destruct (map_2m_spec fresh b va pa flags Hb Hal Hfl) as (b' & Hm & Hb' & Hw).
    exists b'. split_and!; [done|done|]. intros va' Hva'. rewrite Hw. apply decide_ext. by apply mega_vpn.
  - intros _ b va pa flags Hb _ Hal Hfl Hva. destruct (map_4k_spec fresh b va pa flags Hb Hal Hfl) as (b' & Hm & Hb' & Hw).
    exists b'. split_and!; [done|done|]. intros va' Hva'. rewrite Hw. apply decide_ext. by apply page_of_inj.
Qed.

(** A segment below the end of the lower half of Sv39 and outside the
    kernel image, and the entry of a page. *)
Abbreviation mappable := (mappable_in (2 ^ 39) 0x80000000 0x100000000).
Definition seg_pte (s : Segment) (va : Z) : Z := seg_entry riscv_make_leaf_pte riscv_segment_pte_flags s va.

Definition KERNEL_FLAGS : Z :=
  Z.lor RISCV_PTE_R (Z.lor RISCV_PTE_W (Z.lor RISCV_PTE_X (Z.lor RISCV_PTE_A RISCV_PTE_D))).
Definition MMIO_FLAGS : Z := Z.lor RISCV_PTE_R (Z.lor RISCV_PTE_W (Z.lor RISCV_PTE_A RISCV_PTE_D)).
Definition in_kernel_window (va : Z) : bool := (0x80000000 <=? va) && (va <? 0x100000000).
Definition in_mmio_window (va : Z) : bool := (0x02000000 <=? va) && (va <? 0x20000000).

Lemma kernel_windows_spec :
  ∃ b1 b2, map_identity_2m (sv39_map_2m fresh) (builder_new fresh) 0x80000000 0x100000000 KERNEL_FLAGS = Ok b1 ∧
    map_identity_2m (sv39_map_2m fresh) b1 RISCV_MMIO_BASE (RISCV_MMIO_BASE + RISCV_MMIO_SIZE) MMIO_FLAGS = Ok b2 ∧
    tree_ok b2 ∧
    ∀ va, 0 ≤ va < 2 ^ 39 → sv39_walk b2 va =
      if in_mmio_window va then Some (true, riscv_make_leaf_pte (va / 2 ^ 21 * 2 ^ 21) MMIO_FLAGS)
      else if in_kernel_window va then Some (true, riscv_make_leaf_pte (va / 2 ^ 21 * 2 ^ 21) KERNEL_FLAGS)
      else None.
Proof.
  destruct (builder_new_flat fresh) as [Hb0 Hw0]. pose proof sv39_builder_laws as Hl.
  destruct (map_identity_spec _ _ _ _ _ _ _ _ _ _ 0 (builder_new fresh) 0x80000000 0x100000000 KERNEL_FLAGS)
    as (b1 & Hm1 & Hb1 & Hw1); [done|done|by vm_compute|by exists 1024|by exists 2048|lia..|].
  destruct (map_identity_spec _ _ _ _ _ _ _ _ _ _ 0 b1 RISCV_MMIO_BASE (RISCV_MMIO_BASE + RISCV_MMIO_SIZE) MMIO_FLAGS)
    as (b2 & Hm2 & Hb2 & Hw2); [done|done|by vm_compute|by exists 16|by exists 256|unfold RISCV_MMIO_BASE, RISCV_MMIO_SIZE; lia..|].
  exists b1, b2. split_and!; [done|done|by apply flat_tree_ok|].
  intros va Hva. rewrite Hw2 by done.
  replace (in_mmio_window va) with (bool_decide (RISCV_MMIO_BASE ≤ va < RISCV_MMIO_BASE + RISCV_MMIO_SIZE))
    by apply window_decide.
  replace (in_kernel_window va) with (bool_decide (0x80000000 ≤ va < 0x100000000))
    by apply window_decide.
  case_bool_decide as Hm; [by rewrite decide_True|]. rewrite decide_False, Hw1, Hw0 by done.
  case_bool_decide as Hk; [by rewrite decide_True|by rewrite decide_False].
Qed.

Lemma windows_disjoint va : in_kernel_window va = true → in_mmio_window va = false.
Proof.
  unfold in_kernel_window, in_mmio_window. intros Hk. reflect_bools.
  apply andb_false_iff. right. apply Z.ltb_ge. lia.
Qed.


End Build.
Abbreviation mappable := (mappable_in (2 ^ 39) 0x80000000 0x100000000).

(** where physical memory is identity mapped, the byte the hardware
    reaches through a segment's pages is the byte the kernel reaches through
    [read_bytes] and [write_bytes]. *)
Theorem mmu_agrees_with_kernel `{HalMemory} s phys a p :
  (∀ q, phys_to_virt q = q) → mappable s phys → contains s a →
  (∀ vb vl ptr, storage s = Shared vb vl ptr → page_offset_of (seg_start s) ≤ ptr) →
  (∀ ptr hl, storage s = Host ptr hl → 0 ≤ ptr) →
  storage_ptr s (a - seg_start s) = Ok p →
  Z.shiftl (Z.shiftr (seg_pte s a) 10) 12 + a mod PAGE_SIZE = p.
Proof.
  intros Hid [Hp Hal Hst Hlen Htop Hpt Hu] Ha Hsh Hho Hptr.
  assert (Z.shiftl (Z.shiftr (seg_pte s a) 10) 12 = phys + (a / PAGE_SIZE * PAGE_SIZE - seg_lo s)) as ->.
  { unfold seg_pte, seg_entry, page_entry. rewrite Hp. simpl default.
    assert ((PAGE_SIZE | phys + (a / PAGE_SIZE * PAGE_SIZE - seg_lo s))) as Hd.
    { apply Z.divide_add_r; [done|]. apply Z.divide_sub_r; [apply Z.divide_factor_r|apply seg_lo_aligned]. }
    destruct Hd as [k ->]. set (f := riscv_segment_pte_flags _).
    assert (0 ≤ Z.lor f RISCV_PTE_V < 2 ^ 10) as Hb.
    { unfold f, riscv_segment_pte_flags.
      destruct (prot_bit (prot (area s)) 1), (prot_bit (prot (area s)) 2), (prot_bit (prot (area s)) 4); by vm_compute. }
    unfold riscv_make_leaf_pte. rewrite <- Z.lor_assoc.
    rewrite Z.shiftr_lor, Z.shiftr_shiftl_l, Z.shiftl_0_r by lia.
    rewrite (Z.shiftr_div_pow2 (Z.lor _ _)), (Z.div_small (Z.lor _ _)), Z.lor_0_r by lia.
    rewrite Z.shiftr_div_pow2, Z.shiftl_mul_pow2 by lia.
    unfold PAGE_SIZE. change (2 ^ 12) with 4096. by rewrite Z.div_mul by lia. }
  pose proof (Z.div_mod a PAGE_SIZE ltac:(done)).
  assert (page_offset_of (seg_start s) = seg_start s mod PAGE_SIZE) as Hpo by apply page_offset_mod.
  pose proof (page_offset_bound (seg_start s)).
  unfold segment_phys_base, storage_ptr in *. unfold seg_lo. fold (seg_start s) in *.
  unfold saturating_sub in Hp. destruct (storage s) as [pb n|vb vl ptr|ptr hl].
  - rewrite Hid in Hptr. inv_bind. lia.
  - specialize (Hsh _ _ _ eq_refl). inv_bind. lia.
  - specialize (Hho _ _ eq_refl). destruct (Z.eqb_spec (page_offset_of ptr) (page_offset_of (seg_start s))); [|done].
    rewrite page_offset_mod in e. pose proof (Z.mod_le ptr PAGE_SIZE Hho ltac:(done)).
    inv_bind. lia.
Qed.

(** ** Witnesses *)

(** A heap that hands out the page above all pages in use. *)
Definition bump_heap (ts : tables) : Z := 4096 * (1 + foldr Z.max 0 (map_to_list ts).*1).

#[export] Instance bump_heap_ok : PageHeap bump_heap.
Proof.
  assert (∀ l x, x ∈ l → x ≤ foldr Z.max 0 l) as Hmax.
  { intros l x. induction l as [|y l IH]; [by intros ?%elem_of_nil|].
    intros [->|Hx]%elem_of_cons; simpl; [lia|]. specialize (IH Hx). lia. }
  assert (∀ l, 0 ≤ foldr Z.max 0 l) as Hpos by (intros l; induction l; simpl; lia).
  split; intros ts; unfold bump_heap.
  - destruct (ts !! _) eqn:Hx; [|done]. exfalso.
    assert (4096 * (1 + foldr Z.max 0 (map_to_list ts).*1) ∈ (map_to_list ts).*1) as Hin.
    { apply list_elem_of_fmap. eexists (_, _). split; [|by apply elem_of_map_to_list]. done. }
    apply Hmax in Hin. specialize (Hpos (map_to_list ts).*1). lia.
  - specialize (Hpos (map_to_list ts).*1). split; [lia|apply Z.divide_factor_l].
Qed.

Lemma sample_mappable : mappable sample_host_seg 0x10000.
Proof.
  split; try by vm_compute.
  - by exists 16.
  - intros [[? _] _]. by vm_compute in H.
Qed.


Lemma mmu_agrees_with_kernel_witness :
  Z.shiftl (Z.shiftr (seg_pte sample_host_seg 0x11234) 10) 12 + 0x11234 mod PAGE_SIZE = 0x11234.
Proof.
  apply (@mmu_agrees_with_kernel (Build_HalMemory [] (fun q => q)) sample_host_seg 0x10000 0x11234).
  - done.
  - apply sample_mappable.
  - by vm_compute.
  - intros ? ? ? [=].
  - intros ? ? [= <- <-]. done.
  - by vm_compute.
Defined.

End Pt.
