(* ===== verification/PageLoong.v ===== *)
(** * Page tables of LoongArch and the TLB refill (crates/mm/src/lib.rs, crates/hal-loongarch64-virt/src/lib.rs)

    The handler of a TLB miss walks the page table with the instructions
    [lddir] and [ldpte], with the geometry that [init_loongarch_mmu] sets.  The
    tables that the kernel builds ([build_loongarch_page_table]) translate as
    the segments of the address space say. *)

From S2P Require Import Prelude AddrSpace PageTable.

Open Scope Z_scope.

Module PtLoong.
Import Mm Pt.

(** ** The walk *)
Definition LA_PWCL_VALUE : Z :=
  Z.lor (Z.lor (Z.lor (Z.lor (Z.lor 12 (9 ≪ 5)) (21 ≪ 10)) (9 ≪ 15)) (30 ≪ 20)) (9 ≪ 25).
Definition LA_PWCH_VALUE : Z := Z.lor (Z.lor 39 (9 ≪ 6)) (1 ≪ 24).

(** The fields of these registers: where the index of a level begins in the
    address and how wide it is. *)
Definition field (v lo width : Z) : Z := Z.land (v ≫ lo) (2 ^ width - 1).
Definition level_field (level : nat) : Z * Z :=
  match level with
  | 0%nat => (field LA_PWCL_VALUE 0 5, field LA_PWCL_VALUE 5 5)
  | 1%nat => (field LA_PWCL_VALUE 10 5, field LA_PWCL_VALUE 15 5)
  | 2%nat => (field LA_PWCL_VALUE 20 5, field LA_PWCL_VALUE 25 5)
  | _ => (field LA_PWCH_VALUE 0 6, field LA_PWCH_VALUE 6 6)
  end.
Definition level_index (level : nat) (va : Z) : Z := let '(base, width) := level_field level in Z.land (va ≫ base) (2 ^ width - 1).

(** [lddir rd, rj, level]: an entry that is a large page (bit 6) is passed on;
    otherwise the entry of the next table.  [None]: no table is there. *)
Definition huge_bit (e : Z) : bool := Z.testbit e 6.
Definition lddir (ts : tables) (va rj : Z) (level : nat) : option Z :=
  if huge_bit rj then Some rj else t ← ts !! rj; Some (entry t (level_index level va)).
(** What the handler puts into the TLB: an entry without a page, a large page,
    which [ldpte] cuts into two, or two pages next to each other. *)
Inductive refill := NoPage | LargePage (pte : Z) | TwoPages (even odd : Z).
Definition ldpte (ts : tables) (va rj : Z) : option refill :=
  if huge_bit rj then Some (LargePage rj)
  else
    t ← ts !! rj;
    let index := Z.land (level_index 0 va) (Z.lnot 1) in
    Some (TwoPages (entry t index) (entry t (index + 1))).
Definition tlb_refill (ts : tables) (pgd va : Z) : option refill :=
  t0 ← lddir ts va pgd 3;
  if t0 =? 0 then Some NoPage
  else
    t0 ← lddir ts va t0 2;
    if t0 =? 0 then Some NoPage
    else
      t0 ← lddir ts va t0 1;
      if t0 =? 0 then Some NoPage else ldpte ts va t0.

(** The translation by what is in the TLB then. *)
Definition la_valid (e : Z) : bool := Z.testbit e 0.
Definition la_walk (b : PageTableSpace) (va : Z) : option (bool * Z) :=
  match tlb_refill (pts_tables b) (pts_root_phys b) va with
  | Some (LargePage e) => if la_valid e then Some (true, e) else None
  | Some (TwoPages even odd) =>
      let e := if Z.testbit va 12 then odd else even in
      if la_valid e then Some (false, e) else None
  | _ => None
  end.

(** ** Entries *)
(** The geometry is that of the builder. *)
Lemma level_index_vpn va :
  level_index 3 va = vpn va 39 ∧ level_index 2 va = vpn va 30 ∧ level_index 1 va = vpn va 21 ∧ level_index 0 va = vpn va 12.
Proof. by split_and!. Qed.
Lemma even_odd va (t : gmap Z Z) (i := Z.land (level_index 0 va) (Z.lnot 1)) :
  (if Z.testbit va 12 then entry t (i + 1) else entry t i) = entry t (vpn va 12).
Proof.
  unfold i. replace (level_index 0 va) with (vpn va 12) by (symmetry; apply level_index_vpn).
  assert (Z.testbit va 12 = Z.testbit (vpn va 12) 0) as ->.
  { unfold vpn. rewrite Z.land_spec, Z.shiftr_spec by lia. change (Z.testbit 0x1ff 0) with true. by rewrite andb_true_r. }
  generalize (vpn va 12). intros k. change (Z.lnot 1) with (Z.lnot (Z.ones 1)). rewrite <- Z.ldiff_land, Z.ldiff_ones_r by lia.
  rewrite Z.shiftl_mul_pow2, Z.shiftr_div_pow2 by lia. change (2 ^ 1) with 2. rewrite Z.bit0_odd.
  pose proof (Z.div_mod k 2 ltac:(lia)) as Hd. rewrite Zmod_odd in Hd. destruct (Z.odd k); f_equal; lia.
Qed.

(** Addresses of tables that fit into an entry. *)
Definition low_page (q : Z) : Prop := 0 < q < 2 ^ 48 ∧ (PAGE_SIZE | q).
Lemma low_page_bits q k : low_page q → 0 ≤ k < 12 → Z.testbit q k = false.
Proof.
  intros [_ [c ->]] Hk. unfold PAGE_SIZE. change 4096 with (2 ^ 12). rewrite <- Z.shiftl_mul_pow2, Z.shiftl_spec by lia.
  by rewrite Z.testbit_neg_r by lia.
Qed.
Lemma table_pte_same q : low_page q → loong_make_table_pte q = q.
Proof.
  intros [Hq [c ->]]. unfold loong_make_table_pte, PAGE_SIZE in *. change 4096 with (2 ^ 12) in *.
  rewrite <- Z.shiftl_mul_pow2 by lia. change LA_PTE_ADDR_MASK with (Z.ones 36 ≪ 12).
  rewrite <- Z.shiftl_land, Z.land_ones, Z.mod_small by lia. done.
Qed.
Lemma table_facts q : low_page q →
  huge_bit (loong_make_table_pte q) = false ∧ la_valid (loong_make_table_pte q) = false ∧ (loong_make_table_pte q =? 0) = false ∧
  Z.land (loong_make_table_pte q) (Z.lor LA_PTE_P LA_PTE_V) = 0 ∧ Z.land (loong_make_table_pte q) (unot (PAGE_SIZE - 1)) = q.
Proof.
  intros Hq. rewrite (table_pte_same q Hq). unfold huge_bit, la_valid. rewrite !low_page_bits by (done || lia).
  split_and!; try done.
  - apply Z.eqb_neq. destruct Hq as [? _]. lia.
  - apply Z.bits_inj_0. intros k. rewrite Z.land_spec. destruct (Z.ltb_spec k 0); [by rewrite Z.testbit_neg_r|].
    destruct (Z.ltb_spec k 12); [by rewrite low_page_bits by (done || lia)|].
    rewrite (Z.bits_above_log2 (Z.lor LA_PTE_P LA_PTE_V)), andb_false_r; [done|done|].
    change (Z.log2 (Z.lor LA_PTE_P LA_PTE_V)) with 7. lia.
  - destruct Hq as [? [c Hc]]. change (PAGE_SIZE - 1) with (2 ^ 12 - 1). rewrite land_unot_pow2 by (unfold is_usize, USIZE_MAX; lia).
    rewrite Hc. unfold PAGE_SIZE. change (2 ^ 12) with 4096. rewrite Z.mod_mul by lia. lia.
Qed.

(** Flags of the leaf entries. *)
Definition la_flags (f : Z) : Prop := Z.testbit f 0 = true ∧ Z.testbit f 6 = false.
Definition la_small_pte : Z → Z → Z := loong_make_leaf_pte.
Definition la_mega_pte (pa flags : Z) : Z := loong_make_leaf_pte pa (Z.lor flags LA_PTE_GH).
Lemma small_pte_facts pa f : la_flags f → la_valid (la_small_pte pa f) = true.
Proof.
  intros [Hv _]. unfold la_valid, la_small_pte, loong_make_leaf_pte. rewrite Z.lor_spec, Z.land_spec, Hv. by rewrite orb_true_r.
Qed.
Lemma mega_pte_facts pa f : la_flags f → la_valid (la_mega_pte pa f) = true ∧ huge_bit (la_mega_pte pa f) = true.
Proof.
  intros [Hv _]. unfold la_valid, huge_bit, la_mega_pte, loong_make_leaf_pte. rewrite !Z.lor_spec, Hv.
  change (Z.testbit LA_PTE_GH 6) with true. by rewrite !orb_true_r.
Qed.
Lemma la_segment_flags prot : la_flags (loong_segment_pte_flags prot).
Proof.
  unfold loong_segment_pte_flags. by destruct (prot_bit prot 1), (prot_bit prot 2), (prot_bit prot 4).
Qed.

(** ** The tree of tables *)
(** What the kernel heap promises: a page that is not in use, and as long as
    there are fewer than [room] tables, one that an entry can name. *)
Class LowHeap (fresh : tables → Z) (room : nat) : Prop := {
  low_new : ∀ ts, ts !! fresh ts = None;
  low_fresh : ∀ ts, (size ts < room)%nat → low_page (fresh ts);
}.
Abbreviation la_rep := (tree_rep loong_make_table_pte la_valid 3 2 low_page).
Abbreviation dir3 va := (vpn va 39).
Abbreviation dir2 va := (vpn va 30).
Abbreviation dir1 va := (vpn va 21).
Abbreviation leaf_index va := (vpn va 12).

(** Leaves of the last directory are large pages. *)
Definition large_leaves (ts : tables) (A : gmap (list Z) Z) : Prop :=
  ∀ p i, length p = 2%nat → la_valid (look ts A p i) = true → huge_bit (look ts A p i) = true.

Section Walk.
Context (ts : tables) (A : gmap (list Z) Z) (root : Z) (Hr : la_rep ts A root).
Lemma addr_of p q : A !! p = Some q → low_page q ∧ is_Some (ts !! q).
Proof. apply (rep_addr _ _ _ _ _ _ _ _ Hr). Qed.
(** A step of the walk: into the next table, or to an entry that is empty or
    a leaf. *)
Lemma lddir_step va p q level : A !! p = Some q →
  lddir ts va q level = Some (look ts A p (level_index level va)) ∧
  match A !! (p ++ [level_index level va]) with
  | Some r => look ts A p (level_index level va) = r ∧ low_page r
  | None => look ts A p (level_index level va) = 0 ∨ ((2 ≤ length p)%nat ∧ la_valid (look ts A p (level_index level va)) = true)
  end.
Proof.
  intros Hp. destruct (addr_of p q Hp) as [Hq [t Ht]]. rewrite (look_eq ts A p q t) by done. split.
  - unfold lddir, huge_bit. rewrite low_page_bits by (done || lia). by rewrite Ht.
  - pose proof (rep_entry _ _ _ _ _ _ _ _ Hr p q t (level_index level va) Hp Ht) as He.
    destruct (A !! (p ++ [level_index level va])) as [r|] eqn:Hc; [|done].
    destruct (addr_of _ r Hc) as [Hg _]. by rewrite He, table_pte_same.
Qed.
Lemma no_child p i : A !! p = None → A !! (p ++ [i]) = None.
Proof.
  intros Hp. destruct (A !! (p ++ [i])) as [r|] eqn:Hc; [|done].
  apply (rep_prefix _ _ _ _ _ _ _ _ Hr) in Hc as [? ?]. congruence.
Qed.
Lemma look_none p i : A !! p = None → look ts A p i = 0. Proof. intros Hp. unfold look. by rewrite Hp. Qed.
Lemma no_page r : low_page r → (r =? 0) = false ∧ huge_bit r = false.
Proof. intros Hl. split; [apply Z.eqb_neq; destruct Hl; lia|]. unfold huge_bit. by rewrite low_page_bits by (done || lia). Qed.

(** The walk reads the leaf entries of the tree. *)
Lemma la_walk_look va : large_leaves ts A →
  la_walk (mkPTS root ts) va =
  let e1 := look ts A [dir3 va; dir2 va] (dir1 va) in
  if la_valid e1 then Some (true, e1)
  else let e0 := look ts A [dir3 va; dir2 va; dir1 va] (leaf_index va) in
       if la_valid e0 then Some (false, e0) else None.
Proof.
  intros Hlarge. unfold la_walk, tlb_refill. cbn [pts_tables pts_root_phys].
  destruct (level_index_vpn va) as (L3 & L2 & L1 & L0).
  destruct (lddir_step va [] root 3 (rep_root _ _ _ _ _ _ _ _ Hr)) as [-> H3]. rewrite L3 in H3. cbn [app] in H3.
  cbn [mbind option_bind]. rewrite L3. destruct (A !! [dir3 va]) as [q2|] eqn:Hq2.
  2: { destruct H3 as [->|[? _]]; [|simpl in *; lia]. cbn. pose proof (no_child [dir3 va] (dir2 va) Hq2) as Hq1.
       pose proof (no_child _ (dir1 va) Hq1) as Hq0. cbn [app] in Hq1, Hq0. by rewrite !look_none. }
  destruct H3 as [-> Hl2]. destruct (no_page q2 Hl2) as [-> _].
  destruct (lddir_step va [dir3 va] q2 2 Hq2) as [-> H2]. rewrite L2 in H2. cbn [app] in H2. cbn [mbind option_bind]. rewrite L2.
  destruct (A !! [dir3 va; dir2 va]) as [q1|] eqn:Hq1.
  2: { destruct H2 as [->|[? _]]; [|simpl in *; lia]. cbn. pose proof (no_child _ (dir1 va) Hq1) as Hq0. cbn [app] in Hq0. by rewrite !look_none. }
  destruct H2 as [-> Hl1]. destruct (no_page q1 Hl1) as [-> _].
  destruct (lddir_step va [dir3 va; dir2 va] q1 1 Hq1) as [-> H1]. rewrite L1 in H1. cbn [app] in H1. cbn [mbind option_bind]. rewrite L1.
  destruct (A !! [dir3 va; dir2 va; dir1 va]) as [q0|] eqn:Hq0.
  - destruct H1 as [-> Hl0]. destruct (no_page q0 Hl0) as [-> Hh0]. destruct (addr_of _ _ Hq0) as [_ [t Ht]].
    assert (la_valid q0 = false) as -> by (unfold la_valid; by rewrite low_page_bits by (done || lia)).
    unfold ldpte. rewrite Hh0, Ht. cbn [mbind option_bind]. rewrite even_odd, (look_eq ts A _ q0 t) by done. done.
  - rewrite (look_none [dir3 va; dir2 va; dir1 va]) by done. destruct H1 as [->|[_ Hv]]; [done|].
    pose proof (Hlarge [dir3 va; dir2 va] (dir1 va) eq_refl Hv) as Hh. unfold ldpte. rewrite Hv, Hh.
    assert ((look ts A [dir3 va; dir2 va] (dir1 va) =? 0) = false) as ->; [|by rewrite Hv].
    apply Z.eqb_neq. intros Hz. by rewrite Hz in Hv.
Qed.
End Walk.

(** ** The builder *)
Section Builder.
Context (fresh : tables → Z) (room : nat) `{Hheap : !LowHeap fresh room}.

#[local] Instance la_ensure_laws : EnsureLaws loong_make_table_pte la_valid low_page fresh (loong_ensure_next_table fresh).
Proof.
  assert (∀ ts q t i, ts !! q = Some t → loong_ensure_next_table fresh ts q i =
    if entry t i =? 0 then (let '(n, ts') := new_page fresh ts in ts'' ← set_entry ts' q i (loong_make_table_pte n); Ok (n, ts''))
    else if negb (Z.land (entry t i) (Z.lor LA_PTE_P LA_PTE_V) =? 0) then Ok (0, ts)
    else Ok (Z.land (entry t i) (unot (PAGE_SIZE - 1)), ts)) as He.
  { intros ts q t i Ht. unfold loong_ensure_next_table, table. by rewrite Ht. }
  split.
  - intros ts q t i r Ht Hr Hi. rewrite (He _ _ t), Hi by done. by destruct (table_facts r Hr) as (_ & _ & -> & -> & ->).
  - intros ts q t i Ht Hi. by rewrite (He _ _ t), Hi.
  - intros ts q t i Ht Hv. rewrite (He _ _ t) by done. destruct (Z.eqb_spec (entry t i) 0) as [H0|_]; [by rewrite H0 in Hv|].
    destruct (Z.eqb_spec (Z.land (entry t i) (Z.lor LA_PTE_P LA_PTE_V)) 0) as [H0|_]; [|done].
    assert (Z.testbit (Z.land (entry t i) (Z.lor LA_PTE_P LA_PTE_V)) 0 = true) as Hb; [|by rewrite H0 in Hb].
    rewrite Z.land_spec. unfold la_valid in Hv. by rewrite Hv.
  - apply (low_new (room := room)).
  - intros q Hq. by destruct (table_facts q Hq) as (_ & -> & _).
  - done.
  - by intros q [[? _] _].
Qed.

(** At most [n] tables, with leaves in their places. *)
Definition la_ok (n : nat) (b : PageTableSpace) : Prop :=
  ∃ A, la_rep (pts_tables b) A (pts_root_phys b) ∧ large_leaves (pts_tables b) A ∧ (size (pts_tables b) ≤ n)%nat.
Definition la_flat (n : nat) (b : PageTableSpace) : Prop :=
  ∃ A, la_rep (pts_tables b) A (pts_root_phys b) ∧ large_leaves (pts_tables b) A ∧ (size (pts_tables b) ≤ n)%nat ∧
    ∀ p, is_Some (A !! p) → (length p ≤ 2)%nat.
Abbreviation la_mega := (mega la_walk).
Abbreviation la_ensure := (ensure_spec loong_make_table_pte la_valid 3 2 low_page fresh (loong_ensure_next_table fresh)).
Abbreviation la_no_leaf := (look_no_leaf loong_make_table_pte la_valid 3 2 low_page fresh (loong_ensure_next_table fresh)).

(** The first two levels have no leaves: the builder finds or makes the
    tables there. *)
Lemma ensure_dirs ts A root va n :
  la_rep ts A root → large_leaves ts A → (size ts ≤ n)%nat → (n + 2 ≤ room)%nat →
  ∃ r2 ts2 r1 ts1 A1, loong_ensure_next_table fresh ts root (dir3 va) = Ok (r2, ts2) ∧ (r2 =? 0) = false ∧
    loong_ensure_next_table fresh ts2 r2 (dir2 va) = Ok (r1, ts1) ∧ (r1 =? 0) = false ∧
    la_rep ts1 A1 root ∧ large_leaves ts1 A1 ∧ (size ts1 ≤ n + 2)%nat ∧
    (∀ p i, la_valid (look ts1 A1 p i) = la_valid (look ts A p i)) ∧
    (∀ p i, la_valid (look ts A p i) = true → look ts1 A1 p i = look ts A p i) ∧
    (∀ p, is_Some (A1 !! p) → is_Some (A !! p) ∨ (length p ≤ 2)%nat) ∧ A1 !! [dir3 va; dir2 va] = Some r1.
Proof.
  intros Hr Hl Hs Hroom.
  destruct (la_ensure ts A root [] root (dir3 va)) as (r2 & ts2 & A2 & E2 & Hr2 & V2 & F2 & _ & G2 & C2 & S2);
    [done|apply (rep_root _ _ _ _ _ _ _ _ Hr)|simpl; lia|apply (low_fresh (room := room)); lia|].
  rewrite (la_no_leaf ts A root []) in C2 by (done || simpl; lia). destruct C2 as [P2 HA2].
  destruct (la_ensure ts2 A2 root [dir3 va] r2 (dir2 va)) as (r1 & ts1 & A1 & E1 & Hr1 & V1 & F1 & _ & G1 & C1 & S1);
    [done|done|simpl; lia|apply (low_fresh (room := room)); lia|].
  rewrite (la_no_leaf ts2 A2 root [dir3 va]) in C1 by (done || simpl; lia). destruct C1 as [P1 HA1].
  assert (∀ p i, la_valid (look ts A p i) = true → look ts1 A1 p i = look ts A p i) as F.
  { intros p i Hv. rewrite F1 by (by rewrite V2). by apply F2. }
  assert (∀ p i, la_valid (look ts1 A1 p i) = la_valid (look ts A p i)) as V by (intros; by rewrite V1, V2).
  exists r2, ts2, r1, ts1, A1. split_and!; try done; [apply Z.eqb_neq; lia|apply Z.eqb_neq; lia| |lia|].
  - intros p i Hp Hv. rewrite V in Hv. rewrite F by done. by apply Hl.
  - intros p [Hp| ->]%G1; [|right; simpl; lia]. apply G2 in Hp as [Hp| ->]; [by left|right; simpl; lia].
Qed.

Lemma la_mega_look b A va : la_rep (pts_tables b) A (pts_root_phys b) → large_leaves (pts_tables b) A →
  la_mega b va = la_valid (look (pts_tables b) A [dir3 va; dir2 va] (dir1 va)).
Proof.
  intros Hr Hl. destruct b as [root ts]. unfold mega. rewrite (la_walk_look ts A root Hr va Hl). simpl.
  destruct (la_valid (look _ _ [_; _] _)); [done|]. by destruct (la_valid _).
Qed.
(** Two trees whose leaf entries agree at [va] translate it alike. *)
Lemma la_walk_agree ts A ts' A' root va :
  la_rep ts A root → la_rep ts' A' root → large_leaves ts A → large_leaves ts' A' →
  (∀ p i, (p, i) = ([dir3 va; dir2 va], dir1 va) ∨ (p, i) = ([dir3 va; dir2 va; dir1 va], leaf_index va) →
     la_valid (look ts' A' p i) = la_valid (look ts A p i) ∧
     (la_valid (look ts A p i) = true → look ts' A' p i = look ts A p i)) →
  la_walk (mkPTS root ts') va = la_walk (mkPTS root ts) va.
Proof.
  intros Hr Hr' Hl Hl' Hag. rewrite (la_walk_look ts A root Hr va Hl), (la_walk_look ts' A' root Hr' va Hl'). simpl.
  destruct (Hag [dir3 va; dir2 va] (dir1 va)) as [E1 F1]; [by left|].
  destruct (Hag [dir3 va; dir2 va; dir1 va] (leaf_index va)) as [E0 F0]; [by right|].
  rewrite E1, E0. destruct (la_valid (look ts A [_; _] _)); [by rewrite F1|].
  destruct (la_valid (look ts A [_; _; _] _)); [by rewrite F0|done].
Qed.

(** A leaf written below the directories that [ensure_dirs] found. *)
Lemma written_leaf ts A ts1 A1 root p q i pte n :
  la_rep ts1 A1 root → large_leaves ts1 A1 → (size ts1 ≤ n)%nat →
  (∀ p i, la_valid (look ts1 A1 p i) = la_valid (look ts A p i)) →
  (∀ p i, la_valid (look ts A p i) = true → look ts1 A1 p i = look ts A p i) →
  A1 !! p = Some q → A1 !! (p ++ [i]) = None → (2 ≤ length p)%nat → la_valid pte = true → (length p = 2%nat → huge_bit pte = true) →
  ∃ ts', set_entry ts1 q i pte = Ok ts' ∧ la_rep ts' A1 root ∧ large_leaves ts' A1 ∧ (size ts' ≤ n)%nat ∧
    look ts' A1 p i = pte ∧
    ∀ p' i', (p', i') ≠ (p, i) → la_valid (look ts' A1 p' i') = la_valid (look ts A p' i') ∧
      (la_valid (look ts A p' i') = true → look ts' A1 p' i' = look ts A p' i').
Proof.
  intros Hr Hl Hs V F Hp Hno Hlen Hv Hh. destruct (rep_addr _ _ _ _ _ _ _ _ Hr _ _ Hp) as (_ & [t Ht]).
  unfold set_entry, table. rewrite Ht. cbn [unwrap mbind outcome_bind].
  destruct (rep_set _ _ _ _ _ ts1 A1 root p q t i pte Hr Hp Ht Hno Hlen Hv) as [Hr' Hlk].
  exists (<[q := <[i := pte]> t]> ts1). split; [done|]. split_and!.
  - done.
  - intros p' i' Hp' Hv'. rewrite Hlk in *. case_decide as Hd; [injection Hd as -> ->; by apply Hh|by apply Hl].
  - rewrite map_size_insert_Some by eauto. done.
  - rewrite Hlk. by rewrite decide_True.
  - intros p' i' Hne. rewrite Hlk, decide_False by done. split; [apply V|apply F].
Qed.

Lemma la_map_4k_spec n b va pa flags :
  la_ok n b → (n + 3 ≤ room)%nat → misaligned va pa PAGE_SIZE = false → la_flags flags →
  ∃ b', loong_map_4k fresh b va pa flags = Ok b' ∧ la_ok (n + 3) b' ∧
    ∀ va', la_walk b' va' =
      if decide ((dir3 va', dir2 va', dir1 va', leaf_index va') = (dir3 va, dir2 va, dir1 va, leaf_index va)) then
        if la_mega b va then la_walk b va' else Some (false, la_small_pte pa flags)
      else la_walk b va'.
Proof.
  intros (A & Hr & Hl & Hs) Hroom Hal Hfl. destruct b as [root ts]. cbn [pts_tables pts_root_phys] in *.
  destruct (ensure_dirs ts A root va n Hr Hl Hs ltac:(lia)) as (r2 & ts2 & r1 & ts1 & A1 & E2 & P2 & E1 & P1 & Hr1 & Hl1 & Hs1 & V & F & _ & HA1).
  unfold loong_map_4k. rewrite Hal. cbn [pts_tables pts_root_phys]. rewrite E2. cbn [mbind outcome_bind]. rewrite P2, E1. cbn [mbind outcome_bind]. rewrite P1.
  destruct (la_ensure ts1 A1 root [dir3 va; dir2 va] r1 (dir1 va)) as (r0 & ts0 & A0 & -> & Hr0 & V0 & F0 & _ & _ & C0 & S0);
    [done|done|simpl; lia|apply (low_fresh (room := room)); lia|]. cbn [app mbind outcome_bind] in C0 |- *.
  assert (∀ p i, la_valid (look ts0 A0 p i) = la_valid (look ts A p i)) as V' by (intros; by rewrite V0, V).
  assert (∀ p i, la_valid (look ts A p i) = true → look ts0 A0 p i = look ts A p i) as F'.
  { intros p i Hv. rewrite F0 by (by rewrite V). by apply F. }
  assert (large_leaves ts0 A0) as Hl0.
  { intros p i Hp Hv. rewrite V' in Hv. rewrite F' by done. by apply Hl. }
  rewrite (la_mega_look (mkPTS root ts) A va Hr Hl). cbn [pts_tables]. rewrite V in C0.
  destruct (la_valid (look ts A [dir3 va; dir2 va] (dir1 va))) eqn:Hmega.
  - destruct C0 as [-> _]. eexists. split; [done|]. split; [exists A0; split_and!; [done|done|simpl; lia]|].
    intros va'. assert (la_walk (mkPTS root ts0) va' = la_walk (mkPTS root ts) va') as ->; [|by case_decide].
    apply (la_walk_agree ts A ts0 A0); [done..|]. intros p i _. split; [apply V'|apply F'].
  - destruct C0 as [Hpos0 HA0]. rewrite (proj2 (Z.eqb_neq r0 0)) by lia.
    change (loong_make_leaf_pte pa flags) with (la_small_pte pa flags).
    destruct (written_leaf ts A ts0 A0 root [dir3 va; dir2 va; dir1 va] r0 (leaf_index va) (la_small_pte pa flags) (n + 3))
      as (ts' & -> & Hr' & Hl' & Hs' & Hnew & Hold);
      [exact Hr0|exact Hl0|lia|exact V'|exact F'|exact HA0| |simpl; lia|by apply small_pte_facts|done|].
    { destruct (A0 !! ([dir3 va; dir2 va; dir1 va] ++ [leaf_index va])) eqn:Hx; [|done].
      apply (rep_len _ _ _ _ _ _ _ _ Hr0) in Hx. simpl in Hx. lia. }
    cbn [mbind outcome_bind]. eexists. split; [done|]. split; [by exists A0|]. intros va'. case_decide as Hpg.
    + injection Hpg as H39 H30 H21 H12. rewrite (la_walk_look ts' A0 root Hr' va' Hl'). cbv zeta. rewrite H39, H30, H21, H12, Hnew.
      rewrite (proj1 (Hold [dir3 va; dir2 va] (dir1 va) ltac:(done))), Hmega. by rewrite small_pte_facts.
    + apply (la_walk_agree ts A ts' A0); [done..|]. intros p i Hin. apply Hold. intros [= -> ->].
      destruct Hin as [[=]|[= H39 H30 H21 H12]]. apply Hpg. by rewrite H39, H30, H21, H12.
Qed.

Lemma la_map_2m_spec n b va pa flags :
  la_flat n b → (n + 2 ≤ room)%nat → misaligned va pa (2 ^ 21) = false → la_flags flags →
  ∃ b', loong_map_2m fresh b va pa flags = Ok b' ∧ la_flat (n + 2) b' ∧
    ∀ va', la_walk b' va' =
      if decide ((dir3 va', dir2 va', dir1 va') = (dir3 va, dir2 va, dir1 va)) then Some (true, la_mega_pte pa flags) else la_walk b va'.
Proof.
  intros (A & Hr & Hl & Hs & Hflat) Hroom Hal Hfl. destruct b as [root ts]. cbn [pts_tables pts_root_phys] in *.
  destruct (ensure_dirs ts A root va n Hr Hl Hs ltac:(lia)) as (r2 & ts2 & r1 & ts1 & A1 & E2 & P2 & E1 & P1 & Hr1 & Hl1 & Hs1 & V & F & G & HA1).
  unfold loong_map_2m. rewrite Hal. cbn [pts_tables pts_root_phys]. rewrite E2. cbn [mbind outcome_bind]. rewrite P2, E1. cbn [mbind outcome_bind]. rewrite P1.
  assert (∀ p, is_Some (A1 !! p) → (length p ≤ 2)%nat) as Hflat1 by (intros p [?|?]%G; auto).
  change (loong_make_leaf_pte pa (Z.lor flags LA_PTE_GH)) with (la_mega_pte pa flags).
  destruct (written_leaf ts A ts1 A1 root [dir3 va; dir2 va] r1 (dir1 va) (la_mega_pte pa flags) (n + 2))
    as (ts' & -> & Hr' & Hl' & Hs' & Hnew & Hold);
    [exact Hr1|exact Hl1|lia|exact V|exact F|exact HA1| |simpl; lia|by apply mega_pte_facts|intros _; by apply mega_pte_facts|].
  { destruct (A1 !! ([dir3 va; dir2 va] ++ [dir1 va])) eqn:Hx; [|done]. specialize (Hflat1 _ (mk_is_Some _ _ Hx)). simpl in Hflat1. lia. }
  cbn [mbind outcome_bind]. eexists. split; [done|]. split; [by exists A1|]. intros va'. case_decide as Hpg.
  - injection Hpg as H39 H30 H21. rewrite (la_walk_look ts' A1 root Hr' va' Hl'). cbv zeta. rewrite H39, H30, H21, Hnew.
    by rewrite (proj1 (mega_pte_facts pa flags Hfl)).
  - apply (la_walk_agree ts A ts' A1); [done..|]. intros p i Hin. apply Hold. intros [= -> ->].
    destruct Hin as [[= H39 H30 H21]|[=]]. apply Hpg. by rewrite H39, H30, H21.
Qed.

(** ** The table of an address space *)
(** Addresses of programs lie in the lower half of 48 bits, whose root is
    [PGDL]. *)
Definition USER_TOP : Z := 2 ^ 47.
Lemma dirs_inj a b : 0 ≤ a < USER_TOP → 0 ≤ b < USER_TOP →
  (dir3 a, dir2 a, dir1 a) = (dir3 b, dir2 b, dir1 b) ↔ a / 2 ^ 21 = b / 2 ^ 21.
Proof.
  intros Ha Hb. rewrite !vpn_div by lia.
  change (2 ^ 39) with (2 ^ 21 * 512 * 512). change (2 ^ 30) with (2 ^ 21 * 512). rewrite <- !Z.div_div by lia.
  assert (∀ x, 0 ≤ x < USER_TOP → 0 ≤ x / 2 ^ 21 < 512 * 512 * 512) as Hx.
  { intros x Hx. unfold USER_TOP in Hx. split; [apply Z.div_pos; lia|apply Z.div_lt_upper_bound; lia]. }
  pose proof (Hx a Ha). pose proof (Hx b Hb).
  generalize dependent (a / 2 ^ 21). generalize dependent (b / 2 ^ 21). clear. intros y ? x ?.
  split; [intros [= H1 H2 H3]|by intros ->]. Z.to_euclidean_division_equations. lia.
Qed.
Lemma leaf_inj a b : 0 ≤ a < USER_TOP → 0 ≤ b < USER_TOP →
  (dir3 a, dir2 a, dir1 a, leaf_index a) = (dir3 b, dir2 b, dir1 b, leaf_index b) ↔ a / PAGE_SIZE = b / PAGE_SIZE.
Proof.
  intros Ha Hb. assert (∀ x, x / 2 ^ 21 = x / PAGE_SIZE / 512) as H21 by (intros; unfold PAGE_SIZE; by rewrite Z.div_div by lia).
  assert (∀ x, leaf_index x = (x / PAGE_SIZE) mod 512) as Hlf by (intros; by rewrite vpn_div by lia).
  pose proof (dirs_inj a b Ha Hb) as Hd. rewrite !H21 in Hd. rewrite !Hlf. split.
  - intros [= H1 H2 H3 H4]. assert (a / PAGE_SIZE / 512 = b / PAGE_SIZE / 512) as Hq by (apply Hd; congruence).
    rewrite (Z.div_mod (a / PAGE_SIZE) 512), (Z.div_mod (b / PAGE_SIZE) 512) by lia. lia.
  - intros Hp. rewrite Hp in Hd |- *. destruct Hd as [_ Hd]. by injection (Hd eq_refl) as -> -> ->.
Qed.

#[local] Instance la_builder_laws :
  BuilderLaws (loong_map_2m fresh) (loong_map_4k fresh) la_walk USER_TOP la_flags la_mega_pte la_small_pte
    la_flat la_ok (fun n => (n ≤ room)%nat).
Proof.
  split.
  - unfold USER_TOP. lia.
  - lia.
  - intros n b (A & Hr & Hl & Hs & _). by exists A.
  - intros n b va va' (A & Hr & Hl & _) Hva Hva' Hpg. apply leaf_inj in Hpg as [= H39 H30 H21 _]; [|done..].
    by rewrite !(la_mega_look b A) by done; rewrite H39, H30, H21.
  - intros n b va pa flags Hb Hn Hal Hfl Hva. destruct (la_map_2m_spec n b va pa flags Hb Hn Hal Hfl) as (b' & Hm & Hb' & Hw).
    exists b'. split_and!; [done|done|]. intros va' Hva'. rewrite Hw. apply decide_ext. by apply dirs_inj.
  - intros n b va pa flags Hb Hn Hal Hfl Hva. destruct (la_map_4k_spec n b va pa flags Hb Hn Hal Hfl) as (b' & Hm & Hb' & Hw).
    exists b'. split_and!; [done|done|]. intros va' Hva'. rewrite Hw. apply decide_ext. by apply leaf_inj.
Qed.

Lemma la_builder_new : (0 < room)%nat → la_flat 1 (builder_new fresh) ∧ ∀ va, la_walk (builder_new fresh) va = None.
Proof.
  intros Hroom. assert (low_page (fresh ∅)) as Hlow by (apply (low_fresh (room := room)); rewrite map_size_empty; lia).
  destruct (rep_empty loong_make_table_pte la_valid 3 2 low_page (fresh ∅) Hlow) as (Hr & Hl & HA).
  rewrite <- (insert_empty (M := gmap Z) (fresh ∅)) in Hr, Hl.
  assert (large_leaves (<[fresh ∅ := ∅]> ∅) {[ [] := fresh ∅ ]}) as Hlarge by (intros p i _ Hv; by rewrite Hl in Hv).
  split.
  - exists {[ [] := fresh ∅ ]}. split_and!; [done|done| |intros p ->%HA; simpl; lia].
    cbn [pts_tables builder_new new_page]. rewrite map_size_insert_None, map_size_empty by done. lia.
  - intros va. change (builder_new fresh) with (mkPTS (fresh ∅) (<[fresh ∅ := ∅]> ∅)).
    rewrite (la_walk_look _ _ _ Hr va Hlarge). by rewrite !Hl.
Qed.

Definition LA_KERNEL_FLAGS : Z := loong_kernel_pte_flags true true true false.
Definition LA_MMIO_FLAGS : Z := loong_kernel_pte_flags true true false true.
Definition la_kernel_window (va : Z) : bool := (LOONGARCH_PHYS_BASE <=? va) && (va <? LOONGARCH_PHYS_BASE + LOONGARCH_PHYS_SIZE).
Definition la_mmio_window (va : Z) : bool := (LOONGARCH_MMIO_BASE <=? va) && (va <? LOONGARCH_MMIO_BASE + LOONGARCH_MMIO_SIZE).
(** Tables for the root and the two windows: two for each large page, as
    counted by [bl_2m], are more than enough. *)
Definition WINDOW_TABLES : nat := 1 + 2 * 256 + 2 * 128.

Lemma la_windows_spec : (WINDOW_TABLES ≤ room)%nat →
  ∃ b1 b2, map_identity_2m (loong_map_2m fresh) (builder_new fresh) LOONGARCH_PHYS_BASE (LOONGARCH_PHYS_BASE + LOONGARCH_PHYS_SIZE)
      LA_KERNEL_FLAGS = Ok b1 ∧
    map_identity_2m (loong_map_2m fresh) b1 LOONGARCH_MMIO_BASE (LOONGARCH_MMIO_BASE + LOONGARCH_MMIO_SIZE) LA_MMIO_FLAGS = Ok b2 ∧
    la_ok WINDOW_TABLES b2 ∧
    ∀ va, 0 ≤ va < USER_TOP → la_walk b2 va =
      if la_mmio_window va then Some (true, la_mega_pte (va / 2 ^ 21 * 2 ^ 21) LA_MMIO_FLAGS)
      else if la_kernel_window va then Some (true, la_mega_pte (va / 2 ^ 21 * 2 ^ 21) LA_KERNEL_FLAGS)
      else None.
Proof.
  unfold WINDOW_TABLES. intros Hroom. destruct (la_builder_new ltac:(lia)) as [Hb0 Hw0]. pose proof la_builder_laws as Hl.
  destruct (map_identity_spec _ _ _ _ _ _ _ _ _ _ 1 (builder_new fresh) LOONGARCH_PHYS_BASE (LOONGARCH_PHYS_BASE + LOONGARCH_PHYS_SIZE)
    LA_KERNEL_FLAGS Hb0) as (b1 & Hm1 & Hb1 & Hw1);
    [change (Z.to_nat _) with 256%nat; lia|done|by exists 1152|by exists 1408|done|done|done|].
  destruct (map_identity_spec _ _ _ _ _ _ _ _ _ _ _ b1 LOONGARCH_MMIO_BASE (LOONGARCH_MMIO_BASE + LOONGARCH_MMIO_SIZE)
    LA_MMIO_FLAGS Hb1) as (b2 & Hm2 & Hb2 & Hw2);
    [change (Z.to_nat ((LOONGARCH_MMIO_BASE + LOONGARCH_MMIO_SIZE - _) / _)) with 128%nat; change (Z.to_nat _) with 256%nat; lia
    |done|by exists 128|by exists 256|done|done|done|].
  exists b1, b2. split_and!; [done|done| |].
  - destruct Hb2 as (A & ? & ? & Hs & _). exists A. split_and!; try done.
  - intros va Hva. rewrite Hw2 by done.
    replace (la_mmio_window va) with (bool_decide (LOONGARCH_MMIO_BASE ≤ va < LOONGARCH_MMIO_BASE + LOONGARCH_MMIO_SIZE)) by apply window_decide.
    replace (la_kernel_window va) with (bool_decide (LOONGARCH_PHYS_BASE ≤ va < LOONGARCH_PHYS_BASE + LOONGARCH_PHYS_SIZE)) by apply window_decide.
    case_bool_decide as Hm; [by rewrite decide_True|]. rewrite decide_False, Hw1, Hw0 by done.
    case_bool_decide as Hk; [by rewrite decide_True|by rewrite decide_False].
Qed.

Abbreviation la_mappable := (mappable_in USER_TOP LOONGARCH_PHYS_BASE (LOONGARCH_PHYS_BASE + LOONGARCH_PHYS_SIZE)).
(** The entry of a user page: its frame and the flags of its protection. *)
Definition la_seg_pte (s : Segment) (va : Z) : Z := seg_entry la_small_pte loong_segment_pte_flags s va.

End Builder.

(** ** A heap *)
(** The first page after address 0 that is not in use. *)
Fixpoint first_free (fuel : nat) (q : Z) (ts : tables) : Z :=
  match fuel with
  | O => q
  | S fuel' => match ts !! q with Some _ => first_free fuel' (q + PAGE_SIZE) (delete q ts) | None => q end
  end.
Definition page_heap (ts : tables) : Z := first_free (size ts) PAGE_SIZE ts.
Lemma first_free_spec fuel q ts : (size ts ≤ fuel)%nat →
  ts !! first_free fuel q ts = None ∧ ∃ k, first_free fuel q ts = q + Z.of_nat k * PAGE_SIZE ∧ (k ≤ size ts)%nat.
Proof.
  revert q ts. induction fuel as [|fuel IH]; intros q ts Hs; cbn [first_free].
  { assert (ts = ∅) as -> by (apply map_size_empty_inv; lia). split; [done|]. exists 0%nat. lia. }
  destruct (ts !! q) as [t|] eqn:Hq; [|by split; [|exists 0%nat; lia]].
  assert (size ts = S (size (delete q ts))) as Hsz.
  { rewrite <- (insert_delete_id ts q t) at 1 by done. apply map_size_insert_None, lookup_delete_eq. }
  destruct (IH (q + PAGE_SIZE) (delete q ts) ltac:(lia)) as (Hn & k & Hk & Hkl). split.
  - rewrite lookup_delete_ne in Hn; [done|]. rewrite Hk. unfold PAGE_SIZE. lia.
  - exists (S k). rewrite Hk. unfold PAGE_SIZE. lia.
Qed.
#[export] Instance page_heap_low : LowHeap page_heap (Z.to_nat (2 ^ 20)).
Proof.
  split; intros ts; unfold page_heap; destruct (first_free_spec (size ts) PAGE_SIZE ts ltac:(done)) as (Hn & k & Hk & Hkl); [done|].
  intros Hs. rewrite Hk. unfold low_page, PAGE_SIZE. split; [lia|]. exists (1 + Z.of_nat k). lia.
Qed.

End PtLoong.
