(* ===== verification/Elf.v ===== *)
(** * Program loading (crates/mm/src/lib.rs, last part)

    ELF headers, mapping of PT_LOAD segments with the load bias of position
    independent images, and the initial user stack.  Images and strings are
    byte lists. *)

From S2P Require Import Prelude AddrSpace.

Module Elf.
Import Mm.

(** ** Little-endian fields *)
Definition slice_of (bytes : list Z) (off n : Z) : list Z :=
  take (Z.to_nat n) (drop (Z.to_nat off) bytes).

Definition read_le (n : Z) (bytes : list Z) (offset : Z) : outcome Z :=
  e ← uadd offset n;
  if Z.of_nat (length bytes) <? e then Err ENOEXEC
  else Ok (from_le_bytes (slice_of bytes offset n)).

Definition read_u16 : list Z → Z → outcome Z := read_le 2.
Definition read_u32 : list Z → Z → outcome Z := read_le 4.
Definition read_u64 : list Z → Z → outcome Z := read_le 8.

(** ** Headers *)
Record ElfHeader := mkHeader {
  class : Z;
  endianness : Z;
  elf_type : Z;
  hdr_entry : Z;
  program_header_offset : Z;
  program_header_size : Z;
  program_header_num : Z;
}.

Record ProgramHeader := mkPh {
  segment_type : Z;
  flags : Z;
  offset : Z;
  vaddr : Z;
  file_size : Z;
  mem_size : Z;
}.

Definition ELF_MAGIC : list Z := [0x7f; 0x45; 0x4c; 0x46].

Definition ElfHeader_parse (image : list Z) : outcome ElfHeader :=
  if (Z.of_nat (length image) <? 64) || negb (bool_decide (take 4 image = ELF_MAGIC)) then Err ENOEXEC
  else
    c ← unwrap (image !! 4%nat);
    en ← unwrap (image !! 5%nat);
    ty ← read_u16 image 16;
    entry ← read_u64 image 24;
    phoff ← read_u64 image 32;
    phsize ← read_u16 image 54;
    phnum ← read_u16 image 56;
    Ok (mkHeader c en ty entry phoff phsize phnum).

Definition ProgramHeader_parse (image : list Z) (off : Z) : outcome ProgramHeader :=
  e ← uadd off 56;
  if Z.of_nat (length image) <? e then Err ENOEXEC
  else
    ty ← read_u32 image off;
    fl ← read_u32 image (off + 4);
    po ← read_u64 image (off + 8);
    va ← read_u64 image (off + 16);
    fs ← read_u64 image (off + 32);
    ms ← read_u64 image (off + 40);
    Ok (mkPh ty fl po va fs ms).

(** The program header number [index] of the image. *)
Definition nth_ph (h : ElfHeader) (image : list Z) (index : Z) : outcome ProgramHeader :=
  t ← umul index (program_header_size h);
  off ← uadd (program_header_offset h) t;
  ProgramHeader_parse image off.

Definition elf_flags_to_prot (fl : Z) : Z :=
  let p := 0 in
  let p := if negb (Z.land fl 4 =? 0) then Z.lor p 1 else p in
  let p := if negb (Z.land fl 2 =? 0) then Z.lor p 2 else p in
  let p := if negb (Z.land fl 1 =? 0) then Z.lor p 4 else p in
  if p =? 0 then DEFAULT_PROT else p.

Definition PT_LOAD : Z := 1.
Definition ET_EXEC : Z := 2.
Definition ET_DYN : Z := 3.

(** The indices of [0..n]. *)
Definition indices (n : Z) : list Z := seqZ 0 n.

Fixpoint find_phdr_loop (h : ElfHeader) (image : list Z) (idx : list Z) : outcome Z :=
  match idx with
  | [] => Ok 0
  | index :: idx' =>
      ph ← nth_ph h image index;
      if negb (segment_type ph =? 1) || (file_size ph =? 0) then find_phdr_loop h image idx'
      else
        file_end ← ok_or (checked_add (offset ph) (file_size ph)) ENOEXEC;
        let phoff := program_header_offset h in
        if (phoff <? offset ph) || (file_end <=? phoff) then find_phdr_loop h image idx'
        else ok_or (checked_add (vaddr ph) (phoff - offset ph)) ENOEXEC
  end.

Definition find_phdr_vaddr (h : ElfHeader) (image : list Z) : outcome Z :=
  find_phdr_loop h image (indices (program_header_num h)).

(** The first pass over the headers: lowest and highest address and number of
    PT_LOAD segments. *)
Definition scan_ph (h : ElfHeader) (image : list Z) (acc : Z * Z * Z) (index : Z) : outcome (Z * Z * Z) :=
  let '(min_vaddr, max_vaddr_end, load_segments) := acc in
  ph ← nth_ph h image index;
  if negb (segment_type ph =? PT_LOAD) then Ok acc
  else if mem_size ph <? file_size ph then Err ENOEXEC
  else
    e ← ok_or (checked_add (vaddr ph) (mem_size ph)) ENOEXEC;
    Ok (Z.min min_vaddr (vaddr ph), Z.max max_vaddr_end e, load_segments + 1).

Record MappedElfImage := mkMapped {
  mi_entry : Z;
  mi_load_bias : Z;
  mi_phdr_addr : Z;
  mi_phnum : Z;
  mi_phent : Z;
  mi_highest_end : Z;
  mi_is_dyn : bool;
}.

Record LoadedImage := mkLoaded {
  li_entry : Z;
  li_stack_pointer : Z;
  li_load_bias : Z;
  li_phdr_addr : Z;
  li_phnum : Z;
  li_phent : Z;
  li_interp_base : Z;
  li_interp_entry : Z;
  li_program_entry : Z;
  li_is_dyn : bool;
}.

(** A loop over a sequence whose body changes the state. *)
Fixpoint forM {S A} (f : A → stm S unit) (l : list A) : stm S unit :=
  match l with
  | [] => mret tt
  | x :: l' => _ ← f x; forM f l'
  end.

(** ** The initial stack *)
Definition copy_slice (buf : list Z) (off : Z) (bs : list Z) : outcome (list Z) :=
  if (off <? 0) || (Z.of_nat (length buf) <? off + Z.of_nat (length bs)) then Panic
  else Ok (take (Z.to_nat off) buf ++ bs ++ drop (Z.to_nat off + length bs) buf).

(** [push_blob]: the buffer and the string cursor. *)
Definition push_blob (stack_top : Z) (st : list Z * Z) (blob : list Z) : outcome (Z * (list Z * Z)) :=
  let '(stack, string_cursor) := st in
  string_cursor ← usub string_cursor (Z.of_nat (length blob));
  stack ← copy_slice stack string_cursor blob;
  addr ← usub stack_top (Z.of_nat (length stack) - string_cursor);
  Ok (addr, (stack, string_cursor)).

Fixpoint push_strings (stack_top : Z) (st : list Z * Z) (entries : list (list Z))
  : outcome (list Z * (list Z * Z)) :=
  match entries with
  | [] => Ok ([], st)
  | entry :: entries' =>
      '(p, st) ← push_blob stack_top st (entry ++ [0]);
      '(ps, st) ← push_strings stack_top st entries';
      Ok (p :: ps, st)
  end.

(** One pointer-sized store into the head, and the cursor behind it. *)
Definition put_word (hc : list Z * Z) (value : Z) : outcome (list Z * Z) :=
  let '(head, cursor) := hc in
  head ← copy_slice head cursor (to_le_bytes 8 value);
  Ok (head, cursor + 8).

Definition AT_RANDOM : Z := 25.
Definition AT_EXECFN : Z := 31.
Definition AUX_RANDOM_BYTES : list Z :=
  [0x57; 0x68; 0x75; 0x73; 0x65; 0x2d; 0x72; 0x76; 0x2d; 0x61; 0x75; 0x78; 0x76; 0x2d; 0x31; 0x36].

Definition strings_len (l : list (list Z)) : Z := foldr (fun e acc => Z.of_nat (length e) + 1 + acc) 0 l.

(** The sums of lengths abort on overflow exactly when the total does. *)
Definition build_initial_stack (args envs : list (list Z)) (stack_top : Z) (auxv : list (Z * Z))
    (execfn : option (list Z)) : outcome (list Z) :=
  let execfn_len := match execfn with Some v => Z.of_nat (length v) + 1 | None => 0 end in
  let total_strings_len :=
    strings_len (args ++ envs) + execfn_len + Z.of_nat (length AUX_RANDOM_BYTES) in
  let auxv_len := Z.of_nat (length auxv) + match execfn with Some _ => 1 | None => 0 end + 1 in
  let pointer_count :=
    1 + Z.of_nat (length args) + 1 + Z.of_nat (length envs) + 1 + (auxv_len + 1) * 2 in
  t ← uadd total_strings_len (pointer_count * 8);
  stack_len ← align_up t 16;
  let st := (replicate (Z.to_nat stack_len) 0, stack_len) in
  '(arg_ptrs, st) ← push_strings stack_top st args;
  '(env_ptrs, st) ← push_strings stack_top st envs;
  '(execfn_addr, st) ←
    match execfn with
    | Some v => '(p, st) ← push_blob stack_top st (v ++ [0]); Ok (Some p, st)
    | None => Ok (None, st)
    end;
  '(random_addr, st) ← push_blob stack_top st AUX_RANDOM_BYTES;
  let '(stack, string_cursor) := st in
  let hc := (replicate (Z.to_nat (8 * pointer_count)) 0, 0) in
  hc ← put_word hc (Z.of_nat (length args));
  hc ← foldM put_word hc arg_ptrs;
  hc ← put_word hc 0;
  hc ← foldM put_word hc env_ptrs;
  hc ← put_word hc 0;
  hc ← foldM (fun hc '(key, value) => hc ← put_word hc key; put_word hc value) hc auxv;
  hc ← put_word hc AT_RANDOM;
  hc ← put_word hc random_addr;
  hc ← match execfn_addr with
       | Some a => hc ← put_word hc AT_EXECFN; put_word hc a
       | None => Ok hc
       end;
  hc ← put_word hc 0;
  hc ← put_word hc 0;
  let '(head, _) := hc in
  let str_len := Z.of_nat (length stack) - string_cursor in
  let total := Z.of_nat (length head) + str_len in
  if USER_STACK_SIZE <? total then Err ENOMEM
  else
    aligned_total ← align_up total 16;
    let pad := aligned_total - total in
    let out := replicate (Z.to_nat aligned_total) 0 in
    out ← copy_slice out 0 head;
    copy_slice out (Z.of_nat (length head) + pad) (drop (Z.to_nat string_cursor) stack).

(** ** Loading *)
Section Load.
Context `{HalMemory} (can_reserve : Z → bool).

Definition reserve_dynamic_load_bias (min_vaddr max_vaddr_end : Z) : stm space Z :=
  let load_floor := align_down min_vaddr PAGE_SIZE in
  span ← lift (align_up (Z.max (saturating_sub max_vaddr_end load_floor) PAGE_SIZE) PAGE_SIZE);
  s ← get;
  base ← lift (align_up (next_mapping_base (inner s)) PAGE_SIZE);
  base ← lift (find_gap (S (size (mappings (inner s)))) (mappings (inner s)) base span);
  next ← lift (ok_or (checked_add base span) ENOMEM);
  _ ← put (with_inner s (with_next_mapping_base (inner s) next));
  lift (ok_or (checked_sub base load_floor) ENOMEM).

(** One iteration of the mapping loop of [map_elf_segments]. *)
Definition map_ph (h : ElfHeader) (image : list Z) (load_bias index : Z) : stm space unit :=
  ph ← lift (nth_ph h image index);
  if negb (segment_type ph =? PT_LOAD) then mret tt
  else if mem_size ph <? file_size ph then fail ENOEXEC
  else
    data_end ← lift (ok_or (checked_add (offset ph) (file_size ph)) ENOEXEC);
    if Z.of_nat (length image) <? data_end then fail ENOEXEC
    else
      mapped_vaddr ← lift (ok_or (checked_add (vaddr ph) load_bias) ENOEXEC);
      let seg_start := align_down mapped_vaddr PAGE_SIZE in
      page_offset ← lift (usub mapped_vaddr seg_start);
      t ← lift (ok_or (checked_add page_offset (mem_size ph)) ENOEXEC);
      seg_mem_len ← lift (align_up t PAGE_SIZE);
      t ← lift (uadd page_offset (file_size ph));
      if can_reserve t then
        let seg_bytes :=
          replicate (Z.to_nat page_offset) 0 ++ slice_of image (offset ph) (file_size ph) in
        map_fixed_bytes can_reserve seg_start seg_bytes seg_mem_len (elf_flags_to_prot (flags ph))
      else fail ENOMEM.

Definition map_elf_segments (image : list Z) : stm space MappedElfImage :=
  h ← lift (ElfHeader_parse image);
  if negb (program_header_size h =? 56) || negb (class h =? 2) || negb (endianness h =? 1)
  then fail ENOEXEC
  else if program_header_num h =? 0 then fail ENOEXEC
  else
    '(min_vaddr, max_vaddr_end, load_segments) ←
      lift (foldM (scan_ph h image) (USIZE_MAX, 0, 0) (indices (program_header_num h)));
    if load_segments =? 0 then fail ENOEXEC
    else
      load_bias ← (if elf_type h =? ET_EXEC then mret 0
                   else if elf_type h =? ET_DYN
                   then reserve_dynamic_load_bias min_vaddr max_vaddr_end
                   else fail ENOEXEC);
      _ ← forM (map_ph h image load_bias) (indices (program_header_num h));
      phdr ← lift (find_phdr_vaddr h image);
      phdr_addr ← lift (ok_or (checked_add phdr load_bias) ENOEXEC);
      entry ← lift (ok_or (checked_add (hdr_entry h) load_bias) ENOEXEC);
      t ← lift (ok_or (checked_add max_vaddr_end load_bias) ENOEXEC);
      highest_end ← lift (align_up t PAGE_SIZE);
      mret (mkMapped entry load_bias phdr_addr (program_header_num h) (program_header_size h)
              highest_end (elf_type h =? ET_DYN)).

Definition auxv_of (program : MappedElfImage) (interp : option MappedElfImage) : list (Z * Z) :=
  [(3, mi_phdr_addr program); (4, mi_phent program); (5, mi_phnum program); (6, PAGE_SIZE);
   (7, match interp with Some i => mi_load_bias i | None => 0 end); (8, 0); (9, mi_entry program);
   (11, 0); (12, 0); (13, 0); (14, 0); (16, 0); (17, 100); (23, 0)].

Definition load_elf_images (program_image : list Z) (interp_image : option (list Z))
    (args envs : list (list Z)) (execfn : option (list Z)) : stm space LoadedImage :=
  _ ← modify (fun s => with_inner s (clear (inner s)));
  program ← map_elf_segments program_image;
  interp ← match interp_image with
           | Some image => i ← map_elf_segments image; mret (Some i)
           | None => mret None
           end;
  _ ← modify (fun s => with_inner s
        (with_program_break (inner s) (Z.max (mi_highest_end program) USER_HEAP_BASE)));
  let stack_top := USER_STACK_TOP in
  let stack_base := stack_top - USER_STACK_SIZE in
  _ ← map_fixed_bytes can_reserve stack_base [] USER_STACK_SIZE DEFAULT_PROT;
  stack_image ← lift (build_initial_stack args envs stack_top (auxv_of program interp) execfn);
  let used := Z.of_nat (length stack_image) in
  sp ← lift (usub stack_top used);
  _ ← write_bytes sp stack_image;
  mret (mkLoaded
    (match interp with Some i => mi_entry i | None => mi_entry program end) sp
    (mi_load_bias program) (mi_phdr_addr program) (mi_phnum program) (mi_phent program)
    (match interp with Some i => mi_load_bias i | None => 0 end)
    (match interp with Some i => mi_entry i | None => 0 end)
    (mi_entry program) (mi_is_dyn program)).

Definition load_elf_image (image : list Z) (args envs : list (list Z)) : stm space LoadedImage :=
  load_elf_images image None args envs (head args).

(** [load_static_elf] goes through the [BinaryLoader] of [ElfBinaryLoader]. *)
Definition load_static_elf : list Z → list (list Z) → list (list Z) → stm space LoadedImage :=
  load_elf_image.

End Load.

(** ** The stack image

    What [build_initial_stack] computes, without cursors: the words of the
    head, padding, and the strings in reverse order of pushing. *)

Definition cstring (s : list Z) : list Z := s ++ [0].

(** Addresses of blobs pushed below [top] after [acc] bytes. *)
Fixpoint blob_ptrs (top acc : Z) (blobs : list (list Z)) : list Z :=
  match blobs with
  | [] => []
  | b :: blobs' => (top - (acc + zlen b)) :: blob_ptrs top (acc + zlen b) blobs'
  end.

Definition execfn_blob (execfn : option (list Z)) : list (list Z) :=
  match execfn with Some v => [cstring v] | None => [] end.

Definition blobs_of (args envs : list (list Z)) (execfn : option (list Z)) : list (list Z) :=
  (cstring <$> args) ++ (cstring <$> envs) ++ execfn_blob execfn ++ [AUX_RANDOM_BYTES].

Definition pushed (blobs : list (list Z)) : list Z := concat (reverse blobs).

Definition words_of (args envs : list (list Z)) (top : Z) (auxv : list (Z * Z))
    (execfn : option (list Z)) : list Z :=
  let a := pushed (cstring <$> args) in
  let e := pushed ((cstring <$> args) ++ (cstring <$> envs)) in
  let x := pushed ((cstring <$> args) ++ (cstring <$> envs) ++ execfn_blob execfn) in
  zlen args :: blob_ptrs top 0 (cstring <$> args) ++ [0] ++
  blob_ptrs top (zlen a) (cstring <$> envs) ++ [0] ++
  concat ((fun '(k, v) => [k; v]) <$> auxv) ++
  [AT_RANDOM; top - zlen (pushed (blobs_of args envs execfn))] ++
  match execfn with Some _ => [AT_EXECFN; top - zlen x] | None => [] end ++ [0; 0].

Definition words_bytes (ws : list Z) : list Z := concat (to_le_bytes 8 <$> ws).

Definition stack_image (args envs : list (list Z)) (top : Z) (auxv : list (Z * Z))
    (execfn : option (list Z)) : list Z :=
  let h := words_bytes (words_of args envs top auxv execfn) in
  let p := pushed (blobs_of args envs execfn) in
  let total := zlen h + zlen p in
  h ++ replicate (Z.to_nat (round_up total 16 - total)) 0 ++ p.

Lemma pushed_app b1 b2 : pushed (b1 ++ b2) = pushed b2 ++ pushed b1.
Proof. unfold pushed. by rewrite reverse_app, concat_app. Qed.

Lemma pushed_cons b bs : pushed (b :: bs) = pushed bs ++ b.
Proof. unfold pushed. rewrite reverse_cons, concat_app. simpl. by rewrite app_nil_r. Qed.

Lemma blob_ptrs_length top acc bs : length (blob_ptrs top acc bs) = length bs.
Proof. revert acc; induction bs; intros; simpl; auto. Qed.

(** The buffer after [p] was pushed. *)
Definition buffer_ok (L : Z) (p : list Z) (st : list Z * Z) : Prop :=
  zlen st.1 = L ∧ st.2 = L - zlen p ∧ 0 ≤ st.2 ∧ drop (Z.to_nat st.2) st.1 = p.

Lemma copy_slice_ok buf off bs :
  0 ≤ off → off + zlen bs ≤ zlen buf →
  copy_slice buf off bs = Ok (take (Z.to_nat off) buf ++ bs ++ drop (Z.to_nat off + length bs) buf).
Proof.
  unfold zlen. intros. unfold copy_slice.
  by rewrite (proj2 (Z.ltb_ge _ _)), (proj2 (Z.ltb_ge _ _)) by lia.
Qed.

Lemma push_blob_spec top L p st b :
  buffer_ok L p st → zlen b ≤ L - zlen p → zlen p + zlen b ≤ top →
  ∃ st', push_blob top st b = Ok (top - (zlen p + zlen b), st') ∧ buffer_ok L (b ++ p) st'.
Proof.
  destruct st as [stack cur]. intros (HL & Hc & Hpos & Hd) Hfit Htop. unfold push_blob. simpl in *.
  assert (0 ≤ zlen p ∧ 0 ≤ zlen b) as [? ?] by (unfold zlen; lia).
  fold (zlen b). rewrite usub_ok by lia. simpl. rewrite copy_slice_ok by lia. simpl.
  set (cur' := cur - zlen b).
  set (stack' := take (Z.to_nat cur') stack ++ b ++ drop (Z.to_nat cur' + length b) stack).
  assert (zlen stack' = L) as HL'.
  { unfold stack', cur'. rewrite !zlen_app. unfold zlen in *. rewrite length_take, length_drop. lia. }
  fold (zlen stack'). rewrite usub_ok by (unfold cur'; lia). simpl. eexists. split; [unfold cur'; do 2 f_equal; lia|].
  split_and!; simpl; [done|rewrite zlen_app; unfold cur'; lia|unfold cur'; lia|].
  unfold stack'. rewrite drop_app_length' by (rewrite length_take; unfold cur', zlen in *; lia).
  f_equal. rewrite <- Hd. f_equal. unfold cur', zlen in *. lia.
Qed.

Lemma push_strings_spec top L p st es :
  buffer_ok L p st → zlen p + zlen (pushed (cstring <$> es)) ≤ L →
  zlen p + zlen (pushed (cstring <$> es)) ≤ top →
  ∃ st', push_strings top st es = Ok (blob_ptrs top (zlen p) (cstring <$> es), st') ∧
    buffer_ok L (pushed (cstring <$> es) ++ p) st'.
Proof.
  revert p st; induction es as [|e es IH]; intros p st Hb Hfit Htop; [by exists st|].
  rewrite fmap_cons, pushed_cons, zlen_app in *.
  assert (0 ≤ zlen (pushed (cstring <$> es))) by (unfold zlen; lia).
  cbn [push_strings]. destruct (push_blob_spec top L p st (cstring e)) as (st1 & Hp1 & Hb1); [done|lia..|].
  unfold cstring in Hp1 at 1. rewrite Hp1. cbn [mbind outcome_bind].
  destruct (IH (cstring e ++ p) st1 Hb1) as (st' & -> & Hb'); [rewrite zlen_app; lia..|].
  cbn [mbind outcome_bind blob_ptrs]. rewrite zlen_app, (Z.add_comm (zlen (cstring e))).
  exists st'. split; [done|]. by rewrite <- app_assoc.
Qed.

(** The head after the words [ws] of [n]. *)
Definition head_ok (n : nat) (ws : list Z) : list Z * Z :=
  (words_bytes ws ++ replicate (8 * n - 8 * length ws) 0, 8 * zlen ws).

Lemma length_words_bytes ws : length (words_bytes ws) = (8 * length ws)%nat.
Proof.
  unfold words_bytes. induction ws as [|w ws IH]; [done|].
  rewrite fmap_cons. cbn [concat]. rewrite length_app, length_to_le_bytes, IH. simpl. lia.
Qed.

Lemma words_bytes_app ws1 ws2 : words_bytes (ws1 ++ ws2) = words_bytes ws1 ++ words_bytes ws2.
Proof. unfold words_bytes. by rewrite fmap_app, concat_app. Qed.

Lemma words_bytes_1 v : words_bytes [v] = to_le_bytes 8 v.
Proof. unfold words_bytes. rewrite fmap_cons, fmap_nil. cbn [concat]. by rewrite app_nil_r. Qed.

Lemma put_word_spec n ws v :
  (length ws < n)%nat → put_word (head_ok n ws) v = Ok (head_ok n (ws ++ [v])).
Proof.
  intros Hlt. unfold put_word, head_ok. pose proof (length_words_bytes ws) as Hl.
  pose proof (length_to_le_bytes 8 v) as Hv.
  rewrite copy_slice_ok.
  2: { unfold zlen. lia. }
  2: { rewrite zlen_app. unfold zlen. rewrite length_replicate. lia. }
  cbn [mbind outcome_bind]. f_equal. f_equal.
  - rewrite take_app_length' by (unfold zlen; lia). rewrite words_bytes_app, <- app_assoc.
    f_equal. rewrite words_bytes_1. f_equal.
    rewrite drop_app_ge by (unfold zlen; lia). rewrite drop_replicate, length_app.
    f_equal. unfold zlen. simpl length. lia.
  - rewrite zlen_app. unfold zlen. simpl. lia.
Qed.

Lemma put_words_spec n ws vs :
  (length ws + length vs ≤ n)%nat → foldM put_word (head_ok n ws) vs = Ok (head_ok n (ws ++ vs)).
Proof.
  revert ws; induction vs as [|v vs IH]; intros ws Hle; cbn [foldM length] in *.
  - by rewrite app_nil_r.
  - rewrite put_word_spec by lia. cbn [mbind outcome_bind]. rewrite IH by (rewrite length_app; simpl; lia).
    by rewrite <- app_assoc.
Qed.

Lemma put_pairs_spec n ws (vs : list (Z * Z)) :
  (length ws + 2 * length vs ≤ n)%nat →
  foldM (fun hc '(key, value) => hc ← put_word hc key; put_word hc value) (head_ok n ws) vs
  = Ok (head_ok n (ws ++ concat ((fun '(k, v) => [k; v]) <$> vs))).
Proof.
  revert ws; induction vs as [|[k v] vs IH]; intros ws Hle; cbn [foldM length] in *.
  - by rewrite app_nil_r.
  - rewrite put_word_spec by lia. cbn [mbind outcome_bind].
    rewrite put_word_spec by (rewrite length_app; simpl; lia). cbn [mbind outcome_bind].
    rewrite IH by (rewrite !length_app; simpl; lia). by rewrite <- !app_assoc.
Qed.

Lemma length_concat_pairs (vs : list (Z * Z)) :
  length (concat ((fun '(k, v) => [k; v]) <$> vs)) = (2 * length vs)%nat.
Proof.
  induction vs as [|[k v] vs IH]; [done|].
  rewrite fmap_cons. cbn [concat]. rewrite length_app, IH. simpl. lia.
Qed.

Lemma strings_len_pushed l : strings_len l = zlen (pushed (cstring <$> l)).
Proof.
  induction l as [|e l IH]; [done|]. rewrite fmap_cons, pushed_cons, zlen_app, <- IH. simpl.
  unfold cstring. rewrite zlen_app. unfold zlen. simpl. lia.
Qed.

Ltac put_step :=
  (rewrite put_word_spec || rewrite put_words_spec || rewrite put_pairs_spec);
  [cbn [mbind outcome_bind]
  |rewrite ?length_app, ?blob_ptrs_length, ?length_fmap, ?length_concat_pairs; simpl; lia].

Section StackImage.
Context (args envs : list (list Z)) (top : Z) (auxv : list (Z * Z)) (execfn : option (list Z)).

Definition total_len : Z :=
  8 * zlen (words_of args envs top auxv execfn) + zlen (pushed (blobs_of args envs execfn)).

Lemma blobs_len :
  zlen (pushed (blobs_of args envs execfn)) =
  strings_len (args ++ envs) + match execfn with Some v => Z.of_nat (length v) + 1 | None => 0 end
  + Z.of_nat (length AUX_RANDOM_BYTES).
Proof.
  rewrite strings_len_pushed, fmap_app. unfold blobs_of. rewrite !pushed_app, !zlen_app.
  change (zlen (pushed [AUX_RANDOM_BYTES])) with 16. change (Z.of_nat (length AUX_RANDOM_BYTES)) with 16.
  destruct execfn as [v|]; simpl.
  - rewrite pushed_cons, zlen_app. unfold cstring. rewrite zlen_app. unfold zlen. simpl. lia.
  - unfold zlen. simpl. lia.
Qed.

Lemma words_len :
  zlen (words_of args envs top auxv execfn) =
  1 + Z.of_nat (length args) + 1 + Z.of_nat (length envs) + 1 +
  (Z.of_nat (length auxv) + match execfn with Some _ => 1 | None => 0 end + 1 + 1) * 2.
Proof.
  unfold words_of, zlen. cbn [length]. rewrite !length_app, !blob_ptrs_length, !length_fmap.
  rewrite length_concat_pairs. destruct execfn; simpl; lia.
Qed.

(** The two phases: strings and words. *)
Lemma push_phase L :
  zlen (pushed (blobs_of args envs execfn)) ≤ L → zlen (pushed (blobs_of args envs execfn)) ≤ top →
  ∃ st1 st2 st3 st4,
    push_strings top (replicate (Z.to_nat L) 0, L) args = Ok (blob_ptrs top 0 (cstring <$> args), st1) ∧
    push_strings top st1 envs =
      Ok (blob_ptrs top (zlen (pushed (cstring <$> args))) (cstring <$> envs), st2) ∧
    match execfn with
    | Some v => '(p, st) ← push_blob top st2 (v ++ [0]); Ok (Some p, st)
    | None => Ok (None, st2)
    end = Ok ((fun _ => top - zlen (pushed ((cstring <$> args) ++ (cstring <$> envs) ++ execfn_blob execfn)))
                <$> execfn, st3) ∧
    push_blob top st3 AUX_RANDOM_BYTES = Ok (top - zlen (pushed (blobs_of args envs execfn)), st4) ∧
    buffer_ok L (pushed (blobs_of args envs execfn)) st4.
Proof.
  set (pa := pushed (cstring <$> args)). set (pe := pushed (cstring <$> envs)).
  set (px := pushed (execfn_blob execfn)).
  assert (pushed (blobs_of args envs execfn) = AUX_RANDOM_BYTES ++ px ++ pe ++ pa) as Hall.
  { unfold blobs_of. rewrite !pushed_app. unfold pushed at 1. simpl. by rewrite <- !app_assoc. }
  assert (pushed ((cstring <$> args) ++ (cstring <$> envs) ++ execfn_blob execfn) = px ++ pe ++ pa) as Hx.
  { rewrite !pushed_app. by rewrite <- app_assoc. }
  rewrite Hall, Hx, !zlen_app. intros HL Htop.
  assert (0 ≤ zlen AUX_RANDOM_BYTES ∧ 0 ≤ zlen px ∧ 0 ≤ zlen pe ∧ 0 ≤ zlen pa) as (? & ? & ? & ?)
    by (unfold zlen; lia).
  assert (buffer_ok L [] (replicate (Z.to_nat L) 0, L)) as Hb0.
  { unfold buffer_ok, zlen. simpl. rewrite length_replicate. split_and!; try lia.
    apply drop_ge. rewrite length_replicate. lia. }
  destruct (push_strings_spec top L [] _ args Hb0) as (st1 & Hq1 & Hb1);
    [fold pa; change (zlen (@nil Z)) with 0; lia..|].
  rewrite app_nil_r in Hb1. fold pa in Hb1.
  destruct (push_strings_spec top L pa st1 envs Hb1) as (st2 & Hq2 & Hb2); [fold pe; lia..|]. fold pe in Hb2.
  assert (∃ st3, match execfn with
    | Some v => '(p, st) ← push_blob top st2 (v ++ [0]); Ok (Some p, st)
    | None => Ok (None, st2) end = Ok ((fun _ => top - (zlen px + (zlen pe + zlen pa))) <$> execfn, st3) ∧
    buffer_ok L (px ++ pe ++ pa) st3) as (st3 & Hq3 & Hb3).
  { destruct execfn as [v|]; [|by exists st2].
    assert (px = cstring v) as Hpx by (unfold px; simpl; unfold pushed; simpl; by rewrite app_nil_r).
    destruct (push_blob_spec top L (pe ++ pa) st2 (cstring v) Hb2) as (st3 & Hq3 & Hb3);
      [rewrite <- Hpx, zlen_app; lia..|].
    unfold cstring in Hq3 at 1. rewrite Hq3. simpl. rewrite zlen_app, <- Hpx in *. exists st3. rewrite Hpx in *.
    split; [do 3 f_equal; lia|done]. }
  destruct (push_blob_spec top L (px ++ pe ++ pa) st3 AUX_RANDOM_BYTES Hb3) as (st4 & Hq4 & Hb4);
    [rewrite !zlen_app; lia..|].
  exists st1, st2, st3, st4. split_and!; try done. rewrite Hq4, !zlen_app. do 2 f_equal. lia.
Qed.

Lemma words_phase {B} (K : list Z * Z → outcome B) arg_ptrs env_ptrs execfn_addr random_addr n :
  n = length (words_of args envs top auxv execfn) →
  arg_ptrs = blob_ptrs top 0 (cstring <$> args) →
  env_ptrs = blob_ptrs top (zlen (pushed (cstring <$> args))) (cstring <$> envs) →
  execfn_addr = (fun _ => top - zlen (pushed ((cstring <$> args) ++ (cstring <$> envs) ++ execfn_blob execfn))) <$> execfn →
  random_addr = top - zlen (pushed (blobs_of args envs execfn)) →
  (hc ← put_word (head_ok n []) (Z.of_nat (length args));
   hc ← foldM put_word hc arg_ptrs;
   hc ← put_word hc 0;
   hc ← foldM put_word hc env_ptrs;
   hc ← put_word hc 0;
   hc ← foldM (fun hc '(key, value) => hc ← put_word hc key; put_word hc value) hc auxv;
   hc ← put_word hc AT_RANDOM;
   hc ← put_word hc random_addr;
   hc ← match execfn_addr with
        | Some a => hc ← put_word hc AT_EXECFN; put_word hc a
        | None => Ok hc
        end;
   hc ← put_word hc 0;
   hc ← put_word hc 0;
   K hc) = K (head_ok n (words_of args envs top auxv execfn)).
Proof.
  intros Hn -> -> -> ->. pose proof words_len as Hwl. unfold zlen in Hwl at 1. rewrite <- Hn in Hwl.
  assert (n = (5 + length args + length envs + 2 * length auxv +
               2 * match execfn with Some _ => 1 | None => 0 end + 2)%nat) as Hn'
    by (destruct execfn; lia).
  do 8 put_step. destruct execfn as [v|]; cbn [fmap option_fmap option_map mbind outcome_bind];
    repeat put_step; do 2 f_equal; unfold words_of; rewrite <- !app_assoc; done.
Qed.

(** Memory is large enough for the buffer the code allocates. *)
Definition stack_fits : Prop := total_len + 16 ≤ USIZE_MAX ∧ total_len ≤ top.

Lemma build_initial_stack_eq :
  stack_fits →
  build_initial_stack args envs top auxv execfn =
  if USER_STACK_SIZE <? total_len then Err ENOMEM else Ok (stack_image args envs top auxv execfn).
Proof.
  intros [Hfit Htop]. unfold total_len in *. set (h := words_of args envs top auxv execfn) in *.
  set (p := pushed (blobs_of args envs execfn)) in *.
  assert (0 ≤ zlen h ∧ 0 ≤ zlen p) as [? ?] by (unfold zlen; lia).
  unfold build_initial_stack. rewrite <- blobs_len, <- words_len. fold h p.
  rewrite uadd_ok by lia. cbn [mbind outcome_bind].
  pose proof (round_up_spec (zlen p + zlen h * 8) 16 ltac:(lia)) as [? _].
  rewrite (align_up_pow2 _ 4) by (unfold is_usize; lia). cbn [mbind outcome_bind].
  change (2 ^ 4) with 16. set (L := round_up _ 16) in *.
  destruct (push_phase L) as (st1 & st2 & st3 & st4 & Hq1 & Hq2 & Hq3 & Hq4 & Hb); [fold p; lia..|].
  rewrite Hq1. cbn [mbind outcome_bind]. rewrite Hq2. cbn [mbind outcome_bind].
  rewrite Hq3. cbn [mbind outcome_bind]. rewrite Hq4. cbn [mbind outcome_bind].
  destruct st4 as [stack cur]. destruct Hb as (HL & Hc & Hpos & Hd). cbn [fst snd] in *. fold p in Hc, Hd.
  replace (replicate (Z.to_nat (8 * zlen h)) 0, 0) with (head_ok (length h) []).
  2: { unfold head_ok. f_equal. unfold words_bytes. rewrite fmap_nil. cbn [concat app length].
       f_equal. unfold zlen. lia. }
  rewrite (words_phase _ _ _ _ _ (length h) eq_refl eq_refl eq_refl eq_refl eq_refl). fold h.
  unfold head_ok. rewrite Nat.sub_diag. cbn [replicate]. rewrite app_nil_r.
  pose proof (length_words_bytes h) as Hlh. fold (zlen stack).
  assert (Z.of_nat (length (words_bytes h)) = 8 * zlen h) as -> by (unfold zlen; lia).
  replace (8 * zlen h + (zlen stack - cur)) with (8 * zlen h + zlen p) by lia.
  destruct (USER_STACK_SIZE <? 8 * zlen h + zlen p); [done|].
  rewrite (align_up_pow2 _ 4) by (unfold is_usize; lia). cbn [mbind outcome_bind]. change (2 ^ 4) with 16.
  set (total := 8 * zlen h + zlen p). pose proof (round_up_spec total 16 ltac:(lia)) as [? _].
  set (al := round_up total 16) in *.
  rewrite copy_slice_ok by (unfold zlen in *; rewrite ?length_replicate; lia). cbn [mbind outcome_bind].
  rewrite drop_replicate. change (Z.to_nat 0) with 0%nat. rewrite take_0. cbn [app].
  rewrite copy_slice_ok.
  2: { lia. }
  2: { rewrite Hd, zlen_app. unfold total, zlen in *. rewrite length_replicate. lia. }
  rewrite Hd. unfold stack_image. fold h p.
  assert (zlen (words_bytes h) + zlen p = total) as -> by (unfold total, zlen in *; lia). fold al.
  rewrite take_app_ge by (unfold total, zlen in *; lia).
  rewrite take_replicate, drop_app_ge by (unfold total, zlen in *; lia).
  rewrite drop_replicate, <- app_assoc. do 2 f_equal.
  rewrite Nat.min_l by (unfold total, zlen in *; lia). f_equal; [f_equal; unfold total, zlen in *; lia|].
  match goal with |- _ ++ replicate ?n 0 = _ => replace n with 0%nat by (unfold total, zlen in *; lia) end.
  by rewrite app_nil_r.
Qed.

(** The word number [k] and the NUL-terminated string at address [p] of an
    image that ends at [top]. *)
Definition word_at (out : list Z) (k : Z) : Z := from_le_bytes (slice_of out (8 * k) 8).
Definition bytes_at (out : list Z) (p n : Z) : list Z := slice_of out (p - (top - zlen out)) n.

Lemma word_at_spec ws rest (k : nat) w :
  ws !! k = Some w → 0 ≤ w < 2 ^ 64 → word_at (words_bytes ws ++ rest) (Z.of_nat k) = w.
Proof.
  intros Hk Hw. unfold word_at, slice_of.
  assert (words_bytes ws = words_bytes (take k ws) ++ to_le_bytes 8 w ++ words_bytes (drop (S k) ws)) as ->.
  { rewrite <- words_bytes_1, <- !words_bytes_app. f_equal. symmetry.
    by apply take_drop_middle. }
  rewrite <- !app_assoc. apply lookup_lt_Some in Hk.
  rewrite drop_app_length' by (rewrite length_words_bytes, length_take; lia).
  rewrite take_app_length' by (rewrite length_to_le_bytes; lia).
  by apply from_to_le_bytes.
Qed.

Lemma blob_ptrs_lookup acc bs i b :
  bs !! i = Some b →
  blob_ptrs top acc bs !! i = Some (top - (acc + zlen (pushed (take (S i) bs)))).
Proof.
  revert acc i; induction bs as [|c bs IH]; intros acc [|i] Hi; simpl in Hi; simplify_eq.
  - cbn [blob_ptrs lookup list_lookup]. do 2 f_equal. rewrite firstn_cons, pushed_cons, firstn_O.
    rewrite zlen_app. unfold zlen, pushed. simpl. lia.
  - cbn [blob_ptrs lookup list_lookup]. rewrite IH by done. do 2 f_equal.
    rewrite (firstn_cons (S i)), pushed_cons, zlen_app. lia.
Qed.

Lemma pushed_split acc_bs bs rest i :
  pushed (acc_bs ++ bs ++ rest) =
  pushed rest ++ pushed (drop (S i) bs) ++ pushed (take (S i) bs) ++ pushed acc_bs.
Proof.
  rewrite !pushed_app, <- app_assoc. f_equal.
  rewrite <- (take_drop (S i) bs) at 1. by rewrite pushed_app, <- app_assoc.
Qed.

Lemma blob_bytes pre bs acc_bs i b rest :
  bs !! i = Some b →
  let out := pre ++ pushed (acc_bs ++ bs ++ rest) in
  bytes_at out (top - (zlen (pushed acc_bs) + zlen (pushed (take (S i) bs)))) (zlen b) = b.
Proof.
  intros Hi out. unfold bytes_at, slice_of.
  assert (pushed (take (S i) bs) = b ++ pushed (take i bs)) as Hb.
  { rewrite (take_S_r _ _ b) by done. rewrite pushed_app. unfold pushed at 1. simpl. by rewrite app_nil_r. }
  unfold out. rewrite pushed_split with (i := i). rewrite Hb, !zlen_app, <- !app_assoc.
  rewrite (app_assoc pre), (app_assoc (pre ++ _)).
  rewrite drop_app_length' by (rewrite !length_app; unfold zlen; lia).
  apply take_app_length'. unfold zlen. lia.
Qed.

(** Where the words are. *)
Lemma words_arg i a :
  args !! i = Some a →
  words_of args envs top auxv execfn !! S i =
  Some (top - (zlen (pushed []) + zlen (pushed (take (S i) (cstring <$> args))))).
Proof.
  intros Hi. unfold words_of. rewrite lookup_cons_ne_0 by done. cbn [Nat.pred].
  rewrite lookup_app_l by (rewrite blob_ptrs_length, length_fmap; by eapply lookup_lt_Some).
  apply (blob_ptrs_lookup 0 _ i (cstring a)). by rewrite list_lookup_fmap, Hi.
Qed.

Lemma words_after_args k :
  words_of args envs top auxv execfn !! S (length args + k) =
  (0 :: blob_ptrs top (zlen (pushed (cstring <$> args))) (cstring <$> envs) ++ [0] ++
   drop (S (S (S (length args + length envs)))) (words_of args envs top auxv execfn)) !! k.
Proof.
  unfold words_of at 1. rewrite lookup_cons_ne_0 by done. cbn [Nat.pred].
  rewrite lookup_app_r by (rewrite blob_ptrs_length, length_fmap; lia).
  rewrite blob_ptrs_length, length_fmap. replace (length args + k - length args)%nat with k by lia.
  do 2 f_equal. f_equal. unfold words_of. rewrite skipn_cons, drop_app_ge, blob_ptrs_length, length_fmap
    by (rewrite blob_ptrs_length, length_fmap; lia).
  replace (S (S (length args + length envs)) - length args)%nat with (S (S (length envs))) by lia.
  cbn [app]. rewrite skipn_cons, drop_app_ge, blob_ptrs_length, length_fmap
    by (rewrite blob_ptrs_length, length_fmap; lia).
  replace (S (length envs) - length envs)%nat with 1%nat by lia. done.
Qed.

Lemma words_env i e :
  envs !! i = Some e →
  words_of args envs top auxv execfn !! S (S (length args + i)) =
  Some (top - (zlen (pushed (cstring <$> args)) + zlen (pushed (take (S i) (cstring <$> envs))))).
Proof.
  intros Hi. rewrite <- Nat.add_succ_r, words_after_args, lookup_cons_ne_0 by done. cbn [Nat.pred].
  rewrite lookup_app_l by (rewrite blob_ptrs_length, length_fmap; by eapply lookup_lt_Some).
  apply (blob_ptrs_lookup _ _ i (cstring e)). by rewrite list_lookup_fmap, Hi.
Qed.

Lemma words_null_args : words_of args envs top auxv execfn !! S (length args) = Some 0.
Proof. rewrite <- (Nat.add_0_r (length args)). by rewrite words_after_args. Qed.

Lemma words_null_envs : words_of args envs top auxv execfn !! S (S (length args + length envs)) = Some 0.
Proof.
  rewrite <- Nat.add_succ_r, words_after_args, lookup_cons_ne_0 by done. cbn [Nat.pred].
  rewrite lookup_app_r by (rewrite blob_ptrs_length, length_fmap; lia).
  by rewrite blob_ptrs_length, length_fmap, Nat.sub_diag.
Qed.

Lemma image_eq :
  ∃ pad, stack_image args envs top auxv execfn =
    words_bytes (words_of args envs top auxv execfn) ++ pad ++ pushed (blobs_of args envs execfn) ∧
    zlen (stack_image args envs top auxv execfn) = round_up total_len 16.
Proof.
  eexists. split; [done|]. unfold total_len, stack_image.
  set (h := words_of args envs top auxv execfn). set (p := pushed (blobs_of args envs execfn)).
  assert (zlen (words_bytes h) = 8 * zlen h) as Hwb by (unfold zlen; rewrite length_words_bytes; lia).
  pose proof (round_up_spec (8 * zlen h + zlen p) 16 ltac:(lia)) as [Hr _].
  rewrite !zlen_app, Hwb. unfold zlen at 2. rewrite length_replicate. lia.
Qed.

Lemma image_word (k : nat) w z :
  words_of args envs top auxv execfn !! k = Some w → 0 ≤ w ≤ USIZE_MAX → z = Z.of_nat k →
  word_at (stack_image args envs top auxv execfn) z = w.
Proof.
  intros Hk Hw ->. destruct image_eq as (pad & -> & _).
  apply word_at_spec; [done|]. unfold USIZE_MAX in Hw. lia.
Qed.

Lemma image_string acc_bs bs i b rest :
  total_len ≤ top → top ≤ USIZE_MAX → acc_bs ++ bs ++ rest = blobs_of args envs execfn →
  bs !! i = Some b →
  let p := top - (zlen (pushed acc_bs) + zlen (pushed (take (S i) bs))) in
  0 ≤ p ≤ USIZE_MAX ∧ bytes_at (stack_image args envs top auxv execfn) p (zlen b) = b.
Proof.
  intros Htot Htop Hall Hi p. split.
  - assert (zlen (pushed (blobs_of args envs execfn)) = zlen (pushed rest) + zlen (pushed (drop (S i) bs))
      + zlen (pushed (take (S i) bs)) + zlen (pushed acc_bs)) as Hp.
    { rewrite <- Hall, pushed_split with (i := i), !zlen_app. lia. }
    unfold p, total_len, zlen in *. lia.
  - destruct image_eq as (pad & -> & _). rewrite <- Hall, app_assoc. by apply (blob_bytes _ bs acc_bs i b rest).
Qed.

(** C19: with room for it, the initial stack holds [argc], then the [argv]
    pointers, a null word, the [envp] pointers and a null word; every pointer
    leads to its NUL-terminated string inside the image; the image and the
    resulting stack pointer are 16-byte aligned and fit the user stack.  An
    image larger than the user stack is refused with [ENOMEM]. *)
Theorem initial_stack_spec :
  stack_fits → top ≤ USIZE_MAX →
  (USER_STACK_SIZE < total_len → build_initial_stack args envs top auxv execfn = Err ENOMEM) ∧
  (total_len ≤ USER_STACK_SIZE →
   ∃ out, build_initial_stack args envs top auxv execfn = Ok out ∧
     (16 | zlen out) ∧ zlen out ≤ USER_STACK_SIZE ∧
     word_at out 0 = zlen args ∧
     (∀ i a, args !! i = Some a →
        bytes_at out (word_at out (Z.of_nat (S i))) (zlen (cstring a)) = cstring a) ∧
     word_at out (1 + zlen args) = 0 ∧
     (∀ i e, envs !! i = Some e →
        bytes_at out (word_at out (Z.of_nat (S (S (length args + i))))) (zlen (cstring e)) = cstring e) ∧
     word_at out (2 + zlen args + zlen envs) = 0).
Proof.
  intros Hfits Htop. rewrite build_initial_stack_eq by done. split.
  { intros Hbig. by rewrite (proj2 (Z.ltb_lt _ _)). }
  intros Hle. rewrite (proj2 (Z.ltb_ge _ _)) by done. eexists. split; [done|].
  destruct Hfits as [_ Htop']. destruct image_eq as (_ & _ & ->).
  pose proof (round_up_spec total_len 16 ltac:(lia)) as [Hr Hrd].
  assert (0 ≤ zlen args ≤ total_len) as Hargs.
  { unfold total_len. rewrite words_len. unfold zlen. destruct execfn; lia. }
  split_and!.
  - done.
  - destruct Hrd as [q Hq]. unfold USER_STACK_SIZE in *. lia.
  - apply (image_word 0); [done|unfold USER_STACK_SIZE, USIZE_MAX in *; lia|done].
  - intros i a Hi. assert ((cstring <$> args) !! i = Some (cstring a)) as Hb by (by rewrite list_lookup_fmap, Hi).
    destruct (image_string [] (cstring <$> args) i (cstring a)
      ((cstring <$> envs) ++ execfn_blob execfn ++ [AUX_RANDOM_BYTES])) as [Hrange Hbytes]; [done..|].
    by rewrite (image_word (S i) _ _ (words_arg i a Hi) Hrange eq_refl).
  - apply (image_word (S (length args))); [apply words_null_args|unfold USIZE_MAX; lia|unfold zlen; lia].
  - intros i e Hi. assert ((cstring <$> envs) !! i = Some (cstring e)) as Hb by (by rewrite list_lookup_fmap, Hi).
    destruct (image_string (cstring <$> args) (cstring <$> envs) i (cstring e)
      (execfn_blob execfn ++ [AUX_RANDOM_BYTES])) as [Hrange Hbytes]; [done..|].
    by rewrite (image_word (S (S (length args + i))) _ _ (words_env i e Hi) Hrange eq_refl).
  - apply (image_word (S (S (length args + length envs))));
      [apply words_null_envs|unfold USIZE_MAX; lia|unfold zlen; lia].
Qed.

End StackImage.

Lemma initial_stack_spec_witness :
  ∃ out, build_initial_stack [[108; 115]; [45; 108]] [[65; 61; 49]] USER_STACK_TOP [(6, 4096)] None = Ok out ∧
    (16 | zlen out) ∧ word_at out 0 = 2 ∧
    bytes_at USER_STACK_TOP out (word_at out 2) 3 = [45; 108; 0].
Proof.
  destruct (initial_stack_spec [[108; 115]; [45; 108]] [[65; 61; 49]] USER_STACK_TOP [(6, 4096)] None)
    as [_ Hok].
  - split; by vm_compute.
  - by vm_compute.
  - destruct Hok as (out & Hb & Hal & _ & H0 & Hargs & _); [by vm_compute|].
    exists out. split_and!; [done|done|done|]. apply (Hargs 1%nat [45; 108]). done.
Defined.

(** ** Header round trips *)
Lemma slice_at pre bs post : slice_of (pre ++ bs ++ post) (zlen pre) (zlen bs) = bs.
Proof.
  unfold slice_of, zlen. rewrite !Nat2Z.id, drop_app_length. apply take_app_length.
Qed.

Lemma read_le_at (n : nat) pre v post off :
  off = zlen pre → 0 ≤ v < 256 ^ Z.of_nat n → zlen pre + Z.of_nat n ≤ USIZE_MAX →
  read_le (Z.of_nat n) (pre ++ to_le_bytes n v ++ post) off = Ok v.
Proof.
  intros -> Hv Hle. unfold read_le. rewrite uadd_ok by lia. cbn [mbind outcome_bind].
  pose proof (length_to_le_bytes n v) as Hl.
  rewrite (proj2 (Z.ltb_ge _ _)) by (rewrite !length_app, Hl; unfold zlen; lia).
  assert (zlen (to_le_bytes n v) = Z.of_nat n) as <- by (unfold zlen; by rewrite Hl).
  by rewrite slice_at, from_to_le_bytes.
Qed.

Definition encode_ph (ph : ProgramHeader) (paddr align : Z) : list Z :=
  to_le_bytes 4 (segment_type ph) ++ to_le_bytes 4 (flags ph) ++ to_le_bytes 8 (offset ph) ++
  to_le_bytes 8 (vaddr ph) ++ to_le_bytes 8 paddr ++ to_le_bytes 8 (file_size ph) ++
  to_le_bytes 8 (mem_size ph) ++ to_le_bytes 8 align.

Definition ph_ok (ph : ProgramHeader) : Prop :=
  0 ≤ segment_type ph < 2 ^ 32 ∧ 0 ≤ flags ph < 2 ^ 32 ∧ 0 ≤ offset ph < 2 ^ 64 ∧
  0 ≤ vaddr ph < 2 ^ 64 ∧ 0 ≤ file_size ph < 2 ^ 64 ∧ 0 ≤ mem_size ph < 2 ^ 64.

(** parsing inverts encoding of program headers, at any place of the
    image. *)
Theorem program_header_roundtrip pre ph paddr align post :
  ph_ok ph → zlen pre + 56 ≤ USIZE_MAX →
  ProgramHeader_parse (pre ++ encode_ph ph paddr align ++ post) (zlen pre) = Ok ph.
Proof.
  destruct ph as [ty fl po va fs ms]. unfold ph_ok, encode_ph.
  cbn [segment_type flags offset vaddr file_size mem_size]. intros (? & ? & ? & ? & ? & ?) Hle.
  unfold ProgramHeader_parse. rewrite uadd_ok by done. cbn [mbind outcome_bind].
  rewrite (proj2 (Z.ltb_ge _ _)).
  2: { rewrite !length_app, !length_to_le_bytes. unfold zlen. lia. }
  unfold read_u32, read_u64. rewrite <- !app_assoc.
  change (read_le 4) with (read_le (Z.of_nat 4)). change (read_le 8) with (read_le (Z.of_nat 8)).
  rewrite (read_le_at 4 pre ty _ (zlen pre)) by (assumption || done || lia). cbn [mbind outcome_bind].
  rewrite (app_assoc pre). rewrite (read_le_at 4 (pre ++ to_le_bytes 4 ty) fl _ (zlen pre + 4)).
  2-4: rewrite ?zlen_app; unfold zlen in *; rewrite ?length_to_le_bytes; assumption || done || lia.
  cbn [mbind outcome_bind]. rewrite (app_assoc (pre ++ _)).
  rewrite (read_le_at 8 ((pre ++ to_le_bytes 4 ty) ++ to_le_bytes 4 fl) po _ (zlen pre + 8)).
  2-4: rewrite ?zlen_app; unfold zlen in *; rewrite ?length_to_le_bytes; assumption || done || lia.
  cbn [mbind outcome_bind]. rewrite (app_assoc (_ ++ to_le_bytes 4 fl)).
  rewrite (read_le_at 8 (((pre ++ to_le_bytes 4 ty) ++ to_le_bytes 4 fl) ++ to_le_bytes 8 po) va _ (zlen pre + 16)).
  2-4: rewrite ?zlen_app; unfold zlen in *; rewrite ?length_to_le_bytes; assumption || done || lia.
  cbn [mbind outcome_bind]. rewrite (app_assoc (_ ++ to_le_bytes 8 po)), (app_assoc (_ ++ to_le_bytes 8 va)).
  set (p5 := (_ ++ to_le_bytes 8 va) ++ to_le_bytes 8 paddr).
  assert (zlen p5 = zlen pre + 32) as H5
    by (unfold p5; rewrite !zlen_app; unfold zlen; rewrite !length_to_le_bytes; lia).
  rewrite (read_le_at 8 p5 fs _ (zlen pre + 32)) by (assumption || lia). cbn [mbind outcome_bind].
  rewrite (app_assoc p5). rewrite (read_le_at 8 (p5 ++ to_le_bytes 8 fs) ms _ (zlen pre + 40)).
  2-4: rewrite ?zlen_app, ?H5; unfold zlen in *; rewrite ?length_to_le_bytes; assumption || done || lia.
  done.
Qed.

Definition sample_ph : ProgramHeader := mkPh 1 5 0 0x10000 0x200 0x1000.

Lemma program_header_roundtrip_witness :
  ProgramHeader_parse (replicate 64 0 ++ encode_ph sample_ph 0x10000 0x1000 ++ [1; 2]) 64 = Ok sample_ph.
Proof. apply (program_header_roundtrip (replicate 64 0)); [by vm_compute|by vm_compute]. Defined.

(** ** Rejected images *)
Section LoadProps.
Context `{HalMemory} (can_reserve : Z → bool).

(** an image that is shorter than an ELF header, lacks the magic number,
    is not 64-bit little-endian, has foreign header sizes or no program
    headers is refused with [ENOEXEC] and maps nothing. *)
Theorem elf_rejects image s :
  zlen image < 64 ∨ take 4 image ≠ ELF_MAGIC ∨
  (∃ h, ElfHeader_parse image = Ok h ∧
     (program_header_size h ≠ 56 ∨ class h ≠ 2 ∨ endianness h ≠ 1 ∨ program_header_num h = 0)) →
  map_elf_segments can_reserve image s = (Err ENOEXEC, s).
Proof.
  intros Hbad. unfold map_elf_segments. stm_step.
  destruct (decide (zlen image < 64)) as [Hs|Hs].
  { unfold ElfHeader_parse. fold (zlen image). by rewrite (proj2 (Z.ltb_lt _ _)). }
  destruct (decide (take 4 image = ELF_MAGIC)) as [Hm|Hm].
  2: { unfold ElfHeader_parse. fold (zlen image). rewrite bool_decide_eq_false_2 by done.
       by rewrite orb_true_r. }
  destruct Hbad as [?|[?|(h & -> & Hbad)]]; [done|done|].
  destruct (Z.eqb_spec (program_header_size h) 56), (Z.eqb_spec (class h) 2), (Z.eqb_spec (endianness h) 1);
    simpl; try done.
  destruct (Z.eqb_spec (program_header_num h) 0); [done|]. lia.
Qed.

(** a header whose program-header table starts within 56 bytes of the top
    of the address space aborts the kernel: the bounds test of
    [ProgramHeader::parse] overflows. *)
Theorem elf_phoff_overflow image h s :
  ElfHeader_parse image = Ok h → program_header_size h = 56 → class h = 2 → endianness h = 1 →
  0 < program_header_num h → USIZE_MAX - 56 < program_header_offset h ≤ USIZE_MAX →
  map_elf_segments can_reserve image s = (Panic, s).
Proof.
  intros Hh Hsz Hc He Hn Hoff. unfold map_elf_segments. stm_step. rewrite Hh, Hsz, Hc, He. simpl.
  rewrite (proj2 (Z.eqb_neq _ _)) by lia. stm_step.
  unfold indices. rewrite seqZ_cons by lia. cbn [foldM].
  assert (scan_ph h image (USIZE_MAX, 0, 0) 0 = Panic) as ->; [|done].
  unfold scan_ph, nth_ph. rewrite Hsz. change (umul 0 56) with (Ok 0). cbn [mbind outcome_bind].
  rewrite uadd_ok by lia. cbn [mbind outcome_bind]. unfold ProgramHeader_parse, uadd.
  by rewrite (proj2 (Z.leb_gt _ _)) by lia.
Qed.

Lemma total_len_auxv args envs top auxv auxv' execfn :
  length auxv = length auxv' →
  total_len args envs top auxv execfn = total_len args envs top auxv' execfn.
Proof. intros Hl. unfold total_len. by rewrite !words_len, Hl. Qed.

(** The bytes of the initial stack of a program: fourteen auxiliary entries
    besides AT_RANDOM and AT_EXECFN. *)
Definition stack_bytes (args envs : list (list Z)) (execfn : option (list Z)) : Z :=
  total_len args envs USER_STACK_TOP (replicate 14 (0, 0)) execfn.

(** A program that was loaded starts with a 16-byte aligned stack pointer
    inside the user stack, exactly the rounded size of its strings, pointers
    and auxiliary vector below the stack top; when those do not fit the user
    stack the load fails. *)
Lemma load_stack_pointer prog interp args envs execfn s li s' :
  stack_bytes args envs execfn ≤ USER_STACK_TOP →
  load_elf_images can_reserve prog interp args envs execfn s = (Ok li, s') →
  stack_bytes args envs execfn ≤ USER_STACK_SIZE ∧
  li_stack_pointer li = USER_STACK_TOP - round_up (stack_bytes args envs execfn) 16 ∧
  (16 | li_stack_pointer li) ∧
  USER_STACK_TOP - USER_STACK_SIZE ≤ li_stack_pointer li ≤ USER_STACK_TOP.
Proof.
  intros Hfit Hload. unfold load_elf_images in Hload. inv_bind.
  repeat match goal with Hx : (_ ≫= _) _ = _ |- _ => apply stm_bind_Ok in Hx as (? & ? & ? & ?) end.
  repeat match goal with
  | Hx : lift _ _ = (Ok _, _) |- _ => unfold lift in Hx; simplify_eq
  | Hx : mret _ _ = (Ok _, _) |- _ => unfold mret, stm_ret in Hx; simplify_eq
  end.
  match goal with Hx : build_initial_stack _ _ _ (auxv_of ?p ?i) _ = Ok ?o |- _ =>
    rename Hx into Hb; assert (total_len args envs USER_STACK_TOP (auxv_of p i) execfn = stack_bytes args envs execfn) as Htl
      by (by apply total_len_auxv);
    destruct (image_eq args envs USER_STACK_TOP (auxv_of p i) execfn) as (_ & _ & Hlen)
  end.
  rewrite build_initial_stack_eq in Hb.
  2: { split; rewrite Htl; unfold USIZE_MAX, USER_STACK_TOP in *; lia. }
  rewrite Htl in Hb. destruct (Z.ltb_spec USER_STACK_SIZE (stack_bytes args envs execfn)) as [|Hle]; [done|].
  simplify_eq. cbn [li_stack_pointer]. unfold zlen in Hlen. rewrite Htl in Hlen. rewrite Hlen in *. inv_bind.
  pose proof (round_up_spec (stack_bytes args envs execfn) 16 ltac:(lia)) as [Hr Hd].
  split_and!; [done|done| | |].
  - apply Z.divide_sub_r; [by exists 0x7ffff00|done].
  - destruct Hd as [q Hq]. unfold USER_STACK_SIZE, USER_STACK_TOP in *. lia.
  - assert (0 ≤ stack_bytes args envs execfn); [|lia]. unfold stack_bytes, total_len, zlen. lia.
Qed.

End LoadProps.

(** An executable header whose program-header table is at [phoff]. *)
Definition sample_image (phoff : Z) : list Z :=
  ELF_MAGIC ++ [2; 1] ++ replicate 10 0 ++ to_le_bytes 2 2 ++ replicate 6 0 ++ to_le_bytes 8 0x10000 ++
  to_le_bytes 8 phoff ++ replicate 14 0 ++ to_le_bytes 2 56 ++ to_le_bytes 2 1 ++ replicate 6 0.

Lemma elf_rejects_witness :
  @map_elf_segments sample_hal (fun _ => true) [0x23; 0x21] sample_space = (Err ENOEXEC, sample_space).
Proof. apply (@elf_rejects sample_hal (fun _ => true) [0x23; 0x21]). left. by vm_compute. Defined.

Lemma elf_phoff_overflow_witness :
  @map_elf_segments sample_hal (fun _ => true) (sample_image USIZE_MAX) sample_space = (Panic, sample_space).
Proof.
  apply (@elf_phoff_overflow sample_hal (fun _ => true) (sample_image USIZE_MAX)
           (mkHeader 2 1 2 0x10000 USIZE_MAX 56 1)); by vm_compute.
Defined.

End Elf.
