(* ===== verification/Path.v ===== *)
(** * Path names (crates/vfs/src/lib.rs)

    The string functions every path operation starts with: [normalize_path],
    [split_parent], [external_mount_path] and the classification of paths.
    A Rust [str] is a [string] of bytes. *)

From S2P Require Import Prelude.
From Stdlib Require Import Ascii.

Open Scope string_scope.
Open Scope Z_scope.

Module Path.

Definition EINVAL : Z := 22.

Definition slash : ascii := "/"%char.

Definition is_slash (c : ascii) : bool := Ascii.eqb c slash.

(** ** Standard library functions on [str] *)

(** [s.split('/')] *)
Fixpoint split (s : string) : list string :=
  match s with
  | EmptyString => [""]
  | String c s' =>
      if is_slash c then "" :: split s'
      else match split s' with
           | h :: t => String c h :: t
           | [] => [String c ""]
           end
  end.

(** [s.trim_end_matches('/')] *)
Fixpoint trim_end (s : string) : string :=
  match s with
  | EmptyString => ""
  | String c s' =>
      let t := trim_end s' in
      if String.eqb t "" && is_slash c then "" else String c t
  end.

(** [s.rfind('/')]: the part before the last slash and the part behind it. *)
Fixpoint rsplit (s : string) : option (string * string) :=
  match s with
  | EmptyString => None
  | String c s' =>
      match rsplit s' with
      | Some (a, b) => Some (String c a, b)
      | None => if is_slash c then Some ("", s') else None
      end
  end.

Definition starts_with (s p : string) : bool := String.prefix p s.

(** [s.strip_prefix(p)] *)
Fixpoint strip_prefix (s p : string) : option string :=
  match p, s with
  | EmptyString, _ => Some s
  | String a p', String b s' => if Ascii.eqb a b then strip_prefix s' p' else None
  | String _ _, EmptyString => None
  end.

(** [s.ends_with(p)] and [s.contains(p)] *)
Fixpoint ends_with (s p : string) : bool :=
  String.eqb s p || match s with EmptyString => false | String _ s' => ends_with s' p end.
Fixpoint contains_str (s p : string) : bool :=
  starts_with s p || match s with EmptyString => false | String _ s' => contains_str s' p end.

(** [components.join("/")] with a leading slash. *)
Fixpoint render_tail (cs : list string) : string :=
  match cs with
  | [] => ""
  | c :: cs' => String slash (c ++ render_tail cs')
  end.

(** ** Normalisation *)
(** The component stack: one step of the loop of [normalize_path]. *)
Definition push_component (components : list string) (component : string) : list string :=
  if String.eqb component "" || String.eqb component "." then components
  else if String.eqb component ".." then removelast components
  else components ++ [component].

Definition source_path (cwd path : string) : string :=
  if starts_with path "/" then path
  else if String.eqb cwd "/" then "/" ++ path
  else trim_end cwd ++ "/" ++ path.

Definition render (components : list string) : string :=
  match components with
  | [] => "/"
  | _ => render_tail components
  end.

Definition normalize_path (cwd path : string) : string :=
  render (foldl push_component [] (split (source_path cwd path))).

Definition split_parent (path : string) : outcome (string * string) :=
  let trimmed := trim_end path in
  '(before, name) ← ok_or (rsplit trimmed) EINVAL;
  let parent := if String.eqb before "" then "/" else before in
  if String.eqb name "" then Err EINVAL else Ok (parent, name).

(** The path inside a mount at [target]. *)
Definition external_mount_path (target absolute : string) : option string :=
  if String.eqb target "/" then Some absolute
  else if String.eqb absolute target then Some "/"
  else
    suffix ← strip_prefix absolute target;
    suffix ← strip_prefix suffix "/";
    Some ("/" ++ suffix).

Definition is_shell_token_path (absolute : string) : bool :=
  String.eqb absolute "/[" || String.eqb absolute "/]".

Definition is_memory_preferred_path (absolute : string) : bool :=
  existsb (String.eqb absolute) ["/dev"; "/proc"; "/tmp"; "/mnt"] ||
  starts_with absolute "/dev/" || starts_with absolute "/proc/" ||
  starts_with absolute "/tmp/" || starts_with absolute "/mnt/".

Definition is_libctest_probe_path (path : string) : bool :=
  existsb (String.eqb path)
    ["/musl/run-static.sh"; "/musl/run-dynamic.sh"; "/musl/libctest_testcode.sh";
     "/musl/runtest.exe"; "/musl/entry-static.exe"; "/musl/entry-dynamic.exe"].

Definition O_DIRECTORY : Z := 65536.

Definition should_use_statless_external_open (absolute : string) (flags : Z) : bool :=
  if negb (Z.land flags O_DIRECTORY =? 0) then false
  else if String.eqb absolute "/etc/localtime" then true
  else if ends_with absolute "/basic/test_echo" then true
  else if is_libctest_probe_path absolute then true
  else if negb (starts_with absolute "/lib/" || starts_with absolute "/lib64/" ||
                starts_with absolute "/glibc/lib/" || starts_with absolute "/musl/lib/")
  then false
  else contains_str absolute "ld-linux" || contains_str absolute "ld-musl" ||
       ends_with absolute ".so" || contains_str absolute ".so.".

(** ** Canonical paths *)

Fixpoint no_slash (s : string) : bool :=
  match s with
  | EmptyString => true
  | String c s' => negb (is_slash c) && no_slash s'
  end.

(** A component as it may appear in a directory. *)
Definition good_name (s : string) : bool :=
  no_slash s && negb (String.eqb s "") && negb (String.eqb s ".") && negb (String.eqb s "..").

Definition canonical (p : string) : Prop :=
  ∃ cs, forallb good_name cs = true ∧ p = render cs.

(** The non-empty pieces, as [lookup_abs] walks them. *)
Definition components (p : string) : list string :=
  filter (fun c => c ≠ "") (split p).

Lemma str_app_cons c a s : String c a ++ s = String c (a ++ s).
Proof. done. Qed.

Lemma str_app_nil_r s : s ++ "" = s.
Proof. induction s as [|c s IH]; [done|]. by rewrite str_app_cons, IH. Qed.

Lemma split_no_slash s : no_slash s = true → split s = [s].
Proof.
  induction s as [|c s IH]; [done|]. simpl. intros [Hc Hs]%andb_true_iff.
  apply negb_true_iff in Hc. by rewrite Hc, IH.
Qed.

Lemma split_app_slash a s : no_slash a = true → split (a ++ String slash s) = a :: split s.
Proof.
  induction a as [|c a IH]; cbn [no_slash].
  - done.
  - intros [Hc Ha]%andb_true_iff. apply negb_true_iff in Hc. rewrite str_app_cons. simpl.
    by rewrite Hc, IH.
Qed.

Lemma split_pieces s : Forall (fun c => no_slash c = true) (split s).
Proof.
  induction s as [|c s IH]; simpl; [by repeat constructor|].
  destruct (is_slash c) eqn:Hc; [by constructor|].
  destruct (split s) as [|h t]; [constructor; [simpl; by rewrite Hc|done]|].
  apply Forall_cons in IH as [Hh Ht]. constructor; [|done]. simpl. by rewrite Hc, Hh.
Qed.

Lemma good_name_inv s :
  good_name s = true → no_slash s = true ∧ s ≠ "" ∧ s ≠ "." ∧ s ≠ "..".
Proof.
  unfold good_name. intros H. reflect_bools.
  split_and!; [done|by apply String.eqb_neq..].
Qed.

Lemma split_render_tail cs :
  forallb good_name cs = true → split (render_tail cs) = match cs with [] => [""] | _ => "" :: cs end.
Proof.
  induction cs as [|c cs IH]; [done|]. simpl. intros [Hc Hcs]%andb_true_iff.
  apply good_name_inv in Hc as (Hns & _). specialize (IH Hcs). f_equal.
  destruct cs as [|c' cs'].
  - simpl. rewrite str_app_nil_r. by apply split_no_slash.
  - cbn [render_tail] in *. rewrite split_app_slash by done. f_equal. simpl in IH. by injection IH.
Qed.

(** Walking a rendered path visits its components. *)
Lemma components_render cs : forallb good_name cs = true → components (render cs) = cs.
Proof.
  intros Hcs. assert (filter (fun c => c ≠ "") cs = cs) as Hfil.
  { induction cs as [|c cs IH]; [done|]. simpl in Hcs. apply andb_true_iff in Hcs as [Hc Hcs].
    apply good_name_inv in Hc as (_ & Hne & _). rewrite filter_cons_True by done. by rewrite IH. }
  unfold components, render. destruct cs as [|c cs']; [done|].
  rewrite split_render_tail by done. rewrite filter_cons_False by auto. done.
Qed.

Lemma push_components_good cs acc :
  Forall (fun c => no_slash c = true) cs → forallb good_name acc = true →
  forallb good_name (foldl push_component acc cs) = true.
Proof.
  intros Hcs. revert acc; induction Hcs as [|c cs Hc _ IH]; intros acc Hacc; [done|].
  simpl. apply IH. unfold push_component.
  destruct (String.eqb c "") eqn:E1, (String.eqb c ".") eqn:E2; simpl; try done.
  destruct (String.eqb c "..") eqn:E3.
  - clear - Hacc. induction acc as [|a acc IH]; [done|]. simpl in *.
    apply andb_true_iff in Hacc as [Ha Hacc]. destruct acc; [done|]. simpl. rewrite Ha. by apply IH.
  - rewrite forallb_app, Hacc. simpl. unfold good_name. by rewrite Hc, E1, E2, E3.
Qed.

Lemma push_components_id cs acc :
  forallb good_name cs = true → foldl push_component acc cs = (acc ++ cs)%list.
Proof.
  revert acc; induction cs as [|c cs IH]; intros acc; simpl; [by rewrite app_nil_r|].
  intros [Hc Hcs]%andb_true_iff. apply good_name_inv in Hc as (_ & H1 & H2 & H3).
  unfold push_component at 2. apply String.eqb_neq in H1, H2, H3. rewrite H1, H2, H3. simpl.
  rewrite IH by done. by rewrite <- app_assoc.
Qed.

Lemma normalize_render cwd path :
  ∃ cs, forallb good_name cs = true ∧ normalize_path cwd path = render cs.
Proof.
  eexists. split; [|done]. apply push_components_good; [apply split_pieces|done].
Qed.

(** [normalize_path] always returns a canonical absolute path: no empty,
    dot or dot-dot component and no doubled or trailing slash. *)
Lemma normalize_canonical cwd path : canonical (normalize_path cwd path).
Proof. apply normalize_render. Qed.

Lemma starts_with_render cs : starts_with (render cs) "/" = true.
Proof. destruct cs as [|c cs]; [done|]. unfold starts_with, render. cbn [render_tail]. by destruct (c ++ _). Qed.

Lemma normalize_render_id cwd cs :
  forallb good_name cs = true → normalize_path cwd (render cs) = render cs.
Proof.
  intros Hcs. unfold normalize_path, source_path. rewrite starts_with_render. f_equal.
  destruct cs as [|c cs]; [done|]. unfold render. rewrite split_render_tail by done. simpl.
  apply (push_components_id (c :: cs) []). done.
Qed.

(** normalisation is idempotent: a canonical path is its own normal form
    from every working directory, so normalising twice changes nothing. *)
Theorem normalize_idempotent cwd cwd' path :
  normalize_path cwd' (normalize_path cwd path) = normalize_path cwd path.
Proof.
  destruct (normalize_render cwd path) as (cs & Hcs & ->). by apply normalize_render_id.
Qed.

(** ** Parent and name *)
Lemma trim_end_app a b : trim_end b = b → b ≠ "" → trim_end (a ++ b) = a ++ b.
Proof.
  intros Hb Hne. induction a as [|c a IH]; [done|]. rewrite str_app_cons. simpl. rewrite IH.
  destruct (String.eqb_spec (a ++ b) "") as [He|He]; [|done].
  exfalso. destruct a; [done|]. by rewrite str_app_cons in He.
Qed.

Lemma trim_end_no_slash s : no_slash s = true → trim_end s = s.
Proof.
  induction s as [|c s IH]; [done|]. simpl. intros [Hc Hs]%andb_true_iff.
  apply negb_true_iff in Hc. by rewrite IH, Hc, andb_false_r.
Qed.

Lemma rsplit_no_slash s : no_slash s = true → rsplit s = None.
Proof.
  induction s as [|c s IH]; [done|]. simpl. intros [Hc Hs]%andb_true_iff.
  apply negb_true_iff in Hc. by rewrite IH, Hc.
Qed.

Lemma rsplit_last a b : no_slash b = true → rsplit (a ++ String slash b) = Some (a, b).
Proof.
  intros Hb. induction a as [|c a IH].
  - change ("" ++ String slash b) with (String slash b). simpl. by rewrite rsplit_no_slash.
  - rewrite str_app_cons. simpl. by rewrite IH.
Qed.

Lemma str_app_assoc a b c : a ++ b ++ c = (a ++ b) ++ c.
Proof. induction a as [|x a IH]; [done|]. by rewrite !str_app_cons, IH. Qed.

Lemma render_tail_app cs ds : render_tail (cs ++ ds) = render_tail cs ++ render_tail ds.
Proof.
  induction cs as [|c cs IH]; [done|]. cbn [app render_tail].
  by rewrite IH, str_app_cons, str_app_assoc.
Qed.

Lemma render_snoc cs n : render (cs ++ [n])%list = render_tail cs ++ String slash n.
Proof.
  assert (∀ l, l ≠ [] → render l = render_tail l) as Hr by (by intros []).
  rewrite Hr by (by destruct cs). rewrite render_tail_app. cbn [render_tail].
  by rewrite str_app_nil_r.
Qed.

Lemma split_parent_render cs n :
  forallb good_name (cs ++ [n])%list = true → split_parent (render (cs ++ [n])%list) = Ok (render cs, n).
Proof.
  rewrite forallb_app. intros [Hcs Hn]%andb_true_iff. simpl in Hn. rewrite andb_true_r in Hn.
  apply good_name_inv in Hn as (Hns & Hne & _). unfold split_parent. rewrite render_snoc.
  rewrite trim_end_app; [|simpl; by rewrite trim_end_no_slash, (proj2 (String.eqb_neq _ _) Hne)|done].
  rewrite rsplit_last by done. cbn [ok_or mbind outcome_bind].
  rewrite (proj2 (String.eqb_neq n "")) by done. do 2 f_equal.
  by destruct cs as [|c cs].
Qed.

(** [split_parent] inverts joining: the parent and name of a canonical
    path are its leading components and its last one, and the root, having no
    name, is refused. *)
Theorem split_parent_spec p :
  canonical p →
  (p = "/" ∧ split_parent p = Err EINVAL) ∨
  ∃ cs n, good_name n = true ∧ forallb good_name cs = true ∧ p = render (cs ++ [n])%list ∧
    split_parent p = Ok (render cs, n).
Proof.
  intros (cs & Hcs & ->). destruct cs as [|n cs _] using rev_ind; [by left|].
  right. exists cs, n. rewrite split_parent_render by done.
  rewrite forallb_app in Hcs. apply andb_true_iff in Hcs as [Hcs Hn].
  simpl in Hn. by rewrite andb_true_r in Hn.
Qed.

Lemma split_parent_spec_witness :
  split_parent "/usr/lib" = Ok ("/usr", "lib").
Proof.
  destruct (split_parent_spec "/usr/lib") as [[? _]|(cs & n & _ & _ & Hp & Hs)].
  - exists ["usr"; "lib"]. by split.
  - done.
  - by vm_compute.
Defined.

(** ** Paths below a mount point *)
Lemma strip_prefix_app a b : strip_prefix (a ++ b) a = Some b.
Proof.
  induction a as [|c a IH]; [by destruct b|]. rewrite str_app_cons. simpl. by rewrite Ascii.eqb_refl.
Qed.

Lemma strip_prefix_Some s p r : strip_prefix s p = Some r → s = p ++ r.
Proof.
  revert s; induction p as [|c p IH]; intros s Hs; simpl in Hs.
  - destruct s; by injection Hs as <-.
  - destruct s as [|d s]; [done|]. simpl in Hs.
    destruct (Ascii.eqb_spec c d) as [<-|Hne]; simpl in Hs; [|congruence].
    rewrite str_app_cons. f_equal. by apply IH.
Qed.

(** Cutting a string at its slashes is injective. *)
Lemma render_tail_prefix ts cs r :
  forallb good_name ts = true → forallb good_name cs = true →
  render_tail cs = render_tail ts ++ String slash r → ∃ ds, ds ≠ [] ∧ cs = (ts ++ ds)%list ∧ render_tail ds = String slash r.
Proof.
  revert cs; induction ts as [|t ts IH]; intros cs Hts Hcs Heq.
  - exists cs. split_and!; [|done|done]. by intros ->.
  - destruct cs as [|c cs]; [done|]. cbn [render_tail] in Heq. rewrite str_app_cons in Heq.
    injection Heq as Heq. simpl in Hts, Hcs. apply andb_true_iff in Hts as [Ht Hts], Hcs as [Hc Hcs].
    apply good_name_inv in Ht as (Ht & _), Hc as (Hc & _).
    assert (c = t ∧ render_tail cs = render_tail ts ++ String slash r) as [-> Hrest].
    { rewrite <- str_app_assoc in Heq. clear IH Hts Hcs.
      assert (∃ u, render_tail ts ++ String slash r = String slash u) as [u Hu].
      { destruct ts; [by eexists|]. cbn [render_tail]. rewrite str_app_cons. by eexists. }
      assert (render_tail cs = "" ∨ ∃ v, render_tail cs = String slash v) as Hv.
      { destruct cs; [by left|right; cbn [render_tail]; by eexists]. }
      rewrite Hu in *. clear Hu.
      revert t Ht Heq. induction c as [|x c IHc]; intros [|y t] Ht Heq.
      - done.
      - exfalso. simpl in Ht. apply andb_true_iff in Ht as [Hy _]. rewrite str_app_cons in Heq.
        change ("" ++ render_tail cs) with (render_tail cs) in Heq.
        destruct Hv as [Hv|[v Hv]]; rewrite Hv in Heq; [done|]. injection Heq as <- _. done.
      - exfalso. simpl in Hc. apply andb_true_iff in Hc as [Hx _]. rewrite str_app_cons in Heq.
        change ("" ++ String slash u) with (String slash u) in Heq. injection Heq as -> _. done.
      - rewrite !str_app_cons in Heq. injection Heq as -> Heq.
        simpl in Ht, Hc. apply andb_true_iff in Ht as [_ Ht], Hc as [_ Hc].
        destruct (IHc Hc t Ht Heq) as [-> ?]. done. }
    destruct (IH cs Hts Hcs Hrest) as (ds & ? & -> & ?). by exists ds.
Qed.

(** resolving a path against a mount point: a path gets an in-mount path
    exactly when it lies at or below the mount point, component by component,
    and the in-mount path is the rest of its components. *)
Theorem external_mount_path_spec ts cs :
  forallb good_name ts = true → forallb good_name cs = true →
  (∀ p, external_mount_path (render ts) (render cs) = Some p ↔
     ∃ ds, cs = (ts ++ ds)%list ∧ p = render ds).
Proof.
  intros Hts Hcs p. unfold external_mount_path.
  destruct (String.eqb_spec (render ts) "/") as [Ht|Ht].
  { assert (ts = []) as ->.
    { destruct ts as [|t ts]; [done|]. exfalso. cbn [render render_tail] in Ht. injection Ht as Ht.
      simpl in Hts. apply andb_true_iff in Hts as [Hg _]. apply good_name_inv in Hg as (_ & Hne & _).
      by destruct t. }
    split; [intros [= <-]; by exists cs|]. intros (ds & -> & ->). done. }
  assert (ts ≠ []) as Hne by (by intros ->).
  destruct (String.eqb_spec (render cs) (render ts)) as [He|He].
  { assert (cs = ts) as -> by (rewrite <- (components_render cs), He by done; by apply components_render).
    split; [intros [= <-]; exists []; by rewrite app_nil_r|].
    intros (ds & Hds & ->). assert (ds = []) as ->; [|done].
    apply (f_equal length) in Hds. rewrite length_app in Hds. destruct ds; [done|simpl in Hds; lia]. }
  assert (render ts = render_tail ts) as Hrt by (by destruct ts).
  split.
  - destruct (strip_prefix (render cs) (render ts)) as [s|] eqn:H1; [|done]. simpl.
    destruct (strip_prefix s "/") as [r|] eqn:H2; [|done]. simpl. intros [= <-].
    apply strip_prefix_Some in H1, H2. subst s. rewrite Hrt in H1.
    assert (render cs = render_tail cs) as Hrc.
    { destruct cs; [|done]. exfalso. destruct ts; [done|]. cbn [render_tail] in H1.
      rewrite str_app_cons in H1. injection H1 as H1. simpl in Hts. apply andb_true_iff in Hts as [Hg _].
      apply good_name_inv in Hg as (_ & Hn & _). by destruct s. }
    rewrite Hrc in H1. destruct (render_tail_prefix ts cs r Hts Hcs H1) as (ds & Hd & -> & Hr).
    exists ds. split; [done|]. destruct ds; [done|]. unfold render. by rewrite Hr.
  - intros (ds & -> & ->). destruct ds as [|d ds]; [by rewrite app_nil_r in He|].
    assert (render (ts ++ d :: ds)%list = render_tail ts ++ render_tail (d :: ds)) as ->.
    { rewrite <- render_tail_app. by destruct ts. }
    rewrite Hrt, strip_prefix_app. cbn [mbind option_bind render_tail].
    change (String slash (d ++ render_tail ds)) with ("/" ++ (d ++ render_tail ds)).
    by rewrite strip_prefix_app.
Qed.

Lemma external_mount_path_spec_witness :
  external_mount_path "/musl" "/musl/bin/sh" = Some "/bin/sh" ∧
  external_mount_path "/musl" "/muslx" = None.
Proof.
  split.
  - apply (external_mount_path_spec ["musl"] ["musl"; "bin"; "sh"] eq_refl eq_refl). by exists ["bin"; "sh"].
  - destruct (external_mount_path "/musl" "/muslx") as [p|] eqn:Hp; [|done].
    apply (external_mount_path_spec ["musl"] ["muslx"] eq_refl eq_refl) in Hp as (ds & Hd & _). done.
Defined.

End Path.
