(* ===== verification/FileObject.v ===== *)
(** * Open files (crates/vfs/src/lib.rs: nodes, handles, [KernelObject])

    The object layer behind a file descriptor: regular and proc files, pipes,
    event counters, epoll sets, sockets, devices and ext4 files.  An
    [Arc<Node>] is an identifier of the node store and an
    [Arc<Mutex<SocketChannel>>] one of the channel store, so that handles
    that share a node share its data.  The mounted ext4 file systems are an
    interface: [Ext4Ops] has the operations the code calls on an
    [Ext4Mount]. *)

From S2P Require Import Prelude Path.

Open Scope string_scope.
Open Scope list_scope.
Open Scope Z_scope.

Module Obj.
Import Path.

Definition ENOENT : Z := 2.
Definition EAGAIN : Z := 11.
Definition ENOMEM : Z := 12.
Definition EEXIST : Z := 17.
Definition ENOTDIR : Z := 20.
Definition EISDIR : Z := 21.
Definition ENOSPC : Z := 28.
Definition EROFS : Z := 30.
Definition EPIPE : Z := 32.
Definition ENOTEMPTY : Z := 39.
Definition ELOOP : Z := 40.
Definition ENOTSOCK : Z := 88.
Definition EOPNOTSUPP : Z := 95.
Definition EADDRINUSE : Z := 98.
Definition EADDRNOTAVAIL : Z := 99.

Definition O_RDONLY : Z := 0.
Definition O_WRONLY : Z := 1.
Definition O_RDWR : Z := 2.
Definition O_CREAT : Z := 64.
Definition O_TRUNC : Z := 512.

Definition S_IFREG : Z := 0x8000.
Definition S_IFDIR : Z := 0x4000.
Definition S_IFCHR : Z := 0x2000.
Definition S_IFIFO : Z := 0x1000.
Definition S_IFLNK : Z := 0xa000.
Definition S_IFSOCK : Z := 0xc000.

Definition INMEM_FILE_SIZE_LIMIT : Z := 64 * 1024 * 1024.

Inductive NodeKind :=
  KDirectory | KFile | KCharDevice | KProc | KPipe | KSymlink | KEvent | KEpoll | KSocket | KPidFd.

Inductive PipeEnd := PNone | PRead | PWrite.

Inductive ObjectKind :=
  ORegular | ODirectory | OPipe | OEventFd | OEpoll | OMemFd | OPidFd | OSocketLocal | OCharDevice
  | OProcfs | OSymlink.

#[export] Instance NodeKind_eq_dec : EqDecision NodeKind.
Proof. solve_decision. Defined.
#[export] Instance PipeEnd_eq_dec : EqDecision PipeEnd.
Proof. solve_decision. Defined.

Record FileStat := mkStat { st_mode : Z; st_size : Z; st_nlink : Z }.
Record EpollWatch := mkWatch { w_fd : Z; w_events : Z }.

(** The two inboxes and the number of open handles of each side. *)
Record SocketChannel := mkChannel { inbox : list Z * list Z; open_sides : Z * Z }.

Definition side_get {A} (p : A * A) (side : Z) : A := if side =? 0 then p.1 else p.2.
Definition side_set {A} (p : A * A) (side : Z) (x : A) : A * A :=
  if side =? 0 then (x, p.2) else (p.1, x).

Record SocketPending := mkPending {
  sp_path : option string;
  sp_listening : bool;
  sp_family : Z;
  sp_sock_type : Z;
  sp_multicast_joined : bool;
  sp_pending : list Z;
}.

Record RawSocketState := mkRaw {
  rs_family : Z;
  rs_protocol : Z;
  rs_bound_path : option string;
  rs_checksum_offset : option Z;
  rs_icmp6_filter : list Z;
  rs_ipv6_recv_opts : gmap Z Z;
  rs_inbox : list (list Z);
}.

Inductive Ext4NodeKind := E4Directory | E4Symlink | E4Other.

(** What the kernel calls on an [Ext4Mount]. *)
Class Ext4Ops (M : Type) := {
  e4_stat : M → string → outcome FileStat;
  e4_read_range : M → string → Z → Z → outcome (list Z);
  e4_read_link : M → string → outcome string;
  e4_read_dir : M → string → outcome (list (string * Ext4NodeKind * FileStat));
  e4_read_dir_lite : M → string → outcome (list (string * Ext4NodeKind));
}.

Section Objects.
Context {M : Type} `{!Ext4Ops M}.

Record Ext4FileState := mkE4File {
  ef_mount : M; ef_path : string; ef_mode : Z; ef_size : Z; ef_cached : option (list Z) }.
Record Ext4DirState := mkE4Dir {
  ed_mount : M; ed_path : string; ed_mode : Z; ed_size : Z;
  ed_entries : option (list (string * Ext4NodeKind)) }.

Inductive NodeData :=
  | Directory (entries : gmap string Z)
  | File (buf : list Z)
  | Ext4File (st : Ext4FileState)
  | Ext4Dir (st : Ext4DirState)
  | CharDevice
  | ProcFile (buf : list Z)
  | Pipe (buf : list Z) (readers writers : Z)
  | Symlink (target : string)
  | Event (counter : Z)
  | Epoll (watches : list EpollWatch)
  | SockPending (st : SocketPending)
  | SockConnected (channel side family sock_type : Z) (multicast_joined : bool)
  | SockRaw (st : RawSocketState)
  | PidFd (pid : Z).

Record Node := mkNode { kind : NodeKind; data : NodeData }.

(** The shared heap of nodes and channels, and the console output. *)
Record store := mkStore {
  nodes : gmap Z Node;
  channels : gmap Z SocketChannel;
  console : list Z;
}.

Record FileHandle := mkHandle {
  h_node : Z;
  h_offset : Z;
  h_flags : Z;
  h_path : string;
  h_pipe_end : PipeEnd;
}.

Definition with_offset (h : FileHandle) (o : Z) : FileHandle :=
  mkHandle (h_node h) o (h_flags h) (h_path h) (h_pipe_end h).
Definition with_path (h : FileHandle) (p : string) : FileHandle :=
  mkHandle (h_node h) (h_offset h) (h_flags h) p (h_pipe_end h).

Definition node_at (s : store) (n : Z) : outcome Node := unwrap (nodes s !! n).
Definition channel_at (s : store) (c : Z) : outcome SocketChannel := unwrap (channels s !! c).

Definition set_data (s : store) (n : Z) (d : NodeData) : store :=
  mkStore (alter (fun x => mkNode (kind x) d) n (nodes s)) (channels s) (console s).
Definition set_channel (s : store) (c : Z) (ch : SocketChannel) : store :=
  mkStore (nodes s) (<[c := ch]> (channels s)) (console s).
Definition write_console_bytes (s : store) (bs : list Z) : store :=
  mkStore (nodes s) (channels s) (console s ++ bs).

(** A handle operation: the handle and the store it works on. *)
Abbreviation hstm := (stm (FileHandle * store)).

Definition my_node : hstm Node := fun '(h, s) => (node_at s (h_node h), (h, s)).
Definition set_my_data (d : NodeData) : hstm unit := fun '(h, s) => (Ok tt, (h, set_data s (h_node h) d)).
Definition set_offset (o : Z) : hstm unit := fun '(h, s) => (Ok tt, (with_offset h o, s)).
Definition my_handle : hstm FileHandle := fun '(h, s) => (Ok h, (h, s)).
Definition my_channel (c : Z) : hstm SocketChannel := fun '(h, s) => (channel_at s c, (h, s)).
Definition set_my_channel (c : Z) (ch : SocketChannel) : hstm unit :=
  fun '(h, s) => (Ok tt, (h, set_channel s c ch)).
Definition to_console (bs : list Z) : hstm unit := fun '(h, s) => (Ok tt, (h, write_console_bytes s bs)).

Definition ztake {A} (n : Z) (l : list A) : list A := take (Z.to_nat n) l.
Definition zdrop {A} (n : Z) (l : list A) : list A := drop (Z.to_nat n) l.

(** ** Sizes *)
Section Size.
Context (can_reserve : Z → bool).

Definition ensure_file_size (buf : list Z) (size : Z) : outcome (list Z) :=
  if size <=? zlen buf then Ok buf
  else if INMEM_FILE_SIZE_LIMIT <? size then Err ENOSPC
  else if can_reserve (size - zlen buf)
  then Ok (buf ++ replicate (Z.to_nat (size - zlen buf)) 0)
  else Err ENOMEM.

(** [buf[start..end]] on the clamped range of [read_object]. *)
Definition read_buf (buf : list Z) (len : Z) : hstm (list Z) :=
  h ← my_handle;
  let st := Z.min (h_offset h) (zlen buf) in
  t ← lift (uadd st len);
  let en := Z.min t (zlen buf) in
  _ ← set_offset en;
  mret (ztake (en - st) (zdrop st buf)).

Definition read_object (len : Z) : hstm (list Z) :=
  nd ← my_node;
  h ← my_handle;
  match data nd with
  | Directory _ => fail EISDIR
  | File buf | ProcFile buf => read_buf buf len
  | Ext4File st =>
      match ef_cached st with
      | Some cached => read_buf cached len
      | None =>
          bs ← lift (e4_read_range (ef_mount st) (ef_path st) (h_offset h) len);
          o ← lift (uadd (h_offset h) (zlen bs));
          _ ← set_offset o;
          mret bs
      end
  | Ext4Dir _ => fail EISDIR
  | Pipe buf readers writers =>
      if bool_decide (h_pipe_end h = PWrite) then fail EINVAL
      else
        match buf with
        | [] => if writers =? 0 then mret [] else fail EAGAIN
        | _ :: _ =>
            let en := Z.min len (zlen buf) in
            _ ← set_my_data (Pipe (zdrop en buf) readers writers);
            mret (ztake en buf)
        end
  | Symlink target =>
      let bs := (fun c => Z.of_nat (Ascii.nat_of_ascii c)) <$> String.list_ascii_of_string target in
      mret (ztake (Z.min (zlen bs) len) bs)
  | Event counter =>
      if len <? 8 then fail EINVAL
      else
        _ ← set_my_data (Event 0);
        mret (to_le_bytes 8 counter)
  | Epoll _ | SockPending _ | PidFd _ => fail EINVAL
  | SockConnected c side _ _ _ =>
      ch ← my_channel c;
      match side_get (inbox ch) side with
      | [] =>
          if side_get (open_sides ch) (1 - side) =? 0 then mret [] else fail EAGAIN
      | ib =>
          let en := Z.min len (zlen ib) in
          _ ← set_my_channel c (mkChannel (side_set (inbox ch) side (zdrop en ib)) (open_sides ch));
          mret (ztake en ib)
      end
  | SockRaw st =>
      match rs_inbox st with
      | [] => fail EAGAIN
      | packet :: rest =>
          let inbox' := if len <? zlen packet then zdrop len packet :: rest else rest in
          _ ← set_my_data (SockRaw (mkRaw (rs_family st) (rs_protocol st) (rs_bound_path st)
                 (rs_checksum_offset st) (rs_icmp6_filter st) (rs_ipv6_recv_opts st) inbox'));
          mret (if len <? zlen packet then ztake len packet else packet)
      end
  | CharDevice =>
      if String.eqb (h_path h) "/dev/zero" then mret (replicate (Z.to_nat len) 0)
      else if String.eqb (h_path h) "/dev/random" || String.eqb (h_path h) "/dev/urandom"
      then mret (replicate (Z.to_nat len) 0)
      else mret []
  end.

(** [if size > buf.len() { ensure_file_size(buf, size)? }] on the node. *)
Definition grow_buf (wrap : list Z → NodeData) (buf : list Z) (size : Z) : hstm (list Z) :=
  if zlen buf <? size then
    buf' ← lift (ensure_file_size buf size);
    _ ← set_my_data (wrap buf');
    mret buf'
  else mret buf.

(** The regular-file branch of [write_object]; [wrap] is [File] or [ProcFile].
    A buffer that was extended before a later failure stays extended. *)
Definition write_buf (wrap : list Z → NodeData) (buf bs : list Z) : hstm Z :=
  h ← my_handle;
  let offset := h_offset h in
  buf ← grow_buf wrap buf offset;
  let end_ := saturating_add offset (zlen bs) in
  buf ← grow_buf wrap buf end_;
  e ← lift (uadd offset (zlen bs));
  if zlen buf <? e then lift Panic
  else
    _ ← set_my_data (wrap (ztake offset buf ++ bs ++ zdrop e buf));
    _ ← set_offset e;
    mret (zlen bs).

Definition write_object (bs : list Z) : hstm Z :=
  nd ← my_node;
  h ← my_handle;
  match data nd with
  | Directory _ => fail EISDIR
  | File buf => write_buf File buf bs
  | ProcFile buf => write_buf ProcFile buf bs
  | Ext4File _ | Ext4Dir _ => fail EROFS
  | Pipe buf readers writers =>
      if bool_decide (h_pipe_end h = PRead) then fail EINVAL
      else match bs with
           | [] => mret 0
           | _ => if readers =? 0 then fail EPIPE
                  else _ ← set_my_data (Pipe (buf ++ bs) readers writers); mret (zlen bs)
           end
  | Symlink _ | Epoll _ | SockPending _ | SockRaw _ | PidFd _ => fail EINVAL
  | Event counter =>
      if zlen bs <? 8 then fail EINVAL
      else
        _ ← set_my_data (Event (saturating_add counter (from_le_bytes (ztake 8 bs))));
        mret 8
  | SockConnected c side _ _ _ =>
      ch ← my_channel c;
      let peer := 1 - side in
      if side_get (open_sides ch) peer =? 0 then fail EPIPE
      else
        _ ← set_my_channel c
              (mkChannel (side_set (inbox ch) peer (side_get (inbox ch) peer ++ bs)) (open_sides ch));
        mret (zlen bs)
  | CharDevice =>
      if existsb (String.eqb (h_path h)) ["/dev/null"; "/dev/zero"; "/dev/random"; "/dev/urandom"]
      then mret (zlen bs)
      else _ ← to_console bs; mret (zlen bs)
  end.

End Size.

(** ** Metadata *)
Definition data_size (s : store) (d : NodeData) : outcome Z :=
  match d with
  | Directory entries => Ok (Z.of_nat (size entries))
  | File buf | ProcFile buf => Ok (zlen buf)
  | Ext4File st => Ok (ef_size st)
  | Ext4Dir st => Ok (ed_size st)
  | Pipe buf _ _ => Ok (zlen buf)
  | Symlink target => Ok (Z.of_nat (String.length target))
  | Event _ => Ok 8
  | Epoll watches => Ok (zlen watches)
  | SockPending st => Ok (zlen (sp_pending st))
  | SockConnected c side _ _ _ => ch ← channel_at s c; Ok (zlen (side_get (inbox ch) side))
  | SockRaw st => Ok (zlen (rs_inbox st))
  | PidFd _ => Ok 0
  | CharDevice => Ok 0
  end.

Definition default_mode (k : NodeKind) : Z :=
  match k with
  | KDirectory => Z.lor S_IFDIR 0x1ed
  | KFile | KProc => Z.lor S_IFREG 0x1a4
  | KCharDevice => Z.lor S_IFCHR 0x180
  | KPipe => Z.lor S_IFIFO 0x1a4
  | KSymlink => Z.lor S_IFLNK 0x1ff
  | KEvent | KEpoll | KSocket => Z.lor S_IFSOCK 0x1a4
  | KPidFd => Z.lor S_IFREG 0x124
  end.

Definition stat_from_locked (s : store) (h : FileHandle) : outcome FileStat :=
  nd ← node_at s (h_node h);
  sz ← data_size s (data nd);
  let mode := match data nd with
              | Ext4File st => ef_mode st
              | Ext4Dir st => ed_mode st
              | _ => default_mode (kind nd)
              end in
  Ok (mkStat mode sz 1).

(** [z as isize] and [checked_add] on [isize]. *)
Definition as_isize (z : Z) : Z := if z <? 2 ^ 63 then z else z - 2 ^ 64.
Definition checked_add_isize (a b : Z) : option Z :=
  if (- 2 ^ 63 <=? a + b) && (a + b <? 2 ^ 63) then Some (a + b) else None.

Definition seek_object (offset whence : Z) : hstm Z := fun '(h, s) =>
  let r :=
    nd ← node_at s (h_node h);
    if bool_decide (kind nd = KPipe ∨ kind nd = KEvent ∨ kind nd = KEpoll ∨ kind nd = KSocket
                    ∨ kind nd = KPidFd)
    then Err EINVAL
    else
      st ← stat_from_locked s h;
      let size := as_isize (st_size st) in
      base ← (if whence =? 0 then Ok 0
              else if whence =? 1 then Ok (as_isize (h_offset h))
              else if whence =? 2 then Ok size
              else Err EINVAL);
      new_offset ← ok_or (checked_add_isize base offset) EINVAL;
      if new_offset <? 0 then Err EINVAL else Ok new_offset in
  match r with
  | Ok o => (Ok o, (with_offset h o, s))
  | Err e => (Err e, (h, s))
  | Panic => (Panic, (h, s))
  | Diverge => (Diverge, (h, s))
  end.

Definition poll_read_ready (s : store) (h : FileHandle) : outcome bool :=
  nd ← node_at s (h_node h);
  match data nd with
  | Directory _ | File _ | ProcFile _ | Ext4File _ | Ext4Dir _ | CharDevice => Ok true
  | Pipe buf _ writers => Ok (negb (zlen buf =? 0) || (writers =? 0))
  | Symlink _ => Ok true
  | Event counter => Ok (negb (counter =? 0))
  | Epoll _ => Ok true
  | SockPending st => Ok (negb (zlen (sp_pending st) =? 0))
  | SockConnected c side _ _ _ =>
      ch ← channel_at s c;
      Ok (negb (zlen (side_get (inbox ch) side) =? 0) || (side_get (open_sides ch) (1 - side) =? 0))
  | SockRaw st => Ok (negb (zlen (rs_inbox st) =? 0))
  | PidFd _ => Ok true
  end.

Definition poll_write_ready (s : store) (h : FileHandle) : outcome bool :=
  nd ← node_at s (h_node h);
  Ok match data nd with
     | Directory _ | Ext4File _ | Ext4Dir _ | PidFd _ => false
     | Pipe _ readers _ => negb (readers =? 0)
     | _ => true
     end.

Definition object_kind (s : store) (h : FileHandle) : outcome ObjectKind :=
  nd ← node_at s (h_node h);
  Ok match kind nd with
     | KDirectory => ODirectory
     | KFile => if starts_with (h_path h) "memfd:" then OMemFd else ORegular
     | KCharDevice => OCharDevice
     | KProc => OProcfs
     | KPipe => OPipe
     | KSymlink => OSymlink
     | KEvent => OEventFd
     | KEpoll => OEpoll
     | KSocket => OSocketLocal
     | KPidFd => OPidFd
     end.

(** ** Reference counts of pipe and socket ends *)
Definition bump (up : bool) (n : Z) : Z := if up then saturating_add n 1 else saturating_sub n 1.

Definition adjust_pipe_refcount (s : store) (h : FileHandle) (up : bool) : outcome store :=
  nd ← node_at s (h_node h);
  match data nd with
  | Pipe buf readers writers =>
      Ok match h_pipe_end h with
         | PNone => s
         | PRead => set_data s (h_node h) (Pipe buf (bump up readers) writers)
         | PWrite => set_data s (h_node h) (Pipe buf readers (bump up writers))
         end
  | SockConnected c side _ _ _ =>
      ch ← channel_at s c;
      Ok (set_channel s c
            (mkChannel (inbox ch) (side_set (open_sides ch) side (bump up (side_get (open_sides ch) side)))))
  | _ => Ok s
  end.

(** [Clone] and [Drop] of a handle. *)
Definition clone_handle (s : store) (h : FileHandle) : outcome (FileHandle * store) :=
  s' ← adjust_pipe_refcount s h true;
  Ok (h, s').
Definition drop_handle (s : store) (h : FileHandle) : outcome store :=
  adjust_pipe_refcount s h false.

(** ** Constructors of nodes *)
Definition Node_directory : Node := mkNode KDirectory (Directory ∅).
Definition Node_directory_with_data (d : NodeData) : Node := mkNode KDirectory d.
Definition Node_file (d : NodeData) : Node := mkNode KFile d.
Definition Node_char_device (d : NodeData) : Node := mkNode KCharDevice d.
Definition Node_proc (d : NodeData) : Node := mkNode KProc d.
Definition Node_pipe : Node := mkNode KPipe (Pipe [] 1 1).
Definition Node_symlink (d : NodeData) : Node := mkNode KSymlink d.
Definition Node_eventfd (init : Z) : Node := mkNode KEvent (Event init).
Definition Node_epoll : Node := mkNode KEpoll (Epoll []).
Definition Node_socket_pending (family sock_type : Z) : Node :=
  mkNode KSocket (SockPending (mkPending None false family sock_type false [])).
Definition Node_socket_raw (family protocol : Z) : Node :=
  mkNode KSocket (SockRaw (mkRaw family protocol None None (replicate 8 0) ∅ [])).
Definition Node_socket_connected (channel side family sock_type : Z) (mj : bool) : Node :=
  mkNode KSocket (SockConnected channel side family sock_type mj).
Definition Node_pidfd (pid : Z) : Node := mkNode KPidFd (PidFd pid).

End Objects.

Arguments NodeData : clear implicits.
Arguments Node : clear implicits.
Arguments store : clear implicits.

(** One bind of a handle operation. *)
Ltac hstm_step :=
  stm_step;
  cbv beta iota delta [my_node set_my_data set_offset my_handle my_channel set_my_channel to_console
                       node_at channel_at].

(** ** Regular files *)
Section Files.
Context {M : Type} `{!Ext4Ops M} (can_reserve : Z → bool).
Implicit Types (s : store M) (h : FileHandle).

(** The buffer with [bs] stored at [o], zero-filled up to there. *)
Definition splice (buf : list Z) (o : Z) (bs : list Z) : list Z :=
  ztake o (buf ++ replicate (Z.to_nat (o - zlen buf)) 0) ++ bs ++ zdrop (o + zlen bs) buf.

Definition holds s h (nd : Node M) : Prop := nodes s !! h_node h = Some nd.

Lemma holds_set_data s h nd d :
  holds s h nd → holds (set_data s (h_node h) d) h (mkNode (kind nd) d).
Proof. unfold holds. intros Hn. simpl. by rewrite lookup_alter_eq, Hn. Qed.

Lemma set_data_twice s n d1 d2 : set_data (set_data s n d1) n d2 = set_data s n d2.
Proof.
  unfold set_data. simpl. f_equal. apply map_eq. intros j. destruct (decide (n = j)) as [<-|].
  - rewrite !lookup_alter_eq. by destruct (nodes s !! n).
  - by rewrite !lookup_alter_ne.
Qed.

Lemma ensure_file_size_ok buf size :
  size ≤ INMEM_FILE_SIZE_LIMIT → (∀ n, can_reserve n = true) →
  ensure_file_size can_reserve buf size =
  Ok (buf ++ replicate (Z.to_nat (size - zlen buf)) 0).
Proof.
  intros Hl Hc. unfold ensure_file_size. destruct (Z.leb_spec size (zlen buf)).
  - replace (Z.to_nat (size - zlen buf)) with 0%nat by lia. by rewrite app_nil_r.
  - by rewrite (proj2 (Z.ltb_ge _ _)), Hc by lia.
Qed.

Lemma grow_buf_spec wrap buf size s h :
  (∀ n, can_reserve n = true) → size ≤ INMEM_FILE_SIZE_LIMIT →
  ∃ s1, grow_buf can_reserve wrap buf size (h, s) =
      (Ok (buf ++ replicate (Z.to_nat (size - zlen buf)) 0), (h, s1)) ∧
    ∀ d, set_data s1 (h_node h) d = set_data s (h_node h) d.
Proof.
  intros Hc Hl. unfold grow_buf. destruct (Z.ltb_spec (zlen buf) size).
  - rewrite ensure_file_size_ok by done. stm_step. stm_step. eexists. split; [done|].
    intros. apply set_data_twice.
  - exists s. replace (Z.to_nat (size - zlen buf)) with 0%nat by lia. by rewrite app_nil_r.
Qed.

(** What a write within the size limit does to the buffer of the node. *)
Lemma write_buf_spec wrap buf bs s h k :
  holds s h (mkNode k (wrap buf)) → (∀ n, can_reserve n = true) →
  0 ≤ h_offset h → h_offset h + zlen bs ≤ INMEM_FILE_SIZE_LIMIT →
  write_buf can_reserve wrap buf bs (h, s) =
    (Ok (zlen bs), (with_offset h (h_offset h + zlen bs),
                    set_data s (h_node h) (wrap (splice buf (h_offset h) bs)))).
Proof.
  intros Hn Hc Ho Hle. unfold write_buf. stm_step. unfold my_handle.
  pose proof (zlen_nonneg bs). pose proof (zlen_nonneg buf). set (o := h_offset h) in *.
  destruct (grow_buf_spec wrap buf o s h) as (s1 & Hm1 & Hs1); [done|lia|].
  set (buf1 := buf ++ replicate (Z.to_nat (o - zlen buf)) 0) in *.
  rewrite stm_bind_eq, Hm1. unfold saturating_add.
  rewrite Z.min_l by (unfold INMEM_FILE_SIZE_LIMIT, USIZE_MAX in *; lia).
  destruct (grow_buf_spec wrap buf1 (o + zlen bs) s1 h) as (s2 & Hm2 & Hs2); [done|lia|].
  set (buf2 := buf1 ++ replicate (Z.to_nat (o + zlen bs - zlen buf1)) 0) in *.
  rewrite stm_bind_eq, Hm2. stm_step.
  rewrite uadd_ok by (unfold INMEM_FILE_SIZE_LIMIT, USIZE_MAX in *; lia).
  assert (zlen buf1 = Z.max (zlen buf) o) as Hb1.
  { unfold buf1. rewrite zlen_app, zlen_replicate. lia. }
  assert (zlen buf2 = Z.max (zlen buf1) (o + zlen bs)) as Hb2.
  { unfold buf2. rewrite zlen_app, zlen_replicate. lia. }
  rewrite (proj2 (Z.ltb_ge _ _)) by lia.
  stm_step. unfold set_my_data. stm_step. unfold set_offset. rewrite Hs2, Hs1.
  do 4 f_equal. unfold splice. f_equal.
  - unfold buf2, ztake. rewrite take_app_le; [done|]. fold (zlen buf1) in *. unfold zlen in *. lia.
  - f_equal. unfold buf2, buf1, zdrop. unfold zlen in *.
    rewrite drop_app, drop_replicate, drop_app, drop_replicate.
    rewrite (proj2 (Nat.sub_0_le _ _)) by lia. rewrite (proj2 (Nat.sub_0_le _ _)) by (rewrite length_app, length_replicate; lia).
    simpl. by rewrite !app_nil_r.
Qed.

(** C30: a write to a regular file that stays below the size limit stores the
    bytes at the offset, fills a gap behind the old end with zeros, advances
    the offset and returns the number of bytes. *)
Theorem write_file_spec s h buf bs :
  holds s h (mkNode KFile (File buf)) → (∀ n, can_reserve n = true) →
  0 ≤ h_offset h → h_offset h + zlen bs ≤ INMEM_FILE_SIZE_LIMIT →
  write_object can_reserve bs (h, s) =
    (Ok (zlen bs), (with_offset h (h_offset h + zlen bs),
                    set_data s (h_node h) (File (splice buf (h_offset h) bs)))) ∧
  (∀ i, 0 ≤ i →
     splice buf (h_offset h) bs !! Z.to_nat i =
     if decide (h_offset h ≤ i < h_offset h + zlen bs) then bs !! Z.to_nat (i - h_offset h)
     else if decide (i < zlen buf) then buf !! Z.to_nat i
     else if decide (i < h_offset h) then Some 0 else None).
Proof.
  intros Hn Hc Ho Hle. split.
  - unfold write_object. hstm_step. rewrite Hn. cbn [unwrap]. hstm_step. cbn [data]. by apply (write_buf_spec File buf bs s h KFile).
  - intros i Hi. unfold splice. set (o := h_offset h) in *.
    assert (zlen (ztake o (buf ++ replicate (Z.to_nat (o - zlen buf)) 0)) = o) as Hlen.
    { unfold ztake, zlen in *. rewrite length_take, length_app, length_replicate. lia. }
    unfold ztake, zdrop, zlen in *. destruct (decide (i < o)) as [Hlt|Hge].
    + rewrite lookup_app_l by lia. rewrite (decide_False (P := o ≤ i < _)) by lia.
      rewrite lookup_take_lt by lia. destruct (decide (i < Z.of_nat (length buf))).
      * by rewrite lookup_app_l by lia.
      * rewrite lookup_app_r by lia. apply lookup_replicate_2. lia.
    + rewrite lookup_app_r by lia. destruct (decide (o ≤ i < o + Z.of_nat (length bs))).
      * rewrite lookup_app_l by lia. f_equal. lia.
      * rewrite lookup_app_r by lia. rewrite lookup_drop.
        replace (Z.to_nat (o + Z.of_nat (length bs)) + _)%nat with (Z.to_nat i) by lia.
        destruct (decide (i < Z.of_nat (length buf))); [done|]. apply lookup_ge_None_2. lia.
Qed.

Lemma read_file s h buf len :
  holds s h (mkNode KFile (File buf)) → 0 ≤ h_offset h → 0 ≤ len → zlen buf + len ≤ USIZE_MAX →
  let st := Z.min (h_offset h) (zlen buf) in
  let en := Z.min (st + len) (zlen buf) in
  read_object len (h, s) = (Ok (ztake (en - st) (zdrop st buf)), (with_offset h en, s)).
Proof.
  intros Hn Ho Hl Hmax st en. unfold read_object. hstm_step. rewrite Hn. cbn [unwrap]. hstm_step.
  cbn [data]. unfold read_buf. hstm_step. fold st. hstm_step. pose proof (zlen_nonneg buf).
  rewrite uadd_ok by lia. hstm_step. done.
Qed.

(** what was written to a regular file is read back: after a write, a
    seek to its start and a read of its length return the bytes, through this
    or any other handle of the same node. *)
Theorem write_seek_read s h h2 buf bs s' h' :
  holds s h (mkNode KFile (File buf)) → (∀ n, can_reserve n = true) →
  0 ≤ h_offset h → h_offset h + zlen bs ≤ INMEM_FILE_SIZE_LIMIT →
  zlen buf ≤ INMEM_FILE_SIZE_LIMIT → h_node h2 = h_node h →
  write_object can_reserve bs (h, s) = (Ok (zlen bs), (h', s')) →
  ∃ h2', seek_object (h_offset h) 0 (h2, s') = (Ok (h_offset h), (h2', s')) ∧
    read_object (zlen bs) (h2', s') = (Ok bs, (with_offset h2' (h_offset h + zlen bs), s')).
Proof.
  intros Hn Hc Ho Hle Hbuf Hh2 Hw. set (o := h_offset h) in *.
  pose proof (zlen_nonneg bs). pose proof (zlen_nonneg buf).
  assert (s' = set_data s (h_node h) (File (splice buf o bs))) as ->.
  { unfold write_object in Hw. revert Hw. hstm_step. rewrite Hn. cbn [unwrap]. hstm_step. cbn [data].
    rewrite (write_buf_spec File buf bs s h KFile) by done. by intros [= _ <-]. }
  set (nb := splice buf o bs).
  assert (holds (set_data s (h_node h) (File nb)) h2 (mkNode KFile (File nb))) as Hn'.
  { unfold holds. rewrite Hh2. by apply (holds_set_data s h (mkNode KFile (File buf))). }
  assert (zlen nb = Z.max (zlen buf) (o + zlen bs)) as Hnb.
  { unfold nb, splice. rewrite !zlen_app. unfold ztake, zdrop, zlen in *.
    rewrite length_take, length_drop, length_app, length_replicate. lia. }
  exists (with_offset h2 o). split.
  - unfold seek_object. unfold node_at. rewrite Hn'. cbn [unwrap mbind outcome_bind kind].
    rewrite bool_decide_eq_false_2 by naive_solver.
    unfold stat_from_locked, node_at. rewrite Hn'. cbn [unwrap mbind outcome_bind data data_size].
    change (0 =? 0) with true. cbn [ok_or mbind outcome_bind].
    unfold checked_add_isize. rewrite Z.add_0_l.
    rewrite (proj2 (Z.leb_le _ _)), (proj2 (Z.ltb_lt _ _)) by (unfold INMEM_FILE_SIZE_LIMIT in *; lia).
    simpl. by rewrite (proj2 (Z.ltb_ge _ _)) by lia.
  - rewrite (read_file _ (with_offset h2 o) nb); [|done|done|lia|unfold INMEM_FILE_SIZE_LIMIT, USIZE_MAX in *; lia].
    cbn [with_offset h_offset]. rewrite (Z.min_l o) by lia. rewrite (Z.min_l (o + zlen bs)) by lia.
    do 2 f_equal. replace (o + zlen bs - o) with (zlen bs) by lia.
    unfold nb, splice, ztake, zdrop.
    rewrite drop_app_length' by (rewrite length_take, length_app, length_replicate; unfold zlen in *; lia).
    apply take_app_length'. unfold zlen. lia.
Qed.

End Files.

(** ** Pipes *)
Section Pipes.
Context {M : Type} `{!Ext4Ops M} (can_reserve : Z → bool).
Implicit Types (s : store M).

(** A run of writes, reads, clones and closes of the two ends of a pipe: the
    bytes written so far and the bytes read so far. *)
Inductive pipe_run (hr hw : FileHandle) (s0 : store M) : list Z → list Z → store M → Prop :=
  | run_start : pipe_run hr hw s0 [] [] s0
  | run_write w r s bs n hw' s' :
      pipe_run hr hw s0 w r s →
      write_object can_reserve bs (hw, s) = (Ok n, (hw', s')) →
      pipe_run hr hw s0 (w ++ bs) r s'
  | run_read w r s len out hr' s' :
      pipe_run hr hw s0 w r s →
      read_object len (hr, s) = (Ok out, (hr', s')) →
      pipe_run hr hw s0 w (r ++ out) s'
  | run_clone w r s h h' s' :
      pipe_run hr hw s0 w r s → h = hr ∨ h = hw → clone_handle s h = Ok (h', s') →
      pipe_run hr hw s0 w r s'
  | run_drop w r s h s' :
      pipe_run hr hw s0 w r s → h = hr ∨ h = hw → drop_handle s h = Ok s' →
      pipe_run hr hw s0 w r s'.

Definition pipe_buf s (n : Z) : option (list Z) :=
  match nodes s !! n with
  | Some (mkNode _ (Pipe buf _ _)) => Some buf
  | _ => None
  end.

Lemma pipe_buf_inv s n buf :
  pipe_buf s n = Some buf → ∃ k r w, nodes s !! n = Some (mkNode k (Pipe buf r w)).
Proof. unfold pipe_buf. repeat case_match; naive_solver. Qed.

Lemma pipe_buf_set s n nd buf r w :
  nodes s !! n = Some nd → pipe_buf (set_data s n (Pipe buf r w)) n = Some buf.
Proof. intros Hn. unfold pipe_buf. simpl. by rewrite lookup_alter_eq, Hn. Qed.

Lemma adjust_pipe_buf s h up s' buf :
  pipe_buf s (h_node h) = Some buf → adjust_pipe_refcount s h up = Ok s' →
  pipe_buf s' (h_node h) = Some buf.
Proof.
  intros Hb. destruct (pipe_buf_inv _ _ _ Hb) as (k & r & w & Hn).
  unfold adjust_pipe_refcount, node_at. rewrite Hn. simpl. intros [= <-].
  destruct (h_pipe_end h); [done|by eapply pipe_buf_set..].
Qed.

(** C31: a pipe is a first-in first-out byte stream: in every run of writes,
    reads, duplications and closes, the bytes read followed by the bytes
    buffered are exactly the bytes that were buffered at the start followed
    by the bytes written; nothing is lost, repeated or reordered. *)
Theorem pipe_fifo hr hw s0 w r s buf0 :
  h_node hr = h_node hw → pipe_buf s0 (h_node hw) = Some buf0 →
  pipe_run hr hw s0 w r s →
  ∃ buf, pipe_buf s (h_node hw) = Some buf ∧ buf0 ++ w = r ++ buf.
Proof.
  intros Hsame H0. induction 1 as [|w r s bs n hw' s' _ IH Hw|w r s len out hr' s' _ IH Hr
    |w r s h h' s' _ IH Hh Hc|w r s h s' _ IH Hh Hd].
  - exists buf0. by rewrite app_nil_r.
  - destruct IH as (buf & Hb & Heq). destruct (pipe_buf_inv _ _ _ Hb) as (k & rd & wr & Hn).
    revert Hw. unfold write_object. hstm_step. rewrite Hn. cbn [unwrap]. hstm_step. cbn [data].
    destruct (bool_decide (h_pipe_end hw = PRead)); [done|]. destruct bs as [|b bs].
    + intros [= _ _ <-]. exists buf. by rewrite app_nil_r.
    + destruct (rd =? 0); [done|]. hstm_step. intros [= _ _ <-]. exists (buf ++ b :: bs).
      split; [by eapply pipe_buf_set|]. by rewrite !app_assoc, Heq.
  - destruct IH as (buf & Hb & Heq). destruct (pipe_buf_inv _ _ _ Hb) as (k & rd & wr & Hn).
    revert Hr. unfold read_object. hstm_step. rewrite Hsame, Hn. cbn [unwrap]. hstm_step. cbn [data].
    destruct (bool_decide (h_pipe_end hr = PWrite)); [done|]. destruct buf as [|b buf].
    + destruct (wr =? 0); [|done]. intros [= <- _ <-]. exists []. by rewrite app_nil_r, Heq, app_nil_r.
    + hstm_step. rewrite Hsame. intros [= <- _ <-]. eexists. split; [by eapply pipe_buf_set|].
      rewrite Heq, <- app_assoc. f_equal. unfold ztake, zdrop. by rewrite take_drop.
  - destruct IH as (buf & Hb & Heq). exists buf. split; [|done]. unfold clone_handle in Hc.
    apply bind_Ok in Hc as (s1 & Hc & [= _ <-]).
    assert (h_node h = h_node hw) as Hnode by (by destruct Hh as [->| ->]).
    rewrite <- Hnode in *. by eapply adjust_pipe_buf.
  - destruct IH as (buf & Hb & Heq). exists buf. split; [|done]. unfold drop_handle in Hd.
    assert (h_node h = h_node hw) as Hnode by (by destruct Hh as [->| ->]).
    rewrite <- Hnode in *. by eapply adjust_pipe_buf.
Qed.

(** end of file, blocking and broken pipes: reading an empty pipe gives
    end of file when no writer is left and asks to retry otherwise, writing
    to a pipe without readers fails with [EPIPE], and the readiness that
    [poll] reports for the read end is exactly "a read would not ask to
    retry". *)
Theorem pipe_blocking s h k buf readers writers len bs b :
  nodes s !! h_node h = Some (mkNode k (Pipe buf readers writers)) → bs ≠ [] →
  h_pipe_end h = PNone ∨ (b = true ∧ h_pipe_end h = PRead) ∨ (b = false ∧ h_pipe_end h = PWrite) →
  (b = true →
    ((read_object len (h, s)).1 = Err EAGAIN ↔ buf = [] ∧ writers ≠ 0) ∧
    (buf = [] → writers = 0 → read_object len (h, s) = (Ok [], (h, s))) ∧
    poll_read_ready s h = Ok (bool_decide ((read_object len (h, s)).1 ≠ Err EAGAIN))) ∧
  (b = false →
    ((write_object can_reserve bs (h, s)).1 = Err EPIPE ↔ readers = 0) ∧
    poll_write_ready s h = Ok (bool_decide ((write_object can_reserve bs (h, s)).1 ≠ Err EPIPE))).
Proof.
  intros Hn Hbs Hend. split; intros ->.
  - assert (h_pipe_end h ≠ PWrite) as Hne by (by destruct Hend as [->|[[_ ->]|[? _]]]).
    unfold read_object, poll_read_ready, node_at. rewrite Hn. cbn [unwrap mbind outcome_bind data].
    hstm_step. rewrite Hn. cbn [unwrap]. hstm_step. cbn [data].
    rewrite bool_decide_eq_false_2 by done. destruct buf as [|x buf].
    + destruct (Z.eqb_spec writers 0) as [Hw|Hw]; cbn [fst].
      * split_and!; [split; [done|by intros [_ ?]]|done|f_equal; by rewrite bool_decide_eq_true_2].
      * split_and!; done.
    + hstm_step. cbn [fst].
      split_and!; [split; [done|by intros [? _]]|done|f_equal; by rewrite bool_decide_eq_true_2].
  - assert (h_pipe_end h ≠ PRead) as Hne by (by destruct Hend as [->|[[? _]|[_ ->]]]).
    unfold write_object, poll_write_ready, node_at. rewrite Hn. cbn [unwrap mbind outcome_bind data].
    hstm_step. rewrite Hn. cbn [unwrap]. hstm_step. cbn [data].
    rewrite bool_decide_eq_false_2 by done. destruct bs as [|x bs]; [done|].
    destruct (Z.eqb_spec readers 0) as [Hr|Hr].
    + cbn [fst]. by split.
    + hstm_step. cbn [fst]. split; [split; [done|done]|done].
Qed.

End Pipes.

(** ** Witnesses *)

(** A kernel without ext4 mounts: every external operation fails. *)
#[export] Instance no_ext4 : Ext4Ops Empty_set := {|
  e4_stat := fun (m : Empty_set) _ => match m with end;
  e4_read_range := fun (m : Empty_set) _ _ _ => match m with end;
  e4_read_link := fun (m : Empty_set) _ => match m with end;
  e4_read_dir := fun (m : Empty_set) _ => match m with end;
  e4_read_dir_lite := fun (m : Empty_set) _ => match m with end;
|}.

Definition sample_file_store : store Empty_set :=
  mkStore {[1 := mkNode KFile (File [1; 2; 3])]} ∅ [].
Definition sample_handle : FileHandle := mkHandle 1 2 O_RDWR "/tmp/a" PNone.

Lemma write_file_spec_witness :
  write_object (fun _ => true) [9; 9] (sample_handle, sample_file_store) =
  (Ok 2, (with_offset sample_handle 4, set_data sample_file_store 1 (File [1; 2; 9; 9]))).
Proof. apply (write_file_spec (fun _ => true) sample_file_store sample_handle [1; 2; 3] [9; 9]); done. Defined.

Lemma write_seek_read_witness :
  ∃ h2', seek_object 2 0 (mkHandle 1 0 O_RDONLY "/tmp/a" PNone, set_data sample_file_store 1 (File [1; 2; 9; 9]))
      = (Ok 2, (h2', set_data sample_file_store 1 (File [1; 2; 9; 9]))) ∧
    (read_object 2 (h2', set_data sample_file_store 1 (File [1; 2; 9; 9]))).1 = Ok [9; 9].
Proof.
  destruct (write_seek_read (fun _ => true) sample_file_store sample_handle
    (mkHandle 1 0 O_RDONLY "/tmp/a" PNone) [1; 2; 3] [9; 9]
    (set_data sample_file_store 1 (File [1; 2; 9; 9])) (with_offset sample_handle 4)) as (h2' & Hs & Hr).
  - done.
  - done.
  - done.
  - done.
  - done.
  - done.
  - by vm_compute.
  - exists h2'. split; [exact Hs|]. exact (f_equal fst Hr).
Defined.

Definition sample_pipe_store : store Empty_set := mkStore {[1 := Node_pipe]} ∅ [].
Definition sample_reader : FileHandle := mkHandle 1 0 O_RDONLY "pipe:[0]" PRead.
Definition sample_writer : FileHandle := mkHandle 1 0 O_WRONLY "pipe:[0]" PWrite.

Lemma pipe_fifo_witness :
  ∃ s buf, pipe_run (fun _ => true) sample_reader sample_writer sample_pipe_store [1; 2; 3] [1; 2] s ∧
    pipe_buf s 1 = Some buf ∧ [] ++ [1; 2; 3] = [1; 2] ++ buf.
Proof.
  assert (∃ s, pipe_run (fun _ => true) sample_reader sample_writer sample_pipe_store [1; 2; 3] [1; 2] s)
    as [s Hrun].
  { eexists. eapply (run_read _ _ _ _ [1; 2; 3] [] _ 2 [1; 2]).
    - eapply (run_write _ _ _ _ [] [] _ [1; 2; 3]); [apply run_start|by vm_compute].
    - by vm_compute. }
  destruct (pipe_fifo (fun _ => true) sample_reader sample_writer sample_pipe_store [1; 2; 3] [1; 2] s [])
    as (buf & Hb & Heq).
  - done.
  - done.
  - done.
  - exists s, buf. done.
Defined.

Lemma pipe_blocking_witness :
  (read_object 4 (sample_reader, sample_pipe_store)).1 = Err EAGAIN ∧
  poll_read_ready sample_pipe_store sample_reader = Ok false.
Proof.
  destruct (pipe_blocking (fun _ => true) sample_pipe_store sample_reader KPipe [] 1 1 4 [0] true) as [Hr _].
  - done.
  - done.
  - by right; left.
  - destruct (Hr eq_refl) as (Hag & _ & Hp). split; [by apply Hag|]. rewrite Hp. by vm_compute.
Defined.

End Obj.
