(* ===== verification/Vfs.v ===== *)
(** * The kernel's file name space (crates/vfs/src/lib.rs: [KernelVfs])

    The in-memory tree, path lookup, creation, removal, links and renames,
    open with the overlay of mounted ext4 file systems, directory reading,
    pipes, event counters, epoll sets and sockets.  Console tracing of the
    source is left out: it changes no state. *)

From S2P Require Import Prelude Path FileObject.
From stdpp Require Import pretty.
From Stdlib Require Import Ascii.

Open Scope string_scope.
Open Scope list_scope.
Open Scope Z_scope.

Module Vfs.
Import Path Obj.

Definition UNIX_ABSTRACT_PREFIX : string := "/__unix_abstract__/".
Definition EXT4_DIR_STAT_CACHE_MAX_SIZE : Z := 512 * 1024.

Record MountRecord := mkMount { mnt_source : string; mnt_target : string; mnt_fs_type : string; mnt_flags : Z }.

Definition bytes_of (s : string) : list Z :=
  (fun c => Z.of_nat (Ascii.nat_of_ascii c)) <$> String.list_ascii_of_string s.

(** [s.rsplit_once(c)] *)
Fixpoint rsplit_once (c : Ascii.ascii) (s : string) : option (string * string) :=
  match s with
  | EmptyString => None
  | String x s' =>
      match rsplit_once c s' with
      | Some (a, b) => Some (String x a, b)
      | None => if Ascii.eqb x c then Some ("", s') else None
      end
  end.

(** Byte order of [String], the order of a [BTreeMap<String, _>]. *)
Definition str_le (a b : string) : Prop := String.leb a b = true.
#[export] Instance str_le_dec : RelDecision str_le.
Proof. intros a b. unfold str_le. apply _. Defined.

Definition names {V} (m : gmap string V) : list string := keys_by str_le m.

(** [Iterator::max_by_key]: the last element with the greatest key. *)
Definition max_by_key {A} (key : A → Z) (l : list A) : option A :=
  foldl (fun best x => match best with
                       | Some b => if key b <=? key x then Some x else Some b
                       | None => Some x
                       end) None l.

Definition str_len (s : string) : Z := Z.of_nat (String.length s).

(** ** Checksums of raw IPv6 sockets *)
Definition wrapping_add_u32 (a b : Z) : Z := (a + b) mod 2 ^ 32.

Fixpoint checksum_add (sum : Z) (bytes : list Z) : Z :=
  match bytes with
  | a :: b :: rest => checksum_add (wrapping_add_u32 sum (a * 256 + b)) rest
  | [a] => wrapping_add_u32 sum (a * 256)
  | [] => sum
  end.

(** The folding loop; a 32-bit sum needs at most two rounds. *)
Fixpoint checksum_fold (fuel : nat) (sum : Z) : outcome Z :=
  match fuel with
  | O => Diverge
  | S fuel' =>
      if Z.shiftr sum 16 =? 0 then Ok sum
      else checksum_fold fuel' (Z.land sum 0xffff + Z.shiftr sum 16)
  end.

Definition checksum_finish (sum : Z) : outcome Z :=
  s ← checksum_fold 4 sum;
  Ok (0xffff - s mod 2 ^ 16).

Definition to_be_bytes (n : nat) (z : Z) : list Z := reverse (to_le_bytes n z).

Definition ipv6_raw_checksum (next_header : Z) (packet : list Z) : outcome Z :=
  let pseudo := replicate 15 0 ++ [1] ++ replicate 15 0 ++ [1] ++
                to_be_bytes 4 (zlen packet mod 2 ^ 32) ++ replicate 3 0 ++ [next_header] in
  checksum_finish (checksum_add (checksum_add 0 pseudo) packet).

Definition ipv6_recv_opt_cmsg (opt : Z) : option (Z * Z) :=
  if opt =? 49 then Some (50, 20)
  else if opt =? 51 then Some (52, 4)
  else if opt =? 66 then Some (67, 4)
  else if opt =? 2 then Some (2, 20)
  else if opt =? 8 then Some (8, 4)
  else None.

Definition inet_any_listener_path (path : string) : option string :=
  match strip_prefix path "/inet/" with
  | Some rest =>
      '(_, port) ← rsplit_once ":"%char rest;
      Some ("/inet/000.000.000.000:" +:+ port)
  | None =>
      match strip_prefix path "/inet6/" with
      | Some rest =>
          '(_, port) ← rsplit_once ":"%char rest;
          Some ("/inet6/0:0:0:0:0:0:0:0:" +:+ port)
      | None => None
      end
  end.

(** ** Directory records *)
Definition dirent_reclen (name : string) : outcome Z := align_up (19 + str_len name + 1) 8.

Definition append_dirent (out : list Z) (index : Z) (name : string) (file_type : Z) : outcome (list Z) :=
  reclen ← dirent_reclen name;
  i1 ← uadd index 1;
  let out := out ++ to_le_bytes 8 i1 ++ to_le_bytes 8 i1 ++ to_le_bytes 2 (reclen mod 2 ^ 16) ++
             [file_type] ++ bytes_of name ++ [0] in
  Ok (out ++ replicate (Z.to_nat ((- zlen out) mod 8)) 0).

Definition node_kind_to_dirent_type (k : NodeKind) : Z :=
  match k with KDirectory => 4 | KSymlink => 10 | _ => 8 end.
Definition ext4_kind_to_dirent_type (k : Ext4NodeKind) : Z :=
  match k with E4Directory => 4 | E4Symlink => 10 | E4Other => 8 end.

(** The loop of [getdents] over the remaining entries: [emitted] records were
    written to [out]. *)
Fixpoint dirent_loop (max_len : Z) (index emitted : Z) (out : list Z) (entries : list (string * Z))
  : outcome (list Z * Z) :=
  match entries with
  | [] => Ok (out, emitted)
  | (name, ty) :: entries' =>
      reclen ← dirent_reclen name;
      if negb (emitted =? 0) && (max_len <? zlen out + reclen) then Ok (out, emitted)
      else
        out ← append_dirent out index name ty;
        dirent_loop max_len (index + 1) (emitted + 1) out entries'
  end.

(** ** The initial name space *)
Definition line_feed : string := String (ascii_of_nat 10) "".
Definition lines (ls : list string) : list Z := bytes_of (String.concat "" ((fun l => l +:+ line_feed) <$> ls)).

Definition PROC_MEMINFO : list Z := lines
  ["MemTotal:       1048576 kB"; "MemFree:         524288 kB"; "MemAvailable:    524288 kB";
   "Buffers:              0 kB"; "Cached:               0 kB"; "SwapTotal:            0 kB";
   "SwapFree:             0 kB"].
Definition PROC_UPTIME : list Z := lines ["1.00 1.00"].
Definition PROC_STAT : list Z := lines
  ["cpu  1 0 1 1 0 0 0 0 0 0"; "intr 0"; "ctxt 0"; "btime 1735689600"; "processes 1"; "procs_running 1";
   "procs_blocked 0"].
Definition PROC_VERSION : list Z := lines ["Linux version 6.8.0-whuse (whuse@localdomain) #1 SMP PREEMPT"].
Definition PROC_SELF_STAT : list Z := lines
  ["1 (self) R 0 0 0 0 0 0 0 0 0 0 0 0 0 0 20 0 1 0 1 4096 0 0 0 0 0 0 0 0 0 0 0 0 0 0 0 0 0 0 0 0 0 0 0 0 0 0 0 0 0 0 0 0"].
Definition PROC_SELF_MAPS : list Z := lines ["50000000-50080000 r-xp 00000000 00:00 0 /proc/self/exe"].

Section KernelVfs.
Context {M : Type} `{!Ext4Ops M} (can_reserve : Z → bool).

Record KernelVfs := mkVfs {
  root : Z;
  vstore : store M;
  next_node : Z;
  next_channel : Z;
  mounts : list MountRecord;
  external_mounts : list (string * M);
  external_stat_cache : gmap string FileStat;
  external_preloaded : gmap string (list Z * FileStat);
  external_deletions : gset string;
  mem_modes : gmap string Z;
  next_pipe_id : Z;
  next_memfd_id : Z;
  next_ephemeral_port : Z;
  socket_bindings : gmap string Z;
  raw_sockets : list Z;
}.

Definition set_vstore (x : store M) (v : KernelVfs) : KernelVfs :=
  mkVfs (root v) x (next_node v) (next_channel v) (mounts v) (external_mounts v) (external_stat_cache v) (external_preloaded v) (external_deletions v) (mem_modes v) (next_pipe_id v) (next_memfd_id v) (next_ephemeral_port v) (socket_bindings v) (raw_sockets v).
Definition set_next_node (x : Z) (v : KernelVfs) : KernelVfs :=
  mkVfs (root v) (vstore v) x (next_channel v) (mounts v) (external_mounts v) (external_stat_cache v) (external_preloaded v) (external_deletions v) (mem_modes v) (next_pipe_id v) (next_memfd_id v) (next_ephemeral_port v) (socket_bindings v) (raw_sockets v).
Definition set_next_channel (x : Z) (v : KernelVfs) : KernelVfs :=
  mkVfs (root v) (vstore v) (next_node v) x (mounts v) (external_mounts v) (external_stat_cache v) (external_preloaded v) (external_deletions v) (mem_modes v) (next_pipe_id v) (next_memfd_id v) (next_ephemeral_port v) (socket_bindings v) (raw_sockets v).
Definition set_mounts (x : list MountRecord) (v : KernelVfs) : KernelVfs :=
  mkVfs (root v) (vstore v) (next_node v) (next_channel v) x (external_mounts v) (external_stat_cache v) (external_preloaded v) (external_deletions v) (mem_modes v) (next_pipe_id v) (next_memfd_id v) (next_ephemeral_port v) (socket_bindings v) (raw_sockets v).
Definition set_external_mounts (x : list (string * M)) (v : KernelVfs) : KernelVfs :=
  mkVfs (root v) (vstore v) (next_node v) (next_channel v) (mounts v) x (external_stat_cache v) (external_preloaded v) (external_deletions v) (mem_modes v) (next_pipe_id v) (next_memfd_id v) (next_ephemeral_port v) (socket_bindings v) (raw_sockets v).
Definition set_external_stat_cache (x : gmap string FileStat) (v : KernelVfs) : KernelVfs :=
  mkVfs (root v) (vstore v) (next_node v) (next_channel v) (mounts v) (external_mounts v) x (external_preloaded v) (external_deletions v) (mem_modes v) (next_pipe_id v) (next_memfd_id v) (next_ephemeral_port v) (socket_bindings v) (raw_sockets v).
Definition set_external_preloaded (x : gmap string (list Z * FileStat)) (v : KernelVfs) : KernelVfs :=
  mkVfs (root v) (vstore v) (next_node v) (next_channel v) (mounts v) (external_mounts v) (external_stat_cache v) x (external_deletions v) (mem_modes v) (next_pipe_id v) (next_memfd_id v) (next_ephemeral_port v) (socket_bindings v) (raw_sockets v).
Definition set_external_deletions (x : gset string) (v : KernelVfs) : KernelVfs :=
  mkVfs (root v) (vstore v) (next_node v) (next_channel v) (mounts v) (external_mounts v) (external_stat_cache v) (external_preloaded v) x (mem_modes v) (next_pipe_id v) (next_memfd_id v) (next_ephemeral_port v) (socket_bindings v) (raw_sockets v).
Definition set_mem_modes (x : gmap string Z) (v : KernelVfs) : KernelVfs :=
  mkVfs (root v) (vstore v) (next_node v) (next_channel v) (mounts v) (external_mounts v) (external_stat_cache v) (external_preloaded v) (external_deletions v) x (next_pipe_id v) (next_memfd_id v) (next_ephemeral_port v) (socket_bindings v) (raw_sockets v).
Definition set_next_pipe_id (x : Z) (v : KernelVfs) : KernelVfs :=
  mkVfs (root v) (vstore v) (next_node v) (next_channel v) (mounts v) (external_mounts v) (external_stat_cache v) (external_preloaded v) (external_deletions v) (mem_modes v) x (next_memfd_id v) (next_ephemeral_port v) (socket_bindings v) (raw_sockets v).
Definition set_next_memfd_id (x : Z) (v : KernelVfs) : KernelVfs :=
  mkVfs (root v) (vstore v) (next_node v) (next_channel v) (mounts v) (external_mounts v) (external_stat_cache v) (external_preloaded v) (external_deletions v) (mem_modes v) (next_pipe_id v) x (next_ephemeral_port v) (socket_bindings v) (raw_sockets v).
Definition set_next_ephemeral_port (x : Z) (v : KernelVfs) : KernelVfs :=
  mkVfs (root v) (vstore v) (next_node v) (next_channel v) (mounts v) (external_mounts v) (external_stat_cache v) (external_preloaded v) (external_deletions v) (mem_modes v) (next_pipe_id v) (next_memfd_id v) x (socket_bindings v) (raw_sockets v).
Definition set_socket_bindings (x : gmap string Z) (v : KernelVfs) : KernelVfs :=
  mkVfs (root v) (vstore v) (next_node v) (next_channel v) (mounts v) (external_mounts v) (external_stat_cache v) (external_preloaded v) (external_deletions v) (mem_modes v) (next_pipe_id v) (next_memfd_id v) (next_ephemeral_port v) x (raw_sockets v).
Definition set_raw_sockets (x : list Z) (v : KernelVfs) : KernelVfs :=
  mkVfs (root v) (vstore v) (next_node v) (next_channel v) (mounts v) (external_mounts v) (external_stat_cache v) (external_preloaded v) (external_deletions v) (mem_modes v) (next_pipe_id v) (next_memfd_id v) (next_ephemeral_port v) (socket_bindings v) x.


(** A vfs method, and one that also works on a handle. *)
Abbreviation vstm := (stm KernelVfs).
Abbreviation hvstm := (stm (FileHandle * KernelVfs)).

Definition on_vfs {A} (m : vstm A) : hvstm A := fun '(h, v) =>
  let '(r, v') := m v in (r, (h, v')).
Definition the_handle : hvstm FileHandle := fun '(h, v) => (Ok h, (h, v)).
Definition put_handle (h' : FileHandle) : hvstm unit := fun '(_, v) => (Ok tt, (h', v)).
Definition on_object {A} (m : stm (FileHandle * store M) A) : hvstm A := fun '(h, v) =>
  let '(r, (h', s')) := m (h, vstore v) in (r, (h', set_vstore s' v)).

Definition vnode (n : Z) : vstm (Node M) := fun v => (node_at (vstore v) n, v).
Definition put_data (n : Z) (d : NodeData M) : vstm unit := modify (fun v => set_vstore (set_data (vstore v) n d) v).

(** [Arc::new(node)] *)
Definition alloc_node (nd : Node M) : vstm Z := fun v =>
  let n := next_node v in
  (Ok n, set_next_node (n + 1)
           (set_vstore (mkStore (<[n := nd]> (nodes (vstore v))) (channels (vstore v)) (console (vstore v))) v)).
Definition alloc_channel : vstm Z := fun v =>
  let c := next_channel v in
  (Ok c, set_next_channel (c + 1) (set_vstore (set_channel (vstore v) c (mkChannel ([], []) (1, 1))) v)).

(** The counter is a [usize], which one pipe a time does not exhaust: it is not wrapped here. *)
Definition fresh_pipe_id : vstm Z := fun v => (Ok (next_pipe_id v), set_next_pipe_id (next_pipe_id v + 1) v).

(** ** Lookup *)
Fixpoint walk (s : store M) (n : Z) (cs : list string) : outcome Z :=
  match cs with
  | [] => Ok n
  | c :: cs' =>
      nd ← node_at s n;
      match data nd with
      | Directory entries => next ← ok_or (entries !! c) ENOENT; walk s next cs'
      | _ => Err ENOTDIR
      end
  end.

Definition lookup_abs (v : KernelVfs) (path : string) : outcome Z :=
  if String.eqb path "/" then Ok (root v)
  else walk (vstore v) (root v) (components path).

Definition is_ok {A} (o : outcome A) : bool := match o with Ok _ => true | _ => false end.

(** ** The ext4 overlay *)
Definition resolve_external_path (v : KernelVfs) (absolute : string) : option (string * M * string) :=
  max_by_key (fun x => str_len x.1.1)
    (omap (fun '(target, m) => (fun p => (target, m, p)) <$> external_mount_path target absolute)
       (external_mounts v)).

Definition dir_prefix (absolute : string) : string :=
  if String.eqb absolute "/" then "/" else absolute +:+ "/".

Definition has_entry_below (v : KernelVfs) (absolute : string) : bool :=
  existsb (fun e => starts_with e (dir_prefix absolute)) (names (external_preloaded v)) ||
  existsb (fun e => starts_with e (dir_prefix absolute)) (names (external_stat_cache v)).

Definition external_stat_path (v : KernelVfs) (absolute : string) : outcome (option FileStat) :=
  if is_shell_token_path absolute then Ok None
  else if is_ok (lookup_abs v absolute) then Ok None
  else if is_memory_preferred_path absolute then Ok None
  else match external_preloaded v !! absolute with
  | Some (_, stat) => Ok (Some stat)
  | None =>
      if bool_decide (absolute ∈ external_deletions v) then Ok None
      else match external_stat_cache v !! absolute with
      | Some stat => Ok (Some stat)
      | None =>
          match resolve_external_path v absolute with
          | None => Ok None
          | Some (_, mount, fs_path) =>
              if has_entry_below v absolute then Ok (Some (mkStat (Z.lor S_IFDIR 0x1ed) 0 1))
              else match e4_stat mount fs_path with
                   | Ok stat => Ok (Some stat)
                   | Err e => if e =? ENOENT then Ok None else Err e
                   | Panic => Panic
                   | Diverge => Diverge
                   end
          end
      end
  end.

(** ** Creation *)
Definition default_node (k : NodeKind) (d : option (NodeData M)) : Node M :=
  match k with
  | KDirectory => Node_directory
  | KFile => Node_file (default (File []) d)
  | KCharDevice => Node_char_device (default CharDevice d)
  | KProc => Node_proc (default (ProcFile []) d)
  | KPipe => Node_pipe
  | KSymlink => Node_symlink (default (Symlink "") d)
  | KEvent => Node_eventfd 0
  | KEpoll => Node_epoll
  | KSocket => Node_socket_pending 1 1
  | KPidFd => Node_pidfd 0
  end.

(** The part of [create_node] once the parent was found. *)
Definition create_in (parent : Z) (absolute_path name : string) (k : NodeKind) (d : option (NodeData M))
  : vstm unit :=
  nd ← vnode parent;
  match data nd with
  | Directory entries =>
      match entries !! name with
      | Some _ => fail EEXIST
      | None =>
          _ ← modify (fun v => set_external_deletions (external_deletions v ∖ {[absolute_path]}) v);
          n ← alloc_node (default_node k d);
          put_data parent (Directory (<[name := n]> entries))
      end
  | _ => fail ENOTDIR
  end.

(** [ensure_memory_dir] and [create_node] call each other: [fuel] bounds the
    number of components still to create. *)
Fixpoint ensure_memory_dir (fuel : nat) (absolute_path : string) : vstm unit :=
  match fuel with
  | O => lift Diverge
  | S fuel' =>
      v ← get;
      if String.eqb absolute_path "/" || is_ok (lookup_abs v absolute_path) then mret tt
      else
        '(parent_path, name) ← lift (split_parent absolute_path);
        _ ← ensure_memory_dir fuel' parent_path;
        v ← get;
        st ← lift (external_stat_path v absolute_path);
        match st with
        | Some stat =>
            if Z.land (st_mode stat) S_IFDIR =? S_IFDIR then
              v ← get;
              parent ← lift (lookup_abs v parent_path);
              create_in parent absolute_path name KDirectory None
            else fail ENOTDIR
        | None => fail ENOENT
        end
  end.

Definition create_node (absolute_path : string) (k : NodeKind) (d : option (NodeData M)) : vstm unit :=
  if String.eqb absolute_path "/" then fail EEXIST
  else
    '(parent_path, name) ← lift (split_parent absolute_path);
    v ← get;
    parent ← match lookup_abs v parent_path with
             | Err e =>
                 if e =? ENOENT then
                   _ ← ensure_memory_dir (S (length (components parent_path))) parent_path;
                   v ← get;
                   lift (lookup_abs v parent_path)
                 else fail e
             | r => lift r
             end;
    create_in parent absolute_path name k d.

Definition insert_mode (path : string) (m : Z) : vstm unit :=
  modify (fun v => set_mem_modes (<[path := m]> (mem_modes v)) v).

Definition create_char_device (path : string) : vstm unit := create_node path KCharDevice (Some CharDevice).
Definition create_proc_file (path : string) (contents : list Z) : vstm unit :=
  create_node path KProc (Some (ProcFile contents)).

Definition create_file_with_mode (cwd path : string) (contents : list Z) (mode : Z) : vstm unit :=
  let absolute := normalize_path cwd path in
  _ ← create_node absolute KFile (Some (File contents));
  insert_mode absolute (Z.lor S_IFREG (Z.land mode 0xfff)).

Definition create_file (cwd path : string) (contents : list Z) : vstm unit :=
  create_file_with_mode cwd path contents (Z.lor S_IFREG 0x1ed).

Definition create_symlink (cwd path target : string) : vstm unit :=
  let absolute := normalize_path cwd path in
  _ ← create_node absolute KSymlink (Some (Symlink target));
  insert_mode absolute (Z.lor S_IFLNK 0x1ff).

Definition mkdir (cwd path : string) (mode : Z) : vstm unit :=
  let absolute := normalize_path cwd path in
  _ ← create_node absolute KDirectory None;
  insert_mode absolute (Z.lor S_IFDIR (Z.land mode 0xfff)).

Definition preload_external_file (path : string) (contents : list Z) (mode : option Z) : vstm unit :=
  let absolute := normalize_path "/" path in
  let stat := mkStat (default (Z.lor S_IFREG 0x1ed) mode) (zlen contents) 1 in
  modify (fun v =>
    set_external_stat_cache (<[absolute := stat]> (external_stat_cache v))
      (set_external_preloaded (<[absolute := (contents, stat)]> (external_preloaded v)) v)).

(** ** Open *)
Definition build_ext4_handle (absolute : string) (mount : M) (fs_path : string) (stat : FileStat)
    (cached : option (list Z)) : vstm FileHandle :=
  let is_dir := Z.land (st_mode stat) S_IFDIR =? S_IFDIR in
  n ← alloc_node (if is_dir
                  then Node_directory_with_data (Ext4Dir (mkE4Dir mount fs_path (st_mode stat) (st_size stat) None))
                  else Node_file (Ext4File (mkE4File mount fs_path (st_mode stat) (st_size stat) cached)));
  mret (mkHandle n 0 O_RDONLY absolute PNone).

Definition not_a_dir (flags mode : Z) : bool :=
  negb (Z.land flags O_DIRECTORY =? 0) && negb (Z.land mode S_IFDIR =? S_IFDIR).

Definition try_open_external (absolute : string) (flags : Z) : vstm (option FileHandle) :=
  v ← get;
  if is_shell_token_path absolute then mret None
  else if is_ok (lookup_abs v absolute) then mret None
  else if bool_decide (absolute ∈ external_deletions v) then mret None
  else match resolve_external_path v absolute with
  | None => mret None
  | Some (_, mount, fs_path) =>
      if negb (Z.land flags (Z.lor O_WRONLY (Z.lor O_RDWR (Z.lor O_CREAT O_TRUNC))) =? 0) then mret None
      else match external_preloaded v !! absolute with
      | Some (cached, stat) =>
          if not_a_dir flags (st_mode stat) then fail ENOTDIR
          else h ← build_ext4_handle absolute mount fs_path stat (Some cached); mret (Some h)
      | None =>
          match external_stat_cache v !! absolute with
          | Some stat =>
              if not_a_dir flags (st_mode stat) then fail ENOTDIR
              else h ← build_ext4_handle absolute mount fs_path stat None; mret (Some h)
          | None =>
              if should_use_statless_external_open absolute flags then
                h ← build_ext4_handle absolute mount fs_path (mkStat (Z.lor S_IFREG 0x1ed) 0 1) None;
                mret (Some h)
              else match e4_stat mount fs_path with
                   | Ok stat =>
                       _ ← modify (fun v => set_external_stat_cache (<[absolute := stat]> (external_stat_cache v)) v);
                       if not_a_dir flags (st_mode stat) then fail ENOTDIR
                       else h ← build_ext4_handle absolute mount fs_path stat None; mret (Some h)
                   | Err e => if e =? ENOENT then mret None else fail e
                   | Panic => lift Panic
                   | Diverge => lift Diverge
                   end
          end
      end
  end.

Definition symlink_target (d : NodeData M) : outcome string :=
  match d with Symlink target => Ok target | _ => Err EINVAL end.

(** The end of [open_mem], once the node is known. *)
Definition finish_open (n : Z) (resolved : string) (flags : Z) : vstm FileHandle :=
  nd ← vnode n;
  if negb (Z.land flags O_DIRECTORY =? 0) && negb (bool_decide (kind nd = KDirectory)) then fail ENOTDIR
  else
    _ ← (if negb (Z.land flags O_TRUNC =? 0) then
           match data nd with File _ => put_data n (File []) | _ => mret tt end
         else mret tt);
    mret (mkHandle n 0 flags resolved PNone).

Definition open_mem (absolute : string) (flags mode : Z) : vstm FileHandle :=
  v ← get;
  n ← match lookup_abs v absolute with
      | Err e =>
          if (e =? ENOENT) && negb (Z.land flags O_CREAT =? 0) then
            _ ← create_file_with_mode "/" absolute [] mode;
            v ← get;
            lift (lookup_abs v absolute)
          else fail e
      | r => lift r
      end;
  nd ← vnode n;
  if bool_decide (kind nd = KSymlink) then
    target ← lift (symlink_target (data nd));
    '(parent, _) ← lift (split_parent absolute);
    let resolved := normalize_path parent target in
    v ← get;
    match lookup_abs v resolved with
    | Ok n => finish_open n resolved flags
    | Err e =>
        if e =? ENOENT then
          o ← try_open_external resolved flags;
          match (o : option FileHandle) with Some h => mret h | None => fail e end
        else fail e
    | Panic => lift Panic
    | Diverge => lift Diverge
    end
  else finish_open n absolute flags.

Definition open (cwd path : string) (flags mode : Z) : vstm FileHandle :=
  let absolute := normalize_path cwd path in
  o ← try_open_external absolute flags;
  match (o : option FileHandle) with
  | Some h => mret h
  | None => open_mem absolute flags mode
  end.

(** ** Read, write, seek *)
Definition read (len : Z) : hvstm (list Z) := on_object (read_object len).

(** Delivery of a raw packet to one socket. *)
Definition deliver_raw (family protocol : Z) (bound_path : option string) (packet : list Z) (send_type : Z)
    (st : RawSocketState) : option RawSocketState :=
  if negb (rs_family st =? family) || negb (rs_protocol st =? protocol) then None
  else if match bound_path, rs_bound_path st with
          | Some src, Some dst => negb (String.eqb src dst)
          | _, _ => false
          end then None
  else if (protocol =? 58) &&
          match rs_icmp6_filter st !! Z.to_nat (send_type / 32) with
          | Some w => Z.testbit w (send_type mod 32)
          | None => false
          end then None
  else Some (mkRaw (rs_family st) (rs_protocol st) (rs_bound_path st) (rs_checksum_offset st)
               (rs_icmp6_filter st) (rs_ipv6_recv_opts st) (rs_inbox st ++ [packet])).

Definition deliver_step (family protocol : Z) (bound_path : option string) (packet : list Z) (send_type : Z)
    (v : KernelVfs) (n : Z) : KernelVfs :=
  match nodes (vstore v) !! n with
  | Some (mkNode _ (SockRaw st)) =>
      match deliver_raw family protocol bound_path packet send_type st with
      | Some st' => set_vstore (set_data (vstore v) n (SockRaw st')) v
      | None => v
      end
  | _ => v
  end.

Definition write (bs : list Z) : hvstm Z :=
  h ← the_handle;
  nd ← on_vfs (vnode (h_node h));
  match data nd with
  | SockRaw st =>
      packet ← match rs_checksum_offset st with
               | Some offset =>
                   t ← lift (uadd offset 1);
                   if zlen bs <=? t then fail EINVAL
                   else
                     let packet := ztake offset bs ++ [0; 0] ++ zdrop (offset + 2) bs in
                     c ← lift (ipv6_raw_checksum (rs_protocol st mod 256) packet);
                     mret (ztake offset packet ++ to_be_bytes 2 c ++ zdrop (offset + 2) packet)
               | None => mret bs
               end;
      let send_type := default 0 (head packet) in
      _ ← on_vfs (modify (fun v =>
            foldl (deliver_step (rs_family st) (rs_protocol st) (rs_bound_path st) packet send_type) v
              (raw_sockets v)));
      mret (zlen bs)
  | _ => on_object (write_object can_reserve bs)
  end.

Definition seek (offset whence : Z) : hvstm Z := on_object (seek_object offset whence).

Definition cache_external_dirent_stat (dir_absolute name : string) (stat : FileStat) : vstm unit :=
  modify (fun v => set_external_stat_cache
            (<[normalize_path dir_absolute name := stat]> (external_stat_cache v)) v).

Definition is_dot (name : string) : bool := String.eqb name "." || String.eqb name "..".

Fixpoint cache_all (dir : string) (es : list (string * Ext4NodeKind * FileStat)) : vstm unit :=
  match es with
  | [] => mret tt
  | (name, _, stat) :: es' => _ ← cache_external_dirent_stat dir name stat; cache_all dir es'
  end.

(** The directory listing of an ext4 directory, cached in the node. *)
Definition ext4_entries (n : Z) (path : string) (st : Ext4DirState) : vstm (list (string * Ext4NodeKind)) :=
  match ed_entries st with
  | Some entries => mret entries
  | None =>
      entries ← (if ed_size st <=? EXT4_DIR_STAT_CACHE_MAX_SIZE then
                   es ← lift (e4_read_dir (ed_mount st) (ed_path st));
                   let es := List.filter (fun e => negb (is_dot e.1.1)) es in
                   _ ← cache_all path es;
                   mret (es.*1)
                 else
                   es ← lift (e4_read_dir_lite (ed_mount st) (ed_path st));
                   mret (List.filter (fun e => negb (is_dot e.1)) es));
      _ ← put_data n (Ext4Dir (mkE4Dir (ed_mount st) (ed_path st) (ed_mode st) (ed_size st) (Some entries)));
      mret entries
  end.

(** The records of an in-memory directory: names in order with their type. *)
Definition dir_records (s : store M) (entries : gmap string Z) : list (string * Z) :=
  omap (fun name => n ← entries !! name; nd ← nodes s !! n;
                    Some (name, node_kind_to_dirent_type (kind nd))) (names entries).

Definition getdents (max_len : Z) : hvstm (list Z) :=
  if max_len =? 0 then mret []
  else
    h ← the_handle;
    nd ← on_vfs (vnode (h_node h));
    match data nd with
    | Directory entries =>
        recs ← on_vfs (reads (fun v => Ok (dir_records (vstore v) entries)));
        '(out, emitted) ← lift (dirent_loop max_len (h_offset h) 0 [] (zdrop (h_offset h) recs));
        _ ← put_handle (with_offset h (saturating_add (h_offset h) emitted));
        mret out
    | Ext4Dir st =>
        es ← on_vfs (ext4_entries (h_node h) (h_path h) st);
        if zlen es <? h_offset h then
          _ ← put_handle (with_offset h (zlen es));
          mret []
        else
          let recs := (fun '(name, k) => (name, ext4_kind_to_dirent_type k)) <$> es in
          '(out, emitted) ← lift (dirent_loop max_len (h_offset h) 0 [] (zdrop (h_offset h) recs));
          _ ← put_handle (with_offset h (saturating_add (h_offset h) emitted));
          mret out
    | _ => fail ENOTDIR
    end.

(** ** Metadata *)
Definition stat (v : KernelVfs) (path : string) (n : Z) : outcome FileStat :=
  nd ← node_at (vstore v) n;
  sz ← data_size (vstore v) (data nd);
  let mode := match data nd with
              | Ext4File st => ef_mode st
              | Ext4Dir st => ed_mode st
              | _ => default (default_mode (kind nd)) (mem_modes v !! path)
              end in
  Ok (mkStat mode sz 1).

Definition stat_handle (v : KernelVfs) (h : FileHandle) : outcome FileStat := stat v (h_path h) (h_node h).

(** Sixteen symlinks are followed. *)
Fixpoint stat_path_follow (depth : nat) (v : KernelVfs) (absolute : string) : outcome FileStat :=
  match depth with
  | O => Err ELOOP
  | S depth' =>
      o ← external_stat_path v absolute;
      match (o : option FileStat) with
      | Some st => Ok st
      | None =>
          n ← lookup_abs v absolute;
          nd ← node_at (vstore v) n;
          if bool_decide (kind nd = KSymlink) then
            target ← symlink_target (data nd);
            '(parent, _) ← split_parent absolute;
            stat_path_follow depth' v (normalize_path parent target)
          else stat v absolute n
      end
  end.

Definition stat_path (v : KernelVfs) (cwd path : string) : outcome FileStat :=
  stat_path_follow 16 v (normalize_path cwd path).

Definition access (v : KernelVfs) (cwd path : string) : outcome unit :=
  _ ← stat_path_follow 16 v (normalize_path cwd path); Ok tt.

Fixpoint path_exists_follow (depth : nat) (v : KernelVfs) (absolute : string) : outcome unit :=
  match depth with
  | O => Err ELOOP
  | S depth' =>
      match lookup_abs v absolute with
      | Ok n =>
          nd ← node_at (vstore v) n;
          if bool_decide (kind nd = KSymlink) then
            target ← symlink_target (data nd);
            '(parent, _) ← split_parent absolute;
            path_exists_follow depth' v (normalize_path parent target)
          else Ok tt
      | _ =>
          match external_preloaded v !! absolute with
          | Some _ => Ok tt
          | None =>
              if bool_decide (absolute ∈ external_deletions v) then Err ENOENT
              else if is_memory_preferred_path absolute then Err ENOENT
              else match resolve_external_path v absolute with
                   | Some _ => Ok tt
                   | None => Err ENOENT
                   end
          end
      end
  end.

Fixpoint resolve_mem_path (rounds : nat) (v : KernelVfs) (path : string) : outcome (string * Z) :=
  match rounds with
  | O => Err ELOOP
  | S rounds' =>
      n ← lookup_abs v path;
      nd ← node_at (vstore v) n;
      if bool_decide (kind nd = KSymlink) then
        target ← symlink_target (data nd);
        '(parent, _) ← split_parent path;
        resolve_mem_path rounds' v (normalize_path parent target)
      else Ok (path, n)
  end.

Definition chdir (v : KernelVfs) (cwd path : string) : outcome string :=
  let absolute := normalize_path cwd path in
  match lookup_abs v absolute with
  | Ok n =>
      nd ← node_at (vstore v) n;
      if bool_decide (kind nd = KDirectory) then Ok absolute else Err ENOTDIR
  | _ =>
      if is_memory_preferred_path absolute then Err ENOENT
      else match external_preloaded v !! absolute with
           | Some _ => Ok absolute
           | None => match resolve_external_path v absolute with
                     | Some _ => Ok absolute
                     | None => Err ENOENT
                     end
           end
  end.

Definition read_link (v : KernelVfs) (cwd path : string) : outcome string :=
  let absolute := normalize_path cwd path in
  match resolve_external_path v absolute with
  | Some (_, mount, fs_path) => e4_read_link mount fs_path
  | None =>
      n ← lookup_abs v absolute;
      nd ← node_at (vstore v) n;
      symlink_target (data nd)
  end.

Definition chmod_path (cwd path : string) (mode : Z) : vstm unit :=
  let absolute := normalize_path cwd path in
  v ← get;
  st ← lift (stat_path v "/" absolute);
  insert_mode absolute (Z.lor (Z.ldiff (st_mode st) 0xfff) (Z.land mode 0xfff)).

Definition chmod_handle (h : FileHandle) (mode : Z) : vstm unit :=
  v ← get;
  st ← lift (stat_handle v h);
  insert_mode (h_path h) (Z.lor (Z.ldiff (st_mode st) 0xfff) (Z.land mode 0xfff)).

(** ** Names *)
Definition dir_entries (n : Z) : vstm (gmap string Z) :=
  nd ← vnode n;
  match data nd with Directory entries => mret entries | _ => fail ENOTDIR end.

Definition unlink (cwd path : string) : vstm unit :=
  let absolute := normalize_path cwd path in
  '(parent_path, name) ← lift (split_parent absolute);
  v ← get;
  parent ← lift (lookup_abs v parent_path);
  entries ← dir_entries parent;
  n ← lift (ok_or (entries !! name) ENOENT);
  nd ← vnode n;
  if bool_decide (kind nd = KDirectory) &&
     match data nd with Directory children => negb (bool_decide (children = ∅)) | _ => false end
  then fail ENOTEMPTY
  else
    _ ← put_data parent (Directory (delete name entries));
    _ ← modify (fun v =>
          set_socket_bindings (delete absolute (socket_bindings v))
            (set_mem_modes (delete absolute (mem_modes v))
              (set_external_preloaded (delete absolute (external_preloaded v))
                (set_external_stat_cache (delete absolute (external_stat_cache v)) v))));
    v ← get;
    match resolve_external_path v absolute with
    | Some _ => modify (fun v => set_external_deletions (external_deletions v ∪ {[absolute]}) v)
    | None => mret tt
    end.

Definition link (cwd old_path new_path : string) : vstm unit :=
  let old_absolute := normalize_path cwd old_path in
  let new_absolute := normalize_path cwd new_path in
  v ← get;
  n ← lift (lookup_abs v old_absolute);
  '(parent_path, name) ← lift (split_parent new_absolute);
  parent ← lift (lookup_abs v parent_path);
  entries ← dir_entries parent;
  match entries !! name with
  | Some _ => fail EEXIST
  | None =>
      _ ← put_data parent (Directory (<[name := n]> entries));
      modify (fun v =>
        let v := set_external_deletions (external_deletions v ∖ {[new_absolute]}) v in
        match mem_modes v !! old_absolute with
        | Some m => set_mem_modes (<[new_absolute := m]> (mem_modes v)) v
        | None => v
        end)
  end.

Definition rename (cwd old_path new_path : string) : vstm unit :=
  let old_absolute := normalize_path cwd old_path in
  let new_absolute := normalize_path cwd new_path in
  '(old_parent_path, old_name) ← lift (split_parent old_absolute);
  '(new_parent_path, new_name) ← lift (split_parent new_absolute);
  v ← get;
  old_parent ← lift (lookup_abs v old_parent_path);
  entries ← dir_entries old_parent;
  n ← lift (ok_or (entries !! old_name) ENOENT);
  _ ← put_data old_parent (Directory (delete old_name entries));
  v ← get;
  new_parent ← lift (lookup_abs v new_parent_path);
  entries ← dir_entries new_parent;
  match entries !! new_name with
  | Some _ => fail EEXIST
  | None =>
      _ ← put_data new_parent (Directory (<[new_name := n]> entries));
      modify (fun v =>
        let v := set_external_deletions (external_deletions v ∖ {[new_absolute]}) v in
        match mem_modes v !! old_absolute with
        | Some m => set_mem_modes (<[new_absolute := m]> (delete old_absolute (mem_modes v))) v
        | None => v
        end)
  end.

(** ** Sizes *)
Definition truncate (len : Z) : hvstm unit :=
  h ← the_handle;
  nd ← on_vfs (vnode (h_node h));
  match data nd with
  | File buf =>
      buf ← lift (ensure_file_size can_reserve buf len);
      _ ← on_vfs (put_data (h_node h) (File buf));
      put_handle (with_offset h (Z.min (h_offset h) len))
  | ProcFile buf =>
      buf ← lift (ensure_file_size can_reserve buf len);
      _ ← on_vfs (put_data (h_node h) (ProcFile buf));
      put_handle (with_offset h (Z.min (h_offset h) len))
  | Ext4File _ | Ext4Dir _ => fail EROFS
  | _ => fail EINVAL
  end.

(** A method that owns a handle: the handle is dropped when it returns. *)
Definition with_handle {A} (h : FileHandle) (m : hvstm A) : vstm A := fun v =>
  let '(r, (h', v')) := m (h, v) in
  match drop_handle (vstore v') h' with
  | Ok s => (r, set_vstore s v')
  | _ => (Panic, v')
  end.

Definition truncate_path (cwd path : string) (len : Z) : vstm unit :=
  let absolute := normalize_path cwd path in
  v ← get;
  n ← lift (lookup_abs v absolute);
  with_handle (mkHandle n 0 O_RDWR absolute PNone) (truncate len).

Definition fallocate (offset len : Z) : hvstm unit :=
  h ← the_handle;
  nd ← on_vfs (vnode (h_node h));
  match data nd with
  | File buf =>
      buf ← lift (ensure_file_size can_reserve buf (saturating_add offset len));
      on_vfs (put_data (h_node h) (File buf))
  | ProcFile buf =>
      buf ← lift (ensure_file_size can_reserve buf (saturating_add offset len));
      on_vfs (put_data (h_node h) (ProcFile buf))
  | Ext4File _ | Ext4Dir _ => fail EROFS
  | _ => fail EINVAL
  end.

(** ** Mounts *)
Definition mounts_text (ms : list MountRecord) : string :=
  foldl (fun acc m => acc +:+ mnt_source m +:+ " " +:+ mnt_target m +:+ " " +:+ mnt_fs_type m +:+
                      String (Ascii.ascii_of_nat 10) "") "" ms.

Definition refresh_mounts_proc : vstm unit :=
  v ← get;
  match lookup_abs v "/proc/mounts" with
  | Ok n => put_data n (ProcFile (bytes_of (mounts_text (mounts v))))
  | _ => mret tt
  end.

Definition replace_proc_file (path : string) (contents : list Z) : vstm unit :=
  v ← get;
  n ← lift (lookup_abs v path);
  put_data n (ProcFile contents).

Definition mount (source target fs_type : string) (flags : Z) : vstm unit :=
  let absolute := normalize_path "/" target in
  v ← get;
  _ ← (if is_ok (lookup_abs v absolute) then mret tt else mkdir "/" absolute 0x1ed);
  _ ← modify (fun v => set_mounts (mounts v ++ [mkMount source absolute fs_type flags]) v);
  refresh_mounts_proc.

(** [probed] is what [Ext4Mount::probe] returned: the mount and its label. *)
Definition mount_ext4 (source target : string) (probed : outcome (M * string)) : vstm string :=
  let absolute := normalize_path "/" target in
  '(m, label) ← lift probed;
  _ ← modify (fun v =>
        let v := set_external_mounts
                   (List.filter (fun e => negb (String.eqb e.1 absolute)) (external_mounts v) ++ [(absolute, m)]) v in
        let v := set_external_stat_cache ∅ (set_external_preloaded ∅ (set_external_deletions ∅ v)) in
        set_mounts (List.filter (fun r => negb (String.eqb (mnt_target r) absolute)) (mounts v) ++
                    [mkMount source absolute "ext4" 0]) v);
  _ ← refresh_mounts_proc;
  mret label.

Definition umount (target : string) : vstm unit :=
  let absolute := normalize_path "/" target in
  v ← get;
  let before := zlen (mounts v) in
  let external_before := zlen (external_mounts v) in
  _ ← modify (fun v =>
        let v := set_mounts (List.filter (fun r => negb (String.eqb (mnt_target r) absolute)) (mounts v)) v in
        let v := set_external_mounts
                   (List.filter (fun e => negb (String.eqb e.1 absolute)) (external_mounts v)) v in
        if zlen (external_mounts v) =? external_before then v
        else set_external_stat_cache ∅ (set_external_preloaded ∅ (set_external_deletions ∅ v)));
  v ← get;
  if before =? zlen (mounts v) then fail ENOENT else refresh_mounts_proc.

Definition mount_flags_for_path (v : KernelVfs) (cwd path : string) : Z :=
  let absolute := normalize_path cwd path in
  match max_by_key (fun r => str_len (mnt_target r))
          (List.filter (fun r => String.eqb absolute (mnt_target r) ||
                                 starts_with absolute (mnt_target r +:+ "/")) (mounts v)) with
  | Some r => mnt_flags r
  | None => 0
  end.

(** ** Anonymous objects *)
Definition create_pipe : vstm (FileHandle * FileHandle) :=
  id ← fresh_pipe_id;
  let path := "pipe:[" +:+ pretty id +:+ "]" in
  n ← alloc_node Node_pipe;
  mret (mkHandle n 0 O_RDONLY path PRead, mkHandle n 0 O_WRONLY path PWrite).

Definition create_eventfd (init : Z) : vstm FileHandle :=
  id ← fresh_pipe_id;
  n ← alloc_node (Node_eventfd init);
  mret (mkHandle n 0 O_RDWR ("eventfd:[" +:+ pretty id +:+ "]") PNone).

Definition create_epoll : vstm FileHandle :=
  id ← fresh_pipe_id;
  n ← alloc_node Node_epoll;
  mret (mkHandle n 0 O_RDWR ("epoll:[" +:+ pretty id +:+ "]") PNone).

Definition create_memfd (name : string) : vstm FileHandle :=
  v ← get;
  let path := "memfd:" +:+ name +:+ ":" +:+ pretty (next_memfd_id v) in
  _ ← modify (fun v => set_next_memfd_id (next_memfd_id v + 1) v);
  n ← alloc_node (Node_file (File []));
  mret (mkHandle n 0 O_RDWR path PNone).

Definition create_pidfd (pid : Z) : vstm FileHandle :=
  n ← alloc_node (Node_pidfd pid);
  mret (mkHandle n 0 O_RDONLY ("pidfd:[" +:+ pretty pid +:+ "]") PNone).

Definition pidfd_pid (v : KernelVfs) (h : FileHandle) : outcome Z :=
  nd ← node_at (vstore v) (h_node h);
  match data nd with PidFd pid => Ok pid | _ => Err EINVAL end.

Definition epoll_update (op fd events : Z) (watches : list EpollWatch) : outcome (list EpollWatch) :=
  if op =? 1 then
    if existsb (fun w => w_fd w =? fd) watches then Err EEXIST
    else Ok (watches ++ [mkWatch fd events])
  else if op =? 2 then
    i ← ok_or (position (fun w => w_fd w =? fd) watches) ENOENT;
    Ok (<[i := mkWatch fd events]> watches)
  else if op =? 3 then
    i ← ok_or (position (fun w => w_fd w =? fd) watches) ENOENT;
    Ok (take i watches ++ drop (S i) watches)
  else Err EINVAL.

Definition epoll_ctl (h : FileHandle) (op fd events : Z) : vstm unit :=
  nd ← vnode (h_node h);
  match data nd with
  | Epoll watches => ws ← lift (epoll_update op fd events watches); put_data (h_node h) (Epoll ws)
  | _ => fail EINVAL
  end.

Definition epoll_watches (v : KernelVfs) (h : FileHandle) : outcome (list EpollWatch) :=
  nd ← node_at (vstore v) (h_node h);
  match data nd with Epoll watches => Ok watches | _ => Err EINVAL end.

(** ** Sockets *)
Definition socket_family (v : KernelVfs) (h : FileHandle) : outcome Z :=
  nd ← node_at (vstore v) (h_node h);
  match data nd with
  | SockPending st => Ok (sp_family st)
  | SockConnected _ _ family _ _ => Ok family
  | SockRaw st => Ok (rs_family st)
  | _ => Err ENOTSOCK
  end.

Definition create_socket (family sock_type protocol : Z) : vstm FileHandle :=
  id ← fresh_pipe_id;
  n ← (if sock_type =? 3 then
         n ← alloc_node (Node_socket_raw family protocol);
         _ ← modify (fun v => set_raw_sockets (raw_sockets v ++ [n]) v);
         mret n
       else alloc_node (Node_socket_pending family sock_type));
  mret (mkHandle n 0 O_RDWR ("socket:[" +:+ pretty id +:+ "]") PNone).

Definition create_socketpair : vstm (FileHandle * FileHandle) :=
  id ← fresh_pipe_id;
  let path := "socketpair:[" +:+ pretty id +:+ "]" in
  c ← alloc_channel;
  n0 ← alloc_node (Node_socket_connected c 0 1 1 false);
  n1 ← alloc_node (Node_socket_connected c 1 1 1 false);
  mret (mkHandle n0 0 O_RDWR (path +:+ ":0") PNone, mkHandle n1 0 O_RDWR (path +:+ ":1") PNone).

Definition assign_ephemeral_inet_path (path : string) : vstm string :=
  let assign prefix ip :=
    v ← get;
    let assigned := next_ephemeral_port v in
    _ ← modify (fun v => set_next_ephemeral_port (Z.min (next_ephemeral_port v + 1) 0xffff) v);
    mret (prefix +:+ ip +:+ ":" +:+ pretty assigned) in
  match (rest ← strip_prefix path "/inet/"; rsplit_once ":"%char rest),
        (rest ← strip_prefix path "/inet6/"; rsplit_once ":"%char rest) with
  | Some (ip, port), o =>
      if String.eqb port "0" then assign "/inet/" ip
      else match o with
           | Some (ip6, port6) => if String.eqb port6 "0" then assign "/inet6/" ip6 else mret path
           | None => mret path
           end
  | None, Some (ip6, port6) => if String.eqb port6 "0" then assign "/inet6/" ip6 else mret path
  | None, None => mret path
  end.

(** The address checks and the name-space entry, the same for both kinds of
    unconnected sockets. *)
Definition bind_checks (n family : Z) (absolute : string) : vstm unit :=
  _ ← (if family =? 2 then
         match strip_prefix absolute "/inet/" with
         | Some rest =>
             '(ip, _) ← lift (ok_or (rsplit_once ":"%char rest) EINVAL);
             if negb (String.eqb ip "000.000.000.000") && negb (String.eqb ip "127.000.000.001")
             then fail EADDRNOTAVAIL else mret tt
         | None => mret tt
         end
       else mret tt);
  if (family =? 1) && negb (starts_with absolute UNIX_ABSTRACT_PREFIX) then
    v ← get;
    match socket_bindings v !! absolute with
    | Some _ => fail EADDRINUSE
    | None =>
        '(parent_path, name) ← lift (split_parent absolute);
        parent ← lift (lookup_abs v parent_path);
        entries ← dir_entries parent;
        match entries !! name with
        | Some _ => fail EADDRINUSE
        | None =>
            _ ← put_data parent (Directory (<[name := n]> entries));
            insert_mode absolute (Z.lor S_IFSOCK 0x1ff)
        end
    end
  else mret tt.

Definition bind_socket (cwd path : string) : hvstm unit :=
  absolute ← on_vfs (assign_ephemeral_inet_path (normalize_path cwd path));
  h ← the_handle;
  nd ← on_vfs (vnode (h_node h));
  match data nd with
  | SockPending st =>
      if bool_decide (sp_path st = None) then
        _ ← on_vfs (bind_checks (h_node h) (sp_family st) absolute);
        _ ← on_vfs (put_data (h_node h) (SockPending (mkPending (Some absolute) (sp_listening st) (sp_family st)
               (sp_sock_type st) (sp_multicast_joined st) (sp_pending st))));
        _ ← put_handle (with_path h absolute);
        on_vfs (modify (fun v => set_socket_bindings (<[absolute := h_node h]> (socket_bindings v)) v))
      else fail EINVAL
  | SockRaw st =>
      if bool_decide (rs_bound_path st = None) then
        _ ← on_vfs (bind_checks (h_node h) (rs_family st) absolute);
        _ ← on_vfs (put_data (h_node h) (SockRaw (mkRaw (rs_family st) (rs_protocol st) (Some absolute)
               (rs_checksum_offset st) (rs_icmp6_filter st) (rs_ipv6_recv_opts st) (rs_inbox st))));
        put_handle (with_path h absolute)
      else fail EINVAL
  | _ => fail ENOTSOCK
  end.

Definition listen_socket (h : FileHandle) : vstm unit :=
  nd ← vnode (h_node h);
  match data nd with
  | SockPending st =>
      put_data (h_node h) (SockPending (mkPending (sp_path st) true (sp_family st) (sp_sock_type st)
        (sp_multicast_joined st) (sp_pending st)))
  | _ => fail EINVAL
  end.

Definition connect_socket (cwd path : string) : hvstm unit :=
  let absolute := normalize_path cwd path in
  h ← the_handle;
  listener ← on_vfs (reads (fun v =>
    match socket_bindings v !! absolute with
    | Some l => Ok l
    | None =>
        match inet_any_listener_path absolute with
        | Some any_addr => ok_or (socket_bindings v !! any_addr) ENOENT
        | None => Err ENOENT
        end
    end));
  c ← on_vfs alloc_channel;
  nd ← on_vfs (vnode listener);
  match data nd with
  | SockPending st =>
      let family := sp_family st in
      let sock_type := sp_sock_type st in
      _ ← (if (sock_type =? 1) || (sock_type =? 5) then
             if sp_listening st then
               n ← on_vfs (alloc_node (Node_socket_connected c 1 family sock_type false));
               on_vfs (put_data listener (SockPending (mkPending (sp_path st) (sp_listening st) family sock_type
                 (sp_multicast_joined st) (sp_pending st ++ [n]))))
             else fail EINVAL
           else on_vfs (put_data listener (SockConnected c 1 family sock_type false)));
      _ ← on_vfs (put_data (h_node h) (SockConnected c 0 family sock_type false));
      put_handle (with_path h absolute)
  | _ => fail ENOTSOCK
  end.

Definition accept_socket (h : FileHandle) : vstm FileHandle :=
  nd ← vnode (h_node h);
  match data nd with
  | SockPending st =>
      if negb (sp_sock_type st =? 1) && negb (sp_sock_type st =? 5) then fail EOPNOTSUPP
      else if negb (sp_listening st) then fail EINVAL
      else match last (sp_pending st) with
           | None => fail EAGAIN
           | Some n =>
               _ ← put_data (h_node h) (SockPending (mkPending (sp_path st) (sp_listening st) (sp_family st)
                     (sp_sock_type st) (sp_multicast_joined st) (removelast (sp_pending st))));
               mret (mkHandle n 0 O_RDWR (h_path h) PNone)
           end
  | _ => fail ENOTSOCK
  end.

Definition socket_ip_multicast_action (h : FileHandle) (join : bool) : vstm unit :=
  nd ← vnode (h_node h);
  match data nd with
  | SockPending st =>
      let upd b := put_data (h_node h) (SockPending (mkPending (sp_path st) (sp_listening st) (sp_family st)
                     (sp_sock_type st) b (sp_pending st))) in
      if join then upd true else if sp_multicast_joined st then upd false else fail 99
  | SockConnected c side family sock_type mj =>
      let upd b := put_data (h_node h) (SockConnected c side family sock_type b) in
      if join then upd true else if mj then upd false else fail 99
  | _ => fail ENOTSOCK
  end.

Definition socket_set_icmp6_filter (h : FileHandle) (filter : list Z) : vstm unit :=
  nd ← vnode (h_node h);
  match data nd with
  | SockRaw st =>
      if (rs_family st =? 10) && (rs_protocol st =? 58) then
        put_data (h_node h) (SockRaw (mkRaw (rs_family st) (rs_protocol st) (rs_bound_path st)
          (rs_checksum_offset st) filter (rs_ipv6_recv_opts st) (rs_inbox st)))
      else fail EINVAL
  | _ => fail ENOTSOCK
  end.

Definition socket_set_ipv6_checksum_offset (h : FileHandle) (offset : option Z) : vstm unit :=
  nd ← vnode (h_node h);
  match data nd with
  | SockRaw st =>
      if rs_family st =? 10 then
        put_data (h_node h) (SockRaw (mkRaw (rs_family st) (rs_protocol st) (rs_bound_path st)
          offset (rs_icmp6_filter st) (rs_ipv6_recv_opts st) (rs_inbox st)))
      else fail EINVAL
  | _ => fail ENOTSOCK
  end.

Definition socket_icmp6_filter (v : KernelVfs) (h : FileHandle) : outcome (list Z) :=
  nd ← node_at (vstore v) (h_node h);
  match data nd with
  | SockRaw st =>
      if (rs_family st =? 10) && (rs_protocol st =? 58) then Ok (rs_icmp6_filter st) else Err EINVAL
  | _ => Err ENOTSOCK
  end.

Definition socket_set_ipv6_recv_opt (h : FileHandle) (opt value : Z) : vstm unit :=
  nd ← vnode (h_node h);
  match data nd with
  | SockRaw st =>
      if rs_family st =? 10 then
        put_data (h_node h) (SockRaw (mkRaw (rs_family st) (rs_protocol st) (rs_bound_path st)
          (rs_checksum_offset st) (rs_icmp6_filter st) (<[opt := value]> (rs_ipv6_recv_opts st)) (rs_inbox st)))
      else fail EINVAL
  | _ => fail ENOTSOCK
  end.

Definition socket_get_ipv6_recv_opt (v : KernelVfs) (h : FileHandle) (opt : Z) : outcome Z :=
  nd ← node_at (vstore v) (h_node h);
  match data nd with
  | SockRaw st =>
      if rs_family st =? 10 then Ok (default 0 (rs_ipv6_recv_opts st !! opt)) else Err EINVAL
  | _ => Err ENOTSOCK
  end.

Definition socket_ipv6_recv_cmsgs (v : KernelVfs) (h : FileHandle) : outcome (list (Z * list Z)) :=
  nd ← node_at (vstore v) (h_node h);
  match data nd with
  | SockRaw st =>
      if rs_family st =? 10 then
        Ok (omap (fun '(opt, value) =>
              if value =? 0 then None
              else '(cmsg_type, payload_len) ← ipv6_recv_opt_cmsg opt;
                   Some (cmsg_type, replicate (Z.to_nat payload_len) 0)) (items (rs_ipv6_recv_opts st)))
      else Err EINVAL
  | _ => Err ENOTSOCK
  end.

(** The whole file, chunk by chunk; every chunk but the last is not empty. *)
Fixpoint read_all_loop (fuel : nat) (size : Z) (out : list Z) : hvstm (list Z) :=
  match fuel with
  | O => lift Diverge
  | S fuel' =>
      if zlen out <? size then
        chunk ← read (size - zlen out);
        match chunk with
        | [] => mret out
        | _ => read_all_loop fuel' size (out ++ chunk)
        end
      else mret out
  end.

Definition read_file_all (cwd path : string) : vstm (list Z) :=
  h ← open cwd path O_RDONLY 0;
  with_handle h
    (st ← on_vfs (reads (fun v => stat_handle v h));
     if st_size st =? 0 then mret []
     else read_all_loop (S (Z.to_nat (st_size st))) (st_size st) []).

(** [let _ = ...]: the result is ignored, what was done stays. *)
Definition ignore {A} (m : vstm A) : vstm unit := fun v => (Ok tt, (m v).2).
Fixpoint run_all (ms : list (vstm unit)) : vstm unit :=
  match ms with
  | [] => mret tt
  | m :: ms' => _ ← ignore m; run_all ms'
  end.

Definition mkdirs (ds : list string) : list (vstm unit) := (fun d => mkdir "/" d 0x1ed) <$> ds.

Definition initial_names : list (vstm unit) :=
  mkdirs ["/dev"; "/proc"; "/mnt"; "/tmp"; "/bin"; "/etc"] ++
  mkdirs ["/proc/net"; "/proc/sys"; "/proc/sys/net"; "/proc/sys/user"; "/proc/sys/net/ipv6";
          "/proc/sys/net/ipv6/conf"; "/proc/sys/net/ipv6/conf/all"; "/proc/sys/net/ipv6/conf/lo";
          "/proc/sys/net/ipv6/conf/ltp_ns_veth1"; "/proc/sys/net/ipv6/conf/ltp_ns_veth2"] ++
  (create_char_device <$>
     ["/dev/console"; "/dev/null"; "/dev/zero"; "/dev/random"; "/dev/urandom"; "/dev/rtc0"]) ++
  [create_proc_file "/proc/mounts" [];
   create_proc_file "/proc/net/if_inet6" (lines
     ["00000000000000000000000000000001 01 80 10 80 lo";
      "fd000001000100010000000000000002 02 40 00 80 ltp_ns_veth2";
      "fd000001000100010000000000000001 03 40 00 80 ltp_ns_veth1"]);
   create_proc_file "/proc/sys/net/ipv6/conf/all/disable_ipv6" (lines ["0"]);
   create_proc_file "/proc/sys/net/ipv6/conf/lo/disable_ipv6" (lines ["0"]);
   create_proc_file "/proc/sys/net/ipv6/conf/ltp_ns_veth1/disable_ipv6" (lines ["0"]);
   create_proc_file "/proc/sys/net/ipv6/conf/ltp_ns_veth2/disable_ipv6" (lines ["0"])] ++
  mkdirs ["/proc/sys"; "/proc/sys/user"; "/proc/sys/kernel"; "/proc/sys/kernel/keys"] ++
  [create_proc_file "/proc/sys/user/max_user_namespaces" (lines ["1024"]);
   create_proc_file "/proc/sys/kernel/tainted" (lines ["0"]);
   create_proc_file "/proc/key-users" [];
   create_proc_file "/proc/sys/kernel/keys/gc_delay" (lines ["1"]);
   create_proc_file "/proc/sys/kernel/keys/maxkeys" (lines ["200"]);
   create_proc_file "/proc/sys/kernel/keys/maxbytes" (lines ["20000"]);
   create_proc_file "/proc/meminfo" PROC_MEMINFO;
   create_proc_file "/proc/uptime" PROC_UPTIME;
   create_proc_file "/proc/stat" PROC_STAT;
   create_proc_file "/proc/version" PROC_VERSION;
   mkdir "/" "/proc/self" 0x1ed;
   create_proc_file "/proc/self/stat" PROC_SELF_STAT;
   create_proc_file "/proc/self/maps" PROC_SELF_MAPS].

(** The empty tree: the root directory is node 0. *)
Definition empty_vfs : KernelVfs :=
  mkVfs 0 (mkStore {[ 0 := Node_directory ]} ∅ []) 1 0 [] [] ∅ ∅ ∅ ∅ 0 0 40000 ∅ [].

Definition new : KernelVfs := (run_all initial_names empty_vfs).2.

End KernelVfs.

Arguments KernelVfs : clear implicits.

End Vfs.
