(* ===== verification/VfsInv.v ===== *)
(** * Well-formedness of the file name space

    Every directory entry, socket binding, pending connection and handle of
    a reachable [KernelVfs] refers to an allocated node, and every connected
    socket to an allocated channel: the [Arc] references of the source.  The
    invariant is proved for every public method. *)

From S2P Require Import Prelude Path FileObject Vfs.

Open Scope string_scope.
Open Scope list_scope.
Open Scope Z_scope.

Module VfsInv.
Import Path Obj Vfs.

Section Inv.
Context {M : Type} `{!Ext4Ops M}.
Implicit Types (v : KernelVfs M) (s : store M) (h : FileHandle).

Definition has_node s (n : Z) : Prop := is_Some (nodes s !! n).
Definition has_channel s (c : Z) : Prop := is_Some (channels s !! c).

(** The references a node holds are allocated. *)
Definition data_ok s (d : NodeData M) : Prop :=
  match d with
  | Directory entries => map_Forall (fun _ n => has_node s n) entries
  | SockPending st => Forall (has_node s) (sp_pending st)
  | SockConnected c _ _ _ _ => has_channel s c
  | _ => True
  end.

Definition store_ok s : Prop := map_Forall (fun _ nd => data_ok s (data nd)) (nodes s).

Record wf v : Prop := mkWf {
  wf_root : has_node (vstore v) (root v);
  wf_store : store_ok (vstore v);
  wf_nodes : ∀ n, has_node (vstore v) n → n < next_node v;
  wf_channels : ∀ c, has_channel (vstore v) c → c < next_channel v;
  wf_bindings : map_Forall (fun _ n => has_node (vstore v) n) (socket_bindings v);
  wf_raw : Forall (has_node (vstore v)) (raw_sockets v);
}.

(** Nodes and channels are never freed under a reference. *)
Record sgrows s s' : Prop := mkGrows {
  grows_nodes : ∀ n, has_node s n → has_node s' n;
  grows_channels : ∀ c, has_channel s c → has_channel s' c;
}.
Definition grows v v' : Prop := sgrows (vstore v) (vstore v').

#[global] Instance sgrows_preorder : PreOrder sgrows.
Proof. split; [done|]. intros ??? [] []. split; auto. Qed.
#[global] Instance grows_preorder : PreOrder grows.
Proof. split; unfold grows; [done|]. intros ???. apply transitivity. Qed.

Lemma data_ok_grows s s' d : sgrows s s' → data_ok s d → data_ok s' d.
Proof.
  intros [Hn Hc]. destruct d; simpl; auto.
  - intros H ???. eapply Hn, H. done.
  - intros H. eapply Forall_impl; [done|]. auto.
Qed.

Abbreviation Vkeeps := (keeps wf grows).

(** ** Primitive steps *)
Lemma set_data_nodes s n d j : has_node (set_data s n d) j ↔ has_node s j.
Proof.
  unfold has_node, set_data. simpl. destruct (decide (n = j)) as [<-|].
  - rewrite lookup_alter_eq. by rewrite fmap_is_Some.
  - by rewrite lookup_alter_ne.
Qed.

Lemma set_data_grows s n d : sgrows s (set_data s n d).
Proof. split; [|done]. intros j. by rewrite set_data_nodes. Qed.

Lemma store_ok_set_data s n d : store_ok s → data_ok s d → store_ok (set_data s n d).
Proof.
  intros Hs Hd j nd. simpl. destruct (decide (n = j)) as [<-|].
  - rewrite lookup_alter_eq. intros (nd' & Hn & ->)%fmap_Some.
    eapply data_ok_grows; [apply set_data_grows|done].
  - rewrite lookup_alter_ne by done. intros Hn.
    eapply data_ok_grows; [apply set_data_grows|by eapply Hs].
Qed.

Lemma put_data_keeps v n d :
  data_ok (vstore v) d → Vkeeps v (put_data n d) (fun _ _ => True).
Proof.
  intros Hd. apply keeps_modify. intros []. split_and!; [|apply set_data_grows|done].
  split; simpl; auto.
  - by apply set_data_nodes.
  - by apply store_ok_set_data.
  - intros j. rewrite set_data_nodes. auto.
  - intros ???. rewrite set_data_nodes. eauto.
  - eapply Forall_impl; [done|]. intros j. by rewrite set_data_nodes.
Qed.

Lemma alloc_node_grows v nd : grows v (alloc_node nd v).2.
Proof.
  split; [|done]. intros j Hj. unfold has_node. simpl. rewrite lookup_insert_is_Some'. by right.
Qed.

Lemma alloc_node_keeps v nd :
  data_ok (vstore v) (data nd) →
  Vkeeps v (alloc_node nd) (fun n v' => has_node (vstore v') n).
Proof.
  intros Hd Hwf. pose proof (alloc_node_grows v nd) as Hg.
  assert (has_node (vstore (alloc_node nd v).2) (next_node v)) as Hnew.
  { unfold has_node. simpl. by rewrite lookup_insert_eq. }
  split_and!; [|done|by intros n [= <-]].
  destruct Hwf as [Hr Hs Hn Hc Hb Hraw]. pose proof Hg as [Hgn Hgc]. split.
  - by apply Hgn.
  - intros j nd'. simpl. intros [[<- <-]|[_ Hj]]%lookup_insert_Some.
    + by eapply data_ok_grows; [apply Hg|].
    + eapply data_ok_grows; [apply Hg|by eapply Hs].
  - intros j. unfold has_node. simpl. rewrite lookup_insert_is_Some'.
    intros [<-|Hj]; [lia|]. specialize (Hn j Hj). lia.
  - done.
  - intros k j Hj. apply Hgn. by eapply Hb.
  - eapply Forall_impl; [done|]. apply Hgn.
Qed.

Lemma alloc_channel_keeps v : Vkeeps v alloc_channel (fun c v' => has_channel (vstore v') c).
Proof.
  intros Hwf.
  assert (grows v (alloc_channel v).2) as Hg.
  { split; [done|]. intros c Hc. unfold has_channel. simpl. rewrite lookup_insert_is_Some'. by right. }
  split_and!; [|done|].
  - destruct Hwf as [Hr Hs Hn Hc Hb Hraw]. split; simpl; try done.
    + intros j nd Hj. eapply data_ok_grows; [exact Hg|]. by eapply Hs.
    + intros c. unfold has_channel. simpl. rewrite lookup_insert_is_Some'.
      intros [<-|Hj]; [lia|]. specialize (Hc c Hj). lia.
  - intros c [= <-]. unfold has_channel. simpl. by rewrite lookup_insert_eq.
Qed.

(** Methods that touch only counters, caches and mount tables. *)
Definition same_graph v v' : Prop :=
  root v' = root v ∧ vstore v' = vstore v ∧ next_node v' = next_node v ∧
  next_channel v' = next_channel v ∧ raw_sockets v' = raw_sockets v ∧
  socket_bindings v' ⊆ socket_bindings v.

Lemma same_graph_wf v v' : same_graph v v' → wf v → wf v' ∧ grows v v'.
Proof.
  intros (Hr & Hs & Hn & Hc & Hraw & Hb) []. unfold grows. rewrite Hs. split; [|done].
  split; rewrite ?Hr, ?Hs, ?Hn, ?Hc, ?Hraw; auto.
  intros k n Hk. eapply wf_bindings0, lookup_weaken; done.
Qed.

Lemma aux_keeps v (f : KernelVfs M → KernelVfs M) :
  same_graph v (f v) → Vkeeps v (modify f) (fun _ _ => True).
Proof. intros Hf. apply keeps_modify. intros Hwf. by destruct (same_graph_wf _ _ Hf Hwf). Qed.

Lemma vnode_keeps v n : Vkeeps v (vnode n) (fun nd v' => v' = v ∧ data_ok (vstore v) (data nd)).
Proof.
  intros Hwf. split_and!; [done|done|]. intros nd. simpl. unfold node_at.
  destruct (nodes (vstore v) !! n) eqn:Hn; simpl; intros Heq; simplify_eq.
  split; [done|]. by eapply wf_store.
Qed.

Lemma get_keeps v : Vkeeps v get (fun a v' => a = v ∧ v' = v).
Proof. apply (keeps_get _ _ v). by split. Qed.

Lemma lift_keeps {A} v (o : outcome A) : Vkeeps v (lift o) (fun a v' => o = Ok a ∧ v' = v).
Proof. apply (keeps_reads _ _ v). by split. Qed.

(** ** Lookup *)
Lemma walk_valid s n cs m : store_ok s → has_node s n → walk s n cs = Ok m → has_node s m.
Proof.
  intros Hs. revert n. induction cs as [|c cs IH]; intros n Hn; simpl; [naive_solver|].
  unfold node_at. destruct Hn as [nd Hnd]. rewrite Hnd. simpl.
  assert (data_ok s (data nd)) as Hd by exact (Hs _ _ Hnd). destruct (data nd); try done.
  destruct (entries !! c) as [next|] eqn:He; simpl; [|done]. apply IH. by eapply Hd.
Qed.

Lemma walk_total s n cs :
  store_ok s → has_node s n → (∃ m, walk s n cs = Ok m) ∨ walk s n cs = Err ENOENT ∨ walk s n cs = Err ENOTDIR.
Proof.
  intros Hs. revert n. induction cs as [|c cs IH]; intros n Hn; simpl; [eauto|].
  unfold node_at. destruct Hn as [nd Hnd]. rewrite Hnd. simpl.
  assert (data_ok s (data nd)) as Hd by exact (Hs _ _ Hnd). destruct (data nd); eauto.
  destruct (entries !! c) as [next|] eqn:He; simpl; [|eauto]. apply IH. by eapply Hd.
Qed.

Lemma lookup_abs_valid v p n : wf v → lookup_abs v p = Ok n → has_node (vstore v) n.
Proof.
  intros []. unfold lookup_abs. destruct (String.eqb p "/"); [naive_solver|]. by apply walk_valid.
Qed.

Lemma lookup_abs_total v p :
  wf v → (∃ n, lookup_abs v p = Ok n) ∨ lookup_abs v p = Err ENOENT ∨ lookup_abs v p = Err ENOTDIR.
Proof.
  intros []. unfold lookup_abs. destruct (String.eqb p "/"); [eauto|]. by apply walk_total.
Qed.

(** ** Methods *)
Lemma has_node_grows v v' n : has_node (vstore v) n → grows v v' → has_node (vstore v') n.
Proof. intros ? []. auto. Qed.
Lemma has_channel_grows v v' c : has_channel (vstore v) c → grows v v' → has_channel (vstore v') c.
Proof. intros ? []. auto. Qed.
Lemma data_ok_later v v' d : data_ok (vstore v) d → grows v v' → data_ok (vstore v') d.
Proof. intros ? ?. by eapply data_ok_grows. Qed.

Lemma dir_insert_ok s name n entries :
  has_node s n → data_ok s (Directory entries) → data_ok s (Directory (<[name := n]> entries)).
Proof. intros. by apply map_Forall_insert_2. Qed.
Lemma dir_delete_ok s name entries :
  data_ok s (Directory entries) → data_ok s (Directory (delete name entries)).
Proof. intros. by apply map_Forall_delete. Qed.
Lemma dir_lookup_ok s name n entries :
  data_ok s (Directory entries) → entries !! name = Some n → has_node s n.
Proof. intros Hd Hn. by eapply Hd. Qed.

End Inv.

#[export] Hint Resolve has_node_grows has_channel_grows data_ok_later dir_insert_ok dir_delete_ok
  dir_lookup_ok lookup_abs_valid : whuse.
#[export] Hint Extern 1 (data_ok _ _) => exact I : whuse.
#[export] Hint Extern 1 (data_ok _ (Directory ∅)) => apply map_Forall_empty : whuse.
#[export] Hint Extern 1 (data_ok _ (data (Node_socket_pending _ _))) => apply Forall_nil_2 : whuse.

(** A method that only updates fields outside the node graph. *)
Ltac same_graph_tac :=
  unfold same_graph; cbn; repeat case_match; split_and!; try done;
  first [reflexivity | apply delete_subseteq].

(** The primitive steps of a method, and the side conditions of each. *)
Ltac vprim :=
  first
  [ apply vnode_keeps
  | apply alloc_channel_keeps
  | apply alloc_node_keeps;
      solve [eauto with whuse | cbn [data Node_directory Node_file Node_pipe Node_socket_connected]; eauto with whuse]
  | apply put_data_keeps; solve [eauto with whuse]
  | apply aux_keeps; same_graph_tac
  | apply get_keeps
  | apply lift_keeps
  | apply keeps_fail; apply _
  | solve [eauto with whuse] ].

(** Facts a step leaves behind. *)
Ltac vfacts :=
  intros; cbv beta in *; destruct_and?; simplify_eq;
  repeat match goal with
  | H : grows ?v ?v |- _ => clear H
  | H : wf ?v, H' : wf ?v |- _ => clear H'
  | H : ok_or _ _ = Ok _ |- _ => unfold ok_or in H; case_match; simplify_eq
  | H : data ?nd = _, H' : data_ok _ (data ?nd) |- _ => rewrite H in H'
  end.

Ltac kstep prim := kstep_with prim vfacts.
Ltac vstep := kstep vprim.

Section Methods.
Context {M : Type} `{!Ext4Ops M} (can_reserve : Z → bool).
Implicit Types (v : KernelVfs M) (s : store M) (h : FileHandle).
Abbreviation Vkeeps := (keeps wf grows).
Abbreviation vtrue := (fun _ (_ : KernelVfs M) => True).

Definition opt_ok s (d : option (NodeData M)) : Prop := from_option (data_ok s) True d.

Lemma opt_ok_later v v' d : opt_ok (vstore v) d → grows v v' → opt_ok (vstore v') d.
Proof. destruct d; simpl; eauto with whuse. Qed.

Lemma default_node_ok s k d : opt_ok s d → data_ok s (data (default_node k d)).
Proof. destruct k; simpl; try done; try apply map_Forall_empty; destruct d; done. Qed.
Hint Resolve opt_ok_later default_node_ok : whuse.
Hint Extern 1 (opt_ok _ _) => exact I : whuse.

Lemma fresh_pipe_id_keeps v : Vkeeps v fresh_pipe_id vtrue.
Proof.
  intros Hwf. destruct (same_graph_wf v (fresh_pipe_id v).2); [same_graph_tac|done|]. by split_and!.
Qed.

Lemma create_in_keeps v parent p name k d :
  opt_ok (vstore v) d → Vkeeps v (create_in parent p name k d) vtrue.
Proof. intros Hd. unfold create_in. repeat vstep. Qed.
Hint Resolve create_in_keeps fresh_pipe_id_keeps : whuse.

Lemma ensure_memory_dir_keeps fuel v p : Vkeeps v (ensure_memory_dir fuel p) vtrue.
Proof.
  revert v p. induction fuel as [|fuel IH]; intros v p; cbn [ensure_memory_dir]; [repeat vstep|].
  repeat vstep.
Qed.
Hint Resolve ensure_memory_dir_keeps : whuse.

Lemma create_node_keeps v p k d : opt_ok (vstore v) d → Vkeeps v (create_node p k d) vtrue.
Proof. intros Hd. unfold create_node. repeat vstep. Qed.

Lemma insert_mode_keeps v p m : Vkeeps v (insert_mode p m) vtrue.
Proof. unfold insert_mode. repeat vstep. Qed.
Hint Resolve create_node_keeps insert_mode_keeps : whuse.

Lemma create_file_with_mode_keeps v cwd p bs m : Vkeeps v (create_file_with_mode cwd p bs m) vtrue.
Proof. unfold create_file_with_mode. repeat vstep. Qed.
Hint Resolve create_file_with_mode_keeps : whuse.

Lemma create_char_device_keeps v p : Vkeeps v (create_char_device p) vtrue.
Proof. unfold create_char_device. repeat vstep. Qed.
Lemma create_proc_file_keeps v p bs : Vkeeps v (create_proc_file p bs) vtrue.
Proof. unfold create_proc_file. repeat vstep. Qed.
Lemma create_file_keeps v cwd p bs : Vkeeps v (create_file cwd p bs) vtrue.
Proof. unfold create_file. repeat vstep. Qed.
Lemma create_symlink_keeps v cwd p t : Vkeeps v (create_symlink cwd p t) vtrue.
Proof. unfold create_symlink. repeat vstep. Qed.
Lemma mkdir_keeps v cwd p m : Vkeeps v (mkdir cwd p m) vtrue.
Proof. unfold mkdir. repeat vstep. Qed.
Lemma preload_keeps v p bs m : Vkeeps v (preload_external_file p bs m) vtrue.
Proof. unfold preload_external_file. repeat vstep. Qed.
Hint Resolve mkdir_keeps create_char_device_keeps create_proc_file_keeps : whuse.

(** A handle that refers to an allocated node. *)
Definition handle_ok v h : Prop := has_node (vstore v) (h_node h).
Abbreviation vhandle := (fun h v => handle_ok v h).
Lemma mkHandle_ok v n o fl p e : has_node (vstore v) n → handle_ok v (mkHandle n o fl p e).
Proof. done. Qed.
Hint Resolve mkHandle_ok : whuse.

Lemma build_ext4_handle_keeps v p m q st c : Vkeeps v (build_ext4_handle p m q st c) vhandle.
Proof. unfold build_ext4_handle. destruct (_ =? _); repeat vstep. Qed.
Hint Resolve build_ext4_handle_keeps : whuse.

Lemma try_open_external_keeps v p fl :
  Vkeeps v (try_open_external p fl) (fun o v => from_option (handle_ok v) True o).
Proof. unfold try_open_external. repeat vstep. Qed.
Hint Resolve try_open_external_keeps : whuse.

Lemma finish_open_keeps v n p fl : has_node (vstore v) n → Vkeeps v (finish_open n p fl) vhandle.
Proof. intros Hn. unfold finish_open. repeat vstep. Qed.
Hint Resolve finish_open_keeps : whuse.

Lemma open_mem_keeps v p fl m : Vkeeps v (open_mem p fl m) vhandle.
Proof.
  unfold open_mem. vstep.
  eapply keeps_bind with (Q := fun n v => has_node (vstore v) n); [apply _| |vfacts]; repeat vstep.
Qed.
Hint Resolve open_mem_keeps : whuse.

Lemma open_keeps v cwd p fl m : Vkeeps v (open cwd p fl m) vhandle.
Proof. unfold open. repeat vstep. Qed.

(** *** Names *)
Lemma dir_entries_keeps v n :
  Vkeeps v (dir_entries n) (fun es v' => data_ok (vstore v') (Directory es)).
Proof. unfold dir_entries. repeat vstep. Qed.
Hint Resolve dir_entries_keeps : whuse.

Lemma unlink_keeps v cwd p : Vkeeps v (unlink cwd p) vtrue.
Proof. unfold unlink. repeat vstep. Qed.
Lemma link_keeps v cwd p q : Vkeeps v (link cwd p q) vtrue.
Proof. unfold link. repeat vstep. Qed.
Lemma rename_keeps v cwd p q : Vkeeps v (rename cwd p q) vtrue.
Proof. unfold rename. repeat vstep. Qed.
Lemma chmod_path_keeps v cwd p m : Vkeeps v (chmod_path cwd p m) vtrue.
Proof. unfold chmod_path. repeat vstep. Qed.
Lemma chmod_handle_keeps v h m : Vkeeps v (chmod_handle h m) vtrue.
Proof. unfold chmod_handle. repeat vstep. Qed.

(** *** Mounts *)
Lemma refresh_mounts_proc_keeps v : Vkeeps v refresh_mounts_proc vtrue.
Proof. unfold refresh_mounts_proc. repeat vstep. Qed.
Lemma replace_proc_file_keeps v p bs : Vkeeps v (replace_proc_file p bs) vtrue.
Proof. unfold replace_proc_file. repeat vstep. Qed.
Hint Resolve refresh_mounts_proc_keeps : whuse.
Lemma mount_keeps v src t f fl : Vkeeps v (mount src t f fl) vtrue.
Proof. unfold mount. repeat vstep. Qed.
Lemma mount_ext4_keeps v src t (o : outcome (M * string)) : Vkeeps v (mount_ext4 src t o) vtrue.
Proof. unfold mount_ext4. repeat vstep. Qed.
Lemma umount_keeps v t : Vkeeps v (umount t) vtrue.
Proof. unfold umount. repeat vstep. Qed.

(** *** Anonymous objects *)
Lemma create_pipe_keeps v :
  Vkeeps v create_pipe (fun '(r, w) v => handle_ok v r ∧ handle_ok v w).
Proof. unfold create_pipe. repeat vstep. Qed.
Lemma create_eventfd_keeps v i : Vkeeps v (create_eventfd i) vhandle.
Proof. unfold create_eventfd. repeat vstep. Qed.
Lemma create_epoll_keeps v : Vkeeps v create_epoll vhandle.
Proof. unfold create_epoll. repeat vstep. Qed.
Lemma create_memfd_keeps v n : Vkeeps v (create_memfd n) vhandle.
Proof. unfold create_memfd. repeat vstep. Qed.
Lemma create_pidfd_keeps v n : Vkeeps v (create_pidfd n) vhandle.
Proof. unfold create_pidfd. repeat vstep. Qed.
Lemma epoll_ctl_keeps v h op fd ev : Vkeeps v (epoll_ctl h op fd ev) vtrue.
Proof. unfold epoll_ctl. repeat vstep. Qed.

(** *** Sockets *)
Lemma pending_ok s pa l f st mj pend :
  Forall (has_node s) pend → data_ok s (SockPending (mkPending pa l f st mj pend)).
Proof. done. Qed.
Lemma pending_inv s st : data_ok s (SockPending st) → Forall (has_node s) (sp_pending st).
Proof. done. Qed.
Lemma connected_ok s c side f st mj : has_channel s c → data_ok s (SockConnected c side f st mj).
Proof. done. Qed.
Lemma connected_inv s c side f st mj : data_ok s (SockConnected c side f st mj) → has_channel s c.
Proof. done. Qed.
Lemma pending_later v v' l :
  Forall (has_node (vstore v)) l → grows v v' → Forall (has_node (vstore v')) l.
Proof. intros Hl Hg. eapply Forall_impl; [done|]. eauto with whuse. Qed.
Lemma pending_push s l n : Forall (has_node s) l → has_node s n → Forall (has_node s) (l ++ [n]).
Proof. intros. apply Forall_app. auto. Qed.
Lemma pending_pop s l : Forall (has_node s) l → Forall (has_node s) (removelast l).
Proof.
  induction 1 as [|x l ?? IH]; [done|]. simpl. destruct l; [done|]. by constructor.
Qed.
Lemma pending_last s l n : Forall (has_node s) l → last l = Some n → has_node s n.
Proof. rewrite Forall_forall. intros Hl ?. by apply Hl, last_Some_elem_of. Qed.
Hint Resolve pending_ok pending_inv connected_ok connected_inv pending_later pending_push pending_pop
  pending_last : whuse.

Lemma register_raw_keeps v n :
  has_node (vstore v) n → Vkeeps v (modify (fun v => set_raw_sockets (raw_sockets v ++ [n]) v)) vtrue.
Proof.
  intros Hn. apply keeps_modify. intros []. split_and!; [|done|done]. split; simpl; auto with whuse.
Qed.

Lemma bind_name_keeps v p n :
  has_node (vstore v) n →
  Vkeeps v (modify (fun v => set_socket_bindings (<[p := n]> (socket_bindings v)) v)) vtrue.
Proof.
  intros Hn. apply keeps_modify. intros []. split_and!; [|done|done].
  split; simpl; auto. by apply map_Forall_insert_2.
Qed.
Hint Resolve register_raw_keeps bind_name_keeps : whuse.

Lemma create_socket_keeps v f st pr : Vkeeps v (create_socket f st pr) vhandle.
Proof.
  unfold create_socket. vstep.
  eapply keeps_bind with (Q := fun n v => has_node (vstore v) n); [apply _| |vfacts]; repeat vstep.
Qed.

Lemma create_socketpair_keeps v :
  Vkeeps v create_socketpair (fun '(a, b) v => handle_ok v a ∧ handle_ok v b).
Proof. unfold create_socketpair. repeat vstep. Qed.

Lemma assign_ephemeral_keeps v p : Vkeeps v (assign_ephemeral_inet_path p) vtrue.
Proof. unfold assign_ephemeral_inet_path. repeat vstep. Qed.

Lemma bind_checks_keeps v n f p : has_node (vstore v) n → Vkeeps v (bind_checks n f p) vtrue.
Proof. intros Hn. unfold bind_checks. repeat vstep. Qed.

Lemma listen_socket_keeps v h : Vkeeps v (listen_socket h) vtrue.
Proof. unfold listen_socket. repeat vstep. Qed.

Lemma accept_socket_keeps v h : Vkeeps v (accept_socket h) vhandle.
Proof. unfold accept_socket. repeat vstep. Qed.

Lemma multicast_keeps v h b : Vkeeps v (socket_ip_multicast_action h b) vtrue.
Proof. unfold socket_ip_multicast_action. repeat vstep. Qed.
Lemma set_filter_keeps v h f : Vkeeps v (socket_set_icmp6_filter h f) vtrue.
Proof. unfold socket_set_icmp6_filter. repeat vstep. Qed.
Lemma set_checksum_offset_keeps v h o : Vkeeps v (socket_set_ipv6_checksum_offset h o) vtrue.
Proof. unfold socket_set_ipv6_checksum_offset. repeat vstep. Qed.
Lemma set_recv_opt_keeps v h o x : Vkeeps v (socket_set_ipv6_recv_opt h o x) vtrue.
Proof. unfold socket_set_ipv6_recv_opt. repeat vstep. Qed.

(** *** Methods on a handle

    The state is the handle and the name space; the handle stays on its node. *)
Definition hwf (x : FileHandle * KernelVfs M) : Prop := wf x.2 ∧ handle_ok x.2 x.1.
Definition hgrows (x y : FileHandle * KernelVfs M) : Prop := grows x.2 y.2 ∧ h_node y.1 = h_node x.1.
#[local] Instance hgrows_preorder : PreOrder hgrows.
Proof. split; [done|]. intros x y z [] []. split; [by etrans|congruence]. Qed.
Abbreviation Hkeeps := (keeps hwf hgrows).

Lemma on_vfs_keeps {A} h v (m : stm (KernelVfs M) A) Q :
  Vkeeps v m Q → Hkeeps (h, v) (on_vfs m) (fun a x => x.1 = h ∧ Q a x.2).
Proof.
  intros Hm [Hwf Hh]. destruct (Hm Hwf) as (Hwf' & Hg & HQ). unfold on_vfs.
  destruct (m v) as [r v'] eqn:Heq. simpl in *.
  split_and!; [|by split|naive_solver]. split; [done|]. by eapply has_node_grows.
Qed.

Lemma the_handle_keeps h v : Hkeeps (h, v) the_handle (fun a x => a = h ∧ x = (h, v)).
Proof. intros [??]. split_and!; [done|done|]. by intros a [= <-]. Qed.

Lemma put_handle_keeps x h' :
  h_node h' = h_node x.1 → Hkeeps x (put_handle h') (fun _ _ => True).
Proof.
  destruct x as [h v]. intros Hn [??]. split_and!; [|by split|done].
  split; [done|]. unfold handle_ok. simpl in *. by rewrite Hn.
Qed.

Lemma hlift_keeps {A} x (o : outcome A) : Hkeeps x (lift o) (fun a y => o = Ok a ∧ y = x).
Proof. apply keeps_reads; [apply _|]. by split. Qed.

(** An object operation leaves the allocated nodes and channels as they are. *)
Definition owf (x : FileHandle * store M) : Prop := store_ok x.2 ∧ has_node x.2 (h_node x.1).
Record osame (x y : FileHandle * store M) : Prop := mkSame {
  os_handle : h_node y.1 = h_node x.1;
  os_nodes : ∀ n, has_node y.2 n ↔ has_node x.2 n;
  os_channels : ∀ c, has_channel y.2 c ↔ has_channel x.2 c;
}.
#[local] Instance osame_preorder : PreOrder osame.
Proof.
  split; [done|]. intros x y z [H1 H2 H3] [H4 H5 H6].
  split; [congruence|intros ?; by rewrite H5, H2|intros ?; by rewrite H6, H3].
Qed.
Abbreviation Okeeps := (keeps owf osame).

Lemma wf_set_vstore v s' :
  wf v → store_ok s' → (∀ n, has_node s' n ↔ has_node (vstore v) n) →
  (∀ c, has_channel s' c ↔ has_channel (vstore v) c) →
  wf (set_vstore s' v) ∧ grows v (set_vstore s' v).
Proof.
  intros [] Hs Hn Hc. split.
  - split; simpl; [by apply Hn|done|intros n; rewrite Hn; auto|intros c; rewrite Hc; auto| |].
    + intros k n Hk. apply Hn. by eapply wf_bindings0.
    + eapply Forall_impl; [done|]. intros. by apply Hn.
  - split; simpl; intros ?; [by rewrite Hn|by rewrite Hc].
Qed.

Lemma on_object_keeps {A} h v (m : stm (FileHandle * store M) A) :
  Okeeps (h, vstore v) m (fun _ _ => True) → Hkeeps (h, v) (on_object m) (fun _ _ => True).
Proof.
  intros Hm [Hwf Hh]. simpl in *. destruct Hm as ([Hs' Hh'] & [Hn Hns Hcs] & _).
  { split; [apply Hwf|done]. }
  unfold on_object. destruct (m (h, vstore v)) as [r [h' s']]. simpl in *.
  destruct (wf_set_vstore v s') as [? ?]; [done..|]. by split_and!.
Qed.

Lemma my_node_keeps x : Okeeps x my_node (fun nd y => y = x ∧ data_ok x.2 (data nd)).
Proof.
  destruct x as [h s]. intros [Hs Hh]. split_and!; [done|done|]. intros nd. simpl. unfold node_at.
  destruct (nodes s !! h_node h) eqn:Hn; simpl; intros ?; simplify_eq. split; [done|]. by apply (Hs _ _ Hn).
Qed.
Lemma my_handle_keeps x : Okeeps x my_handle (fun h y => y = x ∧ h = x.1).
Proof. destruct x as [h s]. intros []. split_and!; [done|done|]. by intros ? [= <-]. Qed.
Lemma my_channel_keeps x c : Okeeps x (my_channel c) (fun _ y => y = x ∧ has_channel x.2 c).
Proof.
  destruct x as [h s]. intros []. split_and!; [done|done|]. intros ch. simpl. unfold channel_at.
  destruct (channels s !! c) eqn:Hc; simpl; intros ?; simplify_eq. split; [done|]. by eexists.
Qed.
Lemma set_offset_keeps x o : Okeeps x (set_offset o) (fun _ y => y.2 = x.2).
Proof. destruct x as [h s]. intros []. by split_and!. Qed.
Lemma to_console_keeps x bs : Okeeps x (to_console bs) (fun _ _ => True).
Proof. destruct x as [h s]. intros []. by split_and!. Qed.
Lemma olift_keeps {A} x (o : outcome A) : Okeeps x (lift o) (fun a y => o = Ok a ∧ y = x).
Proof. apply keeps_reads; [apply _|]. by split. Qed.

Lemma set_my_data_keeps x d : data_ok x.2 d → Okeeps x (set_my_data d) (fun _ _ => True).
Proof.
  destruct x as [h s]. intros Hd [Hs Hh]. split_and!; [|split|]; simpl; try done.
  - split; simpl; [by apply store_ok_set_data|]. by apply set_data_nodes.
  - intros n. apply set_data_nodes.
Qed.

Lemma set_my_channel_keeps x c ch : has_channel x.2 c → Okeeps x (set_my_channel c ch) (fun _ _ => True).
Proof.
  destruct x as [h s]. intros Hc [Hs Hh]. simpl in *.
  assert (∀ c', has_channel (set_channel s c ch) c' ↔ has_channel s c') as Hcc.
  { intros c'. unfold has_channel. simpl. rewrite lookup_insert_is_Some'. naive_solver. }
  split_and!; [|by split|done]. split; [|done]. intros n nd Hn. simpl in *.
  apply (data_ok_grows s); [|by eapply Hs]. split; [done|]. intros c'. by rewrite Hcc.
Qed.

Lemma owf_data_later x y d : data_ok x.2 d → osame x y → data_ok y.2 d.
Proof.
  intros Hd [_ Hn Hc]. eapply data_ok_grows; [|done]. split; intros ?; [apply Hn|apply Hc].
Qed.
Lemma owf_channel_later x y c : has_channel x.2 c → osame x y → has_channel y.2 c.
Proof. intros Hd [_ Hn Hc]. by apply Hc. Qed.
Hint Resolve owf_data_later owf_channel_later : whuse.

Ltac oprim :=
  first
  [ apply my_node_keeps | apply my_handle_keeps | apply set_offset_keeps | apply to_console_keeps
  | apply olift_keeps | apply my_channel_keeps
  | apply set_my_data_keeps; solve [eauto with whuse]
  | apply set_my_channel_keeps; solve [eauto with whuse]
  | apply keeps_fail; apply _
  | solve [eauto with whuse] ].
Ltac ostep := kstep oprim.

Lemma read_buf_keeps x buf len : Okeeps x (read_buf buf len) (fun _ _ => True).
Proof. unfold read_buf. repeat ostep. Qed.
Hint Resolve read_buf_keeps : whuse.

Lemma read_object_keeps x len : Okeeps x (read_object len) (fun _ _ => True).
Proof. unfold read_object. repeat ostep. Qed.

Lemma grow_buf_keeps x wrap buf size :
  (∀ s b, data_ok s (wrap b)) → Okeeps x (grow_buf can_reserve wrap buf size) (fun _ _ => True).
Proof. intros Hw. unfold grow_buf. repeat ostep. Qed.
Hint Resolve grow_buf_keeps : whuse.

Lemma write_buf_keeps x wrap buf bs :
  (∀ s b, data_ok s (wrap b)) → Okeeps x (write_buf can_reserve wrap buf bs) (fun _ _ => True).
Proof. intros Hw. unfold write_buf. repeat ostep. Qed.

Lemma write_object_keeps x bs : Okeeps x (write_object can_reserve bs) (fun _ _ => True).
Proof.
  unfold write_object. repeat ostep.
  all: eapply keeps_weaken; [by apply write_buf_keeps|done].
Qed.

Lemma seek_object_keeps x o w : Okeeps x (seek_object o w) (fun _ _ => True).
Proof.
  destruct x as [h s]. intros []. unfold seek_object. cbv zeta. case_match; by split_and!.
Qed.
Hint Resolve read_object_keeps write_object_keeps seek_object_keeps assign_ephemeral_keeps
  bind_checks_keeps open_keeps : whuse.

Lemma vreads_keeps {A} v (f : KernelVfs M → outcome A) : Vkeeps v (reads f) (fun a v' => f v = Ok a ∧ v' = v).
Proof. intros Hwf. split_and!; [done|done|]. by split. Qed.
Hint Resolve vreads_keeps : whuse.

Ltac hprim :=
  first
  [ apply on_vfs_keeps; vprim
  | apply on_object_keeps; solve [eauto with whuse]
  | apply the_handle_keeps
  | apply put_handle_keeps; simpl; congruence
  | apply hlift_keeps
  | apply keeps_fail; apply _
  | solve [eauto with whuse] ].
Ltac hfacts :=
  repeat match goal with
  | x : FileHandle * KernelVfs _ |- _ => destruct x
  | H : hgrows _ _ |- _ => destruct H
  | H : hwf _ |- _ => destruct H
  end; simpl in *; vfacts.
Ltac hstep := hfacts; kstep hprim.

Lemma handle_grows v v' h : handle_ok v h → grows v v' → handle_ok v' h.
Proof. unfold handle_ok. eauto with whuse. Qed.
Lemma handle_node v h : handle_ok v h → has_node (vstore v) (h_node h).
Proof. done. Qed.
Hint Resolve handle_grows handle_node : whuse.

Lemma seek_keeps x o w : Hkeeps x (seek o w) (fun _ _ => True).
Proof. unfold seek. repeat hstep. Qed.
Lemma read_keeps x n : Hkeeps x (read n) (fun _ _ => True).
Proof. unfold read. repeat hstep. Qed.
Hint Resolve read_keeps : whuse.

Lemma truncate_keeps x len : Hkeeps x (truncate can_reserve len) (fun _ _ => True).
Proof. unfold truncate. repeat hstep. Qed.
Lemma fallocate_keeps x o len : Hkeeps x (fallocate can_reserve o len) (fun _ _ => True).
Proof. unfold fallocate. repeat hstep. Qed.

Lemma cache_all_keeps v d es : Vkeeps v (cache_all d es) vtrue.
Proof.
  revert v. induction es as [|[[name k] st] es IH]; intros v; cbn [cache_all]; repeat vstep.
Qed.
Hint Resolve cache_all_keeps : whuse.

Lemma ext4_entries_keeps v n p st : Vkeeps v (ext4_entries n p st) vtrue.
Proof. unfold ext4_entries. repeat vstep. Qed.
Hint Resolve ext4_entries_keeps : whuse.

Lemma getdents_keeps x n : Hkeeps x (getdents n) (fun _ _ => True).
Proof. unfold getdents. repeat hstep. Qed.

Lemma bind_socket_keeps x cwd p : Hkeeps x (bind_socket cwd p) (fun _ _ => True).
Proof. unfold bind_socket. repeat hstep. Qed.

Lemma connect_socket_keeps x cwd p : Hkeeps x (connect_socket cwd p) (fun _ _ => True).
Proof. unfold connect_socket. repeat hstep. Qed.

Lemma deliver_step_graph f pr b pk t v n :
  wf v → wf (deliver_step f pr b pk t v n) ∧ grows v (deliver_step f pr b pk t v n).
Proof.
  intros Hwf. unfold deliver_step. repeat case_match; try done.
  apply wf_set_vstore; [done| |intros; apply set_data_nodes|done].
  apply store_ok_set_data; [apply Hwf|done].
Qed.

Lemma deliver_keeps v f pr b pk t :
  Vkeeps v (modify (fun v => foldl (deliver_step f pr b pk t) v (raw_sockets v))) vtrue.
Proof.
  apply keeps_modify. intros Hwf. generalize (raw_sockets v) as ns. intros ns. revert v Hwf.
  induction ns as [|n ns IH]; intros v Hwf; simpl; [done|].
  destruct (deliver_step_graph f pr b pk t v n Hwf) as [Hwf' Hg].
  destruct (IH _ Hwf') as (? & ? & _). split_and!; [done|by etrans|done].
Qed.
Hint Resolve deliver_keeps : whuse.

Lemma write_keeps x bs : Hkeeps x (write can_reserve bs) (fun _ _ => True).
Proof. unfold write. repeat hstep. Qed.

Lemma read_all_loop_keeps fuel x size out : Hkeeps x (read_all_loop fuel size out) (fun _ _ => True).
Proof.
  revert x out. induction fuel as [|fuel IH]; intros x out; cbn [read_all_loop]; repeat hstep.
Qed.
Hint Resolve read_all_loop_keeps truncate_keeps : whuse.

(** [Clone] and [Drop] of a handle. *)
Lemma adjust_refcount_ok v h up s' :
  wf v → handle_ok v h → adjust_pipe_refcount (vstore v) h up = Ok s' →
  wf (set_vstore s' v) ∧ grows v (set_vstore s' v).
Proof.
  intros Hwf Hh. unfold adjust_pipe_refcount, node_at, channel_at.
  destruct Hh as [nd Hnd]. rewrite Hnd. simpl.
  assert (data_ok (vstore v) (data nd)) as Hd by exact (wf_store _ Hwf _ _ Hnd).
  destruct (data nd) eqn:Hdata; intros Heq; simplify_eq; try by apply wf_set_vstore; [|apply Hwf|..].
  - destruct (h_pipe_end h); simplify_eq; apply wf_set_vstore; try done; try apply Hwf;
      try (intros; apply set_data_nodes); apply store_ok_set_data; done || apply Hwf.
  - destruct Hd as [ch Hch]. rewrite Hch in Heq. simplify_eq/=.
    destruct (set_my_channel_keeps (h, vstore v) channel
      (mkChannel (inbox ch) (side_set (open_sides ch) side (bump up (side_get (open_sides ch) side)))))
      as ([? _] & [_ ??] & _); [by exists ch|by split; [apply Hwf|exists nd]|].
    by apply wf_set_vstore.
Qed.

Lemma with_handle_keeps {A} v h (m : stm (FileHandle * KernelVfs M) A) :
  handle_ok v h → (∀ x, Hkeeps x m (fun _ _ => True)) → Vkeeps v (with_handle h m) vtrue.
Proof.
  intros Hh Hm Hwf. unfold with_handle. destruct (Hm (h, v)) as ([Hwf' Hh'] & [Hg _] & _); [done|].
  destruct (m (h, v)) as [r [h' v']]. simpl in *. unfold drop_handle.
  destruct (adjust_pipe_refcount (vstore v') h' false) as [s'| | |] eqn:Hs; [|by split_and!..].
  destruct (adjust_refcount_ok v' h' false s') as [? ?]; [done..|].
  simpl. split_and!; [done|by etrans|done].
Qed.

Lemma truncate_path_keeps v cwd p len : Vkeeps v (truncate_path can_reserve cwd p len) vtrue.
Proof.
  unfold truncate_path. repeat vstep. apply with_handle_keeps; eauto with whuse.
Qed.

Lemma read_file_all_keeps v cwd p : Vkeeps v (read_file_all cwd p) vtrue.
Proof.
  unfold read_file_all. repeat vstep. apply with_handle_keeps; [done|].
  intros x. repeat hstep.
Qed.

(** ** Runs of the kernel

    The public methods, those on the name space alone and those on an open
    handle, [Clone] and [Drop] of handles. *)
Inductive vfs_method : ∀ A : Type, stm (KernelVfs M) A → Prop :=
  | m_create_char_device p : vfs_method _ (create_char_device p)
  | m_create_proc_file p bs : vfs_method _ (create_proc_file p bs)
  | m_create_file_with_mode cwd p bs m : vfs_method _ (create_file_with_mode cwd p bs m)
  | m_create_file cwd p bs : vfs_method _ (create_file cwd p bs)
  | m_create_symlink cwd p t : vfs_method _ (create_symlink cwd p t)
  | m_preload p bs m : vfs_method _ (preload_external_file p bs m)
  | m_mkdir cwd p m : vfs_method _ (mkdir cwd p m)
  | m_open cwd p fl m : vfs_method _ (open cwd p fl m)
  | m_chmod_path cwd p m : vfs_method _ (chmod_path cwd p m)
  | m_chmod_handle h m : vfs_method _ (chmod_handle h m)
  | m_unlink cwd p : vfs_method _ (unlink cwd p)
  | m_link cwd p q : vfs_method _ (link cwd p q)
  | m_rename cwd p q : vfs_method _ (rename cwd p q)
  | m_truncate_path cwd p len : vfs_method _ (truncate_path can_reserve cwd p len)
  | m_replace_proc_file p bs : vfs_method _ (replace_proc_file p bs)
  | m_mount src t f fl : vfs_method _ (mount src t f fl)
  | m_mount_ext4 src t o : vfs_method _ (mount_ext4 src t o)
  | m_umount t : vfs_method _ (umount t)
  | m_create_pipe : vfs_method _ create_pipe
  | m_create_eventfd i : vfs_method _ (create_eventfd i)
  | m_create_epoll : vfs_method _ create_epoll
  | m_create_memfd n : vfs_method _ (create_memfd n)
  | m_create_pidfd n : vfs_method _ (create_pidfd n)
  | m_epoll_ctl h op fd ev : vfs_method _ (epoll_ctl h op fd ev)
  | m_create_socket f st pr : vfs_method _ (create_socket f st pr)
  | m_create_socketpair : vfs_method _ create_socketpair
  | m_listen h : vfs_method _ (listen_socket h)
  | m_accept h : vfs_method _ (accept_socket h)
  | m_multicast h j : vfs_method _ (socket_ip_multicast_action h j)
  | m_icmp6_filter h f : vfs_method _ (socket_set_icmp6_filter h f)
  | m_checksum_offset h o : vfs_method _ (socket_set_ipv6_checksum_offset h o)
  | m_recv_opt h o x : vfs_method _ (socket_set_ipv6_recv_opt h o x)
  | m_read_file_all cwd p : vfs_method _ (read_file_all cwd p).

Inductive handle_method : ∀ A : Type, stm (FileHandle * KernelVfs M) A → Prop :=
  | h_read n : handle_method _ (read n)
  | h_write bs : handle_method _ (write can_reserve bs)
  | h_seek o w : handle_method _ (seek o w)
  | h_getdents n : handle_method _ (getdents n)
  | h_truncate len : handle_method _ (truncate can_reserve len)
  | h_fallocate o len : handle_method _ (fallocate can_reserve o len)
  | h_bind cwd p : handle_method _ (bind_socket cwd p)
  | h_connect cwd p : handle_method _ (connect_socket cwd p).

Inductive vfs_step : KernelVfs M → KernelVfs M → Prop :=
  | step_method A m v : vfs_method A m → vfs_step v (m v).2
  | step_handle A m h v : handle_method A m → handle_ok v h → vfs_step v (m (h, v)).2.2
  | step_clone h v s' :
      handle_ok v h → clone_handle (vstore v) h = Ok (h, s') → vfs_step v (set_vstore s' v)
  | step_drop h v s' :
      handle_ok v h → drop_handle (vstore v) h = Ok s' → vfs_step v (set_vstore s' v).

Hint Resolve create_file_keeps create_symlink_keeps preload_keeps chmod_path_keeps chmod_handle_keeps
  unlink_keeps link_keeps rename_keeps truncate_path_keeps replace_proc_file_keeps mount_keeps
  mount_ext4_keeps umount_keeps create_pipe_keeps create_eventfd_keeps create_epoll_keeps
  create_memfd_keeps create_pidfd_keeps epoll_ctl_keeps create_socket_keeps create_socketpair_keeps
  listen_socket_keeps accept_socket_keeps multicast_keeps set_filter_keeps set_checksum_offset_keeps
  set_recv_opt_keeps read_file_all_keeps write_keeps seek_keeps getdents_keeps fallocate_keeps
  bind_socket_keeps connect_socket_keeps : whuse.

Lemma method_keeps A m v : vfs_method A m → Vkeeps v m vtrue.
Proof. destruct 1; (eapply keeps_weaken; [eauto with whuse|done]). Qed.

Lemma handle_method_keeps A m x : handle_method A m → Hkeeps x m (fun _ _ => True).
Proof. destruct 1; eauto with whuse. Qed.

Lemma vfs_step_wf v v' : vfs_step v v' → wf v → wf v' ∧ grows v v'.
Proof.
  destruct 1 as [A m v Hm|A m h v Hm Hh|h v s' Hh Hc|h v s' Hh Hd]; intros Hwf.
  - destruct (method_keeps _ _ v Hm Hwf) as (? & ? & _). done.
  - destruct (handle_method_keeps _ _ (h, v) Hm) as ([? _] & [? _] & _); done.
  - unfold clone_handle in Hc. inv_bind. by eapply adjust_refcount_ok.
  - by eapply adjust_refcount_ok.
Qed.

Lemma empty_vfs_wf : wf (empty_vfs (M := M)).
Proof.
  split; simpl.
  - by exists Node_directory.
  - intros n nd Hn. cbn [nodes] in Hn. apply lookup_singleton_Some in Hn as [_ <-]. apply map_Forall_empty.
  - intros n [nd Hn]. cbn [nodes] in Hn. apply lookup_singleton_Some in Hn as [<- _]. lia.
  - intros c [ch Hc]. cbn [channels] in Hc. by rewrite lookup_empty in Hc.
  - apply map_Forall_empty.
  - done.
Qed.

Lemma run_all_keeps v ms :
  Forall (fun m => ∀ v, Vkeeps v m vtrue) ms → Vkeeps v (run_all ms) vtrue.
Proof.
  intros Hms. revert v. induction Hms as [|m ms Hm _ IH]; intros v; cbn [run_all]; [repeat vstep|].
  eapply keeps_bind with (Q := vtrue); [apply _| |intros; apply IH].
  intros Hwf. unfold ignore. destruct (Hm v Hwf) as (? & ? & _). by split_and!.
Qed.

Lemma new_wf : wf (new (M := M)).
Proof.
  destruct (run_all_keeps empty_vfs initial_names) as (? & _); [|apply empty_vfs_wf|done].
  unfold initial_names, mkdirs. repeat (apply Forall_app; split);
    repeat (apply Forall_cons; split; [eauto with whuse|]); try apply Forall_nil_2;
    simpl; repeat (apply Forall_cons; split; [eauto with whuse|]); apply Forall_nil_2.
Qed.

Lemma run_wf v v' : rtc vfs_step v v' → wf v → wf v' ∧ grows v v'.
Proof.
  induction 1 as [|v v1 v' Hs _ IH]; intros Hwf; [done|].
  destruct (vfs_step_wf _ _ Hs Hwf) as [Hwf1 ?]. destruct (IH Hwf1). split; [done|by etrans].
Qed.

(** Every name space the kernel can reach from boot is well formed:
    directory entries, socket bindings, raw sockets, pending connections and
    connected sockets refer to allocated nodes and channels.  A handle that
    was open stays on an allocated node whatever other operations run, and a
    path lookup always ends in an allocated node, ENOENT or ENOTDIR. *)
Theorem vfs_reachable_wf v v' :
  rtc vfs_step new v → rtc vfs_step v v' →
  wf v' ∧
  (∀ h, handle_ok v h → handle_ok v' h) ∧
  (∀ p, (∃ n, lookup_abs v' p = Ok n ∧ has_node (vstore v') n) ∨
        lookup_abs v' p = Err ENOENT ∨ lookup_abs v' p = Err ENOTDIR).
Proof.
  intros Hr Hr'. destruct (run_wf _ _ Hr new_wf) as [Hwf _].
  destruct (run_wf _ _ Hr' Hwf) as [Hwf' Hg]. split_and!; [done|eauto with whuse|].
  intros p. destruct (lookup_abs_total v' p Hwf') as [[n Hn]|]; [|auto].
  left. exists n. split; [done|]. by eapply lookup_abs_valid.
Qed.

End Methods.

Lemma vfs_reachable_wf_witness :
  let v := (mkdir "/" "/tmp/x" 0 (new (M := Empty_set))).2 in
  wf (unlink "/" "/tmp/x" v).2.
Proof.
  intros v.
  refine (proj1 (vfs_reachable_wf (fun _ => true) v (unlink "/" "/tmp/x" v).2 _ _)).
  - apply rtc_once, step_method, m_mkdir.
  - apply rtc_once, step_method, m_unlink.
Defined.

End VfsInv.
