(* ===== verification/VfsSpec.v ===== *)
(** * What the operations of the name space do

    Functional specifications of creation, removal, renaming, directory
    reading, symbolic links and local sockets, over the definitions of
    [Vfs]. *)

From S2P Require Import Prelude Path FileObject Vfs VfsInv.

Open Scope string_scope.
Open Scope list_scope.
Open Scope Z_scope.

Module VfsSpec.
Import Path Obj Vfs VfsInv.

Section Spec.
Context {M : Type} `{!Ext4Ops M}.
Implicit Types (v : KernelVfs M) (s : store M) (h : FileHandle).

(** ** Lookup *)
Lemma lookup_render v cs :
  forallb good_name cs = true → lookup_abs v (render cs) = walk (vstore v) (root v) cs.
Proof.
  intros Hcs. unfold lookup_abs. destruct (String.eqb_spec (render cs) "/") as [He|He].
  - destruct cs as [|c cs]; [done|]. exfalso. simpl in Hcs. apply andb_true_iff in Hcs as [Hc _].
    apply good_name_inv in Hc as (_ & Hne & _). cbn in He. injection He as He. by destruct c.
  - by rewrite components_render.
Qed.

Lemma good_prefix cs ds : forallb good_name (cs ++ ds) = true → forallb good_name cs = true.
Proof. rewrite forallb_app. by intros [? _]%andb_true_iff. Qed.

Lemma walk_app s n cs ds : walk s n (cs ++ ds) = m ← walk s n cs; walk s m ds.
Proof.
  revert n. induction cs as [|c cs IH]; intros n; [done|]. cbn [app walk].
  destruct (node_at s n) as [nd| | |]; [|done..]. cbn [mbind outcome_bind].
  destruct (data nd); try done. destruct (entries !! c); simpl; [apply IH|done].
Qed.

Definition is_dir s (n : Z) (entries : gmap string Z) : Prop :=
  ∃ k, nodes s !! n = Some (mkNode k (Directory entries)).

Lemma walk_cons_dir s n es c cs :
  is_dir s n es → walk s n (c :: cs) = m ← ok_or (es !! c) ENOENT; walk s m cs.
Proof. intros [k Hn]. simpl. unfold node_at. by rewrite Hn. Qed.

Lemma walk_cons_Ok s n c cs m :
  walk s n (c :: cs) = Ok m → ∃ es n', is_dir s n es ∧ es !! c = Some n' ∧ walk s n' cs = Ok m.
Proof.
  simpl. unfold node_at. destruct (nodes s !! n) as [[k d]|] eqn:Hn; simpl; [|done].
  destruct d; try done. destruct (entries !! c) as [n'|] eqn:He; simpl; [|done].
  intros Hw. exists entries, n'. split_and!; [by exists k|done..].
Qed.

Lemma is_dir_set_data s n d es j :
  is_dir s j es → j ≠ n → is_dir (set_data s n d) j es.
Proof. intros [k Hk] Hne. exists k. simpl. by rewrite lookup_alter_ne. Qed.

Lemma is_dir_set_data_eq s n es es' : is_dir s n es → is_dir (set_data s n (Directory es')) n es'.
Proof. intros [k Hk]. exists k. simpl. by rewrite lookup_alter_eq, Hk. Qed.

Lemma is_dir_fun s n es es' : is_dir s n es → is_dir s n es' → es = es'.
Proof. intros [k Hk] [k' Hk']. congruence. Qed.

(** Every entry of [s] is one of [s']. *)
Definition more_names s s' : Prop := ∀ n es, is_dir s n es → ∃ es', is_dir s' n es' ∧ es ⊆ es'.

Lemma walk_mono s s' n cs m : more_names s s' → walk s n cs = Ok m → walk s' n cs = Ok m.
Proof.
  intros Hs. revert n. induction cs as [|c cs IH]; intros n; [done|].
  intros (es & n' & Hd & He & Hw)%walk_cons_Ok. destruct (Hs _ _ Hd) as (es' & Hd' & Hsub).
  rewrite (walk_cons_dir _ _ es') by done. rewrite (lookup_weaken _ _ _ _ He Hsub). simpl. auto.
Qed.

Lemma lookup_mono v v' p m :
  root v' = root v → more_names (vstore v) (vstore v') → lookup_abs v p = Ok m → lookup_abs v' p = Ok m.
Proof. intros Hr Hs. unfold lookup_abs. rewrite Hr. destruct (String.eqb p "/"); [done|]. by apply walk_mono. Qed.

Lemma more_names_insert s n es c m :
  is_dir s n es → es !! c = None → more_names s (set_data s n (Directory (<[c := m]> es))).
Proof.
  intros Hd Hc j es' Hj. destruct (decide (j = n)) as [->|].
  - exists (<[c := m]> es). split; [by eapply is_dir_set_data_eq|].
    rewrite (is_dir_fun _ _ _ _ Hj Hd). by apply insert_subseteq.
  - exists es'. split; [by apply is_dir_set_data|done].
Qed.

(** Once the entry [c] of the directory reached by [cs] is removed, the path
    through it is gone, whichever other names lead to the directory. *)
Lemma walk_removed s n cs c d es :
  walk s n cs = Ok d → is_dir s d es →
  walk (set_data s d (Directory (delete c es))) n (cs ++ [c]) = Err ENOENT.
Proof.
  intros Hw Hd. revert n Hw. induction cs as [|x cs IH]; intros n.
  - intros [= ->]. cbn [app]. erewrite walk_cons_dir by by eapply is_dir_set_data_eq.
    by rewrite lookup_delete_eq.
  - intros (es' & n' & Hd' & He & Hw)%walk_cons_Ok. cbn [app]. destruct (decide (n = d)) as [->|].
    + erewrite walk_cons_dir by by eapply is_dir_set_data_eq.
      rewrite <- (is_dir_fun _ _ _ _ Hd' Hd). destruct (decide (x = c)) as [->|].
      * by rewrite lookup_delete_eq.
      * rewrite lookup_delete_ne, He by done. cbn [ok_or mbind outcome_bind].
        rewrite (is_dir_fun _ _ _ _ Hd' Hd). by apply IH.
    + erewrite walk_cons_dir by by apply is_dir_set_data. rewrite He. simpl. by apply IH.
Qed.

Lemma entered v v' cs c n d es :
  forallb good_name (cs ++ [c]) = true → walk (vstore v) (root v) cs = Ok d → is_dir (vstore v) d es →
  es !! c = None → root v' = root v → vstore v' = set_data (vstore v) d (Directory (<[c := n]> es)) →
  lookup_abs v' (render (cs ++ [c])) = Ok n.
Proof.
  intros Hcs Hw Hd Hc Hr Hs. rewrite lookup_render, walk_app, Hr, Hs by done.
  erewrite walk_mono; [|by apply more_names_insert|done]. cbn [mbind outcome_bind].
  erewrite walk_cons_dir by by eapply is_dir_set_data_eq. by rewrite lookup_insert_eq.
Qed.

(** ** Inversion of the small steps *)
Lemma dir_entries_inv v n es v' : dir_entries n v = (Ok es, v') → v' = v ∧ is_dir (vstore v) n es.
Proof.
  unfold dir_entries, vnode. rewrite stm_bind_eq. unfold node_at.
  destruct (nodes (vstore v) !! n) as [[k d]|] eqn:Hn; simpl; [|done].
  destruct d; simpl; intros [=]; subst. split; [done|]. by exists k.
Qed.

Lemma dir_entries_same v n o v' : dir_entries n v = (o, v') → v' = v.
Proof.
  unfold dir_entries, vnode. rewrite stm_bind_eq.
  destruct (node_at (vstore v) n) as [nd| | |]; [destruct (data nd)|..]; by intros [=].
Qed.

Lemma dir_entries_err v n e v' : dir_entries n v = (Err e, v') → e ≠ EEXIST.
Proof.
  unfold dir_entries, vnode, node_at. rewrite stm_bind_eq.
  destruct (nodes (vstore v) !! n) as [nd|]; simpl; [destruct (data nd)|]; by intros [=]; subst.
Qed.

Lemma walk_err s n cs e : walk s n cs = Err e → e ≠ EEXIST.
Proof.
  revert n. induction cs as [|c cs IH]; intros n; [done|]. simpl. unfold node_at.
  destruct (nodes s !! n) as [nd|]; simpl; [|done]. destruct (data nd); try by intros [= <-].
  destruct (entries !! c); simpl; [apply IH|by intros [= <-]].
Qed.

Lemma split_parent_err p e : split_parent p = Err e → e ≠ EEXIST.
Proof.
  unfold split_parent. destruct (rsplit (trim_end p)) as [[a b]|]; simpl; [|by intros [= <-]].
  destruct (String.eqb b ""); [by intros [= <-]|done].
Qed.

Lemma lift_inv {S A} (o : outcome A) (s s' : S) a : lift o s = (Ok a, s') → s' = s ∧ o = Ok a.
Proof. unfold lift. by intros [= -> ->]. Qed.

Lemma get_inv {S} (s s' a : S) : get s = (Ok a, s') → s' = s ∧ a = s.
Proof. unfold get. by intros [= -> ->]. Qed.
Lemma modify_inv {S} f (s s' : S) a : modify f s = (Ok a, s') → s' = f s.
Proof. unfold modify. by intros [= _ ->]. Qed.
Lemma ret_inv {S A} (s s' : S) (a b : A) : (mret a : stm S A) s = (Ok b, s') → s' = s ∧ b = a.
Proof. unfold mret, stm_ret. by intros [= -> ->]. Qed.

Lemma vnode_inv v n nd v' : vnode n v = (Ok nd, v') → v' = v ∧ nodes (vstore v) !! n = Some nd.
Proof. unfold vnode, node_at. destruct (nodes (vstore v) !! n); simpl; naive_solver. Qed.

End Spec.

(** Run a method backwards from its successful outcome. *)
Ltac vinv :=
  repeat (inv_bind; cbv beta iota in *;
    match goal with
    | H : lift _ _ = (Ok _, _) |- _ => apply lift_inv in H as [? ?]
    | H : ok_or _ _ = Ok _ |- _ => apply ok_or_inv in H
    | H : dir_entries _ _ = (Ok _, _) |- _ => apply dir_entries_inv in H as [? ?]
    | H : vnode _ _ = (Ok _, _) |- _ => apply vnode_inv in H as [? ?]
    | H : get _ = (Ok _, _) |- _ => apply get_inv in H as [? ?]
    | H : modify _ _ = (Ok _, _) |- _ => apply modify_inv in H
    | H : put_data _ _ _ = (Ok _, _) |- _ => apply modify_inv in H
    | H : mret _ _ = (Ok _, _) |- _ => apply ret_inv in H as [? ?]
    | H : fail _ _ = (Ok _, _) |- _ => discriminate H
    | H : (match ?x with _ => _ end) _ = (Ok _, _) |- _ => destruct x eqn:?
    end; subst).

Section Names.
Context {M : Type} `{!Ext4Ops M}.
Implicit Types (v : KernelVfs M) (s : store M) (h : FileHandle).

(** ** Removal *)
Lemma resolve_external_same v v' p :
  external_mounts v' = external_mounts v → resolve_external_path v' p = resolve_external_path v p.
Proof. unfold resolve_external_path. by intros ->. Qed.

(** What a successful [unlink] did: the parent lost the entry, the caches the
    path, and the overlay remembers the deletion. *)
Lemma unlink_inv cwd path v v' :
  unlink cwd path v = (Ok tt, v') →
  ∃ cs c d es, forallb good_name (cs ++ [c]) = true ∧ normalize_path cwd path = render (cs ++ [c]) ∧
    walk (vstore v) (root v) cs = Ok d ∧ is_dir (vstore v) d es ∧
    (∃ n nd, es !! c = Some n ∧ nodes (vstore v) !! n = Some nd ∧
       ∀ children, kind nd = KDirectory → data nd = Directory children → children = ∅) ∧
    vstore v' = set_data (vstore v) d (Directory (delete c es)) ∧ root v' = root v ∧
    external_preloaded v' !! normalize_path cwd path = None ∧
    external_stat_cache v' !! normalize_path cwd path = None ∧
    (normalize_path cwd path ∈ external_deletions v' ∨
     resolve_external_path v' (normalize_path cwd path) = None).
Proof.
  destruct (normalize_render cwd path) as (cs & Hcs & Hp). unfold unlink. rewrite Hp. clear Hp.
  destruct cs as [|c cs _] using rev_ind; [done|]. rewrite split_parent_render by done.
  intros H. vinv.
  all: match goal with H : lookup_abs _ _ = Ok _ |- _ =>
         rewrite lookup_render in H by by eapply good_prefix end.
  all: exists cs, c; do 2 eexists; split_and!; try done; cbn; rewrite ?lookup_delete_eq; try done.
  all: try (by right); try (left; set_solver).
  all: do 2 eexists; split_and!; [done|done|]; intros children Hk Hch; rewrite Hk, Hch, bool_decide_eq_true_2 in * by done;
    cbn [andb] in *; by destruct (decide (children = ∅)) as [|Hne]; [|rewrite bool_decide_eq_false_2 in * by done].
Qed.

(** C18: After a successful [unlink] the path is gone, both in memory and for
    the overlay: looking it up or asking for its metadata gives ENOENT even
    when a mounted ext4 file system has a file of that name. What was removed is
    no directory with entries, and the store of nodes changed in one place: the
    directory the path's parent names lost the entry of that name and kept its
    others, so an open handle of the file still reaches its data. *)
Theorem unlink_hides cwd path v v' :
  unlink cwd path v = (Ok tt, v') →
  lookup_abs v' (normalize_path cwd path) = Err ENOENT ∧
  stat_path v' cwd path = Err ENOENT ∧
  ∃ cs c d es n nd,
    normalize_path cwd path = render (cs ++ [c]) ∧ lookup_abs v (render cs) = Ok d ∧
    is_dir (vstore v) d es ∧ es !! c = Some n ∧ nodes (vstore v) !! n = Some nd ∧
    (∀ children, kind nd = KDirectory → data nd = Directory children → children = ∅) ∧
    vstore v' = set_data (vstore v) d (Directory (delete c es)) ∧ root v' = root v.
Proof.
  intros (cs & c & d & es & Hcs & Hp & Hw & Hd & (n & nd & Hn & Hnd & Hch) & Hs & Hr & Hpre & Hcache & Hdel)%unlink_inv.
  assert (lookup_abs v' (normalize_path cwd path) = Err ENOENT) as Hl.
  { rewrite Hp, lookup_render, Hr, Hs by done. by apply walk_removed. }
  split_and!; [done| |exists cs, c, d, es, n, nd; split_and!; try done; rewrite lookup_render by (by eapply good_prefix); done].
  unfold stat_path. cbn [stat_path_follow].
  assert (external_stat_path v' (normalize_path cwd path) = Ok None) as ->.
  { unfold external_stat_path. rewrite Hl, Hpre, Hcache. cbn [is_ok].
    repeat case_match; try done; reflect_bools; try destruct Hdel as [Hdel|Hdel];
      simplify_eq; by case_bool_decide. }
  simpl. by rewrite Hl.
Qed.

(** ** Renaming *)
(** The first half of [rename]: the entry is taken out of the old directory. *)
Definition taken v cwd old_path (v1 : KernelVfs M) (n : Z) : Prop :=
  ∃ cs c d es, forallb good_name (cs ++ [c]) = true ∧ normalize_path cwd old_path = render (cs ++ [c]) ∧
    walk (vstore v) (root v) cs = Ok d ∧ is_dir (vstore v) d es ∧ es !! c = Some n ∧
    v1 = set_vstore (set_data (vstore v) d (Directory (delete c es))) v.

Lemma taken_before v cwd p v1 n : taken v cwd p v1 n → lookup_abs v (normalize_path cwd p) = Ok n.
Proof.
  intros (cs & c & d & es & Hcs & -> & Hw & Hd & Hc & _). rewrite lookup_render, walk_app, Hw by done.
  cbn [mbind outcome_bind]. erewrite walk_cons_dir by done. by rewrite Hc.
Qed.

Lemma taken_after v cwd p v1 n : taken v cwd p v1 n → lookup_abs v1 (normalize_path cwd p) = Err ENOENT.
Proof.
  intros (cs & c & d & es & Hcs & -> & Hw & Hd & Hc & ->). rewrite lookup_render by done.
  simpl. by apply walk_removed.
Qed.

(** The second half: the node is entered in the new directory. *)
Definition rename_into cwd old_path new_path (n : Z) : stm (KernelVfs M) unit :=
  let old_absolute := normalize_path cwd old_path in
  let new_absolute := normalize_path cwd new_path in
  '(new_parent_path, new_name) ← lift (split_parent new_absolute);
  v ← get;
  new_parent ← lift (lookup_abs v new_parent_path);
  entries ← dir_entries new_parent;
  match entries !! new_name with
  | Some _ => fail EEXIST
  | None =>
      _ ← put_data new_parent (Directory (<[new_name := n]> entries));
      modify (fun v =>
        let v := set_external_deletions (external_deletions v ∖ {[new_absolute]}) v in
        match mem_modes v !! old_absolute with
        | Some m => set_mem_modes (<[new_absolute := m]> (delete old_absolute (mem_modes v))) v
        | None => v
        end)
  end.

Lemma rename_cases cwd old new v v' e :
  (rename cwd old new v = (Ok tt, v') →
     ∃ v1 n, taken v cwd old v1 n ∧ rename_into cwd old new n v1 = (Ok tt, v')) ∧
  (rename cwd old new v = (Err e, v') →
     e ≠ EEXIST ∨ ∃ v1 n, taken v cwd old v1 n ∧ rename_into cwd old new n v1 = (Err e, v')).
Proof.
  destruct (normalize_render cwd old) as (cs & Hcs & Ho).
  unfold rename, rename_into, taken. rewrite Ho.
  destruct cs as [|c cs _] using rev_ind; [split; intros [=]; subst; by auto|].
  rewrite split_parent_render by done. stm_step.
  destruct (split_parent (normalize_path cwd new)) as [[np nn]|e'| |] eqn:Hn;
    [|split; intros [=]; subst; eauto using split_parent_err..].
  stm_step. stm_step. stm_step. rewrite lookup_render by by eapply good_prefix.
  destruct (walk (vstore v) (root v) cs) as [d|e'| |] eqn:Hw; [|split; intros [=]; subst; eauto using walk_err..].
  rewrite stm_bind_eq. destruct (dir_entries d v) as [[es|e'| |] v1] eqn:Hd;
    [|split; intros [=]; subst; eauto using dir_entries_err..].
  apply dir_entries_inv in Hd as [-> Hd]. stm_step.
  destruct (es !! c) as [n|] eqn:Hc; [|split; intros [=]; subst; by auto]. cbn [ok_or].
  rewrite stm_bind_eq. cbn [put_data modify].
  split; intros H; [|right]; do 2 eexists; (split; [exists cs, c, d, es; by split_and!|exact H]).
Qed.

Lemma rename_into_Ok cwd old new n v v' :
  rename_into cwd old new n v = (Ok tt, v') → lookup_abs v' (normalize_path cwd new) = Ok n.
Proof.
  destruct (normalize_render cwd new) as (cs & Hcs & Hp). unfold rename_into. rewrite Hp.
  destruct cs as [|c cs _] using rev_ind; [done|]. rewrite split_parent_render by done.
  intros H. vinv. match goal with Hw : lookup_abs _ _ = Ok ?d, Hd : is_dir _ ?d ?es |- _ =>
    rewrite lookup_render in Hw by (by eapply good_prefix);
    eapply (entered v _ cs c n d es Hcs Hw Hd) end; cbn; [done|by case_match..].
Qed.

Lemma rename_into_Err cwd old new n v v' e : rename_into cwd old new n v = (Err e, v') → v' = v.
Proof.
  unfold rename_into. stm_step. destruct (split_parent _) as [[np nn]|e'| |]; [|by intros [=]..].
  stm_step. stm_step. destruct (lookup_abs v np) as [d|e'| |]; [|by intros [=]..].
  rewrite stm_bind_eq. destruct (dir_entries d v) as [[es|e'| |] v1] eqn:Hd;
    apply dir_entries_same in Hd as ->; [|by intros [=]..].
  destruct (es !! nn); by intros [=].
Qed.


(** ** Creation and reading back *)
Lemma set_vstore_id v : set_vstore (vstore v) v = v.
Proof. by destruct v. Qed.

Definition with_node s (n : Z) (nd : Node M) : store M :=
  mkStore (<[n := nd]> (nodes s)) (channels s) (console s).

Lemma is_dir_with_node s n nd d es : is_dir s d es → d ≠ n → is_dir (with_node s n nd) d es.
Proof. intros [k Hk] ?. exists k. simpl. by rewrite lookup_insert_ne. Qed.

Lemma more_names_with_node s n nd : nodes s !! n = None → more_names s (with_node s n nd).
Proof.
  intros Hn d es Hd. exists es. split; [|done]. apply is_dir_with_node; [done|].
  intros ->. destruct Hd as [k Hk]. congruence.
Qed.

Lemma more_names_trans s1 s2 s3 : more_names s1 s2 → more_names s2 s3 → more_names s1 s3.
Proof.
  intros H1 H2 n es (es' & Hd & ?)%H1. destruct (H2 _ _ Hd) as (es'' & ? & ?).
  exists es''. split; [done|by etrans].
Qed.

Lemma fresh_node v : wf v → nodes (vstore v) !! next_node v = None.
Proof.
  intros Hwf. destruct (nodes (vstore v) !! next_node v) as [nd|] eqn:Hn; [|done].
  assert (has_node (vstore v) (next_node v)) as Hl%(wf_nodes _ Hwf) by (by exists nd). lia.
Qed.

(** The directory [d] reached by [cs] has no entry [c] yet. *)
Definition free_name v (cs : list string) (c : string) (d : Z) (es : gmap string Z) : Prop :=
  forallb good_name (cs ++ [c]) = true ∧ walk (vstore v) (root v) cs = Ok d ∧
  is_dir (vstore v) d es ∧ es !! c = None.

Lemma create_node_spec v cs c d es k x :
  wf v → free_name v cs c d es →
  ∃ v', create_node (render (cs ++ [c])) k x v = (Ok tt, v') ∧ root v' = root v ∧
    vstore v' = set_data (with_node (vstore v) (next_node v) (default_node k x)) d
                  (Directory (<[c := next_node v]> es)).
Proof.
  intros Hwf (Hcs & Hw & Hd & Hc). unfold create_node.
  destruct (String.eqb_spec (render (cs ++ [c])) "/") as [He|_].
  { apply (f_equal components) in He. rewrite components_render in He by done. by destruct cs. }
  rewrite split_parent_render by done. stm_step. stm_step.
  rewrite lookup_render, Hw by by eapply good_prefix. stm_step.
  unfold create_in. rewrite stm_bind_eq. unfold vnode, node_at.
  destruct Hd as [kd Hd]. rewrite Hd. cbn [unwrap data]. rewrite Hc.
  stm_step. rewrite stm_bind_eq. cbn [alloc_node]. eexists. split; [done|]. by split.
Qed.

Lemma created_lookup v v' cs c d es nd :
  wf v → free_name v cs c d es → root v' = root v →
  vstore v' = set_data (with_node (vstore v) (next_node v) nd) d (Directory (<[c := next_node v]> es)) →
  lookup_abs v' (render (cs ++ [c])) = Ok (next_node v) ∧
  nodes (vstore v') !! next_node v = Some nd ∧ more_names (vstore v) (vstore v').
Proof.
  intros Hwf (Hcs & Hw & Hd & Hc) Hr Hs. pose proof (fresh_node v Hwf) as Hfresh.
  assert (d ≠ next_node v) as Hne by (intros ->; destruct Hd as [k Hk]; congruence).
  pose proof (more_names_with_node _ _ nd Hfresh) as Hm.
  pose proof (is_dir_with_node _ _ nd _ _ Hd Hne) as Hd'. split_and!.
  - apply (entered (set_vstore (with_node (vstore v) (next_node v) nd) v) v' cs c _ d es); try done.
    by eapply walk_mono.
  - rewrite Hs. simpl. rewrite lookup_alter_ne by done. by rewrite lookup_insert_eq.
  - rewrite Hs. eapply more_names_trans; [done|]. by apply more_names_insert.
Qed.

Lemma open_found v cwd path p n k d :
  lookup_abs v p = Ok n → nodes (vstore v) !! n = Some (mkNode k d) → k ≠ KSymlink →
  normalize_path cwd path = p →
  open cwd path O_RDONLY 0 v = (Ok (mkHandle n 0 O_RDONLY p PNone), v).
Proof.
  intros Hl Hn Hk Hp. unfold open. rewrite Hp. rewrite stm_bind_eq.
  assert (try_open_external p O_RDONLY v = (Ok None, v)) as ->.
  { unfold try_open_external. stm_step. rewrite Hl. cbn [is_ok]. by destruct (is_shell_token_path p). }
  unfold open_mem. stm_step. rewrite Hl. stm_step. rewrite stm_bind_eq. unfold vnode, node_at.
  rewrite Hn. cbn [unwrap kind]. rewrite bool_decide_false by done.
  unfold finish_open. rewrite stm_bind_eq. unfold vnode, node_at. rewrite Hn. done.
Qed.

Lemma read_whole v h k bs :
  nodes (vstore v) !! h_node h = Some (mkNode k (File bs)) → h_offset h = 0 → zlen bs ≤ USIZE_MAX →
  read (zlen bs) (h, v) = (Ok bs, (with_offset h (zlen bs), v)).
Proof.
  intros Hn Ho Hlen. pose proof (zlen_nonneg bs). unfold read, on_object, read_object.
  hstm_step. rewrite Hn. cbn [unwrap data]. hstm_step. unfold read_buf. hstm_step.
  rewrite Ho, (Z.min_l 0), uadd_ok by lia. hstm_step. hstm_step. rewrite Z.add_0_l, Z.min_id, Z.sub_0_r.
  rewrite set_vstore_id. unfold ztake, zdrop. rewrite drop_0, take_ge; [done|]. unfold zlen. lia.
Qed.

Lemma read_file_all_found v cwd path p n k bs :
  lookup_abs v p = Ok n → nodes (vstore v) !! n = Some (mkNode k (File bs)) → k ≠ KSymlink →
  normalize_path cwd path = p → zlen bs ≤ USIZE_MAX →
  read_file_all cwd path v = (Ok bs, v).
Proof.
  intros Hl Hn Hk Hp Hlen. unfold read_file_all.
  rewrite stm_bind_eq, (open_found v cwd path p n k (File bs)) by done.
  set (h := mkHandle n 0 O_RDONLY p PNone).
  assert (∀ h', h_node h' = n → drop_handle (vstore v) h' = Ok (vstore v)) as Hdrop.
  { intros h' Hh. unfold drop_handle, adjust_pipe_refcount, node_at. by rewrite Hh, Hn. }
  unfold with_handle. rewrite stm_bind_eq. unfold on_vfs, reads, stat_handle, stat, node_at.
  cbn [h_node h]. rewrite Hn. cbn. destruct (Z.eqb_spec (zlen bs) 0) as [He|He].
  - destruct bs; [|done]. cbn [mret stm_ret]. by rewrite Hdrop, set_vstore_id.
  - pose proof (zlen_nonneg bs). change (zlen (@nil Z)) with 0. rewrite Z.sub_0_r.
    rewrite (proj2 (Z.ltb_lt 0 (zlen bs))), stm_bind_eq, (read_whole v h k bs) by (done || lia).
    destruct bs as [|b bs']; [done|]. set (bs := b :: bs') in *.
    assert (read_all_loop (Z.to_nat (zlen bs)) (zlen bs) bs (with_offset h (zlen bs), v) =
            (Ok bs, (with_offset h (zlen bs), v))) as ->.
    { destruct (Z.to_nat (zlen bs)) eqn:Hf; [lia|]. cbn [read_all_loop]. by rewrite Z.ltb_irrefl. }
    by rewrite Hdrop, set_vstore_id.
Qed.

(** C13: Creating a file where the directory has no such name succeeds: the
    path then leads to a new regular file, reading the whole file returns
    exactly the contents given, its metadata says a regular file of that
    size, and every path that led somewhere before still leads there. *)
Theorem create_read_roundtrip cwd path bs v cs c d es :
  wf v → normalize_path cwd path = render (cs ++ [c]) → free_name v cs c d es → zlen bs ≤ USIZE_MAX →
  ∃ v', create_file cwd path bs v = (Ok tt, v') ∧
    read_file_all cwd path v' = (Ok bs, v') ∧
    stat_path v' cwd path = Ok (mkStat (Z.lor S_IFREG 0x1ed) (zlen bs) 1) ∧
    ∀ q m, lookup_abs v q = Ok m → lookup_abs v' q = Ok m.
Proof.
  intros Hwf Hp Hfree Hlen. unfold create_file, create_file_with_mode. rewrite Hp.
  destruct (create_node_spec v cs c d es KFile (Some (File bs)) Hwf Hfree) as (v1 & Hc & Hr & Hs).
  rewrite stm_bind_eq, Hc. unfold insert_mode, modify. eexists. split; [done|].
  match goal with |- context [set_mem_modes ?m v1] => set (v2 := set_mem_modes m v1) end.
  destruct (created_lookup v v2 cs c d es _ Hwf Hfree Hr Hs) as (Hl & Hn & Hm).
  assert (root v2 = root v ∧ mem_modes v2 !! render (cs ++ [c]) = Some (Z.lor S_IFREG 0x1ed)) as [Hr2 Hmode].
  { split; [done|]. cbn. by rewrite lookup_insert_eq. }
  clearbody v2. split_and!.
  - by eapply read_file_all_found.
  - unfold stat_path. rewrite Hp. cbn [stat_path_follow]. unfold external_stat_path. rewrite Hl.
    cbn [is_ok]. destruct (is_shell_token_path _); cbn; unfold stat, node_at; rewrite Hn; cbn;
      by rewrite Hmode.
  - intros q m. by apply lookup_mono.
Qed.

(** ** Symbolic links *)
(** [links v p q]: [p] is a symbolic link in memory and [q] the path it
    stands for. *)
Definition links v (p q : string) : Prop :=
  external_stat_path v p = Ok None ∧
  ∃ n t parent name, lookup_abs v p = Ok n ∧ nodes (vstore v) !! n = Some (mkNode KSymlink (Symlink t)) ∧
    split_parent p = Ok (parent, name) ∧ q = normalize_path parent t.

Lemma stat_follow_link d v p q :
  links v p q → stat_path_follow (S d) v p = stat_path_follow d v q.
Proof.
  intros (He & n & t & parent & name & Hl & Hn & Hs & ->). cbn [stat_path_follow].
  rewrite He. cbn. rewrite Hl. cbn. unfold node_at. rewrite Hn. cbn. by rewrite Hs.
Qed.

Lemma stat_follow_links k d v p q :
  nsteps (links v) k p q → stat_path_follow (k + d) v p = stat_path_follow d v q.
Proof.
  induction 1 as [|k p p1 q Hl _ IH]; [done|]. cbn [Nat.add]. by rewrite (stat_follow_link _ _ _ p1).
Qed.

(** Metadata lookup follows symbolic links: fewer than sixteen links lead
    to the metadata of the file at their end, sixteen or more, in particular
    any cycle of links, give ELOOP; the lookup always returns. *)
Theorem stat_symlinks cwd path v k q :
  nsteps (links v) k (normalize_path cwd path) q →
  (∀ n nd, (k < 16)%nat → external_stat_path v q = Ok None → lookup_abs v q = Ok n →
     nodes (vstore v) !! n = Some nd → kind nd ≠ KSymlink →
     stat_path v cwd path = stat v q n) ∧
  ((16 ≤ k)%nat → stat_path v cwd path = Err ELOOP).
Proof.
  intros Hl. unfold stat_path. split.
  - intros n nd Hk He Hq Hn Hkind. replace 16%nat with (k + S (15 - k))%nat by lia.
    rewrite (stat_follow_links _ _ _ _ _ Hl). cbn [stat_path_follow]. rewrite He. cbn. rewrite Hq. cbn.
    unfold node_at. rewrite Hn. cbn. by rewrite bool_decide_false.
  - intros Hk. replace k with (16 + (k - 16))%nat in Hl by lia.
    apply nsteps_add_inv in Hl as (q' & Hl & _). exact (stat_follow_links 16 0 _ _ _ Hl).
Qed.

(** ** Local stream sockets *)
Definition listening v (p : string) (l : Z) (st : SocketPending) : Prop :=
  socket_bindings v !! p = Some l ∧ nodes (vstore v) !! l = Some (mkNode KSocket (SockPending st)) ∧
  sp_listening st = true ∧ sp_sock_type st = 1.

Lemma connect_spec v cwd path h l st :
  wf v → listening v (normalize_path cwd path) l st → handle_ok v h → h_node h ≠ l →
  ∃ v', connect_socket cwd path (h, v) = (Ok tt, (with_path h (normalize_path cwd path), v')) ∧
    nodes (vstore v') !! l = Some (mkNode KSocket (SockPending (mkPending (sp_path st) true (sp_family st) 1
       (sp_multicast_joined st) (sp_pending st ++ [next_node v])))) ∧
    nodes (vstore v') !! next_node v = Some (Node_socket_connected (next_channel v) 1 (sp_family st) 1 false) ∧
    channels (vstore v') !! next_channel v = Some (mkChannel ([], []) (1, 1)) ∧
    ∃ k, nodes (vstore v') !! h_node h =
         Some (mkNode k (SockConnected (next_channel v) 0 (sp_family st) 1 false)).
Proof.
  intros Hwf (Hb & Hl & Hlis & Hty) [nd Hh] Hne. unfold connect_socket.
  pose proof (fresh_node v Hwf) as Hfresh.
  assert (l ≠ next_node v ∧ h_node h ≠ next_node v) as [Hln Hhn] by (split; congruence).
  rewrite stm_bind_eq. unfold the_handle. rewrite stm_bind_eq. unfold on_vfs at 1, reads. rewrite Hb.
  rewrite stm_bind_eq. unfold on_vfs at 1, alloc_channel.
  rewrite stm_bind_eq. unfold on_vfs at 1, vnode, node_at. cbn [vstore set_vstore set_next_channel set_channel nodes].
  rewrite Hl. cbn [unwrap data]. rewrite Hty, Hlis. cbn [Z.eqb orb].
  eexists. split; [reflexivity|]. cbn. split_and!.
  - rewrite lookup_alter_ne, lookup_alter_eq, lookup_insert_ne, Hl by done. done.
  - rewrite !lookup_alter_ne, lookup_insert_eq by done. done.
  - by rewrite lookup_insert_eq.
  - exists (kind nd). rewrite lookup_alter_eq, lookup_alter_ne, lookup_insert_ne, Hh by done. done.
Qed.

Lemma accept_spec v hl st pend n :
  nodes (vstore v) !! h_node hl = Some (mkNode KSocket (SockPending st)) →
  sp_listening st = true → sp_sock_type st = 1 → sp_pending st = pend ++ [n] →
  accept_socket hl v = (Ok (mkHandle n 0 O_RDWR (h_path hl) PNone),
    set_vstore (set_data (vstore v) (h_node hl) (SockPending (mkPending (sp_path st) true (sp_family st) 1
      (sp_multicast_joined st) pend))) v).
Proof.
  intros Hn Hl Ht Hp. unfold accept_socket. rewrite stm_bind_eq. unfold vnode, node_at. rewrite Hn.
  cbn [unwrap data]. rewrite Ht, Hl, Hp, last_snoc. cbn [negb andb Z.eqb Pos.eqb].
  rewrite stm_bind_eq. cbn. by rewrite removelast_last.
Qed.

Lemma connected_write can_reserve v h k c f ty mj bs ib :
  nodes (vstore v) !! h_node h = Some (mkNode k (SockConnected c 0 f ty mj)) →
  channels (vstore v) !! c = Some (mkChannel ib (1, 1)) →
  write can_reserve bs (h, v) =
    (Ok (zlen bs), (h, set_vstore (set_channel (vstore v) c (mkChannel (ib.1, ib.2 ++ bs) (1, 1))) v)).
Proof.
  intros Hn Hc. unfold write. rewrite stm_bind_eq. cbn [the_handle]. rewrite stm_bind_eq.
  unfold on_vfs at 1, vnode, node_at. rewrite Hn. cbn [unwrap data].
  unfold on_object, write_object. hstm_step. rewrite Hn. cbn [unwrap data]. hstm_step.
  hstm_step. rewrite Hc. cbn. done.
Qed.

Lemma connected_read v h k c f ty mj len bs out :
  nodes (vstore v) !! h_node h = Some (mkNode k (SockConnected c 1 f ty mj)) →
  channels (vstore v) !! c = Some (mkChannel (out, bs) (1, 1)) → bs ≠ [] →
  (read len (h, v)).1 = Ok (ztake (Z.min len (zlen bs)) bs).
Proof.
  intros Hn Hc Hne. unfold read, on_object, read_object. hstm_step. rewrite Hn. cbn [unwrap data].
  hstm_step. hstm_step. rewrite Hc. cbn. by destruct bs.
Qed.

(** C29: A stream connection works end to end: connecting to a listening
    socket queues a connection, the next [accept] returns its other end, and
    the bytes the client writes are what the accepted end reads.  Finding:
    [accept] returns the connection that arrived last, so the connections
    already pending wait behind every newer one. *)
Theorem connect_accept_exchange can_reserve v cwd path h hl st bs len :
  wf v → listening v (normalize_path cwd path) (h_node hl) st → handle_ok v h → h_node h ≠ h_node hl →
  bs ≠ [] →
  ∃ h' v1 a v2 v3,
    connect_socket cwd path (h, v) = (Ok tt, (h', v1)) ∧
    accept_socket hl v1 = (Ok a, v2) ∧ h_node a = next_node v ∧
    (∃ k st2, nodes (vstore v2) !! h_node hl = Some (mkNode k (SockPending st2)) ∧
       sp_pending st2 = sp_pending st) ∧
    write can_reserve bs (h', v2) = (Ok (zlen bs), (h', v3)) ∧
    (read len (a, v3)).1 = Ok (ztake (Z.min len (zlen bs)) bs).
Proof.
  intros Hwf Hlis Hh Hne Hbs.
  destruct (connect_spec v cwd path h (h_node hl) st Hwf Hlis Hh Hne) as (v1 & Hc & Hl & Hn & Hch & k & Hk).
  destruct Hlis as (_ & Hl0 & _). pose proof (fresh_node v Hwf) as Hfresh.
  assert (next_node v ≠ h_node hl) as Hnl by congruence.
  eexists _, v1, _, _, _. split; [exact Hc|]. split_and!.
  - by eapply accept_spec.
  - done.
  - cbn. rewrite lookup_alter_eq, Hl. eexists _, _. by split.
  - eapply connected_write with (ib := ([], [])); [|exact Hch]. cbn. by rewrite lookup_alter_ne, Hk.
  - eapply (connected_read _ _ _ (next_channel v)); cbn; [by rewrite lookup_alter_ne, Hn|by rewrite lookup_insert_eq|done].
Qed.

End Names.

(** ** Directory reading *)
Section Dirents.
Context {M : Type} `{!Ext4Ops M}.
Implicit Types (v : KernelVfs M) (h : FileHandle).

Definition reclen (name : string) : Z := round_up (19 + str_len name + 1) 8.

(** One [linux_dirent64] record. *)
Definition dirent (index : Z) (name : string) (ty : Z) : list Z :=
  to_le_bytes 8 (index + 1) ++ to_le_bytes 8 (index + 1) ++ to_le_bytes 2 (reclen name mod 2 ^ 16) ++
  [ty] ++ bytes_of name ++ [0] ++ replicate (Z.to_nat (reclen name - (19 + str_len name + 1))) 0.

Fixpoint dirents (index : Z) (recs : list (string * Z)) : list Z :=
  match recs with
  | [] => []
  | (name, ty) :: recs' => dirent index name ty ++ dirents (index + 1) recs'
  end.

Definition short (rec : string * Z) : Prop := str_len rec.1 ≤ 4096.

Lemma str_len_bytes s : zlen (bytes_of s) = str_len s.
Proof.
  unfold zlen, bytes_of, str_len. rewrite length_fmap. f_equal.
  induction s as [|a s IH]; [done|]. simpl. by rewrite IH.
Qed.

Lemma reclen_bounds name : 0 ≤ reclen name - (19 + str_len name + 1) < 8 ∧ (8 | reclen name).
Proof.
  unfold reclen. destruct (round_up_spec (19 + str_len name + 1) 8) as [[? ?] ?]; [lia|]. split; [lia|done].
Qed.

Lemma zlen_to_le n z : zlen (to_le_bytes n z) = Z.of_nat n.
Proof. unfold zlen. by rewrite length_to_le_bytes. Qed.

(** The [d_reclen] field is the length of the record. *)
Lemma zlen_dirent i name ty : zlen (dirent i name ty) = reclen name.
Proof.
  pose proof (reclen_bounds name). unfold dirent.
  rewrite !zlen_app, !zlen_to_le, str_len_bytes, zlen_replicate.
  change (zlen [ty]) with 1. change (zlen [0]) with 1. lia.
Qed.

Lemma dirent_reclen_ok name : str_len name ≤ 4096 → dirent_reclen name = Ok (reclen name).
Proof.
  intros Hs. unfold dirent_reclen, reclen. apply (align_up_pow2 _ 3); [lia|..];
    unfold is_usize, USIZE_MAX, str_len in *; lia.
Qed.

Lemma append_dirent_ok out i name ty :
  (8 | zlen out) → str_len name ≤ 4096 → i + 1 ≤ USIZE_MAX →
  append_dirent out i name ty = Ok (out ++ dirent i name ty).
Proof.
  intros Ho Hs Hi. unfold append_dirent. rewrite dirent_reclen_ok by done. cbn [mbind outcome_bind].
  rewrite uadd_ok by done. cbn [mbind outcome_bind]. f_equal. unfold dirent.
  rewrite <- !app_assoc. do 7 f_equal.
  rewrite !zlen_app, !zlen_to_le, str_len_bytes. change (zlen [ty]) with 1. change (zlen [0]) with 1.
  f_equal. f_equal. destruct (reclen_bounds name) as [Hb [q Hq]]. destruct Ho as [r Hr].
  symmetry. apply Z.mod_unique with (q := - (r + q)); lia.
Qed.

(** How many records one call emits. *)
Lemma dirent_loop_spec max_len recs i e out :
  (8 | zlen out) → Forall short recs → 0 ≤ e → i + zlen recs ≤ USIZE_MAX →
  ∃ k : nat, (k ≤ length recs)%nat ∧
    dirent_loop max_len i e out recs = Ok (out ++ dirents i (take k recs), e + Z.of_nat k) ∧
    (e = 0 → recs ≠ [] → (1 ≤ k)%nat) ∧
    (zlen (out ++ dirents i (take k recs)) ≤ max_len ∨ k = 0%nat ∨ e + Z.of_nat k = 1).
Proof.
  revert i e out. induction recs as [|[name ty] recs IH]; intros i e out Ho Hs He Hi.
  { exists 0%nat. simpl. rewrite app_nil_r, Z.add_0_r. split_and!; [lia|done|done|auto]. }
  apply Forall_cons in Hs as [Hn Hs]. cbn [dirent_loop]. rewrite dirent_reclen_ok by done.
  assert (zlen ((name, ty) :: recs) = 1 + zlen recs) as Hlen by (unfold zlen; simpl; lia).
  pose proof (zlen_nonneg recs). cbn [mbind outcome_bind].
  destruct (negb (e =? 0) && (max_len <? zlen out + reclen name)) eqn:Hfull.
  { exists 0%nat. simpl. rewrite app_nil_r, Z.add_0_r. reflect_bools. split_and!; [lia|done|done|auto]. }
  rewrite append_dirent_ok by (done || lia). cbn [mbind outcome_bind].
  destruct (IH (i + 1) (e + 1) (out ++ dirent i name ty)) as (k & Hk & Hl & _ & Hfit); [|done|lia..|].
  { rewrite zlen_app, zlen_dirent. apply Z.divide_add_r; [done|apply reclen_bounds]. }
  exists (S k). cbn [take dirents]. rewrite app_assoc, Hl. split_and!; [simpl; lia|do 2 f_equal; lia|lia|].
  destruct Hfit as [?|[->|?]]; [by left| |lia].
  destruct (Z.eqb_spec e 0) as [->|]; [auto|]. left. simpl in Hfull. reflect_bools.
  simpl. rewrite app_nil_r, zlen_app, zlen_dirent. lia.
Qed.

Lemma dirents_app i l1 l2 : dirents i (l1 ++ l2) = dirents i l1 ++ dirents (i + zlen l1) l2.
Proof.
  revert i. induction l1 as [|[name ty] l1 IH]; intros i; cbn [app dirents].
  - by rewrite Z.add_0_r.
  - rewrite IH, <- app_assoc. do 3 f_equal. unfold zlen. cbn [length]. lia.
Qed.

Lemma dirents_nil i l : dirents i l = [] → l = [].
Proof. by destruct l as [|[name ty] l]. Qed.

Definition in_dir v h (entries : gmap string Z) : Prop := is_dir (vstore v) (h_node h) entries.

(** One call on an in-memory directory returns the records from the offset
    of the handle, at least one while any is left, and advances the offset
    by their number; more than one fit in the buffer. *)
Lemma getdents_spec max_len v h entries :
  in_dir v h entries → max_len ≠ 0 → 0 ≤ h_offset h →
  let recs := dir_records (vstore v) entries in
  let rest := zdrop (h_offset h) recs in
  Forall short recs → h_offset h + zlen rest ≤ USIZE_MAX →
  ∃ k : nat, (k ≤ length rest)%nat ∧ (rest ≠ [] → (1 ≤ k)%nat) ∧
    getdents max_len (h, v) =
      (Ok (dirents (h_offset h) (take k rest)), (with_offset h (h_offset h + Z.of_nat k), v)) ∧
    (zlen (dirents (h_offset h) (take k rest)) ≤ max_len ∨ (k ≤ 1)%nat).
Proof.
  intros [kd Hd] Hm Ho recs rest Hs Hb. unfold getdents. rewrite (proj2 (Z.eqb_neq _ _)) by done.
  rewrite stm_bind_eq. cbn [the_handle]. rewrite stm_bind_eq. unfold on_vfs at 1, vnode, node_at.
  rewrite Hd. cbn [unwrap data]. rewrite stm_bind_eq. unfold on_vfs at 1, reads. fold recs rest.
  destruct (dirent_loop_spec max_len rest (h_offset h) 0 []) as (k & Hk & Hl & H1 & Hfit);
    [by exists 0|by apply Forall_drop|lia|done|].
  exists k. split_and!; [done|auto| |]; [|destruct Hfit as [?|[?|?]]; [by left|right; lia..]].
  rewrite stm_bind_eq. unfold lift. rewrite Hl, Z.add_0_l. rewrite stm_bind_eq. cbn [put_handle].
  unfold saturating_add. rewrite Z.min_l; [done|]. unfold zlen in Hb. lia.
Qed.

(** A reader of the directory: calls [getdents] until it returns nothing. *)
Fixpoint read_dir_loop (fuel : nat) (max_len : Z) : stm (FileHandle * KernelVfs M) (list Z) :=
  match fuel with
  | O => lift Diverge
  | S fuel' =>
      out ← getdents max_len;
      match out with
      | [] => mret []
      | _ => rest ← read_dir_loop fuel' max_len; mret (out ++ rest)
      end
  end.

Lemma read_dir_loop_spec max_len v entries fuel h :
  in_dir v h entries → max_len ≠ 0 → 0 ≤ h_offset h →
  let recs := dir_records (vstore v) entries in
  let rest := zdrop (h_offset h) recs in
  Forall short recs → h_offset h + zlen rest ≤ USIZE_MAX → (length rest < fuel)%nat →
  read_dir_loop fuel max_len (h, v) =
    (Ok (dirents (h_offset h) rest), (with_offset h (h_offset h + zlen rest), v)).
Proof.
  revert h. induction fuel as [|fuel IH]; intros h Hin Hm Ho recs rest Hs Hb Hf; [lia|].
  cbn [read_dir_loop]. rewrite stm_bind_eq.
  destruct (getdents_spec max_len v h entries) as (k & Hk & H1 & -> & _); [done..|]. fold recs rest in Hk, H1 |- *.
  destruct (dirents (h_offset h) (take k rest)) as [|b bs] eqn:Hout.
  - apply dirents_nil in Hout. assert (rest = []) as ->.
    { destruct rest as [|r rest]; [done|]. specialize (H1 ltac:(done)). by destruct k; [lia|]. }
    simpl in Hk. replace k with 0%nat by lia. done.
  - rewrite <- Hout. rewrite stm_bind_eq.
    assert (zdrop (h_offset h + Z.of_nat k) recs = drop k rest) as Hrest.
    { unfold rest, zdrop. rewrite drop_drop. f_equal. lia. }
    assert (1 ≤ k)%nat by (apply H1; intros Hn; by rewrite Hn, take_nil in Hout).
    rewrite IH; cbn [h_offset with_offset]; [|done|done|lia|done|..].
    + fold recs. rewrite Hrest. cbn [mret stm_ret].
      assert (zlen (take k rest) = Z.of_nat k) as Hzk by (unfold zlen; rewrite length_take; lia).
      assert (zlen (drop k rest) = zlen rest - Z.of_nat k) as Hzd by (unfold zlen; rewrite length_drop; lia).
      assert (dirents (h_offset h) (take k rest) ++ dirents (h_offset h + Z.of_nat k) (drop k rest) =
              dirents (h_offset h) rest) as ->.
      { by rewrite <- (take_drop k rest) at 3; rewrite dirents_app, Hzk. }
      rewrite Hzd. unfold with_offset. cbn. do 3 f_equal. lia.
    + fold recs. rewrite Hrest. unfold zlen in *. rewrite length_drop. lia.
    + fold recs. rewrite Hrest, length_drop. lia.
Qed.

Lemma elem_of_dir_records v entries name ty :
  (name, ty) ∈ dir_records (vstore v) entries ↔
  ∃ n nd, entries !! name = Some n ∧ nodes (vstore v) !! n = Some nd ∧ ty = node_kind_to_dirent_type (kind nd).
Proof.
  unfold dir_records. rewrite list_elem_of_omap. split.
  - intros (x & _ & Hx). destruct (entries !! x) as [n|] eqn:Hn; simpl in Hx; [|done].
    destruct (nodes (vstore v) !! n) as [nd|] eqn:Hnd; simpl in Hx; [|done]. simplify_eq. eauto 10.
  - intros (n & nd & Hn & Hnd & ->). exists name. split; [by apply elem_of_keys_by|].
    rewrite Hn. simpl. by rewrite Hnd.
Qed.

Lemma dir_records_names v n entries :
  wf v → is_dir (vstore v) n entries → (dir_records (vstore v) entries).*1 = names entries.
Proof.
  intros Hwf [k Hk]. assert (data_ok (vstore v) (Directory entries)) as Hd by exact (wf_store _ Hwf _ _ Hk).
  assert (∀ x, x ∈ names entries → ∃ m nd, entries !! x = Some m ∧ nodes (vstore v) !! m = Some nd) as Hin.
  { intros x [m Hm]%elem_of_keys_by. destruct (Hd _ _ Hm) as [nd ?]. eauto. }
  unfold dir_records. revert Hin. generalize (names entries) as xs. intros xs Hin.
  induction xs as [|x xs IH]; [done|]. destruct (Hin x) as (m & nd & Hm & Hnd); [by left|].
  simpl. rewrite Hm. simpl. rewrite Hnd. simpl. f_equal. apply IH. intros. apply Hin. by right.
Qed.

(** C17: Reading a directory from its start with repeated [getdents] calls
    terminates and returns every entry exactly once, in name order, each as
    a record with its number, length, type and NUL-terminated name, whatever
    the (non-zero) buffer size; the last call returns nothing and the offset
    is the number of entries. *)
Theorem getdents_enumerates max_len v h entries :
  wf v → in_dir v h entries → h_offset h = 0 → max_len ≠ 0 →
  (∀ name, is_Some (entries !! name) → str_len name ≤ 4096) → zlen (names entries) ≤ USIZE_MAX →
  ∃ recs,
    recs.*1 = names entries ∧
    (∀ name ty, (name, ty) ∈ recs ↔
       ∃ n nd, entries !! name = Some n ∧ nodes (vstore v) !! n = Some nd ∧
         ty = node_kind_to_dirent_type (kind nd)) ∧
    read_dir_loop (S (length recs)) max_len (h, v) =
      (Ok (dirents 0 recs), (with_offset h (zlen recs), v)).
Proof.
  intros Hwf Hin Ho Hm Hs Hlen. exists (dir_records (vstore v) entries).
  pose proof (dir_records_names v _ entries Hwf Hin) as Hn.
  assert (zlen (dir_records (vstore v) entries) = zlen (names entries)) as Hz.
  { unfold zlen. rewrite <- Hn. by rewrite length_fmap. }
  split_and!; [done|apply elem_of_dir_records|].
  rewrite (read_dir_loop_spec max_len v entries); rewrite ?Ho; unfold zdrop; simpl; rewrite ?drop_0, ?Hz;
    try done; try lia.
  apply Forall_forall. intros [name ty] (n & nd & Hname & _)%elem_of_dir_records. apply Hs. by exists n.
Qed.

End Dirents.

(** ** The theorems on concrete name spaces *)
Abbreviation vfs0 := (empty_vfs (M := Empty_set)).

Lemma with_fst {A B} (p : A * B) a : p.1 = a → p = (a, p.2).
Proof. destruct p. by intros <-. Qed.

Lemma unlink_hides_witness :
  let v := (create_file "/" "/x" [1] vfs0).2 in
  lookup_abs (unlink "/" "/x" v).2 "/x" = Err ENOENT.
Proof.
  intros v. apply (unlink_hides "/" "/x" v (unlink "/" "/x" v).2), with_fst. vm_compute. reflexivity.
Defined.


Lemma create_read_roundtrip_witness :
  ∃ v', create_file "/" "/x" [7; 8] vfs0 = (Ok tt, v') ∧ read_file_all "/" "/x" v' = (Ok [7; 8], v').
Proof.
  destruct (create_read_roundtrip "/" "/x" [7; 8] vfs0 [] "x" 0 ∅) as (v' & Hc & Hr & _).
  - apply empty_vfs_wf.
  - reflexivity.
  - split_and!; [done|done|by exists KDirectory|done].
  - done.
  - exists v'. split; [exact Hc|exact Hr].
Defined.

Lemma stat_symlinks_witness :
  let v := (create_symlink "/" "/l" "/l" vfs0).2 in stat_path v "/" "/l" = Err ELOOP.
Proof.
  intros v. apply (stat_symlinks "/" "/l" v 16 "/l"); [|lia].
  assert (links v "/l" "/l") as Hl.
  { split; [reflexivity|]. exists 1, "/l", "/", "l". by split_and!. }
  generalize 16%nat. induction n; [constructor|by econstructor].
Defined.

Lemma getdents_enumerates_witness :
  let v := (create_file "/" "/b" [2] (mkdir "/" "/a" 0 vfs0).2).2 in
  ∃ recs, recs.*1 = ["a"; "b"] ∧
    (read_dir_loop (S (length recs)) 1 (mkHandle 0 0 O_RDONLY "/" PNone, v)).1 = Ok (dirents 0 recs).
Proof.
  intros v. assert (wf v) as Hwf.
  { apply create_file_keeps, mkdir_keeps, empty_vfs_wf. }
  destruct (getdents_enumerates 1 v (mkHandle 0 0 O_RDONLY "/" PNone) {[ "a" := 1; "b" := 2 ]})
    as (recs & Hn & _ & Hl); [done|by exists KDirectory|done|done| |done|].
  - intros name [n Hn]. apply lookup_insert_Some in Hn as [[<- _]|[_ Hn]]; [done|].
    by apply lookup_singleton_Some in Hn as [<- _].
  - exists recs. split; [exact Hn|]. by rewrite Hl.
Defined.

(** A server bound to /s that listens, and a client socket. *)
Definition server : FileHandle := mkHandle 1 0 O_RDWR "/s" PNone.
Definition client : FileHandle := mkHandle 2 0 O_RDWR "socket:[1]" PNone.
Definition rendezvous : KernelVfs Empty_set :=
  let v := (create_socket 1 1 0 vfs0).2 in
  let v := (bind_socket "/" "/s" (server, v)).2.2 in
  let v := (listen_socket server v).2 in
  (create_socket 1 1 0 v).2.

Lemma rendezvous_wf : wf rendezvous.
Proof.
  apply create_socket_keeps, listen_socket_keeps.
  destruct (bind_socket_keeps (server, (create_socket 1 1 0 vfs0).2) "/" "/s") as ([? _] & _); [|done].
  split; [|by eexists]. apply create_socket_keeps, empty_vfs_wf.
Qed.

Lemma connect_accept_exchange_witness :
  ∃ h' v1 a v2 v3,
    connect_socket "/" "/s" (client, rendezvous) = (Ok tt, (h', v1)) ∧
    accept_socket server v1 = (Ok a, v2) ∧
    write (fun _ => true) [72; 105] (h', v2) = (Ok 2, (h', v3)) ∧
    (read 1 (a, v3)).1 = Ok [72].
Proof.
  destruct (connect_accept_exchange (fun _ => true) rendezvous "/" "/s" client server
              (mkPending (Some "/s") true 1 1 false []) [72; 105] 1)
    as (h' & v1 & a & v2 & v3 & Hc & Ha & _ & _ & Hw & Hr).
  - apply rendezvous_wf.
  - split_and!; vm_compute; reflexivity.
  - vm_compute. by eexists.
  - done.
  - done.
  - exists h', v1, a, v2, v3. split_and!; [exact Hc|exact Ha|exact Hw|exact Hr].
Defined.

End VfsSpec.
