(* ===== verification/Process.v ===== *)
(** * Processes (crates/proc/src/lib.rs: [Process])

    The process record, its descriptor table with the aliases that make
    duplicated descriptors share an offset, process images and the scan of
    the robust futex list at exit.  File handles and address spaces are
    reached through the interface [KernelEnv]; [Kernel] below implements it
    with the handles of [FileObject] and the address spaces of [AddrSpace].
    The [user_stack] buffer of the source is never read and is left out. *)

From S2P Require Import Prelude AddrSpace Path FileObject.

Open Scope string_scope.
Open Scope list_scope.
Open Scope Z_scope.

Module Proc.

Definition EBADF : Z := 9.
Definition ECHILD : Z := 10.
Definition EAGAIN : Z := 11.
Definition ENOENT : Z := 2.
Definition EPERM : Z := 1.
Definition EINVAL : Z := 22.
Definition ESRCH : Z := 3.

Definition USER_STACK_MAP_SIZE : Z := 0x80000.
Definition FUTEX_WAITERS : Z := 0x80000000.
Definition FUTEX_OWNER_DIED : Z := 0x40000000.
Definition FUTEX_TID_MASK : Z := 0x3fffffff.
Definition ROBUST_LIST_MAX_SCAN : nat := 2048.
Definition ROBUST_HEAD_WORDS : Z := 3.
Definition FORK_CLONE_BUDGET_BYTES : Z := 192 * 1024 * 1024.
Definition HANDLE_FLAG_CLOEXEC : Z := 0x80000000.

Inductive ProcessState := Ready | Running | Blocked | Exited.
#[export] Instance ProcessState_eq_dec : EqDecision ProcessState.
Proof. solve_decision. Defined.

Record SigAction := mkSigAction { sa_handler : Z; sa_flags : Z; sa_restorer : Z; sa_mask : Z }.
Definition no_action : SigAction := mkSigAction 0 0 0 0.

Record TrapFrame := mkFrame {
  regs : list Z; sepc : Z; sstatus : Z; scause : Z; stval : Z; fregs : list Z; fcsr : Z }.

(** [TrapFrame::new_user] and [set_retval]; register 2 is the stack pointer,
    4 the thread pointer, 10 the return value. *)
Definition set_reg (r : nat) (x : Z) (f : TrapFrame) : TrapFrame :=
  mkFrame (<[r := x]> (regs f)) (sepc f) (sstatus f) (scause f) (stval f) (fregs f) (fcsr f).
Definition new_user_frame (entry sp : Z) : TrapFrame :=
  set_reg 2 sp (mkFrame (replicate 32 0) entry 0 0 0 (replicate 32 0) 0).
Definition set_retval (x : Z) (f : TrapFrame) : TrapFrame := set_reg 10 x f.
Definition skip_ecall (f : TrapFrame) : outcome TrapFrame :=
  pc ← uadd (sepc f) 4;
  Ok (mkFrame (regs f) pc (sstatus f) (scause f) (stval f) (fregs f) (fcsr f)).

(** ** What a process needs of files and memory

    [E] is the rest of the kernel's state.  [handle_clone] and [handle_drop]
    are [Clone] and [Drop] of a file handle; an address space is an [Arc], so
    cloning one shares it. *)
Class KernelEnv (H A E : Type) := {
  handle_offset : H → Z;
  handle_set_offset : Z → H → H;
  handle_flags : H → Z;
  handle_clone : H → E → E;
  handle_drop : H → E → E;
  space_new_user : stm E A;
  space_share : A → E → E;
  space_drop : A → E → E;
  space_is_shared : A → E → bool;
  space_clone_private : A → stm E A;
  space_clear : A → E → E;
  space_read : A → Z → Z → E → outcome (list Z);
  space_write : A → Z → list Z → stm E unit;
  space_map_fixed : A → Z → list Z → Z → Z → stm E unit;
  space_map_anonymous : A → Z → Z → stm E Z;
  space_clone_bytes : A → E → outcome Z;
}.

Section Process.
Context {H A E : Type} `{!KernelEnv H A E}.

Record Process := mkProcess {
  pid : Z; tid : Z; tgid : Z; pgid : Z; sid : Z; parent : option Z; name : string; cwd : string; uid : Z;
  euid : Z; gid : Z; egid : Z; groups : list Z; umask : Z; state : ProcessState; exit_code : option Z;
  address_space : A; fds : gmap Z H; fd_alias : gmap Z Z; trap_frame : TrapFrame; tid_address : option Z;
  clear_child_tid : option Z; robust_list : option (Z * Z); signal_mask : Z; pending_signals : Z;
  sigaltstack : option (Z * Z * Z); signal_actions : gmap Z SigAction; sleep_deadline_ns : option Z;
  sleep_requested_ns : Z; sleep_remain_ptr : option Z; sleep_absolute : bool;
  itimer_real_deadline_ns : option Z; itimer_real_interval_ns : Z; futex_wait_addr : option Z;
  futex_wait_deadline_ns : option Z; epoll_wait_deadline_ns : option Z; sigsuspend_saved_mask : option Z;
  is_thread : bool; signal_frame_pending : bool; cancel_signal_seen : bool; cancellation_in_progress : bool;
  eintr_count : Z; force_thread_exit : bool; vfork_parent_tid : option Z;
}.

Definition set_pgid (x0 : Z) (p : Process) : Process := mkProcess
  (pid p) (tid p) (tgid p) x0 (sid p) (parent p) (name p) (cwd p) (uid p) (euid p) (gid p) (egid p) (groups p)
  (umask p) (state p) (exit_code p) (address_space p) (fds p) (fd_alias p) (trap_frame p) (tid_address p)
  (clear_child_tid p) (robust_list p) (signal_mask p) (pending_signals p) (sigaltstack p) (signal_actions p)
  (sleep_deadline_ns p) (sleep_requested_ns p) (sleep_remain_ptr p) (sleep_absolute p)
  (itimer_real_deadline_ns p) (itimer_real_interval_ns p) (futex_wait_addr p) (futex_wait_deadline_ns p)
  (epoll_wait_deadline_ns p) (sigsuspend_saved_mask p) (is_thread p) (signal_frame_pending p)
  (cancel_signal_seen p) (cancellation_in_progress p) (eintr_count p) (force_thread_exit p)
  (vfork_parent_tid p).
Definition set_sid (x0 : Z) (p : Process) : Process := mkProcess
  (pid p) (tid p) (tgid p) (pgid p) x0 (parent p) (name p) (cwd p) (uid p) (euid p) (gid p) (egid p) (groups p)
  (umask p) (state p) (exit_code p) (address_space p) (fds p) (fd_alias p) (trap_frame p) (tid_address p)
  (clear_child_tid p) (robust_list p) (signal_mask p) (pending_signals p) (sigaltstack p) (signal_actions p)
  (sleep_deadline_ns p) (sleep_requested_ns p) (sleep_remain_ptr p) (sleep_absolute p)
  (itimer_real_deadline_ns p) (itimer_real_interval_ns p) (futex_wait_addr p) (futex_wait_deadline_ns p)
  (epoll_wait_deadline_ns p) (sigsuspend_saved_mask p) (is_thread p) (signal_frame_pending p)
  (cancel_signal_seen p) (cancellation_in_progress p) (eintr_count p) (force_thread_exit p)
  (vfork_parent_tid p).
Definition set_parent (x0 : option Z) (p : Process) : Process := mkProcess
  (pid p) (tid p) (tgid p) (pgid p) (sid p) x0 (name p) (cwd p) (uid p) (euid p) (gid p) (egid p) (groups p)
  (umask p) (state p) (exit_code p) (address_space p) (fds p) (fd_alias p) (trap_frame p) (tid_address p)
  (clear_child_tid p) (robust_list p) (signal_mask p) (pending_signals p) (sigaltstack p) (signal_actions p)
  (sleep_deadline_ns p) (sleep_requested_ns p) (sleep_remain_ptr p) (sleep_absolute p)
  (itimer_real_deadline_ns p) (itimer_real_interval_ns p) (futex_wait_addr p) (futex_wait_deadline_ns p)
  (epoll_wait_deadline_ns p) (sigsuspend_saved_mask p) (is_thread p) (signal_frame_pending p)
  (cancel_signal_seen p) (cancellation_in_progress p) (eintr_count p) (force_thread_exit p)
  (vfork_parent_tid p).
Definition set_uid (x0 : Z) (p : Process) : Process := mkProcess
  (pid p) (tid p) (tgid p) (pgid p) (sid p) (parent p) (name p) (cwd p) x0 (euid p) (gid p) (egid p) (groups p)
  (umask p) (state p) (exit_code p) (address_space p) (fds p) (fd_alias p) (trap_frame p) (tid_address p)
  (clear_child_tid p) (robust_list p) (signal_mask p) (pending_signals p) (sigaltstack p) (signal_actions p)
  (sleep_deadline_ns p) (sleep_requested_ns p) (sleep_remain_ptr p) (sleep_absolute p)
  (itimer_real_deadline_ns p) (itimer_real_interval_ns p) (futex_wait_addr p) (futex_wait_deadline_ns p)
  (epoll_wait_deadline_ns p) (sigsuspend_saved_mask p) (is_thread p) (signal_frame_pending p)
  (cancel_signal_seen p) (cancellation_in_progress p) (eintr_count p) (force_thread_exit p)
  (vfork_parent_tid p).
Definition set_euid (x0 : Z) (p : Process) : Process := mkProcess
  (pid p) (tid p) (tgid p) (pgid p) (sid p) (parent p) (name p) (cwd p) (uid p) x0 (gid p) (egid p) (groups p)
  (umask p) (state p) (exit_code p) (address_space p) (fds p) (fd_alias p) (trap_frame p) (tid_address p)
  (clear_child_tid p) (robust_list p) (signal_mask p) (pending_signals p) (sigaltstack p) (signal_actions p)
  (sleep_deadline_ns p) (sleep_requested_ns p) (sleep_remain_ptr p) (sleep_absolute p)
  (itimer_real_deadline_ns p) (itimer_real_interval_ns p) (futex_wait_addr p) (futex_wait_deadline_ns p)
  (epoll_wait_deadline_ns p) (sigsuspend_saved_mask p) (is_thread p) (signal_frame_pending p)
  (cancel_signal_seen p) (cancellation_in_progress p) (eintr_count p) (force_thread_exit p)
  (vfork_parent_tid p).
Definition set_gid (x0 : Z) (p : Process) : Process := mkProcess
  (pid p) (tid p) (tgid p) (pgid p) (sid p) (parent p) (name p) (cwd p) (uid p) (euid p) x0 (egid p) (groups p)
  (umask p) (state p) (exit_code p) (address_space p) (fds p) (fd_alias p) (trap_frame p) (tid_address p)
  (clear_child_tid p) (robust_list p) (signal_mask p) (pending_signals p) (sigaltstack p) (signal_actions p)
  (sleep_deadline_ns p) (sleep_requested_ns p) (sleep_remain_ptr p) (sleep_absolute p)
  (itimer_real_deadline_ns p) (itimer_real_interval_ns p) (futex_wait_addr p) (futex_wait_deadline_ns p)
  (epoll_wait_deadline_ns p) (sigsuspend_saved_mask p) (is_thread p) (signal_frame_pending p)
  (cancel_signal_seen p) (cancellation_in_progress p) (eintr_count p) (force_thread_exit p)
  (vfork_parent_tid p).
Definition set_egid (x0 : Z) (p : Process) : Process := mkProcess
  (pid p) (tid p) (tgid p) (pgid p) (sid p) (parent p) (name p) (cwd p) (uid p) (euid p) (gid p) x0 (groups p)
  (umask p) (state p) (exit_code p) (address_space p) (fds p) (fd_alias p) (trap_frame p) (tid_address p)
  (clear_child_tid p) (robust_list p) (signal_mask p) (pending_signals p) (sigaltstack p) (signal_actions p)
  (sleep_deadline_ns p) (sleep_requested_ns p) (sleep_remain_ptr p) (sleep_absolute p)
  (itimer_real_deadline_ns p) (itimer_real_interval_ns p) (futex_wait_addr p) (futex_wait_deadline_ns p)
  (epoll_wait_deadline_ns p) (sigsuspend_saved_mask p) (is_thread p) (signal_frame_pending p)
  (cancel_signal_seen p) (cancellation_in_progress p) (eintr_count p) (force_thread_exit p)
  (vfork_parent_tid p).
Definition set_groups (x0 : list Z) (p : Process) : Process := mkProcess
  (pid p) (tid p) (tgid p) (pgid p) (sid p) (parent p) (name p) (cwd p) (uid p) (euid p) (gid p) (egid p) x0
  (umask p) (state p) (exit_code p) (address_space p) (fds p) (fd_alias p) (trap_frame p) (tid_address p)
  (clear_child_tid p) (robust_list p) (signal_mask p) (pending_signals p) (sigaltstack p) (signal_actions p)
  (sleep_deadline_ns p) (sleep_requested_ns p) (sleep_remain_ptr p) (sleep_absolute p)
  (itimer_real_deadline_ns p) (itimer_real_interval_ns p) (futex_wait_addr p) (futex_wait_deadline_ns p)
  (epoll_wait_deadline_ns p) (sigsuspend_saved_mask p) (is_thread p) (signal_frame_pending p)
  (cancel_signal_seen p) (cancellation_in_progress p) (eintr_count p) (force_thread_exit p)
  (vfork_parent_tid p).
Definition set_umask (x0 : Z) (p : Process) : Process := mkProcess
  (pid p) (tid p) (tgid p) (pgid p) (sid p) (parent p) (name p) (cwd p) (uid p) (euid p) (gid p) (egid p)
  (groups p) x0 (state p) (exit_code p) (address_space p) (fds p) (fd_alias p) (trap_frame p) (tid_address p)
  (clear_child_tid p) (robust_list p) (signal_mask p) (pending_signals p) (sigaltstack p) (signal_actions p)
  (sleep_deadline_ns p) (sleep_requested_ns p) (sleep_remain_ptr p) (sleep_absolute p)
  (itimer_real_deadline_ns p) (itimer_real_interval_ns p) (futex_wait_addr p) (futex_wait_deadline_ns p)
  (epoll_wait_deadline_ns p) (sigsuspend_saved_mask p) (is_thread p) (signal_frame_pending p)
  (cancel_signal_seen p) (cancellation_in_progress p) (eintr_count p) (force_thread_exit p)
  (vfork_parent_tid p).
Definition set_exit (x0 : ProcessState) (x1 : option Z) (p : Process) : Process := mkProcess
  (pid p) (tid p) (tgid p) (pgid p) (sid p) (parent p) (name p) (cwd p) (uid p) (euid p) (gid p) (egid p)
  (groups p) (umask p) x0 x1 (address_space p) (fds p) (fd_alias p) (trap_frame p) (tid_address p)
  (clear_child_tid p) (robust_list p) (signal_mask p) (pending_signals p) (sigaltstack p) (signal_actions p)
  (sleep_deadline_ns p) (sleep_requested_ns p) (sleep_remain_ptr p) (sleep_absolute p)
  (itimer_real_deadline_ns p) (itimer_real_interval_ns p) (futex_wait_addr p) (futex_wait_deadline_ns p)
  (epoll_wait_deadline_ns p) (sigsuspend_saved_mask p) (is_thread p) (signal_frame_pending p)
  (cancel_signal_seen p) (cancellation_in_progress p) (eintr_count p) (force_thread_exit p)
  (vfork_parent_tid p).
Definition set_space (x0 : A) (p : Process) : Process := mkProcess
  (pid p) (tid p) (tgid p) (pgid p) (sid p) (parent p) (name p) (cwd p) (uid p) (euid p) (gid p) (egid p)
  (groups p) (umask p) (state p) (exit_code p) x0 (fds p) (fd_alias p) (trap_frame p) (tid_address p)
  (clear_child_tid p) (robust_list p) (signal_mask p) (pending_signals p) (sigaltstack p) (signal_actions p)
  (sleep_deadline_ns p) (sleep_requested_ns p) (sleep_remain_ptr p) (sleep_absolute p)
  (itimer_real_deadline_ns p) (itimer_real_interval_ns p) (futex_wait_addr p) (futex_wait_deadline_ns p)
  (epoll_wait_deadline_ns p) (sigsuspend_saved_mask p) (is_thread p) (signal_frame_pending p)
  (cancel_signal_seen p) (cancellation_in_progress p) (eintr_count p) (force_thread_exit p)
  (vfork_parent_tid p).
Definition set_fds (x0 : gmap Z H) (p : Process) : Process := mkProcess
  (pid p) (tid p) (tgid p) (pgid p) (sid p) (parent p) (name p) (cwd p) (uid p) (euid p) (gid p) (egid p)
  (groups p) (umask p) (state p) (exit_code p) (address_space p) x0 (fd_alias p) (trap_frame p) (tid_address p)
  (clear_child_tid p) (robust_list p) (signal_mask p) (pending_signals p) (sigaltstack p) (signal_actions p)
  (sleep_deadline_ns p) (sleep_requested_ns p) (sleep_remain_ptr p) (sleep_absolute p)
  (itimer_real_deadline_ns p) (itimer_real_interval_ns p) (futex_wait_addr p) (futex_wait_deadline_ns p)
  (epoll_wait_deadline_ns p) (sigsuspend_saved_mask p) (is_thread p) (signal_frame_pending p)
  (cancel_signal_seen p) (cancellation_in_progress p) (eintr_count p) (force_thread_exit p)
  (vfork_parent_tid p).
Definition set_alias (x0 : gmap Z Z) (p : Process) : Process := mkProcess
  (pid p) (tid p) (tgid p) (pgid p) (sid p) (parent p) (name p) (cwd p) (uid p) (euid p) (gid p) (egid p)
  (groups p) (umask p) (state p) (exit_code p) (address_space p) (fds p) x0 (trap_frame p) (tid_address p)
  (clear_child_tid p) (robust_list p) (signal_mask p) (pending_signals p) (sigaltstack p) (signal_actions p)
  (sleep_deadline_ns p) (sleep_requested_ns p) (sleep_remain_ptr p) (sleep_absolute p)
  (itimer_real_deadline_ns p) (itimer_real_interval_ns p) (futex_wait_addr p) (futex_wait_deadline_ns p)
  (epoll_wait_deadline_ns p) (sigsuspend_saved_mask p) (is_thread p) (signal_frame_pending p)
  (cancel_signal_seen p) (cancellation_in_progress p) (eintr_count p) (force_thread_exit p)
  (vfork_parent_tid p).
Definition set_frame (x0 : TrapFrame) (p : Process) : Process := mkProcess
  (pid p) (tid p) (tgid p) (pgid p) (sid p) (parent p) (name p) (cwd p) (uid p) (euid p) (gid p) (egid p)
  (groups p) (umask p) (state p) (exit_code p) (address_space p) (fds p) (fd_alias p) x0 (tid_address p)
  (clear_child_tid p) (robust_list p) (signal_mask p) (pending_signals p) (sigaltstack p) (signal_actions p)
  (sleep_deadline_ns p) (sleep_requested_ns p) (sleep_remain_ptr p) (sleep_absolute p)
  (itimer_real_deadline_ns p) (itimer_real_interval_ns p) (futex_wait_addr p) (futex_wait_deadline_ns p)
  (epoll_wait_deadline_ns p) (sigsuspend_saved_mask p) (is_thread p) (signal_frame_pending p)
  (cancel_signal_seen p) (cancellation_in_progress p) (eintr_count p) (force_thread_exit p)
  (vfork_parent_tid p).
Definition set_tid_addr (x0 : option Z) (x1 : option Z) (p : Process) : Process := mkProcess
  (pid p) (tid p) (tgid p) (pgid p) (sid p) (parent p) (name p) (cwd p) (uid p) (euid p) (gid p) (egid p)
  (groups p) (umask p) (state p) (exit_code p) (address_space p) (fds p) (fd_alias p) (trap_frame p) x0 x1
  (robust_list p) (signal_mask p) (pending_signals p) (sigaltstack p) (signal_actions p) (sleep_deadline_ns p)
  (sleep_requested_ns p) (sleep_remain_ptr p) (sleep_absolute p) (itimer_real_deadline_ns p)
  (itimer_real_interval_ns p) (futex_wait_addr p) (futex_wait_deadline_ns p) (epoll_wait_deadline_ns p)
  (sigsuspend_saved_mask p) (is_thread p) (signal_frame_pending p) (cancel_signal_seen p)
  (cancellation_in_progress p) (eintr_count p) (force_thread_exit p) (vfork_parent_tid p).
Definition set_clear_tid (x0 : option Z) (p : Process) : Process := mkProcess
  (pid p) (tid p) (tgid p) (pgid p) (sid p) (parent p) (name p) (cwd p) (uid p) (euid p) (gid p) (egid p)
  (groups p) (umask p) (state p) (exit_code p) (address_space p) (fds p) (fd_alias p) (trap_frame p)
  (tid_address p) x0 (robust_list p) (signal_mask p) (pending_signals p) (sigaltstack p) (signal_actions p)
  (sleep_deadline_ns p) (sleep_requested_ns p) (sleep_remain_ptr p) (sleep_absolute p)
  (itimer_real_deadline_ns p) (itimer_real_interval_ns p) (futex_wait_addr p) (futex_wait_deadline_ns p)
  (epoll_wait_deadline_ns p) (sigsuspend_saved_mask p) (is_thread p) (signal_frame_pending p)
  (cancel_signal_seen p) (cancellation_in_progress p) (eintr_count p) (force_thread_exit p)
  (vfork_parent_tid p).
Definition set_robust (x0 : option (Z * Z)) (p : Process) : Process := mkProcess
  (pid p) (tid p) (tgid p) (pgid p) (sid p) (parent p) (name p) (cwd p) (uid p) (euid p) (gid p) (egid p)
  (groups p) (umask p) (state p) (exit_code p) (address_space p) (fds p) (fd_alias p) (trap_frame p)
  (tid_address p) (clear_child_tid p) x0 (signal_mask p) (pending_signals p) (sigaltstack p) (signal_actions p)
  (sleep_deadline_ns p) (sleep_requested_ns p) (sleep_remain_ptr p) (sleep_absolute p)
  (itimer_real_deadline_ns p) (itimer_real_interval_ns p) (futex_wait_addr p) (futex_wait_deadline_ns p)
  (epoll_wait_deadline_ns p) (sigsuspend_saved_mask p) (is_thread p) (signal_frame_pending p)
  (cancel_signal_seen p) (cancellation_in_progress p) (eintr_count p) (force_thread_exit p)
  (vfork_parent_tid p).
Definition set_mask (x0 : Z) (p : Process) : Process := mkProcess
  (pid p) (tid p) (tgid p) (pgid p) (sid p) (parent p) (name p) (cwd p) (uid p) (euid p) (gid p) (egid p)
  (groups p) (umask p) (state p) (exit_code p) (address_space p) (fds p) (fd_alias p) (trap_frame p)
  (tid_address p) (clear_child_tid p) (robust_list p) x0 (pending_signals p) (sigaltstack p) (signal_actions p)
  (sleep_deadline_ns p) (sleep_requested_ns p) (sleep_remain_ptr p) (sleep_absolute p)
  (itimer_real_deadline_ns p) (itimer_real_interval_ns p) (futex_wait_addr p) (futex_wait_deadline_ns p)
  (epoll_wait_deadline_ns p) (sigsuspend_saved_mask p) (is_thread p) (signal_frame_pending p)
  (cancel_signal_seen p) (cancellation_in_progress p) (eintr_count p) (force_thread_exit p)
  (vfork_parent_tid p).
Definition set_pending (x0 : Z) (p : Process) : Process := mkProcess
  (pid p) (tid p) (tgid p) (pgid p) (sid p) (parent p) (name p) (cwd p) (uid p) (euid p) (gid p) (egid p)
  (groups p) (umask p) (state p) (exit_code p) (address_space p) (fds p) (fd_alias p) (trap_frame p)
  (tid_address p) (clear_child_tid p) (robust_list p) (signal_mask p) x0 (sigaltstack p) (signal_actions p)
  (sleep_deadline_ns p) (sleep_requested_ns p) (sleep_remain_ptr p) (sleep_absolute p)
  (itimer_real_deadline_ns p) (itimer_real_interval_ns p) (futex_wait_addr p) (futex_wait_deadline_ns p)
  (epoll_wait_deadline_ns p) (sigsuspend_saved_mask p) (is_thread p) (signal_frame_pending p)
  (cancel_signal_seen p) (cancellation_in_progress p) (eintr_count p) (force_thread_exit p)
  (vfork_parent_tid p).
Definition set_altstack (x0 : option (Z * Z * Z)) (p : Process) : Process := mkProcess
  (pid p) (tid p) (tgid p) (pgid p) (sid p) (parent p) (name p) (cwd p) (uid p) (euid p) (gid p) (egid p)
  (groups p) (umask p) (state p) (exit_code p) (address_space p) (fds p) (fd_alias p) (trap_frame p)
  (tid_address p) (clear_child_tid p) (robust_list p) (signal_mask p) (pending_signals p) x0 (signal_actions p)
  (sleep_deadline_ns p) (sleep_requested_ns p) (sleep_remain_ptr p) (sleep_absolute p)
  (itimer_real_deadline_ns p) (itimer_real_interval_ns p) (futex_wait_addr p) (futex_wait_deadline_ns p)
  (epoll_wait_deadline_ns p) (sigsuspend_saved_mask p) (is_thread p) (signal_frame_pending p)
  (cancel_signal_seen p) (cancellation_in_progress p) (eintr_count p) (force_thread_exit p)
  (vfork_parent_tid p).
Definition set_actions (x0 : gmap Z SigAction) (p : Process) : Process := mkProcess
  (pid p) (tid p) (tgid p) (pgid p) (sid p) (parent p) (name p) (cwd p) (uid p) (euid p) (gid p) (egid p)
  (groups p) (umask p) (state p) (exit_code p) (address_space p) (fds p) (fd_alias p) (trap_frame p)
  (tid_address p) (clear_child_tid p) (robust_list p) (signal_mask p) (pending_signals p) (sigaltstack p) x0
  (sleep_deadline_ns p) (sleep_requested_ns p) (sleep_remain_ptr p) (sleep_absolute p)
  (itimer_real_deadline_ns p) (itimer_real_interval_ns p) (futex_wait_addr p) (futex_wait_deadline_ns p)
  (epoll_wait_deadline_ns p) (sigsuspend_saved_mask p) (is_thread p) (signal_frame_pending p)
  (cancel_signal_seen p) (cancellation_in_progress p) (eintr_count p) (force_thread_exit p)
  (vfork_parent_tid p).
Definition set_itimer (x0 : option Z) (x1 : Z) (p : Process) : Process := mkProcess
  (pid p) (tid p) (tgid p) (pgid p) (sid p) (parent p) (name p) (cwd p) (uid p) (euid p) (gid p) (egid p)
  (groups p) (umask p) (state p) (exit_code p) (address_space p) (fds p) (fd_alias p) (trap_frame p)
  (tid_address p) (clear_child_tid p) (robust_list p) (signal_mask p) (pending_signals p) (sigaltstack p)
  (signal_actions p) (sleep_deadline_ns p) (sleep_requested_ns p) (sleep_remain_ptr p) (sleep_absolute p) x0 x1
  (futex_wait_addr p) (futex_wait_deadline_ns p) (epoll_wait_deadline_ns p) (sigsuspend_saved_mask p)
  (is_thread p) (signal_frame_pending p) (cancel_signal_seen p) (cancellation_in_progress p) (eintr_count p)
  (force_thread_exit p) (vfork_parent_tid p).
Definition set_futex_wait (x0 : option Z) (x1 : option Z) (x2 : Z) (p : Process) : Process := mkProcess
  (pid p) (tid p) (tgid p) (pgid p) (sid p) (parent p) (name p) (cwd p) (uid p) (euid p) (gid p) (egid p)
  (groups p) (umask p) (state p) (exit_code p) (address_space p) (fds p) (fd_alias p) (trap_frame p)
  (tid_address p) (clear_child_tid p) (robust_list p) (signal_mask p) (pending_signals p) (sigaltstack p)
  (signal_actions p) (sleep_deadline_ns p) (sleep_requested_ns p) (sleep_remain_ptr p) (sleep_absolute p)
  (itimer_real_deadline_ns p) (itimer_real_interval_ns p) x0 x1 (epoll_wait_deadline_ns p)
  (sigsuspend_saved_mask p) (is_thread p) (signal_frame_pending p) (cancel_signal_seen p)
  (cancellation_in_progress p) x2 (force_thread_exit p) (vfork_parent_tid p).
Definition set_cancel (x0 : bool) (x1 : bool) (p : Process) : Process := mkProcess
  (pid p) (tid p) (tgid p) (pgid p) (sid p) (parent p) (name p) (cwd p) (uid p) (euid p) (gid p) (egid p)
  (groups p) (umask p) (state p) (exit_code p) (address_space p) (fds p) (fd_alias p) (trap_frame p)
  (tid_address p) (clear_child_tid p) (robust_list p) (signal_mask p) (pending_signals p) (sigaltstack p)
  (signal_actions p) (sleep_deadline_ns p) (sleep_requested_ns p) (sleep_remain_ptr p) (sleep_absolute p)
  (itimer_real_deadline_ns p) (itimer_real_interval_ns p) (futex_wait_addr p) (futex_wait_deadline_ns p)
  (epoll_wait_deadline_ns p) (sigsuspend_saved_mask p) (is_thread p) (signal_frame_pending p) x0 x1
  (eintr_count p) (force_thread_exit p) (vfork_parent_tid p).
Definition set_vfork_parent (x0 : option Z) (p : Process) : Process := mkProcess
  (pid p) (tid p) (tgid p) (pgid p) (sid p) (parent p) (name p) (cwd p) (uid p) (euid p) (gid p) (egid p)
  (groups p) (umask p) (state p) (exit_code p) (address_space p) (fds p) (fd_alias p) (trap_frame p)
  (tid_address p) (clear_child_tid p) (robust_list p) (signal_mask p) (pending_signals p) (sigaltstack p)
  (signal_actions p) (sleep_deadline_ns p) (sleep_requested_ns p) (sleep_remain_ptr p) (sleep_absolute p)
  (itimer_real_deadline_ns p) (itimer_real_interval_ns p) (futex_wait_addr p) (futex_wait_deadline_ns p)
  (epoll_wait_deadline_ns p) (sigsuspend_saved_mask p) (is_thread p) (signal_frame_pending p)
  (cancel_signal_seen p) (cancellation_in_progress p) (eintr_count p) (force_thread_exit p) x0.
Definition set_leader (x0 : bool) (x1 : Z) (p : Process) : Process := mkProcess
  x1 (tid p) (tgid p) (pgid p) (sid p) (parent p) (name p) (cwd p) (uid p) (euid p) (gid p) (egid p) (groups p)
  (umask p) (state p) (exit_code p) (address_space p) (fds p) (fd_alias p) (trap_frame p) (tid_address p)
  (clear_child_tid p) (robust_list p) (signal_mask p) (pending_signals p) (sigaltstack p) (signal_actions p)
  (sleep_deadline_ns p) (sleep_requested_ns p) (sleep_remain_ptr p) (sleep_absolute p)
  (itimer_real_deadline_ns p) (itimer_real_interval_ns p) (futex_wait_addr p) (futex_wait_deadline_ns p)
  (epoll_wait_deadline_ns p) (sigsuspend_saved_mask p) x0 (signal_frame_pending p) (cancel_signal_seen p)
  (cancellation_in_progress p) (eintr_count p) (force_thread_exit p) (vfork_parent_tid p).

Definition set_cwd (x0 : string) (p : Process) : Process := mkProcess
  (pid p) (tid p) (tgid p) (pgid p) (sid p) (parent p) (name p) x0 (uid p) (euid p) (gid p) (egid p) (groups p)
  (umask p) (state p) (exit_code p) (address_space p) (fds p) (fd_alias p) (trap_frame p) (tid_address p)
  (clear_child_tid p) (robust_list p) (signal_mask p) (pending_signals p) (sigaltstack p) (signal_actions p)
  (sleep_deadline_ns p) (sleep_requested_ns p) (sleep_remain_ptr p) (sleep_absolute p) (itimer_real_deadline_ns
  p) (itimer_real_interval_ns p) (futex_wait_addr p) (futex_wait_deadline_ns p) (epoll_wait_deadline_ns p)
  (sigsuspend_saved_mask p) (is_thread p) (signal_frame_pending p) (cancel_signal_seen p)
  (cancellation_in_progress p) (eintr_count p) (force_thread_exit p) (vfork_parent_tid p).
Definition set_sleep (x0 : option Z) (x1 : Z) (x2 : option Z) (x3 : bool) (p : Process) : Process := mkProcess
  (pid p) (tid p) (tgid p) (pgid p) (sid p) (parent p) (name p) (cwd p) (uid p) (euid p) (gid p) (egid p)
  (groups p) (umask p) (state p) (exit_code p) (address_space p) (fds p) (fd_alias p) (trap_frame p)
  (tid_address p) (clear_child_tid p) (robust_list p) (signal_mask p) (pending_signals p) (sigaltstack p)
  (signal_actions p) x0 x1 x2 x3 (itimer_real_deadline_ns p) (itimer_real_interval_ns p) (futex_wait_addr p)
  (futex_wait_deadline_ns p) (epoll_wait_deadline_ns p) (sigsuspend_saved_mask p) (is_thread p)
  (signal_frame_pending p) (cancel_signal_seen p) (cancellation_in_progress p) (eintr_count p)
  (force_thread_exit p) (vfork_parent_tid p).
Definition set_epoll_deadline (x0 : option Z) (p : Process) : Process := mkProcess
  (pid p) (tid p) (tgid p) (pgid p) (sid p) (parent p) (name p) (cwd p) (uid p) (euid p) (gid p) (egid p)
  (groups p) (umask p) (state p) (exit_code p) (address_space p) (fds p) (fd_alias p) (trap_frame p)
  (tid_address p) (clear_child_tid p) (robust_list p) (signal_mask p) (pending_signals p) (sigaltstack p)
  (signal_actions p) (sleep_deadline_ns p) (sleep_requested_ns p) (sleep_remain_ptr p) (sleep_absolute p)
  (itimer_real_deadline_ns p) (itimer_real_interval_ns p) (futex_wait_addr p) (futex_wait_deadline_ns p) x0
  (sigsuspend_saved_mask p) (is_thread p) (signal_frame_pending p) (cancel_signal_seen p)
  (cancellation_in_progress p) (eintr_count p) (force_thread_exit p) (vfork_parent_tid p).
Definition set_sigsuspend (x0 : option Z) (p : Process) : Process := mkProcess
  (pid p) (tid p) (tgid p) (pgid p) (sid p) (parent p) (name p) (cwd p) (uid p) (euid p) (gid p) (egid p)
  (groups p) (umask p) (state p) (exit_code p) (address_space p) (fds p) (fd_alias p) (trap_frame p)
  (tid_address p) (clear_child_tid p) (robust_list p) (signal_mask p) (pending_signals p) (sigaltstack p)
  (signal_actions p) (sleep_deadline_ns p) (sleep_requested_ns p) (sleep_remain_ptr p) (sleep_absolute p)
  (itimer_real_deadline_ns p) (itimer_real_interval_ns p) (futex_wait_addr p) (futex_wait_deadline_ns p)
  (epoll_wait_deadline_ns p) x0 (is_thread p) (signal_frame_pending p) (cancel_signal_seen p)
  (cancellation_in_progress p) (eintr_count p) (force_thread_exit p) (vfork_parent_tid p).
Definition set_name (x0 : string) (p : Process) : Process := mkProcess
  (pid p) (tid p) (tgid p) (pgid p) (sid p) (parent p) x0 (cwd p) (uid p) (euid p) (gid p) (egid p) (groups p)
  (umask p) (state p) (exit_code p) (address_space p) (fds p) (fd_alias p) (trap_frame p) (tid_address p)
  (clear_child_tid p) (robust_list p) (signal_mask p) (pending_signals p) (sigaltstack p) (signal_actions p)
  (sleep_deadline_ns p) (sleep_requested_ns p) (sleep_remain_ptr p) (sleep_absolute p) (itimer_real_deadline_ns
  p) (itimer_real_interval_ns p) (futex_wait_addr p) (futex_wait_deadline_ns p) (epoll_wait_deadline_ns p)
  (sigsuspend_saved_mask p) (is_thread p) (signal_frame_pending p) (cancel_signal_seen p)
  (cancellation_in_progress p) (eintr_count p) (force_thread_exit p) (vfork_parent_tid p).
Definition set_frame_pending (x0 : bool) (p : Process) : Process := mkProcess
  (pid p) (tid p) (tgid p) (pgid p) (sid p) (parent p) (name p) (cwd p) (uid p) (euid p) (gid p) (egid p)
  (groups p) (umask p) (state p) (exit_code p) (address_space p) (fds p) (fd_alias p) (trap_frame p)
  (tid_address p) (clear_child_tid p) (robust_list p) (signal_mask p) (pending_signals p) (sigaltstack p)
  (signal_actions p) (sleep_deadline_ns p) (sleep_requested_ns p) (sleep_remain_ptr p) (sleep_absolute p)
  (itimer_real_deadline_ns p) (itimer_real_interval_ns p) (futex_wait_addr p) (futex_wait_deadline_ns p)
  (epoll_wait_deadline_ns p) (sigsuspend_saved_mask p) (is_thread p) x0 (cancel_signal_seen p)
  (cancellation_in_progress p) (eintr_count p) (force_thread_exit p) (vfork_parent_tid p).
Definition set_force_exit (x0 : bool) (p : Process) : Process := mkProcess
  (pid p) (tid p) (tgid p) (pgid p) (sid p) (parent p) (name p) (cwd p) (uid p) (euid p) (gid p) (egid p)
  (groups p) (umask p) (state p) (exit_code p) (address_space p) (fds p) (fd_alias p) (trap_frame p)
  (tid_address p) (clear_child_tid p) (robust_list p) (signal_mask p) (pending_signals p) (sigaltstack p)
  (signal_actions p) (sleep_deadline_ns p) (sleep_requested_ns p) (sleep_remain_ptr p) (sleep_absolute p)
  (itimer_real_deadline_ns p) (itimer_real_interval_ns p) (futex_wait_addr p) (futex_wait_deadline_ns p)
  (epoll_wait_deadline_ns p) (sigsuspend_saved_mask p) (is_thread p) (signal_frame_pending p)
  (cancel_signal_seen p) (cancellation_in_progress p) (eintr_count p) x0 (vfork_parent_tid p).

(** ** Descriptors *)
(** The first descriptor from [fd] on that is not open. *)
Fixpoint free_fd (fuel : nat) (m : gmap Z H) (fd : Z) : outcome Z :=
  match fuel with
  | O => Diverge
  | S fuel' => match m !! fd with None => Ok fd | Some _ => free_fd fuel' m (fd + 1) end
  end.

(** Descriptors are [i32]; the least free number is at most the number of open
    descriptors, so the end of that range is out of reach of the heap. *)
Definition add_fd (h : H) : stm Process Z :=
  p ← get;
  fd ← lift (free_fd (S (size (fds p))) (fds p) 0);
  _ ← put (set_alias (<[fd := fd]> (fd_alias p)) (set_fds (<[fd := h]> (fds p)) p));
  mret fd.

Definition fd_get (p : Process) (fd : Z) : outcome H := ok_or (fds p !! fd) EBADF.

(** Sixteen steps along the aliases. *)
Fixpoint alias_chain (rounds : nat) (alias : gmap Z Z) (leader : Z) : Z :=
  match rounds with
  | O => leader
  | S rounds' =>
      match alias !! leader with
      | None => leader
      | Some next => if next =? leader then leader else alias_chain rounds' alias next
      end
  end.

Definition fd_alias_leader (p : Process) (fd : Z) : outcome Z :=
  _ ← fd_get p fd;
  Ok (alias_chain 16 (fd_alias p) (default fd (fd_alias p !! fd))).

Definition sync_fd_offset_from_alias (fd : Z) : stm Process unit :=
  p ← get;
  leader ← lift (fd_alias_leader p fd);
  if leader =? fd then mret tt
  else
    hl ← lift (fd_get p leader);
    _ ← lift (fd_get p fd);
    put (set_fds (alter (handle_set_offset (handle_offset hl)) fd (fds p)) p).

(** The descriptors whose alias is [leader], in order. *)
Definition aliases_of (alias : gmap Z Z) (leader : Z) : list Z :=
  omap (fun '(fd, l) => if l =? leader then Some fd else None) (items alias).

Definition sync_fd_offset_to_aliases (fd : Z) : stm Process unit :=
  p ← get;
  leader ← lift (fd_alias_leader p fd);
  h ← lift (fd_get p fd);
  let set := alter (handle_set_offset (handle_offset h)) in
  let m := foldl (fun m peer => set peer m) (fds p) (aliases_of (fd_alias p) leader) in
  put (set_fds (set leader m) p).

Definition add_fd_from (source_fd : Z) (h : H) : stm Process Z :=
  new_fd ← add_fd h;
  p ← get;
  leader ← lift (fd_alias_leader p source_fd);
  _ ← put (set_alias (<[new_fd := leader]> (fd_alias p)) p);
  _ ← sync_fd_offset_from_alias new_fd;
  mret new_fd.

Definition set_fd_alias (fd leader : Z) (p : Process) : Process :=
  set_alias (<[fd := leader]> (fd_alias p)) p.

(** The descriptors led by a closed one get a new leader, the lowest. *)
Definition relead (fd : Z) (alias : gmap Z Z) : gmap Z Z :=
  match aliases_of alias fd with
  | [] => alias
  | new_leader :: rest => foldl (fun m c => <[c := new_leader]> m) (<[new_leader := new_leader]> alias) rest
  end.

Definition close_fd (fd : Z) : stm (Process * E) unit := fun '(p, e) =>
  match fds p !! fd with
  | None => (Err EBADF, (p, e))
  | Some h =>
      (Ok tt, (set_alias (relead fd (delete fd (fd_alias p))) (set_fds (delete fd (fds p)) p), handle_drop h e))
  end.

(** [BTreeMap::clone] and [clear] of the descriptor table. *)
Definition clone_fds (m : gmap Z H) (e : E) : E := foldl (fun e h => handle_clone h e) e (values m).
Definition drop_fds (m : gmap Z H) (e : E) : E := foldl (fun e h => handle_drop h e) e (values m).

(** ** Cancellation *)
Definition mark_cancel_signal_dispatched (p : Process) : Process := set_cancel true false p.
Definition arm_cancellation_persistent (p : Process) : Process :=
  if cancel_signal_seen p then set_cancel false true p else p.

(** ** User memory *)
Definition read_user_le (n : Z) (p : Process) (addr : Z) (e : E) : outcome Z :=
  match space_read (address_space p) addr n e with
  | Ok bs => if zlen bs <? n then Panic else Ok (from_le_bytes (take (Z.to_nat n) bs))
  | Err _ => Err EINVAL
  | Panic => Panic
  | Diverge => Diverge
  end.
Definition read_user_usize : Process → Z → E → outcome Z := read_user_le 8.
Definition read_user_u32 : Process → Z → E → outcome Z := read_user_le 4.
Definition read_user_isize (p : Process) (addr : Z) (e : E) : outcome Z :=
  Obj.as_isize <$> read_user_le 8 p addr e.

(** [let _ = process.write_user_bytes(..)]: an error is ignored, a panic is not. *)
Definition try_write (p : Process) (addr : Z) (bs : list Z) : stm E unit := fun e =>
  match space_write (address_space p) addr bs e with
  | (Err _, e') => (Ok tt, e')
  | r => r
  end.

(** ** The robust futex list *)
(** [-futex_offset] overflows for the least [isize]. *)
Definition robust_futex_addr (node futex_offset : Z) : outcome (option Z) :=
  if 0 <=? futex_offset then Ok (checked_add node futex_offset)
  else if futex_offset =? - 2 ^ 63 then Panic
  else Ok (checked_sub node (- futex_offset)).

Definition maybe_mark_owner_died (p : Process) (futex_addr exiting_tid : Z) : stm E unit := fun e =>
  match read_user_u32 p futex_addr e with
  | Ok word =>
      if Z.land word FUTEX_TID_MASK =? Z.land (exiting_tid mod 2 ^ 32) FUTEX_TID_MASK then
        try_write p futex_addr (to_le_bytes 4 (Z.lor (Z.land word FUTEX_WAITERS) FUTEX_OWNER_DIED)) e
      else (Ok tt, e)
  | Err _ => (Ok tt, e)
  | Panic => (Panic, e)
  | Diverge => (Diverge, e)
  end.

Definition push_unique_addr (addrs : list Z) (addr : Z) : list Z :=
  if existsb (Z.eqb addr) addrs then addrs else addrs ++ [addr].

(** One entry of the list: mark its futex word and report it. *)
Definition robust_entry (p : Process) (node futex_offset : Z) (addrs : list Z) : stm E (list Z) :=
  o ← lift (robust_futex_addr node futex_offset);
  match (o : option Z) with
  | Some addr => _ ← maybe_mark_owner_died p addr (tid p); mret (push_unique_addr addrs addr)
  | None => mret addrs
  end.

Fixpoint robust_scan (rounds : nat) (p : Process) (head futex_offset node : Z) (seen addrs : list Z)
  : stm E (list Z) :=
  match rounds with
  | O => mret addrs
  | S rounds' =>
      if (node =? 0) || (node =? head) || existsb (Z.eqb node) seen then mret addrs
      else
        addrs ← robust_entry p node futex_offset addrs;
        e ← get;
        match read_user_usize p node e with
        | Ok next => robust_scan rounds' p head futex_offset next (seen ++ [node]) addrs
        | Err _ => mret addrs
        | Panic => lift Panic
        | Diverge => lift Diverge
        end
  end.

Definition collect_robust_futex_addrs_for_exit (p : Process) : stm E (list Z) :=
  match robust_list p with
  | None => mret []
  | Some (head, len) =>
      if len <? ROBUST_HEAD_WORDS * 8 then mret []
      else
        e ← get;
        match read_user_usize p head e with
        | Ok list_next =>
            a1 ← lift (uadd head 8);
            match read_user_isize p a1 e with
            | Ok futex_offset =>
                a2 ← lift (uadd head 16);
                list_op_pending ← match read_user_usize p a2 e with
                                  | Ok ptr => mret ptr
                                  | Err _ => mret 0
                                  | Panic => lift Panic
                                  | Diverge => lift Diverge
                                  end;
                addrs ← robust_scan ROBUST_LIST_MAX_SCAN p head futex_offset list_next [] [];
                if negb (list_op_pending =? 0) && negb (list_op_pending =? head)
                then robust_entry p list_op_pending futex_offset addrs
                else mret addrs
            | Err _ => mret []
            | Panic => lift Panic
            | Diverge => lift Diverge
            end
        | Err _ => mret []
        | Panic => lift Panic
        | Diverge => lift Diverge
        end
  end.

(** ** Images *)
Definition ignore {B} (m : stm E B) : stm E unit := fun e =>
  match m e with
  | (Ok _, e') | (Err _, e') => (Ok tt, e')
  | (Panic, e') => (Panic, e')
  | (Diverge, e') => (Diverge, e')
  end.

(** [str::is_char_boundary]: not in the middle of a UTF-8 sequence. *)
Definition is_char_boundary (s : string) (n : nat) : bool :=
  match String.get n s with
  | None => (n =? String.length s)%nat
  | Some c => let b := Z.of_nat (Ascii.nat_of_ascii c) in negb ((128 <=? b) && (b <? 192))
  end.

Fixpoint char_boundary_below (s : string) (n : nat) : nat :=
  match n with
  | O => O
  | S n' => if is_char_boundary s n then n else char_boundary_below s n'
  end.

Definition clamp_process_name (s : string) : string :=
  if (String.length s <=? 256)%nat then s
  else String.substring 0 (char_boundary_below s 256) s +:+ "...".

Definition stack_base : Z := USER_STACK_TOP - USER_STACK_MAP_SIZE.

Definition Process_new (proc_name : string) (new_pid : Z) (par : option Z) (entry : Z) : stm E Process :=
  sp ← space_new_user;
  _ ← ignore (space_map_fixed sp stack_base [] USER_STACK_MAP_SIZE 3);
  mret (mkProcess new_pid new_pid new_pid (default new_pid par) (default new_pid par) par
    (clamp_process_name proc_name) "/"
    0 0 0 0 [] 0x12 Ready None sp ∅ ∅ (new_user_frame entry (USER_STACK_TOP - 16)) None None
    None 0 0 None ∅ None 0 None false None 0 None None None None false false false false 0 false None).

Definition reset_image (entry : Z) (stack_pointer : option Z) (p : Process) : stm E Process :=
  _ ← modify (space_clear (address_space p));
  _ ← ignore (space_map_fixed (address_space p) stack_base [] USER_STACK_MAP_SIZE 3);
  let sp := default (USER_STACK_TOP - 16) stack_pointer in
  mret (mkProcess (pid p) (tid p) (tgid p) (pgid p) (sid p) (parent p) (name p) (cwd p)
    (uid p) (euid p) (gid p) (egid p) (groups p) (umask p) Ready None (address_space p) (fds p) (fd_alias p)
    (new_user_frame entry sp) None None None 0 0 None ∅ None 0 None false None 0 None None None None
    (is_thread p) false false false (eintr_count p) (force_thread_exit p) (vfork_parent_tid p)).

(** The child of fork and vfork, once its address space is known. *)
Definition forked (p : Process) (new_pid : Z) (sp : A) (frame : TrapFrame) : Process :=
  mkProcess new_pid new_pid new_pid (pgid p) (sid p) (Some (tgid p)) (name p) (cwd p)
    (uid p) (euid p) (gid p) (egid p) (groups p) (umask p) Ready None sp (fds p) (fd_alias p) frame
    (tid_address p) (clear_child_tid p) (robust_list p) (signal_mask p) 0 (sigaltstack p) (signal_actions p)
    None 0 None false None 0 None None None None false false false false 0 false None.

Definition fork_from (p : Process) (new_pid : Z) : stm E Process :=
  frame ← lift (skip_ecall (set_retval 0 (trap_frame p)));
  sp ← space_clone_private (address_space p);
  _ ← modify (clone_fds (fds p));
  mret (forked p new_pid sp frame).

Definition fork_from_shared (p : Process) (new_pid : Z) : stm E Process :=
  frame ← lift (skip_ecall (set_retval 0 (trap_frame p)));
  _ ← modify (space_share (address_space p));
  _ ← modify (clone_fds (fds p));
  mret (forked p new_pid (address_space p) frame).

Definition clone_thread_from (p : Process) (new_tid stack : Z) (tls : option Z) : stm E Process :=
  _ ← modify (space_share (address_space p));
  fallback_sp ← (if stack =? 0 then fun e =>
                   match space_map_anonymous (address_space p) USER_STACK_MAP_SIZE 3 e with
                   | (Ok base, e') => (b ← uadd base USER_STACK_MAP_SIZE; usub b 16, e')
                   | (Err _, e') => (Ok (USER_STACK_TOP - 16), e')
                   | r => r
                   end
                 else mret (USER_STACK_TOP - 16));
  frame ← lift (skip_ecall (set_retval 0 (trap_frame p)));
  let frame := set_reg 2 (if stack =? 0 then fallback_sp else stack) frame in
  let frame := match tls with Some t => set_reg 4 t frame | None => frame end in
  _ ← modify (clone_fds (fds p));
  mret (mkProcess new_tid new_tid (tgid p) (pgid p) (sid p) (parent p) (name p) (cwd p)
    (uid p) (euid p) (gid p) (egid p) (groups p) (umask p) Ready None (address_space p) (fds p) (fd_alias p) frame
    None None None (signal_mask p) 0 (sigaltstack p) (signal_actions p)
    None 0 None false None 0 None None None None false false false false 0 false None).

(** [Drop] of a process: its handles and its reference to the space. *)
Definition drop_process (p : Process) (e : E) : E := space_drop (address_space p) (drop_fds (fds p) e).

End Process.

Arguments Process : clear implicits.

End Proc.
