(* ===== verification/KernelEnv.v ===== *)
(** * Files and memory of processes

    The interface [KernelEnv] of [Process], implemented by the file handles
    of [FileObject], the name space of [Vfs] and the address spaces of
    [AddrSpace].  An [Arc<Mutex<AddressSpaceInner>>] is a key with a
    reference count. *)

From S2P Require Import Prelude AddrSpace Path FileObject Vfs Process.

Open Scope Z_scope.

Module Kernel.
Import Mm Proc.

Section Env.
Context {M : Type} `{!Obj.Ext4Ops M} `{!HalMemory} (can_reserve : Z → bool).

Record kenv := mkEnv {
  k_spaces : gmap Z (AddressSpaceInner * Z);
  k_next : Z;
  k_mem : gmap Z Z;
  k_vfs : Vfs.KernelVfs M;
}.

Definition with_space (a : Z) (x : AddressSpaceInner * Z) (e : kenv) : kenv :=
  mkEnv (<[a := x]> (k_spaces e)) (k_next e) (k_mem e) (k_vfs e).
Definition with_vfs (v : Vfs.KernelVfs M) (e : kenv) : kenv := mkEnv (k_spaces e) (k_next e) (k_mem e) v.

(** [Arc::new] *)
Definition add_space (o : outcome AddressSpaceInner) : stm kenv Z := fun e =>
  match o with
  | Ok i => (Ok (k_next e), mkEnv (<[k_next e := (i, 1)]> (k_spaces e)) (k_next e + 1) (k_mem e) (k_vfs e))
  | Err x => (Err x, e)
  | Panic => (Panic, e)
  | Diverge => (Diverge, e)
  end.

Definition run_space {B} (a : Z) (m : stm space B) : stm kenv B := fun e =>
  match k_spaces e !! a with
  | Some (i, rc) =>
      let '(r, s) := m (mkSpace i (k_mem e)) in
      (r, mkEnv (<[a := (inner s, rc)]> (k_spaces e)) (k_next e) (kmem s) (k_vfs e))
  | None => (Panic, e)
  end.

Definition share_space (a : Z) (e : kenv) : kenv :=
  match k_spaces e !! a with Some (i, rc) => with_space a (i, rc + 1) e | None => e end.
Definition drop_space (a : Z) (e : kenv) : kenv :=
  match k_spaces e !! a with
  | Some (i, rc) =>
      if rc =? 1 then mkEnv (delete a (k_spaces e)) (k_next e) (k_mem e) (k_vfs e)
      else with_space a (i, rc - 1) e
  | None => e
  end.

(** [AddressSpace::is_shared] *)
Definition is_shared (a : Z) (e : kenv) : bool :=
  match k_spaces e !! a with Some (_, rc) => 1 <? rc | None => false end.

(** [Clone] and [Drop] of a handle adjust the counts of the node it refers
    to; a handle without a node, which a reachable name space does not have,
    is left alone. *)
Definition on_store (f : Obj.store M → outcome (Obj.store M)) (e : kenv) : kenv :=
  match f (Vfs.vstore (k_vfs e)) with Ok s => with_vfs (Vfs.set_vstore s (k_vfs e)) e | _ => e end.

#[global] Instance kernel_env : KernelEnv Obj.FileHandle Z kenv := {|
  handle_offset := Obj.h_offset;
  handle_set_offset o h := Obj.with_offset h o;
  handle_flags := Obj.h_flags;
  handle_clone h := on_store (fun s => snd <$> Obj.clone_handle s h);
  handle_drop h := on_store (fun s => Obj.drop_handle s h);
  space_new_user := add_space new_user;
  space_share := share_space;
  space_drop := drop_space;
  space_is_shared := is_shared;
  space_clone_private a e :=
    match k_spaces e !! a with Some (i, _) => add_space (clone_private i) e | None => (Panic, e) end;
  space_clear a e :=
    match k_spaces e !! a with Some (i, rc) => with_space a (clear i, rc) e | None => e end;
  space_read a addr n e :=
    match k_spaces e !! a with Some (i, _) => read_bytes can_reserve (mkSpace i (k_mem e)) addr n | None => Panic end;
  space_write a addr bs := run_space a (write_bytes addr bs);
  space_map_fixed a addr bs n prot := run_space a (map_fixed_bytes can_reserve addr bs n prot);
  space_map_anonymous a n prot := run_space a (map_anonymous can_reserve n prot);
  space_clone_bytes a e :=
    match k_spaces e !! a with Some (i, _) => estimated_private_clone_bytes i | None => Panic end;
|}.

End Env.
Arguments kenv : clear implicits.

End Kernel.
