(* ===== verification/ProcTable.v ===== *)
(** * The process table (crates/proc/src/lib.rs: [ProcessTable])

    Creation, fork, thread creation, exec, exit and wait, credentials,
    signals, futex queues, interval timers and the forced exit of process
    subtrees.  [table] is the table together with the state of files and
    memory. *)

From S2P Require Import Prelude AddrSpace Path FileObject Process.

Open Scope string_scope.
Open Scope list_scope.
Open Scope Z_scope.

Module PTable.
Import Proc.

Definition SIGCHLD : Z := 17.
Definition U64_MAX : Z := 2 ^ 64 - 1.

Inductive WaitSelector := SelAny | SelPid (pid : Z) | SelPgid (pgid : Z).

Record ThreadExit := mkThreadExit {
  te_tid : Z; te_tgid : Z; te_clear_child_tid : option Z; te_tid_address : option Z;
  te_robust_futex_addrs : list Z; te_group_exited : bool; te_parent_tgid : option Z;
  te_vfork_parent_tid : option Z }.

Record GroupExit := mkGroupExit {
  ge_tgid : Z; ge_tids : list Z; ge_clear_child_tids : list Z; ge_robust_futex_addrs : list Z;
  ge_parent_tgid : option Z; ge_vfork_parent_tid : option Z }.

Definition selector_from_wait_pid (p current_pgid : Z) : WaitSelector :=
  if p =? -1 then SelAny
  else if p =? 0 then SelPgid current_pgid
  else if 0 <? p then SelPid p
  else SelPgid (- p).

(** A 32-bit signed value. *)
Definition as_i32 (z : Z) : Z := let m := z mod 2 ^ 32 in if m <? 2 ^ 31 then m else m - 2 ^ 32.

Definition wait_status_from_signal (signum : Z) : Z :=
  Z.lor (Z.land (as_i32 signum) 0x7f)
    (if existsb (Z.eqb signum) [3; 4; 6; 7; 8; 11; 24; 25; 31] then 0x80 else 0).

(** Set and clear bit [n] of a 64-bit mask. *)
Definition bit64 (n : Z) : Z := Z.shiftl 1 n.
Definition andnot64 (a b : Z) : Z := Z.ldiff a b.

(** [u64::trailing_zeros] of a non-zero word. *)
Fixpoint trailing_zeros (fuel : nat) (z : Z) : Z :=
  match fuel with
  | O => 0
  | S fuel' => if Z.testbit z 0 then 0 else 1 + trailing_zeros fuel' (Z.shiftr z 1)
  end.

Section Table.
Context {H A E : Type} `{!KernelEnv H A E}.
Abbreviation Process := (Process H A).
Implicit Types (p : Process).

Record table := mkTable {
  next_pid : Z;
  current_tid : Z;
  processes : gmap Z Process;
  futex_waiters : gmap Z (list Z);
  env : E;
}.

Definition with_next_pid (x : Z) (t : table) := mkTable x (current_tid t) (processes t) (futex_waiters t) (env t).
Definition with_current (x : Z) (t : table) := mkTable (next_pid t) x (processes t) (futex_waiters t) (env t).
Definition with_processes (x : gmap Z Process) (t : table) := mkTable (next_pid t) (current_tid t) x (futex_waiters t) (env t).
Definition with_futex (x : gmap Z (list Z)) (t : table) := mkTable (next_pid t) (current_tid t) (processes t) x (env t).
Definition with_env (x : E) (t : table) := mkTable (next_pid t) (current_tid t) (processes t) (futex_waiters t) x.

Abbreviation tstm := (stm table).

(** Code that works on files and memory only. *)
Definition on_env {B} (m : stm E B) : tstm B := fun t => let '(r, e) := m (env t) in (r, with_env e t).

Definition procs (t : table) : list Process := values (processes t).

Definition put_process (k : Z) (p : Process) : tstm unit := modify (fun t => with_processes (<[k := p]> (processes t)) t).

(** [values_mut().filter(|p| p.tgid == tgid)] *)
Definition update_group (g : Z) (f : Process → Process) : tstm unit :=
  modify (fun t => with_processes ((fun p => if tgid p =? g then f p else p) <$> processes t) t).

(** ** Access *)
Definition current (t : table) : outcome Process := ok_or (processes t !! current_tid t) EBADF.

(** [self.current_mut()?] followed by an update *)
Definition update_current (f : Process → Process) : tstm unit :=
  t ← get;
  p ← lift (current t);
  put_process (current_tid t) (f p).

Definition current_tid_of (t : table) : outcome Z := tid <$> current t.
Definition current_tgid (t : table) : outcome Z := tgid <$> current t.
Definition current_pgid (t : table) : outcome Z := pgid <$> current t.

Definition has_pid (t : table) (k : Z) : bool :=
  bool_decide (is_Some (processes t !! k)) || existsb (fun p => tgid p =? k) (procs t).

Definition find_process_by_pid (t : table) (k : Z) : outcome Process :=
  match processes t !! k with
  | Some p => Ok p
  | None => ok_or (find_first (fun p => negb (is_thread p) && (tgid p =? k)) (procs t)) ENOENT
  end.

(** The key of the process [find_process_by_pid_mut] returns. *)
Definition find_tid_by_pid (t : table) (k : Z) : outcome Z :=
  match processes t !! k with
  | Some _ => Ok k
  | None => ok_or (find_map (fun '(i, p) => if negb (is_thread p) && (tgid p =? k) then Some i else None)
                     (items (processes t))) ENOENT
  end.

Definition resolve_target_tid (t : table) (k : Z) : outcome Z :=
  let by_group :=
    ok_or (tid <$> find_first (fun p => (tgid p =? k) && negb (is_thread p) &&
                                        negb (bool_decide (state p = Exited))) (procs t)) ESRCH in
  match processes t !! k with
  | Some p => if bool_decide (state p = Exited) then by_group else Ok k
  | None => by_group
  end.

Definition set_current (k : Z) : tstm unit :=
  t ← get;
  match processes t !! k with Some _ => put (with_current k t) | None => fail EBADF end.

Definition next_id : tstm Z :=
  t ← get;
  n ← lift (uadd (next_pid t) 1);
  _ ← put (with_next_pid n t);
  mret (next_pid t).

Definition tids_of_group (t : table) (g : Z) : list Z :=
  omap (fun '(k, p) => if tgid p =? g then Some k else None) (items (processes t)).

Definition task_count (t : table) : Z := zlen (List.filter (fun p => negb (bool_decide (state p = Exited))) (procs t)).
Definition process_count (t : table) : Z :=
  zlen (List.filter (fun p => negb (is_thread p) && negb (bool_decide (state p = Exited))) (procs t)).
Definition live_tids_in_tgid (t : table) (g : Z) : list Z :=
  tid <$> List.filter (fun p => (tgid p =? g) && negb (bool_decide (state p = Exited))) (procs t).
Definition duplicate_fd_from (k fd : Z) : tstm H :=
  t ← get;
  p ← lift (find_process_by_pid t k);
  h ← lift (fd_get p fd);
  _ ← modify (fun t => with_env (handle_clone h (env t)) t);
  mret h.

(** ** Creation *)
Definition new (e : E) : table := mkTable 1 0 ∅ ∅ e.

Definition spawn (proc_name : string) (par : option Z) (entry : Z) : tstm Z :=
  k ← next_id;
  p ← on_env (Process_new proc_name k par entry);
  _ ← put_process k p;
  _ ← modify (fun t => if current_tid t =? 0 then with_current k t else t);
  mret k.

Definition spawn_init (proc_name : string) (entry : Z) : tstm Z := spawn proc_name None entry.

Definition fork_process_from_current : tstm Z :=
  k ← next_id;
  t ← get;
  p ← lift (current t);
  clone_bytes ← lift (space_clone_bytes (address_space p) (env t));
  if (0 <? clone_bytes) && (FORK_CLONE_BUDGET_BYTES <? saturating_mul (task_count t) clone_bytes)
  then fail EAGAIN
  else
    c ← on_env (fork_from p k);
    _ ← put_process k c;
    mret k.

Definition fork_process_from_current_shared : tstm Z :=
  k ← next_id;
  t ← get;
  p ← lift (current t);
  c ← on_env (fork_from_shared p k);
  _ ← put_process k c;
  mret k.

Definition clone_thread_from_current (stack : Z) (tls : option Z) : tstm Z :=
  k ← next_id;
  t ← get;
  p ← lift (current t);
  c ← on_env (clone_thread_from p k stack tls);
  _ ← put_process k c;
  mret k.

Definition set_thread_stack_pointer (k sp : Z) : tstm unit :=
  t ← get;
  p ← lift (ok_or (processes t !! k) EBADF);
  put_process k (set_frame (set_reg 2 sp (trap_frame p)) p).

(** ** vfork *)
Definition set_vfork_parent_tid (child_tid parent_tid : Z) : tstm unit :=
  t ← get;
  p ← lift (ok_or (processes t !! child_tid) ENOENT);
  put_process child_tid (set_vfork_parent (Some parent_tid) p).

Definition release_vfork_parent_for_tgid (g : Z) (t : table) : option Z * table :=
  (find_map (fun k => p ← processes t !! k; vfork_parent_tid p) (tids_of_group t g),
   with_processes ((fun p => if tgid p =? g then set_vfork_parent None p else p) <$> processes t) t).

Definition release_current_vfork_parent : tstm (option Z) :=
  t ← get;
  g ← lift (current_tgid t);
  let '(o, t') := release_vfork_parent_for_tgid g t in
  _ ← put t';
  mret o.

(** ** Futex queues *)
Definition put_queue (addr : Z) (q : list Z) (m : gmap Z (list Z)) : gmap Z (list Z) :=
  match q with [] => delete addr m | _ => <[addr := q]> m end.

Definition remove_futex_waiter_at (addr k : Z) (m : gmap Z (list Z)) : gmap Z (list Z) :=
  match m !! addr with
  | Some q => put_queue addr (filter (fun w => w ≠ k) q) m
  | None => m
  end.

Definition remove_futex_waiter (k : Z) (m : gmap Z (list Z)) : gmap Z (list Z) :=
  foldl (fun m addr => remove_futex_waiter_at addr k m) m (keys m).

Definition enqueue_futex_waiter (addr k : Z) (m : gmap Z (list Z)) : gmap Z (list Z) :=
  let q := default [] (m !! addr) in
  <[addr := if existsb (Z.eqb k) q then q else q ++ [k]]> m.

Definition wake_futex (addr count : Z) (m : gmap Z (list Z)) : list Z * gmap Z (list Z) :=
  match m !! addr with
  | Some q => (take (Z.to_nat count) q, put_queue addr (drop (Z.to_nat count) q) m)
  | None => ([], m)
  end.

Definition is_futex_waiting (addr k : Z) (m : gmap Z (list Z)) : bool :=
  match m !! addr with Some q => existsb (Z.eqb k) q | None => false end.

Definition requeue_futex (from to wake_count requeue_count : Z) (m : gmap Z (list Z))
  : list Z * gmap Z (list Z) :=
  let '(woke, m) := wake_futex from wake_count m in
  let '(moved, m) := wake_futex from requeue_count m in
  (woke, match moved with [] => m | _ => <[to := default [] (m !! to) ++ moved]> m end).

Definition forget_waiter (k : Z) : tstm unit :=
  modify (fun t => with_futex (remove_futex_waiter k (futex_waiters t)) t).

(** [self.processes.remove(&tid)] *)
Definition remove_process (k : Z) : tstm unit := modify (fun t =>
  match processes t !! k with
  | Some p => with_env (drop_process p (env t)) (with_processes (delete k (processes t)) t)
  | None => t
  end).

Fixpoint for_each {B} (l : list B) (f : B → tstm unit) : tstm unit :=
  match l with
  | [] => mret tt
  | x :: l' => _ ← f x; for_each l' f
  end.

(** ** Exec *)
Definition execve_current_image (entry : Z) (stack_pointer : option Z) : tstm unit :=
  t ← get;
  g ← lift (current_tgid t);
  me ← lift (current_tid_of t);
  _ ← for_each (filter (fun k => k ≠ me) (tids_of_group t g))
        (fun k => _ ← remove_process k; forget_waiter k);
  t ← get;
  p ← lift (current t);
  sp ← (if space_is_shared (address_space p) (env t) then
          sp ← on_env (space_clone_private (address_space p));
          _ ← on_env (modify (space_drop (address_space p)));
          mret sp
        else mret (address_space p));
  let kept := filter (fun '(_, h) => Z.land (handle_flags h) HANDLE_FLAG_CLOEXEC = 0) (fds p) in
  let closed := filter (fun '(_, h) => Z.land (handle_flags h) HANDLE_FLAG_CLOEXEC ≠ 0) (fds p) in
  _ ← on_env (modify (drop_fds closed));
  p ← on_env (reset_image entry stack_pointer (set_fds kept (set_space sp p)));
  put_process (current_tid t) (set_leader false (tgid p) p).

(** ** Signals *)
Definition add_pending (signal : Z) (p : Process) : Process :=
  set_pending (Z.lor (pending_signals p) (bit64 (signal - 1))) p.

Definition send_signal_tid (k signal : Z) : tstm Z :=
  if 64 <? signal then fail EINVAL
  else
    t ← get;
    target ← lift (resolve_target_tid t k);
    if signal =? 0 then mret target
    else
      p ← lift (ok_or (processes t !! target) ENOENT);
      if bool_decide (state p = Exited) then fail ESRCH
      else _ ← put_process target (add_pending signal p); mret target.

Definition send_signal_exact_tid (k signal : Z) : tstm Z :=
  if 64 <? signal then fail EINVAL
  else
    t ← get;
    p ← lift (ok_or (processes t !! k) ESRCH);
    if bool_decide (state p = Exited) then fail ESRCH
    else if signal =? 0 then mret k
    else _ ← put_process k (add_pending signal p); mret k.

Definition send_signal (k signal : Z) : tstm unit := _ ← send_signal_tid k signal; mret tt.

(** Deliver to every process selected by [sel]. *)
Definition broadcast (sel : Process → bool) (signal : Z) : tstm (list Z) :=
  if 64 <? signal then fail EINVAL
  else
    t ← get;
    match tid <$> List.filter (fun p => negb (is_thread p) && negb (bool_decide (state p = Exited)) && sel p) (procs t) with
    | [] => fail ESRCH
    | targets =>
        if signal =? 0 then mret targets
        else
          _ ← put (with_processes (foldl (fun m k => alter (add_pending signal) k m) (processes t) targets) t);
          mret targets
    end.

Definition not_excluded (exclude : option Z) (p : Process) : bool :=
  match exclude with Some g => negb (tgid p =? g) | None => true end.

Definition send_signal_pgid (g signal : Z) (exclude_tgid : option Z) : tstm (list Z) :=
  broadcast (fun p => (pgid p =? g) && not_excluded exclude_tgid p) signal.

Definition send_signal_all (signal : Z) (exclude_tgid : option Z) (include_init : bool) : tstm (list Z) :=
  broadcast (fun p => (include_init || (1 <? tgid p)) && not_excluded exclude_tgid p) signal.

Definition pending (t : table) : outcome Z :=
  p ← current t; Ok (andnot64 (pending_signals p) (signal_mask p)).

Definition bad_signal (signal : Z) : bool := (signal =? 0) || (64 <? signal).

Definition clear_pending_signal (signal : Z) : tstm unit :=
  if bad_signal signal then fail EINVAL
  else update_current (fun p => set_pending (andnot64 (pending_signals p) (bit64 (signal - 1))) p).

Definition dequeue_unmasked_signal : tstm (option Z) :=
  t ← get;
  w ← lift (pending t);
  if w =? 0 then mret None
  else
    let signal := trailing_zeros 64 w + 1 in
    _ ← clear_pending_signal signal;
    mret (Some signal).

Definition set_sigaction (signal : Z) (action : SigAction) : tstm unit :=
  if bad_signal signal then fail EINVAL
  else
    t ← get;
    g ← lift (current_tgid t);
    update_group g (fun p => set_actions (<[signal := action]> (signal_actions p)) p).

Definition sigaction (t : table) (signal : Z) : outcome SigAction :=
  if bad_signal signal then Err EINVAL
  else p ← current t; Ok (default no_action (signal_actions p !! signal)).

Definition set_signal_mask (mask : Z) : tstm unit := update_current (set_mask mask).
Definition set_clear_child_tid (addr : option Z) : tstm unit := update_current (set_clear_tid addr).
Definition set_sigaltstack (stack : option (Z * Z * Z)) : tstm (option (Z * Z * Z)) :=
  t ← get;
  p ← lift (current t);
  _ ← put_process (current_tid t) (set_altstack stack p);
  mret (sigaltstack p).

(** ** Exit *)
Definition exit_process (code : Z) (p : Process) : Process := set_fds ∅ (set_exit Exited (Some code) p).

(** What every thread of a dying group goes through; the reported addresses
    are added to [acc]. *)
Definition exit_member (code : Z) (k : Z) (acc : list Z) : tstm (list Z) :=
  t ← get;
  acc ← match processes t !! k with
        | Some p =>
            addrs ← on_env (collect_robust_futex_addrs_for_exit p);
            _ ← match clear_child_tid p with
                | Some addr => on_env (try_write p addr (to_le_bytes 4 0))
                | None => mret tt
                end;
            _ ← on_env (modify (drop_fds (fds p)));
            _ ← on_env (modify (space_clear (address_space p)));
            _ ← put_process k (exit_process code p);
            mret (foldl push_unique_addr acc addrs)
        | None => mret acc
        end;
  _ ← forget_waiter k;
  mret acc.

Fixpoint exit_members (code : Z) (ks : list Z) (acc : list Z) : tstm (list Z) :=
  match ks with
  | [] => mret acc
  | k :: ks' => acc ← exit_member code k acc; exit_members code ks' acc
  end.

(** [let _ = self.send_signal(..)] *)
Definition notify_parent (par : option Z) : tstm unit :=
  match par with
  | Some g => fun t => match send_signal g SIGCHLD t with
                       | (Ok _, t') | (Err _, t') => (Ok tt, t')
                       | (Panic, t') => (Panic, t')
                       | (Diverge, t') => (Diverge, t')
                       end
  | None => mret tt
  end.

Definition exit_current_process_group (code : Z) : tstm ThreadExit :=
  t ← get;
  p ← lift (current t);
  addrs ← exit_members code (tids_of_group t (tgid p)) [];
  _ ← notify_parent (parent p);
  mret (mkThreadExit (tid p) (tgid p) (clear_child_tid p) (tid_address p) addrs true (parent p) (vfork_parent_tid p)).

Definition clear_spaces (ps : list Process) (e : E) : E := foldl (fun e p => space_clear (address_space p) e) e ps.

Definition exit_current_thread (code : Z) : tstm ThreadExit :=
  t ← get;
  p ← lift (current t);
  addrs ← on_env (collect_robust_futex_addrs_for_exit p);
  _ ← match clear_child_tid p with
      | Some addr => on_env (try_write p addr (to_le_bytes 4 0))
      | None => mret tt
      end;
  _ ← forget_waiter (tid p);
  _ ← on_env (modify (drop_fds (fds p)));
  _ ← put_process (current_tid t) (exit_process code p);
  t ← get;
  let group_alive := existsb (fun q => (tgid q =? tgid p) && negb (tid q =? tid p) &&
                                       negb (bool_decide (state q = Exited))) (procs t) in
  _ ← (if group_alive then mret tt
       else
         _ ← on_env (modify (clear_spaces (List.filter (fun q => tgid q =? tgid p) (procs t))));
         _ ← update_group (tgid p) (set_exit Exited (Some code));
         notify_parent (parent p));
  mret (mkThreadExit (tid p) (tgid p) (clear_child_tid p) (tid_address p) addrs (negb group_alive) (parent p)
          (vfork_parent_tid p)).

Definition force_exit_group (g code : Z) : tstm (option GroupExit) :=
  t ← get;
  match tids_of_group t g with
  | [] => mret None
  | k :: ks =>
      let first := processes t !! k in
      let par := p ← first; parent p in
      let clears := omap (fun k => p ← processes t !! k; clear_child_tid p) (k :: ks) in
      addrs ← exit_members code (k :: ks) [];
      _ ← notify_parent par;
      mret (Some (mkGroupExit g (k :: ks) clears addrs par (p ← first; vfork_parent_tid p)))
  end.

(** ** Process trees *)
Definition live_leader (p : Process) : bool := negb (is_thread p) && negb (bool_decide (state p = Exited)).

(** The groups whose parent is [g]. *)
Definition children_of (t : table) (g : Z) : list Z :=
  omap (fun p => if live_leader p && bool_decide (parent p = Some g) && negb (tgid p =? g)
                 then Some (tgid p) else None) (procs t).

(** Breadth-first search; each group enters [out] once. *)
Fixpoint bfs (fuel : nat) (t : table) (queue out : list Z) : outcome (list Z) :=
  match fuel with
  | O => Diverge
  | S fuel' =>
      match queue with
      | [] => Ok out
      | g :: queue' =>
          if existsb (Z.eqb g) out then bfs fuel' t queue' out
          else bfs fuel' t (queue' ++ children_of t g) (out ++ [g])
      end
  end.

Definition descendant_process_groups (t : table) (root_tgid : Z) : outcome (list Z) :=
  if existsb (fun p => live_leader p && (tgid p =? root_tgid)) (procs t)
  then bfs (S (S (length (procs t)))) t [root_tgid] []
  else Ok [].

Definition has_child_process_group (t : table) (g : Z) : bool :=
  existsb (fun p => live_leader p && bool_decide (parent p = Some g) && negb (tgid p =? g)) (procs t).

Definition active_process_group_count_in (t : table) (groups : list Z) : Z :=
  zlen (List.filter (fun p => live_leader p && existsb (Z.eqb (tgid p)) groups) (procs t)).

Fixpoint force_exit_each (gs : list Z) (code : Z) : tstm (list GroupExit) :=
  match gs with
  | [] => mret []
  | g :: gs' =>
      o ← force_exit_group g code;
      rest ← force_exit_each gs' code;
      mret (match (o : option GroupExit) with Some x => x :: rest | None => rest end)
  end.

Definition force_exit_subtree (root_tgid code : Z) : tstm (list GroupExit) :=
  t ← get;
  groups ← lift (descendant_process_groups t root_tgid);
  force_exit_each (reverse groups) code.

(** ** Wait *)
Definition selector_matches (sel : WaitSelector) (p : Process) : bool :=
  match sel with
  | SelAny => true
  | SelPid k => tgid p =? k
  | SelPgid g => pgid p =? g
  end.

Definition is_child (parent_tgid : Z) (sel : WaitSelector) (p : Process) : bool :=
  negb (is_thread p) && bool_decide (parent p = Some parent_tgid) && selector_matches sel p.

Definition reap_thread_group (g : Z) : tstm unit :=
  t ← get;
  let init_tgid := default 1 (tgid <$> find_first (fun p => negb (is_thread p) && bool_decide (parent p = None)) (procs t)) in
  _ ← modify (fun t => with_processes ((fun p =>
        if live_leader p && bool_decide (parent p = Some g) && negb (tgid p =? g)
        then set_parent (Some init_tgid) p else p) <$> processes t) t);
  t ← get;
  for_each (tids_of_group t g) (fun k => _ ← remove_process k; forget_waiter k).

(** [-exit_code] overflows for the least [i32]; [<<] drops the high bits. *)
Definition wait_status (exit_code : Z) : outcome Z :=
  if exit_code <? 0 then
    if exit_code =? - 2 ^ 31 then Panic else Ok (wait_status_from_signal (- exit_code))
  else Ok (as_i32 (Z.shiftl exit_code 8)).

Definition wait_child (parent_tgid : Z) (sel : WaitSelector) : tstm (Z * Z) :=
  t ← get;
  match find_first (fun p => is_child parent_tgid sel p && bool_decide (state p = Exited)) (procs t) with
  | None => if existsb (is_child parent_tgid sel) (procs t) then mret (0, 0) else fail ECHILD
  | Some c =>
      let code := default 0 (p ← processes t !! tgid c; exit_code p) in
      status ← lift (wait_status code);
      _ ← reap_thread_group (tgid c);
      mret (tgid c, status)
  end.

Definition wait (parent_pid k : Z) : tstm (Z * Z) :=
  t ← get;
  p ← lift (find_process_by_pid t parent_pid);
  wait_child parent_pid (selector_from_wait_pid k (pgid p)).

(** ** Attributes of the calling process *)
Definition getppid (t : table) : outcome Z := p ← current t; Ok (default 0 (parent p)).

Definition set_tid_address (addr : Z) : tstm Z :=
  t ← get;
  p ← lift (current t);
  _ ← update_current (set_tid_addr (Some addr) (Some addr));
  mret (tid p).

Definition set_robust_list (head len : Z) : tstm unit :=
  if len =? 0 then fail EINVAL else update_current (set_robust (Some (head, len))).

Definition target (t : table) (k : Z) : outcome Process :=
  if k =? 0 then current t else find_process_by_pid t k.

Definition get_robust_list (t : table) (k : Z) : outcome (Z * Z) :=
  p ← target t k; ok_or (robust_list p) EINVAL.
Definition getpgid (t : table) (k : Z) : outcome Z := pgid <$> target t k.
Definition getsid (t : table) (k : Z) : outcome Z := sid <$> target t k.

Definition setpgid (k g : Z) : tstm unit :=
  t ← get;
  k ← (if k =? 0 then lift (current_tgid t) else mret k);
  i ← lift (find_tid_by_pid t k);
  modify (fun t => with_processes (alter (set_pgid (if g =? 0 then k else g)) i (processes t)) t).

Definition setsid_current : tstm Z :=
  t ← get;
  g ← lift (current_tgid t);
  _ ← update_group g (fun p => set_pgid g (set_sid g p));
  mret g.

Definition setuid_current (u : Z) : tstm unit :=
  t ← get;
  g ← lift (current_tgid t);
  update_group g (fun p => set_euid u (set_uid u p)).

Definition setgid_current (x : Z) : tstm unit :=
  t ← get;
  g ← lift (current_tgid t);
  update_group g (fun p => set_egid x (set_gid x p)).

(** The permission check of [setresuid_current] and [setresgid_current] on
    the current real and effective id and the requested ones. *)
Definition refused (real eff target_real target_eff : Z) : bool :=
  negb ((real =? 0) || (eff =? 0)) &&
  negb (target_real =? real) && negb (target_real =? eff) &&
  negb (target_eff =? real) && negb (target_eff =? eff).

Definition opt_set (f : Z → Process → Process) (o : option Z) (p : Process) : Process :=
  match o with Some x => f x p | None => p end.

Definition setresuid_current (ruid eu : option Z) : tstm unit :=
  t ← get;
  c ← lift (current t);
  if refused (uid c) (euid c) (default (uid c) ruid) (default (euid c) eu) then fail EPERM
  else update_group (tgid c) (fun p => opt_set set_euid eu (opt_set set_uid ruid p)).

Definition setresgid_current (rgid eg : option Z) : tstm unit :=
  t ← get;
  c ← lift (current t);
  if refused (gid c) (egid c) (default (gid c) rgid) (default (egid c) eg) then fail EPERM
  else update_group (tgid c) (fun p => opt_set set_egid eg (opt_set set_gid rgid p)).

Definition setgroups_current (gs : list Z) : tstm unit :=
  t ← get;
  g ← lift (current_tgid t);
  update_group g (set_groups gs).

Definition umask_current (mask : Z) : tstm Z :=
  t ← get;
  p ← lift (current t);
  _ ← put_process (current_tid t) (set_umask (Z.land mask 0x1ff) p);
  mret (umask p).

(** ** Timers *)
Definition expired (now : Z) (deadline : option Z) : bool :=
  match deadline with Some d => negb (d =? U64_MAX) && (d <=? now) | None => false end.

Definition set_itimer_real_current (deadline : option Z) (interval : Z) : tstm unit :=
  t ← get;
  g ← lift (current_tgid t);
  update_group g (set_itimer deadline interval).

Definition timed_wait_expired_tids (t : table) (now : Z) : list Z :=
  omap (fun p => if expired now (sleep_deadline_ns p) || expired now (futex_wait_deadline_ns p) ||
                    expired now (epoll_wait_deadline_ns p) then Some (tid p) else None) (procs t).

Definition expired_itimer_real_tgids (t : table) (now : Z) : list Z :=
  foldl (fun acc p => if expired now (itimer_real_deadline_ns p) && negb (existsb (Z.eqb (tgid p)) acc)
                      then acc ++ [tgid p] else acc) [] (procs t).

Definition consume_itimer_real_expiry (g now : Z) : tstm unit :=
  update_group g (fun p =>
    if expired now (itimer_real_deadline_ns p) then
      set_itimer (if itimer_real_interval_ns p =? 0 then None
                  else Some (Z.min (now + itimer_real_interval_ns p) U64_MAX))
        (itimer_real_interval_ns p) p
    else p).

(** ** Blocked threads *)
Definition clear_futex_wait_state (k : Z) (t : table) : table :=
  match processes t !! k with
  | Some p =>
      let t := with_processes (<[k := set_futex_wait None None 0 p]> (processes t)) t in
      match futex_wait_addr p with
      | Some addr => with_futex (remove_futex_waiter_at addr k (futex_waiters t)) t
      | None => t
      end
  | None => t
  end.

Definition wake_all_futex_waiters_in_tgid (g : Z) (t : table) : list Z * table :=
  let ks := tid <$> List.filter (fun p => (tgid p =? g) && bool_decide (is_Some (futex_wait_addr p)) &&
                                          negb (bool_decide (state p = Exited))) (procs t) in
  (ks, foldl (fun t k => clear_futex_wait_state k t) t ks).

Definition interrupted (p : Process) : bool :=
  negb (andnot64 (pending_signals p) (signal_mask p) =? 0).

Definition futex_blocked_with_pending_signal_tids (t : table) : list Z :=
  tid <$> List.filter (fun p => bool_decide (is_Some (futex_wait_addr p)) &&
     (interrupted p || signal_frame_pending p || cancel_signal_seen p || cancellation_in_progress p) &&
     negb (bool_decide (state p = Exited))) (procs t).

Definition sigsuspend_blocked_with_pending_signal_tids (t : table) : list Z :=
  tid <$> List.filter (fun p => bool_decide (is_Some (sigsuspend_saved_mask p)) && interrupted p &&
     negb (bool_decide (state p = Exited))) (procs t).

Definition all_blocked_are_futex_waiters (t : table) (ks : list Z) : bool :=
  match ks with
  | [] => false
  | _ => forallb (fun k => match processes t !! k with
                           | Some p => bool_decide (is_Some (futex_wait_addr p))
                           | None => false
                           end) ks
  end.

(** Living threads of each group, and those among them in a futex wait. *)
Definition thread_counts (t : table) : gmap Z (Z * Z) :=
  foldl (fun m p =>
    if bool_decide (state p = Exited) then m
    else
      let '(total, waiting) := default (0, 0) (m !! tgid p) in
      <[tgid p := (total + 1, if bool_decide (is_Some (futex_wait_addr p)) then waiting + 1 else waiting)]> m)
    ∅ (procs t).

Definition tgids_with_all_threads_futex_blocked (t : table) : list Z :=
  omap (fun '(g, (total, waiting)) => if (1 <? total) && (waiting =? total) then Some g else None)
    (items (thread_counts t)).

Definition tids_in_tgid_with_futex_wait (t : table) (g : Z) : list Z :=
  tid <$> List.filter (fun p => (tgid p =? g) && bool_decide (is_Some (futex_wait_addr p))) (procs t).

End Table.
Arguments table : clear implicits.

End PTable.
