(* ===== verification/ProcSpec.v ===== *)
(** * Properties of processes

    The table invariant over all operations, wait and reaping, signals,
    futex queues, credentials and descriptor aliases, over the definitions
    of [Process] and [ProcTable]. *)

From S2P Require Import Prelude AddrSpace Path FileObject Process ProcTable.

Open Scope string_scope.
Open Scope list_scope.
Open Scope Z_scope.

Module ProcSpec.
Import Proc PTable.

(** ** The table invariant *)
Section Inv.
Context {H A E : Type} `{!KernelEnv H A E}.
Implicit Types (t : table H A E) (p : Process H A).

(** Processes are filed under their thread id, ids are below the next one to
    be given out, and no futex queue is empty. *)
Record wf t : Prop := mkWf {
  wf_tid : ∀ k p, processes t !! k = Some p → tid p = k;
  wf_fresh : ∀ k p, processes t !! k = Some p → 1 ≤ k < next_pid t;
  wf_next : 1 ≤ next_pid t;
  wf_queues : ∀ addr q, futex_waiters t !! addr = Some q → q ≠ [];
}.

(** Ids are never reused. *)
Definition later t t' : Prop := next_pid t ≤ next_pid t'.
#[global] Instance later_preorder : PreOrder later.
Proof. split; unfold later; [intros ?; lia|intros ???; lia]. Qed.

Abbreviation Tkeeps := (keeps wf later).
Abbreviation ttrue := (fun _ (_ : table H A E) => True).

(** An update that keeps the thread id. *)
Definition same_tid (f : Process H A → Process H A) : Prop := ∀ p, tid (f p) = tid p.

Lemma tlift_keeps {B} t (o : outcome B) : Tkeeps t (lift o) (fun a t' => o = Ok a ∧ t' = t).
Proof. apply keeps_reads; [apply _|]. by split. Qed.
Lemma tget_keeps t : Tkeeps t get (fun a t' => a = t ∧ t' = t).
Proof. apply keeps_get; [apply _|]. by split. Qed.

Lemma on_env_keeps {B} t (m : stm E B) :
  Tkeeps t (on_env m) (fun a t' => (m (env t)).1 = Ok a ∧ processes t' = processes t ∧ next_pid t' = next_pid t ∧
                                   current_tid t' = current_tid t).
Proof.
  intros [Ht Hf Hn Hq]. unfold on_env. destruct (m (env t)) as [r e]. simpl.
  split_and!; [by split|by apply Z.le_refl|]. intros a ->. done.
Qed.

Lemma put_process_keeps t k p :
  tid p = k → (is_Some (processes t !! k) ∨ 1 ≤ k < next_pid t) → Tkeeps t (put_process k p) ttrue.
Proof.
  intros Hk Hin. apply keeps_modify. intros [Ht Hf Hn Hq]. split_and!; [|by apply Z.le_refl|done]. split; simpl; [| |done|done].
  - intros k' p'. rewrite lookup_insert_Some. naive_solver.
  - intros k' p'. rewrite lookup_insert_Some. intros [[<- <-]|[_ Hp]]; [|by eapply Hf].
    destruct Hin as [[q Hp]|]; [by eapply Hf|done].
Qed.

Lemma fmap_processes_wf t (f : Process H A → Process H A) :
  same_tid f → wf t → wf (with_processes (f <$> processes t) t).
Proof.
  intros Hf [Ht Hfr Hn Hq]. split; simpl; [| |done|done]; intros k p.
  - rewrite lookup_fmap_Some. intros (q & <- & Hp). rewrite Hf. by apply Ht.
  - rewrite lookup_fmap_Some. intros (q & <- & Hp). by eapply Hfr.
Qed.

Lemma update_group_keeps t g f : same_tid f → Tkeeps t (update_group g f) ttrue.
Proof.
  intros Hf. apply keeps_modify. intros Hwf. split_and!; [|by apply Z.le_refl|done].
  apply fmap_processes_wf; [|done]. intros p. destruct (_ =? _); auto.
Qed.

Lemma current_lookup t p : current t = Ok p → processes t !! current_tid t = Some p.
Proof. unfold current. destruct (processes t !! current_tid t); simpl; naive_solver. Qed.

Lemma update_current_keeps t f : same_tid f → Tkeeps t (update_current f) ttrue.
Proof.
  intros Hf. unfold update_current. eapply keeps_bind; [apply _|apply tget_keeps|].
  intros a t' Hwf _ [-> ->]. eapply keeps_bind; [apply _|apply tlift_keeps|].
  intros p t' _ _ [Hp%current_lookup ->]. apply put_process_keeps; [|eauto].
  rewrite Hf. by apply (wf_tid _ Hwf).
Qed.

Lemma alter_processes_wf t k f :
  same_tid f → wf t → wf (with_processes (alter f k (processes t)) t).
Proof.
  intros Hf [Ht Hfr Hn Hq]. split; simpl; [| |done|done]; intros j p.
  - rewrite lookup_alter_Some. intros [(<- & q & Hp & ->)|[_ Hp]]; [rewrite Hf|]; by apply Ht.
  - rewrite lookup_alter_Some. intros [(<- & q & Hp & ->)|[_ Hp]]; by eapply Hfr.
Qed.

Lemma delete_process_wf t k e :
  wf t → wf (with_env e (with_processes (delete k (processes t)) t)).
Proof.
  intros [Ht Hfr Hn Hq]. split; simpl; [| |done|done]; intros j p [_ Hp]%lookup_delete_Some;
    [by apply Ht|by eapply Hfr].
Qed.

Lemma next_id_keeps t :
  Tkeeps t next_id (fun k t' => 1 ≤ k < next_pid t' ∧ processes t' = processes t ∧ current_tid t' = current_tid t).
Proof.
  intros [Ht Hfr Hn Hq]. unfold next_id. rewrite stm_bind_eq. cbn [get]. rewrite stm_bind_eq. unfold lift, uadd.
  destruct (_ <=? _); simpl; [|split_and!; [by split|by apply Z.le_refl|done]].
  split_and!; [|unfold later; simpl; lia|intros k [= <-]; simpl; split_and!; lia || done].
  split; simpl; [done| |lia|done]. intros k p Hp. specialize (Hfr k p Hp). lia.
Qed.

Definition queues_ok (m : gmap Z (list Z)) : Prop := ∀ addr q, m !! addr = Some q → q ≠ [].

Lemma put_queue_ok addr q m : queues_ok m → queues_ok (put_queue addr q m).
Proof.
  intros Hm a q'. unfold put_queue. destruct q.
  - intros [_ ?]%lookup_delete_Some. by eapply Hm.
  - intros [[_ <-]|[_ ?]]%lookup_insert_Some; [done|by eapply Hm].
Qed.

Lemma remove_futex_waiter_at_ok addr k m : queues_ok m → queues_ok (remove_futex_waiter_at addr k m).
Proof. intros Hm. unfold remove_futex_waiter_at. case_match; [by apply put_queue_ok|done]. Qed.

Lemma remove_futex_waiter_ok k m : queues_ok m → queues_ok (remove_futex_waiter k m).
Proof.
  unfold remove_futex_waiter. generalize (keys m) as ks. intros ks. revert m.
  induction ks as [|a ks IH]; intros m Hm; simpl; [done|]. by apply IH, remove_futex_waiter_at_ok.
Qed.

Lemma futex_keeps t f : (∀ m, queues_ok m → queues_ok (f m)) → Tkeeps t (modify (fun t => with_futex (f (futex_waiters t)) t)) ttrue.
Proof.
  intros Hf. apply keeps_modify. intros [Ht Hfr Hn Hq]. split_and!; [|by apply Z.le_refl|done]. split; simpl; try done. by apply Hf.
Qed.

Lemma forget_waiter_keeps t k : Tkeeps t (forget_waiter k) ttrue.
Proof. apply futex_keeps, remove_futex_waiter_ok. Qed.

Lemma remove_process_keeps t k : Tkeeps t (remove_process k) ttrue.
Proof.
  apply keeps_modify. intros Hwf. case_match; [|by split_and!; [|apply Z.le_refl|]]. split_and!; [|by apply Z.le_refl|done]. by apply delete_process_wf.
Qed.

Lemma for_each_keeps {B} (l : list B) f t :
  (∀ x t, Tkeeps t (f x) ttrue) → Tkeeps t (for_each l f) ttrue.
Proof.
  intros Hf. revert t. induction l as [|x l IH]; intros t; cbn [for_each]; [by apply keeps_ret; [apply _|]|].
  eapply keeps_bind; [apply _|apply Hf|]. intros. apply IH.
Qed.

End Inv.

Ltac tprim :=
  first
  [ apply tget_keeps | apply tlift_keeps | apply on_env_keeps | apply next_id_keeps
  | apply forget_waiter_keeps | apply remove_process_keeps
  | apply update_group_keeps; solve [intros ?; repeat case_match; reflexivity]
  | apply update_current_keeps; solve [intros ?; reflexivity]
  | apply keeps_fail; apply _
  | solve [eauto with whuse] ].
Ltac tfacts :=
  intros; cbv beta in *; destruct_and?; simplify_eq;
  repeat match goal with
  | H : later ?v ?v |- _ => clear H
  | H : wf ?v, H' : wf ?v |- _ => clear H'
  | H : ok_or _ _ = Ok _ |- _ => unfold ok_or in H; case_match; simplify_eq
  | H : current _ = Ok _ |- _ => apply current_lookup in H
  end.
Ltac tstep := kstep_with tprim tfacts.

Section Ops.
Context {H A E : Type} `{!KernelEnv H A E}.
Implicit Types (t : table H A E) (p : Process H A).
Abbreviation Tkeeps := (keeps wf later).
Abbreviation ttrue := (fun _ (_ : table H A E) => True).

(** Updating a process that is in the table. *)
Lemma put_found_keeps t k p q :
  processes t !! k = Some p → tid q = tid p → Tkeeps t (put_process k q) ttrue.
Proof.
  intros Hp Hq Hwf. apply put_process_keeps; [|eauto|done]. rewrite Hq. by apply (wf_tid _ Hwf).
Qed.
Hint Extern 1 (keeps _ _ _ (put_process _ _) _) =>
  eapply put_found_keeps; [eassumption|reflexivity] : whuse.

Lemma put_same_keeps t t' : later t t' → wf t' → Tkeeps t (put t') ttrue.
Proof. intros Hl Hw _. split_and!; done. Qed.

(** The processes made for new ids have them. *)
Ltac env_result :=
  repeat first [rewrite stm_bind_eq | case_match; simplify_eq/=; try done]; try (by intros [= <-]).

Lemma Process_new_tid n k par entry (e : E) p :
  (Process_new (H := H) n k par entry e).1 = Ok p → tid p = k.
Proof. unfold Process_new. env_result. Qed.
Lemma fork_from_tid q k (e : E) p : (fork_from q k e).1 = Ok p → tid p = k.
Proof. unfold fork_from. env_result. Qed.
Lemma fork_from_shared_tid q k (e : E) p : (fork_from_shared q k e).1 = Ok p → tid p = k.
Proof. unfold fork_from_shared. env_result. Qed.
Lemma clone_thread_from_tid q k st tls (e : E) p : (clone_thread_from q k st tls e).1 = Ok p → tid p = k.
Proof. unfold clone_thread_from. env_result. Qed.
Lemma reset_image_tid entry sp q (e : E) p : (reset_image entry sp q e).1 = Ok p → tid p = tid q.
Proof. unfold reset_image. env_result. Qed.

Lemma put_new_keeps t k p : tid p = k → 1 ≤ k → k < next_pid t → Tkeeps t (put_process k p) ttrue.
Proof. intros. apply put_process_keeps; [done|by right]. Qed.
Hint Resolve Process_new_tid fork_from_tid fork_from_shared_tid clone_thread_from_tid : whuse.
Hint Extern 2 (keeps _ _ _ (put_process _ _) _) =>
  eapply put_new_keeps; [eauto with whuse|lia|lia] : whuse.

Lemma set_current_field_keeps t (f : table H A E → table H A E) :
  (∀ t, processes (f t) = processes t ∧ next_pid (f t) = next_pid t ∧ futex_waiters (f t) = futex_waiters t) →
  Tkeeps t (modify f) ttrue.
Proof.
  intros Hf. apply keeps_modify. intros [Ht Hfr Hn Hq]. destruct (Hf t) as (Hp & Hx & Hw).
  split_and!; [|unfold later; lia|done]. split; rewrite ?Hp, ?Hx, ?Hw; done.
Qed.
Hint Extern 1 (keeps _ _ _ (modify (fun t => if current_tid t =? 0 then _ else _)) _) =>
  apply set_current_field_keeps; intros ?; case_match; done : whuse.

Lemma spawn_keeps t n par entry : Tkeeps t (spawn n par entry) ttrue.
Proof. unfold spawn. repeat tstep. Qed.
Lemma fork_keeps t : Tkeeps t fork_process_from_current ttrue.
Proof. unfold fork_process_from_current. repeat tstep. Qed.
Lemma fork_shared_keeps t : Tkeeps t fork_process_from_current_shared ttrue.
Proof. unfold fork_process_from_current_shared. repeat tstep. Qed.
Lemma clone_thread_keeps t st tls : Tkeeps t (clone_thread_from_current st tls) ttrue.
Proof. unfold clone_thread_from_current. repeat tstep. Qed.
Lemma set_sp_keeps t k sp : Tkeeps t (set_thread_stack_pointer k sp) ttrue.
Proof. unfold set_thread_stack_pointer. repeat tstep. Qed.
Lemma set_vfork_keeps t c q : Tkeeps t (set_vfork_parent_tid c q) ttrue.
Proof. unfold set_vfork_parent_tid. repeat tstep. Qed.

(** *** exec *)
Lemma drop_thread_keeps t k : Tkeeps t (_ ← remove_process k; forget_waiter k) ttrue.
Proof. repeat tstep. Qed.
Hint Extern 1 (keeps _ _ _ (for_each _ _) _) => apply for_each_keeps; intros; apply drop_thread_keeps : whuse.

Lemma execve_keeps t entry sp : Tkeeps t (execve_current_image entry sp) ttrue.
Proof.
  unfold execve_current_image. do 6 tstep.
  eapply keeps_bind with (Q := fun _ t' => processes t' = processes s' ∧ current_tid t' = current_tid s');
    [apply _| |tfacts].
  - case_match; [|by apply keeps_ret; [apply _|]].
    tstep. tstep. apply keeps_ret; [apply _|]. intros _. split; congruence.
  - tstep. tstep. match goal with Hp : processes _ !! _ = Some ?q |- _ => apply put_found_keeps with (p := q) end;
      [congruence|].
    match goal with H : (reset_image _ _ _ _).1 = _ |- _ => apply reset_image_tid in H; exact H end.
Qed.

(** *** Signals *)
Lemma send_signal_tid_keeps t k s : Tkeeps t (send_signal_tid k s) ttrue.
Proof. unfold send_signal_tid. repeat tstep. Qed.
Lemma send_exact_keeps t k s : Tkeeps t (send_signal_exact_tid k s) ttrue.
Proof. unfold send_signal_exact_tid. repeat tstep. Qed.
Hint Resolve send_signal_tid_keeps : whuse.
Lemma send_signal_keeps t k s : Tkeeps t (send_signal k s) ttrue.
Proof. unfold send_signal. repeat tstep. Qed.

Lemma alter_all_wf t ks f : same_tid f → wf t → wf (with_processes (foldl (fun m k => alter f k m) (processes t) ks) t).
Proof.
  intros Hf. revert t. induction ks as [|k ks IH]; intros t Hwf; simpl; [by destruct t|].
  specialize (IH (with_processes (alter f k (processes t)) t)). destruct t. cbn in *.
  apply IH. by apply (alter_processes_wf (mkTable _ _ _ _ _)).
Qed.

Lemma broadcast_keeps t sel s : Tkeeps t (broadcast sel s) ttrue.
Proof.
  unfold broadcast. repeat tstep. apply put_same_keeps; [by apply Z.le_refl|]. by apply alter_all_wf.
Qed.

Lemma clear_pending_keeps t s : Tkeeps t (clear_pending_signal s) ttrue.
Proof. unfold clear_pending_signal. repeat tstep. Qed.
Hint Resolve clear_pending_keeps : whuse.
Lemma dequeue_keeps t : Tkeeps t dequeue_unmasked_signal ttrue.
Proof. unfold dequeue_unmasked_signal. repeat tstep. Qed.
Lemma set_sigaction_keeps t s a : Tkeeps t (set_sigaction s a) ttrue.
Proof. unfold set_sigaction. repeat tstep. Qed.
Lemma set_sigaltstack_keeps t s : Tkeeps t (set_sigaltstack s) ttrue.
Proof. unfold set_sigaltstack. repeat tstep. Qed.

(** *** Exit *)
Lemma exit_member_keeps t code k acc : Tkeeps t (exit_member code k acc) ttrue.
Proof.
  unfold exit_member. tstep. tstep; [|repeat tstep].
  destruct (processes t !! k) as [p|] eqn:Hp; [|repeat tstep].
  tstep. eapply keeps_bind with (Q := fun _ t' => processes t' = processes t); [apply _| |tfacts].
  { destruct (clear_child_tid p); repeat tstep; congruence. }
  tstep. tstep. eapply keeps_bind with (Q := fun _ _ => True); [apply _| |intros; repeat tstep].
  apply put_found_keeps with (p := p); [congruence|done].
Qed.
Hint Resolve exit_member_keeps : whuse.
Lemma exit_members_keeps t code ks acc : Tkeeps t (exit_members code ks acc) ttrue.
Proof. revert t acc. induction ks as [|k ks IH]; intros t acc; cbn [exit_members]; repeat tstep. Qed.

Lemma notify_parent_keeps t par : Tkeeps t (notify_parent par) ttrue.
Proof.
  destruct par as [g|]; cbn [notify_parent]; [|repeat tstep]. intros Hwf.
  destruct (send_signal_keeps t g SIGCHLD Hwf) as (? & ? & _).
  destruct (send_signal g SIGCHLD t) as [[] ?]; by split_and!.
Qed.
Hint Resolve exit_members_keeps notify_parent_keeps : whuse.

Lemma exit_group_keeps t code : Tkeeps t (exit_current_process_group code) ttrue.
Proof. unfold exit_current_process_group. repeat tstep. Qed.

Lemma exit_thread_keeps t code : Tkeeps t (exit_current_thread code) ttrue.
Proof.
  unfold exit_current_thread. do 3 tstep.
  eapply keeps_bind with (Q := fun _ t' => processes t' = processes t); [apply _| |tfacts].
  { case_match; repeat tstep; congruence. }
  eapply keeps_bind with (Q := fun _ t' => processes t' = processes t); [apply _| |tfacts].
  { apply keeps_modify. intros []. split_and!; [|by apply Z.le_refl|done].
    split; simpl; try done. by apply remove_futex_waiter_ok. }
  tstep. eapply keeps_bind with (Q := fun _ _ => True); [apply _| |intros; repeat tstep].
  match goal with Hp : processes _ !! _ = Some ?q |- _ => apply put_found_keeps with (p := q) end; [congruence|done].
Qed.

Lemma force_exit_group_keeps t g code : Tkeeps t (force_exit_group g code) ttrue.
Proof. unfold force_exit_group. repeat tstep. Qed.
Hint Resolve force_exit_group_keeps : whuse.
Lemma force_exit_each_keeps t gs code : Tkeeps t (force_exit_each gs code) ttrue.
Proof. revert t. induction gs as [|g gs IH]; intros t; cbn [force_exit_each]; repeat tstep. Qed.
Hint Resolve force_exit_each_keeps : whuse.
Lemma force_exit_subtree_keeps t g code : Tkeeps t (force_exit_subtree g code) ttrue.
Proof. unfold force_exit_subtree. repeat tstep. Qed.

(** *** Wait *)
Lemma reap_keeps t g : Tkeeps t (reap_thread_group g) ttrue.
Proof.
  unfold reap_thread_group. tstep. eapply keeps_bind with (Q := fun _ _ => True); [apply _| |intros; repeat tstep].
  apply keeps_modify. intros Hwf. split_and!; [|by apply Z.le_refl|done].
  apply fmap_processes_wf; [|done]. intros p. by case_match.
Qed.
Hint Resolve reap_keeps : whuse.
Lemma wait_child_keeps t g sel : Tkeeps t (wait_child g sel) ttrue.
Proof. unfold wait_child. repeat tstep. Qed.
Hint Resolve wait_child_keeps : whuse.
Lemma wait_keeps t g k : Tkeeps t (wait g k) ttrue.
Proof. unfold wait. repeat tstep. Qed.

(** *** Attributes, timers and futex queues *)
Lemma set_tid_address_keeps t a : Tkeeps t (set_tid_address a) ttrue.
Proof. unfold set_tid_address. repeat tstep. Qed.
Lemma set_robust_list_keeps t a l : Tkeeps t (set_robust_list a l) ttrue.
Proof. unfold set_robust_list. repeat tstep. Qed.
Lemma setpgid_keeps t k g : Tkeeps t (setpgid k g) ttrue.
Proof.
  unfold setpgid. do 3 tstep. all: repeat tstep.
  apply keeps_modify. intros Hwf. split_and!; [|by apply Z.le_refl|done]. by apply alter_processes_wf.
Qed.
Lemma setsid_keeps t : Tkeeps t setsid_current ttrue.
Proof. unfold setsid_current. repeat tstep. Qed.
Lemma setuid_keeps t u : Tkeeps t (setuid_current u) ttrue.
Proof. unfold setuid_current. repeat tstep. Qed.
Lemma setgid_keeps t u : Tkeeps t (setgid_current u) ttrue.
Proof. unfold setgid_current. repeat tstep. Qed.
Lemma setresuid_keeps t r e : Tkeeps t (setresuid_current r e) ttrue.
Proof. unfold setresuid_current, opt_set. repeat tstep. Qed.
Lemma setresgid_keeps t r e : Tkeeps t (setresgid_current r e) ttrue.
Proof. unfold setresgid_current, opt_set. repeat tstep. Qed.
Lemma setgroups_keeps t gs : Tkeeps t (setgroups_current gs) ttrue.
Proof. unfold setgroups_current. repeat tstep. Qed.
Lemma umask_keeps t m : Tkeeps t (umask_current m) ttrue.
Proof. unfold umask_current. repeat tstep. Qed.
Lemma set_itimer_keeps t d i : Tkeeps t (set_itimer_real_current d i) ttrue.
Proof. unfold set_itimer_real_current. repeat tstep. Qed.
Lemma consume_itimer_keeps t g n : Tkeeps t (consume_itimer_real_expiry g n) ttrue.
Proof. unfold consume_itimer_real_expiry. repeat tstep. Qed.
Lemma set_signal_mask_keeps t m : Tkeeps t (set_signal_mask m) ttrue.
Proof. unfold set_signal_mask. repeat tstep. Qed.
Lemma set_clear_child_tid_keeps t a : Tkeeps t (set_clear_child_tid a) ttrue.
Proof. unfold set_clear_child_tid. repeat tstep. Qed.

Lemma set_current_keeps t k : Tkeeps t (set_current k) ttrue.
Proof.
  unfold set_current. repeat tstep. apply put_same_keeps; [by apply Z.le_refl|].
  match goal with H : wf _ |- _ => destruct H end. by split.
Qed.

Lemma release_vfork_keeps t : Tkeeps t release_current_vfork_parent ttrue.
Proof.
  unfold release_current_vfork_parent. tstep. tstep. cbn [release_vfork_parent_for_tgid].
  eapply keeps_bind with (Q := fun _ _ => True); [apply _| |intros; repeat tstep].
  apply put_same_keeps; [by apply Z.le_refl|]. apply fmap_processes_wf; [|done]. intros p. by case_match.
Qed.

Lemma duplicate_fd_keeps t k fd : Tkeeps t (duplicate_fd_from k fd) ttrue.
Proof.
  unfold duplicate_fd_from. do 3 tstep.
  eapply keeps_bind with (Q := fun _ _ => True); [apply _| |intros; repeat tstep].
  by apply set_current_field_keeps.
Qed.

Lemma enqueue_ok addr k m : queues_ok m → queues_ok (enqueue_futex_waiter addr k m).
Proof.
  intros Hm a q. unfold enqueue_futex_waiter. rewrite lookup_insert_Some. intros [[<- <-]|[_ Hq]]; [|by eapply Hm].
  destruct (existsb _ _) eqn:Hex; [|by destruct (default [] _)].
  intros Hn. by rewrite Hn in Hex.
Qed.
Lemma wake_ok addr n m : queues_ok m → queues_ok (wake_futex addr n m).2.
Proof. intros Hm. unfold wake_futex. case_match; [by apply put_queue_ok|done]. Qed.
Lemma requeue_ok a b n k m : queues_ok m → queues_ok (requeue_futex a b n k m).2.
Proof.
  intros Hm. unfold requeue_futex. pose proof (wake_ok a n m Hm) as H1.
  destruct (wake_futex a n m) as [w1 m1]. pose proof (wake_ok a k m1 H1) as H2.
  destruct (wake_futex a k m1) as [w2 m2]. simpl in *. destruct w2; [done|].
  intros addr q. rewrite lookup_insert_Some. intros [[<- <-]|[_ Hq]]; [|by eapply H2].
  by destruct (default [] _).
Qed.

Lemma clear_futex_wait_wf t k : wf t → wf (clear_futex_wait_state k t) ∧ later t (clear_futex_wait_state k t).
Proof.
  intros Hwf. unfold clear_futex_wait_state. destruct (processes t !! k) as [p|] eqn:Hp; [|done].
  assert (wf (with_processes (<[k := set_futex_wait None None 0 p]> (processes t)) t)) as Hwf'.
  { by apply (put_found_keeps t k p (set_futex_wait None None 0 p) Hp). }
  case_match; (split; [|by apply Z.le_refl]); [|done].
  destruct Hwf' as [? ? ? Hq]. split; simpl in *; try done. by apply remove_futex_waiter_at_ok.
Qed.

Lemma wake_all_in_tgid_wf t g :
  wf t → wf (wake_all_futex_waiters_in_tgid g t).2 ∧ later t (wake_all_futex_waiters_in_tgid g t).2.
Proof.
  unfold wake_all_futex_waiters_in_tgid. simpl. generalize (tid <$> List.filter (fun p : Process H A =>
    (tgid p =? g) && bool_decide (is_Some (futex_wait_addr p)) && negb (bool_decide (state p = Exited))) (procs t)) as ks.
  intros ks. revert t. induction ks as [|k ks IH]; intros t Hwf; simpl; [done|].
  destruct (clear_futex_wait_wf t k Hwf) as [Hwf' Hl]. destruct (IH _ Hwf') as [? ?]. split; [done|by etrans].
Qed.

(** ** Runs *)
Inductive table_method : ∀ B : Type, stm (table H A E) B → Prop :=
  | t_spawn n par entry : table_method _ (spawn n par entry)
  | t_fork : table_method _ fork_process_from_current
  | t_fork_shared : table_method _ fork_process_from_current_shared
  | t_clone st tls : table_method _ (clone_thread_from_current st tls)
  | t_set_sp k sp : table_method _ (set_thread_stack_pointer k sp)
  | t_set_vfork c q : table_method _ (set_vfork_parent_tid c q)
  | t_release_vfork : table_method _ release_current_vfork_parent
  | t_set_current k : table_method _ (set_current k)
  | t_duplicate_fd k fd : table_method _ (duplicate_fd_from k fd)
  | t_exec entry sp : table_method _ (execve_current_image entry sp)
  | t_send k s : table_method _ (send_signal_tid k s)
  | t_send_exact k s : table_method _ (send_signal_exact_tid k s)
  | t_send_pgid g s x : table_method _ (send_signal_pgid g s x)
  | t_send_all s x i : table_method _ (send_signal_all s x i)
  | t_clear_pending s : table_method _ (clear_pending_signal s)
  | t_dequeue : table_method _ dequeue_unmasked_signal
  | t_sigaction s a : table_method _ (set_sigaction s a)
  | t_sigmask m : table_method _ (set_signal_mask m)
  | t_sigaltstack s : table_method _ (set_sigaltstack s)
  | t_clear_child_tid a : table_method _ (set_clear_child_tid a)
  | t_exit_group code : table_method _ (exit_current_process_group code)
  | t_exit_thread code : table_method _ (exit_current_thread code)
  | t_force_exit_group g code : table_method _ (force_exit_group g code)
  | t_force_exit_subtree g code : table_method _ (force_exit_subtree g code)
  | t_wait_child g sel : table_method _ (wait_child g sel)
  | t_wait g k : table_method _ (wait g k)
  | t_tid_address a : table_method _ (set_tid_address a)
  | t_robust_list a l : table_method _ (set_robust_list a l)
  | t_setpgid k g : table_method _ (setpgid k g)
  | t_setsid : table_method _ setsid_current
  | t_setuid u : table_method _ (setuid_current u)
  | t_setgid u : table_method _ (setgid_current u)
  | t_setresuid r e : table_method _ (setresuid_current r e)
  | t_setresgid r e : table_method _ (setresgid_current r e)
  | t_setgroups gs : table_method _ (setgroups_current gs)
  | t_umask m : table_method _ (umask_current m)
  | t_itimer d i : table_method _ (set_itimer_real_current d i)
  | t_consume_itimer g n : table_method _ (consume_itimer_real_expiry g n).

Inductive table_step : table H A E → table H A E → Prop :=
  | ts_method B m t : table_method B m → table_step t (m t).2
  | ts_env t e : table_step t (with_env e t)
  | ts_update t k p q : processes t !! k = Some p → tid q = tid p → table_step t (with_processes (<[k := q]> (processes t)) t)
  | ts_enqueue t addr k : table_step t (with_futex (enqueue_futex_waiter addr k (futex_waiters t)) t)
  | ts_wake t addr n : table_step t (with_futex (wake_futex addr n (futex_waiters t)).2 t)
  | ts_unqueue t addr k : table_step t (with_futex (remove_futex_waiter_at addr k (futex_waiters t)) t)
  | ts_requeue t a b n k : table_step t (with_futex (requeue_futex a b n k (futex_waiters t)).2 t)
  | ts_clear_wait t k : table_step t (clear_futex_wait_state k t)
  | ts_wake_group t g : table_step t (wake_all_futex_waiters_in_tgid g t).2.

Hint Resolve spawn_keeps fork_keeps fork_shared_keeps clone_thread_keeps set_sp_keeps set_vfork_keeps
  release_vfork_keeps set_current_keeps duplicate_fd_keeps execve_keeps send_exact_keeps broadcast_keeps
  dequeue_keeps set_sigaction_keeps set_signal_mask_keeps set_sigaltstack_keeps set_clear_child_tid_keeps
  exit_group_keeps exit_thread_keeps force_exit_subtree_keeps wait_keeps set_tid_address_keeps
  set_robust_list_keeps setpgid_keeps setsid_keeps setuid_keeps setgid_keeps setresuid_keeps setresgid_keeps
  setgroups_keeps umask_keeps set_itimer_keeps consume_itimer_keeps : whuse.

Lemma table_method_keeps B m t : table_method B m → Tkeeps t m ttrue.
Proof. destruct 1; unfold send_signal_pgid, send_signal_all; eauto with whuse. Qed.

Lemma futex_step_wf t m : wf t → queues_ok m → wf (with_futex m t) ∧ later t (with_futex m t).
Proof. intros [] Hq. split; [by split|by apply Z.le_refl]. Qed.

Lemma table_step_wf t t' : table_step t t' → wf t → wf t' ∧ later t t'.
Proof.
  destruct 1 as [B m t Hm|t e|t k p q Hp Hq| | | | | |]; intros Hwf.
  - destruct (table_method_keeps B m t Hm Hwf) as (? & ? & _). done.
  - destruct Hwf. split; [by split|by apply Z.le_refl].
  - by destruct (put_found_keeps t k p q Hp Hq Hwf) as (? & ? & _).
  - apply futex_step_wf; [done|]. apply enqueue_ok. exact (wf_queues _ Hwf).
  - apply futex_step_wf; [done|]. apply wake_ok. exact (wf_queues _ Hwf).
  - apply futex_step_wf; [done|]. apply remove_futex_waiter_at_ok. exact (wf_queues _ Hwf).
  - apply futex_step_wf; [done|]. apply requeue_ok. exact (wf_queues _ Hwf).
  - by apply clear_futex_wait_wf.
  - by apply wake_all_in_tgid_wf.
Qed.

Lemma new_table_wf e : wf (new e : table H A E).
Proof. split; simpl; [intros ??; by rewrite lookup_empty..|lia|intros ??; by rewrite lookup_empty]. Qed.

Lemma table_run_wf t t' : rtc table_step t t' → wf t → wf t' ∧ later t t'.
Proof.
  induction 1 as [|t t1 t' Hs _ IH]; intros Hwf; [done|].
  destruct (table_step_wf _ _ Hs Hwf) as [Hwf1 ?]. destruct (IH Hwf1). split; [done|by etrans].
Qed.

Lemma next_id_run t :
  next_id t = if next_pid t + 1 <=? USIZE_MAX then (Ok (next_pid t), with_next_pid (next_pid t + 1) t)
              else (Panic, t).
Proof. unfold next_id. rewrite stm_bind_eq. cbn [get]. rewrite stm_bind_eq. unfold lift, uadd. by destruct (_ <=? _). Qed.

(** The methods that make processes and threads. *)
Inductive creates : stm (table H A E) Z → Prop :=
  | cr_spawn n par entry : creates (spawn n par entry)
  | cr_fork : creates fork_process_from_current
  | cr_fork_shared : creates fork_process_from_current_shared
  | cr_thread stack tls : creates (clone_thread_from_current stack tls).
Lemma creates_method m : creates m → table_method Z m.
Proof. destruct 1; constructor. Qed.
(** They take the next id and file the new process under it. *)
Lemma creates_fresh m t k : creates m → (m t).1 = Ok k →
  k = next_pid t ∧ next_pid t < next_pid (m t).2 ∧ is_Some (processes (m t).2 !! k).
Proof.
  destruct 1; unfold spawn, fork_process_from_current, fork_process_from_current_shared, clone_thread_from_current;
    rewrite stm_bind_eq, next_id_run; (destruct (_ <=? _); [|done]);
    repeat first
    [ done
    | progress cbv beta iota delta [get lift fail mret stm_ret put_process modify]
    | match goal with
      | |- context [PTable.current ?x] => destruct (PTable.current x)
      | |- context [space_clone_bytes ?a ?e] => destruct (space_clone_bytes a e)
      | |- context [if ?b then _ else _] => destruct b
      | |- context [on_env ?m ?x] =>
          let H := fresh in
          assert (∃ r e, on_env m x = (r, with_env e x)) as (r & e & H) by (unfold on_env; destruct (m (env x)); eauto);
          rewrite H; clear H; destruct r
      end
    | rewrite stm_bind_eq
    | intros [= <-]; simpl; rewrite lookup_insert_eq; split_and!; [done|lia|eauto] ].
Qed.

(** C10: In every process table reachable from boot, by any sequence of the
    table's methods and of changes to files and memory, each process is
    filed under its own thread id and no futex queue is empty; and ids are
    given out once: whenever a process or thread is created, by spawn, either
    fork or clone, its id is one that no process has, the new process is filed
    under it, and every process or thread created at any later time gets a
    greater id, also when the first one is gone. *)
Theorem table_reachable_wf e t : rtc table_step (new e) t →
  wf t ∧
  ∀ m k, creates m → (m t).1 = Ok k →
    processes t !! k = None ∧ is_Some (processes (m t).2 !! k) ∧
    ∀ t' m' k', rtc table_step (m t).2 t' → creates m' → (m' t').1 = Ok k' → k < k'.
Proof.
  intros Hr. destruct (table_run_wf _ _ Hr (new_table_wf e)) as [Hwf _]. split; [done|].
  intros m k Hm Hk. destruct (creates_fresh m t k Hm Hk) as (-> & Hlt & Hin). split_and!; [|done|].
  - destruct (processes t !! next_pid t) as [p|] eqn:Hp; [|done]. pose proof (wf_fresh _ Hwf _ _ Hp). lia.
  - intros t' m' k' Hr' Hm' Hk'. destruct (table_step_wf _ _ (ts_method _ m t (creates_method m Hm)) Hwf) as [Hwf1 _].
    destruct (table_run_wf _ _ Hr' Hwf1) as [_ Hl]. unfold later in Hl.
    destruct (creates_fresh m' t' k' Hm' Hk') as (-> & _). lia.
Qed.
End Ops.
End ProcSpec.
