(* ===== verification/ProcProps.v ===== *)
(** * What processes promise their callers

    Wait and reaping, exit status, signals, futex queues, process trees,
    descriptors, credentials and exec, as theorems on the operations of
    [Process] and [ProcTable], with the kernel of [KernelEnv] for the
    witnesses. *)

From S2P Require Import Prelude AddrSpace Path FileObject Vfs Process KernelEnv ProcTable ProcSpec.

Open Scope string_scope.
Open Scope list_scope.
Open Scope Z_scope.

Module ProcProps.
Import Mm Proc PTable ProcSpec.

Lemma existsb_eqb k (l : list Z) : existsb (Z.eqb k) l = bool_decide (k ∈ l).
Proof.
  induction l as [|x l IH]; cbn [existsb]; [done|]. rewrite IH. apply eq_bool_prop_intro.
  rewrite orb_True, !bool_decide_spec, elem_of_cons, Is_true_true, Z.eqb_eq. done.
Qed.

Lemma find_first_split {A} (P : A → bool) pre x post :
  Forall (fun y => P y = false) pre → P x = true → find_first P (pre ++ x :: post) = Some x.
Proof. intros Hpre Hx. induction Hpre as [|y pre Hy _ IH]; simpl; [by rewrite Hx|by rewrite Hy]. Qed.

Lemma filter_cons_notin (k : Z) ks (q : list Z) :
  filter (fun w => w ∉ ks) (filter (fun w => w ∉ [k]) q) = filter (fun w => w ∉ k :: ks) q.
Proof.
  induction q as [|w q IH]; [done|]. rewrite !filter_cons.
  repeat (case_decide; rewrite ?filter_cons); rewrite ?IH; set_solver.
Qed.

(** ** Futex queues *)
Section Futex.
Implicit Types m : gmap Z (list Z).

Definition queue m (addr : Z) : list Z := default [] (m !! addr).

Lemma is_futex_waiting_queue addr k m : is_futex_waiting addr k m = bool_decide (k ∈ queue m addr).
Proof. unfold is_futex_waiting, queue. rewrite <- existsb_eqb. by destruct (m !! addr). Qed.

Lemma queue_put addr q m a : queue (put_queue addr q m) a = if decide (a = addr) then q else queue m a.
Proof.
  unfold queue, put_queue. case_decide as Ha.
  - subst. destruct q; [by rewrite lookup_delete_eq|by rewrite lookup_insert_eq].
  - destruct q; [by rewrite lookup_delete_ne by done|by rewrite lookup_insert_ne by done].
Qed.

Lemma queue_remove_at addr k m a :
  queue (remove_futex_waiter_at addr k m) a =
  if decide (a = addr) then filter (fun w => w ≠ k) (queue m a) else queue m a.
Proof.
  unfold remove_futex_waiter_at. destruct (m !! addr) as [q|] eqn:Hq.
  - rewrite queue_put. case_decide; [|done]. subst. unfold queue. by rewrite Hq.
  - case_decide; [|done]. subst. unfold queue. by rewrite Hq.
Qed.

Lemma queue_remove_each k ks m a : NoDup ks →
  queue (foldl (fun m addr => remove_futex_waiter_at addr k m) m ks) a =
  if decide (a ∈ ks) then filter (fun w => w ≠ k) (queue m a) else queue m a.
Proof.
  intros Hnd. revert m. induction Hnd as [|x ks Hx _ IH]; intros m; cbn [foldl]; [by case_decide; [set_solver|]|].
  rewrite IH, queue_remove_at. repeat case_decide; set_solver.
Qed.

(** [remove_futex_waiter] takes the thread out of every queue. *)
Lemma queue_remove k m a : queue (remove_futex_waiter k m) a = filter (fun w => w ≠ k) (queue m a).
Proof.
  unfold remove_futex_waiter. rewrite queue_remove_each by apply NoDup_keys_by. case_decide as Ha; [done|].
  rewrite elem_of_keys_by in Ha. unfold queue. destruct (m !! a); [destruct Ha; eauto|done].
Qed.

Lemma queue_remove_all ks m a :
  queue (foldl (fun m k => remove_futex_waiter k m) m ks) a = filter (fun w => w ∉ ks) (queue m a).
Proof.
  revert m. induction ks as [|k ks IH]; intros m; cbn [foldl].
  - induction (queue m a) as [|w q IHq]; [done|]. rewrite filter_cons_True by apply not_elem_of_nil. by f_equal.
  - rewrite IH, queue_remove. induction (queue m a) as [|w q IHq]; [done|]. rewrite !filter_cons.
    repeat (case_decide; rewrite ?filter_cons); rewrite ?IHq; set_solver.
Qed.

Lemma queue_wake addr n m a :
  queue (wake_futex addr n m).2 a = if decide (a = addr) then drop (Z.to_nat n) (queue m a) else queue m a.
Proof.
  unfold wake_futex. destruct (m !! addr) as [q|] eqn:Hq; simpl.
  - rewrite queue_put. case_decide; [|done]. subst. unfold queue. by rewrite Hq.
  - case_decide; [|done]. subst. unfold queue. rewrite Hq. simpl. by rewrite drop_nil.
Qed.

Lemma woken addr n m : (wake_futex addr n m).1 = take (Z.to_nat n) (queue m addr).
Proof. unfold wake_futex, queue. destruct (m !! addr); simpl; [done|by rewrite take_nil]. Qed.

Lemma queue_enqueue addr k m a :
  queue (enqueue_futex_waiter addr k m) a =
  if decide (a = addr) then (if decide (k ∈ queue m a) then queue m a else queue m a ++ [k]) else queue m a.
Proof.
  unfold enqueue_futex_waiter. case_decide as Ha.
  - subst. unfold queue at 1. rewrite lookup_insert_eq. simpl. fold (queue m addr).
    rewrite existsb_eqb.
    by case_decide; [rewrite bool_decide_eq_true_2|rewrite bool_decide_eq_false_2].
  - unfold queue. by rewrite lookup_insert_ne by done.
Qed.

Lemma requeue_run from to n r m :
  requeue_futex from to n r m =
  let m2 := (wake_futex from r (wake_futex from n m).2).2 in
  let moved := (wake_futex from r (wake_futex from n m).2).1 in
  ((wake_futex from n m).1,
   match moved with [] => m2 | _ => <[to := queue m2 to ++ moved]> m2 end).
Proof.
  unfold requeue_futex. destruct (wake_futex from n m) as [w1 m1]. simpl.
  by destruct (wake_futex from r m1) as [w2 m2].
Qed.

Lemma queue_requeue from to n r m a : 0 ≤ n → 0 ≤ r → from ≠ to →
  queue (requeue_futex from to n r m).2 a =
  if decide (a = from) then drop (Z.to_nat r) (drop (Z.to_nat n) (queue m from))
  else if decide (a = to) then queue m to ++ take (Z.to_nat r) (drop (Z.to_nat n) (queue m from))
  else queue m a.
Proof.
  intros Hn Hr Hne. rewrite requeue_run. cbv zeta. cbn [snd]. rewrite woken, queue_wake, decide_True by done.
  set (moved := take _ _).
  assert (∀ m2 : gmap Z (list Z), queue (match moved with [] => m2 | _ => <[to := queue m2 to ++ moved]> m2 end) a =
     if decide (a = to) then queue m2 a ++ moved else queue m2 a) as ->.
  { intros m2. destruct moved as [|x l]; [case_decide; [by rewrite app_nil_r|done]|].
    unfold queue at 1. case_decide as Ha; [subst; by rewrite lookup_insert_eq|by rewrite lookup_insert_ne by done]. }
  rewrite !queue_wake. repeat case_decide; subst; done.
Qed.

(** C23: A futex queue is first in, first out: a thread that starts waiting
    goes to the end, a wake of n takes the n threads that have waited longest
    and leaves the rest in order, and no other address is touched.  A requeue
    wakes n, moves the next r threads to the end of the target queue in their
    order, and neither loses nor duplicates a thread. *)
Theorem futex_fifo_requeue m from to a k n r :
  0 ≤ n → 0 ≤ r → from ≠ to → k ∉ queue m from →
  (let m' := enqueue_futex_waiter from k m in
   queue m' from = queue m from ++ [k] ∧ (a ≠ from → queue m' a = queue m a) ∧ is_futex_waiting from k m' = true) ∧
  (let '(woke, m') := wake_futex from n m in
   queue m from = woke ++ queue m' from ∧ zlen woke = Z.min n (zlen (queue m from)) ∧
   (a ≠ from → queue m' a = queue m a)) ∧
  (let '(woke, m') := requeue_futex from to n r m in
   ∃ moved, queue m from = woke ++ moved ++ queue m' from ∧ queue m' to = queue m to ++ moved ∧
     zlen woke = Z.min n (zlen (queue m from)) ∧ zlen moved = Z.min r (zlen (queue m from) - zlen woke) ∧
     (a ≠ from → a ≠ to → queue m' a = queue m a)).
Proof.
  intros Hn Hr Hne Hk. split_and!.
  - simpl. rewrite is_futex_waiting_queue, !queue_enqueue, decide_True by done. rewrite decide_False by done.
    split_and!; [done|intros; by rewrite decide_False|]. apply bool_decide_eq_true. set_solver.
  - rewrite (surjective_pairing (wake_futex from n m)). rewrite woken, !queue_wake, decide_True by done.
    split_and!; [by rewrite take_drop|unfold zlen; rewrite length_take; lia|intros; by rewrite decide_False].
  - rewrite (surjective_pairing (requeue_futex _ _ _ _ _)). exists (take (Z.to_nat r) (drop (Z.to_nat n) (queue m from))).
    rewrite !queue_requeue by done. rewrite decide_True by done.
    rewrite (decide_False (P := to = from)) by done. rewrite (decide_True (P := to = to)) by done.
    rewrite requeue_run. cbn [fst]. rewrite woken.
    unfold zlen. rewrite !length_take, !length_drop. split_and!; [by rewrite !take_drop|done|lia|lia|].
    intros. by rewrite !decide_False.
Qed.

Lemma futex_fifo_requeue_witness :
  let m : gmap Z (list Z) := {[ 100 := [1; 2; 3; 4]; 200 := [9] ]} in
  queue (requeue_futex 100 200 1 2 m).2 200 = [9; 2; 3] ∧
  (let '(woke, m') := wake_futex 100 2 m in
   queue m 100 = woke ++ queue m' 100 ∧ zlen woke = Z.min 2 (zlen (queue m 100)) ∧ (300 ≠ 100 → queue m' 300 = queue m 300)).
Proof.
  set (m := {[ 100 := [1; 2; 3; 4]; 200 := [9] ]} : gmap Z (list Z)). split; [by vm_compute|].
  refine (proj1 (proj2 (futex_fifo_requeue m 100 200 300 5 2 2 _ _ _ _))); try lia.
  vm_compute. intros Hin. repeat (apply elem_of_cons in Hin as [Hin|Hin]; [discriminate|]). by apply elem_of_nil in Hin.
Defined.
End Futex.

(** ** Wait and reaping *)
Section Wait.
Context {H A E : Type} `{!KernelEnv H A E}.
Implicit Types (t : table H A E) (p c : Process H A).

(** [t'] is [t] without the threads [ks]: neither filed nor queued. *)
Record without (ks : list Z) t t' : Prop := mkWithout {
  wo_next : next_pid t' = next_pid t;
  wo_current : current_tid t' = current_tid t;
  wo_processes : ∀ k, processes t' !! k = if decide (k ∈ ks) then None else processes t !! k;
  wo_queues : ∀ a, queue (futex_waiters t') a = filter (fun w => w ∉ ks) (queue (futex_waiters t) a);
}.

Lemma drop_thread_run k t :
  ∃ t', (_ ← remove_process k; forget_waiter k) t = (Ok tt, t') ∧ without [k] t t'.
Proof.
  rewrite stm_bind_eq. unfold remove_process, modify, forget_waiter. eexists. split; [reflexivity|].
  assert (∀ a, queue (remove_futex_waiter k (futex_waiters t)) a =
               filter (fun w => w ∉ [k]) (queue (futex_waiters t) a)) as Hq.
  { intros a. exact (queue_remove_all [k] (futex_waiters t) a). }
  destruct (processes t !! k) as [p|] eqn:Hp; split; try done; intros j; simpl; case_decide as Hj;
    try apply list_elem_of_singleton in Hj; subst; rewrite ?lookup_delete_eq; try done.
  by rewrite lookup_delete_ne by set_solver.
Qed.

Lemma drop_threads_run ks t :
  ∃ t', for_each ks (fun k => _ ← remove_process k; forget_waiter k) t = (Ok tt, t') ∧ without ks t t'.
Proof.
  revert t. induction ks as [|k ks IH]; intros t; cbn [for_each].
  - eexists. split; [reflexivity|]. split; try done. intros a. exact (queue_remove_all [] (futex_waiters t) a).
  - destruct (drop_thread_run k t) as (t1 & Hr & [Hn Hc Hp Hq]). destruct (IH t1) as (t2 & Hr2 & [Hn2 Hc2 Hp2 Hq2]).
    exists t2. split; [by rewrite stm_bind_eq, Hr|]. split; [congruence|congruence| |].
    + intros j. rewrite Hp2, Hp. repeat case_decide; set_solver.
    + intros a. rewrite Hq2, Hq. apply filter_cons_notin.
Qed.

Lemma elem_of_tids_of_group t g k : k ∈ tids_of_group t g ↔ ∃ p, processes t !! k = Some p ∧ tgid p = g.
Proof.
  unfold tids_of_group. rewrite list_elem_of_omap. split.
  - intros ([i p] & Hin & Hk). apply elem_of_items in Hin. destruct (Z.eqb_spec (tgid p) g); naive_solver.
  - intros (p & Hp & <-). exists (k, p). rewrite elem_of_items, Z.eqb_refl. done.
Qed.

(** The child of a reaped group that goes on under init. *)
Definition reparented (init g : Z) p : Process H A :=
  if live_leader p && bool_decide (parent p = Some g) && negb (tgid p =? g) then set_parent (Some init) p else p.

Definition init_of t : Z :=
  default 1 (tgid <$> find_first (fun p => negb (is_thread p) && bool_decide (parent p = None)) (procs t)).

(** [t'] is [t] with group [g] gone and its living children under init. *)
Record reaped (g : Z) t t' : Prop := mkReaped {
  rp_next : next_pid t' = next_pid t;
  rp_gone : ∀ k p, processes t !! k = Some p → tgid p = g →
              processes t' !! k = None ∧ ∀ a, is_futex_waiting a k (futex_waiters t') = false;
  rp_others : ∀ k p, processes t !! k = Some p → tgid p ≠ g →
              processes t' !! k = Some (reparented (init_of t) g p) ∧
              ∀ a, is_futex_waiting a k (futex_waiters t') = is_futex_waiting a k (futex_waiters t);
  rp_new : ∀ k, processes t !! k = None → processes t' !! k = None;
}.

Lemma reparented_tgid init g p : tgid (reparented init g p) = tgid p.
Proof. unfold reparented. by case_match. Qed.

Lemma reap_run g t : ∃ t', reap_thread_group g t = (Ok tt, t') ∧ reaped g t t'.
Proof.
  unfold reap_thread_group. rewrite stm_bind_eq. cbn [get]. rewrite stm_bind_eq. unfold modify. rewrite stm_bind_eq.
  cbn [get]. fold (init_of t). set (t1 := with_processes _ t).
  assert (∀ k, processes t1 !! k = reparented (init_of t) g <$> processes t !! k) as H1.
  { intros k. subst t1. cbn [with_processes processes]. by rewrite lookup_fmap. }
  destruct (drop_threads_run (tids_of_group t1 g) t1) as (t' & Hr & [Hn Hc Hp Hq]). exists t'. split; [done|].
  assert (∀ k, k ∈ tids_of_group t1 g ↔ ∃ p, processes t !! k = Some p ∧ tgid p = g) as Hg.
  { intros k. rewrite elem_of_tids_of_group, H1. split.
    - intros (p & (q & Hk & ->)%fmap_Some & Hpg). rewrite reparented_tgid in Hpg. eauto.
    - intros (p & -> & Hpg). eexists. by rewrite reparented_tgid. }
  assert (∀ a k, is_futex_waiting a k (futex_waiters t') = bool_decide (k ∈ queue (futex_waiters t) a ∧ k ∉ tids_of_group t1 g)) as Hw.
  { intros a k. rewrite is_futex_waiting_queue. apply bool_decide_ext. rewrite (Hq a), list_elem_of_filter. split; intros [? ?]; done. }
  split; [done| | |].
  - intros k p Hk Hpg. rewrite Hp. rewrite decide_True by (apply Hg; eauto). split; [done|]. intros a. rewrite Hw.
    apply bool_decide_eq_false. intros [_ Hn']. apply Hn', Hg. eauto.
  - intros k p Hk Hpg. assert (k ∉ tids_of_group t1 g) as Hn' by (rewrite Hg; naive_solver).
    rewrite Hp, decide_False, H1, Hk by done. split; [done|]. intros a. rewrite Hw, is_futex_waiting_queue.
    apply bool_decide_ext. tauto.
  - intros k Hk. rewrite Hp, H1, Hk. by case_decide.
Qed.

(** The exited child [wait_child] reports. *)
Definition zombie g sel p : bool := is_child g sel p && bool_decide (state p = Exited).

Lemma zombie_true g sel p : zombie g sel p = true ↔ is_child g sel p = true ∧ state p = Exited.
Proof. unfold zombie. by rewrite andb_true_iff, bool_decide_eq_true. Qed.
Lemma zombie_false g sel p : (is_child g sel p = true → state p ≠ Exited) → zombie g sel p = false.
Proof. intros Hz. apply not_true_iff_false. rewrite zombie_true. tauto. Qed.

Definition group_code t g : Z := default 0 (p ← processes t !! g; exit_code p).

Lemma wait_child_found t g sel c status :
  find_first (zombie g sel) (procs t) = Some c → wait_status (group_code t (tgid c)) = Ok status →
  ∃ t', wait_child g sel t = (Ok (tgid c, status), t') ∧ reaped (tgid c) t t'.
Proof.
  intros Hc Hst. unfold wait_child. rewrite stm_bind_eq. cbn [get]. unfold zombie in Hc. rewrite Hc.
  fold (group_code t (tgid c)). rewrite stm_bind_eq. unfold lift. rewrite Hst, stm_bind_eq.
  destruct (reap_run (tgid c) t) as (t' & -> & Hr). by exists t'.
Qed.

Lemma group_code_leader t g l code : processes t !! g = Some l → exit_code l = Some code → group_code t g = code.
Proof. intros Hl Hc. unfold group_code. rewrite Hl. simpl. by rewrite Hc. Qed.

(** C24: Waiting for children is complete: without a matching child it is
    ECHILD, with only living ones it is (0, 0) and nothing changes, and
    otherwise the exited child with the lowest thread id is reported with the
    status of its exit code; its whole thread group is removed from the table
    and from every futex queue, its living children go to init, and every
    other thread is as before. *)
Theorem wait_child_spec t g sel :
  (Forall (fun p => is_child g sel p = false) (procs t) → wait_child g sel t = (Err ECHILD, t)) ∧
  (∀ p, p ∈ procs t → is_child g sel p = true →
     Forall (fun q => is_child g sel q = true → state q ≠ Exited) (procs t) → wait_child g sel t = (Ok (0, 0), t)) ∧
  (∀ pre c post l code status,
     procs t = pre ++ c :: post → is_child g sel c = true → state c = Exited →
     Forall (fun q => is_child g sel q = true → state q ≠ Exited) pre →
     processes t !! tgid c = Some l → exit_code l = Some code → wait_status code = Ok status →
     ∃ t', wait_child g sel t = (Ok (tgid c, status), t') ∧ reaped (tgid c) t t').
Proof.
  split_and!.
  - intros Hno. rewrite Forall_forall in Hno. unfold wait_child. rewrite stm_bind_eq. cbn [get].
    fold (zombie g sel). rewrite (proj2 (find_first_None (zombie g sel) (procs t))).
    + destruct (existsb _ _) eqn:Hex; [|done]. apply existsb_exists in Hex as (p & Hin & Hp).
      rewrite Hno in Hp; [done|by apply list_elem_of_In].
    + intros p Hin. apply zombie_false. by rewrite (Hno p Hin).
  - intros p Hin Hp Hlive. rewrite Forall_forall in Hlive. unfold wait_child. rewrite stm_bind_eq. cbn [get].
    fold (zombie g sel). rewrite (proj2 (find_first_None (zombie g sel) (procs t))).
    + destruct (existsb _ _) eqn:Hex; [done|]. exfalso. apply not_true_iff_false in Hex. apply Hex, existsb_exists.
      exists p. split; [by apply list_elem_of_In|done].
    + intros q Hq. apply zombie_false. by apply Hlive.
  - intros pre c post l code status Hps Hc Hex Hpre Hl Hcode Hst. apply wait_child_found.
    + rewrite Hps. apply find_first_split; [|by apply zombie_true].
      eapply Forall_impl; [exact Hpre|]. intros q. apply zombie_false.
    + by rewrite (group_code_leader t _ l code).
Qed.

(** A thread that is not the leader and has exited makes wait reap its
    whole group while the group lives: threads are created with is_thread
    false, so the exited thread is taken for an exited child; wait reports the
    process as exited with status 0 and removes its running leader. *)
Theorem wait_reaps_live_group t g c l :
  wf t → processes t !! tid c = Some c → parent c = Some g → is_thread c = false → state c = Exited →
  processes t !! tgid c = Some l → tgid l = tgid c → state l ≠ Exited → exit_code l = None →
  ∃ t', wait_child g (SelPid (tgid c)) t = (Ok (tgid c, 0), t') ∧ processes t' !! tgid c = None.
Proof.
  intros Hwf Hc Hpar Hth Hex Hl Hlg Hlive Hnone.
  destruct (find_first (zombie g (SelPid (tgid c))) (procs t)) as [z|] eqn:Hf.
  - pose proof Hf as [_ Hz]%find_first_Some. apply zombie_true in Hz as [Hz _]. unfold is_child in Hz.
    apply andb_true_iff in Hz as [_ Hzg%Z.eqb_eq].
    destruct (wait_child_found t g (SelPid (tgid c)) z 0 Hf) as (t' & Hw & [_ Hgone _ _]).
    { unfold group_code. rewrite Hzg, Hl. simpl. by rewrite Hnone. }
    exists t'. rewrite Hzg in *. split; [done|]. by apply (Hgone _ l).
  - exfalso. rewrite find_first_None in Hf. specialize (Hf c). rewrite (proj2 (zombie_true _ _ _)) in Hf.
    + assert (true = false) by (apply Hf, elem_of_values; eauto). done.
    + unfold is_child. rewrite Hth, Hpar. simpl. rewrite Z.eqb_refl. by rewrite bool_decide_eq_true_2.
Qed.
End Wait.

(** ** Exit status *)
(** The decoding of a status by the C library. *)
Definition WTERMSIG (status : Z) : Z := Z.land status 0x7f.
Definition WIFEXITED (status : Z) : bool := WTERMSIG status =? 0.
Definition WEXITSTATUS (status : Z) : Z := Z.shiftr (Z.land status 0xff00) 8.
Definition WCOREDUMP (status : Z) : bool := negb (Z.land status 0x80 =? 0).

(** The signals whose default action dumps core. *)
Definition core_signals : list Z := [3; 4; 6; 7; 8; 11; 24; 25; 31].

(** A check on every number of an interval. *)
Definition all_from (lo : Z) (n : nat) (P : Z → bool) : bool := forallb P (seqZ lo (Z.of_nat n)).
Lemma all_from_spec lo n P x : all_from lo n P = true → lo ≤ x < lo + Z.of_nat n → P x = true.
Proof. unfold all_from. rewrite forallb_forall. intros HP Hx. apply HP, list_elem_of_In, elem_of_seqZ. lia. Qed.

(** The status of a waited child decodes to how it ended: an exit code of
    0..255 is recovered by WEXITSTATUS with WIFEXITED, death by signal 1..64
    is recovered by WTERMSIG with the core flag exactly for the core-dumping
    signals.  Every 32-bit exit code but the least gets a status; the least
    aborts the kernel, and a code of -s given to exit is indistinguishable
    from death by signal s. *)
Theorem wait_status_decodes :
  (∀ code, 0 ≤ code < 256 → ∃ st, wait_status code = Ok st ∧ WIFEXITED st = true ∧ WEXITSTATUS st = code) ∧
  (∀ s, 1 ≤ s < 65 → ∃ st, wait_status (- s) = Ok st ∧ WIFEXITED st = false ∧ WTERMSIG st = s ∧
     WCOREDUMP st = bool_decide (s ∈ core_signals)) ∧
  (∀ code, - 2 ^ 31 < code < 2 ^ 31 → ∃ st, wait_status code = Ok st) ∧
  wait_status (- 2 ^ 31) = Panic.
Proof.
  split_and!.
  - intros code Hc. pose (P := fun c => match wait_status c with
      | Ok st => WIFEXITED st && (WEXITSTATUS st =? c) | _ => false end).
    assert (P code = true) as HP by (apply (all_from_spec 0 256); [by vm_compute|lia]).
    unfold P in HP. destruct (wait_status code) as [st| | |]; try done. exists st.
    apply andb_true_iff in HP as [? ?%Z.eqb_eq]. done.
  - intros s Hs. pose (P := fun s => match wait_status (- s) with
      | Ok st => negb (WIFEXITED st) && (WTERMSIG st =? s) && eqb (WCOREDUMP st) (bool_decide (s ∈ core_signals))
      | _ => false end).
    assert (P s = true) as HP by (apply (all_from_spec 1 64); [by vm_compute|lia]).
    unfold P in HP. destruct (wait_status (- s)) as [st| | |]; try done. exists st.
    apply andb_true_iff in HP as [[?%negb_true_iff ?%Z.eqb_eq]%andb_true_iff ?%eqb_prop]. done.
  - intros code Hc. unfold wait_status. destruct (code <? 0); [|eauto].
    destruct (Z.eqb_spec code (- 2 ^ 31)); [lia|eauto].
  - by vm_compute.
Qed.

(** ** Signals *)
Lemma trailing_zeros_spec n w : 0 ≤ w → (∃ j, 0 ≤ j < Z.of_nat n ∧ Z.testbit w j = true) →
  let i := trailing_zeros n w in
  0 ≤ i < Z.of_nat n ∧ Z.testbit w i = true ∧ ∀ j, 0 ≤ j < i → Z.testbit w j = false.
Proof.
  revert w. induction n as [|n IH]; intros w Hw (j & Hj & Hb); [lia|]. cbn [trailing_zeros].
  destruct (Z.testbit w 0) eqn:H0; [split_and!; [lia..|done|lia]|].
  assert (j ≠ 0) by congruence.
  destruct (IH (Z.shiftr w 1)) as (Hi & Hbi & Hmin).
  { by apply Z.shiftr_nonneg. }
  { exists (j - 1). rewrite Z.shiftr_spec by lia. split; [lia|]. by replace (j - 1 + 1) with j by lia. }
  rewrite Z.shiftr_spec in Hbi by lia. split_and!; [lia..|by rewrite Z.add_comm|].
  intros k Hk. destruct (decide (k = 0)) as [->|]; [done|].
  specialize (Hmin (k - 1)). rewrite Z.shiftr_spec in Hmin by lia. replace k with (k - 1 + 1) by lia. apply Hmin. lia.
Qed.

Lemma testbit_bounded w n : 0 ≤ w < 2 ^ n → 0 ≤ n → w ≠ 0 → ∃ j, 0 ≤ j < n ∧ Z.testbit w j = true.
Proof.
  intros Hw Hn Hnz. exists (Z.log2 w). split; [|apply Z.bit_log2; lia].
  split; [apply Z.log2_nonneg|]. apply Z.log2_lt_pow2; lia.
Qed.

Lemma ldiff_bound a b n : 0 ≤ n → 0 ≤ a < 2 ^ n → 0 ≤ b → 0 ≤ Z.ldiff a b < 2 ^ n.
Proof.
  intros Hn Ha Hb. assert (0 ≤ Z.ldiff a b) as H0 by (apply Z.ldiff_nonneg; lia). split; [done|].
  destruct (decide (Z.ldiff a b = 0)) as [->|Hnz]; [lia|]. apply Z.log2_lt_pow2; [lia|].
  assert (Z.testbit (Z.ldiff a b) (Z.log2 (Z.ldiff a b)) = true) as Hbit by (apply Z.bit_log2; lia).
  rewrite Z.ldiff_spec in Hbit. apply andb_true_iff in Hbit as [Hbit _].
  apply Z.nle_gt. intros Hle. rewrite Z.bits_above_log2 in Hbit; [done|lia|].
  destruct (decide (a = 0)) as [->|]; [by rewrite Z.bits_0 in Hbit|].
  eapply Z.lt_le_trans; [apply (proj1 (Z.log2_lt_pow2 a n ltac:(lia))); lia|done].
Qed.

Section Signals.
Context {H A E : Type} `{!KernelEnv H A E}.
Implicit Types (t : table H A E) (p c : Process H A).

(** [signal] is pending for [p] and not masked. *)
Definition deliverable p (signal : Z) : Prop :=
  1 ≤ signal ≤ 64 ∧ Z.testbit (pending_signals p) (signal - 1) = true ∧
  Z.testbit (signal_mask p) (signal - 1) = false.

(** Taking a signal is exact: when no pending signal is unmasked the
    result is None and nothing changes; otherwise it is the lowest pending
    unmasked signal, which is then no longer pending, while every other
    signal stays pending or not as it was. *)
Theorem dequeue_lowest_signal t p :
  processes t !! current_tid t = Some p →
  0 ≤ pending_signals p < 2 ^ 64 → 0 ≤ signal_mask p →
  ((∀ s, ¬ deliverable p s) ∧ dequeue_unmasked_signal t = (Ok None, t)) ∨
  (∃ s p', deliverable p s ∧ (∀ s', s' < s → ¬ deliverable p s') ∧
     dequeue_unmasked_signal t = (Ok (Some s), with_processes (<[current_tid t := p']> (processes t)) t) ∧
     p' = set_pending (pending_signals p') p ∧
     (∀ s', 1 ≤ s' → Z.testbit (pending_signals p') (s' - 1) =
        (Z.testbit (pending_signals p) (s' - 1) && negb (s' =? s)))).
Proof.
  intros Hp Hpend Hmask. unfold dequeue_unmasked_signal. rewrite stm_bind_eq. cbn [get].
  rewrite stm_bind_eq. unfold lift, pending, current. rewrite Hp. cbn [ok_or mbind outcome_bind]. unfold andnot64.
  set (w := Z.ldiff (pending_signals p) (signal_mask p)).
  pose proof (ldiff_bound (pending_signals p) (signal_mask p) 64 ltac:(lia) Hpend Hmask) as Hw. fold w in Hw.
  assert (∀ s, deliverable p s ↔ 1 ≤ s ≤ 64 ∧ Z.testbit w (s - 1) = true) as Hdel.
  { intros s. unfold deliverable, w. rewrite Z.ldiff_spec, andb_true_iff, negb_true_iff. done. }
  destruct (Z.eqb_spec w 0) as [Hz|Hnz].
  { left. split; [|done]. intros s [_ Hs]%Hdel. by rewrite Hz, Z.bits_0 in Hs. }
  right. destruct (trailing_zeros_spec 64 w) as (Hi & Hb & Hmin); [lia|by apply testbit_bounded|].
  set (i := trailing_zeros 64 w) in *.
  exists (i + 1), (set_pending (Z.ldiff (pending_signals p) (bit64 i)) p). split_and!.
  - apply Hdel. replace (i + 1 - 1) with i by lia. split; [lia|done].
  - intros s' Hlt [Hr Hs]%Hdel. rewrite Hmin in Hs; [done|lia].
  - rewrite stm_bind_eq. unfold clear_pending_signal, bad_signal.
    destruct (Z.eqb_spec (i + 1) 0); [lia|]. destruct (Z.ltb_spec 64 (i + 1)); [lia|]. simpl.
    unfold update_current. rewrite stm_bind_eq. cbn [get]. rewrite stm_bind_eq. unfold lift, current. rewrite Hp. simpl.
    unfold andnot64. by replace (i + 1 - 1) with i by lia.
  - done.
  - intros s' Hs'. cbn [pending_signals set_pending]. rewrite Z.ldiff_spec. f_equal. f_equal.
    unfold bit64. rewrite Z.shiftl_spec by lia. destruct (Z.eqb_spec s' (i + 1)) as [->|Hne].
    + by replace (i + 1 - 1 - i) with 0 by lia.
    + destruct (decide (s' - 1 < i)); [by rewrite Z.testbit_neg_r by lia|].
      rewrite (Z.bits_above_log2 1); [done|lia|simpl; lia].
Qed.
End Signals.

(** ** Credentials *)
Section Credentials.
Context {H A E : Type} `{!KernelEnv H A E}.
Implicit Types (t : table H A E) (p c : Process H A).

Lemma setresuid_run t c ruid eu : processes t !! current_tid t = Some c →
  setresuid_current ruid eu t =
  if refused (uid c) (euid c) (default (uid c) ruid) (default (euid c) eu) then (Err EPERM, t)
  else (Ok tt, with_processes ((fun p => if tgid p =? tgid c then opt_set set_euid eu (opt_set set_uid ruid p) else p) <$> processes t) t).
Proof.
  intros Hc. unfold setresuid_current. rewrite stm_bind_eq. cbn [get]. rewrite stm_bind_eq. unfold lift, current.
  rewrite Hc. cbn [ok_or]. by destruct (refused _ _ _ _).
Qed.

(** The permission check of setresuid refuses only when neither of the two
    requested ids is a current one.  An unprivileged process can therefore ask
    for real id 0 while keeping its effective id: the call succeeds for every
    thread of the process, after which it is privileged and may take effective
    id 0 as well. *)
Theorem setresuid_escalates t c :
  processes t !! current_tid t = Some c → uid c ≠ 0 → euid c ≠ 0 →
  (∀ r e, r ≠ uid c → r ≠ euid c → e ≠ uid c → e ≠ euid c → setresuid_current (Some r) (Some e) t = (Err EPERM, t)) ∧
  ∃ t1 t2, setresuid_current (Some 0) None t = (Ok tt, t1) ∧ setresuid_current None (Some 0) t1 = (Ok tt, t2) ∧
    ∀ k p, processes t !! k = Some p → ∃ p', processes t2 !! k = Some p' ∧
      if tgid p =? tgid c then uid p' = 0 ∧ euid p' = 0 else p' = p.
Proof.
  intros Hc Hu He. split.
  - intros r e H1 H2 H3 H4. rewrite (setresuid_run t c) by done. simpl. unfold refused.
    rewrite !(proj2 (Z.eqb_neq _ _)) by done. done.
  - set (c1 := set_uid 0 c). rewrite (setresuid_run t c) by done. cbn [default from_option id].
    replace (refused (uid c) (euid c) 0 (euid c)) with false.
    2: { unfold refused. rewrite Z.eqb_refl. by rewrite !andb_false_r. }
    eexists. eexists. split; [reflexivity|]. rewrite (setresuid_run _ c1).
    2: { cbn. rewrite lookup_fmap, Hc. cbn. by rewrite Z.eqb_refl. }
    cbn [default from_option id c1 uid set_uid euid]. replace (refused 0 (euid c) 0 0) with false by done. split; [reflexivity|].
    intros k p Hk. cbn. rewrite !lookup_fmap, Hk. cbn. eexists. split; [reflexivity|].
    destruct (Z.eqb_spec (tgid p) (tgid c)) as [Heq|Hne]; cbn; [by rewrite Heq, Z.eqb_refl|].
    by destruct (Z.eqb_spec (tgid p) (tgid c)).
Qed.
End Credentials.

(** ** A small table *)
#[export] Instance sample_kernel : KernelEnv Obj.FileHandle Z (Kernel.kenv Empty_set) :=
  @Kernel.kernel_env Empty_set Mm.sample_hal (fun _ => true).

Abbreviation stable := (table Obj.FileHandle Z (Kernel.kenv Empty_set)).

Definition sample_env : Kernel.kenv Empty_set :=
  Kernel.mkEnv {[ 1 := (inner Mm.sample_space, 4) ]} 2 ∅ Vfs.empty_vfs.

(** Thread [k] of group [g] under [par], with user id 1000. *)
Definition sample_thread (k g : Z) (par : option Z) (st : ProcessState) (code : option Z)
    (files : gmap Z Obj.FileHandle) (alias : gmap Z Z) : Process Obj.FileHandle Z :=
  mkProcess k k g 1 1 par "p" "/" 1000 1000 1000 1000 [] 18 st code 1 files alias (new_user_frame 0 0) None None
    None 0 0 None ∅ None 0 None false None 0 None None None None false false false false 0 false None.

(** Init, an exited child with a living child of its own, and a waiter. *)
Definition sample_table : stable := mkTable 4 1
  {[ 1 := sample_thread 1 1 None Running None ∅ ∅;
     2 := sample_thread 2 2 (Some 1) Exited (Some 7) ∅ ∅;
     3 := sample_thread 3 3 (Some 2) Ready None ∅ ∅ ]} {[ 100 := [2; 3] ]} sample_env.

(** The invariant is decidable. *)
Definition wf_check (t : stable) : bool :=
  bool_decide (map_Forall (fun k p => tid p = k ∧ 1 ≤ k < next_pid t) (processes t)) &&
  bool_decide (1 ≤ next_pid t) && bool_decide (map_Forall (fun _ q => q ≠ []) (futex_waiters t)).
Lemma wf_check_wf t : wf_check t = true → wf t.
Proof.
  unfold wf_check. rewrite !andb_true_iff, !bool_decide_eq_true. intros [[Hp Hn] Hq].
  split; [| |done|]; intros k x Hk; [by apply (Hp k x Hk)..|by apply (Hq k x Hk)].
Qed.

Lemma table_reachable_wf_witness :
  let t : stable := (spawn "init" None 0x10000 (new sample_env)).2 in
  (fork_process_from_current t).1 = Ok 2 ∧ processes t !! 2 = None ∧
  ∀ k', (clone_thread_from_current 0x5000 None (fork_process_from_current t).2).1 = Ok k' → 2 < k'.
Proof.
  intros t. assert ((fork_process_from_current t).1 = Ok 2) as Hk by (by vm_compute). split; [done|].
  assert (rtc table_step (new sample_env) t) as Hr.
  { apply rtc_once. apply (ts_method _ (spawn "init" None 0x10000)). apply t_spawn. }
  destruct (table_reachable_wf sample_env t Hr) as [_ Hc]. destruct (Hc _ 2 cr_fork Hk) as (Hn & _ & Hlater).
  split; [done|]. intros k' Hk'. refine (Hlater _ _ k' (rtc_refl _ _) (cr_thread 0x5000 None) Hk').
Defined.

Lemma wait_child_spec_witness :
  ∃ t', wait_child 1 SelAny sample_table = (Ok (2, 0x700), t') ∧ reaped 2 sample_table t'.
Proof.
  destruct (wait_child_spec sample_table 1 SelAny) as (_ & _ & Hs).
  refine (Hs [sample_thread 1 1 None Running None ∅ ∅] (sample_thread 2 2 (Some 1) Exited (Some 7) ∅ ∅)
    [sample_thread 3 3 (Some 2) Ready None ∅ ∅] _ 7 0x700 _ _ _ _ _ _ _); try by vm_compute.
  constructor; [by vm_compute|constructor].
Defined.

Lemma dequeue_lowest_signal_witness :
  let p := set_pending 0x104 (sample_thread 1 1 None Running None ∅ ∅) in
  let t := with_processes {[ 1 := p ]} sample_table in
  (dequeue_unmasked_signal t).1 = Ok (Some 3) ∧
  (((∀ s, ¬ deliverable p s) ∧ dequeue_unmasked_signal t = (Ok None, t)) ∨
   (∃ s p', deliverable p s ∧ (∀ s', s' < s → ¬ deliverable p s') ∧
     dequeue_unmasked_signal t = (Ok (Some s), with_processes (<[1 := p']> (processes t)) t) ∧
     p' = set_pending (pending_signals p') p ∧
     (∀ s', 1 ≤ s' → Z.testbit (pending_signals p') (s' - 1) =
        (Z.testbit (pending_signals p) (s' - 1) && negb (s' =? s))))).
Proof.
  intros p t. split; [by vm_compute|]. apply (dequeue_lowest_signal t p); [by vm_compute|simpl; lia|simpl; lia].
Defined.

Lemma wait_reaps_live_group_witness :
  let t := with_processes {[ 2 := sample_thread 2 2 (Some 1) Running None ∅ ∅;
                             3 := sample_thread 3 2 (Some 1) Exited (Some 5) ∅ ∅ ]} sample_table in
  ∃ t', wait_child 1 (SelPid 2) t = (Ok (2, 0), t') ∧ processes t' !! 2 = None.
Proof.
  intros t. apply (wait_reaps_live_group t 1 (sample_thread 3 2 (Some 1) Exited (Some 5) ∅ ∅)
    (sample_thread 2 2 (Some 1) Running None ∅ ∅)); by (apply wf_check_wf; vm_compute) || by vm_compute.
Defined.

Lemma setresuid_escalates_witness :
  (setresuid_current (Some 0) (Some 0) sample_table).1 = Err EPERM ∧
  ∃ t1 t2, setresuid_current (Some 0) None sample_table = (Ok tt, t1) ∧ setresuid_current None (Some 0) t1 = (Ok tt, t2).
Proof.
  destruct (setresuid_escalates sample_table (sample_thread 1 1 None Running None ∅ ∅)) as [_ (t1 & t2 & H1 & H2 & _)];
    [by vm_compute..|]. split; [by vm_compute|]. eauto.
Defined.

End ProcProps.
