(* ===== verification/ProcTree.v ===== *)
(** * Process trees, exit and wait

    The breadth-first search behind subtree kills returns exactly the
    descendants, and a process group that exits is found by its parent's
    wait with its exit code. *)

From S2P Require Import Prelude AddrSpace Path FileObject Vfs Process KernelEnv ProcTable ProcSpec ProcProps.

Open Scope string_scope.
Open Scope list_scope.
Open Scope Z_scope.

Module ProcTree.
Import Mm Proc PTable ProcSpec ProcProps.

Section Tree.
Context {H A E : Type} `{!KernelEnv H A E}.
Implicit Types (t : table H A E) (p : Process H A) (g c root : Z).

(** [c] is a living process group whose parent group is [g]. *)
Definition child_of t g c : Prop :=
  ∃ p, p ∈ procs t ∧ live_leader p = true ∧ parent p = Some g ∧ tgid p = c ∧ c ≠ g.

Lemma elem_of_children_of t g c : c ∈ children_of t g ↔ child_of t g c.
Proof.
  unfold children_of, child_of. rewrite list_elem_of_omap. split.
  - intros (p & Hin & Hp). destruct (live_leader p) eqn:Hl; [|done]. simpl in Hp.
    case_bool_decide; [|done]. destruct (Z.eqb_spec (tgid p) g); simplify_eq/=. eauto 10.
  - intros (p & Hin & Hl & Hpar & <- & Hne). exists p. split; [done|].
    rewrite Hl, bool_decide_eq_true_2 by done. simpl. by destruct (Z.eqb_spec (tgid p) g).
Qed.

(** The processes whose parent has not been visited: each can enter the
    queue once more. *)
Definition unvisited t (out : list Z) : nat :=
  length (List.filter (fun p => match parent p with Some g => negb (existsb (Z.eqb g) out) | None => false end) (procs t)).

Lemma children_unvisited t g out : g ∉ out →
  (length (children_of t g) + unvisited t (out ++ [g]) ≤ unvisited t out)%nat.
Proof.
  intros Hg. unfold children_of, unvisited. induction (procs t) as [|p ps IH]; [done|].
  cbn [List.filter omap list_omap]. fold (@omap list list_omap (Process H A) Z). destruct (parent p) as [q|] eqn:Hq.
  - rewrite !existsb_eqb. destruct (decide (q = g)) as [->|Hne].
    + rewrite (bool_decide_eq_true_2 (g ∈ out ++ [g])) by set_solver. rewrite (bool_decide_eq_false_2 _ Hg). cbn [negb length].
      destruct (_ && _); cbn [length]; lia.
    + rewrite (bool_decide_eq_false_2 (Some q = Some g)) by congruence. rewrite andb_false_r. cbn [andb].
      rewrite (bool_decide_ext (q ∈ out ++ [g]) (q ∈ out)) by set_solver. destruct (negb _); cbn [length]; lia.
  - rewrite (bool_decide_eq_false_2 (None = Some g)) by done. rewrite andb_false_r. exact IH.
Qed.

(** What the search has seen so far is reachable, without repetition, and
    every child of a visited group has been seen. *)
Record bfs_inv t root (queue out : list Z) : Prop := mkBfs {
  bi_nodup : NoDup out;
  bi_root : root ∈ out ++ queue;
  bi_sound : ∀ g, g ∈ out ++ queue → rtc (child_of t) root g;
  bi_closed : ∀ g c, g ∈ out → child_of t g c → c ∈ out ++ queue;
}.

Lemma bfs_inv_skip t root g queue out : g ∈ out → bfs_inv t root (g :: queue) out → bfs_inv t root queue out.
Proof.
  intros Hg [Hn Hr Hs Hc]. split; [done| | |]; [set_solver..|].
  intros g' c Hg' Hch. specialize (Hc g' c Hg' Hch). set_solver.
Qed.

Lemma bfs_inv_visit t root g queue out : g ∉ out →
  bfs_inv t root (g :: queue) out → bfs_inv t root (queue ++ children_of t g) (out ++ [g]).
Proof.
  intros Hg [Hn Hr Hs Hc]. split.
  - apply NoDup_app. split_and!; [done|set_solver|apply NoDup_singleton].
  - set_solver.
  - intros g' Hin. rewrite !elem_of_app, elem_of_children_of in Hin.
    destruct Hin as [[?| ?%list_elem_of_singleton]|[?|Hch]]; [apply Hs; set_solver..|].
    apply rtc_r with g; [apply Hs; set_solver|done].
  - intros g' c Hg' Hch. rewrite !elem_of_app, elem_of_children_of.
    apply elem_of_app in Hg' as [Hg'| ->%list_elem_of_singleton]; [|by auto].
    specialize (Hc g' c Hg' Hch). set_solver.
Qed.

Lemma bfs_spec fuel t root queue out :
  (length queue + unvisited t out < fuel)%nat → bfs_inv t root queue out →
  ∃ gs, bfs fuel t queue out = Ok gs ∧ NoDup gs ∧ out `prefix_of` gs ∧ ∀ g, g ∈ gs ↔ rtc (child_of t) root g.
Proof.
  revert queue out. induction fuel as [|fuel IH]; intros queue out Hf Hinv; [lia|]. cbn [bfs].
  destruct queue as [|g queue].
  - destruct Hinv as [Hn Hr Hs Hc]. rewrite app_nil_r in *. exists out. split_and!; [done..|]. intros g. split; [by apply Hs|].
    intros Hrt. clear Hs IH. induction Hrt as [|x y z Hxy _ IHr]; eauto.
  - rewrite existsb_eqb. case_bool_decide as Hg.
    + apply IH; [simpl in Hf; lia|by eapply bfs_inv_skip].
    + destruct (IH (queue ++ children_of t g) (out ++ [g])) as (gs & -> & Hn & Hpre & Hgs).
      { rewrite length_app. pose proof (children_unvisited t g out Hg). simpl in Hf. lia. }
      { by apply bfs_inv_visit. }
      exists gs. split_and!; [done..| |done]. etrans; [|exact Hpre]. apply prefix_app_r. done.
Qed.

(** C32: The search for the descendants of a process group always ends and is
    exact: for a living group it lists, without repetition and starting with
    the group itself, precisely the groups reachable along parent-to-child
    edges, also when ids and parents form cycles; for a dead or unknown group
    it is empty. *)
Theorem descendants_exact t root :
  if bool_decide (Exists (fun p => live_leader p = true ∧ tgid p = root) (procs t)) then
    ∃ gs, descendant_process_groups t root = Ok (root :: gs) ∧ NoDup (root :: gs) ∧
      ∀ g, g ∈ root :: gs ↔ rtc (child_of t) root g
  else descendant_process_groups t root = Ok [].
Proof.
  unfold descendant_process_groups.
  assert (existsb (fun p => live_leader p && (tgid p =? root)) (procs t) =
    bool_decide (Exists (fun p => live_leader p = true ∧ tgid p = root) (procs t))) as ->.
  { apply eq_bool_prop_intro. rewrite bool_decide_spec, existb_True.
    split; intros Hex; (eapply Exists_impl; [exact Hex|]); intros p; cbv beta; rewrite andb_True, !Is_true_true, Z.eqb_eq; done. }
  case_bool_decide; [|done].
  change (bfs (S (S (length (procs t)))) t [root] []) with (bfs (S (length (procs t))) t (children_of t root) [root]).
  destruct (bfs_spec (S (length (procs t))) t root (children_of t root) [root]) as (gs & -> & Hn & [gs' ->] & Hgs).
  - pose proof (children_unvisited t root [] (not_elem_of_nil _)) as Hu. simpl in Hu.
    assert (unvisited t [] ≤ length (procs t))%nat by apply List.filter_length_le. lia.
  - apply (bfs_inv_visit t root root [] []); [apply not_elem_of_nil|].
    split; [apply NoDup_nil_2|set_solver|..].
    + intros g ->%list_elem_of_singleton. reflexivity.
    + intros g c Hg. by apply not_elem_of_nil in Hg.
  - exists gs'. done.
Qed.
End Tree.

(** ** Exit of a group *)
Section Exit.
Context {H A E : Type} `{!KernelEnv H A E}.
Implicit Types (t : table H A E) (p : Process H A) (g k code : Z).

Lemma on_env_run {B} (m : stm E B) t : ∃ r e, on_env m t = (r, with_env e t) ∧ m (env t) = (r, e).
Proof. unfold on_env. destruct (m (env t)) as [r e]. eauto. Qed.

(** [t'] is [t] where the threads [ks] have exited with [code]. *)
Record exited code (ks : list Z) t t' : Prop := mkExited {
  ex_next : next_pid t' = next_pid t;
  ex_current : current_tid t' = current_tid t;
  ex_processes : ∀ k, processes t' !! k = (if decide (k ∈ ks) then exit_process code else id) <$> processes t !! k;
  ex_queues : ∀ a, queue (futex_waiters t') a = filter (fun w => w ∉ ks) (queue (futex_waiters t) a);
}.

(** Without a robust list and a tid address to clear, nothing is written to
    user memory at exit. *)
Definition quiet p : Prop := robust_list p = None ∧ clear_child_tid p = None.

(** The update of thread [k] and the queues, whatever happened to files and memory. *)
Lemma exited_one code k t e p : processes t !! k = Some p →
  exited code [k] t (with_futex (remove_futex_waiter k (futex_waiters t))
    (with_env e (with_processes (<[k := exit_process code p]> (processes t)) t))).
Proof.
  intros Hp. split; [done..| |].
  - intros j. simpl. case_decide as Hj.
    + apply list_elem_of_singleton in Hj as ->. by rewrite lookup_insert_eq, Hp.
    + rewrite lookup_insert_ne by set_solver. by destruct (processes t !! j).
  - intros a. exact (queue_remove_all [k] (futex_waiters t) a).
Qed.

Lemma exit_member_run code k acc t :
  ∃ r t', exit_member code k acc t = (r, t') ∧ (∀ a, r = Ok a → exited code [k] t t') ∧
    ((∀ p, processes t !! k = Some p → quiet p) → ∃ a, r = Ok a).
Proof.
  unfold exit_member. rewrite stm_bind_eq. cbn [get]. destruct (processes t !! k) as [p|] eqn:Hp.
  - rewrite !stm_bind_eq. destruct (on_env_run (collect_robust_futex_addrs_for_exit p) t) as (r1 & e1 & -> & H1).
    assert (quiet p → ∃ a, r1 = Ok a) as Q1.
    { intros [Hr _]. unfold collect_robust_futex_addrs_for_exit in H1. rewrite Hr in H1. injection H1 as <- <-. eauto. }
    destruct r1 as [addrs| | |]; try (do 2 eexists; split_and!; [done..|naive_solver]). rewrite stm_bind_eq.
    set (m2 := match clear_child_tid p with Some addr => _ | None => _ end).
    assert (∃ r2 e2, m2 (with_env e1 t) = (r2, with_env e2 t) ∧ (quiet p → r2 = Ok tt)) as (r2 & e2 & -> & Q2).
    { unfold m2, quiet. destruct (clear_child_tid p) as [addr|].
      - destruct (on_env_run (try_write p addr (to_le_bytes 4 0)) (with_env e1 t)) as (r & e & -> & _).
        exists r, e. split; [done|naive_solver].
      - exists (Ok tt), e1. done. }
    destruct r2 as [[]| | |]; try (do 2 eexists; split_and!; [done..|naive_solver]).
    do 2 eexists. split_and!; [reflexivity|intros a _|eauto].
    exact (exited_one code k t _ p Hp).
  - do 2 eexists. split_and!; [reflexivity|intros a _|eauto]. split; [done..| |].
    + intros j. simpl. case_decide as Hj; [|by destruct (processes t !! j)].
      apply list_elem_of_singleton in Hj as ->. by rewrite Hp.
    + intros a'. exact (queue_remove_all [k] (futex_waiters t) a').
Qed.

Lemma exited_trans code k ks t t1 t2 : exited code [k] t t1 → exited code ks t1 t2 → exited code (k :: ks) t t2.
Proof.
  intros [Hn Hc Hp Hq] [Hn2 Hc2 Hp2 Hq2]. split; [congruence..| |].
  - intros j. rewrite Hp2, Hp. destruct (processes t !! j); simpl; [|done]. repeat case_decide; set_solver.
  - intros a. rewrite Hq2, Hq. apply (filter_cons_notin k ks).
Qed.

Lemma exit_members_run code ks acc t :
  ∃ r t', exit_members code ks acc t = (r, t') ∧ (∀ a, r = Ok a → exited code ks t t') ∧
    ((∀ k p, k ∈ ks → processes t !! k = Some p → quiet p) → ∃ a, r = Ok a).
Proof.
  revert acc t. induction ks as [|k ks IH]; intros acc t; cbn [exit_members].
  - do 2 eexists. split_and!; [reflexivity| |eauto]. intros a _. split; [done..| |].
    + intros j. simpl. by destruct (processes t !! j).
    + intros a'. exact (queue_remove_all [] (futex_waiters t) a').
  - rewrite stm_bind_eq. destruct (exit_member_run code k acc t) as (r & t1 & -> & He & Hq).
    destruct r as [a| | |]; try (do 2 eexists; split_and!; [done..|];
      intros Hall; destruct Hq as [? ?]; [intros; apply (Hall k); [set_solver|done]|done]).
    specialize (He a eq_refl). destruct (IH a t1) as (r2 & t2 & -> & He2 & Hq2). do 2 eexists. split_and!; [done| |].
    + intros a' Ha'. eapply exited_trans; [exact He|by eapply He2].
    + intros Hall. apply Hq2. intros j q Hj Hlook. rewrite (ex_processes _ _ _ _ He) in Hlook.
      apply fmap_Some in Hlook as (q' & Hlook & ->). specialize (Hall j q'). destruct (decide (j ∈ [k])); apply Hall; set_solver.
Qed.

(** Reporting a death changes at most the pending signals. *)
Lemma resolve_target_found t k i : wf t → resolve_target_tid t k = Ok i →
  ∃ p, processes t !! i = Some p ∧ state p ≠ Exited ∧ (i = k ∨ tgid p = k).
Proof.
  intros Hwf. unfold resolve_target_tid.
  set (by_group := ok_or _ _).
  assert (by_group = Ok i → ∃ p, processes t !! i = Some p ∧ state p ≠ Exited ∧ (i = k ∨ tgid p = k)) as Hg.
  { unfold by_group. destruct (find_first _ _) as [q|] eqn:Hf; [|done]. intros [= <-].
    apply find_first_Some in Hf as [[j Hj]%elem_of_values Hq]. rewrite (wf_tid _ Hwf j q Hj).
    exists q. apply andb_true_iff in Hq as [[?%Z.eqb_eq _]%andb_true_iff ?%negb_true_iff%bool_decide_eq_false]. auto. }
  destruct (processes t !! k) as [p|] eqn:Hp; [|done]. case_bool_decide; [done|]. intros [= <-]. eauto.
Qed.

Definition sigchld_to (o : outcome Z) (k : Z) : Process H A → Process H A :=
  if decide (o = Ok k) then add_pending SIGCHLD else id.

Lemma notify_parent_run g t : wf t →
  ∃ t', notify_parent (Some g) t = (Ok tt, t') ∧ next_pid t' = next_pid t ∧ current_tid t' = current_tid t ∧
    futex_waiters t' = futex_waiters t ∧
    ∀ k, processes t' !! k = sigchld_to (resolve_target_tid t g) k <$> processes t !! k.
Proof.
  intros Hwf. unfold notify_parent, send_signal, send_signal_tid. change (64 <? SIGCHLD) with false.
  change (SIGCHLD =? 0) with false. cbv iota. rewrite !stm_bind_eq. cbn [get]. rewrite !stm_bind_eq. unfold lift at 1.
  destruct (resolve_target_tid t g) as [i| | |] eqn:Hr;
    try (eexists; split_and!; [reflexivity|done..|]; intros k; by destruct (processes t !! k)).
  - destruct (resolve_target_found t g i Hwf Hr) as (p & Hp & Hex & _).
    rewrite stm_bind_eq. unfold lift. rewrite Hp. cbn [ok_or]. rewrite bool_decide_eq_false_2 by done.
    eexists. split_and!; [reflexivity|done..|]. intros k. simpl. unfold sigchld_to. case_decide as Hk.
    + simplify_eq. by rewrite lookup_insert_eq, Hp.
    + rewrite lookup_insert_ne by congruence. by destruct (processes t !! k).
  - unfold resolve_target_tid in Hr. unfold ok_or in Hr. repeat case_match; done.
  - unfold resolve_target_tid in Hr. unfold ok_or in Hr. repeat case_match; done.
Qed.

Lemma sigchld_same o k p :
  tgid (sigchld_to o k p) = tgid p ∧ state (sigchld_to o k p) = state p ∧
  exit_code (sigchld_to o k p) = exit_code p ∧ parent (sigchld_to o k p) = parent p ∧
  is_thread (sigchld_to o k p) = is_thread p ∧ tid (sigchld_to o k p) = tid p.
Proof. unfold sigchld_to. by case_decide. Qed.

Lemma exit_group_run t p g code :
  wf t → processes t !! current_tid t = Some p → parent p = Some g →
  ∃ r t', exit_current_process_group code t = (r, t') ∧
    ((∀ k q, processes t !! k = Some q → tgid q = tgid p → quiet q) → ∃ x, r = Ok x) ∧
    (∀ x, r = Ok x → ∃ o, ∀ k, processes t' !! k =
       (fun q => sigchld_to o k (if tgid q =? tgid p then exit_process code q else q)) <$> processes t !! k).
Proof.
  intros Hwf Hp Hpar. unfold exit_current_process_group. rewrite stm_bind_eq. cbn [get]. rewrite stm_bind_eq.
  unfold lift, current. rewrite Hp. cbn [ok_or]. rewrite stm_bind_eq.
  pose proof (exit_members_keeps t code (tids_of_group t (tgid p)) [] Hwf) as (Hwf1 & _ & _).
  destruct (exit_members_run code (tids_of_group t (tgid p)) [] t) as (r1 & t1 & Hrun & He & Hq). rewrite Hrun in *.
  assert ((∀ k q, processes t !! k = Some q → tgid q = tgid p → quiet q) → ∃ a, r1 = Ok a) as Hq'.
  { intros Hall. apply Hq. intros k q Hk Hlook. apply elem_of_tids_of_group in Hk as (q' & Hq1 & Hg).
    simplify_eq. eauto. }
  destruct r1 as [a| | |]; try (do 2 eexists; split_and!; [reflexivity|intros Hall; by destruct (Hq' Hall)|done]).
  specialize (He a eq_refl). rewrite stm_bind_eq, Hpar.
  destruct (notify_parent_run g t1 Hwf1) as (t2 & -> & _ & _ & _ & Hn).
  do 2 eexists. split_and!; [reflexivity|eauto|]. intros x _. eexists. intros k. rewrite Hn, (ex_processes _ _ _ _ He).
  rewrite <- option_fmap_compose. destruct (processes t !! k) as [q|] eqn:Hk; simpl; [|done]. do 2 f_equal.
  destruct (Z.eqb_spec (tgid q) (tgid p)) as [Hg|Hg].
  - rewrite decide_True; [done|]. apply elem_of_tids_of_group. eauto.
  - rewrite decide_False; [done|]. rewrite elem_of_tids_of_group. intros (? & ? & ?). by simplify_eq.
Qed.

(** C5: Exit and wait fit together: when no thread of the group has a robust
    list or a tid address to clear, exit of the group always succeeds; and
    whenever it does, every thread of the group has exited with the code, no
    other thread has exited, and the parent's wait for that process returns
    its id with the status of the code and removes the whole group. *)
Theorem exit_then_wait t p l g code status :
  wf t → processes t !! current_tid t = Some p → parent p = Some g →
  processes t !! tgid p = Some l → tgid l = tgid p → parent l = Some g → is_thread l = false →
  wait_status code = Ok status →
  ((∀ k q, processes t !! k = Some q → tgid q = tgid p → quiet q) →
   ∃ x t', exit_current_process_group code t = (Ok x, t')) ∧
  (∀ x t', exit_current_process_group code t = (Ok x, t') →
   (∀ k q, processes t !! k = Some q → ∃ q', processes t' !! k = Some q' ∧ tgid q' = tgid q ∧
      if tgid q =? tgid p then state q' = Exited ∧ exit_code q' = Some code ∧ fds q' = ∅ else state q' = state q) ∧
   ∃ t'', wait_child g (SelPid (tgid p)) t' = (Ok (tgid p, status), t'') ∧
     (∀ k q, processes t'' !! k = Some q → tgid q ≠ tgid p) ∧
     (∀ k q, processes t !! k = Some q → tgid q ≠ tgid p → is_Some (processes t'' !! k))).
Proof.
  intros Hwf Hp Hpar Hl Hlg Hlp Hlt Hst.
  destruct (exit_group_run t p g code Hwf Hp Hpar) as (r & t1 & Hrun & Hok & Hproc). split.
  { intros Hall. destruct (Hok Hall) as [x ->]. eauto. }
  intros x t' Hx. rewrite Hrun in Hx. simplify_eq. destruct (Hproc x eq_refl) as [o Ho]. clear Hproc Hok. split.
  { intros k q Hk. rewrite Ho, Hk. simpl. eexists. split; [done|].
    destruct (sigchld_same o k (if tgid q =? tgid p then exit_process code q else q)) as (-> & -> & -> & _).
    destruct (Z.eqb_spec (tgid q) (tgid p)); split_and!; try done. unfold sigchld_to. by case_decide. }
  assert (processes t' !! tgid p = Some (sigchld_to o (tgid p) (exit_process code l))) as Hl'.
  { rewrite Ho, Hl. simpl. by rewrite Hlg, Z.eqb_refl. }
  destruct (sigchld_same o (tgid p) (exit_process code l)) as (Lg & Ls & Lc & Lp & Lt & _).
  destruct (find_first (zombie g (SelPid (tgid p))) (procs t')) as [c|] eqn:Hf.
  - pose proof Hf as [Hin Hz]%find_first_Some. apply zombie_true in Hz as [Hz _]. unfold is_child in Hz.
    apply andb_true_iff in Hz as [_ Hc%Z.eqb_eq]. simpl in Hc.
    destruct (wait_child_found t' g (SelPid (tgid p)) c status) as (t'' & Hw & [_ Hgone Hoth Hnew]); [done| |].
    { rewrite Hc, (group_code_leader t' _ _ code Hl') by (by rewrite Lc). done. }
    rewrite Hc in *. exists t''. split_and!; [done| |].
    + intros k q Hk Hq. destruct (processes t' !! k) as [q1|] eqn:Hk1; [|by rewrite (Hnew k Hk1) in Hk].
      destruct (decide (tgid q1 = tgid p)) as [Hg|Hg]; [by rewrite (proj1 (Hgone k q1 Hk1 Hg)) in Hk|].
      rewrite (proj1 (Hoth k q1 Hk1 Hg)) in Hk. simplify_eq. by rewrite reparented_tgid in Hq.
    + intros k q Hk Hq. assert (processes t' !! k = Some (sigchld_to o k q)) as Hk1.
      { rewrite Ho, Hk. simpl. by destruct (Z.eqb_spec (tgid q) (tgid p)). }
      rewrite (proj1 (Hoth k _ Hk1 ltac:(by rewrite (proj1 (sigchld_same o k q))))). eauto.
  - exfalso. rewrite find_first_None in Hf. specialize (Hf (sigchld_to o (tgid p) (exit_process code l))).
    rewrite (proj2 (zombie_true _ _ _)) in Hf.
    + assert (true = false) by (apply Hf, elem_of_values; eauto). done.
    + unfold is_child. rewrite Ls, Lt, Lp. simpl. rewrite Lg. simpl. rewrite Hlt, Hlp, Hlg, Z.eqb_refl.
      by rewrite bool_decide_eq_true_2.
Qed.
End Exit.

(** ** Exec *)
Section Exec.
Context {H A E : Type} `{!KernelEnv H A E}.
Implicit Types (t : table H A E) (p : Process H A) (e : E).

(** The code ignores errors of this step, but not a panic. *)
Definition completes {B} (m : stm E B) e : bool := match (m e).1 with Ok _ | Err _ => true | _ => false end.

Lemma ignore_run {B} (m : stm E B) e : completes m e = true → ∃ e', ignore m e = (Ok tt, e').
Proof. unfold completes, ignore. destruct (m e) as [[] ?]; eauto; done. Qed.

(** The image after exec. *)
Record fresh_image (entry : Z) (sp : option Z) (kept : gmap Z H) p p' : Prop := mkFresh {
  fi_ids : tid p' = tid p ∧ tgid p' = tgid p ∧ pid p' = tgid p ∧ parent p' = parent p;
  fi_cred : uid p' = uid p ∧ euid p' = euid p ∧ gid p' = gid p ∧ egid p' = egid p ∧ cwd p' = cwd p;
  fi_files : fds p' = kept ∧ fd_alias p' = fd_alias p;
  fi_frame : trap_frame p' = new_user_frame entry (default (USER_STACK_TOP - 16) sp);
  fi_signals : pending_signals p' = 0 ∧ signal_mask p' = 0 ∧ signal_actions p' = ∅ ∧ robust_list p' = None;
}.

(** The stack of the new image can be mapped in the cleared space. *)
Definition stack_maps (a : A) e : bool :=
  completes (space_map_fixed a stack_base [] USER_STACK_MAP_SIZE 3) (space_clear a e).

Lemma reset_image_run entry sp p e : stack_maps (address_space p) e = true →
  ∃ p' e', reset_image entry sp p e = (Ok p', e').
Proof.
  intros Hc. unfold reset_image. rewrite stm_bind_eq. unfold modify. rewrite stm_bind_eq.
  destruct (ignore_run _ (space_clear (address_space p) e) Hc) as [e' ->]. eauto.
Qed.

Lemma reset_image_fresh entry sp p e p' e' :
  reset_image entry sp p e = (Ok p', e') → fresh_image entry sp (fds p) p (set_leader false (tgid p') p').
Proof.
  unfold reset_image. rewrite stm_bind_eq. unfold modify. rewrite stm_bind_eq.
  destruct (ignore _ _) as [[] ?]; try done. intros [= <- _]. by split.
Qed.

(** The descriptors that survive exec. *)
Definition survivors (m : gmap Z H) : gmap Z H :=
  filter (fun '(_, h) => Z.land (handle_flags h) HANDLE_FLAG_CLOEXEC = 0) m.

(** [t'] is [t] after a successful exec of its current process [p]. *)
Definition exec_result (entry : Z) (sp : option Z) p t t' : Prop :=
  ∃ p', processes t' !! current_tid t = Some p' ∧ fresh_image entry sp (survivors (fds p)) p p' ∧
    ∀ k q, k ≠ current_tid t → processes t' !! k = Some q ↔ processes t !! k = Some q ∧ tgid q ≠ tgid p.

(** Files and memory once the other threads of the group are gone. *)
Definition other_threads t p : list Z := filter (fun k => k ≠ current_tid t) (tids_of_group t (tgid p)).
Definition exec_env t p : E :=
  env (for_each (other_threads t p) (fun k => _ ← remove_process k; forget_waiter k) t).2.
Definition dropped (m : gmap Z H) : gmap Z H :=
  filter (fun '(_, h) => Z.land (handle_flags h) HANDLE_FLAG_CLOEXEC ≠ 0) m.

Lemma execve_run t p entry sp :
  wf t → processes t !! current_tid t = Some p →
  ∃ r t', execve_current_image entry sp t = (r, t') ∧ (∀ x, r = Ok x → exec_result entry sp p t t') ∧
    (space_is_shared (address_space p) (exec_env t p) = false →
     stack_maps (address_space p) (drop_fds (dropped (fds p)) (exec_env t p)) = true → r = Ok tt).
Proof.
  intros Hwf Hp. unfold execve_current_image, exec_env. rewrite stm_bind_eq. cbn [get].
  rewrite stm_bind_eq. unfold lift at 1, current_tgid, current. rewrite Hp. cbn [ok_or fmap outcome_fmap].
  rewrite stm_bind_eq. unfold lift at 1, current_tid_of, current. rewrite Hp. cbn [ok_or fmap outcome_fmap].
  rewrite (wf_tid _ Hwf _ _ Hp), stm_bind_eq. fold (other_threads t p). set (ks := other_threads t p).
  destruct (drop_threads_run ks t) as (t1 & -> & [Hn Hc Hpr Hq]). cbn [snd].
  assert (∀ k, k ∈ ks ↔ k ≠ current_tid t ∧ ∃ q, processes t !! k = Some q ∧ tgid q = tgid p) as Hks.
  { intros k. unfold ks, other_threads. by rewrite list_elem_of_filter, elem_of_tids_of_group. }
  assert (processes t1 !! current_tid t1 = Some p) as Hp1.
  { rewrite Hc, Hpr, decide_False; [done|]. rewrite Hks. tauto. }
  rewrite stm_bind_eq. cbn [get]. rewrite stm_bind_eq. unfold lift, current. rewrite Hp1. cbn [ok_or].
  rewrite stm_bind_eq.
  match goal with |- context [if space_is_shared _ _ then ?m1 else ?m2] => set (clone := m1) end.
  assert (∃ r e, (if space_is_shared (address_space p) (env t1) then clone else mret (address_space p)) t1 = (r, with_env e t1) ∧
    (space_is_shared (address_space p) (env t1) = false → r = Ok (address_space p) ∧ e = env t1)) as (r & e & -> & Hr).
  { destruct (space_is_shared _ _); [|exists (Ok (address_space p)), (env t1); by destruct t1].
    unfold clone. rewrite stm_bind_eq. destruct (on_env_run (space_clone_private (address_space p)) t1) as (r & e & -> & _).
    destruct r as [a| | |]; [|by eexists _, e..].
    exists (Ok a), (space_drop (address_space p) e). done. }
  destruct r as [a| | |]; try (do 2 eexists; split_and!; [reflexivity|done|]; intros Hs; by destruct (Hr Hs)).
  rewrite stm_bind_eq. unfold on_env at 1, modify at 1. rewrite stm_bind_eq.
  fold (survivors (fds p)). set (p1 := set_fds (survivors (fds p)) (set_space a p)).
  match goal with |- context [on_env (reset_image entry sp p1) ?s] => destruct (on_env_run (reset_image entry sp p1) s) as (r2 & e2 & -> & H2) end.
  cbn [env with_env] in H2. fold (dropped (fds p)) in H2.
  destruct r2 as [p2| | |].
  - unfold put_process, modify. rewrite Hc. do 2 eexists. split_and!; [reflexivity| |done].
    intros x _. exists (set_leader false (tgid p2) p2). cbn. rewrite lookup_insert_eq. split_and!; [done| |].
    + pose proof (reset_image_fresh _ _ _ _ _ _ H2) as []. by split.
    + intros k q Hk. rewrite lookup_insert_ne by done. rewrite Hpr. case_decide as Hin; rewrite Hks in Hin; [|naive_solver].
      split; [done|]. intros [Hq1 Hne]. destruct Hin as (_ & q' & Hq' & ?). congruence.
  - do 2 eexists. split_and!; [reflexivity|done|]. intros Hs Hm. destruct (Hr Hs) as [[= ->] ->].
    destruct (reset_image_run entry sp p1 _ Hm) as (? & ? & ?). congruence.
  - do 2 eexists. split_and!; [reflexivity|done|]. intros Hs Hm. destruct (Hr Hs) as [[= ->] ->].
    destruct (reset_image_run entry sp p1 _ Hm) as (? & ? & ?). congruence.
  - do 2 eexists. split_and!; [reflexivity|done|]. intros Hs Hm. destruct (Hr Hs) as [[= ->] ->].
    destruct (reset_image_run entry sp p1 _ Hm) as (? & ? & ?). congruence.
Qed.

(** C22: Exec replaces the image of the calling thread and ends the other
    threads of its group: the descriptors without the close-on-exec flag are
    kept, the frame starts at the entry point, signal state and robust list
    are reset, ids and credentials stay, and other processes are untouched.
    It succeeds whenever the address space is not shared with another
    process and mapping the new stack does not abort. *)
Theorem exec_spec t p entry sp :
  wf t → processes t !! current_tid t = Some p →
  (∀ x t', execve_current_image entry sp t = (Ok x, t') → exec_result entry sp p t t') ∧
  (space_is_shared (address_space p) (exec_env t p) = false →
   stack_maps (address_space p) (drop_fds (dropped (fds p)) (exec_env t p)) = true →
   ∃ t', execve_current_image entry sp t = (Ok tt, t')).
Proof.
  intros Hwf Hp. destruct (execve_run t p entry sp Hwf Hp) as (r & t' & -> & Hr & Hok). split.
  - intros x t1 [= -> <-]. eauto.
  - intros Hs Hm. rewrite (Hok Hs Hm). eauto.
Qed.
End Exec.

(** A process of two threads under init. *)
Definition exit_table : stable := mkTable 4 2
  {[ 1 := sample_thread 1 1 None Ready None ∅ ∅;
     2 := sample_thread 2 2 (Some 1) Running None ∅ ∅;
     3 := sample_thread 3 2 (Some 1) Ready None ∅ ∅ ]} {[ 100 := [3] ]} sample_env.



Lemma exit_then_wait_witness :
  ∃ x t' t'', exit_current_process_group 7 exit_table = (Ok x, t') ∧
    wait_child 1 (SelPid 2) t' = (Ok (2, 0x700), t'') ∧ ∀ k q, processes t'' !! k = Some q → tgid q ≠ 2.
Proof.
  destruct (exit_then_wait exit_table (sample_thread 2 2 (Some 1) Running None ∅ ∅)
    (sample_thread 2 2 (Some 1) Running None ∅ ∅) 1 7 0x700) as [Hret Hw];
    [by apply wf_check_wf; vm_compute|by vm_compute..|].
  destruct Hret as (x & t' & Hx).
  { assert (map_Forall (fun _ q => quiet q) (processes exit_table)) as Hq; [|intros k q Hk _; exact (Hq k q Hk)].
    apply map_Forall_insert_2; [by split|]. apply map_Forall_insert_2; [by split|].
    apply map_Forall_singleton. by split. }
  destruct (Hw x t' Hx) as (_ & t'' & H2 & H3 & _). exists x, t', t''. done.
Defined.

(** A process of two threads with a close-on-exec file and its duplicate. *)
Definition sample_handle (flags : Z) : Obj.FileHandle := Obj.mkHandle 1 0 flags "/f" Obj.PNone.
Definition exec_files : gmap Z Obj.FileHandle := {[ 3 := sample_handle HANDLE_FLAG_CLOEXEC; 4 := sample_handle 0 ]}.
Definition exec_process : Process Obj.FileHandle Z :=
  sample_thread 2 2 (Some 1) Running None exec_files {[ 3 := 3; 4 := 3 ]}.
Definition exec_table : stable := mkTable 4 2
  {[ 2 := exec_process; 3 := sample_thread 3 2 (Some 1) Ready None ∅ ∅ ]} ∅
  (Kernel.mkEnv {[ 1 := (inner Mm.sample_space, 2) ]} 2 ∅ Vfs.empty_vfs).

(** A kernel out of memory: the stack is not mapped, which exec ignores. *)
#[export] Instance full_kernel : KernelEnv Obj.FileHandle Z (Kernel.kenv Empty_set) :=
  @Kernel.kernel_env Empty_set Mm.sample_hal (fun _ => false).

Lemma exec_spec_witness :
  ∃ t', execve_current_image 0x10000 None exec_table = (Ok tt, t') ∧
    exec_result 0x10000 None exec_process exec_table t' ∧ survivors exec_files = {[ 4 := sample_handle 0 ]}.
Proof.
  destruct (exec_spec exec_table exec_process 0x10000 None) as [Hr Hok];
    [by apply wf_check_wf; vm_compute|by vm_compute|].
  destruct Hok as [t' Ht']; [by vm_compute..|]. exists t'. split_and!; [done|by eapply Hr|by vm_compute].
Defined.

End ProcTree.
