(* ===== verification/FdTable.v ===== *)
(** * Descriptor tables refine open file descriptions

    POSIX shares one offset between the duplicates of a descriptor.  The
    code keeps an offset in every handle and a leader for every descriptor,
    and copies offsets from the leader before an operation and to the
    duplicates after it.  Here the table of a process is shown to implement
    descriptors that refer to shared descriptions. *)

From S2P Require Import Prelude AddrSpace Path FileObject Vfs Process KernelEnv ProcTable ProcSpec ProcProps ProcTree.

Open Scope Z_scope.

Module Fd.
Import Mm Proc PTable ProcSpec ProcProps ProcTree.

(** The offset of a handle is a field. *)
Class HandleLaws (H A E : Type) `{!KernelEnv H A E} : Prop := {
  offset_set o h : handle_offset (handle_set_offset o h) = o;
  set_offset_same h : handle_set_offset (handle_offset h) h = h;
  set_offset_set o o' h : handle_set_offset o (handle_set_offset o' h) = handle_set_offset o h;
}.

#[export] Instance kernel_handle_laws (M : Type) (hal : HalMemory) can_reserve :
  @HandleLaws _ _ _ (@Kernel.kernel_env M hal can_reserve).
Proof. split; [done|intros []; done|done]. Qed.

(** ** Specification: descriptors of shared descriptions *)
Record descriptions := mkDescr {
  d_of : gmap Z Z;
  d_off : gmap Z Z;
  d_next : Z;
}.

Definition a_open (fd o : Z) (a : descriptions) : descriptions :=
  mkDescr (<[fd := d_next a]> (d_of a)) (<[d_next a := o]> (d_off a)) (d_next a + 1).
Definition a_dup (src fd : Z) (a : descriptions) : descriptions :=
  mkDescr (partial_alter (fun _ => d_of a !! src) fd (d_of a)) (d_off a) (d_next a).
Definition a_close (fd : Z) (a : descriptions) : descriptions :=
  mkDescr (delete fd (d_of a)) (d_off a) (d_next a).
Definition a_seek (fd o : Z) (a : descriptions) : descriptions :=
  mkDescr (d_of a) (match d_of a !! fd with Some d => <[d := o]> (d_off a) | None => d_off a end) (d_next a).

Section Refine.
Context {H A E : Type} `{!KernelEnv H A E, !HandleLaws H A E}.
Implicit Types (p : Process H A) (h : H) (m : gmap Z H) (fd l : Z).

(** The leader of a descriptor: a descriptor without an entry leads itself. *)
Definition lead (alias : gmap Z Z) fd : Z := default fd (alias !! fd).
(** Only open descriptors have entries, and their leaders are open and lead
    themselves. *)
Record alias_ok m (alias : gmap Z Z) : Prop := mkAliasOk {
  al_open : ∀ fd l, alias !! fd = Some l → is_Some (m !! fd);
  al_leader : ∀ fd l, alias !! fd = Some l → is_Some (m !! l) ∧ lead alias l = l;
}.

Record refines p (a : descriptions) : Prop := mkRefines {
  rf_alias : alias_ok (fds p) (fd_alias p);
  rf_dom : ∀ fd, is_Some (d_of a !! fd) ↔ is_Some (fds p !! fd);
  rf_off : ∀ fd h d, fds p !! fd = Some h → d_of a !! fd = Some d → d_off a !! d = Some (handle_offset h);
  rf_same : ∀ fd1 fd2 d1 d2, d_of a !! fd1 = Some d1 → d_of a !! fd2 = Some d2 →
              d1 = d2 ↔ lead (fd_alias p) fd1 = lead (fd_alias p) fd2;
  rf_next : ∀ fd d, d_of a !! fd = Some d → d < d_next a;
}.

(** [fd] is the least free descriptor from [lo] on. *)
Definition least_free m (lo fd : Z) : Prop :=
  lo ≤ fd ∧ m !! fd = None ∧ ∀ j, lo ≤ j < fd → is_Some (m !! j).

Lemma free_fd_ext fuel m m' fd : (∀ j, fd ≤ j → m !! j = m' !! j) → free_fd fuel m fd = free_fd fuel m' fd.
Proof.
  revert fd. induction fuel as [|fuel IH]; intros fd Hj; [done|]. cbn [free_fd]. rewrite Hj by lia.
  destruct (m' !! fd); [|done]. apply IH. intros. apply Hj. lia.
Qed.

(** The search ends: a table with fewer entries than steps has a free number. *)
Lemma free_fd_spec fuel m lo : (size m < fuel)%nat → ∃ fd, free_fd fuel m lo = Ok fd ∧ least_free m lo fd.
Proof.
  revert m lo. induction fuel as [|fuel IH]; intros m lo Hs; [lia|]. cbn [free_fd].
  destruct (m !! lo) as [h|] eqn:Hlo.
  - destruct (IH (delete lo m) (lo + 1)) as (fd & Hfd & Hle & Hnone & Hall).
    { rewrite map_size_delete_Some by eauto. assert (size m ≠ 0%nat); [|lia].
      intros Hz%map_size_empty_inv. by subst. }
    exists fd. rewrite (free_fd_ext _ m (delete lo m)) by (intros; rewrite lookup_delete_ne by lia; done).
    split; [done|]. rewrite lookup_delete_ne in Hnone by lia. split_and!; [lia|done|]. intros j Hj.
    destruct (decide (j = lo)) as [->|]; [eauto|]. specialize (Hall j). rewrite lookup_delete_ne in Hall by lia.
    apply Hall. lia.
  - exists lo. split; [done|]. split_and!; [lia|done|lia].
Qed.

Lemma lead_insert alias fd l x : lead (<[fd := l]> alias) x = if decide (fd = x) then l else lead alias x.
Proof. unfold lead. rewrite lookup_insert. by case_decide. Qed.
Lemma lead_open m alias fd : alias_ok m alias → is_Some (m !! fd) → is_Some (m !! lead alias fd) ∧ lead alias (lead alias fd) = lead alias fd.
Proof.
  intros Hok Ho. unfold lead at 1 3 4. destruct (alias !! fd) as [l|] eqn:Hl; simpl; [by apply (al_leader _ _ Hok fd)|].
  split; [done|]. unfold lead. by rewrite Hl.
Qed.
Lemma alias_chain_lead n alias l : lead alias l = l → alias_chain n alias l = l.
Proof.
  unfold lead. destruct n as [|n]; [done|]. cbn [alias_chain]. destruct (alias !! l) as [x|]; simpl; [intros ->|done].
  by rewrite Z.eqb_refl.
Qed.
Lemma alias_open p fd h : alias_ok (fds p) (fd_alias p) → fds p !! fd = Some h →
  let l := lead (fd_alias p) fd in
  ∃ hl, fds p !! l = Some hl ∧ lead (fd_alias p) l = l ∧ fd_alias_leader p fd = Ok l.
Proof.
  intros Hok Hfd l. destruct (lead_open _ _ fd Hok) as [[hl Hhl] Hll]; [eauto|]. exists hl. split_and!; [done..|].
  unfold fd_alias_leader, fd_get. rewrite Hfd. cbn [ok_or mbind outcome_bind]. f_equal. by apply alias_chain_lead.
Qed.

(** A new leader of its own. *)
Lemma alias_ok_follow m alias fd l h : alias_ok m alias → m !! fd = None →
  l = fd ∨ is_Some (m !! l) ∧ lead alias l = l → alias_ok (<[fd := h]> m) (<[fd := l]> alias).
Proof.
  intros [Ho Hl] Hn Hlead. split.
  - intros x y. rewrite lookup_insert_Some, lookup_insert_is_Some. intros [[<- _]|[? ?]]; [by left|right; eauto].
  - intros x y. rewrite lookup_insert_Some, lookup_insert_is_Some, lead_insert. intros [[<- <-]|[Hx Hal]].
    + destruct Hlead as [->|[Hol Hll]]; [by rewrite decide_True by done; auto|]. case_decide as Hf; [by auto|]. auto.
    + destruct (Hl _ _ Hal) as [[hy Hy] Hyy]. rewrite decide_False by congruence. split; [right; split; [congruence|eauto]|done].
Qed.
Lemma alias_ok_open m alias fd h : alias_ok m alias → m !! fd = None → alias_ok (<[fd := h]> m) (<[fd := fd]> alias).
Proof. intros Hok Hn. apply alias_ok_follow; auto. Qed.
Lemma lead_ne m alias fd x : alias_ok m alias → m !! fd = None → x ≠ fd → lead alias x ≠ fd.
Proof.
  intros [Ho Hl] Hn Hx. unfold lead. destruct (alias !! x) as [l|] eqn:Hal; simpl; [|done]. intros ->.
  destruct (Hl _ _ Hal) as [[? ?] _]. congruence.
Qed.

(** The members of a group after its leader is closed. *)
Lemma elem_of_aliases_of alias l fd : fd ∈ aliases_of alias l ↔ alias !! fd = Some l.
Proof.
  unfold aliases_of. rewrite list_elem_of_omap. split.
  - intros ([x y] & Hin & Hxy). apply elem_of_items in Hin. destruct (Z.eqb_spec y l); naive_solver.
  - intros Hal. exists (fd, l). by rewrite elem_of_items, Z.eqb_refl.
Qed.

Lemma lookup_insert_all (ks : list Z) (v : Z) (alias : gmap Z Z) x :
  foldl (fun al c => <[c := v]> al) alias ks !! x = if decide (x ∈ ks) then Some v else alias !! x.
Proof.
  revert alias. induction ks as [|k ks IH]; intros alias; cbn [foldl]; [by case_decide; [set_solver|]|].
  rewrite IH. destruct (decide (x = k)) as [->|Hne].
  - rewrite lookup_insert_eq. rewrite (decide_True (P := k ∈ k :: ks)) by set_solver. by case_decide.
  - rewrite lookup_insert_ne by done. repeat case_decide; set_solver.
Qed.

Lemma relead_lookup fd alias x :
  relead fd alias !! x =
  match aliases_of alias fd with
  | [] => alias !! x
  | nl :: _ => if decide (alias !! x = Some fd) then Some nl else alias !! x
  end.
Proof.
  unfold relead. destruct (aliases_of alias fd) as [|nl rest] eqn:Heq; [done|].
  assert (∀ y, y ∈ nl :: rest ↔ alias !! y = Some fd) as Hin by (intros y; rewrite <- Heq; apply elem_of_aliases_of).
  rewrite lookup_insert_all. specialize (Hin x). rewrite elem_of_cons in Hin.
  destruct (decide (x = nl)) as [->|Hne].
  - rewrite lookup_insert_eq, (decide_True (P := alias !! nl = _)) by naive_solver. by case_decide.
  - rewrite lookup_insert_ne by done. repeat case_decide; naive_solver.
Qed.

Lemma refines_closed p a fd : refines p a → fds p !! fd = None → d_of a !! fd = None.
Proof. intros Hr Hn. apply eq_None_not_Some. rewrite (rf_dom _ _ Hr), Hn. by intros [? ?]. Qed.

(** *** open *)
Lemma refines_open p a fd h : refines p a → fds p !! fd = None →
  refines (set_alias (<[fd := fd]> (fd_alias p)) (set_fds (<[fd := h]> (fds p)) p)) (a_open fd (handle_offset h) a).
Proof.
  intros Hr Hn. pose proof (refines_closed _ _ _ Hr Hn) as Hd. destruct Hr as [Hal Hdom Hoff Hsame Hnx].
  pose proof (fun x => lead_ne _ _ fd x Hal Hn) as Hne.
  split; cbn [fds fd_alias set_alias set_fds a_open d_of d_off d_next].
  - by apply alias_ok_open.
  - intros x. rewrite !lookup_insert_is_Some. specialize (Hdom x). naive_solver.
  - intros x hx d. rewrite !lookup_insert_Some. intros [[<- <-]|[Hx Hfx]] [[? <-]|[? Hdx]]; try done.
    + left. done.
    + right. split; [specialize (Hnx x d Hdx); lia|]. by apply (Hoff x).
  - intros x y d1 d2. rewrite !lookup_insert_Some, !lead_insert. intros [[<- <-]|[Hx Hdx]] [[<- <-]|[Hy Hdy]];
      repeat case_decide; try done.
    + specialize (Hnx _ _ Hdy). split; [lia|]. intros Heq. by destruct (Hne y (not_eq_sym Hy)).
    + specialize (Hnx _ _ Hdx). split; [lia|]. intros Heq. by destruct (Hne x (not_eq_sym Hx)).
    + by apply Hsame.
  - intros x d. rewrite lookup_insert_Some. intros [[_ <-]|[_ Hdx]]; [lia|]. specialize (Hnx _ _ Hdx). lia.
Qed.

(** *** dup *)
Lemma refines_dup p a src fd h hs (l := lead (fd_alias p) src) :
  refines p a → fds p !! fd = None → fds p !! src = Some hs → handle_offset h = handle_offset hs →
  refines (set_alias (<[fd := l]> (fd_alias p)) (set_fds (<[fd := h]> (fds p)) p)) (a_dup src fd a).
Proof.
  intros Hr Hn Hsrc Ho. pose proof (refines_closed _ _ _ Hr Hn) as Hdn. destruct Hr as [Hal Hdom Hoff Hsame Hnx].
  assert (fd ≠ src) as Hfs by congruence.
  destruct (proj2 (Hdom src)) as [d Hd]; [eauto|].
  split; unfold a_dup; cbn [fds fd_alias set_alias set_fds d_of d_off d_next]; rewrite ?Hd;
    change (partial_alter (fun _ => Some d) fd (d_of a)) with (<[fd := d]> (d_of a)).
  - apply alias_ok_follow; [done..|]. right. by apply lead_open; [|eauto].
  - intros x. rewrite !lookup_insert_is_Some. specialize (Hdom x). naive_solver.
  - intros x hx dx. rewrite !lookup_insert_Some. intros [[<- <-]|[Hx Hfx]] [[? <-]|[? Hdx]]; try done.
    + rewrite Ho. by apply (Hoff src).
    + by apply (Hoff x).
  - intros x y d1 d2. rewrite !lookup_insert_Some, !lead_insert. intros [[<- <-]|[Hx Hdx]] [[<- <-]|[Hy Hdy]];
      repeat case_decide; try done; by apply Hsame.
  - intros x dx. rewrite lookup_insert_Some. intros [[_ <-]|[_ Hdx]]; eauto.
Qed.

(** *** close *)
(** The leaders of the other descriptors: a group that lost its leader gets
    its first member. *)
Lemma lead_relead fd alias x : x ≠ fd →
  lead (relead fd (delete fd alias)) x =
  match aliases_of (delete fd alias) fd with
  | nl :: _ => if decide (lead alias x = fd) then nl else lead alias x
  | [] => lead alias x
  end ∧ (aliases_of (delete fd alias) fd = [] → lead alias x ≠ fd).
Proof.
  intros Hx. assert (lead alias x = fd ↔ alias !! x = Some fd) as Hiff.
  { unfold lead. destruct (alias !! x); simpl; naive_solver. }
  split.
  - unfold lead at 1. rewrite relead_lookup, lookup_delete_ne by done. destruct (aliases_of _ _); [done|].
    rewrite (decide_ext _ _ _ _ Hiff). by case_decide.
  - intros Hnil Hl%Hiff. assert (x ∈ aliases_of (delete fd alias) fd) as Hin by (apply elem_of_aliases_of; by rewrite lookup_delete_ne).
    rewrite Hnil in Hin. by apply not_elem_of_nil in Hin.
Qed.
Lemma first_member fd alias nl rest : aliases_of (delete fd alias) fd = nl :: rest → nl ≠ fd ∧ alias !! nl = Some fd.
Proof.
  intros Heq. assert (nl ∈ aliases_of (delete fd alias) fd) as Hin by (rewrite Heq; set_solver).
  apply elem_of_aliases_of, lookup_delete_Some in Hin. naive_solver.
Qed.
(** The first member becomes the leader and had another one before. *)
Lemma first_leads fd alias nl rest : aliases_of (delete fd alias) fd = nl :: rest →
  lead (relead fd (delete fd alias)) nl = nl ∧ lead alias nl = fd.
Proof.
  intros Heq. destruct (first_member _ _ _ _ Heq) as [Hne Hal]. assert (lead alias nl = fd) as Hl by (unfold lead; by rewrite Hal).
  split; [|done]. rewrite (proj1 (lead_relead fd alias nl Hne)), Heq. by rewrite decide_True.
Qed.

Lemma alias_ok_close m alias fd : alias_ok m alias →
  alias_ok (delete fd m) (relead fd (delete fd alias)).
Proof.
  intros Hok. pose proof Hok as [Ho Hl].
  assert (∀ x, is_Some (relead fd (delete fd alias) !! x) → x ≠ fd ∧ is_Some (alias !! x)) as Hsub.
  { intros x [l Hx]. rewrite relead_lookup in Hx. assert (is_Some (delete fd alias !! x)) as [y Hy].
    { destruct (aliases_of _ _); [eauto|]. case_decide as Hd; eauto. }
    apply lookup_delete_Some in Hy. naive_solver. }
  split.
  - intros x l Hx. destruct (Hsub x) as [Hne [y Hy]]; [eauto|]. rewrite lookup_delete_ne by done. eauto.
  - intros x l Hx. destruct (Hsub x) as [Hne [y Hy]]; [eauto|].
    assert (lead (relead fd (delete fd alias)) x = l) as Hlx by (unfold lead; by rewrite Hx).
    destruct (lead_relead fd alias x Hne) as [Hrl Hnil]. rewrite Hlx in Hrl.
    destruct (lead_open m alias x Hok) as [Hlo Hll]; [eauto|].
    destruct (aliases_of (delete fd alias) fd) as [|nl rest] eqn:Heq.
    + specialize (Hnil eq_refl). rewrite Hrl, lookup_delete_ne by done. split; [done|].
      by rewrite (proj1 (lead_relead fd alias _ Hnil)), Heq, Hll.
    + destruct (first_member _ _ _ _ Heq) as [Hnf Hnl]. destruct (first_leads _ _ _ _ Heq) as [Hl1 Hl2].
      case_decide as Hd; rewrite Hrl.
      * rewrite lookup_delete_ne by congruence. split; [eauto|done].
      * rewrite lookup_delete_ne by congruence. split; [done|]. rewrite (proj1 (lead_relead fd alias _ Hd)), Heq, Hll.
        by rewrite decide_False.
Qed.

Lemma relead_same m fd alias x y : alias_ok m alias → x ≠ fd → y ≠ fd → is_Some (m !! x) → is_Some (m !! y) →
  lead (relead fd (delete fd alias)) x = lead (relead fd (delete fd alias)) y ↔ lead alias x = lead alias y.
Proof.
  intros Hok Hx Hy Hox Hoy. rewrite (proj1 (lead_relead fd alias x Hx)), (proj1 (lead_relead fd alias y Hy)).
  destruct (aliases_of (delete fd alias) fd) as [|nl rest] eqn:Heq; [done|].
  destruct (first_leads _ _ _ _ Heq) as [_ Hnl]. destruct (first_member _ _ _ _ Heq) as [Hnf _].
  assert (∀ z, is_Some (m !! z) → lead alias z ≠ nl) as Hno.
  { intros z Hz He. destruct (lead_open m alias z Hok Hz) as [_ Hll]. rewrite He in Hll. congruence. }
  pose proof (Hno x Hox). pose proof (Hno y Hoy). repeat case_decide; naive_solver congruence.
Qed.

Lemma refines_close p a fd : refines p a →
  refines (set_alias (relead fd (delete fd (fd_alias p))) (set_fds (delete fd (fds p)) p)) (a_close fd a).
Proof.
  intros [Hal Hdom Hoff Hsame Hnx]. split; cbn [fds fd_alias set_alias set_fds a_close d_of d_off d_next].
  - by apply alias_ok_close.
  - intros x. rewrite !lookup_delete_is_Some, Hdom. done.
  - intros x h d [Hx Hh]%lookup_delete_Some [_ Hd]%lookup_delete_Some. by apply (Hoff x).
  - intros x y d1 d2 [Hx Hdx]%lookup_delete_Some [Hy Hdy]%lookup_delete_Some.
    rewrite (relead_same (fds p)); [by apply Hsame|done|by apply not_eq_sym..| |]; apply Hdom; eauto.
  - intros x d [_ Hd]%lookup_delete_Some. eauto.
Qed.

(** *** offsets *)
Lemma refines_coherent p a fd1 fd2 h1 h2 : refines p a →
  fds p !! fd1 = Some h1 → fds p !! fd2 = Some h2 → lead (fd_alias p) fd1 = lead (fd_alias p) fd2 →
  handle_offset h1 = handle_offset h2.
Proof.
  intros [Hal Hdom Hoff Hsame _] H1 H2 Heq. destruct (proj2 (Hdom fd1)) as [d1 Hd1]; [eauto|].
  destruct (proj2 (Hdom fd2)) as [d2 Hd2]; [eauto|]. pose proof (Hoff _ _ _ H1 Hd1) as Ho1.
  pose proof (Hoff _ _ _ H2 Hd2) as Ho2. rewrite (proj2 (Hsame _ _ _ _ Hd1 Hd2) Heq) in Ho1. congruence.
Qed.

Lemma sync_from_run p a fd h : refines p a → fds p !! fd = Some h → sync_fd_offset_from_alias fd p = (Ok tt, p).
Proof.
  intros Hr Hfd. destruct (alias_open p fd h (rf_alias _ _ Hr) Hfd) as (hl & Hhl & Hll & Hlead).
  unfold sync_fd_offset_from_alias. rewrite stm_bind_eq. cbn [get]. rewrite stm_bind_eq. unfold lift. rewrite Hlead.
  destruct (Z.eqb_spec (lead (fd_alias p) fd) fd) as [|Hne]; [done|]. rewrite stm_bind_eq. unfold fd_get. rewrite Hhl. cbn [ok_or].
  rewrite stm_bind_eq, Hfd. cbn [ok_or]. unfold put. do 2 f_equal.
  rewrite (refines_coherent p a (lead (fd_alias p) fd) fd hl h) by done.
  rewrite alter_id; [by destruct p|]. intros x Hx. rewrite Hfd in Hx. simplify_eq. apply set_offset_same.
Qed.

Lemma lookup_alter_all (ks : list Z) (o : Z) m x :
  foldl (fun m k => alter (handle_set_offset o) k m) m ks !! x =
  (if decide (x ∈ ks) then handle_set_offset o else id) <$> m !! x.
Proof.
  revert m. induction ks as [|k ks IH]; intros m; cbn [foldl].
  - case_decide; [set_solver|]. by destruct (m !! x).
  - rewrite IH. destruct (decide (x = k)) as [->|Hne].
    + rewrite lookup_alter_eq. rewrite (decide_True (P := k ∈ k :: ks)) by set_solver.
      destruct (m !! k); simpl; [|done]. case_decide; simpl; by rewrite ?set_offset_set.
    + rewrite lookup_alter_ne by done. destruct (m !! x); simpl; [|done]. repeat case_decide; set_solver.
Qed.

Lemma sync_to_run p fd h : alias_ok (fds p) (fd_alias p) → fds p !! fd = Some h →
  ∃ m, sync_fd_offset_to_aliases fd p = (Ok tt, set_fds m p) ∧
    ∀ x, m !! x = (if decide (lead (fd_alias p) x = lead (fd_alias p) fd) then handle_set_offset (handle_offset h) else id) <$> fds p !! x.
Proof.
  intros Hok Hfd. destruct (alias_open p fd h Hok Hfd) as (hl & Hhl & Hll & Hlead). set (l := lead (fd_alias p) fd) in *.
  unfold sync_fd_offset_to_aliases. rewrite stm_bind_eq. cbn [get]. rewrite stm_bind_eq. unfold lift. rewrite Hlead.
  rewrite stm_bind_eq. unfold fd_get. rewrite Hfd. cbn [ok_or]. eexists. split; [reflexivity|]. intros x.
  destruct (decide (x = l)) as [->|Hne].
  - rewrite lookup_alter_eq, lookup_alter_all, Hhl. rewrite (decide_True (P := lead _ l = _)) by done. simpl.
    case_decide; simpl; by rewrite ?set_offset_set.
  - assert (x ∈ aliases_of (fd_alias p) l ↔ lead (fd_alias p) x = l) as Hiff.
    { rewrite elem_of_aliases_of. unfold lead. destruct (fd_alias p !! x); simpl; naive_solver. }
    rewrite lookup_alter_ne by done. rewrite lookup_alter_all. by rewrite (decide_ext _ _ _ _ Hiff).
Qed.

Lemma alias_ok_dom m m' alias : (∀ x, is_Some (m' !! x) ↔ is_Some (m !! x)) → alias_ok m alias → alias_ok m' alias.
Proof. intros Hd [Ho Hl]. split; intros x l Hx; rewrite Hd; eauto. Qed.

(** A change of the offset through one descriptor, then copied to the others. *)
Lemma refines_seek p a fd h o : refines p a → fds p !! fd = Some h →
  ∃ p', sync_fd_offset_to_aliases fd (set_fds (<[fd := handle_set_offset o h]> (fds p)) p) = (Ok tt, p') ∧
    refines p' (a_seek fd o a).
Proof.
  intros Hr Hfd. set (p1 := set_fds (<[fd := handle_set_offset o h]> (fds p)) p).
  destruct Hr as [Hal Hdom Hoff Hsame Hnx].
  assert (∀ x, is_Some (<[fd := handle_set_offset o h]> (fds p) !! x) ↔ is_Some (fds p !! x)) as Hdm.
  { intros x. rewrite lookup_insert_is_Some. destruct (decide (fd = x)); naive_solver. }
  assert (alias_ok (fds p1) (fd_alias p1)) as Hal1.
  { apply (alias_ok_dom (fds p)); done. }
  destruct (sync_to_run p1 fd (handle_set_offset o h) Hal1) as (m & Hrun & Hm); [by apply lookup_insert_eq|].
  rewrite offset_set in Hm. cbn [fds fd_alias p1 set_fds] in Hm. exists (set_fds m p1). split; [done|].
  destruct (proj2 (Hdom fd)) as [d Hd]; [eauto|].
  split; unfold a_seek; cbn [fds fd_alias set_fds p1 d_of d_off d_next]; rewrite ?Hd.
  - apply (alias_ok_dom (fds p)); [|done]. intros x. by rewrite Hm, fmap_is_Some, Hdm.
  - intros x. rewrite Hm, fmap_is_Some, Hdm. apply Hdom.
  - intros x hx dx. rewrite Hm. intros (h0 & Hx & ->)%fmap_Some Hdx. rewrite lookup_insert_Some in Hx.
    destruct (decide (lead (fd_alias p) x = lead (fd_alias p) fd)) as [Heq|Hneq].
    + rewrite (proj2 (Hsame _ _ _ _ Hdx Hd) Heq), lookup_insert_eq, offset_set. done.
    + destruct Hx as [[<- _]|[Hx Hfx]]; [done|]. rewrite lookup_insert_ne; [by apply (Hoff x)|].
      intros <-. apply Hneq. by apply (Hsame _ _ _ _ Hdx Hd).
  - done.
  - done.
Qed.

Lemma add_fd_run p h : ∃ fd, least_free (fds p) 0 fd ∧
  add_fd h p = (Ok fd, set_alias (<[fd := fd]> (fd_alias p)) (set_fds (<[fd := h]> (fds p)) p)).
Proof.
  destruct (free_fd_spec (S (size (fds p))) (fds p) 0) as (fd & Hfree & Hleast); [lia|]. exists fd. split; [done|].
  unfold add_fd. rewrite stm_bind_eq. cbn [get]. rewrite stm_bind_eq. unfold lift. by rewrite Hfree.
Qed.

Lemma add_fd_from_run p a src hs h : refines p a → fds p !! src = Some hs → handle_offset h = handle_offset hs →
  ∃ fd p', add_fd_from src h p = (Ok fd, p') ∧ least_free (fds p) 0 fd ∧ refines p' (a_dup src fd a).
Proof.
  intros Hr Hsrc Ho. destruct (add_fd_run p h) as (fd & Hleast & Hadd). pose proof Hleast as (_ & Hnone & _).
  set (p1 := set_alias (<[fd := fd]> (fd_alias p)) (set_fds (<[fd := h]> (fds p)) p)) in *.
  assert (fd ≠ src) as Hne by congruence.
  assert (alias_ok (fds p1) (fd_alias p1)) as Hal1 by (apply alias_ok_open; [exact (rf_alias _ _ Hr)|done]).
  destruct (alias_open p1 src hs Hal1) as (hl & _ & _ & Hlead); [by cbn; rewrite lookup_insert_ne|].
  cbn [fd_alias set_alias set_fds p1] in Hlead. rewrite lead_insert, decide_False in Hlead by done.
  pose proof (refines_dup p a src fd h hs Hr Hnone Hsrc Ho) as Hr2. set (l := lead (fd_alias p) src) in *.
  exists fd. eexists. split; [|by split; [exact Hleast|exact Hr2]].
  unfold add_fd_from. rewrite stm_bind_eq, Hadd. rewrite stm_bind_eq. cbn [get]. rewrite stm_bind_eq. unfold lift.
  rewrite Hlead. rewrite stm_bind_eq. unfold put.
  replace (set_alias (<[fd := l]> (fd_alias p1)) p1) with (set_alias (<[fd := l]> (fd_alias p)) (set_fds (<[fd := h]> (fds p)) p)).
  2: { unfold p1, set_alias, set_fds; cbn. by rewrite insert_insert_eq. }
  rewrite stm_bind_eq. rewrite (sync_from_run _ _ fd h Hr2); [done|]. by cbn; rewrite lookup_insert_eq.
Qed.

(** A copy of the table, as fork and thread creation make it. *)
Lemma refines_copy p c a : fds c = fds p → fd_alias c = fd_alias p → refines p a → refines c a.
Proof. intros Hf Ha [? ? ? ? ?]. by split; rewrite ?Hf, ?Ha. Qed.
Lemma fork_tables p k e c e' st tls :
  fork_from p k e = (Ok c, e') ∨ fork_from_shared p k e = (Ok c, e') ∨ clone_thread_from p k st tls e = (Ok c, e') →
  fds c = fds p ∧ fd_alias c = fd_alias p.
Proof.
  unfold fork_from, fork_from_shared, clone_thread_from. intros [Hf|[Hf|Hf]];
    repeat (apply stm_bind_Ok in Hf as (? & ? & _ & Hf)); by injection Hf as <- _.
Qed.

(** C4: The descriptor table of a process implements descriptors that share
    open file descriptions: opening takes the least free number with a new
    description, dup gives the least free number the description of its
    source, close drops one descriptor and errs with EBADF exactly when it is
    not open, and an offset changed through one descriptor is the offset of
    all descriptors of its description and of no other.  None of these can
    fail on an open descriptor.  A forked process and a new thread start with a
    table of the same descriptions.  The table has to be one in which the
    leaders of duplicates are open: [refines_bare] shows it for tables without
    entries, as the boot leaves them; an exec that closes a leader breaks it
    ([exec_strands_duplicate]). *)
Theorem fd_table_refines p a : refines p a →
  (∀ h, ∃ fd p', add_fd h p = (Ok fd, p') ∧ least_free (fds p) 0 fd ∧ fds p' !! fd = Some h ∧
     refines p' (a_open fd (handle_offset h) a)) ∧
  (∀ src hs h, fds p !! src = Some hs → handle_offset h = handle_offset hs →
     ∃ fd p', add_fd_from src h p = (Ok fd, p') ∧ least_free (fds p) 0 fd ∧ refines p' (a_dup src fd a)) ∧
  (∀ fd (e : E), match fds p !! fd with
     | None => close_fd fd (p, e) = (Err EBADF, (p, e))
     | Some h => ∃ p', close_fd fd (p, e) = (Ok tt, (p', handle_drop h e)) ∧ refines p' (a_close fd a)
     end) ∧
  (∀ fd h o, fds p !! fd = Some h →
     sync_fd_offset_from_alias fd p = (Ok tt, p) ∧ d_off a !! (d_of a !!! fd) = Some (handle_offset h) ∧
     ∃ p', sync_fd_offset_to_aliases fd (set_fds (<[fd := handle_set_offset o h]> (fds p)) p) = (Ok tt, p') ∧
       refines p' (a_seek fd o a)) ∧
  (∀ k e c e' st tls,
     fork_from p k e = (Ok c, e') ∨ fork_from_shared p k e = (Ok c, e') ∨ clone_thread_from p k st tls e = (Ok c, e') →
     refines c a).
Proof.
  intros Hr. split_and!.
  - intros h. destruct (add_fd_run p h) as (fd & Hleast & ->). exists fd. eexists. split_and!; [done..| |].
    + by cbn; rewrite lookup_insert_eq.
    + apply refines_open; [done|]. apply Hleast.
  - intros src hs h. by apply add_fd_from_run.
  - intros fd e. unfold close_fd. destruct (fds p !! fd) as [h|] eqn:Hfd; [|done]. eexists. split; [done|].
    by apply refines_close.
  - intros fd h o Hfd. split_and!; [by eapply sync_from_run| |by apply refines_seek].
    destruct (proj2 (rf_dom _ _ Hr fd)) as [d Hd]; [eauto|].
    rewrite (lookup_total_correct _ _ _ Hd). by apply (rf_off _ _ Hr fd).
  - intros k e c e' st tls [Hf Ha]%fork_tables. by apply (refines_copy p).
Qed.

(** Without entries every descriptor has a description of its own. *)
Definition own_descriptions m : descriptions :=
  mkDescr (map_imap (fun fd _ => Some fd) m) (handle_offset <$> m) (1 + foldr Z.max 0 (map_to_list m).*1).
Lemma max_key m fd h : m !! fd = Some h → fd ≤ foldr Z.max 0 (map_to_list m).*1.
Proof.
  intros Hm%elem_of_map_to_list. assert (fd ∈ (map_to_list m).*1) as Hin by (apply list_elem_of_fmap; by exists (fd, h)).
  induction (map_to_list m).*1 as [|x l IH]; [by apply elem_of_nil in Hin|].
  simpl. apply elem_of_cons in Hin as [->|Hin]; [lia|]. specialize (IH Hin). lia.
Qed.
Lemma refines_bare p : fd_alias p = ∅ → refines p (own_descriptions (fds p)).
Proof.
  intros Ha. assert (∀ fd d, map_imap (fun fd _ => Some fd) (fds p) !! fd = Some d ↔ d = fd ∧ is_Some (fds p !! fd)) as Hd.
  { intros fd d. rewrite map_lookup_imap. destruct (fds p !! fd); simpl; split; [intros [= <-]; eauto|by intros [-> _]|done|by intros [_ [? ?]]]. }
  split; rewrite ?Ha; cbn [own_descriptions d_of d_off d_next].
  - split; intros fd l; by rewrite lookup_empty.
  - intros fd. split; [intros [d Hx%Hd]; apply Hx|intros Hx; exists fd; by apply Hd].
  - intros fd h d Hf [-> _]%Hd. by rewrite lookup_fmap, Hf.
  - intros fd1 fd2 d1 d2 [-> _]%Hd [-> _]%Hd. unfold lead. by rewrite !lookup_empty.
  - intros fd d [-> [h Hh]]%Hd. apply max_key in Hh. lia.
Qed.

(** Exec can strand a duplicate: when the leader of a descriptor has the
    close-on-exec flag and the descriptor itself has not, exec closes the
    leader but keeps the alias, so the descriptor is still open in the new
    image while every operation on it, which first copies the offset from the
    leader, fails with EBADF. *)
Theorem exec_strands_duplicate (t t' : table H A E) p entry sp fd l h hl :
  wf t → processes t !! current_tid t = Some p →
  fds p !! fd = Some h → Z.land (handle_flags h) HANDLE_FLAG_CLOEXEC = 0 →
  fd_alias p !! fd = Some l → fd_alias p !! l = Some l → l ≠ fd →
  fds p !! l = Some hl → Z.land (handle_flags hl) HANDLE_FLAG_CLOEXEC ≠ 0 →
  execve_current_image entry sp t = (Ok tt, t') →
  ∃ p', processes t' !! current_tid t = Some p' ∧ fds p' !! fd = Some h ∧
    sync_fd_offset_from_alias fd p' = (Err EBADF, p').
Proof.
  intros Hwf Hp Hfd Hfl Hal Hll Hne Hl Hlf Hex.
  destruct (execve_run t p entry sp Hwf Hp) as (r & t1 & Hrun & Hr & _). rewrite Hex in Hrun. simplify_eq.
  destruct (Hr tt eq_refl) as (p' & Hp' & [_ _ [Hfds Hali] _ _] & _). exists p'. split; [done|].
  assert (fds p' !! fd = Some h) as Hfd' by (rewrite Hfds; by apply map_lookup_filter_Some).
  assert (fds p' !! l = None) as Hl'.
  { rewrite Hfds. apply map_lookup_filter_None. right. intros x Hx. by simplify_eq. }
  split; [done|]. unfold sync_fd_offset_from_alias. rewrite stm_bind_eq. cbn [get]. rewrite stm_bind_eq.
  unfold lift, fd_alias_leader, fd_get. rewrite Hfd', Hali, Hal. cbn. rewrite Hll, Z.eqb_refl.
  destruct (Z.eqb_spec l fd); [done|]. by rewrite stm_bind_eq, Hl'.
Qed.
End Refine.

(** The table of the first process after the boot: three descriptors and no
    entries of duplicates. *)
Definition stdio_process := set_fds {[0 := sample_handle 0; 1 := sample_handle 0; 2 := sample_handle 0]} (sample_thread 1 1 None Running None ∅ ∅).
Lemma fd_table_refines_witness :
  (∀ h, ∃ fd p', add_fd h stdio_process = (Ok fd, p') ∧ least_free (fds stdio_process) 0 fd ∧ fds p' !! fd = Some h ∧
     refines p' (a_open fd (handle_offset h) (own_descriptions (fds stdio_process)))) ∧
  (let p2 := (add_fd_from 0 (sample_handle 0) stdio_process).2 in
   let p3 := (sync_fd_offset_to_aliases 3 (set_fds (<[3 := handle_set_offset 42 (sample_handle 0)]> (fds p2)) p2)).2 in
   handle_offset <$> fds p3 !! 0 = Some 42).
Proof. split; [|by vm_compute]. apply (proj1 (fd_table_refines stdio_process _ (refines_bare stdio_process eq_refl))). Defined.

Lemma exec_strands_duplicate_witness :
  ∃ t' p', execve_current_image 0x10000 None exec_table = (Ok tt, t') ∧ processes t' !! 2 = Some p' ∧
    fds p' !! 4 = Some (sample_handle 0) ∧ sync_fd_offset_from_alias 4 p' = (Err EBADF, p').
Proof.
  destruct (execve_current_image 0x10000 None exec_table) as [r t'] eqn:Hex.
  assert (r = Ok tt) as -> by (change r with (r, t').1; rewrite <- Hex; by vm_compute).
  destruct (exec_strands_duplicate exec_table t' exec_process 0x10000 None 4 3 (sample_handle 0)
    (sample_handle HANDLE_FLAG_CLOEXEC)) as (p' & ? & ? & ?);
    [by apply wf_check_wf; vm_compute|by vm_compute..|exact Hex|]. exists t', p'. done.
Defined.

End Fd.
