(* ===== verification/Locks.v ===== *)
(** * Record locks (crates/syscall/src/lib.rs: [FcntlLockState])

    The list of byte-range locks behind fcntl: conflict search, splitting
    and merging of ranges.  A lock list stands for the relation [holds]
    between owners, bytes and modes; [apply_lock] is shown to change exactly
    the requested bytes of it, and no run of the operations lets two
    processes hold conflicting modes on a byte. *)

From S2P Require Import Prelude Path FileObject Vfs.

Open Scope string_scope.
Open Scope list_scope.
Open Scope Z_scope.

Module Locks.

Definition U128_MAX : Z := 2 ^ 128 - 1.
Definition F_RDLCK : Z := 0.
Definition F_WRLCK : Z := 1.
Definition F_UNLCK : Z := 2.
Definition SEEK_SET : Z := 0.
Definition SEEK_CUR : Z := 1.
Definition SEEK_END : Z := 2.
Definition EINVAL : Z := 22.

Record FlockRequest := mkFlock { l_type : Z; l_whence : Z; l_start : Z; l_len : Z; l_pid : Z }.

Record FcntlRecordLock := mkLock {
  lk_path : string; lk_owner : Z; lk_type : Z; lk_start : Z; lk_end : option Z }.

(** Two's complement at width [w]. *)
Definition as_signed (w z : Z) : Z := let m := z mod 2 ^ w in if m <? 2 ^ (w - 1) then m else m - 2 ^ w.

(** The bytes at [off .. off + n) of a structure, as a little-endian word. *)
Definition field (off n : nat) (bs : list Z) : Z := from_le_bytes (take n (drop off bs)).

(** [read_flock_request] and [write_flock_request] on the 32 bytes. *)
Definition decode_flock (bs : list Z) : FlockRequest :=
  mkFlock (as_signed 16 (field 0 2 bs)) (as_signed 16 (field 2 2 bs)) (as_signed 64 (field 8 8 bs))
    (as_signed 64 (field 16 8 bs)) (as_signed 32 (field 24 4 bs)).

Definition encode_flock (f : FlockRequest) : list Z :=
  to_le_bytes 2 (l_type f) ++ to_le_bytes 2 (l_whence f) ++ replicate 4 0 ++ to_le_bytes 8 (l_start f) ++
  to_le_bytes 8 (l_len f) ++ to_le_bytes 4 (l_pid f) ++ replicate 4 0.

Definition range_end_u128 (e : option Z) : Z := default U128_MAX e.

Definition range_overlaps (start_a : Z) (end_a : option Z) (start_b : Z) (end_b : option Z) : bool :=
  (start_a <? range_end_u128 end_b) && (start_b <? range_end_u128 end_a).

Definition lock_modes_conflict (l r : Z) : bool := (l =? F_WRLCK) || (r =? F_WRLCK).

Definition lock_range_len (start : Z) (e : option Z) : Z :=
  match e with Some limit => as_signed 64 (saturating_sub limit start) | None => 0 end.

(** [i64::checked_add] *)
Definition checked_add_i64 (a b : Z) : option Z :=
  if (- 2 ^ 63 <=? a + b) && (a + b <? 2 ^ 63) then Some (a + b) else None.

(** [size] is the outcome of [stat_handle], used for [SEEK_END] only. *)
Definition normalize_lock_range (f : FlockRequest) (offset : Z) (size : outcome Z) : outcome (Z * option Z) :=
  base ← (if l_whence f =? SEEK_SET then Ok 0
          else if l_whence f =? SEEK_CUR then Ok (as_signed 64 offset)
          else if l_whence f =? SEEK_END then
            match size with
            | Ok n => Ok (if n <? 2 ^ 63 then n else 2 ^ 63 - 1)
            | Err _ => Err EINVAL
            | Panic => Panic
            | Diverge => Diverge
            end
          else Err EINVAL);
  start ← ok_or (checked_add_i64 base (l_start f)) EINVAL;
  if start <? 0 then Err EINVAL
  else if l_len f <? 0 then Err EINVAL
  else if l_len f =? 0 then Ok (start, None)
  else
    e ← ok_or (checked_add start (l_len f)) EINVAL;
    Ok (start, Some e).

Definition clear_for_owner (owner : Z) (ls : list FcntlRecordLock) : bool * list FcntlRecordLock :=
  let ls' := filter (fun l => lk_owner l ≠ owner) ls in
  (negb (zlen ls =? zlen ls'), ls').

Definition clear_for_owner_path (owner : Z) (path : string) (ls : list FcntlRecordLock)
  : bool * list FcntlRecordLock :=
  let ls' := filter (fun l => ¬ (lk_owner l = owner ∧ lk_path l = path)) ls in
  (negb (zlen ls =? zlen ls'), ls').

(** [min_by_key(|lock| lock.start)]: the first of the least ones. *)
Definition min_by_start (ls : list FcntlRecordLock) : option FcntlRecordLock :=
  foldl (fun best l => match best with
                       | None => Some l
                       | Some b => if lk_start l <? lk_start b then Some l else Some b
                       end) None ls.

Definition conflicts (path : string) (owner ty start : Z) (e : option Z) (l : FcntlRecordLock) : bool :=
  String.eqb (lk_path l) path && negb (lk_owner l =? owner) && lock_modes_conflict (lk_type l) ty &&
  range_overlaps (lk_start l) (lk_end l) start e.

Definition first_conflict (path : string) (owner ty start : Z) (e : option Z) (ls : list FcntlRecordLock)
  : option FcntlRecordLock :=
  min_by_start (List.filter (conflicts path owner ty start e) ls).

(** What is left of a lock of the same owner and file when the range
    [start, e) is cut out of it. *)
Definition cut (start : Z) (e : option Z) (l : FcntlRecordLock) : list FcntlRecordLock :=
  let cut_end := range_end_u128 e in
  let lock_end := range_end_u128 (lk_end l) in
  (if lk_start l <? start
   then [mkLock (lk_path l) (lk_owner l) (lk_type l) (lk_start l) (if start =? U128_MAX then None else Some start)]
   else []) ++
  (if cut_end <? lock_end
   then [mkLock (lk_path l) (lk_owner l) (lk_type l) (cut_end mod 2 ^ 64)
           (if lock_end =? U128_MAX then None else Some lock_end)]
   else []).

Definition touched (path : string) (owner start : Z) (e : option Z) (l : FcntlRecordLock) : bool :=
  String.eqb (lk_path l) path && (lk_owner l =? owner) && range_overlaps (lk_start l) (lk_end l) start e.

Definition cut_all (path : string) (owner start : Z) (e : option Z) (ls : list FcntlRecordLock)
  : list FcntlRecordLock :=
  flat_map (fun l => if touched path owner start e l then cut start e l else [l]) ls.

(** The order of [sort_by]: path, owner, start, end, mode. *)
Definition lex (c d : comparison) : comparison := match c with Eq => d | _ => c end.
Definition lock_compare (a b : FcntlRecordLock) : comparison :=
  lex (String.compare (lk_path a) (lk_path b))
    (lex (lk_owner a ?= lk_owner b)
       (lex (lk_start a ?= lk_start b)
          (lex (range_end_u128 (lk_end a) ?= range_end_u128 (lk_end b)) (lk_type a ?= lk_type b)))).
Definition lock_le (a b : FcntlRecordLock) : Prop := lock_compare a b ≠ Gt.
#[export] Instance lock_le_dec : RelDecision lock_le.
Proof. intros a b. unfold lock_le. apply _. Defined.

Definition same_stream (a b : FcntlRecordLock) : bool :=
  String.eqb (lk_path a) (lk_path b) && (lk_owner a =? lk_owner b) && (lk_type a =? lk_type b).

Definition extend (last lock : FcntlRecordLock) : FcntlRecordLock :=
  let merged_end := Z.max (range_end_u128 (lk_end last)) (range_end_u128 (lk_end lock)) in
  mkLock (lk_path last) (lk_owner last) (lk_type last) (lk_start last)
    (if merged_end =? U128_MAX then None else Some merged_end).

(** Merging, with the last lock pushed so far. *)
Fixpoint merge_locks (last : FcntlRecordLock) (ls : list FcntlRecordLock) : list FcntlRecordLock :=
  match ls with
  | [] => [last]
  | lock :: ls' =>
      if same_stream last lock && (lk_start lock <=? range_end_u128 (lk_end last))
      then merge_locks (extend last lock) ls'
      else last :: merge_locks lock ls'
  end.

Definition merge_all (ls : list FcntlRecordLock) : list FcntlRecordLock :=
  match ls with [] => [] | l :: ls' => merge_locks l ls' end.

Definition apply_lock (path : string) (owner ty start : Z) (e : option Z) (ls : list FcntlRecordLock)
  : bool * list FcntlRecordLock :=
  let next := cut_all path owner start e ls ++ (if ty =? F_UNLCK then [] else [mkLock path owner ty start e]) in
  (existsb (touched path owner start e) ls || negb (ty =? F_UNLCK), merge_all (merge_sort lock_le next)).

(** ** The lock relation *)
Implicit Types (l : FcntlRecordLock) (ls : list FcntlRecordLock) (path : string) (owner ty b start : Z) (e : option Z).

Definition in_range start e b : Prop := start ≤ b < range_end_u128 e.
Definition covers l b : Prop := in_range (lk_start l) (lk_end l) b.

(** [owner] holds mode [ty] on byte [b] of [path]. *)
Definition holds ls path owner b ty : Prop :=
  ∃ l, l ∈ ls ∧ lk_path l = path ∧ lk_owner l = owner ∧ lk_type l = ty ∧ covers l b.

(** A non-empty range of 64-bit offsets. *)
Definition valid_range start e : Prop :=
  0 ≤ start < 2 ^ 64 ∧ start < range_end_u128 e ∧ match e with Some x => x < 2 ^ 64 | None => True end.
Definition valid l : Prop := valid_range (lk_start l) (lk_end l).

Lemma range_overlaps_spec s1 e1 s2 e2 : valid_range s1 e1 → valid_range s2 e2 →
  range_overlaps s1 e1 s2 e2 = true ↔ ∃ b, in_range s1 e1 b ∧ in_range s2 e2 b.
Proof.
  intros V1 V2. unfold range_overlaps, in_range, valid_range in *. rewrite andb_true_iff, !Z.ltb_lt. split.
  - intros [? ?]. exists (Z.max s1 s2). lia.
  - intros (b & ? & ?). lia.
Qed.

Lemma valid_end start e : valid_range start e → range_end_u128 e = U128_MAX ∧ e = None ∨ range_end_u128 e < 2 ^ 64 ∧ e = Some (range_end_u128 e).
Proof. intros (_ & _ & Hx). destruct e as [x|]; [right|left]; done. Qed.

Lemma restore_end x : (x < 2 ^ 64 ∨ x = U128_MAX) →
  range_end_u128 (if x =? U128_MAX then None else Some x) = x ∧
  match (if x =? U128_MAX then None else Some x) with Some y => y < 2 ^ 64 | None => True end.
Proof.
  intros Hx. destruct (Z.eqb_spec x U128_MAX) as [->|Hne]; [done|]. split; [done|]. destruct Hx; [done|contradiction].
Qed.

(** *** Cutting *)
Definition like l l' : Prop := lk_path l' = lk_path l ∧ lk_owner l' = lk_owner l ∧ lk_type l' = lk_type l.

Lemma cut_spec start e l : valid_range start e → valid l → range_overlaps (lk_start l) (lk_end l) start e = true →
  (∀ l', l' ∈ cut start e l → like l l' ∧ valid l') ∧
  (∀ b, (∃ l', l' ∈ cut start e l ∧ covers l' b) ↔ covers l b ∧ ¬ in_range start e b).
Proof.
  intros Vr Vl Hov. unfold range_overlaps in Hov. rewrite andb_true_iff, !Z.ltb_lt in Hov. destruct Hov as [Ho1 Ho2].
  unfold valid in Vl. pose proof (valid_end _ _ Vr) as Er. pose proof (valid_end _ _ Vl) as El.
  destruct Vr as (Hs & Hlt & _), Vl as (Hs' & Hlt' & _).
  assert (range_end_u128 e <  range_end_u128 (lk_end l) → range_end_u128 e mod 2 ^ 64 = range_end_u128 e) as Hmod.
  { intros Hlt2. apply Z.mod_small. destruct Er as [[Er _]|[Er _]], El as [[El _]|[El _]]; unfold U128_MAX in *; lia. }
  destruct (restore_end start) as [Ha Ha']; [left; lia|].
  destruct (restore_end (range_end_u128 (lk_end l))) as [Hb Hb']; [destruct El as [[? _]|[? _]]; auto|].
  assert (0 ≤ range_end_u128 e) by lia.
  unfold cut, covers, in_range, valid, valid_range, like. split.
  - intros l' [Hl'|Hl']%elem_of_app.
    + destruct (Z.ltb_spec (lk_start l) start); [|by apply not_elem_of_nil in Hl'].
      apply list_elem_of_singleton in Hl' as ->. simpl. rewrite Ha. split_and!; try done; lia.
    + destruct (Z.ltb_spec (range_end_u128 e) (range_end_u128 (lk_end l))) as [Hc|]; [|by apply not_elem_of_nil in Hl'].
      apply list_elem_of_singleton in Hl' as ->. simpl. rewrite Hb, Hmod by done.
      assert (range_end_u128 e < 2 ^ 64) by (rewrite <- (Hmod Hc); apply Z.mod_pos_bound; lia).
      split_and!; try done; lia.
  - intros b. split.
    + intros (l' & [Hl'|Hl']%elem_of_app & Hb2).
      * destruct (Z.ltb_spec (lk_start l) start); [|by apply not_elem_of_nil in Hl'].
        apply list_elem_of_singleton in Hl' as ->. simpl in Hb2. rewrite Ha in Hb2. lia.
      * destruct (Z.ltb_spec (range_end_u128 e) (range_end_u128 (lk_end l))) as [Hc|]; [|by apply not_elem_of_nil in Hl'].
        apply list_elem_of_singleton in Hl' as ->. simpl in Hb2. rewrite Hb, Hmod in Hb2 by done. lia.
    + intros [Hc Hn]. destruct (Z.lt_ge_cases b start) as [Hlo|Hhi].
      * eexists. split; [apply elem_of_app; left; rewrite (proj2 (Z.ltb_lt _ _)) by lia; by apply list_elem_of_singleton|].
        simpl. rewrite Ha. lia.
      * eexists. split; [apply elem_of_app; right; rewrite (proj2 (Z.ltb_lt _ _)) by lia; by apply list_elem_of_singleton|].
        simpl. rewrite Hb, Hmod by lia. lia.
Qed.

(** *** Merging *)
Definition before (a b : FcntlRecordLock) : Prop := lk_path a = lk_path b → lk_owner a = lk_owner b → lk_start a ≤ lk_start b.

Lemma same_stream_true (a b : FcntlRecordLock) : same_stream a b = true ↔ like a b.
Proof.
  unfold same_stream, like. rewrite !andb_true_iff, String.eqb_eq, !Z.eqb_eq. naive_solver.
Qed.

Lemma extend_spec (a b : FcntlRecordLock) : valid a → valid b → lk_start a ≤ lk_start b ≤ range_end_u128 (lk_end a) →
  valid (extend a b) ∧ ∀ x, covers (extend a b) x ↔ covers a x ∨ covers b x.
Proof.
  intros Va Vb Hs. unfold valid in *. pose proof (valid_end _ _ Va) as Ea. pose proof (valid_end _ _ Vb) as Eb.
  destruct Va as (Ha & La & _), Vb as (Hb & Lb & _).
  destruct (restore_end (Z.max (range_end_u128 (lk_end a)) (range_end_u128 (lk_end b)))) as [Hr Hr'].
  { destruct Ea as [[? _]|[? _]], Eb as [[? _]|[? _]]; unfold U128_MAX in *; lia. }
  unfold covers, in_range, valid_range, extend. simpl. rewrite Hr. split; [split_and!; try done; lia|lia].
Qed.

Lemma holds_cons l ls path owner b ty :
  holds (l :: ls) path owner b ty ↔
  (lk_path l = path ∧ lk_owner l = owner ∧ lk_type l = ty ∧ covers l b) ∨ holds ls path owner b ty.
Proof. unfold holds. setoid_rewrite elem_of_cons. naive_solver. Qed.

Lemma merge_locks_spec last ls : Forall valid (last :: ls) → Sorted before (last :: ls) →
  Forall valid (merge_locks last ls) ∧
  ∀ path owner b ty, holds (merge_locks last ls) path owner b ty ↔ holds (last :: ls) path owner b ty.
Proof.
  revert last. induction ls as [|lock ls IH]; intros last Hv Hs; [done|]. cbn [merge_locks].
  apply Forall_cons in Hv as [Vl Hv]. pose proof Hv as [Vk Hv']%Forall_cons.
  apply Sorted_inv in Hs as [Hs Hhd%HdRel_inv].
  destruct (same_stream last lock && _) eqn:Hm.
  - apply andb_true_iff in Hm as [(Hp & Ho & Ht)%same_stream_true Hle%Z.leb_le].
    assert (lk_start last ≤ lk_start lock) as Hlt by (apply Hhd; congruence).
    destruct (extend_spec last lock Vl Vk) as [Ve Hc]; [lia|].
    destruct (IH (extend last lock)) as [Hv2 Hh].
    { by constructor. }
    { apply Sorted_inv in Hs as [Hs Hhd2]. constructor; [done|]. inversion Hhd2 as [|lock2 ls2 Hb2]; subst; constructor.
      intros H1 H2. simpl in H1, H2 |- *. unfold before in Hb2. specialize (Hb2 ltac:(congruence) ltac:(congruence)). lia. }
    split; [done|]. intros path owner b ty. rewrite Hh, !holds_cons, Hc. simpl. rewrite Hp, Ho, Ht. naive_solver.
  - destruct (IH lock) as [Hv2 Hh]; [done..|]. split; [by constructor|]. intros path owner b ty.
    rewrite !holds_cons, Hh, holds_cons. done.
Qed.

Lemma lock_compare_opp (a b : FcntlRecordLock) : lock_compare b a = CompOpp (lock_compare a b).
Proof.
  unfold lock_compare. rewrite (String.compare_antisym (lk_path b)), (Z.compare_antisym (lk_owner a)),
    (Z.compare_antisym (lk_start a)), (Z.compare_antisym (range_end_u128 (lk_end a))), (Z.compare_antisym (lk_type a)).
  destruct (String.compare _ _), (lk_owner a ?= lk_owner b), (lk_start a ?= lk_start b),
    (range_end_u128 (lk_end a) ?= range_end_u128 (lk_end b)), (lk_type a ?= lk_type b); done.
Qed.

#[export] Instance lock_le_total : Total lock_le.
Proof. intros a b. unfold lock_le. rewrite (lock_compare_opp a b). destruct (lock_compare a b); simpl; auto. Qed.

Lemma string_compare_refl (s : string) : String.compare s s = Eq.
Proof. pose proof (String.compare_antisym s s) as Hs. destruct (String.compare s s); done. Qed.

Lemma Sorted_impl (R S : relation FcntlRecordLock) ls : (∀ x y, R x y → S x y) → Sorted R ls → Sorted S ls.
Proof.
  intros Hi. induction 1 as [|l ls' _ IH Hhd]; constructor; [done|]. destruct Hhd; constructor. auto.
Qed.

Lemma lock_le_before (a b : FcntlRecordLock) : lock_le a b → before a b.
Proof.
  unfold lock_le, lock_compare, before. intros Hle Hp Ho. rewrite Hp, Ho in Hle.
  rewrite string_compare_refl, Z.compare_refl in Hle. simpl in Hle.
  destruct (Z.compare_spec (lk_start a) (lk_start b)); [lia|lia|done].
Qed.

Lemma holds_perm ls ls' path owner b ty : ls ≡ₚ ls' → holds ls path owner b ty ↔ holds ls' path owner b ty.
Proof. intros Hp. unfold holds. by setoid_rewrite Hp. Qed.

Lemma merge_all_spec ls : Forall valid ls →
  Forall valid (merge_all (merge_sort lock_le ls)) ∧
  ∀ path owner b ty, holds (merge_all (merge_sort lock_le ls)) path owner b ty ↔ holds ls path owner b ty.
Proof.
  intros Hv. pose proof (merge_sort_Permutation lock_le ls) as Hp.
  assert (Sorted before (merge_sort lock_le ls)) as Hs.
  { eapply Sorted_impl; [exact lock_le_before|]. apply Sorted_merge_sort; apply _. }
  rewrite <- Hp in Hv. setoid_rewrite <- (holds_perm _ _ _ _ _ _ Hp).
  destruct (merge_sort lock_le ls) as [|l ls']; [done|]. by apply merge_locks_spec.
Qed.

Lemma touched_spec path owner start e l : valid_range start e → valid l →
  touched path owner start e l = true ↔
  lk_path l = path ∧ lk_owner l = owner ∧ range_overlaps (lk_start l) (lk_end l) start e = true.
Proof. intros _ _. unfold touched. rewrite !andb_true_iff, String.eqb_eq, Z.eqb_eq. tauto. Qed.

Lemma untouched_out path owner start e l b : valid_range start e → valid l →
  touched path owner start e l = false → lk_path l = path → lk_owner l = owner → covers l b → ¬ in_range start e b.
Proof.
  intros Vr Vl Ht Hp Ho Hc Hin. apply not_true_iff_false in Ht. apply Ht. apply touched_spec; [done..|].
  split_and!; [done..|]. apply range_overlaps_spec; [done..|]. eauto.
Qed.

Lemma cut_all_spec path owner start e ls : valid_range start e → Forall valid ls →
  Forall valid (cut_all path owner start e ls) ∧
  ∀ p o b ty, holds (cut_all path owner start e ls) p o b ty ↔
    holds ls p o b ty ∧ ¬ (p = path ∧ o = owner ∧ in_range start e b).
Proof.
  intros Vr Hv. induction Hv as [|l ls Vl _ [IHv IHh]]; cbn [cut_all flat_map].
  { split; [constructor|]. intros p o b ty. unfold holds. set_solver. }
  fold (cut_all path owner start e ls). destruct (touched path owner start e l) eqn:Ht.
  - apply touched_spec in Ht as (Hp & Ho & Hov); [|done..]. destruct (cut_spec start e l Vr Vl Hov) as [Hl Hc]. split.
    + apply Forall_app. split; [|done]. apply Forall_forall. intros l' Hin. by apply Hl.
    + intros p o b ty. rewrite holds_cons. specialize (IHh p o b ty). specialize (Hc b). unfold holds in IHh |- *.
      setoid_rewrite elem_of_app. split.
      * intros (l' & [Hin|Hin] & ? & ? & ? & Hcov); [|destruct (proj1 IHh) as [? ?]; [eauto 10|tauto]].
        destruct (Hl l' Hin) as [(? & ? & ?) _]. destruct (proj1 Hc) as [? ?]; [eauto|]. split; [|tauto]. left. split_and!; congruence.
      * intros [[(Hp2 & Ho2 & Ht2 & Hcov)|Hh] Hn].
        -- destruct (proj2 Hc) as (l' & Hin & Hcov'); [split; [done|]; intros ?; apply Hn; split_and!; congruence|].
           destruct (Hl l' Hin) as [(? & ? & ?) _]. exists l'. split_and!; [by left|congruence..|done].
        -- destruct (proj2 IHh) as (l' & ? & ?); [done|]. exists l'. tauto.
  - split; [by constructor|]. intros p o b ty. cbn [app]. rewrite !holds_cons, IHh.
    pose proof (untouched_out path owner start e l b Vr Vl Ht) as Hout. naive_solver.
Qed.

(** What a lock or unlock request asks for on each byte. *)
Definition requested path owner ty start e p o b ty' (old : Prop) : Prop :=
  if decide (p = path ∧ o = owner ∧ start ≤ b < range_end_u128 e) then ty' = ty ∧ ty ≠ F_UNLCK else old.

Lemma apply_lock_holds path owner ty start e ls : valid_range start e → Forall valid ls →
  Forall valid (apply_lock path owner ty start e ls).2 ∧
  ∀ p o b ty', holds (apply_lock path owner ty start e ls).2 p o b ty' ↔
    requested path owner ty start e p o b ty' (holds ls p o b ty').
Proof.
  intros Vr Hv. destruct (cut_all_spec path owner start e ls Vr Hv) as [Vc Hc]. unfold apply_lock. cbn [snd].
  set (new := if ty =? F_UNLCK then [] else [mkLock path owner ty start e]).
  assert (Forall valid new) as Vn by (unfold new; destruct (_ =? _); repeat constructor; apply Vr).
  destruct (merge_all_spec (cut_all path owner start e ls ++ new)) as [Vm Hm]; [by apply Forall_app|].
  split; [done|]. intros p o b ty'. rewrite Hm.
  assert (holds new p o b ty' ↔ ty ≠ F_UNLCK ∧ path = p ∧ owner = o ∧ ty = ty' ∧ in_range start e b) as Hnew.
  { unfold new. destruct (Z.eqb_spec ty F_UNLCK) as [->|Hne].
    - split; [intros (? & Hin & _); by apply not_elem_of_nil in Hin|tauto].
    - rewrite holds_cons. unfold covers. simpl. split; [|tauto]. intros [?|(? & Hin & _)]; [tauto|]. by apply not_elem_of_nil in Hin. }
  assert (holds (cut_all path owner start e ls ++ new) p o b ty' ↔
          holds (cut_all path owner start e ls) p o b ty' ∨ holds new p o b ty') as ->.
  { unfold holds. setoid_rewrite elem_of_app. naive_solver. }
  rewrite Hc, Hnew. unfold requested, in_range. case_decide; naive_solver.
Qed.

(** ** Conflicts *)
Definition least_start ls l : Prop := l ∈ ls ∧ Forall (fun l' => lk_start l ≤ lk_start l') ls.

Lemma min_by_start_from best ls :
  ∃ l, foldl (fun o l => match o with
                         | None => Some l
                         | Some x => if lk_start l <? lk_start x then Some l else Some x
                         end) (Some best) ls = Some l ∧ least_start (best :: ls) l.
Proof.
  revert best. induction ls as [|x ls IH]; intros best; cbn [foldl].
  - exists best. split; [done|]. split; [set_solver|by repeat constructor].
  - destruct (Z.ltb_spec (lk_start x) (lk_start best)) as [Hlt|Hge].
    + destruct (IH x) as (l & Hf & Hin & Hall). exists l. split; [done|]. pose proof Hall as [Hx _]%Forall_cons.
      split; [set_solver|]. constructor; [lia|done].
    + destruct (IH best) as (l & Hf & Hin & Hall). exists l. split; [done|]. apply Forall_cons in Hall as [Hx Hall].
      split; [set_solver|]. repeat constructor; [done|lia|done].
Qed.

Lemma min_by_start_spec ls : match min_by_start ls with None => ls = [] | Some l => least_start ls l end.
Proof. destruct ls as [|x ls]; [done|]. unfold min_by_start. cbn [foldl]. by destruct (min_by_start_from x ls) as (l & -> & ?). Qed.

Lemma conflicts_spec path owner ty start e l : valid_range start e → valid l →
  conflicts path owner ty start e l = true ↔
  lk_path l = path ∧ lk_owner l ≠ owner ∧ lock_modes_conflict (lk_type l) ty = true ∧
  ∃ b, covers l b ∧ in_range start e b.
Proof.
  intros Vr Vl. unfold conflicts. rewrite !andb_true_iff, negb_true_iff, String.eqb_eq, Z.eqb_neq.
  rewrite (range_overlaps_spec _ _ _ _ Vl Vr). unfold covers. tauto.
Qed.

(** Without a conflicting lock, no other owner holds a conflicting mode on a
    byte of the range; the lock reported otherwise is such a conflict. *)
Lemma first_conflict_spec path owner ty start e ls : valid_range start e → Forall valid ls →
  match first_conflict path owner ty start e ls with
  | None => ∀ o b ty', o ≠ owner → in_range start e b → holds ls path o b ty' → lock_modes_conflict ty' ty = false
  | Some l => l ∈ ls ∧ lk_path l = path ∧ lk_owner l ≠ owner ∧ lock_modes_conflict (lk_type l) ty = true ∧
              ∃ b, covers l b ∧ in_range start e b
  end.
Proof.
  intros Vr Hv. rewrite Forall_forall in Hv. unfold first_conflict.
  pose proof (min_by_start_spec (List.filter (conflicts path owner ty start e) ls)) as Hmin.
  destruct (min_by_start _) as [l|].
  - destruct Hmin as [Hin _]. apply list_elem_of_In, filter_In in Hin as [Hin Hc].
    apply list_elem_of_In in Hin. apply conflicts_spec in Hc; [|done|by apply Hv]. tauto.
  - intros o b ty' Ho Hb (l & Hin & Hp & Hlo & Hty & Hc). apply not_true_iff_false. intros Hconf.
    assert (l ∈ List.filter (conflicts path owner ty start e) ls) as Hf; [|rewrite Hmin in Hf; by apply not_elem_of_nil in Hf].
    apply list_elem_of_In, filter_In. split; [by apply list_elem_of_In|]. apply conflicts_spec; [done|by apply Hv|].
    split_and!; [done|congruence|by rewrite Hty|eauto].
Qed.

(** ** The invariant of the lock list *)
Record lock_inv ls : Prop := mkLockInv {
  li_valid : Forall valid ls;
  li_single : ∀ path o b t1 t2, holds ls path o b t1 → holds ls path o b t2 → t1 = t2;
  li_exclusive : ∀ path o1 o2 b t1 t2, o1 ≠ o2 → holds ls path o1 b t1 → holds ls path o2 b t2 →
                   lock_modes_conflict t1 t2 = false;
}.

Lemma modes_conflict_comm a b' : lock_modes_conflict a b' = lock_modes_conflict b' a.
Proof. unfold lock_modes_conflict. apply orb_comm. Qed.

Lemma lock_inv_nil : lock_inv [].
Proof. split; [constructor|..]; intros; exfalso; unfold holds in *; set_solver. Qed.

(** A request that is granted. *)
Lemma lock_inv_apply path owner ty start e ls : lock_inv ls → valid_range start e →
  (ty = F_UNLCK ∨ first_conflict path owner ty start e ls = None) →
  lock_inv (apply_lock path owner ty start e ls).2.
Proof.
  intros [Hv Hs Hx] Vr Hgrant. destruct (apply_lock_holds path owner ty start e ls Vr Hv) as [Hv' Hh].
  pose proof (first_conflict_spec path owner ty start e ls Vr Hv) as Hf. unfold requested in Hh. split; [done| |].
  - intros p o b t1 t2. rewrite !Hh. case_decide; [naive_solver|]. apply Hs.
  - intros p o1 o2 b t1 t2 Hne. rewrite !Hh.
    destruct (decide (p = path ∧ o1 = owner ∧ _)) as [(-> & -> & Hb)|_];
      destruct (decide (_ ∧ o2 = owner ∧ _)) as [(Hp & -> & Hb2)|_]; try done.
    + intros [-> Hnu] H2. destruct Hgrant as [?|Hg]; [done|]. rewrite Hg in Hf. rewrite modes_conflict_comm.
      by apply (Hf o2 b).
    + intros H1 [-> Hnu]. destruct Hgrant as [?|Hg]; [done|]. rewrite Hg in Hf. subst. by apply (Hf o1 b).
    + by apply Hx.
Qed.

Lemma lock_inv_sub ls ls' : lock_inv ls → (∀ l, l ∈ ls' → l ∈ ls) → lock_inv ls'.
Proof.
  intros [Hv Hs Hx] Hsub. assert (∀ path o b ty, holds ls' path o b ty → holds ls path o b ty) as Hh.
  { intros path o b ty (l & ? & ?). exists l. auto. }
  rewrite Forall_forall in Hv. split; [apply Forall_forall; auto|eauto..].
Qed.

Lemma lock_inv_clear_owner owner ls : lock_inv ls → lock_inv (clear_for_owner owner ls).2.
Proof. intros Hi. eapply lock_inv_sub; [exact Hi|]. intros l. simpl. rewrite list_elem_of_filter. tauto. Qed.
Lemma lock_inv_clear_path owner path ls : lock_inv ls → lock_inv (clear_for_owner_path owner path ls).2.
Proof. intros Hi. eapply lock_inv_sub; [exact Hi|]. intros l. simpl. rewrite list_elem_of_filter. tauto. Qed.

(** ** Requests *)
Lemma length_encode_flock f : length (encode_flock f) = 32%nat.
Proof. unfold encode_flock. rewrite !length_app, !length_to_le_bytes, !length_replicate. done. Qed.

Definition signed_in (w z : Z) : Prop := - 2 ^ (w - 1) ≤ z < 2 ^ (w - 1).

Lemma as_signed_mod w z : 0 < w → signed_in w z → as_signed w (z mod 2 ^ w) = z.
Proof.
  intros Hw [Hlo Hhi]. unfold as_signed. rewrite Z.mod_mod by lia.
  assert (2 ^ w = 2 * 2 ^ (w - 1)) as Hp by (rewrite <- Z.pow_succ_r by lia; f_equal; lia).
  destruct (decide (0 ≤ z)).
  - rewrite Z.mod_small by lia. by rewrite (proj2 (Z.ltb_lt _ _)) by lia.
  - assert (z mod 2 ^ w = z + 2 ^ w) as -> by (rewrite <- (Z.mod_add z 1) by lia; rewrite Z.mod_small; lia).
    rewrite (proj2 (Z.ltb_ge _ _)) by lia. lia.
Qed.

End Locks.
