(* ===== verification/Calendar.v ===== *)
(** * Wall-clock dates (crates/syscall/src/lib.rs: the RTC calendar)

    [unix_seconds_to_calendar] turns seconds since 1970 into a date, a time
    of day, a weekday and a day of the year with closed formulas over
    400-year eras.  The specification is a clock that ticks: [next_second]
    only knows the lengths of months and the leap-year rule. *)

From S2P Require Import Prelude ProcTable.

Open Scope list_scope.
Open Scope Z_scope.

Module Calendar.
Import PTable.

Definition is_leap_year (year : Z) : bool :=
  ((Z.rem year 4 =? 0) && negb (Z.rem year 100 =? 0)) || (Z.rem year 400 =? 0).

Definition CUMULATIVE : list Z := [0; 31; 59; 90; 120; 151; 181; 212; 243; 273; 304; 334].

(** The index is at least 0 for the months [civil_from_days] yields; a month
    below 1 would make a huge index and panic. *)
Definition day_of_year (year month day : Z) : outcome Z :=
  let month_index := Z.min (month - 1) 11 in
  base ← (if month_index <? 0 then Panic else unwrap (CUMULATIVE !! Z.to_nat month_index));
  Ok (if (2 <? month) && is_leap_year year then base + day + 1 else base + day).

(** Division truncates towards zero. *)
Definition civil_from_days (days : Z) : Z * Z * Z :=
  let z := days + 719468 in
  let era := Z.quot (if 0 <=? z then z else z - 146096) 146097 in
  let doe := z - era * 146097 in
  let yoe := Z.quot (doe - Z.quot doe 1460 + Z.quot doe 36524 - Z.quot doe 146096) 365 in
  let y := yoe + era * 400 in
  let doy := doe - (365 * yoe + Z.quot yoe 4 - Z.quot yoe 100) in
  let mp := Z.quot (5 * doy + 2) 153 in
  let d := doy - Z.quot (153 * mp + 2) 5 + 1 in
  let m := mp + (if mp <? 10 then 3 else -9) in
  let year := y + (if m <=? 2 then 1 else 0) in
  (as_i32 year, as_i32 m, as_i32 d).

Record calendar := mkCalendar {
  c_year : Z; c_month : Z; c_day : Z; c_hour : Z; c_minute : Z; c_second : Z; c_weekday : Z; c_yearday : Z }.

(** [div_euclid] and [rem_euclid] by a positive number are [/] and [mod]. *)
Definition unix_seconds_to_calendar (secs : Z) : outcome calendar :=
  let days := secs / 86400 in
  let remain := secs mod 86400 in
  let '(year, month, day) := civil_from_days days in
  yday ← day_of_year year month day;
  Ok (mkCalendar year month day (Z.quot remain 3600) (Z.quot (Z.rem remain 3600) 60) (Z.rem remain 60)
        ((days + 4) mod 7) (yday - 1)).

(** [rtc_time_bytes]: nine 32-bit fields; [year - 1900] is an [i32]
    subtraction. *)
Definition rtc_time_bytes (secs : Z) : outcome (list Z) :=
  c ← unix_seconds_to_calendar secs;
  if c_year c - 1900 <? - 2 ^ 31 then Panic
  else Ok (flat_map (to_le_bytes 4)
             [c_second c; c_minute c; c_hour c; c_day c; c_month c - 1; c_year c - 1900; c_weekday c; c_yearday c; 0]).

(** ** The ticking clock *)
Definition leap (y : Z) : Prop := (y mod 4 = 0 ∧ y mod 100 ≠ 0) ∨ y mod 400 = 0.
#[export] Instance leap_dec y : Decision (leap y).
Proof. unfold leap. apply _. Defined.

Definition days_in_month (y m : Z) : Z :=
  if decide (m = 2) then if decide (leap y) then 29 else 28
  else if decide (m ∈ [4; 6; 9; 11]) then 30 else 31.

Definition next_date (y m d : Z) : Z * Z * Z :=
  if d <? days_in_month y m then (y, m, d + 1)
  else if m <? 12 then (y, m + 1, 1)
  else (y + 1, 1, 1).

Definition next_second (c : calendar) : calendar :=
  let '(mkCalendar y m d h mi s w yd) := c in
  if s <? 59 then mkCalendar y m d h mi (s + 1) w yd
  else if mi <? 59 then mkCalendar y m d h (mi + 1) 0 w yd
  else if h <? 23 then mkCalendar y m d (h + 1) 0 0 w yd
  else
    let '(y', m', d') := next_date y m d in
    mkCalendar y' m' d' 0 0 0 (if w <? 6 then w + 1 else 0) (if y' =? y then yd + 1 else 0).

(** ** One era *)
(** The formulas on the day of the era, for era 0. *)
Definition scaled (doe : Z) : Z := doe - doe / 1460 + doe / 36524 - doe / 146096.
Definition year_start (yoe : Z) : Z := 365 * yoe + yoe / 4 - yoe / 100.

(** Month and day of the [doy]-th day of a year that starts in March, and
    whether it is in the next calendar year. *)
Definition march_date (doy : Z) : Z * Z * Z :=
  let mp := (5 * doy + 2) / 153 in
  let m := mp + (if mp <? 10 then 3 else -9) in
  (if m <=? 2 then 1 else 0, m, doy - (153 * mp + 2) / 5 + 1).

Definition shift_year (k : Z) (date : Z * Z * Z) : Z * Z * Z := let '(y, m, d) := date in (y + k, m, d).

Definition era_date (doe : Z) : Z * Z * Z :=
  let yoe := scaled doe / 365 in shift_year yoe (march_date (doe - year_start yoe)).

Definition yday_in (l : bool) (m d : Z) : Z :=
  default 0 (CUMULATIVE !! Z.to_nat (m - 1)) + d + (if (2 <? m) && l then 1 else 0).
Definition yday_of (y m d : Z) : Z := yday_in (bool_decide (leap y)) m d.

(** [next_date] in a year that is leap or not. *)
Definition next_in (l : bool) (m d : Z) : Z * Z * Z :=
  let len := if decide (m = 2) then if l then 29 else 28 else if decide (m ∈ [4; 6; 9; 11]) then 30 else 31 in
  if d <? len then (0, m, d + 1) else if m <? 12 then (0, m + 1, 1) else (1, 1, 1).

Lemma next_date_in y m d : next_date y m d = shift_year y (next_in (bool_decide (leap y)) m d).
Proof.
  unfold next_date, next_in, days_in_month. rewrite (bool_decide_decide (leap y)).
  repeat case_decide; destruct (d <? _), (m <? 12); unfold shift_year; do 2 f_equal; lia.
Qed.

(** The length of the year from March of year [yoe]. *)
Definition year_len (yoe : Z) : Z := if decide (leap (yoe + 1)) then 366 else 365.

Lemma year_len_bounds yoe : 365 ≤ year_len yoe ≤ 366.
Proof. unfold year_len. case_decide; lia. Qed.

(** Each of the 400 years of an era, and each day of a year. *)
Definition year_ok (yoe : Z) : bool :=
  (scaled (year_start yoe) / 365 =? yoe) && (scaled (year_start yoe + year_len yoe - 1) / 365 =? yoe) &&
  (year_start yoe + year_len yoe <=? 146097) &&
  (if yoe <? 399 then year_start (yoe + 1) =? year_start yoe + year_len yoe
   else year_start yoe + year_len yoe =? 146097).

Definition day_ok (l : bool) (doy : Z) : bool :=
  let '(k, m, d) := march_date doy in
  let '(c, m', d') := next_in l m d in
  (1 <=? m) && (m <=? 12) && (1 <=? d) && (d <=? 31) && (0 <=? k) && (if k =? 0 then doy <? 306 else k =? 1) && (1 <=? m') && (m' <=? 12) &&
  (yday_in l m' d' =? (if c =? 0 then yday_in l m d + 1 else 1 + (if (2 <? m') && l then 1 else 0))) &&
  (if c =? 0 then true else (0 <? c) && (m' <=? 2)) &&
  (if (k =? 0) || (doy + 1 <? (if l then 366 else 365)) then bool_decide (march_date (doy + 1) = (k + c, m', d'))
   else bool_decide ((c, m', d') = (0, 3, 1))).

Fixpoint all_below (n : nat) (f : Z → bool) (z : Z) : bool :=
  match n with O => true | S n' => f z && all_below n' f (z + 1) end.

Lemma all_below_spec n f z x : all_below n f z = true → z ≤ x < z + Z.of_nat n → f x = true.
Proof.
  revert z; induction n as [|n IH]; intros z Ha Hx; [lia|]. cbn [all_below] in Ha. apply andb_true_iff in Ha as [H0 Ha].
  destruct (decide (x = z)) as [->|]; [done|]. apply (IH (z + 1)); [done|lia].
Qed.

Lemma year_ok_all yoe : 0 ≤ yoe < 400 → year_ok yoe = true.
Proof. intros Hy. apply (all_below_spec 400 year_ok 0); [vm_compute; reflexivity|lia]. Qed.

Lemma day_ok_all (l : bool) doy : 0 ≤ doy < (if l then 366 else 365) → day_ok l doy = true.
Proof.
  intros Hd. destruct l.
  - apply (all_below_spec 366 (day_ok true) 0); [vm_compute; reflexivity|lia].
  - apply (all_below_spec 365 (day_ok false) 0); [vm_compute; reflexivity|lia].
Qed.

Lemma scaled_mono a b : 0 ≤ a ≤ b → scaled a ≤ scaled b.
Proof.
  intros [Ha Hb]. unfold scaled.
  assert (b / 146096 - a / 146096 ≤ b / 36524 - a / 36524); Z.to_euclidean_division_equations; lia.
Qed.

Lemma year_of_day yoe doy : 0 ≤ yoe < 400 → 0 ≤ doy < year_len yoe → scaled (year_start yoe + doy) / 365 = yoe.
Proof.
  intros Hy Hd. pose proof (year_ok_all yoe Hy) as Hok. unfold year_ok in Hok.
  rewrite !andb_true_iff, !Z.eqb_eq in Hok. destruct Hok as [[[H1 H2] _] _].
  assert (0 ≤ year_start yoe) by (unfold year_start; Z.to_euclidean_division_equations; lia).
  pose proof (scaled_mono (year_start yoe) (year_start yoe + doy) ltac:(lia)) as Ha.
  pose proof (scaled_mono (year_start yoe + doy) (year_start yoe + year_len yoe - 1) ltac:(lia)) as Hb.
  apply (Z.div_le_mono _ _ 365) in Ha; [|lia]. apply (Z.div_le_mono _ _ 365) in Hb; [|lia]. lia.
Qed.

(** The day after, in coordinates of year and day of the year from March. *)
Lemma day_split doe : 0 ≤ doe < 146097 →
  ∃ yoe doy, 0 ≤ yoe < 400 ∧ 0 ≤ doy < year_len yoe ∧ doe = year_start yoe + doy.
Proof.
  assert (∀ n : nat, Z.of_nat n < 146097 →
    ∃ yoe doy, 0 ≤ yoe < 400 ∧ 0 ≤ doy < year_len yoe ∧ Z.of_nat n = year_start yoe + doy) as Hn.
  { induction n as [|n IH]; intros Hlt.
    { exists 0, 0. vm_compute. split_and!; congruence || reflexivity. }
    destruct IH as (yoe & doy & Hy & Hd & Heq); [lia|].
    pose proof (year_ok_all yoe Hy) as Hok. unfold year_ok in Hok. rewrite !andb_true_iff in Hok. destruct Hok as [_ Hnext].
    destruct (decide (doy + 1 < year_len yoe)); [exists yoe, (doy + 1); lia|].
    destruct (Z.ltb_spec yoe 399); apply Z.eqb_eq in Hnext; [|lia].
    exists (yoe + 1), 0. pose proof (year_len_bounds (yoe + 1)). lia. }
  intros Hd. destruct (Hn (Z.to_nat doe)) as (yoe & doy & ? & ? & ?); [lia|]. exists yoe, doy. lia.
Qed.

Lemma era_date_split yoe doy : 0 ≤ yoe < 400 → 0 ≤ doy < year_len yoe →
  era_date (year_start yoe + doy) = shift_year yoe (march_date doy).
Proof. intros Hy Hd. unfold era_date. rewrite year_of_day by done. do 2 f_equal. lia. Qed.

Lemma leap_shift y k : leap (y + 400 * k) ↔ leap y.
Proof.
  assert (∀ a, (a | 400) → a ≠ 0 → (y + 400 * k) mod a = y mod a) as Hm.
  { intros a [q Hq] Ha. rewrite Hq. replace (y + q * a * k) with (y + (q * k) * a) by ring. by apply Z.mod_add. }
  unfold leap. rewrite (Hm 4), (Hm 100), (Hm 400); [done|by exists 1|done|by exists 4|done|by exists 100|done].
Qed.

Lemma next_date_shift y m d k : next_date (y + 400 * k) m d = shift_year (400 * k) (next_date y m d).
Proof.
  assert (days_in_month (y + 400 * k) m = days_in_month y m) as Hd.
  { unfold days_in_month. case_decide; [|done]. apply decide_ext, leap_shift. }
  unfold next_date. rewrite Hd. destruct (d <? _); [done|]. destruct (m <? 12); [done|].
  unfold shift_year. do 2 f_equal. lia.
Qed.

Lemma yday_shift y m d k : yday_of (y + 400 * k) m d = yday_of y m d.
Proof. unfold yday_of. f_equal. apply bool_decide_ext, leap_shift. Qed.

Lemma is_leap_year_spec y : is_leap_year y = bool_decide (leap y).
Proof.
  assert (∀ a, 0 < a → (Z.rem y a =? 0) = bool_decide (y mod a = 0)) as Hr.
  { intros a Ha. apply eq_true_iff_eq. rewrite Z.eqb_eq, bool_decide_eq_true.
    rewrite Z.rem_divide, Z.mod_divide by lia. tauto. }
  unfold is_leap_year. rewrite !Hr by lia. apply eq_true_iff_eq.
  rewrite orb_true_iff, andb_true_iff, negb_true_iff, bool_decide_eq_false, !bool_decide_eq_true. unfold leap. tauto.
Qed.

(** ** The formulas, with the era split off *)
(** Days for which the year fits an [i32]. *)
Definition representable (days : Z) : Prop := - 2 ^ 39 ≤ days ≤ 2 ^ 39.

Definition split_era (days : Z) : Z * Z := ((days + 719468) / 146097, (days + 719468) mod 146097).

Lemma era_quot z : Z.quot (if 0 <=? z then z else z - 146096) 146097 = z / 146097.
Proof.
  destruct (Z.leb_spec 0 z) as [Hz|Hz]; [by rewrite Z.quot_div_nonneg by lia|].
  replace (z - 146096) with (- (146096 - z)) by lia. rewrite Z.quot_opp_l, Z.quot_div_nonneg by lia.
  pose proof (Z.div_mod z 146097 ltac:(lia)). pose proof (Z.mod_pos_bound z 146097 ltac:(lia)).
  assert ((146096 - z) / 146097 = - (z / 146097)) as ->; [|lia].
  symmetry. apply (Z.div_unique _ _ _ (146096 - z mod 146097)); lia.
Qed.

Lemma as_i32_id z : - 2 ^ 31 ≤ z < 2 ^ 31 → as_i32 z = z.
Proof.
  intros Hz. unfold as_i32. destruct (decide (0 ≤ z)).
  - rewrite Z.mod_small by lia. by rewrite (proj2 (Z.ltb_lt _ _)) by lia.
  - assert (z mod 2 ^ 32 = z + 2 ^ 32) as ->.
    { symmetry. apply (Z.mod_unique _ _ (-1)); lia. }
    rewrite (proj2 (Z.ltb_ge _ _)) by lia. lia.
Qed.

(** What [day_ok] says of a day of year [yoe], with the leap year its
    calendar year is. *)
Lemma day_facts yoe doy k m d c m' d' : 0 ≤ doy < year_len yoe → march_date doy = (k, m, d) →
  let l := bool_decide (leap (k + yoe)) in
  next_in l m d = (c, m', d') →
  (0 ≤ k ≤ 1 ∧ 1 ≤ m ≤ 12 ∧ 1 ≤ d ≤ 31) ∧
  yday_in l m' d' = (if c =? 0 then yday_in l m d + 1 else 1) ∧ (c = 0 ∨ 0 < c ∧ m' ≤ 2) ∧
  (if decide (doy + 1 < year_len yoe) then march_date (doy + 1) = (k + c, m', d')
   else k = 1 ∧ (c, m', d') = (0, 3, 1)).
Proof.
  intros Hd Hm l Hn.
  assert (0 ≤ doy < (if l then 366 else 365)) as Hb.
  { destruct (decide (doy = 365)) as [->|Hne].
    - vm_compute in Hm. injection Hm as <- <- <-. unfold l. rewrite (bool_decide_eq_true_2 (leap _)); [lia|].
      unfold year_len in Hd. case_decide as Hl; [|lia]. by rewrite Z.add_comm.
    - pose proof (year_len_bounds yoe). destruct l; lia. }
  pose proof (day_ok_all l doy Hb) as Hok. unfold day_ok in Hok. rewrite Hm, Hn, !andb_true_iff in Hok.
  destruct Hok as [[[[[[[[[[H1 H2] H3] H4] H5] H6] H7] H8] H9] H10] H11].
  assert (k = 0 ∧ doy < 306 ∨ k = 1) as Hk.
  { destruct (Z.eqb_spec k 0); reflect_bools; auto. }
  apply Z.eqb_eq in H9. reflect_bools. split; [lia|]. split.
  { rewrite H9. destruct (c =? 0); [done|]. reflect_bools. by rewrite (proj2 (Z.ltb_ge 2 m')) by lia. }
  split; [destruct (Z.eqb_spec c 0); reflect_bools; auto|].
  assert (k = 1 → year_len yoe = if l then 366 else 365) as Hlen.
  { intros ->. unfold year_len, l. rewrite bool_decide_decide, (Z.add_comm 1 yoe). by destruct (decide _). }
  pose proof (year_len_bounds yoe).
  destruct Hk as [[-> Hlt]|Hk1]; simpl in H11.
  - rewrite decide_True by lia. by apply bool_decide_eq_true in H11.
  - rewrite Hlen by done. rewrite Hk1 in *. simpl in H11.
    destruct (Z.ltb_spec (doy + 1) (if l then 366 else 365)); apply bool_decide_eq_true in H11.
    + by rewrite decide_True by done.
    + rewrite decide_False by lia. done.
Qed.

(** A day of the era and the following one. *)
Lemma era_facts doe : 0 ≤ doe < 146097 → ∀ y m d, era_date doe = (y, m, d) →
  (0 ≤ y ≤ 400 ∧ 1 ≤ m ≤ 12 ∧ 1 ≤ d ≤ 31) ∧
  (let next := if doe <? 146096 then era_date (doe + 1) else shift_year 400 (era_date 0) in
   next = next_date y m d ∧
   ∀ y' m' d', next = (y', m', d') → yday_of y' m' d' = if y' =? y then yday_of y m d + 1 else 1).
Proof.
  intros Hd y m d He. destruct (day_split doe Hd) as (yoe & doy & Hy & Hdoy & ->).
  rewrite era_date_split in He by done. destruct (march_date doy) as [[k m0] d0] eqn:Hm.
  simpl in He. injection He as <- <- <-.
  destruct (next_in (bool_decide (leap (k + yoe))) m0 d0) as [[c m'] d'] eqn:Hn.
  destruct (day_facts _ _ _ _ _ _ _ _ Hdoy Hm Hn) as (Hr & Hyd & Hc & Hnext). split; [lia|]. cbv zeta.
  pose proof (year_ok_all yoe Hy) as Hok. unfold year_ok in Hok. rewrite !andb_true_iff in Hok.
  destruct Hok as [[_ Hend] Hstart]. apply Z.leb_le in Hend.
  assert ((if year_start yoe + doy <? 146096 then era_date (year_start yoe + doy + 1)
           else shift_year 400 (era_date 0)) = next_date (k + yoe) m0 d0) as Heq.
  { rewrite next_date_in, Hn. case_decide as Hlast.
    - rewrite (proj2 (Z.ltb_lt _ _)) by lia. rewrite <- Z.add_assoc, era_date_split by lia.
      rewrite Hnext. simpl. do 2 f_equal. lia.
    - destruct Hnext as [-> [= -> -> ->]]. destruct (Z.ltb_spec yoe 399) as [Hlt|Hge]; apply Z.eqb_eq in Hstart.
      + pose proof (year_len_bounds (yoe + 1)).
        assert (year_start (yoe + 1) < 146097).
        { pose proof (year_ok_all (yoe + 1) ltac:(lia)) as Hok'. unfold year_ok in Hok'.
          rewrite !andb_true_iff in Hok'. destruct Hok' as [[_ Hend'] _]. apply Z.leb_le in Hend'. lia. }
        rewrite (proj2 (Z.ltb_lt _ _)) by lia.
        replace (year_start yoe + doy + 1) with (year_start (yoe + 1) + 0) by lia. rewrite era_date_split by lia.
        simpl. do 2 f_equal. lia.
      + assert (yoe = 399) as -> by lia. rewrite (proj2 (Z.ltb_ge _ _)) by lia. vm_compute. reflexivity. }
  split; [exact Heq|]. rewrite Heq, next_date_in, Hn. simpl. intros ? ? ? [= <- <- <-]. unfold yday_of.
  destruct Hc as [->|[Hc Hm2]].
  - rewrite Z.add_0_l, Z.eqb_refl. exact Hyd.
  - rewrite (proj2 (Z.eqb_neq c 0)) in Hyd by lia. rewrite (proj2 (Z.eqb_neq _ _)) by lia. rewrite <- Hyd.
    unfold yday_in. by rewrite (proj2 (Z.ltb_ge 2 m')) by lia.
Qed.

Lemma era_signs doe : 0 ≤ doe < 146097 →
  let yoe := scaled doe / 365 in 0 ≤ scaled doe ∧ 0 ≤ yoe ∧ 0 ≤ doe - year_start yoe.
Proof.
  intros Hd yoe. destruct (day_split doe Hd) as (yoe' & doy & Hy & Hdoy & ->). unfold yoe.
  rewrite year_of_day by done. split; [|lia]. change 0 with (scaled 0). apply scaled_mono. lia.
Qed.

Lemma civil_from_days_era days : representable days →
  civil_from_days days = let '(era, doe) := split_era days in shift_year (400 * era) (era_date doe).
Proof.
  intros Hr. unfold civil_from_days, split_era. rewrite era_quot.
  set (z := days + 719468). pose proof (Z.mod_pos_bound z 146097 ltac:(lia)) as Hb.
  assert (z - z / 146097 * 146097 = z mod 146097) as -> by (pose proof (Z.div_mod z 146097 ltac:(lia)); lia).
  set (doe := z mod 146097) in *. destruct (era_signs doe Hb) as (Ha & Hy & Hdoy).
  destruct (era_date doe) as [[y m] d] eqn:He. destruct (era_facts doe Hb y m d He) as [Hrange _].
  unfold era_date, march_date, scaled, year_start in *. rewrite !(Z.quot_div_nonneg doe) by lia.
  rewrite (Z.quot_div_nonneg _ 365) by lia.
  set (yoe := (doe - doe / 1460 + doe / 36524 - doe / 146096) / 365) in *.
  rewrite !(Z.quot_div_nonneg yoe) by lia.
  set (doy := doe - (365 * yoe + yoe / 4 - yoe / 100)) in *. rewrite (Z.quot_div_nonneg (5 * doy + 2)) by lia.
  assert (0 ≤ (5 * doy + 2) / 153) by (apply Z.div_pos; lia).
  set (mp := (5 * doy + 2) / 153) in *. rewrite (Z.quot_div_nonneg (153 * mp + 2)) by lia.
  set (m0 := mp + (if mp <? 10 then 3 else -9)) in *. injection He as Hy1 Hm1 Hd1. unfold shift_year.
  unfold representable in Hr. assert (- 2 ^ 39 + 719468 ≤ z ≤ 2 ^ 39 + 719468) by (unfold z; lia).
  assert (- 3763000 <= z / 146097 <= 3763000).
  { split; [apply Z.div_le_lower_bound; lia|apply Z.div_le_upper_bound; lia]. }
  replace (yoe + z / 146097 * 400 + (if m0 <=? 2 then 1 else 0)) with (y + 400 * (z / 146097)) by lia.
  rewrite Hd1, Hm1. by rewrite !as_i32_id by lia.
Qed.

Lemma split_era_next days :
  split_era (days + 1) =
  let '(era, doe) := split_era days in if doe <? 146096 then (era, doe + 1) else (era + 1, 0).
Proof.
  unfold split_era. replace (days + 1 + 719468) with (days + 719468 + 1) by lia. set (z := days + 719468).
  pose proof (Z.div_mod z 146097 ltac:(lia)). pose proof (Z.mod_pos_bound z 146097 ltac:(lia)).
  destruct (Z.ltb_spec (z mod 146097) 146096).
  - f_equal; [symmetry; apply (Z.div_unique _ _ _ (z mod 146097 + 1)); lia
             |symmetry; apply (Z.mod_unique _ _ (z / 146097)); lia].
  - f_equal; [symmetry; apply (Z.div_unique _ _ _ 0); lia|symmetry; apply (Z.mod_unique _ _ (z / 146097 + 1)); lia].
Qed.

(** The date, and the day of its year, of the following day. *)
Lemma civil_next days y m d : representable days → representable (days + 1) → civil_from_days days = (y, m, d) →
  1 ≤ m ≤ 12 ∧ civil_from_days (days + 1) = next_date y m d ∧
  ∀ y' m' d', next_date y m d = (y', m', d') →
    1 ≤ m' ≤ 12 ∧ yday_of y' m' d' = if y' =? y then yday_of y m d + 1 else 1.
Proof.
  intros H1 H2 Hc. rewrite civil_from_days_era, split_era_next by done. rewrite civil_from_days_era in Hc by done.
  destruct (split_era days) as [era doe] eqn:Hs.
  assert (0 ≤ doe < 146097) as Hd by (injection Hs as _ <-; apply Z.mod_pos_bound; lia).
  destruct (era_date doe) as [[y0 m0] d0] eqn:He. destruct (era_facts doe Hd _ _ _ He) as [Hrange [Hnext Hyd]].
  simpl in Hc. injection Hc as <- <- <-. split; [lia|].
  assert ((let '(era', doe') := (if doe <? 146096 then (era, doe + 1) else (era + 1, 0)) in
           shift_year (400 * era') (era_date doe')) = next_date (y0 + 400 * era) m0 d0) as Hn.
  { rewrite next_date_shift. rewrite <- Hnext. destruct (doe <? 146096); [done|].
    destruct (era_date 0) as [[? ?] ?]. simpl. do 2 f_equal. lia. }
  split; [exact Hn|]. intros y' m' d' Hy. rewrite next_date_shift, <- Hnext in Hy.
  destruct (if doe <? 146096 then era_date (doe + 1) else _) as [[y1 m1] d1] eqn:E1.
  specialize (Hyd _ _ _ eq_refl). simpl in Hy. injection Hy as <- <- <-.
  assert (1 ≤ m1 ≤ 12).
  { symmetry in Hnext. unfold next_date in Hnext. destruct (d0 <? _); [|destruct (Z.ltb_spec m0 12)]; simplify_eq; lia. }
  split; [done|]. rewrite !yday_shift, Hyd. destruct (Z.eqb_spec y1 y0), (Z.eqb_spec (y1 + 400 * era) (y0 + 400 * era)); lia.
Qed.

Lemma day_of_year_spec y m d : 1 ≤ m ≤ 12 → day_of_year y m d = Ok (yday_of y m d).
Proof.
  intros Hm. unfold day_of_year, yday_of, yday_in. rewrite Z.min_l by lia. rewrite (proj2 (Z.ltb_ge (m - 1) 0)) by lia.
  assert (is_Some (CUMULATIVE !! Z.to_nat (m - 1))) as [b Hb] by (apply lookup_lt_is_Some; simpl; lia).
  rewrite Hb. simpl. f_equal. rewrite is_leap_year_spec. destruct (_ && _); lia.
Qed.

(** ** The calendar of an instant *)
Definition in_range (secs : Z) : Prop := - 2 ^ 54 ≤ secs < 2 ^ 54.

Lemma in_range_days secs : in_range secs → representable (secs / 86400) ∧ representable (secs / 86400 + 1).
Proof.
  unfold in_range, representable. intros Hs.
  assert (- 2 ^ 38 ≤ secs / 86400 ≤ 2 ^ 38); [|lia].
  split; [apply Z.div_le_lower_bound; lia|apply Z.div_le_upper_bound; lia].
Qed.

Definition at_time (days h mi s : Z) : calendar :=
  let '(y, m, d) := civil_from_days days in mkCalendar y m d h mi s ((days + 4) mod 7) (yday_of y m d - 1).

Lemma calendar_at secs : in_range secs →
  unix_seconds_to_calendar secs =
  Ok (at_time (secs / 86400) (secs mod 86400 / 3600) (secs mod 86400 mod 3600 / 60) (secs mod 86400 mod 60)).
Proof.
  intros Hs. destruct (in_range_days secs Hs) as [Hd Hd1]. unfold unix_seconds_to_calendar, at_time.
  destruct (civil_from_days (secs / 86400)) as [[y m] d] eqn:Hc.
  destruct (civil_next _ _ _ _ Hd Hd1 Hc) as [Hm _]. rewrite day_of_year_spec by done. simpl.
  pose proof (Z.mod_pos_bound secs 86400 ltac:(lia)). rewrite !Z.rem_mod_nonneg by lia.
  pose proof (Z.mod_pos_bound (secs mod 86400) 3600 ltac:(lia)). rewrite !Z.quot_div_nonneg by lia. done.
Qed.

Lemma time_split t : 0 ≤ t < 86400 →
  let h := t / 3600 in let mi := t mod 3600 / 60 in let s := t mod 60 in
  0 ≤ h ≤ 23 ∧ 0 ≤ mi ≤ 59 ∧ 0 ≤ s ≤ 59 ∧ t = 3600 * h + 60 * mi + s.
Proof.
  intros Ht h mi s. assert (t mod 60 = t mod 3600 mod 60) as Hs.
  { symmetry. apply Z.mod_mod_divide. by exists 60. }
  pose proof (Z.div_mod t 3600 ltac:(lia)). pose proof (Z.mod_pos_bound t 3600 ltac:(lia)).
  pose proof (Z.div_mod (t mod 3600) 60 ltac:(lia)). pose proof (Z.mod_pos_bound (t mod 3600) 60 ltac:(lia)).
  unfold h, mi, s. rewrite Hs. lia.
Qed.

Lemma time_unique t h mi s : 0 ≤ mi ≤ 59 → 0 ≤ s ≤ 59 → t = 3600 * h + 60 * mi + s →
  t / 3600 = h ∧ t mod 3600 / 60 = mi ∧ t mod 60 = s.
Proof.
  intros Hm Hs ->. split_and!.
  - symmetry. apply (Z.div_unique _ _ _ (60 * mi + s)); lia.
  - symmetry. apply (Z.div_unique _ _ _ s); [lia|]. symmetry. rewrite <- (Z.mod_unique (3600 * h + 60 * mi + s) 3600 h (60 * mi + s)); lia.
  - symmetry. apply (Z.mod_unique _ _ (60 * h + mi)); lia.
Qed.

(** C20: the RTC calendar is a ticking clock: second zero is Thursday,
    1 January 1970, 00:00:00, day 0 of the year, and for every instant in
    range the calendar of the next second is obtained by one tick of
    [next_second], which carries through minutes, hours, month lengths, leap
    years, weekdays and days of the year. *)
Theorem calendar_ticks secs : in_range secs → in_range (secs + 1) →
  unix_seconds_to_calendar 0 = Ok (mkCalendar 1970 1 1 0 0 0 4 0) ∧
  ∃ c, unix_seconds_to_calendar secs = Ok c ∧ unix_seconds_to_calendar (secs + 1) = Ok (next_second c).
Proof.
  intros Hr Hr1. split; [vm_compute; reflexivity|]. rewrite !calendar_at by done.
  destruct (in_range_days secs Hr) as [Hd Hd1].
  pose proof (Z.div_mod secs 86400 ltac:(lia)) as Hdm. pose proof (Z.mod_pos_bound secs 86400 ltac:(lia)) as Hb.
  destruct (time_split _ Hb) as (Hh & Hmi & Hs & Ht). revert Hh Hmi Hs Ht.
  set (h := secs mod 86400 / 3600). set (mi := secs mod 86400 mod 3600 / 60). set (s := secs mod 86400 mod 60).
  intros Hh Hmi Hs Ht. eexists. split; [reflexivity|]. f_equal.
  assert (∀ h' mi' s', 0 ≤ h' ≤ 23 → 0 ≤ mi' ≤ 59 → 0 ≤ s' ≤ 59 →
    secs mod 86400 + 1 = 3600 * h' + 60 * mi' + s' →
    at_time ((secs + 1) / 86400) ((secs + 1) mod 86400 / 3600) ((secs + 1) mod 86400 mod 3600 / 60)
      ((secs + 1) mod 86400 mod 60) = at_time (secs / 86400) h' mi' s') as Hsame.
  { intros h' mi' s' Hh' Hm' Hs' Heq.
    rewrite <- (Z.div_unique (secs + 1) 86400 (secs / 86400) (secs mod 86400 + 1)) by lia.
    rewrite <- (Z.mod_unique (secs + 1) 86400 (secs / 86400) (secs mod 86400 + 1)) by lia.
    destruct (time_unique _ _ _ _ Hm' Hs' Heq) as (-> & -> & ->). done. }
  unfold at_time at 2. destruct (civil_from_days (secs / 86400)) as [[y m] d] eqn:Hc. cbn [next_second].
  destruct (Z.ltb_spec s 59); [rewrite (Hsame h mi (s + 1)) by lia; unfold at_time; by rewrite Hc|].
  destruct (Z.ltb_spec mi 59); [rewrite (Hsame h (mi + 1) 0) by lia; unfold at_time; by rewrite Hc|].
  destruct (Z.ltb_spec h 23); [rewrite (Hsame (h + 1) 0 0) by lia; unfold at_time; by rewrite Hc|].
  rewrite <- (Z.div_unique (secs + 1) 86400 (secs / 86400 + 1) 0) by lia.
  rewrite <- (Z.mod_unique (secs + 1) 86400 (secs / 86400 + 1) 0) by lia.
  destruct (civil_next _ _ _ _ Hd Hd1 Hc) as (_ & Hn & Hyd). unfold at_time. rewrite Hn.
  destruct (next_date y m d) as [[y' m'] d']. destruct (Hyd _ _ _ eq_refl) as [_ ->].
  pose proof (Z.div_mod (secs / 86400 + 4) 7 ltac:(lia)). pose proof (Z.mod_pos_bound (secs / 86400 + 4) 7 ltac:(lia)).
  simpl. f_equal.
  - destruct (Z.ltb_spec ((secs / 86400 + 4) mod 7) 6).
    + symmetry. apply (Z.mod_unique _ _ ((secs / 86400 + 4) / 7)); lia.
    + symmetry. apply (Z.mod_unique _ _ ((secs / 86400 + 4) / 7 + 1)); lia.
  - destruct (y' =? y); lia.
Qed.

(** The last second of February 2000. *)
Lemma calendar_ticks_witness :
  in_range 951868799 ∧ unix_seconds_to_calendar (951868799 + 1) = Ok (mkCalendar 2000 3 1 0 0 0 3 60).
Proof.
  assert (in_range 951868799) as H1 by (split; lia). assert (in_range (951868799 + 1)) as H2 by (split; lia).
  split; [done|]. destruct (calendar_ticks 951868799 H1 H2) as (_ & c & Hc & ->).
  vm_compute in Hc. injection Hc as <-. vm_compute. reflexivity.
Defined.

End Calendar.
