(* ===== verification/Abi.v ===== *)
(** * The system-call ABI (crates/syscall/src/lib.rs)

    The decoding of flags and of the structures that user programs pass by
    address, and the encoding of those the kernel writes back.  Code that
    reads user memory takes the read operation as an argument; [Sys] supplies
    the memory of the calling process. *)

From S2P Require Import Prelude Path FileObject Vfs Process ProcTable Locks.

Open Scope string_scope.
Open Scope list_scope.
Open Scope Z_scope.

Module Abi.
Import Proc Locks.

Definition EFAULT : Z := 14.
Definition EINVAL : Z := 22.
Definition EAFNOSUPPORT : Z := 97.
Definition O_PATH : Z := 0x200000.

(** [.map_err(|_| code)] *)
Definition map_err {A} (code : Z) (o : outcome A) : outcome A :=
  match o with Err _ => Err code | _ => o end.

(** A structure filled field by field: [out[off..off + n].copy_from_slice(..)]. *)
Definition blit (out : list Z) (off : nat) (bs : list Z) : list Z :=
  take off out ++ bs ++ drop (off + length bs) out.
Definition fill (size : nat) (fields : list (nat * list Z)) : list Z :=
  foldl (fun out '(off, bs) => blit out off bs) (replicate size 0) fields.

(** ** Flags *)
Definition normalize_open_flags (flags : Z) : Z :=
  Z.lor (Z.land flags (Z.lor (Z.lor Obj.O_CREAT Obj.O_TRUNC) (Z.lor Path.O_DIRECTORY O_PATH)))
    (let acc := Z.land flags 3 in if acc =? 0 then Obj.O_RDONLY else if acc =? 1 then Obj.O_WRONLY else Obj.O_RDWR).

Definition with_cloexec_flag (flags : Z) (cloexec : bool) : Z :=
  if cloexec then Z.lor flags HANDLE_FLAG_CLOEXEC else Z.ldiff flags HANDLE_FLAG_CLOEXEC.

Definition CLONE_SETTLS : Z := 0x80000.
Record CloneRequest := mkClone {
  cl_flags : Z; cl_stack : Z; cl_parent_tid : Z; cl_child_tid : Z; cl_tls : option Z }.

Definition decode_clone_request_for_abi (args : list Z) (riscv_legacy_order : bool) : CloneRequest :=
  let arg i := default 0 (args !! i) in
  let '(child_tid, tls_raw) := if riscv_legacy_order then (arg 4%nat, arg 3%nat) else (arg 3%nat, arg 4%nat) in
  mkClone (arg 0%nat) (arg 1%nat) (arg 2%nat) child_tid
    (if Z.land (arg 0%nat) CLONE_SETTLS =? 0 then None else Some tls_raw).

Definition access_mode_allowed (u : Z) (st : Obj.FileStat) (mode : Z) : bool :=
  let perm := Z.land (Obj.st_mode st) 0x1ff in
  let asks m := negb (Z.land mode m =? 0) in
  let lacks m := Z.land perm m =? 0 in
  if mode =? 0 then true
  else if u =? 0 then negb (asks 1 && lacks 0x49)
  else negb (asks 4 && lacks 4) && negb (asks 2 && lacks 2) && negb (asks 1 && lacks 1).

Definition parse_optional_uid (raw : Z) : option Z :=
  if raw =? USIZE_MAX then None else Some (raw mod 2 ^ 32).

Definition selector_from_wait (p current_pgid : Z) : outcome PTable.WaitSelector :=
  if p =? -1 then Ok PTable.SelAny
  else if p =? 0 then Ok (PTable.SelPgid current_pgid)
  else if 0 <? p then Ok (PTable.SelPid p)
  else if p =? - 2 ^ 31 then Panic
  else Ok (PTable.SelPgid (- p)).

(** ** Encoders *)
Definition timespec_to_bytes (sec nsec : Z) : list Z := to_le_bytes 8 sec ++ to_le_bytes 8 nsec.
Definition nanos_to_timespec_bytes (nanos : Z) : list Z :=
  timespec_to_bytes (nanos / 1000000000) (nanos mod 1000000000).
Definition timeval_bytes (sec nsec : Z) : list Z := to_le_bytes 8 sec ++ to_le_bytes 8 (Z.quot nsec 1000).
Definition nanos_to_timeval_bytes (nanos : Z) : list Z :=
  to_le_bytes 8 (nanos / 1000000000) ++ to_le_bytes 8 (nanos mod 1000000000 / 1000).
Definition itimerval_bytes (value_ns interval_ns : Z) : list Z :=
  nanos_to_timeval_bytes interval_ns ++ nanos_to_timeval_bytes value_ns.

Definition stat_to_bytes (st : Obj.FileStat) : list Z :=
  fill 128 [(16%nat, to_le_bytes 4 (Obj.st_mode st)); (20%nat, to_le_bytes 4 (Obj.st_nlink st));
            (48%nat, to_le_bytes 8 (Obj.st_size st)); (56%nat, to_le_bytes 4 4096);
            (64%nat, to_le_bytes 8 (Obj.st_size st / 512))].
Definition statx_bytes (st : Obj.FileStat) : list Z :=
  fill 256 [(0%nat, to_le_bytes 4 0x1ff); (28%nat, to_le_bytes 4 (Obj.st_mode st));
            (40%nat, to_le_bytes 8 (Obj.st_size st)); (16%nat, to_le_bytes 4 (Obj.st_nlink st))].
Definition statfs_bytes : list Z :=
  fill 120 [(8%nat, to_le_bytes 8 4096); (80%nat, to_le_bytes 8 255); (88%nat, to_le_bytes 8 4096)].

(** The strings of [uname] for the two targets. *)
Definition uname_bytes (riscv : bool) : list Z :=
  let arch := if riscv then "riscv64" else "loongarch64" in
  let platform := if riscv then "whuse-riscv64-virt" else "whuse-loongarch64-virt" in
  fill 390 (imap (fun i s => (i * 65, Vfs.bytes_of s)%nat)
              ["Linux"; "whuse"; "6.8.0-whuse"; platform; arch; "localdomain"]).

Definition sigaction_to_bytes (a : SigAction) : list Z :=
  to_le_bytes 8 (sa_handler a) ++ to_le_bytes 8 (sa_flags a) ++ to_le_bytes 8 (sa_restorer a) ++
  to_le_bytes 8 (sa_mask a).
Definition mask_to_bytes (mask size : Z) : list Z :=
  let n := Nat.min (Z.to_nat size) 8 in
  take n (to_le_bytes 8 mask) ++ replicate (Z.to_nat size - n) 0.
Definition stack_t_to_bytes (stack : Z * Z * Z) : list Z :=
  let '(sp, size, flags) := stack in
  fill 24 [(0%nat, to_le_bytes 8 sp); (8%nat, to_le_bytes 4 flags); (16%nat, to_le_bytes 8 size)].

Record IoVec := mkIoVec { iov_base : Z; iov_len : Z }.
Record PollFd := mkPollFd { pfd_fd : Z; pfd_events : Z; pfd_revents : Z }.
Record EpollEvent := mkEpollEvent { ev_events : Z; ev_data : Z }.
Record MsgHdr := mkMsgHdr {
  msg_name : Z; msg_namelen : Z; msg_iov : Z; msg_iovlen : Z; msg_control : Z; msg_controllen : Z; msg_flags : Z }.

Definition pollfds_to_bytes (ps : list PollFd) : list Z :=
  flat_map (fun p => to_le_bytes 4 (pfd_fd p) ++ to_le_bytes 2 (pfd_events p) ++ to_le_bytes 2 (pfd_revents p)) ps.
Definition epoll_events_to_bytes (es : list EpollEvent) : list Z :=
  flat_map (fun e => to_le_bytes 4 (ev_events e) ++ to_le_bytes 4 0 ++ to_le_bytes 8 (ev_data e)) es.

Definition fd_set_len (nfds : Z) : Z := (nfds + 7) / 8.
Definition fd_set_bytes (fds : list Z) (nfds : Z) : list Z :=
  foldl (fun out fd => alter (fun b => Z.lor b (Z.shiftl 1 (fd mod 8))) (Z.to_nat (fd / 8)) out)
    (replicate (Z.to_nat (fd_set_len nfds)) 0) (List.filter (fun fd => fd <? nfds) fds).
(** [read_fd_set] on the bytes read. *)
Definition fd_set_members (raw : list Z) (nfds : Z) : list Z :=
  List.filter (fun fd => match raw !! Z.to_nat (fd / 8) with
                         | Some b => negb (Z.land b (Z.shiftl 1 (fd mod 8)) =? 0)
                         | None => false
                         end) (seqZ 0 nfds).

(** Ancillary data. *)
Definition cmsg_space (payload_len : Z) : outcome Z :=
  a ← uadd 16 payload_len; b ← uadd a 7; Ok (Z.land b (unot 7)).
Definition build_cmsg (level cmsg_type : Z) (payload : list Z) : outcome (list Z) :=
  total ← cmsg_space (zlen payload);
  Ok (fill (Z.to_nat total) [(0%nat, to_le_bytes 8 (16 + zlen payload)); (8%nat, to_le_bytes 4 level);
                             (12%nat, to_le_bytes 4 cmsg_type); (16%nat, payload)]).

(** ** Text *)
(** [String::from_utf8]: the well-formed byte sequences of RFC 3629. *)
Definition cont (b : Z) : bool := (128 <=? b) && (b <? 192).
Definition between (lo hi b : Z) : bool := (lo <=? b) && (b <=? hi).
Fixpoint is_utf8 (bs : list Z) : bool :=
  match bs with
  | [] => true
  | b0 :: rest =>
      if b0 <? 128 then is_utf8 rest
      else if between 0xc2 0xdf b0 then
        match rest with b1 :: rest' => cont b1 && is_utf8 rest' | _ => false end
      else if between 0xe0 0xef b0 then
        match rest with
        | b1 :: b2 :: rest' =>
            (if b0 =? 0xe0 then between 0xa0 0xbf b1 else if b0 =? 0xed then between 0x80 0x9f b1 else cont b1) &&
            cont b2 && is_utf8 rest'
        | _ => false
        end
      else if between 0xf0 0xf4 b0 then
        match rest with
        | b1 :: b2 :: b3 :: rest' =>
            (if b0 =? 0xf0 then between 0x90 0xbf b1 else if b0 =? 0xf4 then between 0x80 0x8f b1 else cont b1) &&
            cont b2 && cont b3 && is_utf8 rest'
        | _ => false
        end
      else false
  end.

Definition char_of (b : Z) : Ascii.ascii := Ascii.ascii_of_nat (Z.to_nat b).
Definition string_of (bs : list Z) : string := String.string_of_list_ascii (char_of <$> bs).
Definition from_utf8 (bs : list Z) : option string := if is_utf8 bs then Some (string_of bs) else None.

Definition hex_digit (d : Z) : Z := if d <? 10 then 48 + d else 87 + d.
Definition hex_encode_bytes (bs : list Z) : list Z :=
  flat_map (fun b => [hex_digit (Z.shiftr b 4); hex_digit (Z.land b 15)]) bs.
Definition from_hex_nibble (b : Z) : option Z :=
  if between 48 57 b then Some (b - 48)
  else if between 97 102 b then Some (b - 97 + 10)
  else if between 65 70 b then Some (b - 65 + 10)
  else None.
Fixpoint hex_pairs (bs : list Z) : outcome (list Z) :=
  match bs with
  | h :: l :: rest =>
      hi ← ok_or (from_hex_nibble h) EINVAL;
      lo ← ok_or (from_hex_nibble l) EINVAL;
      out ← hex_pairs rest;
      Ok (Z.lor (Z.shiftl hi 4) lo :: out)
  | _ => Ok []
  end.
Definition hex_decode_bytes (bs : list Z) : outcome (list Z) :=
  if negb (Z.land (zlen bs) 1 =? 0) then Err EINVAL else hex_pairs bs.

(** [{}], [{:03}] and [{:x}]: the digits of a number, least first. *)
Fixpoint digits (fuel : nat) (radix n : Z) : list Z :=
  match fuel with
  | O => []
  | S fuel' => if n <? radix then [n] else n mod radix :: digits fuel' radix (n / radix)
  end.
Definition number (radix : Z) (n : Z) : list Z := hex_digit <$> reverse (digits 16 radix n).
Definition pad3 (ds : list Z) : list Z := replicate (3 - length ds) 48 ++ ds.

(** [parse::<u8>], [parse::<u16>] and [from_str_radix]: an optional plus sign
    and at least one digit, the value at most [max]. *)
Definition digit_value (radix b : Z) : option Z :=
  d ← from_hex_nibble b; if d <? radix then Some d else None.
Fixpoint parse_digits (radix max acc : Z) (bs : list Z) : option Z :=
  match bs with
  | [] => Some acc
  | b :: rest =>
      d ← digit_value radix b;
      if acc * radix + d <=? max then parse_digits radix max (acc * radix + d) rest else None
  end.
Definition parse_number (radix max : Z) (bs : list Z) : option Z :=
  match bs with
  | [] => None
  | b :: rest =>
      if b =? 43 then match rest with [] => None | _ => parse_digits radix max 0 rest end
      else parse_digits radix max 0 bs
  end.

(** [split(c)] on bytes. *)
Fixpoint split_on (c : Z) (bs : list Z) : list (list Z) :=
  match bs with
  | [] => [[]]
  | b :: rest =>
      match split_on c rest with
      | p :: ps => if b =? c then [] :: p :: ps else (b :: p) :: ps
      | [] => [[]]
      end
  end.

(** ** Socket addresses *)
Definition be16 (n : Z) : list Z := [n / 256 mod 256; n mod 256].
Definition from_be16 (a b : Z) : Z := a * 256 + b.
Definition byte_at (bs : list Z) (i : nat) : Z := default 0 (bs !! i).

Definition colon : Z := 58.
Definition dot : Z := 46.

Definition UNIX_ABSTRACT_PREFIX : string := "/__unix_abstract__/".

(** The bytes up to the first NUL. *)
Definition until_nul (bs : list Z) : list Z :=
  match position (fun b => b =? 0) bs with Some n => take n bs | None => bs end.

Fixpoint join (c : Z) (ps : list (list Z)) : list Z :=
  match ps with [] => [] | [p] => p | p :: ps' => p ++ c :: join c ps' end.

Definition inet_text (bs : list Z) : list Z :=
  join dot ((fun i => pad3 (number 10 (byte_at bs i))) <$> [4; 5; 6; 7]%nat) ++
  colon :: number 10 (from_be16 (byte_at bs 2) (byte_at bs 3)).
Definition inet6_text (bs : list Z) : list Z :=
  join colon ((fun i => number 16 (from_be16 (byte_at bs (8 + 2 * i)) (byte_at bs (9 + 2 * i)))) <$> seq 0 8) ++
  colon :: number 10 (from_be16 (byte_at bs 2) (byte_at bs 3)).

(** [parse_sockaddr_path_with_default] on the [len] bytes read. *)
Definition sockaddr_path (bs : list Z) (default_family : option Z) : outcome string :=
  let family := let f := from_le_bytes (take 2 bs) in if f =? 0 then default 0 default_family else f in
  if family =? 1 then
    if zlen bs <=? 2 then Err EINVAL
    else if byte_at bs 2 =? 0 then
      let encoded := hex_encode_bytes (until_nul (drop 3 bs)) in
      Ok (UNIX_ABSTRACT_PREFIX +:+ string_of (match encoded with [] => [48] | _ => encoded end))
    else ok_or (from_utf8 (until_nul (drop 2 bs))) EINVAL
  else if family =? 2 then
    if zlen bs <? 8 then Err EINVAL else Ok ("/inet/" +:+ string_of (inet_text bs))
  else if family =? 10 then
    if zlen bs <? 28 then Err EINVAL else Ok ("/inet6/" +:+ string_of (inet6_text bs))
  else Err EAFNOSUPPORT.

(** [rsplit_once(':')] *)
Fixpoint rsplit_bytes (c : Z) (bs : list Z) : option (list Z * list Z) :=
  match bs with
  | [] => None
  | b :: rest =>
      match rsplit_bytes c rest with
      | Some (x, y) => Some (b :: x, y)
      | None => if b =? c then Some ([], rest) else None
      end
  end.

Definition parse_ipv4 (ip : list Z) : outcome (list Z) :=
  let segs := split_on dot ip in
  out ← foldM (fun out seg => if (length out <? 4)%nat
                              then n ← ok_or (parse_number 10 255 seg) EINVAL; Ok (out ++ [n])
                              else Err EINVAL) [] segs;
  if (length out =? 4)%nat then Ok out else Err EINVAL.

(** The groups read so far and the position of the first empty segment. *)
Definition parse_ipv6 (ip : list Z) : outcome (list Z) :=
  '(groups, compressed) ← foldM (fun '(groups, compressed) seg =>
      match seg with
      | [] => Ok (groups, match compressed with Some _ => compressed | None => Some (length groups) end)
      | _ => if (8 <=? length groups)%nat then Err EINVAL
             else n ← ok_or (parse_number 16 65535 seg) EINVAL; Ok (groups ++ [n], compressed)
      end) ([], None) (split_on colon ip);
  match (compressed : option nat) with
  | Some pos =>
      (* with all eight groups present, moving the tail onto itself clears it *)
      if (length groups =? 8)%nat then Ok (take pos groups ++ replicate (8 - pos) 0)
      else Ok (take pos groups ++ replicate (8 - length groups) 0 ++ drop pos groups)
  | None => if (length groups =? 8)%nat then Ok groups else Err EINVAL
  end.

Definition encode_sockaddr_in (spec : list Z) : outcome (list Z) :=
  '(ip, port) ← ok_or (rsplit_bytes colon spec) EINVAL;
  p ← ok_or (parse_number 10 65535 port) EINVAL;
  octets ← parse_ipv4 ip;
  Ok (to_le_bytes 2 2 ++ be16 p ++ octets ++ replicate 8 0).

Definition encode_sockaddr_in6 (spec : list Z) : outcome (list Z) :=
  '(ip, port) ← ok_or (rsplit_bytes colon spec) EINVAL;
  p ← ok_or (parse_number 10 65535 port) EINVAL;
  groups ← parse_ipv6 ip;
  Ok (to_le_bytes 2 10 ++ be16 p ++ replicate 4 0 ++ flat_map be16 groups ++ replicate 4 0).

(** The bytes [write_sockaddr] makes of a path. *)
Definition sockaddr_bytes (path : string) : outcome (list Z) :=
  match Path.strip_prefix path "/inet/" with
  | Some rest => encode_sockaddr_in (Vfs.bytes_of rest)
  | None =>
      match Path.strip_prefix path "/inet6/" with
      | Some rest => encode_sockaddr_in6 (Vfs.bytes_of rest)
      | None =>
          match Path.strip_prefix path UNIX_ABSTRACT_PREFIX with
          | Some rest => name ← hex_decode_bytes (Vfs.bytes_of rest); Ok (to_le_bytes 2 1 ++ [0] ++ name)
          | None => Ok (to_le_bytes 2 1 ++ Vfs.bytes_of path ++ [0])
          end
      end
  end.

(** ** Reading structures from user memory *)
Section Reader.
(** [read_user_bytes] of the process, with its errors turned into EFAULT. *)
Context (read_user : Z → Z → outcome (list Z)) (read_user_cstr : Z → outcome string).

Definition read_usize (addr : Z) : outcome Z := bs ← read_user addr 8; Ok (from_le_bytes bs).
Definition read_u32 (addr : Z) : outcome Z := bs ← read_user addr 4; Ok (from_le_bytes bs).
Definition read_i32 (addr : Z) : outcome Z := bs ← read_user addr 4; Ok (as_signed 32 (from_le_bytes bs)).

Definition read_timespec_ns (addr : Z) : outcome Z :=
  raw ← read_user addr 16;
  let sec := as_signed 64 (field 0 8 raw) in
  let nsec := as_signed 64 (field 8 8 raw) in
  if (sec <? 0) || negb ((0 <=? nsec) && (nsec <? 1000000000)) then Err EINVAL
  else Ok (saturating_add (saturating_mul sec 1000000000) nsec).

Fixpoint read_chunks {A} (size : nat) (decode : list Z → A) (count : nat) (raw : list Z) : list A :=
  match count with
  | O => []
  | S count' => decode (take size raw) :: read_chunks size decode count' (drop size raw)
  end.

Definition read_iovecs (addr count : Z) : outcome (list IoVec) :=
  n ← umul count 16;
  raw ← read_user addr n;
  Ok (read_chunks 16 (fun c => mkIoVec (field 0 8 c) (field 8 8 c)) (Z.to_nat count) raw).

Definition read_pollfds (addr count : Z) : outcome (list PollFd) :=
  n ← umul count 8;
  raw ← read_user addr n;
  Ok (read_chunks 8 (fun c => mkPollFd (as_signed 32 (field 0 4 c)) (as_signed 16 (field 4 2 c))
                                (as_signed 16 (field 6 2 c))) (Z.to_nat count) raw).

Definition read_fd_set (addr nfds : Z) : outcome (list Z) :=
  raw ← read_user addr (fd_set_len nfds);
  Ok (fd_set_members raw nfds).

Definition read_epoll_event (addr : Z) : outcome EpollEvent :=
  bs ← read_user addr 16;
  Ok (mkEpollEvent (field 0 4 bs) (field 8 8 bs)).

Definition read_msghdr (addr : Z) : outcome MsgHdr :=
  bs ← read_user addr 56;
  Ok (mkMsgHdr (field 0 8 bs) (field 8 4 bs) (field 16 8 bs) (field 24 8 bs) (field 32 8 bs) (field 40 8 bs)
        (field 48 4 bs)).

Definition read_mask (addr size : Z) : outcome Z :=
  bs ← read_user addr size;
  Ok (from_le_bytes (take 8 bs)).

Fixpoint read_strings (rounds : nat) (index addr : Z) : outcome (list string) :=
  match rounds with
  | O => Ok []
  | S rounds' =>
      a ← uadd addr (index * 8);
      ptr ← read_usize a;
      if ptr =? 0 then Ok []
      else
        s ← read_user_cstr ptr;
        rest ← read_strings rounds' (index + 1) addr;
        Ok (s :: rest)
  end.
Definition read_string_vector (addr : Z) : outcome (list string) :=
  if addr =? 0 then Ok [] else read_strings 64 0 addr.

Definition decode_sigaction (bs : list Z) : SigAction :=
  mkSigAction (field 0 8 bs) (field 8 8 bs) (field 16 8 bs) (field 24 8 bs).
Definition read_sigaction (addr : Z) : outcome SigAction := bs ← read_user addr 32; Ok (decode_sigaction bs).

Definition read_stack_t (addr : Z) : outcome (Z * Z * Z) :=
  bs ← read_user addr 24;
  Ok (field 0 8 bs, field 16 8 bs, field 8 4 bs).

Definition read_flock_request (addr : Z) : outcome FlockRequest :=
  bs ← read_user addr 32; Ok (decode_flock bs).

Definition parse_sockaddr_path_with_default (addr len : Z) (default_family : option Z) : outcome string :=
  if (addr =? 0) || (len <? 2) then Err EFAULT
  else bs ← read_user addr len; sockaddr_path bs default_family.

Definition read_at_path_allow_empty (path_ptr flags : Z) : outcome string :=
  if path_ptr =? 0 then if Z.land flags 0x1000 =? 0 then Err EFAULT else Ok ""
  else read_user_cstr path_ptr.
End Reader.

(** [read_timeval_ns]: the sum is not saturating. *)
Definition read_timeval_ns (bs : list Z) : outcome (option Z) :=
  if (length bs <? 16)%nat then Ok None
  else
    let sec := as_signed 64 (field 0 8 bs) in
    let usec := as_signed 64 (field 8 8 bs) in
    if (sec <? 0) || negb ((0 <=? usec) && (usec <? 1000000)) then Ok None
    else n ← uadd (saturating_mul sec 1000000000) (usec * 1000); Ok (Some n).

(** ** Programs *)
(** [u8::is_ascii_whitespace] *)
Definition is_ascii_whitespace (b : Z) : bool := existsb (Z.eqb b) [32; 9; 10; 12; 13].

(** [split_ascii_whitespace], with the word read so far. *)
Fixpoint words (acc : list Z) (bs : list Z) : list (list Z) :=
  match bs with
  | [] => match acc with [] => [] | _ => [acc] end
  | b :: rest =>
      if is_ascii_whitespace b then match acc with [] => words [] rest | _ => acc :: words [] rest end
      else words (acc ++ [b]) rest
  end.

(** [str::trim] removes the characters with the Unicode property White_Space,
    which have these encodings. *)
Definition white_space : list (list Z) :=
  ((fun b => [b]) <$> [9; 10; 11; 12; 13; 32]) ++ [[0xc2; 0x85]; [0xc2; 0xa0]; [0xe1; 0x9a; 0x80]] ++
  ((fun i => [0xe2; 0x80; 0x80 + i]) <$> seqZ 0 11) ++
  [[0xe2; 0x80; 0xa8]; [0xe2; 0x80; 0xa9]; [0xe2; 0x80; 0xaf]; [0xe2; 0x81; 0x9f]; [0xe3; 0x80; 0x80]].
Definition strip_first (encodings : list (list Z)) (bs : list Z) : option (list Z) :=
  find_map (fun e => if decide (take (length e) bs = e) then Some (drop (length e) bs) else None) encodings.
Fixpoint trim_with (fuel : nat) (encodings : list (list Z)) (bs : list Z) : list Z :=
  match fuel with
  | O => bs
  | S fuel' => match strip_first encodings bs with Some rest => trim_with fuel' encodings rest | None => bs end
  end.
Definition trim (bs : list Z) : list Z :=
  let bs := trim_with (length bs) white_space bs in
  reverse (trim_with (length bs) (reverse <$> white_space) (reverse bs)).

Definition parse_shebang_line (data : list Z) : option (string * option string) :=
  match data with
  | 35 :: 33 :: rest =>
      let line := default [] (head (split_on 10 rest)) in
      if is_utf8 line then
        match words [] (trim line) with
        | interp :: arg :: _ => Some (string_of interp, Some (string_of arg))
        | [interp] => Some (string_of interp, None)
        | [] => None
        end
      else None
  | _ => None
  end.

Definition shell_exec_command (path : string) (argv : list string) : option string :=
  let long :=
    if (String.eqb path "/musl/busybox" || String.eqb path "/busybox")
    then match argv with
         | [_; a; b; c] => if String.eqb a "sh" && String.eqb b "-c" then Some c else None
         | _ => None
         end
    else None in
  if String.eqb path "/bin/sh" || String.eqb path "/bin/bash"
  then match argv with
       | [_; a; b] => if String.eqb a "-c" then Some b else long
       | _ => long
       end
  else long.

Definition shell_metachar (b : Z) : bool := existsb (Z.eqb b) [59; 38; 124; 60; 62; 40; 41; 36; 96; 34; 39].
Definition simple_shell_command_path (command : string) : option string :=
  let bs := Vfs.bytes_of command in
  if String.eqb command "" || existsb is_ascii_whitespace bs || existsb shell_metachar bs then None
  else Some command.

End Abi.
