(* ===== verification/AbiSpec.v ===== *)
(** * Properties of the ABI codecs

    Numbers print and parse back; socket addresses survive the trip through
    the path names the kernel keeps for them; descriptor sets survive the
    trip through their bit vectors. *)

From S2P Require Import Prelude Path FileObject Vfs Process Locks Abi.

Open Scope string_scope.
Open Scope list_scope.
Open Scope Z_scope.

Module AbiSpec.
Import Abi.

(** ** Numbers *)
Definition value (radix : Z) (ds : list Z) : Z := foldl (fun a d => a * radix + d) 0 ds.

Lemma hex_digit_nibble d : 0 ≤ d < 16 → from_hex_nibble (hex_digit d) = Some d.
Proof.
  intros Hd. unfold hex_digit, from_hex_nibble, between.
  destruct (Z.ltb_spec d 10); 
    repeat (match goal with |- context [?a <=? ?b] => destruct (Z.leb_spec a b) end; cbn [andb]); first [exfalso; lia|f_equal; lia].
Qed.
Lemma hex_digit_range d : 0 ≤ d < 16 → 48 ≤ hex_digit d ≤ 57 ∨ 97 ≤ hex_digit d ≤ 102.
Proof. intros Hd. unfold hex_digit. destruct (Z.ltb_spec d 10); lia. Qed.

Lemma digits_range fuel radix n : 2 ≤ radix → 0 ≤ n → Forall (fun d => 0 ≤ d < radix) (digits fuel radix n).
Proof.
  intros Hr. revert n. induction fuel as [|fuel IH]; intros n Hn; [constructor|]. cbn [digits].
  destruct (Z.ltb_spec n radix); [repeat constructor; lia|].
  constructor; [apply Z.mod_pos_bound; lia|]. apply IH, Z.div_pos; lia.
Qed.

Lemma value_digits fuel radix n : 2 ≤ radix → 0 ≤ n < radix ^ Z.of_nat fuel → value radix (reverse (digits fuel radix n)) = n.
Proof.
  intros Hr. revert n. induction fuel as [|fuel IH]; intros n Hn; [simpl in Hn; unfold value; simpl; lia|]. cbn [digits].
  destruct (Z.ltb_spec n radix); [unfold value; simpl; lia|].
  rewrite reverse_cons. unfold value. rewrite foldl_snoc. fold (value radix (reverse (digits fuel radix (n / radix)))).
  rewrite IH; [pose proof (Z.div_mod n radix); lia|].
  rewrite Nat2Z.inj_succ, Z.pow_succ_r in Hn by lia. split; [apply Z.div_pos; lia|]. apply Z.div_lt_upper_bound; lia.
Qed.

Lemma digits_nil fuel radix n : digits (S fuel) radix n ≠ [].
Proof. cbn [digits]. by destruct (_ <? _). Qed.

Lemma foldl_value radix ds a : 0 ≤ radix → 0 ≤ a → Forall (fun d => 0 ≤ d < radix) ds →
  a ≤ foldl (fun a d => a * radix + d) a ds ∨ ds ≠ [] ∧ a * radix ≤ foldl (fun a d => a * radix + d) a ds.
Proof.
  intros Hr. revert a. induction ds as [|d ds IH]; intros a Ha Hd; [left; simpl; lia|]. right. split; [done|]. simpl.
  apply Forall_cons in Hd as [Hd Hds]. destruct (IH (a * radix + d)) as [?|[_ ?]]; [nia|done|nia|nia].
Qed.

Lemma parse_digits_value radix max ds acc : 1 ≤ radix ≤ 16 → 0 ≤ acc → Forall (fun d => 0 ≤ d < radix) ds →
  foldl (fun a d => a * radix + d) acc ds ≤ max →
  parse_digits radix max acc (hex_digit <$> ds) = Some (foldl (fun a d => a * radix + d) acc ds).
Proof.
  intros Hr. revert acc. induction ds as [|d ds IH]; intros acc Ha Hd Hm; [done|].
  apply Forall_cons in Hd as [Hd Hds]. cbn [fmap list_fmap parse_digits foldl] in *.
  unfold digit_value. rewrite hex_digit_nibble by lia. simpl. rewrite (proj2 (Z.ltb_lt d radix)) by lia. simpl.
  assert (acc * radix + d ≤ foldl (fun a d => a * radix + d) (acc * radix + d) ds) as Hle.
  { destruct (foldl_value radix ds (acc * radix + d)) as [?|[_ ?]]; [lia|nia|done|done|nia]. }
  rewrite (proj2 (Z.leb_le _ _)) by lia. apply IH; [nia|done|done].
Qed.

(** No digit is a plus sign or a separator. *)
Definition no_sep (l : list Z) : Prop := Forall (fun b => 48 ≤ b ≤ 57 ∨ 97 ≤ b ≤ 102) l.
Lemma no_sep_digits ds : Forall (fun d => 0 ≤ d < 16) ds → no_sep (hex_digit <$> ds).
Proof. intros Hd. apply Forall_fmap. eapply Forall_impl; [exact Hd|]. intros d. apply hex_digit_range. Qed.
Lemma no_sep_notin c l : c < 48 ∨ c = 58 → no_sep l → c ∉ l.
Proof. intros Hc Hl Hin. unfold no_sep in Hl. rewrite Forall_forall in Hl. specialize (Hl c Hin). simpl in Hl. lia. Qed.

Lemma number_digits radix n : 2 ≤ radix ≤ 16 → 0 ≤ n → Forall (fun d => 0 ≤ d < radix) (reverse (digits 16 radix n)).
Proof. intros Hr Hn. apply Forall_reverse, digits_range; lia. Qed.

Lemma number_no_sep radix n : 2 ≤ radix ≤ 16 → 0 ≤ n → no_sep (number radix n).
Proof.
  intros Hr Hn. apply no_sep_digits. eapply Forall_impl; [by apply (number_digits radix n)|]. simpl. lia.
Qed.
Lemma number_not_nil radix n : number radix n ≠ [].
Proof.
  unfold number. intros ?%(f_equal length). rewrite length_fmap, length_reverse in H. apply length_zero_iff_nil in H.
  by apply digits_nil in H.
Qed.

Lemma parse_no_sep radix max l : l ≠ [] → no_sep l → parse_number radix max l = parse_digits radix max 0 l.
Proof. destruct l as [|b l]; [done|]. intros _ [Hb _]%Forall_cons. cbn [parse_number]. by rewrite (proj2 (Z.eqb_neq b 43)) by lia. Qed.

(** [parse] after [format!]. *)
Lemma parse_number_number radix max n : 2 ≤ radix ≤ 16 → 0 ≤ n ≤ max → n < 2 ^ 16 → parse_number radix max (number radix n) = Some n.
Proof.
  intros Hr Hn H16. rewrite parse_no_sep; [|apply number_not_nil|apply number_no_sep; lia]. unfold number.
  assert (value radix (reverse (digits 16 radix n)) = n) as Hv.
  { apply value_digits; [lia|]. split; [lia|]. eapply Z.lt_le_trans; [exact H16|]. apply Z.pow_le_mono_l. lia. }
  rewrite parse_digits_value; [by f_equal|lia|lia|by apply number_digits; lia|unfold value in Hv; lia].
Qed.

(** The same with leading zeros. *)
Lemma parse_padded max n : 0 ≤ n ≤ max → n < 2 ^ 16 → parse_number 10 max (pad3 (number 10 n)) = Some n.
Proof.
  intros Hn H16. pose proof (number_no_sep 10 n ltac:(lia) ltac:(lia)) as Hs. pose proof (parse_number_number 10 max n ltac:(lia) Hn H16) as Hp.
  pose proof (number_not_nil 10 n) as Hnn. unfold pad3. rewrite parse_no_sep.
  - rewrite parse_no_sep in Hp by done. revert Hp. generalize (number 10 n). intros l Hl.
    induction (3 - length l)%nat as [|z IH]; [done|]. cbn [replicate app parse_digits].
    unfold digit_value. simpl. rewrite (proj2 (Z.leb_le _ _)) by lia. exact IH.
  - by intros [_ ?]%app_eq_nil.
  - apply Forall_app. split; [|done]. apply Forall_replicate. lia.
Qed.

Lemma number_inj radix n m : 2 ≤ radix ≤ 16 → 0 ≤ n < radix ^ 16 → 0 ≤ m < radix ^ 16 → number radix n = number radix m → n = m.
Proof.
  intros Hr Hn Hm He. rewrite <- (value_digits 16 radix n), <- (value_digits 16 radix m) by (simpl; lia). f_equal.
  unfold number in He. pose proof (number_digits radix n Hr (proj1 Hn)) as H1. pose proof (number_digits radix m Hr (proj1 Hm)) as H2.
  revert He H1 H2. generalize (reverse (digits 16 radix n)), (reverse (digits 16 radix m)). intros l1.
  induction l1 as [|a l1 IH]; intros [|b l2] He H1 H2; try done. apply Forall_cons in H1 as [? H1], H2 as [? H2].
  cbn in He. injection He as Hab Hl. f_equal; [|by apply IH].
  apply (f_equal from_hex_nibble) in Hab. rewrite !hex_digit_nibble in Hab by lia. by injection Hab.
Qed.

(** ** Text *)
Lemma bytes_of_string_of bs : Forall is_byte bs → Vfs.bytes_of (string_of bs) = bs.
Proof.
  intros Hb. unfold Vfs.bytes_of, string_of. rewrite String.list_ascii_of_string_of_list_ascii.
  rewrite <- list_fmap_compose. rewrite <- (list_fmap_id bs) at 2. apply list_fmap_ext. intros i b Hi.
  rewrite Forall_lookup in Hb. specialize (Hb i b Hi). unfold is_byte in Hb. simpl. unfold char_of.
  rewrite Ascii.nat_ascii_embedding by lia. lia.
Qed.

Lemma no_sep_bytes l : no_sep l → Forall is_byte l.
Proof. intros Hl. eapply Forall_impl; [exact Hl|]. unfold is_byte. simpl. lia. Qed.

Lemma split_on_notin c l : c ∉ l → split_on c l = [l].
Proof.
  induction l as [|b l IH]; [done|]. intros [Hb Hl]%not_elem_of_cons. cbn [split_on]. rewrite IH by done.
  by rewrite (proj2 (Z.eqb_neq b c)).
Qed.
Lemma split_on_app c l rest : c ∉ l → split_on c (l ++ c :: rest) = l :: split_on c rest.
Proof.
  induction l as [|b l IH]; cbn [app split_on].
  - intros _. rewrite Z.eqb_refl. destruct (split_on c rest) eqn:He; [|done].
    destruct rest as [|x rest]; cbn [split_on] in He; [done|]. destruct (split_on c rest); [done|]. by destruct (x =? c).
  - intros [Hb Hl]%not_elem_of_cons. rewrite IH by done. by rewrite (proj2 (Z.eqb_neq b c)).
Qed.
Lemma split_join c ps : ps ≠ [] → Forall (fun p => c ∉ p) ps → split_on c (join c ps) = ps.
Proof.
  induction ps as [|p ps IH]; [done|]. intros _ [Hp Hps]%Forall_cons. destruct ps as [|q ps].
  - by apply split_on_notin.
  - change (join c (p :: q :: ps)) with (p ++ c :: join c (q :: ps)). rewrite split_on_app by done. by rewrite IH.
Qed.

Lemma rsplit_notin c l : c ∉ l → rsplit_bytes c l = None.
Proof.
  induction l as [|b l IH]; [done|]. intros [Hb Hl]%not_elem_of_cons. cbn [rsplit_bytes]. rewrite IH by done.
  by rewrite (proj2 (Z.eqb_neq b c)).
Qed.
Lemma rsplit_after_last c l r : c ∉ r → rsplit_bytes c (l ++ c :: r) = Some (l, r).
Proof.
  intros Hr. induction l as [|b l IH]; cbn [app rsplit_bytes]; [by rewrite rsplit_notin, Z.eqb_refl|by rewrite IH].
Qed.

Lemma join_bytes c ps : is_byte c → Forall (Forall is_byte) ps → Forall is_byte (join c ps).
Proof.
  intros Hc. induction ps as [|p ps IH]; [constructor|]. intros [Hp Hps]%Forall_cons. destruct ps as [|q ps]; [done|].
  change (join c (p :: q :: ps)) with (p ++ c :: join c (q :: ps)). apply Forall_app. split; [done|]. constructor; [done|]. by apply IH.
Qed.

(** ** Hexadecimal names *)
Lemma nibbles b : is_byte b → Z.lor (Z.shiftl (Z.shiftr b 4) 4) (Z.land b 15) = b.
Proof.
  intros Hb. apply Z.bits_inj'. intros i Hi. rewrite Z.lor_spec, Z.land_spec. change 15 with (Z.ones 4).
  destruct (decide (i < 4)).
  - rewrite Z.shiftl_spec_low by lia. rewrite Z.ones_spec_low by lia. by rewrite andb_true_r.
  - rewrite Z.shiftl_spec_high, Z.shiftr_spec by lia. rewrite Z.ones_spec_high by lia. rewrite andb_false_r, orb_false_r.
    f_equal. lia.
Qed.
Lemma hi_nibble b : is_byte b → 0 ≤ Z.shiftr b 4 < 16.
Proof.
  intros [? ?]. rewrite Z.shiftr_div_pow2 by lia. split; [apply Z.div_pos; lia|]. apply Z.div_lt_upper_bound; lia.
Qed.
Lemma lo_nibble b : 0 ≤ Z.land b 15 < 16.
Proof. change 15 with (Z.ones 4). rewrite Z.land_ones by lia. apply Z.mod_pos_bound. lia. Qed.

Lemma hex_roundtrip bs : Forall is_byte bs → hex_decode_bytes (hex_encode_bytes bs) = Ok bs.
Proof.
  intros Hb. unfold hex_decode_bytes.
  assert (zlen (hex_encode_bytes bs) = 2 * zlen bs) as ->.
  { induction bs as [|b bs IH]; [done|]. apply Forall_cons in Hb as [_ Hb]. specialize (IH Hb). unfold zlen in *. simpl. lia. }
  assert (Z.land (2 * zlen bs) 1 = 0) as ->.
  { change 1 with (Z.ones 1). rewrite Z.land_ones by lia. rewrite Z.mul_comm. by apply Z.mod_mul. }
  simpl. induction bs as [|b bs IH]; [done|]. apply Forall_cons in Hb as [Hb Hbs].
  cbn [hex_encode_bytes flat_map app hex_pairs].
  rewrite (hex_digit_nibble (Z.shiftr b 4)) by (by apply hi_nibble). rewrite (hex_digit_nibble (Z.land b 15)) by apply lo_nibble.
  simpl. unfold hex_encode_bytes in IH. rewrite (IH Hbs). simpl. by rewrite nibbles.
Qed.
Lemma hex_encode_bytes_byte bs : Forall is_byte bs → Forall is_byte (hex_encode_bytes bs).
Proof.
  intros Hb. apply no_sep_bytes. induction Hb as [|b bs Hb _ IH]; [constructor|]. cbn [hex_encode_bytes flat_map app].
  constructor; [by apply hex_digit_range, hi_nibble|]. constructor; [apply hex_digit_range, lo_nibble|exact IH].
Qed.

(** ** Socket addresses *)
(** The addresses a program can pass, and their layout in memory. *)
Inductive sockaddr :=
  | Inet (port : Z) (octets : list Z)
  | Inet6 (port : Z) (groups : list Z)
  | Abstract (name : list Z)
  | Named (name : list Z).

Definition layout (a : sockaddr) : list Z :=
  match a with
  | Inet port octets => to_le_bytes 2 2 ++ be16 port ++ octets ++ replicate 8 0
  | Inet6 port groups => to_le_bytes 2 10 ++ be16 port ++ replicate 4 0 ++ flat_map be16 groups ++ replicate 4 0
  | Abstract name => to_le_bytes 2 1 ++ [0] ++ name
  | Named name => to_le_bytes 2 1 ++ name ++ [0]
  end.

Definition is_u16 (n : Z) : Prop := 0 ≤ n < 65536.
(** A byte of a C string. *)
Definition c_byte (b : Z) : Prop := 0 < b < 256.
Definition reserved : list string := ["/inet/"; "/inet6/"; UNIX_ABSTRACT_PREFIX].
Definition sockaddr_ok (a : sockaddr) : Prop :=
  match a with
  | Inet port octets => is_u16 port ∧ Forall is_byte octets ∧ length octets = 4%nat
  | Inet6 port groups => is_u16 port ∧ Forall is_u16 groups ∧ length groups = 8%nat
  | Abstract name => Forall c_byte name ∧ name ≠ []
  | Named name => Forall c_byte name ∧ name ≠ [] ∧ is_utf8 name = true ∧
                  Forall (fun p => Path.strip_prefix (string_of name) p = None) reserved
  end.

Lemma from_be16_be16 n : is_u16 n → from_be16 (n / 256 mod 256) (n mod 256) = n.
Proof.
  intros [? ?]. unfold from_be16. rewrite (Z.mod_small (n / 256)); [pose proof (Z.div_mod n 256); lia|].
  split; [apply Z.div_pos; lia|]. apply Z.div_lt_upper_bound; lia.
Qed.

Lemma until_nul_free l : Forall c_byte l → until_nul l = l.
Proof.
  intros Hl. unfold until_nul. destruct (position _ l) as [n|] eqn:Hp; [|done]. exfalso.
  apply position_Some in Hp as (x & Hx & Hz & _). apply Z.eqb_eq in Hz as ->. rewrite Forall_lookup in Hl. specialize (Hl _ _ Hx).
  unfold c_byte in Hl. lia.
Qed.
Lemma until_nul_app l : Forall c_byte l → until_nul (l ++ [0]) = l.
Proof.
  intros Hl. assert (until_nul (l ++ [0]) = l ++ until_nul [0]) as ->; [|by rewrite app_nil_r].
  induction Hl as [|b l Hb _ IH]; [done|]. unfold until_nul in *. cbn [app position]. unfold c_byte in Hb.
  rewrite (proj2 (Z.eqb_neq b 0)) by lia. destruct (position _ (l ++ [0])) as [n|]; simpl in *; by rewrite IH.
Qed.
Lemma c_byte_byte l : Forall c_byte l → Forall is_byte l.
Proof. intros Hl. eapply Forall_impl; [exact Hl|]. unfold c_byte, is_byte. lia. Qed.

(** The text of an address, read back. *)
Lemma encode_inet port octets : is_u16 port → Forall is_byte octets → length octets = 4%nat →
  encode_sockaddr_in (join dot ((fun b => pad3 (number 10 b)) <$> octets) ++ colon :: number 10 port) = Ok (layout (Inet port octets)).
Proof.
  intros Hp Ho Hl. unfold encode_sockaddr_in.
  rewrite rsplit_after_last by (apply no_sep_notin; [by right|]; apply number_no_sep; unfold is_u16 in Hp; lia). simpl.
  unfold is_u16 in Hp. rewrite parse_number_number by lia. simpl.
  assert (∀ b, is_byte b → (dot ∉ pad3 (number 10 b)) ∧ parse_number 10 255 (pad3 (number 10 b)) = Some b) as Hb.
  { intros b [? ?]. split; [|apply parse_padded; lia]. apply no_sep_notin; [unfold dot; lia|].
    apply Forall_app. split; [|apply number_no_sep; lia]. apply Forall_replicate. lia. }
  unfold parse_ipv4. rewrite split_join.
  - destruct octets as [|a [|b [|c [|d [|? ?]]]]]; try done. repeat (apply Forall_cons in Ho as [? Ho]).
    cbn [fmap list_fmap foldM length Nat.ltb Nat.leb app].
    rewrite !(fun b Hx => proj2 (Hb b Hx)) by assumption. done.
  - by destruct octets.
  - apply Forall_fmap. eapply Forall_impl; [exact Ho|]. intros b ?. by apply Hb.
Qed.

Lemma encode_inet6 port groups : is_u16 port → Forall is_u16 groups → length groups = 8%nat →
  encode_sockaddr_in6 (join colon ((fun b => number 16 b) <$> groups) ++ colon :: number 10 port) = Ok (layout (Inet6 port groups)).
Proof.
  intros Hp Ho Hl. unfold encode_sockaddr_in6.
  rewrite rsplit_after_last by (apply no_sep_notin; [by right|]; apply number_no_sep; unfold is_u16 in Hp; lia). simpl.
  unfold is_u16 in Hp. rewrite parse_number_number by lia. simpl.
  assert (∀ b, is_u16 b → (colon ∉ number 16 b) ∧ ∃ x l, number 16 b = x :: l ∧ parse_number 16 65535 (x :: l) = Some b) as Hb.
  { intros b [? ?]. split; [apply no_sep_notin; [by right|]; apply number_no_sep; lia|].
    pose proof (parse_number_number 16 65535 b ltac:(lia) ltac:(lia) ltac:(lia)) as Hpn.
    destruct (number 16 b) as [|x l] eqn:Hn; [by apply number_not_nil in Hn|]. eauto. }
  unfold parse_ipv6. rewrite split_join.
  - destruct groups as [|g0 [|g1 [|g2 [|g3 [|g4 [|g5 [|g6 [|g7 [|? ?]]]]]]]]]; try done. repeat (apply Forall_cons in Ho as [? Ho]).
    cbn [fmap list_fmap foldM].
    repeat (match goal with |- context [number 16 ?g] =>
      destruct (proj2 (Hb g ltac:(assumption))) as (? & ? & -> & ?) end).
    repeat (cbn [length Nat.leb app foldM mbind outcome_bind]; match goal with E : parse_number _ _ _ = Some _ |- _ => rewrite E; clear E; cbn [ok_or] end).
    done.
  - by destruct groups.
  - apply Forall_fmap. eapply Forall_impl; [exact Ho|]. intros b ?. by apply Hb.
Qed.

Lemma inet_text_layout port octets : is_u16 port → length octets = 4%nat →
  inet_text (layout (Inet port octets)) = join dot ((fun b => pad3 (number 10 b)) <$> octets) ++ colon :: number 10 port.
Proof.
  intros Hp Hl. destruct octets as [|a [|b [|c [|d [|? ?]]]]]; try done. unfold inet_text, byte_at. simpl.
  rewrite from_be16_be16 by done. done.
Qed.
Lemma inet6_text_layout port groups : is_u16 port → Forall is_u16 groups → length groups = 8%nat →
  inet6_text (layout (Inet6 port groups)) = join colon ((fun b => number 16 b) <$> groups) ++ colon :: number 10 port.
Proof.
  intros Hp Hg Hl. destruct groups as [|g0 [|g1 [|g2 [|g3 [|g4 [|g5 [|g6 [|g7 [|? ?]]]]]]]]]; try done.
  repeat (apply Forall_cons in Hg as [? Hg]). unfold inet6_text, byte_at. simpl. rewrite !from_be16_be16 by done. done.
Qed.

Lemma inet_text_bytes port octets : 0 ≤ port → Forall is_byte octets →
  Forall is_byte (join dot ((fun b => pad3 (number 10 b)) <$> octets) ++ colon :: number 10 port).
Proof.
  intros Hp Ho. apply Forall_app. split; [|constructor; [done|]; apply no_sep_bytes, number_no_sep; lia].
  apply join_bytes; [done|]. apply Forall_fmap. eapply Forall_impl; [exact Ho|]. intros b [? ?]. apply Forall_app.
  split; [by apply Forall_replicate|]. apply no_sep_bytes, number_no_sep; lia.
Qed.
Lemma inet6_text_bytes port groups : 0 ≤ port → Forall is_u16 groups →
  Forall is_byte (join colon ((fun b => number 16 b) <$> groups) ++ colon :: number 10 port).
Proof.
  intros Hp Ho. apply Forall_app. split; [|constructor; [done|]; apply no_sep_bytes, number_no_sep; lia].
  apply join_bytes; [done|]. apply Forall_fmap. eapply Forall_impl; [exact Ho|]. intros b [? ?].
  apply no_sep_bytes, number_no_sep; lia.
Qed.

(** a socket address in any of the four forms (IPv4, IPv6, abstract and
    file-system Unix names) that a program passes to bind or connect is
    turned into a path name from which getsockname and accept rebuild the
    same bytes. *)
Theorem sockaddr_roundtrip a : sockaddr_ok a →
  ∃ path, sockaddr_path (layout a) None = Ok path ∧ sockaddr_bytes path = Ok (layout a).
Proof.
  destruct a as [port octets|port groups|name|name]; cbn [sockaddr_ok].
  - intros (Hp & Ho & Hl). eexists. split.
    + unfold sockaddr_path. rewrite (proj2 (Z.ltb_ge (zlen _) 8)); [done|].
      destruct octets as [|? [|? [|? [|? [|? ?]]]]]; unfold zlen; simpl; lia || done.
    + unfold sockaddr_bytes. rewrite Path.strip_prefix_app, inet_text_layout by done.
      rewrite bytes_of_string_of by (apply inet_text_bytes; [unfold is_u16 in Hp; lia|done]). by apply encode_inet.
  - intros (Hp & Ho & Hl). eexists. split.
    + unfold sockaddr_path. rewrite (proj2 (Z.ltb_ge (zlen _) 28)); [done|].
      destruct groups as [|? [|? [|? [|? [|? [|? [|? [|? [|? ?]]]]]]]]]; unfold zlen; simpl; lia || done.
    + unfold sockaddr_bytes. rewrite (Path.strip_prefix_app "/inet6/"). cbn [Path.strip_prefix Ascii.eqb String.append Bool.eqb].
      rewrite inet6_text_layout by done.
      rewrite bytes_of_string_of by (apply inet6_text_bytes; [unfold is_u16 in Hp; lia|done]). by apply encode_inet6.
  - intros (Hn & Hne). exists (UNIX_ABSTRACT_PREFIX +:+ string_of (hex_encode_bytes name)). split.
    + unfold sockaddr_path. cbn [layout to_le_bytes app drop]. rewrite (proj2 (Z.leb_gt _ _)) by (unfold zlen; simpl; lia).
      cbn. rewrite until_nul_free by done. by destruct name.
    + unfold sockaddr_bytes. rewrite Path.strip_prefix_app. cbn [Path.strip_prefix Ascii.eqb String.append Bool.eqb UNIX_ABSTRACT_PREFIX].
      pose proof (c_byte_byte _ Hn) as Hb. rewrite bytes_of_string_of by (by apply hex_encode_bytes_byte).
      rewrite hex_roundtrip by done. done.
  - intros (Hn & Hne & Hu & Hr). exists (string_of name). repeat (apply Forall_cons in Hr as [? Hr]). split.
    + unfold sockaddr_path. destruct name as [|b name]; [done|]. cbn [layout to_le_bytes app drop].
      rewrite (proj2 (Z.leb_gt _ _)) by (unfold zlen; simpl; lia). pose proof Hn as [Hb _]%Forall_cons. unfold c_byte in Hb.
      cbn -[until_nul from_utf8 app]. rewrite (proj2 (Z.eqb_neq b 0)) by lia.
      change (b :: name ++ [0]) with ((b :: name) ++ [0]). rewrite until_nul_app by done. unfold from_utf8. by rewrite Hu.
    + unfold sockaddr_bytes. repeat (match goal with E : Path.strip_prefix _ _ = None |- _ => rewrite E; clear E end).
      rewrite bytes_of_string_of by (by apply c_byte_byte). done.
Qed.

Lemma sockaddr_roundtrip_witness :
  ∃ path, sockaddr_path (layout (Inet6 443 [0x2001; 0xdb8; 0; 0; 0; 0; 0; 1])) None = Ok path ∧
          sockaddr_bytes path = Ok (layout (Inet6 443 [0x2001; 0xdb8; 0; 0; 0; 0; 0; 1])).
Proof.
  apply sockaddr_roundtrip. split_and!; [unfold is_u16; lia| |done]. repeat constructor; unfold is_u16; lia.
Defined.

(** ** Descriptor sets *)
Definition bit_in (raw : list Z) (fd : Z) : bool :=
  match raw !! Z.to_nat (fd / 8) with Some b => Z.testbit b (fd mod 8) | None => false end.

Lemma land_bit b i : 0 ≤ i → negb (Z.land b (Z.shiftl 1 i) =? 0) = Z.testbit b i.
Proof.
  intros Hi. rewrite Z.shiftl_1_l. destruct (Z.testbit b i) eqn:Hb.
  - apply negb_true_iff, Z.eqb_neq. intros Hz. apply (f_equal (fun z => Z.testbit z i)) in Hz.
    rewrite Z.land_spec, Hb, Z.pow2_bits_true, Z.bits_0 in Hz by lia. done.
  - apply negb_false_iff, Z.eqb_eq, Z.bits_inj'. intros j Hj. rewrite Z.land_spec, Z.bits_0.
    rewrite Z.pow2_bits_eqb by lia. destruct (Z.eqb_spec i j) as [->|]; [by rewrite Hb|]. apply andb_false_r.
Qed.

Lemma bit_in_set raw f fd : 0 ≤ f → 0 ≤ fd → f / 8 < zlen raw →
  bit_in (alter (fun b => Z.lor b (Z.shiftl 1 (f mod 8))) (Z.to_nat (f / 8)) raw) fd = bool_decide (fd = f) || bit_in raw fd.
Proof.
  intros Hf Hfd Hlt. unfold bit_in. pose proof (Z.mod_pos_bound f 8). pose proof (Z.mod_pos_bound fd 8).
  pose proof (Z.div_mod f 8). pose proof (Z.div_mod fd 8). pose proof (Z.div_pos f 8). pose proof (Z.div_pos fd 8).
  destruct (decide (fd / 8 = f / 8)) as [He|Hne].
  - rewrite He, list_lookup_alter. destruct (lookup_lt_is_Some_2 raw (Z.to_nat (f / 8))) as [b Hb]; [unfold zlen in Hlt; lia|].
    rewrite decide_True by done. rewrite Hb. simpl. rewrite Z.lor_spec, Z.shiftl_1_l, Z.pow2_bits_eqb by lia.
    rewrite orb_comm. f_equal. destruct (Z.eqb_spec (f mod 8) (fd mod 8)); symmetry; [apply bool_decide_eq_true|apply bool_decide_eq_false]; lia || congruence.
  - rewrite list_lookup_alter_ne by lia. rewrite bool_decide_eq_false_2; [done|congruence].
Qed.

Lemma fd_bits fds nfds raw fd : Forall (fun f => 0 ≤ f < nfds) fds → 0 ≤ fd → zlen raw = fd_set_len nfds →
  bit_in (foldl (fun out f => alter (fun b => Z.lor b (Z.shiftl 1 (f mod 8))) (Z.to_nat (f / 8)) out) raw fds) fd =
  bool_decide (fd ∈ fds) || bit_in raw fd.
Proof.
  intros Hall Hfd. revert raw. induction fds as [|f fds IH]; intros raw Hlen; [done|]. apply Forall_cons in Hall as [Hf Hall].
  cbn [foldl]. rewrite IH; [|done|unfold zlen in *; by rewrite length_alter].
  rewrite bit_in_set; [|lia|done|].
  - repeat case_bool_decide; set_solver.
  - rewrite Hlen. unfold fd_set_len. pose proof (Z.div_mod f 8). pose proof (Z.mod_pos_bound f 8).
    pose proof (Z.div_mod (nfds + 7) 8). pose proof (Z.mod_pos_bound (nfds + 7) 8). lia.
Qed.

(** the descriptors select writes into a set are, when the set is read
    back, exactly those below the limit, in ascending order. *)
Theorem fd_set_roundtrip fds nfds : 0 ≤ nfds → Forall (fun f => 0 ≤ f) fds →
  fd_set_members (fd_set_bytes fds nfds) nfds = List.filter (fun f => bool_decide (f ∈ fds)) (seqZ 0 nfds).
Proof.
  intros Hn Hf. unfold fd_set_members, fd_set_bytes. apply filter_ext_in. intros fd Hin%list_elem_of_In%elem_of_seqZ.
  set (raw := foldl _ _ _). transitivity (bit_in raw fd).
  { unfold bit_in. destruct (raw !! _); [|done]. apply land_bit. apply Z.mod_pos_bound. lia. }
  unfold raw. rewrite (fd_bits _ nfds); [| |lia|].
  - assert (bit_in (replicate (Z.to_nat (fd_set_len nfds)) 0) fd = false) as ->.
    { unfold bit_in. destruct (_ !! _) as [b|] eqn:Hb; [|done]. apply lookup_replicate in Hb as [-> _]. apply Z.bits_0. }
    rewrite orb_false_r. assert (∀ fd : Z, fd < nfds → fd ∈ List.filter (fun f => f <? nfds) fds ↔ fd ∈ fds) as Hx.
    { intros x Hx. rewrite !list_elem_of_In, filter_In, Z.ltb_lt. tauto. }
    apply bool_decide_ext, Hx. lia.
  - apply Forall_forall. intros x Hx%list_elem_of_In%filter_In. rewrite Forall_forall in Hf. split; [apply Hf, list_elem_of_In; tauto|].
    apply Z.ltb_lt; tauto.
  - rewrite zlen_replicate. unfold fd_set_len. rewrite Z2Nat.id; [done|]. apply Z.div_pos; lia.
Qed.

Lemma fd_set_roundtrip_witness : fd_set_members (fd_set_bytes [9; 70; 3] 64) 64 = [3; 9].
Proof. rewrite fd_set_roundtrip; [vm_compute; reflexivity|lia|]. repeat constructor; lia. Defined.

End AbiSpec.
