(* ===== verification/Keys.v ===== *)
(** * Keyrings (crates/syscall/src/lib.rs: [KeyringState])

    The keyrings behind add_key and keyctl: serial numbers, the special ids
    that name the keyring of a thread, process, session or user, and the
    quota of a user.  A special id is shown to keep naming the keyring it
    first named, and no two owners are ever given the same one. *)

From S2P Require Import Prelude Path FileObject Vfs Process Locks Abi AbiSpec.

Open Scope string_scope.
Open Scope list_scope.
Open Scope Z_scope.

Module Keys.
Import Proc.

Definition EFAULT : Z := 14.
Definition EINVAL : Z := 22.
Definition ENOENT : Z := 2.
Definition ENODEV : Z := 19.
Definition EBADMSG : Z := 74.
Definition EDQUOT : Z := 122.
Definition I32_MAX : Z := 2 ^ 31 - 1.
Definition KEY_SPEC_THREAD_KEYRING : Z := -1.
Definition KEY_SPEC_PROCESS_KEYRING : Z := -2.
Definition KEY_SPEC_SESSION_KEYRING : Z := -3.
Definition KEY_SPEC_USER_KEYRING : Z := -4.
Definition KEY_SPEC_USER_SESSION_KEYRING : Z := -5.

(** Descriptions are kept as their bytes. *)
Record KeyEntry := mkEntry { key_type : string; description : list Z; payload_len : Z }.
Record Keyring := mkRing { serial : Z; entries : list KeyEntry }.

Record KeyringState := mkKeys {
  next_serial : Z;
  thread : gmap Z Z; process : gmap Z Z; session : gmap Z Z; user : gmap Z Z; user_session : gmap Z Z;
  keyrings : gmap Z Keyring;
  max_keys : Z; max_bytes : Z;
}.

Definition initial : KeyringState := mkKeys 1 ∅ ∅ ∅ ∅ ∅ ∅ 200 20000.

(** The five maps from owners to serial numbers. *)
Inductive anchor := Thread | Process | Session | User | UserSession.
#[export] Instance anchor_eq_dec : EqDecision anchor.
Proof. solve_decision. Defined.
Definition anchors (a : anchor) (s : KeyringState) : gmap Z Z :=
  match a with
  | Thread => thread s | Process => process s | Session => session s | User => user s | UserSession => user_session s
  end.
Definition set_anchors (a : anchor) (m : gmap Z Z) (s : KeyringState) : KeyringState :=
  mkKeys (next_serial s)
    (match a with Thread => m | _ => thread s end) (match a with Process => m | _ => process s end)
    (match a with Session => m | _ => session s end) (match a with User => m | _ => user s end)
    (match a with UserSession => m | _ => user_session s end) (keyrings s) (max_keys s) (max_bytes s).
Definition set_keyrings (m : gmap Z Keyring) (s : KeyringState) : KeyringState :=
  mkKeys (next_serial s) (thread s) (process s) (session s) (user s) (user_session s) m (max_keys s) (max_bytes s).
Definition set_next_serial (n : Z) (s : KeyringState) : KeyringState :=
  mkKeys n (thread s) (process s) (session s) (user s) (user_session s) (keyrings s) (max_keys s) (max_bytes s).

(** [i32::saturating_add] *)
Definition next_key_serial (s : KeyringState) : Z * KeyringState :=
  let n := Z.max (next_serial s) 1 in (n, set_next_serial (Z.min (n + 1) I32_MAX) s).

Definition resolve_anchor (a : anchor) (owner : Z) (create : bool) : stm KeyringState Z := fun s =>
  match anchors a s !! owner with
  | Some n => (Ok n, s)
  | None =>
      if create then
        let '(n, s1) := next_key_serial s in
        let s2 := set_keyrings (<[n := mkRing n []]> (keyrings s1)) s1 in
        (Ok n, set_anchors a (<[owner := n]> (anchors a s2)) s2)
      else (Err ENOENT, s)
  end.

Section Resolve.
Context {H A : Type}.

Definition owner_of (a : anchor) (p : Proc.Process H A) : Z :=
  match a with Thread => tid p | Process => tgid p | Session => sid p | User => uid p | UserSession => uid p end.

Definition resolve_keyring_serial (p : Proc.Process H A) (id : Z) (create : bool) : stm KeyringState Z :=
  let at_anchor a := resolve_anchor a (owner_of a p) create in
  if id =? KEY_SPEC_THREAD_KEYRING then at_anchor Thread
  else if id =? KEY_SPEC_PROCESS_KEYRING then at_anchor Process
  else if id =? KEY_SPEC_SESSION_KEYRING then at_anchor Session
  else if id =? KEY_SPEC_USER_KEYRING then at_anchor User
  else if id =? KEY_SPEC_USER_SESSION_KEYRING then at_anchor UserSession
  else if 0 <? id then mret id
  else fail EINVAL.
End Resolve.

Definition one_of (k : string) (ks : list string) : bool := existsb (String.eqb k) ks.
Definition validate_key_type_and_length (k : string) (payload_ptr len : Z) : outcome unit :=
  if (payload_ptr =? 0) && negb (len =? 0) then
    if one_of k ["user"; "logon"; "big_key"; "keyring"] then Err EFAULT
    else if String.eqb k "asymmetric" then Err EBADMSG
    else Err ENODEV
  else if String.eqb k "keyring" then if len =? 0 then Ok tt else Err EINVAL
  else if one_of k ["user"; "logon"] then if len <=? 32767 then Ok tt else Err EINVAL
  else if String.eqb k "big_key" then if len <=? 1048575 then Ok tt else Err EINVAL
  else Err ENODEV.

Definition key_quota_charge (desc : list Z) (len : Z) : Z := saturating_add (saturating_add (zlen desc) 1) len.

Definition u32_saturating_add (a b : Z) : Z := Z.min (a + b) U32_MAX.

(** ["uid:{}:"] *)
Definition uid_prefix (u : Z) : list Z := Vfs.bytes_of "uid:" ++ Abi.number 10 u ++ Vfs.bytes_of ":".
Definition charged_to (u : Z) (e : KeyEntry) : bool :=
  bool_decide (take (length (uid_prefix u)) (description e) = uid_prefix u).

Definition charge_entry (u : Z) (acc : Z * Z) (e : KeyEntry) : Z * Z :=
  if charged_to u e then
    (u32_saturating_add acc.1 1,
     u32_saturating_add acc.2 (key_quota_charge (drop 6 (description e)) (payload_len e) mod 2 ^ 32))
  else acc.
Definition counted_serials (s : KeyringState) : list Z := values (thread s) ++ values (process s) ++ values (session s).
Definition key_usage_for_uid (s : KeyringState) (u : Z) : Z * Z :=
  foldl (fun acc n =>
           match keyrings s !! n with Some r => foldl (charge_entry u) acc (entries r) | None => acc end)
    (0, 0) (counted_serials s).

(** The text of /proc/key-users: ["{:5}: {:5} 0/0 {}/{} {}/{}"] for ten users. *)
Definition pad5 (ds : list Z) : list Z := replicate (5 - length ds) 32 ++ ds.
Definition key_users_line (s : KeyringState) (u : Z) : list Z :=
  let '(used_keys, used_bytes) := key_usage_for_uid s u in
  pad5 (Abi.number 10 u) ++ Vfs.bytes_of ": " ++ pad5 (Abi.number 10 0) ++ Vfs.bytes_of " 0/0 " ++
  Abi.number 10 used_keys ++ Vfs.bytes_of "/" ++ Abi.number 10 (max_keys s) ++ Vfs.bytes_of " " ++
  Abi.number 10 used_bytes ++ Vfs.bytes_of "/" ++ Abi.number 10 (max_bytes s) ++ [10].
Definition key_users_text (s : KeyringState) : list Z := flat_map (key_users_line s) (seqZ 1000 10).

(** The state change of add_key, with the caller's credentials. *)
Definition add_key {H A} (p : Proc.Process H A) (k : string) (desc : list Z) (len keyring_id : Z)
  : stm KeyringState Z :=
  s ← get;
  let '(used_keys, used_bytes) := key_usage_for_uid s (uid p) in
  let charge := key_quota_charge desc len mod 2 ^ 32 in
  if negb (euid p =? 0) && ((max_keys s <=? used_keys) || (max_bytes s <? u32_saturating_add used_bytes charge))
  then fail EDQUOT
  else
    n ← resolve_keyring_serial p keyring_id true;
    s ← get;
    r ← lift (ok_or (keyrings s !! n) EINVAL);
    _ ← modify (set_keyrings (<[n := mkRing (serial r) (entries r ++ [mkEntry k (uid_prefix (uid p) ++ desc) len])]>
                                (keyrings s)));
    mret n.

(** ** Runs *)
Section Runs.
Context {H A : Type}.
Implicit Types (s : KeyringState) (p : Proc.Process H A) (a : anchor).

(** A call by any process, whatever its outcome; [ok] restricts the callers. *)
Inductive keys_step (ok : Proc.Process H A → Prop) s : KeyringState → Prop :=
  | step_resolve p id create : keys_step ok s (resolve_keyring_serial p id create s).2
  | step_add p k desc len id : ok p → is_usize len → keys_step ok s (add_key p k desc len id s).2.

Definition anyone : Proc.Process H A → Prop := fun _ => True.

Record keys_inv s : Prop := mkKeysInv {
  ki_next : 1 ≤ next_serial s ≤ I32_MAX;
  ki_anchor : ∀ a o n, anchors a s !! o = Some n → is_Some (keyrings s !! n);
  ki_below : ∀ n r, keyrings s !! n = Some r → n < next_serial s;
  ki_inj : ∀ a1 o1 a2 o2 n, anchors a1 s !! o1 = Some n → anchors a2 s !! o2 = Some n → a1 = a2 ∧ o1 = o2;
}.

(** [s'] has the keyrings of [s] under the same ids, with keys only added. *)
Record grows s s' : Prop := mkGrows {
  gr_next : next_serial s ≤ next_serial s';
  gr_anchor : ∀ a o n, anchors a s !! o = Some n → anchors a s' !! o = Some n;
  gr_ring : ∀ n r, keyrings s !! n = Some r → ∃ r', keyrings s' !! n = Some r' ∧ entries r `prefix_of` entries r';
  gr_limits : max_keys s' = max_keys s ∧ max_bytes s' = max_bytes s;
}.
#[global] Instance grows_preorder : PreOrder grows.
Proof.
  split.
  - intros s. split; [lia|done|eauto|done].
  - intros s1 s2 s3 [n1 a1 r1 l1] [n2 a2 r2 l2]. split; [lia|eauto| |].
    + intros n r (r' & Hr' & Hp)%r1. destruct (r2 _ _ Hr') as (r'' & Hr'' & Hp'). exists r''. split; [done|]. by etrans.
    + destruct l1, l2. split; congruence.
Qed.

Lemma lookup_set_anchors a b m s o :
  anchors b (set_anchors a m s) !! o = if decide (a = b) then m !! o else anchors b s !! o.
Proof. by destruct a, b. Qed.

(** The test of add_key that ends in EDQUOT. *)
Definition over_quota p (desc : list Z) (len : Z) s : bool :=
  negb (euid p =? 0) && ((max_keys s <=? (key_usage_for_uid s (uid p)).1) ||
    (max_bytes s <? u32_saturating_add (key_usage_for_uid s (uid p)).2 (key_quota_charge desc len mod 2 ^ 32))).

(** A new keyring. *)
Lemma create_ok a o s : keys_inv s → next_serial s < I32_MAX → anchors a s !! o = None →
  keys_inv (resolve_anchor a o true s).2 ∧ grows s (resolve_anchor a o true s).2 ∧
  next_serial (resolve_anchor a o true s).2 = next_serial s + 1 ∧
  (∀ n, keyrings (resolve_anchor a o true s).2 !! n = if decide (n = next_serial s) then Some (mkRing n []) else keyrings s !! n) ∧
  (∀ b o', anchors b (resolve_anchor a o true s).2 !! o' =
     if decide (b = a ∧ o' = o) then Some (next_serial s) else anchors b s !! o').
Proof.
  intros [Hn Ha Hb Hi] Hlt Hnone. unfold resolve_anchor. rewrite Hnone. unfold next_key_serial. cbn [snd].
  rewrite Z.max_l, Z.min_l by lia. set (n := next_serial s).
  set (s' := set_anchors _ _ _).
  assert (∀ b o', anchors b s' !! o' = if decide (b = a ∧ o' = o) then Some n else anchors b s !! o') as Hs'.
  { intros b o'. unfold s'. rewrite lookup_set_anchors. destruct (decide (a = b)) as [<-|Hne].
    - destruct a; simpl; rewrite lookup_insert; repeat case_decide; naive_solver.
    - case_decide; [naive_solver|]. by destruct b. }
  assert (∀ m, keyrings s' !! m = if decide (m = n) then Some (mkRing m []) else keyrings s !! m) as Hr.
  { intros m. unfold s'. destruct a; simpl; rewrite lookup_insert; repeat case_decide; naive_solver. }
  assert (next_serial s' = n + 1) as Hnx by (by destruct a).
  assert (∀ b o' m, anchors b s !! o' = Some m → m ≠ n) as Hfresh.
  { intros b o' m [r Hm%Hb]%Ha. unfold n. lia. }
  split_and!; [split|split| | |]; try done.
  - lia.
  - intros b o' m. rewrite Hs', Hr. repeat case_decide; naive_solver.
  - intros m r. rewrite Hr, Hnx. case_decide; [unfold n in *; lia|]. intros ?%Hb. unfold n; lia.
  - intros b1 o1 b2 o2 m. rewrite !Hs'. repeat case_decide; naive_solver.
  - lia.
  - intros b o' m Hm. rewrite Hs'. case_decide as Hd; [|done]. destruct Hd as [-> ->]. congruence.
  - intros m r Hm. rewrite Hr. case_decide as Hd; [apply Hb in Hm; unfold n in *; lia|]. eauto.
Qed.

Lemma resolve_anchor_ok a o create s : keys_inv s → next_serial (resolve_anchor a o create s).2 < I32_MAX →
  keys_inv (resolve_anchor a o create s).2 ∧ grows s (resolve_anchor a o create s).2.
Proof.
  intros Hi. destruct (anchors a s !! o) as [n|] eqn:Ho.
  { unfold resolve_anchor. rewrite Ho. done. }
  destruct create; [|unfold resolve_anchor; by rewrite Ho].
  intros Hlt. apply create_ok in Ho; [naive_solver|done|].
  destruct (decide (next_serial s < I32_MAX)); [done|]. exfalso. revert Hlt.
  unfold resolve_anchor. rewrite Ho. unfold next_key_serial. pose proof (ki_next _ Hi). rewrite Z.max_l, Z.min_r by lia.
  destruct a; simpl; lia.
Qed.

Lemma resolve_ok p id create s : keys_inv s → next_serial (resolve_keyring_serial p id create s).2 < I32_MAX →
  keys_inv (resolve_keyring_serial p id create s).2 ∧ grows s (resolve_keyring_serial p id create s).2.
Proof.
  intros Hi. unfold resolve_keyring_serial. repeat case_match; try (by apply resolve_anchor_ok); intros _; by split.
Qed.

Lemma push_ok n r e s : keyrings s !! n = Some r → keys_inv s →
  let s' := set_keyrings (<[n := mkRing (serial r) (entries r ++ [e])]> (keyrings s)) s in
  keys_inv s' ∧ grows s s'.
Proof.
  intros Hn [Hx Ha Hb Hi] s'.
  assert (∀ b, anchors b s' = anchors b s) as Hs' by (by intros []).
  split; split; simpl; try done; try setoid_rewrite Hs'; try done.
  - intros b o m Hm. destruct (decide (m = n)) as [->|]; [by rewrite lookup_insert_eq|]. rewrite lookup_insert_ne by done. eauto.
  - intros m r' [[<- _]|[_ Hm]]%lookup_insert_Some; eauto.
  - intros m r' Hm. destruct (decide (m = n)) as [->|].
    + rewrite lookup_insert_eq. simplify_eq. eexists. split; [done|]. simpl. by apply prefix_app_r.
    + rewrite lookup_insert_ne by done. eauto.
Qed.

Lemma add_key_cases p k desc len id s :
  (add_key p k desc len id s).2 = s ∨
  (add_key p k desc len id s).2 = (resolve_keyring_serial p id true s).2 ∨
  ∃ n s1 r, over_quota p desc len s = false ∧ resolve_keyring_serial p id true s = (Ok n, s1) ∧ keyrings s1 !! n = Some r ∧
    (add_key p k desc len id s).2 =
      set_keyrings (<[n := mkRing (serial r) (entries r ++ [mkEntry k (uid_prefix (uid p) ++ desc) len])]> (keyrings s1)) s1.
Proof.
  unfold add_key, over_quota. rewrite stm_bind_eq. cbn [get]. cbv beta iota. destruct (key_usage_for_uid s (uid p)) as [uk ub]. cbn [fst snd].
  destruct (_ && _); [by left|]. right. rewrite stm_bind_eq.
  destruct (resolve_keyring_serial p id true s) as [[n| | |] s1] eqn:Hr; [|by left..].
  rewrite stm_bind_eq. cbn [get]. cbv beta iota. rewrite stm_bind_eq. unfold lift.
  destruct (keyrings s1 !! n) as [r|] eqn:Hk; [|by left]. right. simpl. by exists n, s1, r.
Qed.

Lemma keys_step_ok ok s s' : keys_step ok s s' → keys_inv s → next_serial s' < I32_MAX → keys_inv s' ∧ grows s s'.
Proof.
  intros [p id create|p k desc len id Hok Hlen] Hi Hlt; [by apply resolve_ok|].
  pose proof (add_key_cases p k desc len id s) as [Hs|[Hs|(n & s1 & r & _ & Hr & Hn & Hs)]]; rewrite Hs in Hlt |- *.
  - by split.
  - by apply resolve_ok.
  - pose proof (resolve_ok p id true s Hi) as Hok1. rewrite Hr in Hok1. destruct Hok1 as [Hi1 Hg1]; [done|].
    destruct (push_ok n r (mkEntry k (uid_prefix (uid p) ++ desc) len) s1 Hn Hi1) as [Hi2 Hg2]. split; [done|]. by etrans.
Qed.

(** The next serial number does not decrease, even without the bound. *)
Lemma next_serial_resolve p id create s : 1 ≤ next_serial s ≤ I32_MAX →
  next_serial s ≤ next_serial (resolve_keyring_serial p id create s).2 ≤ I32_MAX.
Proof.
  intros Hb. unfold resolve_keyring_serial, resolve_anchor, next_key_serial.
  repeat case_match; simpl; try lia; destruct_and?; simplify_eq; simpl; lia.
Qed.
Lemma next_serial_step ok s s' : keys_step ok s s' → 1 ≤ next_serial s ≤ I32_MAX → next_serial s ≤ next_serial s' ≤ I32_MAX.
Proof.
  intros [p id create|p k desc len id Hok Hlen] Hb; [by apply next_serial_resolve|].
  pose proof (next_serial_resolve p id true s Hb) as Hn.
  pose proof (add_key_cases p k desc len id s) as [Hs|[Hs|(n & s1 & r & _ & Hr & _ & Hs)]]; rewrite Hs; [lia|done|].
  by rewrite Hr in Hn.
Qed.
Lemma next_serial_run ok s s' : rtc (keys_step ok) s s' → 1 ≤ next_serial s ≤ I32_MAX → next_serial s ≤ next_serial s' ≤ I32_MAX.
Proof.
  induction 1 as [|s1 s2 s3 Hstep _ IH]; [lia|]. intros Hb. pose proof (next_serial_step _ _ _ Hstep Hb). destruct IH; lia.
Qed.

Lemma keys_run_ok ok s s' : rtc (keys_step ok) s s' → keys_inv s → next_serial s' < I32_MAX → keys_inv s' ∧ grows s s'.
Proof.
  induction 1 as [|s1 s2 s3 Hstep Hrun IH]; [by split|]. intros Hi Hlt.
  assert (next_serial s2 < I32_MAX) as H2.
  { pose proof (ki_next _ Hi) as Hn. pose proof (next_serial_step _ _ _ Hstep Hn) as Hb.
    pose proof (next_serial_run _ _ _ Hrun ltac:(lia)). lia. }
  destruct (keys_step_ok _ _ _ Hstep Hi H2) as [Hi2 Hg]. destruct (IH Hi2 Hlt) as [Hi3 Hg']. split; [done|]. by etrans.
Qed.

(** ** Quotas *)
Definition is_u32 (u : Z) : Prop := 0 ≤ u < 2 ^ 32.

(** The prefixes of different users are not confused. *)
Lemma charged_prefix u v k desc len : is_u32 u → is_u32 v →
  charged_to u (mkEntry k (uid_prefix v ++ desc) len) = bool_decide (u = v).
Proof.
  intros Hu Hv. unfold charged_to. cbn [description]. apply bool_decide_ext. split; [|intros ->; by rewrite take_app_length].
  intros He. assert (∃ rest, uid_prefix v ++ desc = uid_prefix u ++ rest) as [rest Hr].
  { exists (drop (length (uid_prefix u)) (uid_prefix v ++ desc)). 
    etransitivity; [symmetry; apply (take_drop (length (uid_prefix u)))|by rewrite He]. }
  unfold uid_prefix in Hr. rewrite <- !app_assoc in Hr. apply app_inv_head in Hr. simpl in Hr.
  apply (f_equal (fun l => head (Abi.split_on 58 l))) in Hr.
  rewrite !AbiSpec.split_on_app in Hr; [|(apply AbiSpec.no_sep_notin; [by right|apply AbiSpec.number_no_sep; unfold is_u32 in *; lia])..].
  simpl in Hr. injection Hr as Hr. symmetry. unfold is_u32 in *. apply (AbiSpec.number_inj 10); lia || done.
Qed.

Lemma uid_prefix_len u : is_u32 u → 6 ≤ zlen (uid_prefix u) ≤ 15.
Proof.
  intros [Hu Hu']. unfold uid_prefix. rewrite !zlen_app.
  assert (1 ≤ zlen (Abi.number 10 u) ≤ 10) as Hn; [|change (zlen (Vfs.bytes_of "uid:")) with 4; change (zlen (Vfs.bytes_of ":")) with 1; lia].
  unfold Abi.number, zlen. rewrite length_fmap, length_reverse.
  assert (∀ f n m, 0 ≤ n < 10 ^ Z.of_nat (S m) → (m < f)%nat → (1 ≤ length (Abi.digits f 10 n) ≤ S m)%nat) as Hd.
  { induction f as [|f IH]; intros n m Hn Hm; [lia|]. cbn [Abi.digits]. destruct (Z.ltb_spec n 10); [simpl; lia|].
    destruct m as [|m]; [simpl in Hn; lia|]. specialize (IH (n / 10) m). simpl length. destruct IH; [|lia|lia].
    rewrite Nat2Z.inj_succ, Z.pow_succ_r in Hn by lia. split; [apply Z.div_pos; lia|]. apply Z.div_lt_upper_bound; lia. }
  destruct (Hd 16%nat u 9%nat); [change (10 ^ Z.of_nat 10) with 10000000000; lia|lia|lia].
Qed.

(** What an entry adds to the usage of a user. *)
Definition entry_bytes (e : KeyEntry) : Z := key_quota_charge (drop 6 (description e)) (payload_len e) mod 2 ^ 32.
Definition keys_of (u : Z) (l : list KeyEntry) : Z := zlen (List.filter (charged_to u) l).
Definition bytes_of (u : Z) (l : list KeyEntry) : Z := foldr (fun e n => entry_bytes e + n) 0 (List.filter (charged_to u) l).

Lemma entry_bytes_nonneg e : 0 ≤ entry_bytes e.
Proof. apply Z.mod_pos_bound. lia. Qed.
Lemma bytes_of_nonneg u l : 0 ≤ bytes_of u l.
Proof. unfold bytes_of. induction (List.filter _ l) as [|e l' IH]; simpl; [lia|]. pose proof (entry_bytes_nonneg e). lia. Qed.

Lemma usage_fold u l (a b : Z) : 0 ≤ a ≤ U32_MAX → 0 ≤ b ≤ U32_MAX →
  foldl (charge_entry u) (a, b) l = (Z.min (a + keys_of u l) U32_MAX, Z.min (b + bytes_of u l) U32_MAX).
Proof.
  revert a b. induction l as [|e l IH]; intros a b Ha Hb; cbn [foldl].
  { unfold keys_of, bytes_of, zlen. simpl. f_equal; lia. }
  assert (charge_entry u (a, b) e = if charged_to u e then (u32_saturating_add a 1, u32_saturating_add b (entry_bytes e)) else (a, b)) as -> by done.
  unfold keys_of, bytes_of. cbn [List.filter]. destruct (charged_to u e) eqn:Hc; [|by apply IH]. pose proof (entry_bytes_nonneg e). pose proof (bytes_of_nonneg u l).
  rewrite IH by (unfold u32_saturating_add; lia). unfold u32_saturating_add, keys_of, zlen. cbn [length foldr]. fold (bytes_of u l).
  f_equal; lia.
Qed.

Lemma keys_of_perm u l l' : l ≡ₚ l' → keys_of u l = keys_of u l' ∧ bytes_of u l = bytes_of u l'.
Proof.
  intros Hp. unfold keys_of, bytes_of, zlen. induction Hp as [|e l l' _ IH|e e' l|]; cbn [List.filter]; [done| | |naive_solver congruence].
  - destruct (charged_to u e); simpl; lia.
  - destruct (charged_to u e), (charged_to u e'); simpl; lia.
Qed.

(** The entries the quota counts. *)
Definition ring_entries s (n : Z) : list KeyEntry := match keyrings s !! n with Some r => entries r | None => [] end.
Definition counted s : list KeyEntry := flat_map (ring_entries s) (counted_serials s).

Lemma usage_counted s u : key_usage_for_uid s u = (Z.min (keys_of u (counted s)) U32_MAX, Z.min (bytes_of u (counted s)) U32_MAX).
Proof.
  assert (key_usage_for_uid s u = foldl (charge_entry u) (0, 0) (counted s)) as ->.
  { unfold key_usage_for_uid, counted. generalize (0, 0). induction (counted_serials s) as [|n l IH]; intros acc; [done|].
    cbn [foldl flat_map]. rewrite foldl_app, <- IH. unfold ring_entries. by destruct (keyrings s !! n). }
  by rewrite usage_fold by (unfold U32_MAX; lia).
Qed.

Lemma NoDup_counted s : keys_inv s → NoDup (counted_serials s).
Proof.
  intros Hi. assert (∀ a, NoDup (values (anchors a s))) as Hv.
  { intros a. unfold values. apply NoDup_fmap_2_strong; [|apply NoDup_items].
    intros [o1 n1] [o2 n2] H1%elem_of_items H2%elem_of_items He. simpl in He. subst n2.
    by destruct (ki_inj _ Hi _ _ _ _ _ H1 H2) as [_ ->]. }
  assert (∀ a b n, a ≠ b → n ∈ values (anchors a s) → n ∉ values (anchors b s)) as Hd.
  { intros a b n Hne [o1 H1]%elem_of_values [o2 H2]%elem_of_values. by destruct (ki_inj _ Hi _ _ _ _ _ H1 H2). }
  unfold counted_serials. apply NoDup_app. split_and!; [apply (Hv Thread)| |].
  - intros n Hn [Hx|Hx]%elem_of_app; [by apply (Hd Thread Process n)|by apply (Hd Thread Session n)].
  - apply NoDup_app. split_and!; [apply (Hv Process)| |apply (Hv Session)]. intros n Hn. by apply (Hd Process Session n).
Qed.

Lemma flat_map_perm {X Y} (f : X → list Y) l l' : l ≡ₚ l' → flat_map f l ≡ₚ flat_map f l'.
Proof. induction 1; simpl; [done|by apply Permutation_app_head| |by etrans]. rewrite !app_assoc. by apply Permutation_app_tail, Permutation_app_comm. Qed.
Lemma flat_map_same {X Y} (f g : X → list Y) l : (∀ x, x ∈ l → f x = g x) → flat_map f l = flat_map g l.
Proof. intros Hf. induction l as [|x l IH]; [done|]. simpl. rewrite Hf by set_solver. f_equal. apply IH. set_solver. Qed.
Lemma flat_map_at {X Y} `{EqDecision X} (f g : X → list Y) l x extra : NoDup l → (∀ y, y ≠ x → f y = g y) → f x = g x ++ extra →
  flat_map f l ≡ₚ flat_map g l ++ (if decide (x ∈ l) then extra else []).
Proof.
  intros Hnd Hf Hx. induction Hnd as [|y l Hy Hnd IH]; simpl; [done|].
  destruct (decide (y = x)) as [->|Hne].
  - rewrite Hx, decide_True by set_solver. rewrite (flat_map_same f g l) by (intros z Hz; apply Hf; set_solver).
    rewrite <- !app_assoc. apply Permutation_app_head, Permutation_app_comm.
  - rewrite Hf, IH by done. rewrite <- app_assoc. do 2 apply Permutation_app_head.
    destruct (decide (x ∈ l)), (decide (x ∈ y :: l)); set_solver.
Qed.

Lemma counted_create a o s : keys_inv s → next_serial s < I32_MAX → anchors a s !! o = None →
  counted (resolve_anchor a o true s).2 ≡ₚ counted s.
Proof.
  intros Hi Hlt Hnone. destruct (create_ok a o s Hi Hlt Hnone) as (_ & _ & _ & Hr & _). unfold counted.
  rewrite (flat_map_same (ring_entries (resolve_anchor a o true s).2) (ring_entries s)).
  2: { intros n _. unfold ring_entries. rewrite Hr. case_decide as Hn; [|done]. subst n.
       destruct (keyrings s !! next_serial s) as [r|] eqn:Hk; [|done]. apply (ki_below _ Hi) in Hk. lia. }
  assert (ring_entries s (next_serial s) = []) as Hnil.
  { unfold ring_entries. destruct (keyrings s !! next_serial s) as [r|] eqn:Hk; [|done]. apply (ki_below _ Hi) in Hk. lia. }
  assert (counted_serials (resolve_anchor a o true s).2 ≡ₚ counted_serials s ∨
          counted_serials (resolve_anchor a o true s).2 ≡ₚ next_serial s :: counted_serials s) as [->|Hp]; [|done|].
  { unfold resolve_anchor. rewrite Hnone. unfold next_key_serial. pose proof (ki_next _ Hi). rewrite Z.max_l by lia.
    unfold counted_serials. destruct a; simpl in *; [right|right|right|by left|by left];
      rewrite values_insert by done; [done|..]; solve_Permutation. }
  rewrite (flat_map_perm _ _ _ Hp). simpl. by rewrite Hnil.
Qed.

Lemma counted_resolve p id create s : keys_inv s → next_serial (resolve_keyring_serial p id create s).2 < I32_MAX →
  counted (resolve_keyring_serial p id create s).2 ≡ₚ counted s.
Proof.
  intros Hi. unfold resolve_keyring_serial.
  assert (∀ a, next_serial (resolve_anchor a (owner_of a p) create s).2 < I32_MAX → counted (resolve_anchor a (owner_of a p) create s).2 ≡ₚ counted s) as Ha.
  { intros a Hlt. destruct (anchors a s !! owner_of a p) as [n|] eqn:Ho; [unfold resolve_anchor; by rewrite Ho|].
    destruct create; [|unfold resolve_anchor; by rewrite Ho]. apply counted_create; [done| |done].
    destruct (decide (next_serial s < I32_MAX)); [done|]. exfalso. revert Hlt. unfold resolve_anchor. rewrite Ho. unfold next_key_serial.
    pose proof (ki_next _ Hi). rewrite Z.max_l, Z.min_r by lia. destruct a; simpl; lia. }
  repeat case_match; try (by apply Ha); done.
Qed.

Lemma counted_push n r e s : keys_inv s → keyrings s !! n = Some r →
  counted (set_keyrings (<[n := mkRing (serial r) (entries r ++ [e])]> (keyrings s)) s) ≡ₚ
  counted s ++ (if decide (n ∈ counted_serials s) then [e] else []).
Proof.
  intros Hi Hn. unfold counted. apply flat_map_at; [by apply NoDup_counted| |].
  - intros y Hy. unfold ring_entries. simpl. by rewrite lookup_insert_ne.
  - unfold ring_entries. simpl. by rewrite lookup_insert_eq, Hn.
Qed.

Definition under_quota s : Prop := ∀ u, is_u32 u →
  keys_of u (counted s) ≤ max_keys s ∧ bytes_of u (counted s) ≤ max_bytes s + 9.
Definition limits_small s : Prop := max_keys s < U32_MAX ∧ max_bytes s < U32_MAX.

(** A caller without privilege. *)
Definition unprivileged p : Prop := euid p ≠ 0 ∧ is_u32 (uid p).

Lemma entry_bytes_charge p k desc len : is_u32 (uid p) → 0 ≤ len →
  entry_bytes (mkEntry k (uid_prefix (uid p) ++ desc) len) ≤ key_quota_charge desc len mod 2 ^ 32 + 9.
Proof.
  intros Hu Hlen. pose proof (uid_prefix_len _ Hu) as Hl. unfold entry_bytes, key_quota_charge, saturating_add. cbn [description payload_len].
  rewrite drop_app_le by (unfold zlen in Hl; lia). rewrite zlen_app.
  assert (zlen (drop 6 (uid_prefix (uid p))) = zlen (uid_prefix (uid p)) - 6) as -> by (unfold zlen in *; rewrite length_drop; lia).
  pose proof (zlen_nonneg desc). set (x := Z.min (Z.min (zlen desc + 1) USIZE_MAX + len) USIZE_MAX).
  set (y := Z.min _ USIZE_MAX). assert (∃ d, 0 ≤ d ≤ 9 ∧ y = x + d) as (d & Hd & ->) by (exists (y - x); unfold x, y; lia).
  pose proof (Z.div_mod x (2 ^ 32)). pose proof (Z.mod_pos_bound x (2 ^ 32)).
  rewrite <- Z.add_mod_idemp_l by lia. etransitivity; [apply Z.mod_le; lia|lia].
Qed.

Lemma keys_of_app u l l' : keys_of u (l ++ l') = keys_of u l + keys_of u l'.
Proof. unfold keys_of. by rewrite List.filter_app, zlen_app. Qed.
Lemma bytes_of_app u l l' : bytes_of u (l ++ l') = bytes_of u l + bytes_of u l'.
Proof.
  unfold bytes_of. rewrite List.filter_app, foldr_app. generalize (foldr (fun e n => entry_bytes e + n) 0 (List.filter (charged_to u) l')).
  intros z. induction (List.filter (charged_to u) l) as [|e l1 IH]; simpl; lia.
Qed.

(** The check of add_key bounds the usage after it. *)
Lemma push_under_quota p k desc len s : unprivileged p → is_usize len → limits_small s → under_quota s →
  over_quota p desc len s = false →
  ∀ u, is_u32 u →
    keys_of u (counted s ++ [mkEntry k (uid_prefix (uid p) ++ desc) len]) ≤ max_keys s ∧
    bytes_of u (counted s ++ [mkEntry k (uid_prefix (uid p) ++ desc) len]) ≤ max_bytes s + 9.
Proof.
  intros [He Hu] [Hlen _] [Hm1 Hm2] Hq Hc u Huu. rewrite keys_of_app, bytes_of_app. specialize (Hq u Huu).
  unfold keys_of at 2, bytes_of at 2. cbn [List.filter]. rewrite charged_prefix by done.
  destruct (decide (u = uid p)) as [->|Hne]; [|rewrite bool_decide_eq_false_2 by done; unfold zlen; simpl; lia].
  rewrite bool_decide_eq_true_2 by done. cbn [zlen length foldr]. unfold zlen. cbn [length].
  pose proof (entry_bytes_charge p k desc len Hu Hlen) as Hcharge.
  unfold over_quota in Hc. rewrite usage_counted in Hc. cbn [fst snd] in Hc. rewrite (proj2 (Z.eqb_neq _ _) He) in Hc. simpl in Hc.
  apply orb_false_iff in Hc as [Hk%Z.leb_gt Hb%Z.ltb_ge]. unfold u32_saturating_add in Hb.
  pose proof (Z.mod_pos_bound (key_quota_charge desc len) (2 ^ 32)). pose proof (bytes_of_nonneg (uid p) (counted s)). lia.
Qed.

Lemma under_quota_perm s s' : counted s' ≡ₚ counted s → max_keys s' = max_keys s → max_bytes s' = max_bytes s →
  under_quota s → under_quota s'.
Proof. intros Hp Hk Hb Hq u Hu. destruct (keys_of_perm u _ _ Hp) as [-> ->]. rewrite Hk, Hb. by apply Hq. Qed.

Lemma quota_step s s' : keys_step unprivileged s s' → keys_inv s → next_serial s' < I32_MAX →
  limits_small s → under_quota s → under_quota s'.
Proof.
  intros [p id create|p k desc len id Hok Hlen] Hi Hlt Hsm Hq.
  { destruct (resolve_ok p id create s Hi Hlt) as [_ Hg]. destruct (gr_limits _ _ Hg). eapply under_quota_perm; [|done..]. by apply counted_resolve. }
  pose proof (add_key_cases p k desc len id s) as [Hs|[Hs|(n & s1 & r & Hc & Hr & Hk & Hs)]]; rewrite Hs in Hlt |- *; [done| |].
  { destruct (resolve_ok p id true s Hi Hlt) as [_ Hg]. destruct (gr_limits _ _ Hg). eapply under_quota_perm; [|done..]. by apply counted_resolve. }
  pose proof (resolve_ok p id true s Hi) as Hro. pose proof (counted_resolve p id true s Hi) as Hcr. rewrite Hr in Hro, Hcr.
  destruct (Hro Hlt) as [Hi1 Hg]. destruct (gr_limits _ _ Hg) as [Hmk Hmb]. intros u Hu.
  destruct (keys_of_perm u _ _ (counted_push n r (mkEntry k (uid_prefix (uid p) ++ desc) len) s1 Hi1 Hk)) as [-> ->].
  cbn [max_keys max_bytes set_keyrings]. cbn [snd] in Hmk, Hmb. rewrite Hmk, Hmb.
  assert (∀ l, keys_of u (counted s1 ++ l) = keys_of u (counted s ++ l) ∧ bytes_of u (counted s1 ++ l) = bytes_of u (counted s ++ l)) as Hl.
  { intros l. apply keys_of_perm. by rewrite (Hcr Hlt). }
  destruct (decide _).
  - rewrite (proj1 (Hl _)), (proj2 (Hl _)). by apply push_under_quota.
  - rewrite (proj1 (Hl _)), (proj2 (Hl _)), app_nil_r. by apply Hq.
Qed.

Lemma keys_inv_initial : keys_inv initial.
Proof.
  split; [unfold I32_MAX; simpl; lia|..].
  - by intros [] o n.
  - intros n r. simpl. by rewrite lookup_empty.
  - intros [] o1 a2 o2 n; simpl; by rewrite lookup_empty.
Qed.
End Runs.

Section Claims.
Context {H A : Type}.
Implicit Types (p : Proc.Process H A).

(** C21: over any run of add_key and keyctl calls by any processes, as long as
    the serial numbers are not exhausted, two different owners (threads,
    processes, sessions, users) never share a keyring, an owner's special id
    keeps resolving to the keyring it first named, and keys are only added. *)
Theorem keyrings_isolated (s s' : KeyringState) :
  rtc (keys_step (H := H) (A := A) anyone) initial s → rtc (keys_step (H := H) (A := A) anyone) s s' →
  next_serial s' < I32_MAX →
  (∀ a1 o1 a2 o2 n, anchors a1 s !! o1 = Some n → anchors a2 s !! o2 = Some n → a1 = a2 ∧ o1 = o2) ∧
  (∀ a o n, anchors a s !! o = Some n →
     anchors a s' !! o = Some n ∧
     ∃ r r', keyrings s !! n = Some r ∧ keyrings s' !! n = Some r' ∧ entries r `prefix_of` entries r').
Proof.
  intros H1 H2 Hlt. assert (next_serial s < I32_MAX) as Hlt1.
  { pose proof (next_serial_run _ _ _ H1 ltac:(unfold I32_MAX; simpl; lia)) as Hb. simpl in Hb.
    pose proof (next_serial_run _ _ _ H2 ltac:(lia)). lia. }
  destruct (keys_run_ok _ _ _ H1 keys_inv_initial Hlt1) as [Hi _]. destruct (keys_run_ok _ _ _ H2 Hi Hlt) as [_ Hg].
  split; [apply (ki_inj _ Hi)|]. intros a o n Ho. split; [by apply (gr_anchor _ _ Hg)|].
  destruct (ki_anchor _ Hi _ _ _ Ho) as [r Hr]. destruct (gr_ring _ _ Hg _ _ Hr) as (r' & Hr' & Hp). eauto.
Qed.

(** as long as only unprivileged processes add keys, no user ever holds
    more keys than the limit, nor more bytes than the limit and nine bytes:
    the check does not charge the digits of the user id that the recorded
    description carries. *)
Theorem key_quota_bound (s : KeyringState) u :
  rtc (keys_step (H := H) (A := A) unprivileged) initial s → next_serial s < I32_MAX → is_u32 u →
  (key_usage_for_uid s u).1 ≤ max_keys initial ∧ (key_usage_for_uid s u).2 ≤ max_bytes initial + 9.
Proof.
  intros Hrun Hlt Hu.
  assert (∀ s0, rtc (keys_step (H := H) (A := A) unprivileged) s0 s → keys_inv s0 → limits_small s0 → under_quota s0 →
            under_quota s ∧ max_keys s = max_keys s0 ∧ max_bytes s = max_bytes s0) as Hgen.
  { clear Hrun. induction 1 as [|s1 s2 s3 Hstep Hrun IH]; [done|]. intros Hi Hsm Hq.
    assert (next_serial s2 < I32_MAX) as H2.
    { pose proof (ki_next _ Hi) as Hn. pose proof (next_serial_step _ _ _ Hstep Hn).
      pose proof (next_serial_run _ _ _ Hrun ltac:(lia)). lia. }
    destruct (keys_step_ok _ _ _ Hstep Hi H2) as [Hi2 Hg]. destruct (gr_limits _ _ Hg) as [Hmk Hmb].
    destruct IH as (? & ? & ?); [done|done|by unfold limits_small; rewrite Hmk, Hmb|by eapply quota_step|]. split_and!; congruence || done. }
  destruct (Hgen initial Hrun keys_inv_initial) as (Hq & Hmk & Hmb); [unfold limits_small, U32_MAX; simpl; lia|..].
  { intros v _. unfold counted, counted_serials. simpl. rewrite !values_empty. unfold keys_of, bytes_of. simpl. unfold zlen. simpl. lia. }
  rewrite usage_counted. cbn [fst snd]. specialize (Hq u Hu). lia.
Qed.
End Claims.

(** Two callers: a thread of user 1000 and one of user 1001. *)
Definition caller (k u : Z) : Proc.Process unit unit :=
  mkProcess k k k k k None "sh" "/" u u 0 0 [] 0 Ready None tt ∅ ∅ (new_user_frame 0 0) None None None 0 0 None ∅ None 0 None false
    None 0 None None None None false false false false 0 false None.
Definition after_one : KeyringState := (add_key (caller 7 1000) "user" [107] 32 KEY_SPEC_PROCESS_KEYRING initial).2.
Definition after_two : KeyringState := (add_key (caller 8 1001) "user" [108] 5 KEY_SPEC_THREAD_KEYRING after_one).2.

Lemma keyrings_isolated_witness :
  anchors Process after_one !! 7 = Some 1 ∧ anchors Process after_two !! 7 = Some 1 ∧ anchors Thread after_two !! 8 = Some 2.
Proof.
  destruct (keyrings_isolated (H := unit) (A := unit) after_one after_two) as [_ Hs].
  - apply rtc_once, (step_add _ _ (caller 7 1000)); [done|unfold is_usize, USIZE_MAX; lia].
  - apply rtc_once, (step_add _ _ (caller 8 1001)); [done|unfold is_usize, USIZE_MAX; lia].
  - vm_compute. done.
  - split_and!; [vm_compute; reflexivity| |vm_compute; reflexivity]. apply Hs. vm_compute. reflexivity.
Defined.

Lemma key_quota_bound_witness : key_usage_for_uid after_one 1000 = (1, 37) ∧ (key_usage_for_uid after_one 1000).2 ≤ 20009.
Proof.
  split; [vm_compute; reflexivity|]. eapply (key_quota_bound (H := unit) (A := unit) after_one 1000).
  - apply rtc_once, (step_add _ _ (caller 7 1000)); [split; [done|unfold is_u32; simpl; lia]|unfold is_usize, USIZE_MAX; lia].
  - vm_compute. done.
  - unfold is_u32. lia.
Defined.

End Keys.
