(* ===== verification/Sys.v ===== *)
(** * The state behind the system calls (crates/syscall/src/lib.rs)

    A system call gets the process table, the scheduler and the file name
    space by [&mut]; record locks, the accounting file, shared memory
    segments, the clock discipline, the keyrings and the cached busybox image
    are statics of the crate.  [kernel] holds all of them.  This file has the
    accessors the calls are written with; [SysFile], [SysProc], [SysMem],
    [SysNet] and [SysExec] have the calls.

    The readings of the timer, [monotonic_time] and [monotonic_nanos], are
    [k_time] and [k_nanos]: the clock stands still during a call.  The
    diagnostic lines that some calls print are left out. *)

From S2P Require Import Prelude Task AddrSpace Path FileObject Vfs Process KernelEnv ProcTable Locks Abi Keys.

Open Scope string_scope.
Open Scope list_scope.
Open Scope Z_scope.

Module Sys.
Import Proc PTable Abi.

Definition EBADF : Z := 9.
Definition EAGAIN : Z := 11.
Definition EINTR : Z := 4.
Definition ENOENT : Z := 2.
Definition ENOTDIR : Z := 20.
Definition EISDIR : Z := 21.
Definition EPERM : Z := 1.
Definition ESRCH : Z := 3.
Definition EACCES : Z := 13.
Definition EPIPE : Z := 32.
Definition ENOSYS : Z := 38.
Definition EROFS : Z := 30.
Definition ENAMETOOLONG : Z := 36.
Definition ENOTTY : Z := 25.
Definition ETIMEDOUT : Z := 110.
Definition ENODEV : Z := 19.
Definition AT_FDCWD : Z := -100.

(** [SyscallArgs]: the six argument registers; [args.0[i]]. *)
Definition arg (args : list Z) (i : nat) : Z := nth i args 0.
(** [as i32], [as u32] *)
Definition to_i32 (z : Z) : Z := as_i32 z.
Definition to_u32 (z : Z) : Z := z mod 2 ^ 32.

(** [ShmSegment] and [SharedMemoryState].  The buffer of a segment is the
    address and length of its vector. *)
Record ShmSegment := mkShmSegment {
  sg_data : Z * Z; sg_key : Z; sg_creator_pid : Z; sg_attach_count : Z; sg_attachments : list Z; sg_destroyed : bool }.
Record SharedMemoryState := mkShmState {
  shm_next_id : Z; shm_keys : gmap Z Z; shm_segments : gmap Z ShmSegment }.

(** [KernelTimexState] *)
Record KernelTimexState := mkTimex {
  tx_offset : Z; tx_freq : Z; tx_maxerror : Z; tx_esterror : Z; tx_status : Z; tx_constant : Z; tx_tick : Z; tx_tai : Z }.

Section Sys.
Context {M : Type} `{!Obj.Ext4Ops M} `{!HalMemory} (can_reserve : Z → bool).

Abbreviation kenv := (Kernel.kenv M).
Abbreviation ptable := (PTable.table Obj.FileHandle Z kenv).
Abbreviation process := (Process Obj.FileHandle Z).
#[local] Hint Extern 0 (KernelEnv _ _ _) => exact (Kernel.kernel_env can_reserve) : typeclass_instances.

Record kernel := mkKernel {
  k_table : ptable;
  k_sched : Sched.Scheduler;
  k_locks : list Locks.FcntlRecordLock;
  k_acct : option string;
  k_shm : SharedMemoryState;
  k_timex : KernelTimexState;
  k_keys : Keys.KeyringState;
  k_busybox : option (list Z);
  k_time : Z * Z;
  k_nanos : Z;
}.

Abbreviation kstm := (stm kernel).

Definition with_table (t : ptable) (k : kernel) : kernel :=
  mkKernel t (k_sched k) (k_locks k) (k_acct k) (k_shm k) (k_timex k) (k_keys k) (k_busybox k) (k_time k) (k_nanos k).
Definition with_sched (s : Sched.Scheduler) (k : kernel) : kernel :=
  mkKernel (k_table k) s (k_locks k) (k_acct k) (k_shm k) (k_timex k) (k_keys k) (k_busybox k) (k_time k) (k_nanos k).
Definition with_locks (l : list Locks.FcntlRecordLock) (k : kernel) : kernel :=
  mkKernel (k_table k) (k_sched k) l (k_acct k) (k_shm k) (k_timex k) (k_keys k) (k_busybox k) (k_time k) (k_nanos k).
Definition with_acct (a : option string) (k : kernel) : kernel :=
  mkKernel (k_table k) (k_sched k) (k_locks k) a (k_shm k) (k_timex k) (k_keys k) (k_busybox k) (k_time k) (k_nanos k).
Definition with_shm (x : SharedMemoryState) (k : kernel) : kernel :=
  mkKernel (k_table k) (k_sched k) (k_locks k) (k_acct k) x (k_timex k) (k_keys k) (k_busybox k) (k_time k) (k_nanos k).
Definition with_timex (x : KernelTimexState) (k : kernel) : kernel :=
  mkKernel (k_table k) (k_sched k) (k_locks k) (k_acct k) (k_shm k) x (k_keys k) (k_busybox k) (k_time k) (k_nanos k).
Definition with_keys (x : Keys.KeyringState) (k : kernel) : kernel :=
  mkKernel (k_table k) (k_sched k) (k_locks k) (k_acct k) (k_shm k) (k_timex k) x (k_busybox k) (k_time k) (k_nanos k).

(** ** Running the code of the components *)
Definition on_table {B} (m : stm ptable B) : kstm B := fun k =>
  let '(r, t) := m (k_table k) in (r, with_table t k).
Definition ask_table {B} (f : ptable → outcome B) : kstm B := fun k => (f (k_table k), k).
Definition on_kenv {B} (m : stm kenv B) : kstm B := on_table (on_env m).

(** [procs.current()?] *)
Definition cur : kstm process := ask_table current.
Definition update_cur (f : process → process) : kstm unit := on_table (update_current f).

(** A method of the current process that also reaches files and memory. *)
Definition on_cur {B} (m : stm (process * kenv) B) : kstm B := on_table (fun t =>
  match current t with
  | Ok p =>
      let '(r, (p', e)) := m (p, env t) in
      (r, with_env e (with_processes (<[current_tid t := p']> (processes t)) t))
  | Err x => (Err x, t)
  | Panic => (Panic, t)
  | Diverge => (Diverge, t)
  end).
Definition on_proc {B} (m : stm process B) : kstm B := on_cur (fun '(p, e) => let '(r, p') := m p in (r, (p', e))).

Definition get_vfs : kstm (Vfs.KernelVfs M) := fun k => (Ok (Kernel.k_vfs (env (k_table k))), k).
Definition on_vfs {B} (m : stm (Vfs.KernelVfs M) B) : kstm B := on_kenv (fun e =>
  let '(r, v) := m (Kernel.k_vfs e) in (r, Kernel.with_vfs v e)).
Definition ask_vfs {B} (f : Vfs.KernelVfs M → outcome B) : kstm B :=
  v ← get_vfs; lift (f v).

(** [vfs.method(process.fd_mut(fd)?, ..)]: the handle is changed in place. *)
Definition on_fd {B} (fd : Z) (m : stm (Obj.FileHandle * Vfs.KernelVfs M) B) : kstm B := on_cur (fun '(p, e) =>
  match fd_get p fd with
  | Ok h =>
      let '(r, (h', v)) := m (h, Kernel.k_vfs e) in
      (r, (set_fds (<[fd := h']> (fds p)) p, Kernel.with_vfs v e))
  | Err x => (Err x, (p, e))
  | Panic => (Panic, (p, e))
  | Diverge => (Diverge, (p, e))
  end).

Definition fd_handle (fd : Z) : kstm Obj.FileHandle := p ← cur; lift (fd_get p fd).

Definition add_handle (h : Obj.FileHandle) : kstm Z := on_proc (add_fd h).
Definition clone_ref (h : Obj.FileHandle) : kstm unit := on_kenv (modify (handle_clone h)).
Definition drop_ref (h : Obj.FileHandle) : kstm unit := on_kenv (modify (handle_drop h)).

Definition handle_kind (h : Obj.FileHandle) : kstm Obj.NodeKind :=
  ask_vfs (fun v => Obj.kind <$> Obj.node_at (Vfs.vstore v) (Obj.h_node h)).
Definition is_pipe (h : Obj.FileHandle) : kstm bool :=
  k ← handle_kind h; mret (match k with Obj.KPipe => true | _ => false end).
Definition is_socket (h : Obj.FileHandle) : kstm bool :=
  k ← handle_kind h; mret (match k with Obj.KSocket => true | _ => false end).

(** [match m { Ok(v) => .., Err(e) => .. }] *)
Definition attempt {B} (m : kstm B) : kstm (B + Z) := fun k =>
  match m k with
  | (Ok b, k') => (Ok (inl b), k')
  | (Err e, k') => (Ok (inr e), k')
  | (Panic, k') => (Panic, k')
  | (Diverge, k') => (Diverge, k')
  end.
(** [let _ = m] *)
Definition quietly {B} (m : kstm B) : kstm unit := _ ← attempt m; mret tt.

(** [.map_err(|_| code)] *)
Definition err_as {B} (code : Z) (m : kstm B) : kstm B := fun k => let '(r, k') := m k in (map_err code r, k').

Fixpoint each {B} (l : list B) (f : B → kstm unit) : kstm unit :=
  match l with [] => mret tt | x :: l' => _ ← f x; each l' f end.

(** ** User memory of the current process *)
Definition read_user (addr n : Z) : kstm (list Z) :=
  p ← cur;
  ask_table (fun t => map_err EFAULT (space_read (address_space p) addr n (env t))).

Definition write_user (addr : Z) (bs : list Z) : kstm unit :=
  p ← cur;
  err_as EFAULT (on_kenv (space_write (address_space p) addr bs)).

(** The C string at [addr]. *)
Definition space_cstr (a : Z) (addr : Z) (e : kenv) : outcome string :=
  match Kernel.k_spaces e !! a with
  | Some (i, _) => string_of <$> Mm.read_cstr can_reserve is_utf8 (Mm.mkSpace i (Kernel.k_mem e)) addr
  | None => Panic
  end.
Definition read_user_cstr (addr : Z) : kstm string :=
  p ← cur;
  ask_table (fun t => map_err EFAULT (space_cstr (address_space p) addr (env t))).

(** The structures of [Abi], read with the memory of the current process. *)
Definition with_reader {B} (f : (Z → Z → outcome (list Z)) → (Z → outcome string) → outcome B) : kstm B :=
  p ← cur;
  ask_table (fun t =>
    f (fun addr n => map_err EFAULT (space_read (address_space p) addr n (env t)))
      (fun addr => map_err EFAULT (space_cstr (address_space p) addr (env t)))).

Definition sys_read_usize (addr : Z) : kstm Z := with_reader (fun rd _ => read_usize rd addr).
Definition sys_read_u32 (addr : Z) : kstm Z := with_reader (fun rd _ => read_u32 rd addr).

(** ** Handles owned by a call *)
(** A handle dropped when the block ends; reading, writing and seeking do not
    change what [Drop] looks at. *)
Definition owning {B} (h : Obj.FileHandle) (m : kstm B) : kstm B := fun k =>
  let '(r, k') := m k in (r, (drop_ref h k').2).

(** [let handle = procs.current()?.fd(fd)?.clone();] for the rest of the call. *)
Definition with_clone {B} (fd : Z) (body : Obj.FileHandle → kstm B) : kstm B :=
  h ← fd_handle fd;
  _ ← clone_ref h;
  owning h (body h).

(** A vfs method on a handle that is a local variable. *)
Definition on_local {B} (h : Obj.FileHandle) (m : stm (Obj.FileHandle * Vfs.KernelVfs M) B)
  : kstm (B * Obj.FileHandle) := on_kenv (fun e =>
  let '(r, (h', v)) := m (h, Kernel.k_vfs e) in ((fun b => (b, h')) <$> r, Kernel.with_vfs v e)).

Definition with_flags (f : Z → Z) (h : Obj.FileHandle) : Obj.FileHandle :=
  Obj.mkHandle (Obj.h_node h) (Obj.h_offset h) (f (Obj.h_flags h)) (Obj.h_path h) (Obj.h_pipe_end h).

(** The descriptor methods of [Process] that move offsets between aliases. *)
Definition sync_from (fd : Z) : kstm unit := on_proc (sync_fd_offset_from_alias (E := kenv) fd).
Definition sync_to (fd : Z) : kstm unit := on_proc (sync_fd_offset_to_aliases (E := kenv) fd).
Definition add_from (source_fd : Z) (h : Obj.FileHandle) : kstm Z := on_proc (add_fd_from (E := kenv) source_fd h).

(** ** The scheduler *)
Definition on_sched {B} (f : Sched.Scheduler → B * Sched.Scheduler) : kstm B := fun k =>
  let '(b, s) := f (k_sched k) in (Ok b, with_sched s k).
Definition block_current : kstm unit := _ ← on_sched Sched.block_current; mret tt.
Definition wake_all_blocked : kstm unit := _ ← on_sched Sched.wake_all_blocked; mret tt.
Definition yield_now : kstm unit := _ ← on_sched Sched.yield_now; mret tt.
Definition wake_task (tid : Z) : kstm bool := on_sched (fun s => Sched.wake_task s tid).

(** [wake_process_group_threads] *)
Definition wake_process_group_threads (g : Z) : kstm nat :=
  k ← get;
  on_sched (fun s => Sched.wake_tasks s (live_tids_in_tgid (k_table k) g)).

(** ** Record locks *)
Definition clear_locks (f : list Locks.FcntlRecordLock → bool * list Locks.FcntlRecordLock) : kstm bool := fun k =>
  let '(b, l) := f (k_locks k) in (Ok b, with_locks l k).

(** ** Keyrings *)
Definition on_keys {B} (m : stm Keys.KeyringState B) : kstm B := fun k =>
  let '(r, s) := m (k_keys k) in (r, with_keys s k).

(** ** Time *)
(** [wall_time_now] *)
Definition WALL_TIME_BASE_SEC : Z := 1735689600.
Definition wall_time_now (k : kernel) : Z * Z :=
  let '(sec, nsec) := k_time k in
  (Z.min (WALL_TIME_BASE_SEC + Z.max sec 0) (2 ^ 63 - 1), Z.min (Z.max nsec 0) 999999999).

(** ** Paths *)
(** The directory relative paths start from. *)
Definition resolve_at_cwd (dirfd : Z) (path : string) : kstm string :=
  p ← cur;
  if Path.starts_with path "/" || (dirfd =? AT_FDCWD) then mret (cwd p)
  else
    h ← lift (fd_get p dirfd);
    st ← ask_vfs (fun v => Vfs.stat_handle v h);
    if Z.land (Obj.st_mode st) 0x4000 =? 0x4000 then mret (Obj.h_path h) else fail ENOTDIR.

End Sys.
Arguments kernel : clear implicits.

End Sys.
