(* ===== verification/SysFile.v ===== *)
(** * System calls on files (crates/syscall/src/lib.rs)

    The calls of [fs_domain]: opening, reading, writing, descriptors,
    record locks, directories and attributes.  Each takes the six argument
    registers and works on the [kernel] of [Sys]. *)

From S2P Require Import Prelude Task AddrSpace Path FileObject Vfs Process KernelEnv ProcTable Locks Calendar Abi Sys.

Open Scope string_scope.
Open Scope list_scope.
Open Scope Z_scope.

Module SysFile.
Import Proc PTable Abi Sys.

Definition O_CLOEXEC : Z := 0x80000.
Definition AT_EMPTY_PATH : Z := 0x1000.
Definition PATH_MAX : Z := 4096.
Definition bit_set (z mask : Z) : bool := negb (Z.land z mask =? 0).

Section Calls.
Context {M : Type} `{!Obj.Ext4Ops M} `{!HalMemory} (can_reserve : Z → bool).
#[local] Hint Extern 0 (KernelEnv _ _ _) => exact (Kernel.kernel_env can_reserve) : typeclass_instances.

Abbreviation kstm := (stm (kernel M)).
Abbreviation read_user := (read_user can_reserve).
Abbreviation write_user := (write_user can_reserve).
Abbreviation read_user_cstr := (read_user_cstr can_reserve).
Abbreviation with_reader := (with_reader can_reserve).
Abbreviation with_clone := (with_clone can_reserve).
Implicit Types (args : list Z).

(** ** Opening and closing *)
Definition sys_openat args : kstm Z :=
  let dirfd := to_i32 (arg args 0) in
  let raw_flags := to_u32 (arg args 2) in
  let flags := normalize_open_flags raw_flags in
  path ← read_user_cstr (arg args 1);
  dir ← resolve_at_cwd dirfd path;
  h ← on_vfs (Vfs.open dir path flags (to_u32 (arg args 3)));
  add_handle (with_flags (fun f => with_cloexec_flag f (bit_set raw_flags O_CLOEXEC)) h).

Definition sys_close args : kstm Z :=
  let fd := to_i32 (arg args 0) in
  owner ← ask_table current_tgid;
  h ← fd_handle fd;
  _ ← clone_ref can_reserve h;
  wake ← owning can_reserve h (
    _ ← on_cur (close_fd fd);
    pipe ← is_pipe h;
    released ← clear_locks (Locks.clear_for_owner_path owner (Obj.h_path h));
    mret (pipe || released));
  _ ← (if (wake : bool) then wake_all_blocked else mret tt);
  mret 0.

(** One descriptor of [close_range]: whether a pipe end or a lock went away. *)
Definition close_one (owner fd : Z) : kstm bool :=
  p ← cur;
  match fds p !! fd with
  | None => mret false
  | Some h =>
      _ ← clone_ref can_reserve h;
      owning can_reserve h (
        _ ← on_cur (close_fd fd);
        pipe ← is_pipe h;
        released ← clear_locks (Locks.clear_for_owner_path owner (Obj.h_path h));
        mret (pipe || released))
  end.
Fixpoint close_each (owner : Z) (l : list Z) (acc : bool) : kstm bool :=
  match l with
  | [] => mret acc
  | fd :: l' => b ← close_one owner fd; close_each owner l' (acc || b)
  end.

Definition sys_close_range args : kstm Z :=
  let first := to_i32 (arg args 0) in
  let last := to_i32 (arg args 1) in
  owner ← ask_table current_tgid;
  wake ← close_each owner (seqZ first (last - first + 1)) false;
  _ ← (if (wake : bool) then wake_all_blocked else mret tt);
  mret 0.

(** ** Reading and writing *)
(** The offset is taken from the descriptor's alias group before the
    operation and spread over it afterwards. *)
Definition sys_lseek args : kstm Z :=
  let fd := to_i32 (arg args 0) in
  _ ← sync_from can_reserve fd;
  position ← on_fd fd (Vfs.seek (Obj.as_isize (arg args 1)) (to_u32 (arg args 2)));
  _ ← sync_to can_reserve fd;
  mret position.

Definition sys_read args : kstm Z :=
  let fd := to_i32 (arg args 0) in
  _ ← sync_from can_reserve fd;
  h ← fd_handle fd;
  pipe ← is_pipe h;
  socket ← is_socket h;
  r ← attempt (on_fd fd (Vfs.read (arg args 2)));
  bytes ← match r with
          | inl bytes => mret bytes
          | inr e =>
              if (e =? EAGAIN) && (pipe || socket) then _ ← block_current; fail EAGAIN else fail e
          end;
  _ ← sync_to can_reserve fd;
  _ ← write_user (arg args 1) bytes;
  mret (zlen bytes).

Definition sys_write args : kstm Z :=
  let fd := to_i32 (arg args 0) in
  data ← read_user (arg args 1) (arg args 2);
  _ ← sync_from can_reserve fd;
  h ← fd_handle fd;
  pipe ← is_pipe h;
  socket ← is_socket h;
  r ← attempt (on_fd fd (Vfs.write can_reserve data));
  match r with
  | inl written =>
      _ ← sync_to can_reserve fd;
      _ ← (if (pipe || socket) && negb (written =? 0) then wake_all_blocked else mret tt);
      mret written
  | inr e =>
      _ ← (if (pipe || socket) && (e =? EPIPE) then wake_all_blocked else mret tt);
      fail e
  end.

Definition sys_getdents64 args : kstm Z :=
  let fd := to_i32 (arg args 0) in
  _ ← sync_from can_reserve fd;
  bytes ← on_fd fd (Vfs.getdents (arg args 2));
  _ ← sync_to can_reserve fd;
  _ ← write_user (arg args 1) bytes;
  mret (zlen bytes).

(** The loop of [readv]; aliases are not synchronised here. *)
Fixpoint readv_loop (fd : Z) (iovs : list IoVec) (total : Z) : kstm Z :=
  match iovs with
  | [] => mret total
  | iov :: iovs' =>
      h ← fd_handle fd;
      pipe ← is_pipe h;
      r ← attempt (on_fd fd (Vfs.read (iov_len iov)));
      match r with
      | inl bytes =>
          _ ← write_user (iov_base iov) bytes;
          total ← lift (uadd total (zlen bytes));
          if zlen bytes <? iov_len iov then mret total else readv_loop fd iovs' total
      | inr e =>
          if (e =? EAGAIN) && pipe then
            if total =? 0 then _ ← block_current; fail EAGAIN else mret total
          else fail e
      end
  end.
Definition sys_readv args : kstm Z :=
  iovs ← with_reader (fun rd _ => read_iovecs rd (arg args 1) (arg args 2));
  readv_loop (to_i32 (arg args 0)) iovs 0.

(** [write_console_bytes] *)
Definition console_write (bs : list Z) : kstm unit :=
  on_vfs (modify (fun v => Vfs.set_vstore (Obj.write_console_bytes (Vfs.vstore v) bs) v)).

(** Descriptors 1 and 2 go to the console, whatever they refer to. *)
Definition is_std (fd : Z) : bool := (fd =? 1) || (fd =? 2).

Fixpoint writev_loop (fd : Z) (pipe : bool) (iovs : list IoVec) (total : Z) : kstm Z :=
  match iovs with
  | [] => mret total
  | iov :: iovs' =>
      bytes ← read_user (iov_base iov) (iov_len iov);
      if is_std fd then
        _ ← console_write bytes;
        total ← lift (uadd total (zlen bytes));
        writev_loop fd pipe iovs' total
      else
        r ← attempt (on_fd fd (Vfs.write can_reserve bytes));
        match r with
        | inl written => total ← lift (uadd total written); writev_loop fd pipe iovs' total
        | inr e =>
            if (e =? EPIPE) && pipe then
              _ ← wake_all_blocked;
              if total =? 0 then fail EPIPE else mret total
            else fail e
        end
  end.
Definition sys_writev args : kstm Z :=
  let fd := to_i32 (arg args 0) in
  iovs ← with_reader (fun rd _ => read_iovecs rd (arg args 1) (arg args 2));
  pipe ← (if is_std fd then mret false else h ← fd_handle fd; is_pipe h);
  total ← writev_loop fd pipe iovs 0;
  _ ← (if pipe && negb (total =? 0) then wake_all_blocked else mret tt);
  mret total.

Definition sys_pread64 args : kstm Z :=
  with_clone (to_i32 (arg args 0)) (fun h =>
    '(bytes, _) ← on_local (Obj.with_offset h (arg args 3)) (Vfs.read (arg args 2));
    _ ← write_user (arg args 1) bytes;
    mret (zlen bytes)).

Definition sys_pwrite64 args : kstm Z :=
  data ← read_user (arg args 1) (arg args 2);
  with_clone (to_i32 (arg args 0)) (fun h =>
    '(n, _) ← on_local (Obj.with_offset h (arg args 3)) (Vfs.write can_reserve data);
    mret n).

Fixpoint preadv_loop (h : Obj.FileHandle) (iovs : list IoVec) (total : Z) : kstm Z :=
  match iovs with
  | [] => mret total
  | iov :: iovs' =>
      '(bytes, h') ← on_local h (Vfs.read (iov_len iov));
      _ ← write_user (iov_base iov) bytes;
      total ← lift (uadd total (zlen bytes));
      if zlen bytes <? iov_len iov then mret total else preadv_loop h' iovs' total
  end.
Definition sys_preadv args : kstm Z :=
  iovs ← with_reader (fun rd _ => read_iovecs rd (arg args 1) (arg args 2));
  with_clone (to_i32 (arg args 0)) (fun h => preadv_loop (Obj.with_offset h (arg args 3)) iovs 0).

Fixpoint pwritev_loop (h : Obj.FileHandle) (iovs : list IoVec) (total : Z) : kstm Z :=
  match iovs with
  | [] => mret total
  | iov :: iovs' =>
      bytes ← read_user (iov_base iov) (iov_len iov);
      '(n, h') ← on_local h (Vfs.write can_reserve bytes);
      total ← lift (uadd total n);
      pwritev_loop h' iovs' total
  end.
Definition sys_pwritev args : kstm Z :=
  iovs ← with_reader (fun rd _ => read_iovecs rd (arg args 1) (arg args 2));
  with_clone (to_i32 (arg args 0)) (fun h => pwritev_loop (Obj.with_offset h (arg args 3)) iovs 0).

(** The offset of a descriptor, or the word at an address, after a copy. *)
Definition store_offset (ptr fd : Z) (h : Obj.FileHandle) : kstm unit :=
  if ptr =? 0 then
    on_proc (fun p => match fd_get p fd with
                      | Ok _ => (Ok tt, set_fds (alter (fun x => Obj.with_offset x (Obj.h_offset h)) fd (fds p)) p)
                      | Err e => (Err e, p)
                      | Panic => (Panic, p)
                      | Diverge => (Diverge, p)
                      end)
  else write_user ptr (to_le_bytes 8 (Obj.h_offset h)).
Definition start_offset (ptr : Z) (h : Obj.FileHandle) : kstm Obj.FileHandle :=
  if ptr =? 0 then mret h else o ← sys_read_usize can_reserve ptr; mret (Obj.with_offset h o).

Definition sys_sendfile args : kstm Z :=
  let out_fd := to_i32 (arg args 0) in
  let in_fd := to_i32 (arg args 1) in
  with_clone in_fd (fun h =>
    h ← start_offset (arg args 2) h;
    '(bytes, h) ← on_local h (Vfs.read (arg args 3));
    written ← on_fd out_fd (Vfs.write can_reserve bytes);
    _ ← store_offset (arg args 2) in_fd h;
    mret written).

Definition sys_copy_between_fds (in_fd out_fd len off_in_ptr off_out_ptr : Z) : kstm Z :=
  with_clone in_fd (fun hi =>
    with_clone out_fd (fun ho =>
      hi ← start_offset off_in_ptr hi;
      ho ← start_offset off_out_ptr ho;
      '(bytes, hi) ← on_local hi (Vfs.read len);
      '(written, ho) ← on_local ho (Vfs.write can_reserve bytes);
      _ ← store_offset off_in_ptr in_fd hi;
      _ ← store_offset off_out_ptr out_fd ho;
      mret written)).
Definition sys_copy_file_range args : kstm Z :=
  sys_copy_between_fds (to_i32 (arg args 0)) (to_i32 (arg args 2)) (arg args 4) (arg args 1) (arg args 3).
Definition sys_splice args : kstm Z :=
  sys_copy_between_fds (to_i32 (arg args 0)) (to_i32 (arg args 2)) (arg args 4) (arg args 1) (arg args 3).

(** ** Descriptors *)
Definition sys_dup args : kstm Z :=
  let source_fd := to_i32 (arg args 0) in
  h ← fd_handle source_fd;
  _ ← clone_ref can_reserve h;
  add_from can_reserve source_fd (with_flags (fun f => with_cloexec_flag f false) h).

(** [process.fds.insert] at a descriptor known to be closed, aliased to the
    source. *)
Definition install_dup (source newfd : Z) (h : Obj.FileHandle) : kstm unit :=
  _ ← on_proc (modify (fun p => set_fds (<[newfd := h]> (fds p)) p));
  _ ← on_proc (p ← get; leader ← lift (fd_alias_leader p source); put (set_fd_alias newfd leader p));
  sync_from can_reserve newfd.

Definition sys_dup3 args : kstm Z :=
  let oldfd := to_i32 (arg args 0) in
  let newfd := to_i32 (arg args 1) in
  h ← fd_handle oldfd;
  if oldfd =? newfd then mret (newfd mod 2 ^ 64)
  else
    _ ← clone_ref can_reserve h;
    _ ← quietly (on_cur (close_fd newfd));
    _ ← install_dup oldfd newfd (with_flags (fun f => with_cloexec_flag f (bit_set (arg args 2) O_CLOEXEC)) h);
    mret (newfd mod 2 ^ 64).

(** Record locks. *)
Definition lock_write (addr : Z) (f : Locks.FlockRequest) : kstm unit := write_user addr (Locks.encode_flock f).

Definition sys_fcntl_lock (fd cmd arg_ptr : Z) : kstm Z :=
  owner ← ask_table current_tgid;
  with_clone fd (fun h =>
    request ← with_reader (fun rd _ => read_flock_request rd arg_ptr);
    if negb (existsb (Z.eqb (Locks.l_type request)) [Locks.F_RDLCK; Locks.F_WRLCK; Locks.F_UNLCK])
    then fail EINVAL
    else
      '(start, e) ← ask_vfs (fun v =>
         Locks.normalize_lock_range request (Obj.h_offset h) (Obj.st_size <$> Vfs.stat_handle v h));
      k ← get;
      let conflict := Locks.first_conflict (Obj.h_path h) owner (Locks.l_type request) start e (k_locks k) in
      if cmd =? 5 then
        _ ← lock_write arg_ptr
              (if Locks.l_type request =? Locks.F_UNLCK
               then Locks.mkFlock (Locks.l_type request) (Locks.l_whence request) (Locks.l_start request)
                      (Locks.l_len request) 0
               else match conflict with
                    | Some l => Locks.mkFlock (Locks.lk_type l) Locks.SEEK_SET (Locks.as_signed 64 (Locks.lk_start l))
                                  (Locks.lock_range_len (Locks.lk_start l) (Locks.lk_end l)) (to_i32 (Locks.lk_owner l))
                    | None => Locks.mkFlock Locks.F_UNLCK (Locks.l_whence request) (Locks.l_start request)
                                (Locks.l_len request) 0
                    end);
        mret 0
      else if negb (Locks.l_type request =? Locks.F_UNLCK) && bool_decide (is_Some conflict) then
        if cmd =? 7 then _ ← block_current; fail EAGAIN else fail EACCES
      else
        changed ← clear_locks (Locks.apply_lock (Obj.h_path h) owner (Locks.l_type request) start e);
        _ ← (if (changed : bool) then wake_all_blocked else mret tt);
        mret 0).

Definition sys_fcntl args : kstm Z :=
  let fd := to_i32 (arg args 0) in
  let cmd := arg args 1 in
  let arg_raw := arg args 2 in
  if (cmd =? 0) || (cmd =? 1030) then
    h ← fd_handle fd;
    _ ← clone_ref can_reserve h;
    p ← cur;
    newfd ← lift (free_fd (S (size (fds p))) (fds p) (Z.max (to_i32 arg_raw) 0));
    if 2 ^ 31 <=? newfd then lift Panic
    else
      _ ← install_dup fd newfd (with_flags (fun f => with_cloexec_flag f (cmd =? 1030)) h);
      mret newfd
  else if cmd =? 1 then h ← fd_handle fd; mret (if bit_set (Obj.h_flags h) HANDLE_FLAG_CLOEXEC then 1 else 0)
  else if cmd =? 2 then
    _ ← fd_handle fd;
    _ ← on_proc (modify (fun p => set_fds (alter (with_flags (fun f =>
          with_cloexec_flag f (bit_set arg_raw 1))) fd (fds p)) p));
    mret 0
  else if cmd =? 3 then h ← fd_handle fd; mret (Z.ldiff (Obj.h_flags h) HANDLE_FLAG_CLOEXEC)
  else if cmd =? 4 then mret 0
  else if (cmd =? 5) || (cmd =? 6) || (cmd =? 7) then sys_fcntl_lock fd cmd arg_raw
  else fail EINVAL.

Definition sys_ioctl args : kstm Z :=
  let cmd := arg args 1 in
  let a := arg args 2 in
  h ← fd_handle (to_i32 (arg args 0));
  if cmd =? 0x5413 then
    if a =? 0 then mret 0
    else _ ← write_user a (fill 8 [(0%nat, to_le_bytes 2 24); (2%nat, to_le_bytes 2 80)]); mret 0
  else if cmd =? 0x80247009 then
    if a =? 0 then fail EFAULT
    else if negb (String.eqb (Obj.h_path h) "/dev/rtc0") then fail ENOTTY
    else
      k ← get;
      bytes ← lift (Calendar.rtc_time_bytes (wall_time_now k).1);
      _ ← write_user a bytes;
      mret 0
  else mret 0.

Definition sys_flock args : kstm Z := _ ← fd_handle (to_i32 (arg args 0)); mret 0.

Definition sys_pipe args : kstm Z :=
  '(read_end, write_end) ← on_vfs Vfs.create_pipe;
  let mark := with_flags (fun f => with_cloexec_flag f (bit_set (arg args 1) O_CLOEXEC)) in
  read_fd ← add_handle (mark read_end);
  write_fd ← add_handle (mark write_end);
  _ ← write_user (arg args 0) (to_le_bytes 4 read_fd ++ to_le_bytes 4 write_fd);
  mret 0.

(** ** Names *)
Definition sys_getcwd args : kstm Z :=
  p ← cur;
  let out := Vfs.bytes_of (cwd p) ++ [0] in
  if arg args 1 <? zlen out then fail EINVAL
  else _ ← write_user (arg args 0) out; mret (arg args 0).

Definition sys_mkdir args : kstm Z :=
  let first := Obj.as_isize (arg args 0) in
  let looks_like_dirfd := (first =? -100) || ((0 <=? first) && (first <=? 1024)) in
  let '(path_arg, mode) := if looks_like_dirfd then (arg args 1, to_u32 (arg args 2))
                           else (arg args 0, to_u32 (arg args 1)) in
  path ← read_user_cstr path_arg;
  p ← cur;
  _ ← on_vfs (Vfs.mkdir (cwd p) path mode);
  mret 0.

Definition sys_unlinkat args : kstm Z :=
  path ← read_user_cstr (arg args 1);
  dir ← resolve_at_cwd (to_i32 (arg args 0)) path;
  _ ← on_vfs (Vfs.unlink dir path);
  mret 0.

Definition cstr_or_empty (ptr : Z) : kstm string := if ptr =? 0 then mret "" else read_user_cstr ptr.

Definition sys_mount args : kstm Z :=
  source ← cstr_or_empty (arg args 0);
  target ← read_user_cstr (arg args 1);
  fs_type ← read_user_cstr (arg args 2);
  p ← cur;
  _ ← cstr_or_empty (arg args 4);
  _ ← on_vfs (Vfs.mount source (Path.normalize_path (cwd p) target) fs_type (to_u32 (arg args 3)));
  mret 0.

Definition sys_umount args : kstm Z :=
  target ← read_user_cstr (arg args 0);
  p ← cur;
  _ ← on_vfs (Vfs.umount (Path.normalize_path (cwd p) target));
  mret 0.

(** Two paths, both taken from the current directory. *)
Definition two_paths (a b : Z) (op : string → string → string → stm (Vfs.KernelVfs M) unit) : kstm Z :=
  old_path ← read_user_cstr a;
  new_path ← read_user_cstr b;
  p ← cur;
  _ ← on_vfs (op (cwd p) old_path new_path);
  mret 0.
Definition sys_symlinkat args : kstm Z :=
  two_paths (arg args 0) (arg args 2) (fun dir target linkpath => Vfs.create_symlink dir linkpath target).
Definition sys_linkat args : kstm Z := two_paths (arg args 1) (arg args 3) Vfs.link.
Definition sys_renameat args : kstm Z := two_paths (arg args 1) (arg args 3) Vfs.rename.
Definition sys_renameat2 args : kstm Z := two_paths (arg args 1) (arg args 3) Vfs.rename.

Definition set_cwd_to (path : string) (from : option string) : kstm Z :=
  p ← cur;
  dir ← ask_vfs (fun v => Vfs.chdir v (default (cwd p) from) path);
  _ ← update_cur (set_cwd dir);
  mret 0.
Definition sys_chdir args : kstm Z := path ← read_user_cstr (arg args 0); set_cwd_to path None.
Definition sys_chroot args : kstm Z := path ← read_user_cstr (arg args 0); set_cwd_to path None.
Definition sys_fchdir args : kstm Z :=
  h ← fd_handle (to_i32 (arg args 0)); set_cwd_to (Obj.h_path h) (Some "/").

Definition sys_readlinkat args : kstm Z :=
  path ← read_user_cstr (arg args 1);
  dir ← resolve_at_cwd (to_i32 (arg args 0)) path;
  p ← cur;
  target ← (if String.eqb path "/proc/self/exe" then mret (name p)
            else if String.eqb path "/proc/self/cwd" then mret dir
            else ask_vfs (fun v => Vfs.read_link v dir path));
  let bytes := Obj.ztake (arg args 3) (Vfs.bytes_of target) in
  _ ← write_user (arg args 2) bytes;
  mret (zlen bytes).

(** ** Attributes *)
Definition sys_fstat args : kstm Z :=
  h ← fd_handle (to_i32 (arg args 0));
  st ← ask_vfs (fun v => Vfs.stat_handle v h);
  _ ← write_user (arg args 1) (stat_to_bytes st);
  mret 0.

Definition sys_fstatat args : kstm Z :=
  path ← read_user_cstr (arg args 1);
  dir ← resolve_at_cwd (to_i32 (arg args 0)) path;
  st ← ask_vfs (fun v => Vfs.stat_path v dir path);
  _ ← write_user (arg args 2) (stat_to_bytes st);
  mret 0.

Definition at_path (ptr flags : Z) : kstm string := with_reader (fun _ rc => read_at_path_allow_empty rc ptr flags).
Definition empty_at (path : string) (flags : Z) : bool := String.eqb path "" && bit_set flags AT_EMPTY_PATH.

Definition sys_statx args : kstm Z :=
  let dirfd := to_i32 (arg args 0) in
  let flags := arg args 2 in
  path ← at_path (arg args 1) flags;
  st ← (if empty_at path flags then
          if dirfd =? AT_FDCWD then p ← cur; ask_vfs (fun v => Vfs.stat_path v (cwd p) (cwd p))
          else h ← fd_handle dirfd; ask_vfs (fun v => Vfs.stat_handle v h)
        else
          dir ← resolve_at_cwd dirfd path;
          ask_vfs (fun v => Vfs.stat_path v dir path));
  _ ← write_user (arg args 4) (statx_bytes st);
  mret 0.

Definition sys_statfs args : kstm Z :=
  path ← read_user_cstr (arg args 0);
  p ← cur;
  _ ← ask_vfs (fun v => Vfs.access v (cwd p) path);
  _ ← write_user (arg args 1) statfs_bytes;
  mret 0.
Definition sys_fstatfs args : kstm Z :=
  _ ← fd_handle (to_i32 (arg args 0));
  _ ← write_user (arg args 1) statfs_bytes;
  mret 0.

Definition sys_faccessat args : kstm Z :=
  let dirfd := to_i32 (arg args 0) in
  let flags := arg args 3 in
  let mode := arg args 2 in
  path ← at_path (arg args 1) flags;
  if negb (Z.ldiff mode 7 =? 0) then fail EINVAL
  else if empty_at path flags then
    if dirfd =? AT_FDCWD then mret 0 else _ ← fd_handle dirfd; mret 0
  else if String.eqb path "" then fail ENOENT
  else if PATH_MAX <=? Vfs.str_len path then fail ENAMETOOLONG
  else
    dir ← resolve_at_cwd dirfd path;
    st ← ask_vfs (fun v => Vfs.stat_path v dir path);
    v ← get_vfs;
    if bit_set mode 2 && bit_set (Vfs.mount_flags_for_path v dir path) 1 then fail EROFS
    else
      p ← cur;
      if access_mode_allowed (euid p) st mode then mret 0 else fail EACCES.

Definition sys_ftruncate args : kstm Z :=
  _ ← on_fd (to_i32 (arg args 0)) (Vfs.truncate can_reserve (arg args 1)); mret 0.
Definition sys_truncate args : kstm Z :=
  path ← read_user_cstr (arg args 0);
  p ← cur;
  _ ← on_vfs (Vfs.truncate_path can_reserve (cwd p) path (arg args 1));
  mret 0.
Definition sys_fallocate args : kstm Z :=
  _ ← on_fd (to_i32 (arg args 0)) (Vfs.fallocate can_reserve (arg args 2) (arg args 3)); mret 0.

Definition sys_fchmod args : kstm Z :=
  with_clone (to_i32 (arg args 0)) (fun h => _ ← on_vfs (Vfs.chmod_handle h (to_u32 (arg args 1))); mret 0).
Definition sys_fchmodat args : kstm Z :=
  let dirfd := to_i32 (arg args 0) in
  let flags := arg args 3 in
  let mode := to_u32 (arg args 2) in
  path ← at_path (arg args 1) flags;
  if empty_at path flags then
    if dirfd =? AT_FDCWD then mret 0
    else with_clone dirfd (fun h => _ ← on_vfs (Vfs.chmod_handle h mode); mret 0)
  else
    dir ← resolve_at_cwd dirfd path;
    _ ← on_vfs (Vfs.chmod_path dir path mode);
    mret 0.

Definition sys_fchownat args : kstm Z :=
  let dirfd := to_i32 (arg args 0) in
  let flags := arg args 4 in
  if negb (Z.ldiff flags 0x1100 =? 0) then fail EINVAL
  else
    path ← at_path (arg args 1) flags;
    if empty_at path flags then
      if dirfd =? AT_FDCWD then mret 0 else _ ← fd_handle dirfd; mret 0
    else
      dir ← resolve_at_cwd dirfd path;
      _ ← ask_vfs (fun v => Vfs.access v dir path);
      mret 0.
Definition sys_fchown args : kstm Z := _ ← fd_handle (to_i32 (arg args 0)); mret 0.

Definition sys_utimensat args : kstm Z :=
  let dirfd := to_i32 (arg args 0) in
  path ← cstr_or_empty (arg args 1);
  if empty_at path (arg args 3) then
    if dirfd =? AT_FDCWD then mret 0 else _ ← fd_handle dirfd; mret 0
  else
    p ← cur;
    _ ← ask_vfs (fun v => Vfs.access v (cwd p) path);
    mret 0.

Definition sys_sync : kstm Z := mret 0.
Definition sys_fsync args : kstm Z := _ ← fd_handle (to_i32 (arg args 0)); mret 0.

End Calls.
End SysFile.
