(* ===== verification/SysProc.v ===== *)
(** * System calls on processes (crates/syscall/src/lib.rs)

    The calls of [task_domain], [signal_domain], [time_domain] and the futex
    calls of [ipc_domain]: clone, exit, wait, signals, credentials, futexes,
    timers and sleeping.  [loongarch] tells the target apart where the code
    does. *)

From S2P Require Import Prelude Task AddrSpace Path FileObject Vfs Process KernelEnv ProcTable Locks Abi Sys.

Open Scope string_scope.
Open Scope list_scope.
Open Scope Z_scope.

Module SysProc.
Import Proc PTable Abi Sys.

Definition CLONE_VM : Z := 0x100.
Definition CLONE_THREAD_REQUIRED : Z := 0x10f00.
Definition CLONE_VFORK : Z := 0x4000.
Definition CLONE_THREAD : Z := 0x10000.
Definition CLONE_PARENT_SETTID : Z := 0x100000.
Definition CLONE_CHILD_CLEARTID : Z := 0x200000.
Definition CLONE_CHILD_SETTID : Z := 0x1000000.
Definition CLONE_NAMESPACE_MASK : Z := 0x7e020000.
Definition SIGCANCEL : Z := 33.
Definition has (flags mask : Z) : bool := negb (Z.land flags mask =? 0).

Section Calls.
Context {M : Type} `{!Obj.Ext4Ops M} `{!HalMemory} (can_reserve : Z → bool) (loongarch : bool).
#[local] Hint Extern 0 (KernelEnv _ _ _) => exact (Kernel.kernel_env can_reserve) : typeclass_instances.

Abbreviation kstm := (stm (kernel M)).
Abbreviation read_user := (read_user can_reserve).
Abbreviation write_user := (write_user can_reserve).
Abbreviation read_user_cstr := (read_user_cstr can_reserve).
Abbreviation with_reader := (with_reader can_reserve).
Implicit Types (args : list Z).

Definition write_word (addr : Z) (n : nat) (x : Z) : kstm unit := write_user addr (to_le_bytes n x).
Definition unless_null (ptr : Z) (m : kstm unit) : kstm unit := if ptr =? 0 then mret tt else m.

(** ** Identity *)
Definition sys_getpid : kstm Z := ask_table current_tgid.
Definition sys_getppid : kstm Z := ask_table getppid.
Definition sys_gettid : kstm Z := ask_table current_tid_of.
Definition sys_getuid : kstm Z := p ← cur; mret (uid p).
Definition sys_geteuid : kstm Z := p ← cur; mret (euid p).
Definition sys_getgid : kstm Z := p ← cur; mret (gid p).
Definition sys_getegid : kstm Z := p ← cur; mret (egid p).
Definition sys_getpgid args : kstm Z := ask_table (fun t => getpgid t (arg args 0)).
Definition sys_setpgid args : kstm Z := _ ← on_table (setpgid (arg args 0) (arg args 1)); mret 0.
Definition sys_getsid args : kstm Z := ask_table (fun t => getsid t (arg args 0)).
Definition sys_setsid : kstm Z := on_table setsid_current.
Definition sys_setuid args : kstm Z := _ ← on_table (setuid_current (to_u32 (arg args 0))); mret 0.
Definition sys_setgid args : kstm Z := _ ← on_table (setgid_current (to_u32 (arg args 0))); mret 0.
Definition sys_setresuid args : kstm Z :=
  _ ← on_table (setresuid_current (parse_optional_uid (arg args 0)) (parse_optional_uid (arg args 1))); mret 0.
Definition sys_setresgid args : kstm Z :=
  _ ← on_table (setresgid_current (parse_optional_uid (arg args 0)) (parse_optional_uid (arg args 1))); mret 0.
Definition sys_setreuid args : kstm Z := sys_setresuid args.
Definition sys_setregid args : kstm Z := sys_setresgid args.

Definition sys_set_tid_address args : kstm Z := on_table (set_tid_address (arg args 0)).
Definition sys_set_robust_list args : kstm Z :=
  _ ← on_table (set_robust_list (arg args 0) (arg args 1)); mret 0.
Definition sys_get_robust_list args : kstm Z :=
  '(head, len) ← ask_table (fun t => get_robust_list t (arg args 0));
  _ ← unless_null (arg args 1) (write_word (arg args 1) 8 head);
  _ ← unless_null (arg args 2) (write_word (arg args 2) 8 len);
  mret 0.
Definition sys_sched_yield : kstm Z := _ ← yield_now; mret 0.
Definition sys_umask args : kstm Z := on_table (umask_current (to_u32 (arg args 0))).

(** ** Clone *)
Definition spawn_task (nm : string) (thread_id process : Z) : kstm unit := fun k =>
  match Sched.spawn (k_sched k) nm thread_id process with
  | Ok (_, s) => (Ok tt, with_sched s k)
  | Err e => (Err e, k)
  | Panic => (Panic, k)
  | Diverge => (Diverge, k)
  end.

(** The thread branch.  The child is made the current thread while its
    memory is written; an error in between returns without switching back. *)
Definition clone_thread (nm : string) (r : CloneRequest) : kstm Z :=
  k ← on_table (clone_thread_from_current (cl_stack r) (cl_tls r));
  _ ← (if has (cl_flags r) CLONE_PARENT_SETTID && negb (cl_parent_tid r =? 0)
       then write_word (cl_parent_tid r) 4 k else mret tt);
  me ← ask_table current_tid_of;
  _ ← on_table (set_current k);
  _ ← (if has (cl_flags r) CLONE_CHILD_SETTID && negb (cl_child_tid r =? 0)
       then write_word (cl_child_tid r) 4 k else mret tt);
  _ ← (if has (cl_flags r) CLONE_CHILD_CLEARTID && negb (cl_child_tid r =? 0)
       then on_table (set_clear_child_tid (Some (cl_child_tid r))) else mret tt);
  g ← ask_table current_tgid;
  _ ← on_table (set_current me);
  _ ← spawn_task nm k g;
  mret k.

Definition set_sepc (pc : Z) (f : TrapFrame) : TrapFrame :=
  mkFrame (regs f) pc (sstatus f) (scause f) (stval f) (fregs f) (fcsr f).

(** The child's side of a fork. *)
Definition fork_child (r : CloneRequest) (k : Z) : kstm unit :=
  parent ← cur;
  t ← ask_table Ok;
  c ← lift (ok_or (processes t !! k) ENOENT);
  let c := set_frame (set_retval 0 (set_sepc ((sepc (trap_frame parent) + 4) mod 2 ^ 64) (trap_frame c))) c in
  _ ← on_table (put_process k c);
  _ ← (if has (cl_flags r) CLONE_CHILD_SETTID && negb (cl_child_tid r =? 0)
       then on_kenv (try_write c (cl_child_tid r) (to_le_bytes 4 k)) else mret tt);
  if has (cl_flags r) CLONE_CHILD_CLEARTID && negb (cl_child_tid r =? 0)
  then on_table (put_process k (set_clear_tid (Some (cl_child_tid r)) c)) else mret tt.

Definition do_clone (r : CloneRequest) : kstm Z :=
  p ← cur;
  let flags := cl_flags r in
  if has flags CLONE_NAMESPACE_MASK then fail EINVAL
  else if has flags CLONE_THREAD then
    if Z.land flags CLONE_THREAD_REQUIRED =? CLONE_THREAD_REQUIRED then clone_thread (name p) r else fail EINVAL
  else
    k ← on_table (if has flags CLONE_VM then fork_process_from_current_shared else fork_process_from_current);
    _ ← (if has flags CLONE_PARENT_SETTID && negb (cl_parent_tid r =? 0)
         then write_word (cl_parent_tid r) 4 k else mret tt);
    _ ← fork_child r k;
    _ ← (if cl_stack r =? 0 then mret tt else on_table (set_thread_stack_pointer k (cl_stack r)));
    _ ← (if has flags CLONE_VFORK
         then me ← ask_table current_tid_of; _ ← on_table (set_vfork_parent_tid k me); block_current
         else mret tt);
    _ ← spawn_task (name p) k k;
    mret k.

Definition sys_clone args : kstm Z := do_clone (decode_clone_request_for_abi args (negb loongarch)).

(** The words of [clone_args]; those past the size given read as zero.  They
    are passed on in the register order of the generic ABI and decoded with
    that of the target. *)
Definition clone3_word (raw : list Z) (off : nat) : Z :=
  if (length raw <? off + 8)%nat then 0 else Locks.field off 8 raw.
Definition clone3_request (raw : list Z) : CloneRequest :=
  let w := clone3_word raw in
  let child_stack := if w 48%nat =? 0 then w 40%nat else saturating_add (w 40%nat) (w 48%nat) in
  decode_clone_request_for_abi
    [Z.lor (w 0%nat) (Z.land (w 32%nat) 0xff); child_stack; w 24%nat; w 16%nat; w 56%nat; 0] (negb loongarch).

Definition sys_clone3 args : kstm Z :=
  if (arg args 0 =? 0) || (arg args 1 <? 64) then fail EINVAL
  else raw ← read_user (arg args 0) (Z.min (arg args 1) 88); do_clone (clone3_request raw).

(** ** Exit and wait *)
Definition acct_v3_bytes (p : Process Obj.FileHandle Z) (code : Z) (now : Z) : list Z :=
  let comm := Vfs.bytes_of (default "" (last (Path.split (name p)))) in
  fill 64 [(0%nat, [0x20]); (1%nat, [3]); (4%nat, to_le_bytes 4 (Z.max code 0 * 256)); (8%nat, to_le_bytes 4 (uid p));
           (12%nat, to_le_bytes 4 (gid p)); (16%nat, to_le_bytes 4 (tgid p)); (20%nat, to_le_bytes 4 (default 0 (parent p)));
           (24%nat, to_le_bytes 4 now); (28%nat, to_le_bytes 4 0x3f800000); (48%nat, take 16 comm)].

(** The record of a finished process; failures are ignored. *)
Definition append_acct_record (p : Process Obj.FileHandle Z) (code : Z) : kstm unit :=
  k ← get;
  match k_acct k with
  | None => mret tt
  | Some path =>
      r ← attempt (on_vfs (Vfs.open "/" path (Z.lor Obj.O_CREAT Obj.O_RDWR) 0x1a4));
      match r with
      | inr _ => mret tt
      | inl h =>
          owning can_reserve h (
            st ← attempt (ask_vfs (fun v => Vfs.stat_handle v h));
            match st with
            | inr _ => mret tt
            | inl st => quietly (on_local (Obj.with_offset h (Obj.st_size st))
                          (Vfs.write can_reserve (acct_v3_bytes p code (Z.max (wall_time_now k).1 0))))
            end)
      end
  end.

Definition wake_each (ks : list Z) : kstm unit := _ ← on_sched (fun s => Sched.wake_tasks s ks); mret tt.
Definition on_futex {B} (f : gmap Z (list Z) → B * gmap Z (list Z)) : kstm B := on_table (fun t =>
  let '(b, m) := f (futex_waiters t) in (Ok b, with_futex m t)).

(** [sort_unstable], [dedup] and [flatten] of the two optional addresses. *)
Definition wake_addrs (a b : option Z) : list Z :=
  match a, b with
  | Some x, Some y => if x <? y then [x; y] else if y <? x then [y; x] else [x]
  | Some x, None | None, Some x => [x]
  | None, None => []
  end.

Definition sys_exit (exit_group : bool) args : kstm Z :=
  let code := to_i32 (arg args 0) in
  k ← get;
  x ← on_table (if exit_group then exit_current_process_group code else exit_current_thread code);
  let gone := te_group_exited x || exit_group in
  _ ← match current (k_table k) with
      | Ok p => if gone then append_acct_record p code else mret tt
      | _ => mret tt
      end;
  _ ← (if gone then clear_locks (Locks.clear_for_owner (te_tgid x)) else mret false);
  _ ← (if exit_group then on_sched (fun s => ((), (Sched.exit_group s (te_tgid x)).2))
       else
         _ ← on_sched (fun s => ((), (Sched.remove_task s (te_tid x)).2));
         if te_group_exited x then on_sched (fun s => ((), (Sched.exit_group s (te_tgid x)).2)) else mret tt);
  _ ← match te_parent_tgid x with
      | Some g => _ ← on_table (notify_parent (Some g)); _ ← wake_process_group_threads g; mret tt
      | None => mret tt
      end;
  _ ← (if exit_group then mret tt
       else each (wake_addrs (te_clear_child_tid x) (te_tid_address x)) (fun addr =>
              ks ← on_futex (wake_futex addr USIZE_MAX); wake_each ks));
  mret 0.

Definition sys_wait args : kstm Z :=
  let status_ptr := arg args 1 in
  parent ← ask_table current_tgid;
  g ← ask_table (fun t => getpgid t 0);
  sel ← lift (selector_from_wait (to_i32 (arg args 0)) g);
  '(child, status) ← on_table (wait_child parent sel);
  if child =? 0 then
    if has (to_u32 (arg args 2)) 1 then mret 0 else _ ← block_current; fail EAGAIN
  else
    _ ← unless_null status_ptr (write_word status_ptr 4 status);
    mret child.

(** ** Signals *)
(** [clear_futex_wait_state] and [wake_task] of a signalled thread. *)
Definition interrupt (k : Z) : kstm unit :=
  _ ← on_table (modify (clear_futex_wait_state k));
  _ ← wake_task k;
  mret tt.
Definition interrupt_all (signal : Z) (ks : list Z) : kstm Z :=
  _ ← (if signal =? 0 then mret tt else each ks interrupt); mret 0.

Definition sys_kill args : kstm Z :=
  let target := Obj.as_isize (arg args 0) in
  let signal := arg args 1 in
  if 64 <? signal then fail EINVAL
  else if target =? - 2 ^ 63 then fail EINVAL
  else if 0 <? target then k ← on_table (send_signal_tid target signal); interrupt_all signal [k]
  else if target =? 0 then
    g ← ask_table current_pgid;
    ks ← on_table (send_signal_pgid g signal None);
    interrupt_all signal ks
  else if target =? -1 then ks ← on_table (send_signal_all signal None false); interrupt_all signal ks
  else ks ← on_table (send_signal_pgid (- target) signal None); interrupt_all signal ks.

(** The snapshot lists the first 4096 live threads. *)
Definition snapshot_has (t : PTable.table Obj.FileHandle Z (Kernel.kenv M)) (g k : Z) : bool :=
  existsb (fun p => (tid p =? k) && (tgid p =? g))
    (take 4096 (List.filter (fun p => negb (bool_decide (state p = Exited))) (procs t))).

Definition sys_tgkill args : kstm Z :=
  let g := arg args 0 in
  let k := arg args 1 in
  let signal := arg args 2 in
  if 64 <? signal then fail EINVAL
  else if (g =? 0) || (k =? 0) then fail EINVAL
  else
    t ← ask_table Ok;
    if snapshot_has t g k then k ← on_table (send_signal_exact_tid k signal); interrupt_all signal [k]
    else fail ESRCH.

Definition sys_sigaction args : kstm Z :=
  let signal := arg args 0 in
  _ ← unless_null (arg args 2) (
        a ← ask_table (fun t => sigaction t signal); write_user (arg args 2) (sigaction_to_bytes a));
  _ ← unless_null (arg args 1) (
        a ← with_reader (fun rd _ => read_sigaction rd (arg args 1)); on_table (set_sigaction signal a));
  mret 0.

Definition sys_sigprocmask args : kstm Z :=
  let size := Z.max (arg args 3) 8 in
  p ← cur;
  _ ← unless_null (arg args 2) (write_user (arg args 2) (mask_to_bytes (signal_mask p) size));
  _ ← unless_null (arg args 1) (
        new_mask ← with_reader (fun rd _ => read_mask rd (arg args 1) size);
        let how := arg args 0 in
        if how =? 0 then on_table (set_signal_mask (Z.lor (signal_mask p) new_mask))
        else if how =? 1 then on_table (set_signal_mask (andnot64 (signal_mask p) new_mask))
        else if how =? 2 then on_table (set_signal_mask new_mask)
        else fail EINVAL);
  mret 0.

Definition set_deadline (d : option Z) (p : Process Obj.FileHandle Z) : Process Obj.FileHandle Z :=
  set_sleep d (sleep_requested_ns p) (sleep_remain_ptr p) (sleep_absolute p) p.

Definition sys_rt_sigtimedwait args : kstm Z :=
  let timeout_ptr := arg args 2 in
  if negb (arg args 3 =? 8) then fail EINVAL
  else
    bs ← read_user (arg args 0) 8;
    let wait_mask := from_le_bytes bs in
    p ← cur;
    k ← get;
    let matching := Z.land (pending_signals p) wait_mask in
    if negb (matching =? 0) then
      let signal := trailing_zeros 64 matching + 1 in
      _ ← update_cur (fun p => set_deadline None (set_pending (andnot64 (pending_signals p) (bit64 (signal - 1))) p));
      _ ← unless_null (arg args 1) (write_user (arg args 1) (fill 128 [(0%nat, [signal])]));
      mret signal
    else if negb (andnot64 (pending_signals p) (signal_mask p) =? 0) then
      _ ← update_cur (set_deadline None); fail EINTR
    else
      deadline ← match sleep_deadline_ns p with
                 | Some d => mret d
                 | None =>
                     d ← (if timeout_ptr =? 0 then mret U64_MAX
                          else
                            requested ← with_reader (fun rd _ => read_timespec_ns rd timeout_ptr);
                            if requested =? 0 then fail EAGAIN else mret (saturating_add (k_nanos k) requested));
                     _ ← update_cur (fun p => set_sleep (Some d) (sleep_requested_ns p) (sleep_remain_ptr p) false p);
                     mret d
                 end;
      if k_nanos k <? deadline then _ ← block_current; fail EAGAIN
      else _ ← update_cur (set_deadline None); fail EAGAIN.

Definition sys_sigaltstack args : kstm Z :=
  stack ← (if arg args 0 =? 0 then mret None
           else s ← with_reader (fun rd _ => read_stack_t rd (arg args 0)); mret (Some s));
  previous ← on_table (set_sigaltstack stack);
  _ ← unless_null (arg args 1) (write_user (arg args 1) (stack_t_to_bytes (default (0, 0, 2) previous)));
  mret 0.

Definition sys_rt_sigsuspend args : kstm Z :=
  p ← cur;
  let polling := Path.contains_str (name p) "busybox" && String.eqb (cwd p) "/musl" in
  _ ← match sigsuspend_saved_mask p with
      | Some _ => mret tt
      | None =>
          new_mask ← (if arg args 0 =? 0 then mret 0
                      else with_reader (fun rd _ => read_mask rd (arg args 0) (Z.max (arg args 1) 8)));
          update_cur (fun p => set_mask new_mask (set_sigsuspend (Some (signal_mask p)) p))
      end;
  unmasked ← ask_table pending;
  if negb (unmasked =? 0) then
    let signum := trailing_zeros 64 unmasked + 1 in
    _ ← (if signum <? 32 then quietly (on_table (clear_pending_signal signum)) else mret tt);
    _ ← update_cur (fun p => match sigsuspend_saved_mask p with
                             | Some m => set_sigsuspend None (set_mask m p)
                             | None => p
                             end);
    fail EINTR
  else
    _ ← (if polling then yield_now else block_current);
    fail EAGAIN.

Definition sys_rt_sigpending args : kstm Z :=
  unmasked ← ask_table pending;
  _ ← write_user (arg args 0) (mask_to_bytes unmasked (Z.max (arg args 1) 8));
  mret 0.

(** The saved context, at [UCONTEXT_OFF] = 128 of the frame: the mask at 168,
    the program counter and the general registers from 296, the floating
    registers from 552 and [fcsr] at 808. *)
Definition words (off count : nat) (frame : list Z) : list Z :=
  (fun i => Locks.field (off + 8 * i) 8 frame) <$> seq 0 count.
Definition restore_frame (frame : list Z) (f : TrapFrame) : TrapFrame :=
  mkFrame (take 1 (regs f) ++ words 304 31 frame) (Locks.field 296 8 frame) (sstatus f) (scause f) (stval f)
    (if loongarch then fregs f else words 552 32 frame) (if loongarch then fcsr f else Locks.field 808 4 frame).

Definition sys_rt_sigreturn : kstm Z :=
  p ← err_as ESRCH cur;
  frame ← read_user (default 0 (regs (trap_frame p) !! 2%nat)) 816;
  _ ← update_cur (fun p =>
        set_frame (restore_frame frame (trap_frame p))
          (arm_cancellation_persistent (set_frame_pending false (set_mask (Locks.field 168 8 frame) p))));
  p ← cur;
  mret (default 0 (regs (trap_frame p) !! 10%nat)).

(** ** Futexes *)
Definition is_libcbench_task (p : Process Obj.FileHandle Z) : bool := Path.contains_str (name p) "libc-bench".

(** The test for a signal that must interrupt a futex wait. *)
Definition must_interrupt (p : Process Obj.FileHandle Z) : bool :=
  negb (andnot64 (andnot64 (pending_signals p) (signal_mask p)) (bit64 (SIGCANCEL - 1)) =? 0) ||
  signal_frame_pending p || cancellation_in_progress p.

Definition futex_interrupted (clear : bool) : kstm Z :=
  p ← cur;
  let n := Z.min (eintr_count p + 1) U32_MAX in
  _ ← update_cur (fun p => set_futex_wait (futex_wait_addr p) (futex_wait_deadline_ns p) n p);
  _ ← (if clear then on_table (modify (clear_futex_wait_state (tid p))) else mret tt);
  if 1000 <=? n then _ ← update_cur (set_force_exit true); _ ← block_current; fail EAGAIN
  else fail EINTR.

(** A wait that was not in progress: compare the word and queue up. *)
Definition futex_wait_fresh (uaddr val timeout_ptr : Z) : kstm Z :=
  p ← cur;
  if must_interrupt p then futex_interrupted false
  else
    word ← with_reader (fun rd _ => read_i32 rd uaddr);
    if negb (word =? val) then fail EAGAIN
    else
      k ← get;
      deadline ← (if timeout_ptr =? 0 then mret U64_MAX
                  else n ← with_reader (fun rd _ => read_timespec_ns rd timeout_ptr);
                       mret (saturating_add (k_nanos k) n));
      _ ← on_futex (fun m => ((), enqueue_futex_waiter uaddr (tid p) m));
      _ ← update_cur (fun p => set_futex_wait (Some uaddr) (Some deadline) (eintr_count p) p);
      _ ← block_current;
      fail EAGAIN.

(** The call is restarted after a wake-up; the process remembers the wait. *)
Definition futex_wait (uaddr val timeout_ptr : Z) : kstm Z :=
  p ← cur;
  k ← get;
  match futex_wait_addr p, futex_wait_deadline_ns p with
  | Some wait_addr, Some deadline =>
      if wait_addr =? uaddr then
        if must_interrupt p then futex_interrupted (negb (cancellation_in_progress p))
        else if negb (is_futex_waiting wait_addr (tid p) (futex_waiters (k_table k))) then
          _ ← on_table (modify (clear_futex_wait_state (tid p))); mret 0
        else if negb (deadline =? U64_MAX) && (deadline <=? k_nanos k) then
          _ ← on_table (modify (clear_futex_wait_state (tid p))); fail ETIMEDOUT
        else _ ← block_current; fail EAGAIN
      else
        _ ← on_table (modify (clear_futex_wait_state (tid p)));
        futex_wait_fresh uaddr val timeout_ptr
  | _, _ => futex_wait_fresh uaddr val timeout_ptr
  end.

(** Wake the removed waiters; the benchmark task then gives up the CPU. *)
Definition futex_wake_at (uaddr count : Z) : kstm Z :=
  ks ← on_futex (wake_futex uaddr count);
  _ ← wake_each ks;
  k ← get;
  _ ← (if match current (k_table k) with Ok p => is_libcbench_task p | _ => false end &&
          negb (zlen ks =? 0) && negb (zlen (Sched.ready (k_sched k)) =? 0)
       then yield_now else mret tt);
  mret (zlen ks).

Definition futex_requeue args : kstm Z :=
  ks ← on_futex (requeue_futex (arg args 0) (arg args 4) (Z.max (to_i32 (arg args 2)) 0) (arg args 3));
  _ ← wake_each ks;
  mret (zlen ks).

(** The word operation and comparison of FUTEX_WAKE_OP, decoded from the
    fourth register. *)
Definition wake_op_value (op oldval oparg : Z) : option Z :=
  if op =? 0 then Some oparg
  else if op =? 1 then Some (as_i32 (oldval + oparg))
  else if op =? 2 then Some (Z.lor oldval oparg)
  else if op =? 3 then Some (Z.ldiff oldval oparg)
  else if op =? 4 then Some (Z.lxor oldval oparg)
  else None.
Definition wake_op_test (cmp oldval cmparg : Z) : option bool :=
  if cmp =? 0 then Some (oldval =? cmparg)
  else if cmp =? 1 then Some (negb (oldval =? cmparg))
  else if cmp =? 2 then Some (oldval <? cmparg)
  else if cmp =? 3 then Some (oldval <=? cmparg)
  else if cmp =? 4 then Some (cmparg <? oldval)
  else if cmp =? 5 then Some (cmparg <=? oldval)
  else None.

Definition futex_wake_op args : kstm Z :=
  let uaddr2 := arg args 4 in
  let val3 := to_u32 (arg args 3) in
  oldval ← with_reader (fun rd _ => read_i32 rd uaddr2);
  newval ← lift (ok_or (wake_op_value (Z.shiftr val3 28) oldval (Z.land (Z.shiftr val3 12) 0xfff)) EINVAL);
  _ ← write_word uaddr2 4 newval;
  woke ← futex_wake_at (arg args 0) (Z.max (to_i32 (arg args 2)) 0);
  test ← lift (ok_or (wake_op_test (Z.land (Z.shiftr val3 24) 0xf) oldval (Z.land val3 0xfff)) EINVAL);
  if (test : bool) then woke2 ← futex_wake_at uaddr2 (arg args 5); lift (uadd woke woke2)
  else mret woke.

Definition sys_futex args : kstm Z :=
  let uaddr := arg args 0 in
  let op := Z.land (arg args 1) 0x7f in
  let val := to_i32 (arg args 2) in
  if (op =? 0) || (op =? 9) then futex_wait uaddr val (arg args 3)
  else if (op =? 1) || (op =? 10) then futex_wake_at uaddr (Z.max val 0)
  else if op =? 3 then futex_requeue args
  else if op =? 4 then
    word ← with_reader (fun rd _ => read_i32 rd uaddr);
    if negb (word =? to_i32 (arg args 5)) then fail EAGAIN else futex_requeue args
  else if op =? 5 then futex_wake_op args
  else fail ENOSYS.

(** ** Time *)
Definition sys_clock_gettime args : kstm Z :=
  k ← get;
  let '(sec, nsec) := if arg args 0 =? 0 then wall_time_now k else k_time k in
  _ ← write_user (arg args 1) (timespec_to_bytes sec nsec);
  mret 0.
Definition sys_gettimeofday args : kstm Z :=
  k ← get;
  let '(sec, nsec) := wall_time_now k in
  _ ← write_user (arg args 0) (timeval_bytes sec nsec);
  mret 0.
Definition sys_clock_getres args : kstm Z := _ ← write_user (arg args 1) (timespec_to_bytes 0 1000); mret 0.
Definition sys_times args : kstm Z :=
  _ ← unless_null (arg args 0) (write_user (arg args 0) (replicate 32 0));
  k ← get;
  mret (Z.max (k_time k).1 0).

Definition sys_getitimer args : kstm Z :=
  if negb (arg args 0 =? 0) then fail EINVAL
  else
    p ← cur;
    k ← get;
    let remain := match itimer_real_deadline_ns p with Some d => saturating_sub d (k_nanos k) | None => 0 end in
    _ ← write_user (arg args 1) (itimerval_bytes remain (itimer_real_interval_ns p));
    mret 0.

(** What is reported of the old timer: a request in whole seconds, as
    [alarm] makes it, gets the remaining time rounded up. *)
Definition reported_remain (old_remain interval value : Z) : Z :=
  if (interval =? 0) && (value mod 1000000000 =? 0) && negb (old_remain =? 0) then
    if old_remain mod 1000000000 =? 0 then old_remain
    else saturating_mul (saturating_add (old_remain / 1000000000) 1) 1000000000
  else old_remain.

Definition sys_setitimer args : kstm Z :=
  if negb (arg args 0 =? 0) || (arg args 1 =? 0) then fail EINVAL
  else
    k ← get;
    raw ← read_user (arg args 1) 32;
    o ← lift (read_timeval_ns (take 16 raw));
    interval ← lift (ok_or o EINVAL);
    o ← lift (read_timeval_ns (take 16 (drop 16 raw)));
    value ← lift (ok_or o EINVAL);
    p ← cur;
    let old_remain := match itimer_real_deadline_ns p with Some d => saturating_sub d (k_nanos k) | None => 0 end in
    _ ← unless_null (arg args 2) (write_user (arg args 2)
          (itimerval_bytes (reported_remain old_remain interval value) (itimer_real_interval_ns p)));
    _ ← on_table (set_itimer_real_current (if value =? 0 then None else Some (saturating_add (k_nanos k) value)) interval);
    mret 0.

(** ** Sleeping *)
Definition end_sleep : kstm unit := update_cur (set_sleep None 0 None false).

(** On loongarch64 the call spins until the clock reaches the deadline;
    nothing else runs meanwhile, so no signal can arrive. *)
Definition sleep_or_finish (now deadline : Z) (remain : option Z) : kstm Z :=
  if (now <? deadline) && negb loongarch then _ ← block_current; fail EAGAIN
  else
    _ ← match remain with Some ptr => write_user ptr (timespec_to_bytes 0 0) | None => mret tt end;
    _ ← end_sleep;
    mret 0.

Definition interrupt_sleep (now deadline requested : Z) (remain : option Z) : kstm Z :=
  _ ← match remain with
      | Some ptr => write_user ptr (nanos_to_timespec_bytes (Z.min (saturating_sub deadline now) requested))
      | None => mret tt
      end;
  _ ← end_sleep;
  fail EINTR.

Definition null_opt (ptr : Z) : option Z := if ptr =? 0 then None else Some ptr.

Definition nanosleep_running (now : Z) : kstm Z :=
  p ← cur;
  let deadline := default now (sleep_deadline_ns p) in
  deadline ← match itimer_real_deadline_ns p with
             | Some d =>
                 if d <=? now then
                   g ← ask_table current_tgid;
                   _ ← on_table (consume_itimer_real_expiry g now);
                   _ ← quietly (on_table (send_signal g 14));
                   mret deadline
                 else mret (Z.min deadline d)
             | None => mret deadline
             end;
  unmasked ← ask_table pending;
  if negb (unmasked =? 0) then interrupt_sleep now deadline (sleep_requested_ns p) (sleep_remain_ptr p)
  else sleep_or_finish now deadline (sleep_remain_ptr p).

Definition sys_nanosleep args : kstm Z :=
  let req_ptr := arg args 0 in
  let rem_ptr := arg args 1 in
  if req_ptr =? 0 then fail EFAULT
  else
    k ← get;
    let now := k_nanos k in
    p ← cur;
    match sleep_deadline_ns p with
    | Some _ => nanosleep_running now
    | None =>
        requested ← with_reader (fun rd _ => read_timespec_ns rd req_ptr);
        if requested =? 0 then
          _ ← unless_null rem_ptr (write_user rem_ptr (timespec_to_bytes 0 0)); mret 0
        else
          let deadline := saturating_add now requested in
          let deadline := match itimer_real_deadline_ns p with Some d => Z.min deadline d | None => deadline end in
          _ ← update_cur (set_sleep (Some deadline) requested (null_opt rem_ptr) false);
          nanosleep_running now
    end.

Definition sys_clock_nanosleep args : kstm Z :=
  let req_ptr := arg args 2 in
  if req_ptr =? 0 then fail EFAULT
  else
    k ← get;
    let now := k_nanos k in
    unmasked ← ask_table pending;
    p ← cur;
    _ ← match sleep_deadline_ns p with
        | Some _ => mret tt
        | None =>
            requested ← with_reader (fun rd _ => read_timespec_ns rd req_ptr);
            let absolute := has (arg args 1) 1 in
            update_cur (set_sleep (Some (if absolute then requested else saturating_add now requested)) requested
                          (null_opt (arg args 3)) absolute)
        end;
    p ← cur;
    let deadline := default now (sleep_deadline_ns p) in
    let remain := if sleep_absolute p then None else sleep_remain_ptr p in
    if negb (unmasked =? 0) then interrupt_sleep now deadline (sleep_requested_ns p) remain
    else sleep_or_finish now deadline remain.

(** ** Accounting and information *)
Definition sys_acct args : kstm Z :=
  p ← cur;
  if negb (euid p =? 0) then fail EPERM
  else if arg args 0 =? 0 then _ ← modify (with_acct None); mret 0
  else
    path ← read_user_cstr (arg args 0);
    if 4096 <? Vfs.str_len path then fail ENAMETOOLONG
    else
      let is_dir := fun st => Z.land (Obj.st_mode st) 0xf000 =? 0x4000 in
      st ← ask_vfs (fun v => Vfs.stat_path v (cwd p) path);
      st ← (if Path.ends_with path "/" then
              st ← ask_vfs (fun v => Vfs.stat_path v (cwd p) (Path.trim_end path));
              if is_dir st then mret st else fail ENOTDIR
            else mret st);
      v ← get_vfs;
      if is_dir st then fail EISDIR
      else if negb (Z.land (Obj.st_mode st) 0xf000 =? 0x8000) then fail EACCES
      else if has (Vfs.mount_flags_for_path v (cwd p) path) 1 then fail EROFS
      else _ ← modify (with_acct (Some (Path.normalize_path (cwd p) path))); mret 0.

Definition sys_uname args : kstm Z := _ ← write_user (arg args 0) (uname_bytes (negb loongarch)); mret 0.
Definition sys_getrusage args : kstm Z := _ ← write_user (arg args 1) (replicate 128 0); mret 0.
Definition syslog_message : list Z := Vfs.bytes_of ("whuse kernel log buffer" +:+ Vfs.line_feed).
Definition sys_syslog args : kstm Z :=
  let action := arg args 0 in
  if action =? 10 then mret (zlen syslog_message)
  else if action =? 3 then
    let bs := Obj.ztake (arg args 2) syslog_message in
    _ ← write_user (arg args 1) bs;
    mret (zlen bs)
  else mret 0.
Definition sys_getpriority : kstm Z := mret 20.
Definition sys_prctl : kstm Z := mret 0.
Definition sys_unshare : kstm Z := mret 0.

Definition sys_membarrier args : kstm Z :=
  let cmd := arg args 0 in
  if negb (arg args 1 =? 0) then fail EINVAL
  else if cmd =? 0 then mret 0x1f8
  else if existsb (Z.eqb cmd) [8; 16; 32; 64; 128; 256] then mret 0
  else fail EINVAL.

Definition sys_getgroups args : kstm Z :=
  p ← cur;
  let size := arg args 0 in
  if size =? 0 then mret (zlen (groups p))
  else if size <? zlen (groups p) then fail EINVAL
  else _ ← write_user (arg args 1) (flat_map (to_le_bytes 4) (groups p)); mret (zlen (groups p)).
Definition sys_setgroups args : kstm Z :=
  n ← lift (umul (arg args 0) 4);
  raw ← read_user (arg args 1) n;
  _ ← on_table (setgroups_current (read_chunks 4 from_le_bytes (Z.to_nat (arg args 0)) raw));
  mret 0.

End Calls.
End SysProc.
