(* ===== verification/SysMem.v ===== *)
(** * System calls on memory (crates/syscall/src/lib.rs)

    The calls of [mm_domain] and the shared-memory calls of [ipc_domain].
    [heap] is the address at which the kernel heap places the buffer of a
    shared mapping. *)

From S2P Require Import Prelude Task AddrSpace Path FileObject Vfs Process KernelEnv ProcTable Locks Abi Sys.

Open Scope string_scope.
Open Scope list_scope.
Open Scope Z_scope.

Module SysMem.
Import Proc PTable Abi Sys.

Definition EEXIST : Z := 17.
Definition EIDRM : Z := 43.
Definition MAP_SHARED : Z := 1.
Definition MAP_PRIVATE : Z := 2.
Definition MAP_FIXED : Z := 0x10.
Definition MAP_ANONYMOUS : Z := 0x20.
Definition MAP_FIXED_NOREPLACE : Z := 0x100000.
Definition has (flags mask : Z) : bool := negb (Z.land flags mask =? 0).

Section Calls.
Context {M : Type} `{!Obj.Ext4Ops M} `{!HalMemory} (can_reserve : Z → bool) (heap : kernel M → Z).
#[local] Hint Extern 0 (KernelEnv _ _ _) => exact (Kernel.kernel_env can_reserve) : typeclass_instances.

Abbreviation kstm := (stm (kernel M)).
Implicit Types (args : list Z).

(** [procs.current_mut()?.address_space.method(..)] *)
Definition on_space {B} (m : stm Mm.space B) : kstm B :=
  p ← cur; on_kenv (Kernel.run_space (address_space p) m).
Definition ask_space {B} (f : Mm.space → outcome B) : kstm B := on_space (fun s => (f s, s)).
Definition fresh_buffer : kstm Z := k ← get; mret (heap k).

Definition sys_brk args : kstm Z :=
  on_space (Mm.brk can_reserve (if arg args 0 =? 0 then None else Some (arg args 0))).

(** The address a mapping is wanted at. *)
Definition mmap_target (addr flags aligned_len : Z) : kstm (option Z) :=
  let fixed := has flags MAP_FIXED in
  let noreplace := has flags MAP_FIXED_NOREPLACE in
  let aligned := Z.land addr (unot 0xfff) in
  if fixed || noreplace || negb (addr =? 0) then
    if (fixed || noreplace) && negb (aligned =? addr) then fail EINVAL
    else
      _ ← (if noreplace
           then free ← ask_space (fun s => Mm.is_range_available s aligned aligned_len);
                if (free : bool) then mret tt else fail EEXIST
           else mret tt);
      if fixed || noreplace then mret (Some aligned)
      else
        free ← ask_space (fun s => Mm.is_range_available s aligned aligned_len);
        mret (if (free : bool) then Some aligned else None)
  else mret None.

Definition map_fresh (shared : bool) (aligned_len prot : Z) : kstm Z :=
  buf ← fresh_buffer;
  on_space (if shared then Mm.map_anonymous_shared can_reserve buf aligned_len prot
            else Mm.map_anonymous can_reserve aligned_len prot).

Definition sys_mmap args : kstm Z :=
  let addr := arg args 0 in
  let len := arg args 1 in
  let prot := arg args 2 in
  let flags := arg args 3 in
  let fd := Obj.as_isize (arg args 4) in
  let offset := arg args 5 in
  let mapping_type := Z.land flags 0xf in
  if len =? 0 then fail EINVAL
  else if negb (Z.land offset 0xfff =? 0) then fail EINVAL
  else if negb (mapping_type =? MAP_PRIVATE) && negb (mapping_type =? MAP_SHARED) then fail EINVAL
  else
    padded ← lift (ok_or (checked_add len 0xfff) EINVAL);
    let aligned_len := Z.land padded (unot 0xfff) in
    let shared := mapping_type =? MAP_SHARED in
    target ← mmap_target addr flags aligned_len;
    buf ← fresh_buffer;
    if has flags MAP_ANONYMOUS then
      match (target : option Z) with
      | Some a => on_space (if shared then Mm.map_anonymous_shared_at can_reserve buf a aligned_len prot
                            else Mm.map_anonymous_at can_reserve a aligned_len prot)
      | None => map_fresh shared aligned_len prot
      end
    else if fd <? 0 then fail EBADF
    else
      with_clone can_reserve (to_i32 fd) (fun h =>
        '(data, _) ← on_local (Obj.with_offset h offset) (Vfs.read len);
        match (target : option Z) with
        | Some a =>
            _ ← on_space (if shared then Mm.map_fixed_shared_bytes can_reserve buf a data aligned_len prot
                          else Mm.map_fixed_bytes can_reserve a data aligned_len prot);
            mret a
        | None =>
            base ← map_fresh shared aligned_len prot;
            _ ← write_user can_reserve base data;
            mret base
        end).

Definition sys_munmap args : kstm Z := _ ← on_space (Mm.unmap (arg args 0) (arg args 1)); mret 0.
Definition sys_mprotect args : kstm Z :=
  _ ← on_space (Mm.mprotect (arg args 0) (arg args 1) (arg args 2)); mret 0.

Definition sys_mremap args : kstm Z :=
  let old_addr := arg args 0 in
  let old_len := arg args 1 in
  let new_len := arg args 2 in
  bytes ← read_user can_reserve old_addr (Z.min old_len new_len);
  new_addr ← on_space (Mm.map_anonymous can_reserve new_len 3);
  _ ← write_user can_reserve new_addr bytes;
  _ ← on_space (Mm.unmap old_addr old_len);
  mret new_addr.

Definition sys_prlimit64 args : kstm Z :=
  _ ← (if arg args 3 =? 0 then mret tt
       else write_user can_reserve (arg args 3) (to_le_bytes 8 USIZE_MAX ++ to_le_bytes 8 USIZE_MAX));
  mret 0.

(** The repeating pattern of [getrandom]. *)
Definition random_pattern : list Z := to_le_bytes 8 0x42494c474b435546.
Definition sys_getrandom args : kstm Z :=
  let len := arg args 1 in
  _ ← write_user can_reserve (arg args 0)
        ((fun i => nth (Z.to_nat (i mod 8)) random_pattern 0) <$> seqZ 0 len);
  mret len.

(** ** Shared memory segments *)
Definition shm : kstm SharedMemoryState := k ← get; mret (k_shm k).
Definition put_shm (s : SharedMemoryState) : kstm unit := modify (with_shm s).
Definition put_segments (m : gmap Z ShmSegment) (s : SharedMemoryState) : SharedMemoryState :=
  mkShmState (shm_next_id s) (shm_keys s) m.

Definition sys_shmget args : kstm Z :=
  let key := to_i32 (arg args 0) in
  let size := arg args 1 in
  s ← shm;
  match (if key =? 0 then None else shm_keys s !! key) with
  | Some id => if has (arg args 2) 0x8000 then fail EEXIST else mret id
  | None =>
      let id := shm_next_id s in
      next ← lift (uadd id 1);
      buf ← fresh_buffer;
      let len := Z.max size 1 in
      if negb (can_reserve len) then lift Panic
      else
        _ ← on_kenv (modify (fun e => Kernel.mkEnv (Kernel.k_spaces e) (Kernel.k_next e)
                (write_mem (Kernel.k_mem e) buf (replicate (Z.to_nat len) 0)) (Kernel.k_vfs e)));
        _ ← put_shm (mkShmState next (if key =? 0 then shm_keys s else <[key := id]> (shm_keys s))
                (<[id := mkShmSegment (buf, len) key 0 0 [] false]> (shm_segments s)));
        mret id
  end.

(** The segment is mapped at the address given by its length, and the call
    returns 0. *)
Definition sys_shmat args : kstm Z :=
  let id := arg args 0 in
  s ← shm;
  seg ← lift (ok_or (shm_segments s !! id) ENOENT);
  if sg_destroyed seg && (sg_attach_count seg =? 0) then fail EIDRM
  else
    addr ← on_space (Mm.map_shared_existing (sg_data seg).2 (sg_data seg) 3);
    n ← lift (uadd (sg_attach_count seg) 1);
    _ ← put_shm (put_segments (<[id := mkShmSegment (sg_data seg) (sg_key seg) (sg_creator_pid seg) n
            (sg_attachments seg ++ [addr]) (sg_destroyed seg)]> (shm_segments s)) s);
    k ← get;
    let data := read_mem (Kernel.k_mem (env (k_table k))) (sg_data seg).1 (sg_data seg).2 in
    _ ← on_space (Mm.write_bytes addr data);
    mret 0.

Definition shm_destroy (id : Z) (seg : ShmSegment) (s : SharedMemoryState) : SharedMemoryState :=
  mkShmState (shm_next_id s) (if sg_key seg =? 0 then shm_keys s else delete (sg_key seg) (shm_keys s))
    (if sg_attach_count seg =? 0 then delete id (shm_segments s)
     else <[id := mkShmSegment (sg_data seg) (sg_key seg) (sg_creator_pid seg) (sg_attach_count seg)
              (sg_attachments seg) true]> (shm_segments s)).

Definition sys_shmctl args : kstm Z :=
  let id := arg args 0 in
  let cmd := to_i32 (arg args 1) in
  let buf := arg args 2 in
  s ← shm;
  if cmd =? 0 then
    seg ← lift (ok_or (shm_segments s !! id) ENOENT);
    _ ← put_shm (shm_destroy id seg s);
    mret 0
  else if cmd =? 2 then
    if buf =? 0 then fail EFAULT
    else
      seg ← lift (ok_or (shm_segments s !! id) ENOENT);
      _ ← write_user can_reserve buf
            (flat_map (to_le_bytes 8) [(sg_data seg).2; sg_attach_count seg; sg_creator_pid seg; 0; 0; 0; 0; 0; 0; 0]);
      mret 0
  else fail EINVAL.

(** [retain] over the remaining segments. *)
Definition shm_retain (m : gmap Z ShmSegment) : gmap Z ShmSegment :=
  filter (fun '(_, s) => (0 <? sg_attach_count s) || negb (sg_destroyed s) = true) m.

Definition attached_at (addr : Z) (seg : ShmSegment) : bool := existsb (Z.eqb addr) (sg_attachments seg).

Definition sys_shmdt args : kstm Z :=
  let addr := arg args 0 in
  s ← shm;
  match find_first (fun '(_, seg) => attached_at addr seg) (items (shm_segments s)) with
  | None => fail EINVAL
  | Some (id, seg) =>
      _ ← on_space (Mm.unmap addr (sg_data seg).2);
      let n := saturating_sub (sg_attach_count seg) 1 in
      let pos := default O (position (Z.eqb addr) (sg_attachments seg)) in
      let seg' := mkShmSegment (sg_data seg) (sg_key seg) (sg_creator_pid seg) n
                    (take pos (sg_attachments seg) ++ drop (S pos) (sg_attachments seg)) (sg_destroyed seg) in
      let m := <[id := seg']> (shm_segments s) in
      _ ← put_shm (put_segments (if sg_destroyed seg && (n =? 0) then shm_retain m else m) s);
      mret 0
  end.

End Calls.
End SysMem.
