(* ===== verification/SysNet.v ===== *)
(** * System calls on sockets and readiness (crates/syscall/src/lib.rs)

    The calls of [net_domain] and [io_mpx_domain], the descriptor-making
    calls of [sys_domain] and the clock adjustment. *)

From S2P Require Import Prelude Task AddrSpace Path FileObject Vfs Process KernelEnv ProcTable Locks Abi Sys.

Open Scope string_scope.
Open Scope list_scope.
Open Scope Z_scope.

Module SysNet.
Import Proc PTable Abi Sys.

Definition EPROTOTYPE : Z := 91.
Definition EPROTONOSUPPORT : Z := 93.
Definition O_NONBLOCK : Z := 0x800.
Definition O_CLOEXEC : Z := 0x80000.
Definition SOL_IPV6 : Z := 41.
Definition IPPROTO_ICMPV6 : Z := 58.
Definition has (flags mask : Z) : bool := negb (Z.land flags mask =? 0).

Section Calls.
Context {M : Type} `{!Obj.Ext4Ops M} `{!HalMemory} (can_reserve : Z → bool).
#[local] Hint Extern 0 (KernelEnv _ _ _) => exact (Kernel.kernel_env can_reserve) : typeclass_instances.

Abbreviation kstm := (stm (kernel M)).
Abbreviation read_user := (read_user can_reserve).
Abbreviation write_user := (write_user can_reserve).
Abbreviation with_reader := (with_reader can_reserve).
Implicit Types (args : list Z).

Definition unless_null (ptr : Z) (m : kstm unit) : kstm unit := if ptr =? 0 then mret tt else m.

(** ** Readiness *)
Definition read_ready (h : Obj.FileHandle) : kstm bool := ask_vfs (fun v => Obj.poll_read_ready (Vfs.vstore v) h).
Definition write_ready (h : Obj.FileHandle) : kstm bool := ask_vfs (fun v => Obj.poll_write_ready (Vfs.vstore v) h).

Definition POLLIN : Z := 1.
Definition POLLOUT : Z := 4.
Definition POLLERR : Z := 8.
Definition POLLHUP : Z := 16.

(** What [ppoll] reports of one descriptor. *)
Definition poll_events (events : Z) (readable writable : bool) : Z :=
  let r := Z.lor (if has events POLLIN && readable then POLLIN else 0)
                 (if has events POLLOUT && writable then POLLOUT else 0) in
  let r := if readable && negb writable then Z.lor r POLLHUP else r in
  if (r =? 0) && has events (Z.lor POLLERR POLLHUP) && readable
  then Z.lor r (Z.land events (Z.lor POLLERR POLLHUP)) else r.

Definition poll_one (pf : PollFd) : kstm PollFd :=
  if pfd_fd pf <? 0 then mret (mkPollFd (pfd_fd pf) (pfd_events pf) 0)
  else
    p ← cur;
    match fds p !! pfd_fd pf with
    | None => mret (mkPollFd (pfd_fd pf) (pfd_events pf) POLLERR)
    | Some h =>
        readable ← read_ready h;
        writable ← write_ready h;
        mret (mkPollFd (pfd_fd pf) (pfd_events pf) (poll_events (pfd_events pf) readable writable))
    end.

Fixpoint poll_all (l : list PollFd) : kstm (list PollFd) :=
  match l with [] => mret [] | pf :: l' => x ← poll_one pf; r ← poll_all l'; mret (x :: r) end.

Definition no_deadline : kstm unit := update_cur (set_epoll_deadline None).

(** Nothing is ready: a signal, a timeout or sleep. *)
Definition poll_wait (timeout_ptr : Z) : kstm Z :=
  p ← cur;
  if negb (andnot64 (pending_signals p) (signal_mask p) =? 0) then _ ← no_deadline; fail EINTR
  else
    k ← get;
    d ← match epoll_wait_deadline_ns p with
        | Some d => mret (Some d)
        | None =>
            if timeout_ptr =? 0 then mret (Some U64_MAX)
            else
              n ← with_reader (fun rd _ => read_timespec_ns rd timeout_ptr);
              mret (if n =? 0 then None else Some (saturating_add (k_nanos k) n))
        end;
    match (d : option Z) with
    | None => mret 0
    | Some d =>
        _ ← update_cur (set_epoll_deadline (Some d));
        if negb (d =? U64_MAX) && (d <=? k_nanos k) then _ ← no_deadline; mret 0
        else _ ← block_current; fail EAGAIN
    end.

Definition sys_ppoll args : kstm Z :=
  pfs ← with_reader (fun rd _ => read_pollfds rd (arg args 0) (arg args 1));
  pfs ← poll_all pfs;
  let ready := zlen (List.filter (fun pf => negb (pfd_revents pf =? 0)) pfs) in
  if negb (ready =? 0) then
    _ ← no_deadline;
    _ ← write_user (arg args 0) (pollfds_to_bytes pfs);
    mret ready
  else poll_wait (arg args 2).

(** The members of a set that are open and ready. *)
Fixpoint ready_members (ready : Obj.FileHandle → kstm bool) (l : list Z) : kstm (list Z) :=
  match l with
  | [] => mret []
  | fd :: l' =>
      p ← cur;
      b ← match fds p !! to_i32 fd with Some h => ready h | None => mret false end;
      r ← ready_members ready l';
      mret (if (b : bool) then fd :: r else r)
  end.
Definition select_set (ready : Obj.FileHandle → kstm bool) (addr nfds : Z) : kstm (list Z) :=
  if addr =? 0 then mret []
  else
    members ← with_reader (fun rd _ => read_fd_set rd addr nfds);
    out ← ready_members ready members;
    _ ← write_user addr (fd_set_bytes out nfds);
    mret out.

Definition sys_pselect6 args : kstm Z :=
  let nfds := arg args 0 in
  r ← select_set read_ready (arg args 1) nfds;
  w ← select_set write_ready (arg args 2) nfds;
  _ ← unless_null (arg args 3) (write_user (arg args 3) (replicate (Z.to_nat (fd_set_len nfds)) 0));
  let ready := Z.of_nat (size (list_to_set (r ++ w) : gset Z)) in
  if negb (ready =? 0) then _ ← no_deadline; mret ready
  else poll_wait (arg args 4).

(** ** Epoll *)
Definition sys_eventfd2 args : kstm Z := h ← on_vfs (Vfs.create_eventfd (arg args 0)); add_handle h.
Definition sys_epoll_create1 : kstm Z := h ← on_vfs Vfs.create_epoll; add_handle h.
Definition sys_epoll_ctl args : kstm Z :=
  ev ← (if arg args 3 =? 0 then mret (mkEpollEvent 0 0)
        else with_reader (fun rd _ => read_epoll_event rd (arg args 3)));
  h ← fd_handle (to_i32 (arg args 0));
  _ ← on_vfs (Vfs.epoll_ctl h (to_u32 (arg args 1)) (to_i32 (arg args 2)) (ev_events ev));
  mret 0.

(** The watches that are ready, at most [room]. *)
Fixpoint ready_watches (room : nat) (ws : list Obj.EpollWatch) : kstm (list EpollEvent) :=
  match room, ws with
  | O, _ | _, [] => mret []
  | S room', w :: ws' =>
      p ← cur;
      match fds p !! Obj.w_fd w with
      | None => ready_watches room ws'
      | Some h =>
          readable ← read_ready h;
          writable ← write_ready h;
          if (readable : bool) || writable then
            r ← ready_watches room' ws';
            mret (mkEpollEvent (Obj.w_events w) (Obj.w_fd w mod 2 ^ 64) :: r)
          else ready_watches room ws'
      end
  end.

Definition sys_epoll_pwait args : kstm Z :=
  let maxevents := Obj.as_isize (arg args 2) in
  let timeout_ms := Obj.as_isize (arg args 3) in
  if (maxevents <=? 0) || (timeout_ms <? -1) then fail EINVAL
  else
    h ← fd_handle (to_i32 (arg args 0));
    ws ← ask_vfs (fun v => Vfs.epoll_watches v h);
    evs ← ready_watches (Nat.min (Z.to_nat maxevents) (length ws)) ws;
    _ ← unless_null (arg args 1) (write_user (arg args 1) (epoll_events_to_bytes evs));
    if negb (zlen evs =? 0) then _ ← no_deadline; mret (zlen evs)
    else if timeout_ms =? 0 then _ ← no_deadline; mret 0
    else
      k ← get;
      p ← cur;
      let d := match epoll_wait_deadline_ns p with
               | Some d => d
               | None => if timeout_ms <? 0 then U64_MAX
                         else saturating_add (k_nanos k) (saturating_mul timeout_ms 1000000)
               end in
      _ ← update_cur (set_epoll_deadline (Some d));
      if negb (d =? U64_MAX) && (d <=? k_nanos k) then _ ← no_deadline; mret 0
      else _ ← block_current; fail EAGAIN.

Definition sys_epoll_pwait2 args : kstm Z :=
  timeout_ms ← (if arg args 3 =? 0 then mret (-1)
                else n ← with_reader (fun rd _ => read_timespec_ns rd (arg args 3)); mret (n / 1000000));
  sys_epoll_pwait [arg args 0; arg args 1; arg args 2; timeout_ms mod 2 ^ 64; arg args 4; arg args 5].

(** ** Sockets *)
Definition sys_socket args : kstm Z :=
  let family := arg args 0 in
  let sock_type := Z.land (arg args 1) 0xf in
  if negb (existsb (Z.eqb family) [1; 2; 10]) then fail EAFNOSUPPORT
  else if negb (existsb (Z.eqb sock_type) [1; 2; 3; 5]) then fail EPROTOTYPE
  else if (sock_type =? 3) && negb (family =? 10) then fail EPROTONOSUPPORT
  else h ← on_vfs (Vfs.create_socket family sock_type (arg args 2)); add_handle h.

Definition sys_socketpair args : kstm Z :=
  if negb (arg args 0 =? 1) then fail EAFNOSUPPORT
  else
    '(lh, rh) ← on_vfs Vfs.create_socketpair;
    left_fd ← add_handle lh;
    right_fd ← add_handle rh;
    _ ← write_user (arg args 3) (to_le_bytes 4 left_fd ++ to_le_bytes 4 right_fd);
    mret 0.

Definition sys_bind args : kstm Z :=
  let fd := to_i32 (arg args 0) in
  h ← fd_handle fd;
  family ← ask_vfs (fun v => Vfs.socket_family v h);
  let family := family mod 2 ^ 16 in
  if (arg args 1 =? 0) || (arg args 2 <? 2) then fail EFAULT
  else
    bs ← read_user (arg args 1) (arg args 2);
    let given := from_le_bytes (take 2 bs) in
    let given := if given =? 0 then family else given in
    let inet := fun f => (f =? 2) || (f =? 10) in
    let port := if inet given && (4 <=? length bs)%nat then from_be16 (byte_at bs 2) (byte_at bs 3) else 0 in
    p ← cur;
    if negb (given =? family) then fail EAFNOSUPPORT
    else if inet family && negb (euid p =? 0) && negb (port =? 0) && (port <? 1024) then fail EACCES
    else
      path ← lift (sockaddr_path bs (Some family));
      _ ← on_fd fd (Vfs.bind_socket (cwd p) path);
      mret 0.

Definition sys_listen args : kstm Z :=
  h ← fd_handle (to_i32 (arg args 0));
  _ ← on_vfs (Vfs.listen_socket h);
  mret 0.

Definition sys_connect args : kstm Z :=
  path ← with_reader (fun rd _ => parse_sockaddr_path_with_default rd (arg args 1) (arg args 2) None);
  p ← cur;
  _ ← on_fd (to_i32 (arg args 0)) (Vfs.connect_socket (cwd p) path);
  _ ← wake_all_blocked;
  mret 0.

(** [write_sockaddr] *)
Definition write_sockaddr (addr_ptr len_ptr : Z) (path : string) : kstm unit :=
  if (addr_ptr =? 0) || (len_ptr =? 0) then mret tt
  else
    max_len ← sys_read_u32 can_reserve len_ptr;
    bytes ← lift (sockaddr_bytes path);
    _ ← write_user addr_ptr (Obj.ztake max_len bytes);
    write_user len_ptr (to_le_bytes 4 (zlen bytes)).

(** The loop of [accept]: between the attempts the scheduler is asked to
    switch tasks 256 times, then the task that is current by then is
    blocked. *)
Fixpoint accept_loop (spins : nat) (fd : Z) : kstm Obj.FileHandle :=
  h ← fd_handle fd;
  if has (Obj.h_flags h) O_PATH then fail EBADF
  else
    r ← attempt (on_vfs (Vfs.accept_socket h));
    match r with
    | inl h' => mret h'
    | inr e =>
        if (e =? EAGAIN) && negb (has (Obj.h_flags h) O_NONBLOCK) then
          match spins with
          | S spins' => _ ← yield_now; accept_loop spins' fd
          | O => _ ← block_current; fail EAGAIN
          end
        else fail e
    end.

Definition accept_flags (flags f : Z) : Z :=
  let f := with_cloexec_flag f (has flags O_CLOEXEC) in
  if has flags O_NONBLOCK then Z.lor f O_NONBLOCK else Z.ldiff f O_NONBLOCK.

Definition sys_accept args : kstm Z :=
  h ← accept_loop 256 (to_i32 (arg args 0));
  let h := with_flags (accept_flags (arg args 3)) h in
  _ ← clone_ref can_reserve h;
  owning can_reserve h (
    fd ← add_handle h;
    _ ← write_sockaddr (arg args 1) (arg args 2) (Obj.h_path h);
    mret fd).

Definition sys_getsockname args : kstm Z :=
  h ← fd_handle (to_i32 (arg args 0));
  _ ← write_sockaddr (arg args 1) (arg args 2) (Obj.h_path h);
  mret 0.

Definition is_channel (h : Obj.FileHandle) : kstm bool := s ← is_socket h; p ← is_pipe h; mret (s || p).

Definition sys_sendto args : kstm Z :=
  let fd := to_i32 (arg args 0) in
  data ← read_user (arg args 1) (arg args 2);
  h ← fd_handle fd;
  channel ← is_channel h;
  written ← on_fd fd (Vfs.write can_reserve data);
  _ ← (if channel && negb (written =? 0) then wake_all_blocked else mret tt);
  mret written.

(** A read that puts the caller to sleep when a channel has nothing. *)
Definition read_or_block (fd len : Z) : kstm (list Z) :=
  h ← fd_handle fd;
  channel ← is_channel h;
  r ← attempt (on_fd fd (Vfs.read len));
  match r with
  | inl bs => mret bs
  | inr e => if (e =? EAGAIN) && channel then _ ← block_current; fail EAGAIN else fail e
  end.

Definition sys_recvfrom args : kstm Z :=
  bs ← read_or_block (to_i32 (arg args 0)) (arg args 2);
  _ ← write_user (arg args 1) bs;
  mret (zlen bs).

Definition sys_shutdown : kstm Z := mret 0.

Fixpoint sendmsg_loop (fd : Z) (iovs : list IoVec) (total : Z) (wake : bool) : kstm (Z * bool) :=
  match iovs with
  | [] => mret (total, wake)
  | iov :: iovs' =>
      bs ← read_user (iov_base iov) (iov_len iov);
      h ← fd_handle fd;
      channel ← is_channel h;
      written ← on_fd fd (Vfs.write can_reserve bs);
      total ← lift (uadd total written);
      sendmsg_loop fd iovs' total (wake || (channel && negb (written =? 0)))
  end.
Definition sys_sendmsg args : kstm Z :=
  msg ← with_reader (fun rd _ => read_msghdr rd (arg args 1));
  iovs ← with_reader (fun rd _ => read_iovecs rd (msg_iov msg) (msg_iovlen msg));
  '(total, wake) ← sendmsg_loop (to_i32 (arg args 0)) iovs 0 false;
  _ ← (if (wake : bool) then wake_all_blocked else mret tt);
  mret total.

Fixpoint recvmsg_loop (fd : Z) (iovs : list IoVec) (total : Z) : kstm Z :=
  match iovs with
  | [] => mret total
  | iov :: iovs' =>
      bs ← read_or_block fd (iov_len iov);
      _ ← write_user (iov_base iov) bs;
      total ← lift (uadd total (zlen bs));
      if zlen bs <? iov_len iov then mret total else recvmsg_loop fd iovs' total
  end.

Definition control_bytes (cmsgs : list (Z * list Z)) : outcome (list Z) :=
  foldM (fun out '(ty, payload) => c ← build_cmsg SOL_IPV6 ty payload; Ok (out ++ c)) [] cmsgs.

Definition sys_recvmsg args : kstm Z :=
  let fd := to_i32 (arg args 0) in
  msg ← with_reader (fun rd _ => read_msghdr rd (arg args 1));
  iovs ← with_reader (fun rd _ => read_iovecs rd (msg_iov msg) (msg_iovlen msg));
  h ← fd_handle fd;
  cmsgs ← attempt (ask_vfs (fun v => Vfs.socket_ipv6_recv_cmsgs v h));
  total ← recvmsg_loop fd iovs 0;
  _ ← (if msg_control msg =? 0 then mret tt
       else
         control ← lift (control_bytes (match cmsgs with inl l => l | inr _ => [] end));
         a ← (if zlen control <=? msg_controllen msg
              then _ ← write_user (msg_control msg) control; mret (zlen control)
              else mret 0);
         at_ ← lift (uadd (arg args 1) 40);
         write_user at_ (to_le_bytes 8 a));
  mret total.

(** ** Options *)
Definition is_ipv6_recv_bool_opt (opt : Z) : bool := existsb (Z.eqb opt) [49; 51; 56; 53; 58; 66; 2; 8; 5; 3; 4].

Definition opt_word (args : list Z) : kstm Z :=
  if (arg args 3 =? 0) || (arg args 4 <? 4) then fail EINVAL
  else with_reader (fun rd _ => read_i32 rd (arg args 3)).

Definition sys_setsockopt args : kstm Z :=
  let fd := to_i32 (arg args 0) in
  let level := arg args 1 in
  let opt := arg args 2 in
  if (level =? 0) && ((opt =? 42) || (opt =? 45)) then
    h ← fd_handle fd; _ ← on_vfs (Vfs.socket_ip_multicast_action h (opt =? 42)); mret 0
  else if (level =? IPPROTO_ICMPV6) && (opt =? 1) then
    if (arg args 3 =? 0) || (arg args 4 <? 32) then fail EINVAL
    else
      bs ← read_user (arg args 3) 32;
      h ← fd_handle fd;
      _ ← on_vfs (Vfs.socket_set_icmp6_filter h (read_chunks 4 from_le_bytes 8 bs));
      mret 0
  else if (level =? SOL_IPV6) && (opt =? 7) then
    offset ← opt_word args;
    if (offset <? -1) || ((0 <=? offset) && has offset 1) then fail EINVAL
    else
      h ← fd_handle fd;
      _ ← on_vfs (Vfs.socket_set_ipv6_checksum_offset h (if 0 <=? offset then Some offset else None));
      mret 0
  else if (level =? SOL_IPV6) && is_ipv6_recv_bool_opt opt then
    value ← opt_word args;
    h ← fd_handle fd;
    _ ← on_vfs (Vfs.socket_set_ipv6_recv_opt h opt value);
    mret 0
  else mret 0.

Definition put_option args (bs : list Z) : kstm Z :=
  _ ← unless_null (arg args 3) (write_user (arg args 3) bs);
  _ ← unless_null (arg args 4) (write_user (arg args 4) (to_le_bytes 4 (zlen bs)));
  mret 0.

Definition sys_getsockopt args : kstm Z :=
  let fd := to_i32 (arg args 0) in
  let level := arg args 1 in
  let opt := arg args 2 in
  if (level =? IPPROTO_ICMPV6) && (opt =? 1) then
    h ← fd_handle fd;
    filter ← ask_vfs (fun v => Vfs.socket_icmp6_filter v h);
    put_option args (flat_map (to_le_bytes 4) filter)
  else if (level =? SOL_IPV6) && is_ipv6_recv_bool_opt opt then
    h ← fd_handle fd;
    value ← ask_vfs (fun v => Vfs.socket_get_ipv6_recv_opt v h opt);
    put_option args (to_le_bytes 4 value)
  else put_option args (to_le_bytes 4 0).

(** ** Memory files and process descriptors *)
Definition sys_memfd_create args : kstm Z :=
  name ← read_user_cstr can_reserve (arg args 0);
  h ← on_vfs (Vfs.create_memfd name);
  add_handle h.

Definition sys_pidfd_open args : kstm Z :=
  t ← ask_table Ok;
  if has_pid t (arg args 0) then h ← on_vfs (Vfs.create_pidfd (arg args 0)); add_handle h else fail ENOENT.

Definition pidfd_target (fd : Z) : kstm Z := h ← fd_handle fd; ask_vfs (fun v => Vfs.pidfd_pid v h).
Definition sys_pidfd_getfd args : kstm Z :=
  k ← pidfd_target (to_i32 (arg args 0));
  h ← on_table (duplicate_fd_from k (to_i32 (arg args 1)));
  add_handle h.
Definition sys_pidfd_send_signal args : kstm Z :=
  k ← pidfd_target (to_i32 (arg args 0));
  _ ← (if arg args 1 =? 0 then mret tt else on_table (send_signal k (arg args 1)));
  mret 0.

Definition sys_sysinfo args : kstm Z :=
  k ← get;
  _ ← write_user (arg args 0)
        (fill 112 [(64%nat, to_le_bytes 8 (match Sched.current (k_sched k) with Some _ => 1 | None => 0 end));
                   (80%nat, to_le_bytes 2 (process_count (k_table k))); (104%nat, to_le_bytes 4 1)]);
  mret 0.

(** ** Clock adjustment *)
Definition timex_state_bytes (s : KernelTimexState) : list Z :=
  fill 208 [(8%nat, to_le_bytes 8 (tx_offset s)); (16%nat, to_le_bytes 8 (tx_freq s));
            (24%nat, to_le_bytes 8 (tx_maxerror s)); (32%nat, to_le_bytes 8 (tx_esterror s));
            (40%nat, to_le_bytes 4 (tx_status s)); (48%nat, to_le_bytes 8 (tx_constant s));
            (88%nat, to_le_bytes 8 (tx_tick s)); (160%nat, to_le_bytes 4 (tx_tai s))].

Definition timex_i64 (buf : list Z) (off : nat) : Z := Locks.as_signed 64 (Locks.field off 8 buf).

Definition timex_update (modes : Z) (buf : list Z) (s : KernelTimexState) : KernelTimexState :=
  mkTimex
    (if has modes 1 || (modes =? 0x8001) then timex_i64 buf 8 else tx_offset s)
    (if has modes 2 then timex_i64 buf 16 else tx_freq s)
    (if has modes 4 then timex_i64 buf 24 else tx_maxerror s)
    (if has modes 8 then timex_i64 buf 32 else tx_esterror s)
    (if has modes 16 then Locks.as_signed 32 (Locks.field 40 4 buf) else tx_status s)
    (if has modes 32 then timex_i64 buf 48 else tx_constant s)
    (if has modes 0x4000 then timex_i64 buf 88 else tx_tick s)
    (tx_tai s).

Definition sys_adjtimex args : kstm Z :=
  let addr := arg args 0 in
  if addr =? 0 then fail EFAULT
  else
    buf ← read_user addr 208;
    let modes := Locks.field 0 4 buf in
    k ← get;
    p ← cur;
    if modes =? 0 then _ ← write_user addr (timex_state_bytes (k_timex k)); mret 0
    else if negb (modes =? 0x8001) && negb (Z.ldiff modes 0x403f =? 0) then fail EINVAL
    else if negb (euid p =? 0) then fail EPERM
    else if has modes 0x4000 && negb ((9000 <=? timex_i64 buf 88) && (timex_i64 buf 88 <=? 11000)) then fail EINVAL
    else
      _ ← modify (with_timex (timex_update modes buf (k_timex k)));
      _ ← write_user addr (timex_state_bytes (timex_update modes buf (k_timex k)));
      mret 0.

End Calls.
End SysNet.
