(* ===== verification/SysExec.v ===== *)
(** * Program execution and keyring calls (crates/syscall/src/lib.rs)

    [sys_execve] with its script interpreters, the image cache, the built-in
    programs and the ELF interpreter search; [sys_add_key] and [sys_keyctl].

    [builtin_program] is the table of programs assembled into the kernel by
    the user-init crate: a name gives an entry offset and an image.  The table
    of applet names kept for tracing is left out. *)

From S2P Require Import Prelude Task AddrSpace Elf Path FileObject Vfs Process KernelEnv ProcTable Locks Abi Keys Sys SysProc SysMem.

Open Scope string_scope.
Open Scope list_scope.
Open Scope Z_scope.

Module SysExec.
Import Proc PTable Abi Sys.

Definition ENOEXEC : Z := 8.
Definition BUILTIN_EXEC_BASE : Z := 0x00800000.
Definition SIGNAL_TRAMPOLINE_BASE : Z := 0x7ff00000.
Definition SIGNAL_TRAMPOLINE_CODE (loongarch : bool) : list Z :=
  if loongarch
  then [0x0b; 0x2c; 0x82; 0x03; 0x00; 0x00; 0x2b; 0x00; 0x0b; 0x2c; 0x82; 0x03; 0x00; 0x00; 0x2b; 0x00]
  else [0x93; 0x08; 0xb0; 0x08; 0x73; 0x00; 0x00; 0x00; 0x93; 0x08; 0xb0; 0x08; 0x73; 0x00; 0x00; 0x00].
Definition EXEC_READ_CHUNK : Z := 4 * 1024 * 1024.
Definition EXEC_READ_LIMIT : Z := 32 * 1024 * 1024.

Record BuiltinProgram := mkBuiltin { bp_entry : Z; bp_image : list Z }.

(** ** Images *)
(** The bytes [off .. off + n) of an image, where they lie inside it. *)
Definition get_range (off n : Z) (data : list Z) : option (list Z) :=
  if (0 <=? off) && (off + n <=? zlen data) then Some (take (Z.to_nat n) (drop (Z.to_nat off) data)) else None.
Definition get_word (off n : Z) (data : list Z) : option Z := from_le_bytes <$> get_range off n data.

Fixpoint elf_interp_from (data : list Z) (phoff phentsize index : Z) (rounds : nat) : option string :=
  match rounds with
  | O => None
  | S rounds' =>
      off ← checked_add phoff (index * phentsize);
      e ← checked_add off phentsize;
      if zlen data <? e then None
      else
        p_type ← get_word off 4 data;
        if negb (p_type =? 3) then elf_interp_from data phoff phentsize (index + 1) rounds'
        else
          p_offset ← get_word (off + 8) 8 data;
          p_filesz ← get_word (off + 32) 8 data;
          interp_end ← checked_add p_offset p_filesz;
          if (zlen data <? interp_end) || (p_filesz =? 0) then None
          else
            raw ← get_range p_offset p_filesz data;
            let text := until_nul raw in
            match text with
            | [] => None
            | _ => if is_utf8 text
                   then match trim text with [] => None | interp => Some (string_of interp) end
                   else None
            end
  end.

Definition parse_elf_interp (data : list Z) : option string :=
  if (zlen data <? 64) || negb (bool_decide (take 4 data = [0x7f; 0x45; 0x4c; 0x46])) then None
  else if negb (byte_at data 4 =? 2) || negb (byte_at data 5 =? 1) then None
  else
    phoff ← get_word 32 8 data;
    phentsize ← get_word 54 2 data;
    phnum ← get_word 56 2 data;
    if phentsize <? 56 then None else elf_interp_from data phoff phentsize 0 (Z.to_nat phnum).

(** Whether all lines after the first one are blank. *)
Definition script_body_empty (data : list Z) : bool :=
  match position (fun b => b =? 10) data with
  | Some i => forallb is_ascii_whitespace (drop (S i) data)
  | None => false
  end.

Definition is_shell (path : string) : bool := existsb (String.eqb path) ["/bin/sh"; "/bin/bash"; "/busybox"].

Definition busybox_redirect (applet : string) : option string :=
  if String.eqb applet "wait" then Some "/musl/wait"
  else if String.eqb applet "locale" then Some "/musl/locale"
  else if String.eqb applet "useradd" then Some "/musl/useradd"
  else if String.eqb applet "userdel" then Some "/musl/userdel"
  else None.

Section Exec.
Context {M : Type} `{!Obj.Ext4Ops M} `{!HalMemory} (can_reserve : Z → bool) (loongarch : bool).
Context (builtin_program : string → option BuiltinProgram).
#[local] Hint Extern 0 (KernelEnv _ _ _) => exact (Kernel.kernel_env can_reserve) : typeclass_instances.

Abbreviation kstm := (stm (kernel M)).
Abbreviation read_user_cstr := (read_user_cstr can_reserve).
Abbreviation with_reader := (with_reader can_reserve).
Implicit Types (args : list Z) (path display : string) (argv envp : list string) (image : list Z).

Definition resolve_exec_payload image : option BuiltinProgram :=
  if is_utf8 image then
    let text := string_of (trim image) in
    match Path.strip_prefix text "builtin " with
    | Some path => builtin_program (string_of (trim (Vfs.bytes_of path)))
    | None =>
        if String.eqb text "builtin-init" then builtin_program "/sbin/init"
        else if String.eqb text "builtin-child" then builtin_program "/bin/child"
        else None
    end
  else None.

(** The loop that reads a file in chunks; nine rounds reach the limit. *)
Fixpoint read_image_loop (rounds : nat) (h : Obj.FileHandle) (file_data : list Z) : kstm (list Z) :=
  match rounds with
  | O => lift Diverge
  | S rounds' =>
      let remaining := saturating_sub EXEC_READ_LIMIT (zlen file_data) in
      if remaining =? 0 then fail EFAULT
      else
        let read_len := Z.min EXEC_READ_CHUNK remaining in
        '(chunk, h') ← err_as EFAULT (on_local h (Vfs.read read_len));
        match chunk with
        | [] => mret file_data
        | _ => if zlen chunk <? read_len then mret (file_data ++ chunk)
               else read_image_loop rounds' h' (file_data ++ chunk)
        end
  end.

Definition read_exec_file_image (dir path : string) : kstm (list Z) :=
  k ← get;
  match (if Path.contains_str path "busybox" then k_busybox k else None) with
  | Some image => mret image
  | None =>
      h ← err_as ENOENT (on_vfs (Vfs.open dir path Obj.O_RDONLY 0));
      owning can_reserve h (read_image_loop 9 h [])
  end.

(** The signal trampoline of a new image; a failure to map it is ignored. *)
Definition map_trampoline : kstm unit :=
  quietly (SysMem.on_space (Mm.map_fixed_bytes can_reserve SIGNAL_TRAMPOLINE_BASE (SIGNAL_TRAMPOLINE_CODE loongarch) 4096 5)).

Definition exec_builtin (program : BuiltinProgram) display : kstm Z :=
  entry ← lift (uadd BUILTIN_EXEC_BASE (bp_entry program));
  _ ← on_table (execve_current_image entry None);
  _ ← update_cur (set_name display);
  _ ← err_as EFAULT (SysMem.on_space
        (Mm.map_fixed_bytes can_reserve BUILTIN_EXEC_BASE (bp_image program) (zlen (bp_image program)) 5));
  _ ← map_trampoline;
  _ ← update_cur (fun p => set_frame (SysProc.set_sepc entry (trap_frame p)) p);
  mret 0.

(** The first interpreter that can be read. *)
Fixpoint load_interp (candidates : list string) : kstm (list Z) :=
  match candidates with
  | [] => fail ENOENT
  | c :: candidates' =>
      r ← attempt (read_exec_file_image "/" c);
      match r with inl image => mret image | inr _ => load_interp candidates' end
  end.
Definition interp_candidates (interp : string) : list string :=
  [interp; "/musl/lib/libc.so"; "/glibc/lib/ld-linux-loongarch-lp64d.so.1"; "/lib/ld-linux-riscv64-lp64d.so.1"].

Definition elf_error (e : Z) : Z := if e =? ENOEXEC then ENOEXEC else EFAULT.

Definition exec_elf image display argv envp : kstm Z :=
  interp ← match parse_elf_interp image with
           | Some path =>
               i ← load_interp (interp_candidates path);
               match i with [] => fail ENOEXEC | _ => mret (Some i) end
           | None => mret None
           end;
  _ ← on_table (execve_current_image 0 None);
  r ← attempt (SysMem.on_space (Elf.load_elf_images can_reserve image interp (Vfs.bytes_of <$> argv)
                                  (Vfs.bytes_of <$> envp) (Some (Vfs.bytes_of display))));
  match r with
  | inr e => fail (elf_error e)
  | inl loaded =>
      _ ← update_cur (fun p => set_name display
            (set_frame (set_reg 2 (Elf.li_stack_pointer loaded) (SysProc.set_sepc (Elf.li_entry loaded) (trap_frame p))) p));
      _ ← map_trampoline;
      p ← cur;
      _ ← (if Path.ends_with (name p) "/acct02_helper" then SysProc.append_acct_record can_reserve p 128 else mret tt);
      waiting ← on_table release_current_vfork_parent;
      _ ← match waiting with Some parent => _ ← wake_task parent; mret tt | None => mret tt end;
      mret 0
  end.

(** ** Scripts *)
(** An executable without a shebang line to follow. *)
Definition run_program image path display argv envp : kstm Z :=
  match resolve_exec_payload image with
  | Some program => exec_builtin program display
  | None => match builtin_program path with
            | Some program => exec_builtin program display
            | None => exec_elf image display argv envp
            end
  end.

(** One round of the loop of [sys_execve]: the result, or the path, the
    arguments and the number of scripts of the next round. *)
Definition exec_state : Type := string * list string * Z.
Definition exec_step (dir display : string) envp '(path, argv, shebang_hops) : kstm (Z + exec_state) :=
  image ← read_exec_file_image dir path;
  let run := v ← run_program image path display argv envp; mret (inl v) in
  match image with
  | [] => fail EFAULT
  | _ =>
      match parse_shebang_line image with
      | Some (interp, arg) =>
          if script_body_empty image && is_shell interp
          then mret (inr ("/musl/basic/exit", [display], shebang_hops + 1))
          else
            let '(interp, arg) := if is_shell interp then ("/musl/busybox", Some (default "sh" arg)) else (interp, arg) in
            if 4 <=? shebang_hops then fail ENOEXEC
            else mret (inr (interp, interp :: option_list arg ++ display :: tail argv, shebang_hops + 1))
      | None =>
          if Path.ends_with path ".sh" then
            if 4 <=? shebang_hops then fail ENOEXEC
            else
              v ← get_vfs;
              if Vfs.is_ok (Vfs.access v "/" "/musl/busybox")
              then mret (inr ("/musl/busybox", "/musl/busybox" :: "sh" :: display :: tail argv, shebang_hops + 1))
              else run
          else run
      end
  end.

(** The loop; [rounds] bounds the number of rounds that are followed. *)
Fixpoint exec_loop (rounds : nat) (dir display : string) envp (st : exec_state) : kstm Z :=
  match rounds with
  | O => lift Diverge
  | S rounds' =>
      r ← exec_step dir display envp st;
      match r with inl v => mret v | inr st' => exec_loop rounds' dir display envp st' end
  end.

(** The path and arguments after the shell and busybox shortcuts: the file to
    open, the name shown for it and its arguments. *)
Definition exec_target (dir path : string) argv : string * string * list string :=
  let display := Path.normalize_path dir path in
  let argv := match argv with [] => [display] | _ => argv end in
  let simple := shell_exec_command path argv ≫= simple_shell_command_path in
  let '(path, display, argv) :=
    match simple with
    | Some cmd => let d := Path.normalize_path dir cmd in (cmd, d, [d])
    | None => (path, display, argv)
    end in
  match argv with
  | _ :: applet :: rest =>
      match (if Path.contains_str path "busybox" then busybox_redirect applet else None) with
      | Some redirect => (redirect, redirect, redirect :: rest)
      | None => (path, display, argv)
      end
  | _ => (path, display, argv)
  end.

(** Seven rounds are enough where the loop of the code ends at all (see
    [ExecSpec]). *)
Definition EXEC_ROUNDS : nat := 7.

Definition sys_execve args : kstm Z :=
  path ← read_user_cstr (arg args 0);
  p ← cur;
  argv ← with_reader (fun rd cstr => read_string_vector rd cstr (arg args 1));
  let '(path, display, argv) := exec_target (cwd p) path argv in
  envp ← with_reader (fun rd cstr => read_string_vector rd cstr (arg args 2));
  exec_loop EXEC_ROUNDS (cwd p) display envp (path, argv, 0).

(** ** Keyrings *)
Definition refresh_key_proc_views : kstm unit :=
  k ← get;
  let s := k_keys k in
  _ ← quietly (on_vfs (Vfs.replace_proc_file "/proc/key-users" (Keys.key_users_text s)));
  _ ← quietly (on_vfs (Vfs.replace_proc_file "/proc/sys/kernel/keys/maxkeys" (number 10 (Keys.max_keys s) ++ [10])));
  quietly (on_vfs (Vfs.replace_proc_file "/proc/sys/kernel/keys/maxbytes" (number 10 (Keys.max_bytes s) ++ [10]))).

Definition sys_add_key args : kstm Z :=
  key_type ← read_user_cstr (arg args 0);
  description ← read_user_cstr (arg args 1);
  _ ← lift (Keys.validate_key_type_and_length key_type (arg args 2) (arg args 3));
  p ← cur;
  n ← on_keys (Keys.add_key p key_type (Vfs.bytes_of description) (arg args 3) (to_i32 (arg args 4)));
  _ ← refresh_key_proc_views;
  mret n.

Definition sys_keyctl args : kstm Z :=
  p ← cur;
  if arg args 0 =? 0 then on_keys (Keys.resolve_keyring_serial p (to_i32 (arg args 1)) (negb (arg args 2 =? 0)))
  else if arg args 0 =? 1 then on_keys (Keys.resolve_keyring_serial p Keys.KEY_SPEC_SESSION_KEYRING true)
  else fail ENOSYS.

End Exec.
End SysExec.
