(* ===== verification/SysDispatch.v ===== *)
(** * The dispatcher (crates/syscall/src: lib.rs and the domain modules)

    The system-call table: each domain maps its numbers to calls, the first
    domain that knows a number handles it, and a number no domain knows is
    ENOSYS. *)

From S2P Require Import Prelude Task AddrSpace Path FileObject Vfs Process KernelEnv ProcTable Locks Abi Keys Sys SysFile SysProc SysMem SysNet SysExec.

Open Scope list_scope.
Open Scope Z_scope.

Module SysDispatch.
Import Sys SysFile SysProc SysMem SysNet SysExec.

Section Dispatch.
Context {M : Type} `{!Obj.Ext4Ops M} `{!HalMemory} (can_reserve : Z → bool) (loongarch : bool) (heap : kernel M → Z).
Context (builtin_program : string → option BuiltinProgram).
Abbreviation call := (list Z → stm (kernel M) Z).
Abbreviation R := can_reserve.

(** The entry of a number, if any. *)
Definition lookup_call (sysno : Z) (entries : list (Z * call)) : option call :=
  snd <$> find_first (fun '(n, _) => n =? sysno) entries.

Definition fs_domain : list (Z * call) := [
  (17, sys_getcwd R); (23, sys_dup R); (24, sys_dup3 R); (25, sys_fcntl R); (29, sys_ioctl R); (32, sys_flock);
  (34, sys_mkdir R); (35, sys_unlinkat R); (36, sys_symlinkat R); (37, sys_linkat R); (38, sys_renameat R);
  (276, sys_renameat2 R); (81, fun _ => sys_sync); (40, sys_mount R); (39, sys_umount R); (43, sys_statfs R);
  (44, sys_fstatfs R); (45, sys_truncate R); (46, sys_ftruncate R); (47, sys_fallocate R); (88, sys_utimensat R);
  (48, sys_faccessat R); (439, sys_faccessat R); (56, sys_openat R); (57, sys_close R); (436, sys_close_range R);
  (61, sys_getdents64 R); (62, sys_lseek R); (63, sys_read R); (64, sys_write R); (65, sys_readv R);
  (66, sys_writev R); (67, sys_pread64 R); (68, sys_pwrite64 R); (69, sys_preadv R); (70, sys_pwritev R);
  (286, sys_preadv R); (287, sys_pwritev R); (71, sys_sendfile R); (76, sys_splice R); (78, sys_readlinkat R);
  (79, sys_fstatat R); (80, sys_fstat R); (49, sys_chdir R); (50, sys_fchdir); (51, sys_chroot R);
  (52, sys_fchmod R); (53, sys_fchmodat R); (452, sys_fchmodat R); (54, sys_fchownat R); (55, sys_fchown);
  (82, sys_fsync); (83, sys_fsync); (291, sys_statx R); (285, sys_copy_file_range R)].

Definition io_mpx_domain : list (Z * call) := [
  (19, sys_eventfd2); (20, fun _ => sys_epoll_create1); (21, sys_epoll_ctl R); (22, sys_epoll_pwait R);
  (441, sys_epoll_pwait2 R); (59, sys_pipe R); (73, sys_ppoll R); (72, sys_pselect6 R)].

Definition ipc_domain : list (Z * call) := [
  (194, sys_shmget R heap); (196, sys_shmat); (195, sys_shmctl R); (197, sys_shmdt)].

Definition mm_domain : list (Z * call) := [
  (214, sys_brk R); (216, sys_mremap R); (222, sys_mmap R heap); (215, sys_munmap); (226, sys_mprotect);
  (227, fun _ => mret 0); (228, fun _ => mret 0); (284, fun _ => mret 0); (233, fun _ => mret 0)].

Definition net_domain : list (Z * call) := [
  (198, sys_socket); (199, sys_socketpair R); (200, sys_bind R); (201, sys_listen); (202, sys_accept R);
  (242, sys_accept R); (203, sys_connect R); (204, sys_getsockname R); (205, sys_getsockname R); (206, sys_sendto R);
  (207, sys_recvfrom R); (208, sys_setsockopt R); (209, sys_getsockopt R); (210, fun _ => sys_shutdown);
  (211, sys_sendmsg R); (212, sys_recvmsg R)].

Definition resources_domain : list (Z * call) := [
  (141, fun _ => sys_getpriority); (165, sys_getrusage R); (261, sys_prlimit64 R); (116, sys_syslog R)].

Definition signal_domain : list (Z * call) := [
  (98, sys_futex R); (99, sys_set_robust_list); (100, sys_get_robust_list R); (129, sys_kill); (130, sys_kill);
  (131, sys_tgkill); (132, sys_sigaltstack R); (133, sys_rt_sigsuspend R); (134, sys_sigaction R);
  (135, sys_sigprocmask R); (136, sys_rt_sigpending R); (137, sys_rt_sigtimedwait R);
  (139, fun _ => sys_rt_sigreturn R loongarch)].

Definition sys_domain : list (Z * call) := [
  (174, fun _ => sys_getuid); (175, fun _ => sys_geteuid); (176, fun _ => sys_getgid); (177, fun _ => sys_getegid);
  (158, sys_getgroups R); (159, sys_setgroups R); (146, sys_setuid); (145, sys_setreuid); (147, sys_setresuid);
  (144, sys_setgid); (143, sys_setregid); (149, sys_setresgid); (160, sys_uname R loongarch); (179, sys_sysinfo R);
  (166, sys_umask); (97, fun _ => sys_unshare); (167, fun _ => sys_prctl); (278, sys_getrandom R);
  (279, sys_memfd_create R); (283, sys_membarrier); (89, sys_acct R); (217, sys_add_key R); (219, sys_keyctl); (424, sys_pidfd_send_signal);
  (434, sys_pidfd_open); (438, sys_pidfd_getfd R); (277, fun _ => mret 0); (259, fun _ => mret 0)].

Definition task_domain : list (Z * call) := [
  (96, sys_set_tid_address); (124, fun _ => sys_sched_yield); (93, sys_exit R false); (94, sys_exit R true);
  (172, fun _ => sys_getpid); (173, fun _ => sys_getppid); (178, fun _ => sys_gettid); (220, sys_clone R loongarch);
  (221, sys_execve R loongarch builtin_program); (260, sys_wait R); (154, sys_setpgid); (155, sys_getpgid); (156, sys_getsid); (157, fun _ => sys_setsid);
  (435, sys_clone3 R loongarch); (2024, fun _ => mret 0)].

Definition time_domain : list (Z * call) := [
  (101, sys_nanosleep R loongarch); (102, sys_getitimer R); (103, sys_setitimer R); (171, sys_adjtimex R);
  (113, sys_clock_gettime R); (114, sys_clock_getres R); (115, sys_clock_nanosleep R loongarch); (153, sys_times R);
  (169, sys_gettimeofday R)].

(** Asked in this order. *)
Definition all_calls : list (Z * call) :=
  fs_domain ++ io_mpx_domain ++ ipc_domain ++ mm_domain ++ net_domain ++ resources_domain ++ signal_domain ++
  sys_domain ++ task_domain ++ time_domain.

Definition dispatch_call (sysno : Z) (args : list Z) : stm (kernel M) Z :=
  match lookup_call sysno all_calls with Some f => f args | None => fail ENOSYS end.

(** The register the user program sees. *)
Definition retval (r : outcome Z) : outcome Z :=
  match r with
  | Ok v => Ok (Obj.as_isize v)
  | Err e => Ok (- e)
  | Panic => Panic
  | Diverge => Diverge
  end.
Definition dispatch (sysno : Z) (args : list Z) (k : kernel M) : outcome Z * kernel M :=
  let '(r, k') := dispatch_call sysno args k in (retval r, k').

End Dispatch.
End SysDispatch.
