(* ===== verification/SysInv.v ===== *)
(** * Invariants of the kernel over whole runs

    What every system call keeps, whatever its arguments and outcome: the
    process table, the scheduler, the record locks and the keyrings stay well
    formed, and the scheduler knows no thread id the table has not given out.
    So in every run a new thread gets an id no task has, and no two processes
    hold conflicting locks on a byte of a file. *)

From S2P Require Import Prelude Task AddrSpace Path FileObject Vfs Process KernelEnv ProcTable ProcSpec Locks Abi Keys Sys SysFile SysProc SysMem SysNet SysExec SysDispatch.

Open Scope string_scope.
Open Scope list_scope.
Open Scope Z_scope.

Module SysInv.
Import Proc PTable Locks Sys SysDispatch.

Lemma normalize_lock_range_valid f offset size start e :
  normalize_lock_range f offset size = Ok (start, e) → valid_range start e.
Proof.
  unfold normalize_lock_range. intros H. apply bind_Ok in H as (base & _ & H). apply bind_Ok in H as (s & Hs & H).
  unfold checked_add_i64 in Hs. destruct (_ && _) eqn:Hr; [|done]. simpl in Hs. injection Hs as <-. reflect_bools.
  destruct (Z.ltb_spec (base + l_start f) 0); [done|]. destruct (Z.ltb_spec (l_len f) 0); [done|].
  destruct (Z.eqb_spec (l_len f) 0).
  - injection H as <- <-. unfold valid_range, range_end_u128, U128_MAX. simpl. lia.
  - apply bind_Ok in H as (x & Hx & H). injection H as <- <-. unfold checked_add in Hx.
    destruct (Z.leb_spec (base + l_start f + l_len f) USIZE_MAX); [|done]. simpl in Hx. injection Hx as <-.
    unfold valid_range, range_end_u128, USIZE_MAX in *. simpl. lia.
Qed.

(** ** Scheduler operations add no task *)
Section Tasks.
Implicit Types (s : Sched.Scheduler).
Import Sched.

Definition no_new (f : Scheduler → Scheduler) : Prop :=
  ∀ s, sched_wf s → sched_wf (f s) ∧ ∀ i, i ∈ task_ids (f s) → i ∈ task_ids s.

Lemma elem_of_task_ids s i :
  i ∈ task_ids s ↔ (∃ t, t ∈ ready s ∧ id t = i) ∨ (∃ t, current s = Some t ∧ id t = i) ∨ (∃ k t, blocked s !! k = Some t ∧ id t = i).
Proof.
  rewrite task_ids_eq, !elem_of_app, !list_elem_of_fmap. split.
  - intros [(t & -> & Ht)|[(t & -> & Ht)|(t & -> & Ht)]].
    + left. eauto.
    + right. left. exists t. split; [|done]. destruct (Sched.current s); simpl in Ht; [|by apply not_elem_of_nil in Ht].
      by apply list_elem_of_singleton in Ht as ->.
    + right. right. apply elem_of_values in Ht as [k Hk]. eauto.
  - intros [(t & Ht & <-)|[(t & Ht & <-)|(k & t & Ht & <-)]]; [left; eauto| |].
    + right. left. exists t. split; [done|]. rewrite Ht. by apply list_elem_of_singleton.
    + right. right. exists t. split; [done|]. apply elem_of_values. eauto.
Qed.

Lemma no_new_step f : (∀ s, sched_step s (f s)) → (∀ s, sched_wf s → ∀ i, i ∈ task_ids (f s) → i ∈ task_ids s) → no_new f.
Proof. intros Hs Hi s Hwf. split; [by eapply sched_step_wf|auto]. Qed.

Lemma schedule_next_sub s i : i ∈ task_ids (schedule_next s).2 → i ∈ task_ids s.
Proof.
  unfold schedule_next. destruct (ready s) as [|t r] eqn:Hr; [done|]. rewrite !elem_of_task_ids, Hr. simpl.
  intros [(x & Hx & <-)|[(x & [= <-] & <-)|?]]; [left|left|by right; right]; [exists x|exists t]; split; set_solver.
Qed.
Lemma block_no_new : no_new (fun s => (block_current s).2).
Proof.
  apply no_new_step; [constructor|]. intros s _ i. unfold block_current. destruct (Sched.current s) as [c|] eqn:Hc; [|done]. simpl.
  intros Hi%schedule_next_sub. rewrite elem_of_task_ids in Hi |- *. simpl in Hi.
  destruct Hi as [?|[(? & ? & ?)|(k & t & Ht & <-)]]; [by left|done|].
  apply lookup_insert_Some in Ht as [[_ <-]|[_ Ht]]; [right; left; eauto|right; right; eauto].
Qed.
Lemma yield_no_new : no_new (fun s => (yield_now s).2).
Proof.
  apply no_new_step; [constructor|]. intros s _ i. unfold yield_now. destruct (Sched.current s) as [c|] eqn:Hc; intros Hi%schedule_next_sub; [|done].
  rewrite elem_of_task_ids in Hi |- *. case_decide; simpl in Hi; destruct Hi as [(t & Ht & <-)|[(? & ? & ?)|?]]; try done; eauto.
  apply elem_of_app in Ht as [Ht|Ht%list_elem_of_singleton]; [eauto|subst t; right; left; eauto].
Qed.
Lemma wake_tasks_no_new ks : no_new (fun s => (wake_tasks s ks).2).
Proof. intros s Hwf. destruct (wake_tasks_wf s ks Hwf) as [Hw Hp]. split; [done|]. intros i. by rewrite Hp. Qed.
Lemma wake_task_no_new k : no_new (fun s => (wake_task s k).2).
Proof. intros s Hwf. split; [by apply wake_task_wf|]. intros i. by rewrite wake_task_ids. Qed.
Lemma remove_no_new k : no_new (fun s => (remove_task s k).2).
Proof.
  apply no_new_step; [constructor|]. intros s _ i. unfold remove_task. rewrite !elem_of_task_ids.
  destruct (is_current s k); simpl; [naive_solver|]. destruct (position _ _) as [n|]; simpl.
  - intros [(t & Ht & <-)|?]; [|by right]. left. exists t. split; [|done]. rewrite <- (take_drop n (ready s)).
    apply elem_of_app in Ht as [Ht|Ht]; apply elem_of_app; [by left|right]. eapply elem_of_submseteq; [exact Ht|].
    rewrite <- Nat.add_1_r, <- drop_drop. apply sublist_submseteq, sublist_drop.
  - intros [?|[?|(j & t & [_ Ht]%lookup_delete_Some & <-)]]; eauto 8.
Qed.
Lemma exit_group_no_new g : no_new (fun s => (exit_group s g).2).
Proof.
  apply no_new_step; [constructor|]. intros s _ i. rewrite !elem_of_task_ids. setoid_rewrite exit_group_blocked. unfold exit_group. simpl.
  intros [(t & [_ Ht]%list_elem_of_filter & <-)|[(t & Ht & <-)|(k & t & Ht & <-)]].
  - left. exists t. split; [|done]. destruct (Sched.current s); [destruct (_ =? _)|]; done.
  - right. left. exists t. split; [|done]. destruct (Sched.current s) as [c|] eqn:Hc; [destruct (_ =? _); [done|]|]; simpl in Ht; congruence.
  - right. right. exists k, t. split; [|done]. destruct (blocked s !! k); [case_decide|]; congruence.
Qed.
End Tasks.

(** ** The invariant *)
Section Inv.
Context {M : Type} `{!Obj.Ext4Ops M} `{!HalMemory} (can_reserve : Z → bool).
Abbreviation kernel := (kernel M).
Abbreviation kstm := (stm kernel).
Abbreviation ptable := (PTable.table Obj.FileHandle Z (Kernel.kenv M)).
#[local] Hint Extern 0 (KernelEnv _ _ _) => exact (Kernel.kernel_env can_reserve) : typeclass_instances.
Implicit Types (k : kernel).

(** Keyrings stay apart until the serial numbers are used up. *)
Definition keys_ok (s : Keys.KeyringState) : Prop :=
  1 ≤ Keys.next_serial s ≤ Keys.I32_MAX ∧ (Keys.next_serial s < Keys.I32_MAX → Keys.keys_inv s).

Record kernel_inv k : Prop := mkInv {
  ki_table : ProcSpec.wf (k_table k);
  ki_sched : Sched.sched_wf (k_sched k);
  ki_tasks : ∀ i, i ∈ Sched.task_ids (k_sched k) → i < next_pid (k_table k);
  ki_locks : lock_inv (k_locks k);
  ki_keys : keys_ok (k_keys k);
}.
Definition klater k k' : Prop := ProcSpec.later (k_table k) (k_table k').
#[global] Instance klater_preorder : PreOrder klater.
Proof. split; unfold klater; [intros k; reflexivity|intros ???; apply transitivity]. Qed.

(** The call keeps the invariant, whatever its outcome. *)
Definition kk {B} (m : kstm B) : Prop := ∀ k, kernel_inv k → kernel_inv (m k).2 ∧ klater k (m k).2.

Lemma kk_bind {A B} (m : kstm A) (f : A → kstm B) : kk m → (∀ a, kk (f a)) → kk (m ≫= f).
Proof.
  intros Hm Hf k Hi. destruct (Hm k Hi) as [Hi1 Hl1]. rewrite stm_bind_eq. destruct (m k) as [[a| | |] k1]; [|done..].
  destruct (Hf a k1 Hi1) as [Hi2 Hl2]. split; [done|]. by etrans.
Qed.
Lemma kk_ret {B} (b : B) : kk (mret b).
Proof. by intros k. Qed.
Lemma kk_fail {B} e : kk (fail (A := B) e).
Proof. by intros k. Qed.
Lemma kk_lift {B} (o : outcome B) : kk (lift o).
Proof. by intros k. Qed.
Lemma kk_get : kk get.
Proof. by intros k. Qed.

(** Steps on one part of the state. *)
Lemma table_inv (t : ptable) k : kernel_inv k → ProcSpec.wf t → ProcSpec.later (k_table k) t →
  kernel_inv (with_table t k) ∧ klater k (with_table t k).
Proof.
  intros [Ht Hs Hi Hl Hk] Hwf Hla. split; [|done]. split; simpl; try done. intros i Hin. specialize (Hi i Hin).
  unfold ProcSpec.later in Hla. lia.
Qed.
Lemma kk_on_table {B} (m : stm ptable B) : (∀ t, keeps ProcSpec.wf ProcSpec.later t m (fun _ _ => True)) → kk (on_table m).
Proof.
  intros Hm k Hi. destruct (Hm (k_table k) (ki_table _ Hi)) as (Hwf & Hla & _). unfold on_table.
  destruct (m (k_table k)) as [r t]. by apply table_inv.
Qed.
Lemma kk_on_kenv {B} (m : stm (Kernel.kenv M) B) : kk (on_kenv m).
Proof. apply kk_on_table. intros t. eapply keeps_weaken; [apply ProcSpec.on_env_keeps|done]. Qed.
Lemma kk_on_vfs {B} (m : stm (Vfs.KernelVfs M) B) : kk (on_vfs m).
Proof. apply kk_on_kenv. Qed.
Lemma kk_ask_table {B} (f : ptable → outcome B) : kk (ask_table f).
Proof. by intros k. Qed.
Lemma kk_get_vfs : kk get_vfs.
Proof. by intros k. Qed.
Lemma kk_on_cur {B} (m : stm (Process Obj.FileHandle Z * Kernel.kenv M) B) :
  (∀ p e, tid (m (p, e)).2.1 = tid p) → kk (on_cur m).
Proof.
  intros Hm. apply kk_on_table. intros t Hwf. destruct (PTable.current t) as [p| | |] eqn:Hc; [|by split_and!; [|reflexivity|]..].
  apply ProcSpec.current_lookup in Hc. specialize (Hm p (env t)). destruct (m (p, env t)) as [r [p' e]]. simpl in *.
  destruct (ProcSpec.put_found_keeps t (current_tid t) p p' Hc Hm Hwf) as (Hwf' & Hl & _).
  split_and!; [|done|done]. by destruct Hwf'.
Qed.
Lemma kk_on_proc {B} (m : stm (Process Obj.FileHandle Z) B) : (∀ p, tid (m p).2 = tid p) → kk (on_proc m).
Proof. intros Hm. apply kk_on_cur. intros p e. specialize (Hm p). by destruct (m p). Qed.
Lemma kk_on_fd {B} fd (m : stm (Obj.FileHandle * Vfs.KernelVfs M) B) : kk (on_fd fd m).
Proof. apply kk_on_cur. intros p e. destruct (fd_get p fd) as [h| | |]; [|done..]. by destruct (m _) as [r [h' v]]. Qed.
Lemma kk_update_cur f : ProcSpec.same_tid f → kk (update_cur f).
Proof. intros Hf. apply kk_on_table. intros t. by apply ProcSpec.update_current_keeps. Qed.

Lemma kk_on_sched {B} (f : Sched.Scheduler → B * Sched.Scheduler) : no_new (fun s => (f s).2) → kk (on_sched f).
Proof.
  intros Hf k [Ht Hs Hi Hl Hk]. destruct (Hf _ Hs) as [Hs' Hsub]. unfold on_sched. destruct (f (k_sched k)) as [b s]. simpl in *.
  split; [|unfold klater; reflexivity]. split; simpl; auto.
Qed.
Lemma kk_attempt {B} (m : kstm B) : kk m → kk (attempt m).
Proof. intros Hm k Hi. specialize (Hm k Hi). unfold attempt. by destruct (m k) as [[]]. Qed.
Lemma kk_err_as {B} code (m : kstm B) : kk m → kk (err_as code m).
Proof. intros Hm k Hi. specialize (Hm k Hi). unfold err_as. by destruct (m k). Qed.
Lemma kk_owning {B} h (m : kstm B) : kk m → kk (owning can_reserve h m).
Proof.
  intros Hm k Hi. destruct (Hm k Hi) as [Hi1 Hl1]. unfold owning. destruct (m k) as [r k1]. cbn [snd] in *.
  destruct (kk_on_kenv (modify (handle_drop h)) k1 Hi1) as [Hi2 Hl2]. split; [exact Hi2|]. etrans; [exact Hl1|exact Hl2].
Qed.
Lemma kk_clear f : (∀ l, lock_inv l → lock_inv (f l).2) → kk (clear_locks f).
Proof.
  intros Hf k [Ht Hs Hi Hl Hk]. unfold clear_locks. specialize (Hf _ Hl). destruct (f _) as [b l].
  split; [by split|unfold klater; reflexivity].
Qed.
Lemma kk_on_keys {B} (m : stm Keys.KeyringState B) : (∀ s, keys_ok s → keys_ok (m s).2) → kk (on_keys m).
Proof.
  intros Hm k [Ht Hs Hi Hl Hk]. specialize (Hm _ Hk). unfold on_keys. destruct (m (k_keys k)) as [r s].
  split; [by split|unfold klater; reflexivity].
Qed.
(** A change outside the parts the invariant speaks of. *)
Definition elsewhere k k' : Prop :=
  k_table k' = k_table k ∧ k_sched k' = k_sched k ∧ k_locks k' = k_locks k ∧ k_keys k' = k_keys k.
Lemma elsewhere_inv k k' : elsewhere k k' → kernel_inv k → kernel_inv k' ∧ klater k k'.
Proof.
  intros (Ht & Hs & Hl & Hk) [Ht1 Hs1 Hi1 Hl1 Hk1]. split; [|unfold klater; rewrite Ht; reflexivity].
  split; rewrite ?Ht, ?Hs, ?Hl, ?Hk; done.
Qed.
Lemma kk_modify f : (∀ k, elsewhere k (f k)) → kk (modify f).
Proof. intros Hf k Hi. by apply elsewhere_inv. Qed.

(** What was read from the name space may be used in the rest. *)
Lemma kk_ask_bind {A B} (f : Vfs.KernelVfs M → outcome A) (g : A → kstm B) :
  (∀ v a, f v = Ok a → kk (g a)) → kk (ask_vfs f ≫= g).
Proof.
  intros Hg k Hi. rewrite stm_bind_eq. unfold ask_vfs. rewrite stm_bind_eq. cbv [get_vfs lift]. cbv beta iota.
  destruct (f _) as [a| | |] eqn:Hf; [|done..]. by apply (Hg _ _ Hf).
Qed.
Lemma kk_get_bind {B} (g : kernel → kstm B) :
  (∀ k, kernel_inv k → kernel_inv (g k k).2 ∧ klater k (g k k).2) → kk (get ≫= g).
Proof. intros Hg k Hi. rewrite stm_bind_eq. by apply Hg. Qed.

(** *** Table operations of the calls *)
Lemma kk_table_method {B} m : ProcSpec.table_method B m → kk (on_table (M := M) m).
Proof. intros Hm. apply kk_on_table. intros t. by apply ProcSpec.table_method_keeps. Qed.
Lemma kk_send_signal i s : kk (on_table (M := M) (send_signal i s)).
Proof. apply kk_on_table. intros t. apply ProcSpec.send_signal_keeps. Qed.
Lemma kk_notify_parent g : kk (on_table (M := M) (notify_parent g)).
Proof. apply kk_on_table. intros t. apply ProcSpec.notify_parent_keeps. Qed.
Lemma kk_clear_futex i : kk (on_table (M := M) (modify (clear_futex_wait_state i))).
Proof.
  apply kk_on_table. intros t. apply keeps_modify. intros Hwf. destruct (ProcSpec.clear_futex_wait_wf t i Hwf). done.
Qed.
Lemma kk_on_futex {B} (f : gmap Z (list Z) → B * gmap Z (list Z)) :
  (∀ m, ProcSpec.queues_ok m → ProcSpec.queues_ok (f m).2) → kk (SysProc.on_futex (M := M) f).
Proof.
  intros Hf. apply kk_on_table. intros t Hwf. specialize (Hf _ (ProcSpec.wf_queues _ Hwf)).
  destruct (f (futex_waiters t)) as [b m]. simpl in *.
  destruct (ProcSpec.futex_step_wf t m Hwf Hf). split_and!; done.
Qed.

(** *** New threads *)
(** The state a new id was given out from: no task has it. *)
Definition unused (i : Z) k : Prop := i < next_pid (k_table k) ∧ i ∉ Sched.task_ids (k_sched k).

Definition fresh_id (m : stm ptable Z) : Prop := ∀ t i, (m t).1 = Ok i → i = next_pid t ∧ next_pid t < next_pid (m t).2.

Lemma created_fresh m : ProcSpec.creates m → fresh_id m.
Proof. intros Hm t i Hi. by destruct (ProcSpec.creates_fresh m t i Hm Hi) as (? & ? & _). Qed.
Lemma fork_fresh : fresh_id fork_process_from_current.
Proof. apply created_fresh. constructor. Qed.
Lemma fork_shared_fresh : fresh_id fork_process_from_current_shared.
Proof. apply created_fresh. constructor. Qed.
Lemma clone_fresh st tls : fresh_id (clone_thread_from_current st tls).
Proof. apply created_fresh. constructor. Qed.

Lemma spawn_fresh nm par entry : fresh_id (spawn nm par entry).
Proof. apply created_fresh. constructor. Qed.

(** A step that adds no task. *)
Definition kq {B} (m : kstm B) : Prop := ∀ k, kernel_inv k →
  kernel_inv (m k).2 ∧ klater k (m k).2 ∧ ∀ i, i ∈ Sched.task_ids (k_sched (m k).2) → i ∈ Sched.task_ids (k_sched k).
(** A step that may start the task with the new id [i]. *)
Definition ku (i : Z) {B} (m : kstm B) : Prop := ∀ k, kernel_inv k → unused i k → kernel_inv (m k).2 ∧ klater k (m k).2.

Lemma kq_bind {A B} (m : kstm A) (f : A → kstm B) : kq m → (∀ a, kq (f a)) → kq (m ≫= f).
Proof.
  intros Hm Hf k Hi. destruct (Hm k Hi) as (Hi1 & Hl1 & Hs1). rewrite stm_bind_eq. destruct (m k) as [[a| | |] k1]; [|done..].
  destruct (Hf a k1 Hi1) as (Hi2 & Hl2 & Hs2). split_and!; [done|by etrans|auto].
Qed.
Lemma kq_ret {B} (b : B) : kq (mret b).
Proof. by intros k. Qed.
Lemma kq_fail {B} e : kq (fail (A := B) e).
Proof. by intros k. Qed.
Lemma kq_lift {B} (o : outcome B) : kq (lift o).
Proof. by intros k. Qed.
Lemma kq_ask_table {B} (f : ptable → outcome B) : kq (ask_table f).
Proof. by intros k. Qed.
Lemma kq_on_table {B} (m : stm ptable B) : kk (on_table m) → kq (on_table m).
Proof.
  intros Hm k Hi. destruct (Hm k Hi) as [Hi1 Hl1]. split_and!; [done|done|]. unfold on_table. by destruct (m (k_table k)).
Qed.
Lemma kq_block : kq block_current.
Proof.
  intros k Hi. destruct (kk_on_sched _ block_no_new k Hi) as [Hi1 Hl1]. unfold block_current. rewrite stm_bind_eq.
  destruct (block_no_new _ (ki_sched _ Hi)) as [_ Hs]. unfold on_sched in *. destruct (Sched.block_current (k_sched k)) as [b s]. done.
Qed.
Lemma kq_write addr bs : kq (write_user can_reserve addr bs).
Proof.
  apply kq_bind; [apply kq_ask_table|]. intros p k Hi.
  destruct (kq_on_table (on_env (space_write (address_space p) addr bs)) (kk_on_kenv _) k Hi) as (? & ? & ?).
  unfold err_as. unfold on_kenv. destruct (on_table _ k). done.
Qed.

Lemma ku_bind {A B} i (m : kstm A) (f : A → kstm B) : kq m → (∀ a, ku i (f a)) → ku i (m ≫= f).
Proof.
  intros Hm Hf k Hi [Hlt Hn]. destruct (Hm k Hi) as (Hi1 & Hl1 & Hs1). rewrite stm_bind_eq. destruct (m k) as [[a| | |] k1]; [|done..].
  destruct (Hf a k1 Hi1) as [Hi2 Hl2]; [|split; [done|by etrans]]. split; [|auto]. unfold klater, ProcSpec.later in Hl1. simpl in Hl1. lia.
Qed.
Lemma ku_spawn {B} nm i g (f : () → kstm B) : (∀ u, kk (f u)) → ku i (SysProc.spawn_task nm i g ≫= f).
Proof.
  intros Hf k Hi [Hlt Hn]. rewrite stm_bind_eq. unfold SysProc.spawn_task.
  destruct (Sched.spawn (k_sched k) nm i g) as [[j s]| | |] eqn:Hsp; [|done..].
  apply (Hf tt (with_sched s k)). destruct Hi as [Ht Hs Hids Hl Hk]. split; simpl; try done; [by eapply Sched.spawn_wf|].
  intros x. destruct (Sched.spawn_ids _ _ _ _ _ _ Hsp) as [_ ->]. rewrite elem_of_cons. naive_solver.
Qed.
Lemma kk_new {B} (m : stm ptable Z) (f : Z → kstm B) :
  kk (on_table m) → fresh_id m → (∀ i, ku i (f i)) → kk (on_table m ≫= f).
Proof.
  intros Hm Hfr Hf k Hi. destruct (Hm k Hi) as [Hi1 Hl1]. rewrite stm_bind_eq. specialize (Hfr (k_table k)).
  unfold on_table in *. destruct (m (k_table k)) as [[i| | |] t]; [|done..]. destruct (Hfr i eq_refl) as [-> Hlt].
  destruct (Hf (next_pid (k_table k)) (with_table t k) Hi1) as [Hi2 Hl2]; [|split; [done|by etrans]].
  split; [done|]. intros Hin%(ki_tasks _ Hi). lia.
Qed.

Lemma kq_put_found i (c : Process Obj.FileHandle Z) (t : ptable) k p :
  processes (k_table k) !! i = Some p → tid c = tid p → kernel_inv k →
  kernel_inv (on_table (put_process i c) k).2 ∧ klater k (on_table (put_process i c) k).2 ∧
  k_sched (on_table (put_process i c) k).2 = k_sched k ∧ processes (k_table (on_table (put_process i c) k).2) !! i = Some c.
Proof.
  intros Hp Hc Hi. destruct (ProcSpec.put_found_keeps (k_table k) i p c Hp Hc (ki_table _ Hi)) as (Hwf & Hl & _).
  unfold on_table. cbn -[put_process]. destruct (table_inv (with_processes (<[i := c]> (processes (k_table k))) (k_table k)) k Hi Hwf Hl).
  split_and!; try done. simpl. by rewrite lookup_insert_eq.
Qed.

Lemma kq_fork_child r i : kq (SysProc.fork_child can_reserve r i).
Proof.
  intros k Hi. unfold SysProc.fork_child. rewrite stm_bind_eq. unfold cur, ask_table.
  destruct (PTable.current (k_table k)) as [p| | |]; [|done..]. rewrite stm_bind_eq. cbv beta iota. rewrite stm_bind_eq. unfold lift.
  destruct (processes (k_table k) !! i) as [c|] eqn:Hc; [|done]. cbn [ok_or]. cbv beta iota zeta. set (c1 := set_frame _ c).
  rewrite stm_bind_eq. destruct (kq_put_found i c1 (k_table k) k c Hc eq_refl Hi) as (Hi1 & Hl1 & Hs1 & Hp1).
  change (on_table (put_process i c1) k) with (Ok (A := unit) tt, (on_table (put_process i c1) k).2). cbv beta iota.
  revert Hi1 Hl1 Hs1 Hp1. generalize (on_table (put_process i c1) k).2. intros k1 Hi1 Hl1 Hs1 Hp1.
  rewrite stm_bind_eq.
  set (w := if _ && _ then on_kenv _ else mret tt).
  assert (kernel_inv (w k1).2 ∧ klater k1 (w k1).2 ∧ k_sched (w k1).2 = k_sched k1 ∧ processes (k_table (w k1).2) = processes (k_table k1)) as (Hi2 & Hl2 & Hs2 & Hp2).
  { unfold w. destruct (_ && _); [|by split_and!; [|reflexivity|..]].
    set (m := try_write _ _ _). destruct (kk_on_kenv m k1 Hi1). split_and!; [done|done|..]; unfold on_kenv, on_table, on_env; by destruct (m _). }
  rewrite <- Hp2 in Hp1. rewrite <- Hs1, <- Hs2. clear Hs1 Hs2 Hp2. clearbody w. destruct (w k1) as [[u| | |] k2]; cbn [snd] in *.
  2-4: split_and!; [done|by etrans|done].
  destruct (_ && _); [|split_and!; [exact Hi2|etrans; [exact Hl1|exact Hl2]|by intros ?]].
  destruct (kq_put_found i (set_clear_tid (Some (Abi.cl_child_tid r)) c1) (k_table k2) k2 c1 Hp1 eq_refl Hi2) as (Hi3 & Hl3 & Hs3 & _).
  split_and!; [done|by do 2 etrans|by rewrite Hs3].
Qed.
End Inv.

(** ** Stepping through the code of a call *)
(** A method of a process keeps its thread id: run it. *)
Ltac tid_tac :=
  intros; repeat (rewrite ?stm_bind_eq; cbv beta iota zeta delta [get put lift fail modify mret stm_ret]);
  repeat (case_match; simplify_eq/=; rewrite ?stm_bind_eq; cbv beta iota zeta delta [get put lift fail modify mret stm_ret]); try done.

Section Handles.
Context {M : Type} `{!Obj.Ext4Ops M} `{!HalMemory} (can_reserve : Z → bool).
#[local] Hint Extern 0 (KernelEnv _ _ _) => exact (Kernel.kernel_env can_reserve) : typeclass_instances.
Abbreviation process := (Process Obj.FileHandle Z).

Lemma add_fd_tid h (p : process) : tid (add_fd h p).2 = tid p.
Proof. unfold add_fd. tid_tac. Qed.
Lemma close_fd_tid fd (p : process) (e : Kernel.kenv M) : tid (close_fd fd (p, e)).2.1 = tid p.
Proof. unfold close_fd. tid_tac. Qed.
Lemma sync_from_tid fd (p : process) : tid (sync_fd_offset_from_alias (E := Kernel.kenv M) fd p).2 = tid p.
Proof. unfold sync_fd_offset_from_alias. tid_tac. Qed.
Lemma sync_to_tid fd (p : process) : tid (sync_fd_offset_to_aliases (E := Kernel.kenv M) fd p).2 = tid p.
Proof. unfold sync_fd_offset_to_aliases. tid_tac. Qed.
Lemma add_fd_from_tid fd h (p : process) : tid (add_fd_from (E := Kernel.kenv M) fd h p).2 = tid p.
Proof.
  unfold add_fd_from. rewrite stm_bind_eq. pose proof (add_fd_tid h p) as Ha. destruct (add_fd h p) as [[n| | |] q]; [|done..].
  cbn [snd] in Ha. rewrite <- Ha. rewrite stm_bind_eq. cbv beta iota delta [get]. rewrite stm_bind_eq. unfold lift.
  destruct (fd_alias_leader q fd) as [l| | |]; [|done..]. rewrite stm_bind_eq. cbv beta iota delta [put]. rewrite stm_bind_eq.
  pose proof (sync_from_tid n (set_alias (<[n := l]> (fd_alias q)) q)) as Hs.
  by destruct (sync_fd_offset_from_alias n _) as [[]].
Qed.
End Handles.

Create HintDb kk discriminated.
#[export] Hint Constants Opaque : kk.
Create HintDb table discriminated.
#[export] Hint Constants Opaque : table.
#[export] Hint Constructors ProcSpec.table_method : table.
#[export] Hint Resolve kk_ret kk_fail kk_lift kk_get kk_ask_table kk_on_kenv kk_on_vfs kk_on_fd kk_get_vfs kk_send_signal
  kk_notify_parent kk_clear_futex : kk.
#[export] Hint Extern 1 (kk (modify _)) => (apply kk_modify; by intros k) : kk.
#[export] Hint Extern 1 (kk (on_table _)) => (first [apply (kk_table_method (fun _ => true)); solve [auto with table] | eapply kk_table_method; solve [auto with table]]) : kk.
#[export] Hint Extern 1 (kk (on_proc _)) =>
  (apply kk_on_proc; first [apply add_fd_tid|apply sync_from_tid|apply sync_to_tid|apply add_fd_from_tid|tid_tac]) : kk.
#[export] Hint Extern 1 (kk (on_cur _)) => (apply kk_on_cur; apply close_fd_tid) : kk.
#[export] Hint Extern 1 (kk (update_cur _)) => (apply kk_update_cur; intros p; unfold arm_cancellation_persistent; repeat case_match; reflexivity) : kk.
#[export] Hint Extern 1 (kk (clear_locks _)) =>
  (apply kk_clear; intros; first [by apply lock_inv_clear_owner | by apply lock_inv_clear_path]) : kk.
#[export] Hint Extern 1 (kk (on_sched _)) =>
  (apply kk_on_sched; first [apply block_no_new|apply yield_no_new|apply wake_tasks_no_new|apply wake_task_no_new
    |apply remove_no_new|apply exit_group_no_new|intros s; apply (wake_tasks_no_new (keys (Sched.blocked s)))]) : kk.
#[export] Hint Extern 1 (kk (SysProc.on_futex _)) =>
  (apply kk_on_futex; intros; first [by apply ProcSpec.wake_ok|by apply ProcSpec.enqueue_ok|by apply ProcSpec.requeue_ok]) : kk.

(** One step through the code of a call; a name without a lemma is unfolded. *)
Ltac kk_head t := lazymatch t with ?f _ => kk_head f | _ => t end.
Ltac kk_step :=
  first
  [ solve [auto with kk]
  | lazymatch goal with
    | |- kk (mbind _ _) => apply kk_bind; [|intros ?]
    | |- kk (attempt _) => apply kk_attempt
    | |- kk (err_as _ _) => apply kk_err_as
    | |- kk (owning _ _ _) => apply kk_owning
    | |- kk (match ?x with _ => _ end) => destruct x
    | |- kk (let '(_, _) := ?x in _) => destruct x
    | |- kk (on_table (match ?x with _ => _ end)) => destruct x
    | |- kk ?m => let h := kk_head m in unfold h; cbv zeta beta
    end ].
Ltac kk_solve := repeat kk_step.
(** The same for a call applied to a state. *)
Ltac kk_run :=
  match goal with |- kernel_inv (?m ?k).2 ∧ klater _ (?m ?k).2 =>
    let Hl := fresh in assert (kk m) as Hl by kk_solve; by apply Hl end.

Section Calls.
Context {M : Type} `{!Obj.Ext4Ops M} `{!HalMemory} (can_reserve : Z → bool) (loongarch : bool) (heap : kernel M → Z).
Abbreviation kernel := (kernel M).
Abbreviation kstm := (stm kernel).

(** Loops *)
Lemma kk_close_each owner l acc : kk (M := M) (SysFile.close_each can_reserve owner l acc).
Proof. revert acc. induction l as [|fd l IH]; intros acc; cbn [SysFile.close_each]; [apply kk_ret|]. apply kk_bind; [kk_solve|auto]. Qed.
Lemma kk_readv fd iovs total : kk (M := M) (SysFile.readv_loop can_reserve fd iovs total).
Proof. revert total. induction iovs as [|v iovs IH]; intros total; cbn [SysFile.readv_loop]; [apply kk_ret|]. repeat first [apply IH|kk_step]. Qed.
Lemma kk_writev fd pipe iovs total : kk (M := M) (SysFile.writev_loop can_reserve fd pipe iovs total).
Proof. revert total. induction iovs as [|v iovs IH]; intros total; cbn [SysFile.writev_loop]; [apply kk_ret|]. repeat first [apply IH|kk_step]. Qed.
Lemma kk_preadv h iovs total : kk (M := M) (SysFile.preadv_loop can_reserve h iovs total).
Proof. revert h total. induction iovs as [|v iovs IH]; intros h total; cbn [SysFile.preadv_loop]; [apply kk_ret|]. repeat first [apply IH|kk_step]. Qed.
Lemma kk_pwritev h iovs total : kk (M := M) (SysFile.pwritev_loop can_reserve h iovs total).
Proof. revert h total. induction iovs as [|v iovs IH]; intros h total; cbn [SysFile.pwritev_loop]; [apply kk_ret|]. repeat first [apply IH|kk_step]. Qed.
Lemma kk_each {B} (l : list B) (f : B → kstm unit) : (∀ x, kk (f x)) → kk (each l f).
Proof. intros Hf. induction l as [|x l IH]; cbn [each]; [apply kk_ret|]. apply kk_bind; auto. Qed.
Lemma kk_poll_all l : kk (M := M) (SysNet.poll_all l).
Proof. induction l as [|x l IH]; cbn [SysNet.poll_all]; [apply kk_ret|]. repeat first [apply IH|kk_step]. Qed.
Lemma kk_ready_members r l : (∀ h, kk (M := M) (r h)) → kk (SysNet.ready_members r l).
Proof. intros Hr. induction l as [|x l IH]; cbn [SysNet.ready_members]; [apply kk_ret|]. repeat first [apply IH|apply Hr|kk_step]. Qed.
Lemma kk_ready_watches room ws : kk (M := M) (SysNet.ready_watches room ws).
Proof.
  revert room. induction ws as [|x ws IH]; intros [|room]; cbn [SysNet.ready_watches]; try apply kk_ret.
  repeat first [apply IH|kk_step].
Qed.
Lemma kk_accept_loop n fd : kk (M := M) (SysNet.accept_loop n fd).
Proof. induction n as [|n IH]; cbn [SysNet.accept_loop]; repeat first [apply IH|kk_step]. Qed.
Lemma kk_sendmsg fd iovs total wake : kk (M := M) (SysNet.sendmsg_loop can_reserve fd iovs total wake).
Proof. revert total wake. induction iovs as [|v iovs IH]; intros total wake; cbn [SysNet.sendmsg_loop]; [apply kk_ret|]. repeat first [apply IH|kk_step]. Qed.
Lemma kk_recvmsg fd iovs total : kk (M := M) (SysNet.recvmsg_loop can_reserve fd iovs total).
Proof. revert total. induction iovs as [|v iovs IH]; intros total; cbn [SysNet.recvmsg_loop]; [apply kk_ret|]. repeat first [apply IH|kk_step]. Qed.

(** The call that sets locks. *)
Lemma kk_fcntl_lock fd cmd ptr : kk (M := M) (SysFile.sys_fcntl_lock can_reserve fd cmd ptr).
Proof.
  unfold SysFile.sys_fcntl_lock. apply kk_bind; [kk_solve|intros owner]. unfold with_clone.
  apply kk_bind; [kk_solve|intros h]. apply kk_bind; [kk_solve|intros _]. apply kk_owning.
  apply kk_bind; [kk_solve|intros request]. destruct (negb _); [kk_solve|].
  apply kk_ask_bind. intros v [start e] Hn%normalize_lock_range_valid. apply kk_get_bind. intros k Hk.
  set (conflict := first_conflict _ _ _ _ _ _). destruct (cmd =? 5).
  { kk_run. }
  destruct (_ && _) eqn:Hb.
  { kk_run. }
  assert (l_type request = F_UNLCK ∨ conflict = None) as Hgrant.
  { destruct (Z.eqb_spec (l_type request) F_UNLCK); [by left|right]. simpl in Hb. apply bool_decide_eq_false in Hb.
    by apply eq_None_not_Some. }
  rewrite stm_bind_eq. unfold clear_locks.
  pose proof (lock_inv_apply _ _ _ _ _ _ (ki_locks _ Hk) Hn Hgrant) as Hi.
  destruct (apply_lock _ _ _ _ _ _) as [changed l]. cbn [snd] in Hi.
  assert (kernel_inv (with_locks l k)) as Hk1 by (by destruct Hk).
  match goal with |- kernel_inv (?m ?k1).2 ∧ _ => assert (kk m) as Hm by kk_solve end.
  exact (Hm _ Hk1).
Qed.

(** New threads and processes. *)
Lemma kk_clone_thread nm r : kk (M := M) (SysProc.clone_thread can_reserve nm r).
Proof.
  unfold SysProc.clone_thread. apply kk_new; [auto with kk|apply clone_fresh|intros i].
  apply ku_bind; [destruct (_ && _); [apply kq_write|apply kq_ret]|intros _].
  apply ku_bind; [apply kq_ask_table|intros me]. apply ku_bind; [apply kq_on_table; auto with kk|intros _].
  apply ku_bind; [destruct (_ && _); [apply kq_write|apply kq_ret]|intros _].
  apply ku_bind; [destruct (_ && _); [apply kq_on_table; auto with kk|apply kq_ret]|intros _].
  apply ku_bind; [apply kq_ask_table|intros g]. apply ku_bind; [apply kq_on_table; auto with kk|intros _].
  apply (ku_spawn can_reserve). intros _. apply kk_ret.
Qed.
Lemma kk_do_clone r : kk (M := M) (SysProc.do_clone can_reserve r).
Proof.
  unfold SysProc.do_clone. apply kk_bind; [kk_solve|intros p]. cbv zeta. destruct (SysProc.has _ _); [apply kk_fail|].
  destruct (SysProc.has _ _). { destruct (_ =? _); [apply kk_clone_thread|apply kk_fail]. }
  apply kk_new; [destruct (SysProc.has _ _); auto with kk|destruct (SysProc.has _ _); [apply fork_shared_fresh|apply fork_fresh]|intros i].
  apply ku_bind; [destruct (_ && _); [apply kq_write|apply kq_ret]|intros _]. apply ku_bind; [apply kq_fork_child|intros _].
  apply ku_bind; [destruct (_ =? _); [apply kq_ret|apply kq_on_table; auto with kk]|intros _].
  apply ku_bind; [|intros _; apply (ku_spawn can_reserve); intros _; apply kk_ret].
  destruct (SysProc.has _ _); [|apply kq_ret]. apply kq_bind; [apply kq_ask_table|intros me].
  apply kq_bind; [apply kq_on_table; auto with kk|intros _; apply kq_block].
Qed.

(** Programs. *)
Lemma kk_read_image n h data : kk (M := M) (SysExec.read_image_loop n h data).
Proof. revert h data. induction n as [|n IH]; intros h data; cbn [SysExec.read_image_loop]; [apply kk_lift|]. repeat first [apply IH|kk_step]. Qed.
#[local] Hint Resolve kk_read_image : kk.
Lemma kk_load_interp l : kk (M := M) (SysExec.load_interp can_reserve l).
Proof. induction l as [|c l IH]; cbn [SysExec.load_interp]; [apply kk_fail|]. repeat first [apply IH|kk_step]. Qed.
#[local] Hint Resolve kk_load_interp : kk.
Lemma kk_exec_loop b n dir display envp st : kk (M := M) (SysExec.exec_loop can_reserve loongarch b n dir display envp st).
Proof.
  revert st. induction n as [|n IH]; intros st; cbn [SysExec.exec_loop]; [apply kk_lift|].
  apply kk_bind; [kk_solve|]. intros [v|st']; [apply kk_ret|apply IH].
Qed.

(** Keyrings. *)
Lemma keys_ok_step ok (s s' : Keys.KeyringState) : Keys.keys_step (H := Obj.FileHandle) (A := Z) ok s s' → keys_ok s → keys_ok s'.
Proof.
  intros Hs [Hn Hi]. pose proof (Keys.next_serial_step _ _ _ Hs Hn) as Hb. split; [lia|]. intros Hlt.
  by destruct (Keys.keys_step_ok _ _ _ Hs (Hi ltac:(lia)) Hlt).
Qed.
Lemma kk_resolve_keyring (p : Process Obj.FileHandle Z) id create : kk (M := M) (on_keys (Keys.resolve_keyring_serial p id create)).
Proof. apply kk_on_keys. intros s. apply (keys_ok_step Keys.anyone). constructor. Qed.
Lemma kk_add_key (p : Process Obj.FileHandle Z) ty desc len id : kk (M := M) (on_keys (Keys.add_key p ty desc len id)).
Proof.
  apply kk_on_keys. intros s Hs.
  destruct (Keys.add_key_cases p ty desc len id s) as [->|[->|(n & s1 & r & _ & Hr & Hn & ->)]]; [done|..].
  - apply (keys_ok_step Keys.anyone s); [constructor|done].
  - assert (keys_ok s1) as [Hb Hi].
    { pose proof (keys_ok_step Keys.anyone s _ (Keys.step_resolve _ _ p id true) Hs) as H1. by rewrite Hr in H1. }
    split; [done|]. intros Hlt. by destruct (Keys.push_ok n r (Keys.mkEntry ty (Keys.uid_prefix (uid p) ++ desc) len) s1 Hn (Hi Hlt)).
Qed.
End Calls.

#[export] Hint Resolve kk_close_each kk_readv kk_writev kk_preadv kk_pwritev kk_poll_all kk_ready_watches
  kk_accept_loop kk_sendmsg kk_recvmsg kk_fcntl_lock kk_do_clone kk_exec_loop kk_resolve_keyring kk_add_key : kk.
#[export] Hint Extern 1 (kk (each _ _)) => (apply kk_each; intros; kk_solve) : kk.
#[export] Hint Extern 1 (kk (SysNet.ready_members _ _)) => (apply kk_ready_members; intros; kk_solve) : kk.

Section Runs.
Context {M : Type} `{!Obj.Ext4Ops M} `{!HalMemory} (can_reserve : Z → bool) (loongarch : bool) (heap : kernel M → Z)
  (builtin_program : string → option SysExec.BuiltinProgram).

Lemma all_calls_kk : Forall (fun '(_, f) => ∀ args, kk (f args)) (all_calls (M := M) can_reserve loongarch heap builtin_program).
Proof.
  unfold all_calls, fs_domain, io_mpx_domain, ipc_domain, mm_domain, net_domain, resources_domain, signal_domain,
    sys_domain, task_domain, time_domain. cbn [app].
  repeat (apply Forall_cons_2; [intros args; kk_solve|]). apply Forall_nil_2.
Qed.
End Runs.

End SysInv.
