(* ===== verification/SysRun.v ===== *)
(** * Running calls on the current process

    What the accessors of [Sys] do to a kernel with a given current process. *)

From S2P Require Import Prelude Task AddrSpace Path FileObject Vfs Process KernelEnv ProcTable Locks Abi Keys Sys SysProc.

Open Scope Z_scope.

Module SysRun.
Import Proc PTable Sys.

Section Run.
Context {M : Type} `{!Obj.Ext4Ops M} `{!HalMemory} (can_reserve : Z → bool).
#[local] Hint Extern 0 (KernelEnv _ _ _) => exact (Kernel.kernel_env can_reserve) : typeclass_instances.
Abbreviation process := (Process Obj.FileHandle Z).
Implicit Types (k : kernel M) (p q : process) (e : Kernel.kenv M).

Definition put_cur q k : kernel M :=
  with_table (with_processes (<[current_tid (k_table k) := q]> (processes (k_table k))) (k_table k)) k.
Definition put_env e k : kernel M := with_table (with_env e (k_table k)) k.

Lemma current_put_cur q k : current (k_table (put_cur q k)) = Ok q.
Proof. unfold current. simpl. by rewrite lookup_insert_eq. Qed.
Lemma current_put_env e k : current (k_table (put_env e k)) = current (k_table k).
Proof. done. Qed.
Lemma put_cur_twice q q' k : put_cur q' (put_cur q k) = put_cur q' k.
Proof. unfold put_cur, with_table. simpl. by rewrite insert_insert_eq. Qed.
Lemma cur_run k p : current (k_table k) = Ok p → cur k = (Ok p, k).
Proof. intros Hp. unfold cur, ask_table. by rewrite Hp. Qed.
Lemma update_cur_run f k p : current (k_table k) = Ok p → update_cur f k = (Ok tt, put_cur (f p) k).
Proof.
  intros Hp. unfold update_cur, on_table, update_current. stm_step. stm_step. by rewrite Hp.
Qed.
Lemma with_reader_run {B} (f : (Z → Z → outcome (list Z)) → (Z → outcome String.string) → outcome B) k p :
  current (k_table k) = Ok p →
  with_reader can_reserve f k =
    (f (fun addr n => Abi.map_err Abi.EFAULT (space_read (address_space p) addr n (env (k_table k))))
       (fun addr => Abi.map_err Abi.EFAULT (space_cstr can_reserve (address_space p) addr (env (k_table k)))), k).
Proof. intros Hp. unfold with_reader. rewrite stm_bind_eq, (cur_run _ _ Hp). done. Qed.

Definition put_futex (m : gmap Z (list Z)) k : kernel M := with_table (with_futex m (k_table k)) k.
Lemma on_futex_run {B} (f : gmap Z (list Z) → B * gmap Z (list Z)) k :
  SysProc.on_futex f k = (Ok (f (futex_waiters (k_table k))).1, put_futex (f (futex_waiters (k_table k))).2 k).
Proof. unfold SysProc.on_futex, on_table, put_futex. by destruct (f (futex_waiters (k_table k))). Qed.
Lemma on_sched_run {B} (f : Sched.Scheduler → B * Sched.Scheduler) k :
  on_sched f k = (Ok (f (k_sched k)).1, with_sched (f (k_sched k)).2 k).
Proof. unfold on_sched. by destruct (f (k_sched k)). Qed.
Lemma block_run k : block_current k = (Ok tt, with_sched (Sched.block_current (k_sched k)).2 k).
Proof. unfold block_current. by rewrite stm_bind_eq, on_sched_run. Qed.
End Run.
End SysRun.
