(* ===== verification/KernelCore.v ===== *)
(** * The kernel loop (crates/kernel-core/src/lib_riscv.inc.rs)

    Traps, signal delivery, the watchdog, the scheduler loop and the start of
    the first process.

    [run_user] is the processor running a user program in its address space
    until it traps: it may change the registers and the memory.  The file name space the boot code
    has mounted and filled is the state the boot starts from.  Timer
    programming, interrupt acknowledgement, counters and tables that only feed
    diagnostic lines are left out. *)

From S2P Require Import Prelude Task AddrSpace Elf Path FileObject Vfs Process KernelEnv ProcTable Locks Abi Keys Sys SysProc SysMem SysExec SysDispatch.

Open Scope string_scope.
Open Scope list_scope.
Open Scope Z_scope.

Module KernelCore.
Import Proc PTable Abi Sys.

Definition USER_INIT_BASE : Z := 0x00400000.
Definition EAGAIN_RET : Z := -11.
Definition SCHED_TIME_SLICE_NS : Z := 10000000.
Definition FORCED_PREEMPT_DELTA_NS : Z := 5000000.
Definition SECOND : Z := 1000000000.
Definition OSCOMP_GROUP_TIMEOUT_NS : Z := 20 * 60 * SECOND.
Definition OSCOMP_HEAVY_TIMEOUT_NS : Z := OSCOMP_GROUP_TIMEOUT_NS.
Definition OSCOMP_BUSYBOX_APPLET_TIMEOUT_NS : Z := 600 * SECOND.
Definition OSCOMP_BUSYBOX_SUPERVISOR_TIMEOUT_NS : Z := 1200 * SECOND.
Definition OSCOMP_LIBCTEST_ENTRY_TIMEOUT_NS : Z := 10 * SECOND.
Definition OSCOMP_BENCH_PHASE_WINDOW_NS : Z := 300 * SECOND.
Definition OSCOMP_LMBENCH_TIMEOUT_NS : Z := 900 * SECOND.
Definition OSCOMP_UNIXBENCH_TIMEOUT_NS : Z := 900 * SECOND.
Definition OSCOMP_BENCH_SUPERVISOR_TIMEOUT_NS : Z :=
  Z.max OSCOMP_LMBENCH_TIMEOUT_NS OSCOMP_UNIXBENCH_TIMEOUT_NS + 30 * SECOND.
Definition OSCOMP_WATCHDOG_SCAN_INTERVAL_NS : Z := 100000000.
Definition OSCOMP_IOZONE_BUSYBOX_WINDOW_NS : Z := 0.
Definition OSCOMP_IOZONE_BUSYBOX_TIMEOUT_NS : Z := OSCOMP_GROUP_TIMEOUT_NS.
Definition OSCOMP_SUITE_ENTRY_PATH : string := "/tmp/whuse-oscomp-entry.sh".
Definition OSCOMP_REQUIRED_TEST_FILES : list string :=
  ["/musl/busybox"; "/musl/basic_testcode.sh"; "/musl/busybox_testcode.sh"; "/musl/libcbench_testcode.sh";
   "/musl/libc-bench"; "/musl/iozone_testcode.sh"; "/musl/iozone"; "/musl/libctest_testcode.sh";
   "/musl/lmbench_testcode.sh"; "/musl/lua_testcode.sh"; "/musl/lua"; "/musl/ltp_testcode.sh"; "/musl/runtest.exe";
   "/musl/entry-static.exe"; "/musl/entry-dynamic.exe"; "/glibc/busybox"; "/glibc/basic_testcode.sh";
   "/glibc/busybox_testcode.sh"; "/glibc/libcbench_testcode.sh"; "/glibc/libc-bench"; "/glibc/iozone_testcode.sh";
   "/glibc/iozone"; "/glibc/lmbench_testcode.sh"; "/glibc/lua_testcode.sh"; "/glibc/lua"; "/glibc/ltp_testcode.sh"].

(** ** Names the watchdog knows *)
Definition named (s : string) (parts : list string) : bool := existsb (Path.contains_str s) parts.

Definition is_busybox_supervisor (s : string) (has_child_groups in_bench_phase : bool) : bool :=
  Path.contains_str s "busybox" && (String.eqb s "/musl/busybox" || has_child_groups || in_bench_phase).

Definition watchdog_name_change_resets_timer (previous cur : string) : bool :=
  let parts := ["busybox"; "lmbench"; "unixbench"] in
  negb (named previous parts || named cur parts).

Definition is_libctest_entry_or_runner (s : string) : bool :=
  let base := default s (last (Path.split s)) in
  String.eqb base "runtest.exe" || (Path.starts_with base "entry-" && Path.ends_with base ".exe") ||
  String.eqb base "entry.exe".

Definition is_oscomp_heavy_process (s : string) : bool :=
  named s ["iozone"; "libc-bench"; "lmbench"; "unixbench"; "netperf"; "iperf"; "cyclictest"; "hackbench"; "stream";
           "lat_"; "bw_"; "par_"].

Definition is_bench_worker_process (s : string) : bool :=
  named s ["lmbench_all"; "lat_"; "bw_"; "lmdd"; "syscall"; "context1"; "dhry2"; "dhry2reg"; "whetstone"; "fstime";
           "pipe"; "spawn"; "execl"; "looper"; "arithoh"; "short"; "long"; "float"; "double"; "hanoi"].

Definition is_bench_process (s : string) : bool := named s ["lmbench"; "unixbench"] || is_bench_worker_process s.

Definition process_needs_forced_preempt (s : string) (now window_until_ns : Z) : bool :=
  is_oscomp_heavy_process s || Path.contains_str s "busybox" ||
  (now <=? window_until_ns) && Path.contains_str s "busybox".

Definition oscomp_process_timeout_ns (g : Z) (s : string) (in_iozone_busybox_window has_child_groups in_bench_phase : bool) : Z :=
  if Path.contains_str s "hackbench" then SECOND
  else if is_libctest_entry_or_runner s then OSCOMP_LIBCTEST_ENTRY_TIMEOUT_NS
  else if (g <=? 2) && String.eqb s "/musl/busybox" then U64_MAX
  else if Path.contains_str s "lmbench" then OSCOMP_LMBENCH_TIMEOUT_NS
  else if Path.contains_str s "unixbench" then OSCOMP_UNIXBENCH_TIMEOUT_NS
  else if Path.contains_str s "busybox" then
    if is_busybox_supervisor s has_child_groups in_bench_phase then
      if in_bench_phase then OSCOMP_BENCH_SUPERVISOR_TIMEOUT_NS else OSCOMP_BUSYBOX_SUPERVISOR_TIMEOUT_NS
    else if in_iozone_busybox_window then OSCOMP_IOZONE_BUSYBOX_TIMEOUT_NS
    else OSCOMP_BUSYBOX_APPLET_TIMEOUT_NS
  else if is_oscomp_heavy_process s then OSCOMP_HEAVY_TIMEOUT_NS
  else OSCOMP_GROUP_TIMEOUT_NS.

(** ** Signal frames *)
Definition FRAME_SIZE : Z := 816.
Definition UCONTEXT_OFF : Z := 128.

(** [frame[off..off + n].copy_from_slice(..)] *)
Definition splice (off : nat) (bs frame : list Z) : list Z := take off frame ++ bs ++ drop (off + length bs) frame.
(** A loop that stores words one after the other. *)
Fixpoint splice_words (off : nat) (ws : list Z) (frame : list Z) : list Z :=
  match ws with
  | [] => frame
  | w :: ws' => splice_words (off + 8) ws' (splice off (to_le_bytes 8 w) frame)
  end.

Definition signal_frame (loongarch : bool) (signum mask : Z) (f : TrapFrame) : list Z :=
  let frame := replicate 816 0 in
  let frame := splice 0 (to_le_bytes 4 signum) frame in
  let frame := splice 168 (replicate 128 0) frame in
  let frame := splice 168 (to_le_bytes 8 mask) frame in
  let frame := splice 296 (to_le_bytes 8 (sepc f)) frame in
  let frame := splice_words 304 (drop 1 (regs f)) frame in
  if loongarch then frame
  else
    let frame := splice 552 (replicate 264 0) frame in
    let frame := splice_words 552 (fregs f) frame in
    splice 808 (to_le_bytes 4 (fcsr f)) frame.

(** ** State *)
(** The fields of [Kernel] besides the parts the system calls share. *)
Record watchdog := mkWatchdog {
  w_started_at : gmap Z Z;
  w_seen_name : gmap Z string;
  w_last_scan_ns : Z;
  w_clock_ns : Z;
  w_last_hw_ns : Z;
  w_iozone_window_until_ns : Z;
  w_bench_window_until_ns : Z;
  w_idle_ticks : Z;
}.
Definition no_watch : watchdog := mkWatchdog ∅ ∅ 0 0 0 0 0 0.

Record ProcessSnapshot := mkSnapshot { sn_tid : Z; sn_tgid : Z; sn_name : string; sn_is_thread : bool }.

Section Core.
Context {M : Type} `{!Obj.Ext4Ops M} `{!HalMemory} (can_reserve : Z → bool) (loongarch : bool) (heap : kernel M → Z).
Context (builtin_program : string → option SysExec.BuiltinProgram).
#[local] Hint Extern 0 (KernelEnv _ _ _) => exact (Kernel.kernel_env can_reserve) : typeclass_instances.

Abbreviation kernel := (kernel M).
Abbreviation kstm := (stm kernel).
Abbreviation ptable := (PTable.table Obj.FileHandle Z (Kernel.kenv M)).

(** ** Threads that end *)
Definition leave_scheduler (x : ThreadExit) : kstm unit :=
  _ ← on_sched (fun s => ((), (Sched.remove_task s (te_tid x)).2));
  if te_group_exited x then on_sched (fun s => ((), (Sched.exit_group s (te_tgid x)).2)) else mret tt.

Definition tell_parent (x : ThreadExit) : kstm unit :=
  match te_parent_tgid x with
  | Some g => _ ← on_table (notify_parent (Some g)); _ ← wake_process_group_threads g; mret tt
  | None => mret tt
  end.

Definition wake_futex_at (count addr : Z) : kstm unit :=
  ks ← SysProc.on_futex (wake_futex addr count); SysProc.wake_each ks.

Definition exit_addrs (a b : option Z) : list Z := option_list a ++ (if bool_decide (a = b) then [] else option_list b).

Definition wake_waiters (x : ThreadExit) : kstm unit :=
  _ ← each (exit_addrs (te_clear_child_tid x) (te_tid_address x)) (wake_futex_at USIZE_MAX);
  each (te_robust_futex_addrs x) (wake_futex_at 1).

(** [if let Ok(exit) = self.processes.exit_current_thread(code) { .. }] *)
Definition end_thread (code : Z) : kstm bool :=
  r ← attempt (on_table (exit_current_thread code));
  match r with
  | inl x => _ ← leave_scheduler x; _ ← tell_parent x; _ ← wake_waiters x; mret true
  | inr _ => mret false
  end.

(** ** Signals *)
(** A handler is entered with its frame on the stack. *)
Definition enter_handler (signum frame_sp : Z) (action : SigAction) : kstm unit :=
  context ← lift (uadd frame_sp UCONTEXT_OFF);
  let restorer := if (0x1000 <? sa_restorer action) && (sa_restorer action <? 2 ^ 63)
                  then sa_restorer action else SysExec.SIGNAL_TRAMPOLINE_BASE in
  update_cur (fun p =>
    let f := set_reg 12 context (set_reg 11 frame_sp (set_reg 10 signum (set_reg 2 frame_sp (trap_frame p)))) in
    let f := SysProc.set_sepc (sa_handler action) (set_reg 1 restorer f) in
    let p := set_frame_pending true (set_frame f (set_mask (Z.lor (signal_mask p) (sa_mask action)) p)) in
    if signum =? 33 then mark_cancel_signal_dispatched p else p).

(** Signals whose default action is not to end the thread. *)
Definition ignored_by_default (signum : Z) : bool := (signum =? 17) || (signum =? 23) || (signum =? 28).

Definition frame_address (sp : Z) : Z := align_down ((sp - FRAME_SIZE) mod 2 ^ 64) 16.

Definition deliver (signum : Z) (action : SigAction) : kstm unit :=
  if sa_handler action =? 0 then
    if ignored_by_default signum then mret tt
    else ended ← end_thread (- signum); if (ended : bool) then wake_all_blocked else mret tt
  else if sa_handler action =? 1 then mret tt
  else
    p ← cur;
    let frame_sp := frame_address (default 0 (regs (trap_frame p) !! 2%nat)) in
    r ← attempt (write_user can_reserve frame_sp (signal_frame loongarch signum (signal_mask p) (trap_frame p)));
    match r with
    | inl _ => enter_handler signum frame_sp action
    | inr _ => mret tt
    end.

Definition dispatch_pending_signals : kstm unit :=
  k ← get;
  match current (k_table k) with
  | Ok p =>
      let unmasked := andnot64 (pending_signals p) (signal_mask p) in
      if unmasked =? 0 then mret tt
      else
        let signum := trailing_zeros 64 unmasked + 1 in
        _ ← update_cur (fun p => set_pending (andnot64 (pending_signals p) (bit64 (signum - 1))) p);
        deliver signum (default no_action (signal_actions p !! signum))
  | _ => mret tt
  end.

(** ** Traps *)
(** All blocked tasks wait for futexes and nothing else can run. *)
Definition break_futex_deadlock : kstm unit :=
  k ← get;
  let blocked := Sched.blocked_task_ids (k_sched k) in
  if (Sched.ready_count (k_sched k) =? 0)%nat && (0 <? Sched.blocked_count (k_sched k))%nat &&
     all_blocked_are_futex_waiters (k_table k) blocked
  then _ ← each blocked (fun i => on_table (modify (clear_futex_wait_state i))); wake_all_blocked
  else mret tt.

Definition wake_timed_out : kstm unit :=
  k ← get; SysProc.wake_each (timed_wait_expired_tids (k_table k) (k_nanos k)).
Definition wake_signalled : kstm unit :=
  k ← get; each (futex_blocked_with_pending_signal_tids (k_table k)) SysProc.interrupt.

Definition fire_itimers : kstm unit :=
  k ← get;
  each (expired_itimer_real_tgids (k_table k) (k_nanos k)) (fun g =>
    _ ← on_table (consume_itimer_real_expiry g (k_nanos k));
    _ ← quietly (on_table (send_signal g 14));
    _ ← wake_process_group_threads g;
    mret tt).

Definition timer_tick : kstm unit :=
  _ ← wake_timed_out;
  _ ← fire_itimers;
  _ ← break_futex_deadlock;
  _ ← wake_signalled;
  _ ← dispatch_pending_signals;
  yield_now.

(** System calls that are made again after [EAGAIN]. *)
Definition restartable : list Z := [260; 63; 65; 202; 242; 133; 137; 98; 73; 72; 22; 441; 101; 115].
Definition blocked_restart (sysno result : Z) : bool := (result =? EAGAIN_RET) && existsb (Z.eqb sysno) restartable.
Definition SYS_EXECVE : Z := 221.
Definition SYS_RT_SIGRETURN : Z := 139.
Definition is_clone (sysno : Z) : bool := (sysno =? 220) || (sysno =? 435).

(** The result register and the program counter of the calling thread. *)
Definition return_to_user (i sysno result pc : Z) : kstm unit :=
  k ← get;
  match processes (k_table k) !! i with
  | Some p =>
      if blocked_restart sysno result then mret tt
      else
        let f := set_retval (result mod 2 ^ 64) (trap_frame p) in
        f ← (if (sysno =? SYS_EXECVE) || (sysno =? SYS_RT_SIGRETURN) then mret f
             else next ← lift (uadd pc 4); mret (SysProc.set_sepc next f));
        on_table (put_process i (set_frame f p))
  | None => mret tt
  end.

Definition bench_like (s : string) : bool :=
  named s ["lmbench"; "unixbench"; "cyclic"; "hackbench"; "netperf"; "iperf"].

Definition handle_syscall (caller sysno : Z) (args : list Z) (pc : Z) : kstm unit :=
  result ← SysDispatch.dispatch can_reserve loongarch heap builtin_program sysno args;
  _ ← return_to_user caller sysno result pc;
  _ ← dispatch_pending_signals;
  k ← get;
  let bench := match current (k_table k) with Ok p => bench_like (name p) | _ => false end in
  if negb (result =? EAGAIN_RET) && (0 <? Sched.ready_count (k_sched k))%nat && (bench || is_clone sysno)
  then yield_now else mret tt.

(** A trap the kernel does not handle ends the process. *)
Definition handle_fault : kstm unit :=
  r ← attempt (on_table (exit_current_process_group (-1)));
  match r with
  | inl x =>
      _ ← leave_scheduler x;
      _ ← match te_vfork_parent_tid x with Some i => _ ← wake_task i; mret tt | None => mret tt end;
      _ ← tell_parent x;
      _ ← wake_waiters x;
      wake_all_blocked
  | inr _ => mret tt
  end.

Definition interrupt_cause (cause : Z) : option Z :=
  if Z.testbit cause 63 then Some (Z.land cause (2 ^ 63 - 1)) else None.
Definition is_syscall (cause : Z) : bool := cause =? (if loongarch then 11 else 8).
Definition is_external_interrupt (cause : Z) : bool :=
  if loongarch then cause =? 0 else bool_decide (interrupt_cause cause = Some 9).
Definition is_timer_interrupt (cause : Z) : bool :=
  negb loongarch && bool_decide (interrupt_cause cause = Some 5).

Definition syscall_number (f : TrapFrame) : Z := default 0 (regs f !! 17%nat).
Definition syscall_args (f : TrapFrame) : list Z := take 6 (drop 10 (regs f)).

Definition handle_trap : kstm unit :=
  k ← get;
  match current (k_table k) with
  | Ok p =>
      let f := trap_frame p in
      if is_external_interrupt (scause f) then mret tt
      else if is_timer_interrupt (scause f) then timer_tick
      else if is_syscall (scause f) then handle_syscall (tid p) (syscall_number f) (syscall_args f) (sepc f)
      else handle_fault
  | _ => mret tt
  end.

(** ** The watchdog *)
Definition process_snapshots (t : ptable) : list ProcessSnapshot :=
  (fun p => mkSnapshot (tid p) (tgid p) (clamp_process_name (name p)) (is_thread p)) <$>
  take 4096 (List.filter (fun p => negb (bool_decide (state p = Exited))) (procs t)).

Record core := mkCore { c_kernel : kernel; c_watch : watchdog }.
Abbreviation cstm := (stm core).
Definition on_kernel {B} (m : kstm B) : cstm B := fun c =>
  let '(r, k) := m (c_kernel c) in (r, mkCore k (c_watch c)).
Definition set_watch (f : watchdog → watchdog) : cstm unit := modify (fun c => mkCore (c_kernel c) (f (c_watch c))).

Definition with_groups (started : gmap Z Z) (seen : gmap Z string) (w : watchdog) : watchdog :=
  mkWatchdog started seen (w_last_scan_ns w) (w_clock_ns w) (w_last_hw_ns w) (w_iozone_window_until_ns w)
    (w_bench_window_until_ns w) (w_idle_ticks w).
Definition with_clock (clock hw : Z) (w : watchdog) : watchdog :=
  mkWatchdog (w_started_at w) (w_seen_name w) (w_last_scan_ns w) clock hw (w_iozone_window_until_ns w)
    (w_bench_window_until_ns w) (w_idle_ticks w).
Definition with_scan (now : Z) (w : watchdog) : watchdog :=
  mkWatchdog (w_started_at w) (w_seen_name w) now (w_clock_ns w) (w_last_hw_ns w) (w_iozone_window_until_ns w)
    (w_bench_window_until_ns w) (w_idle_ticks w).
Definition with_windows (iozone bench : Z) (w : watchdog) : watchdog :=
  mkWatchdog (w_started_at w) (w_seen_name w) (w_last_scan_ns w) (w_clock_ns w) (w_last_hw_ns w) iozone bench
    (w_idle_ticks w).
Definition with_idle_ticks (n : Z) (w : watchdog) : watchdog :=
  mkWatchdog (w_started_at w) (w_seen_name w) (w_last_scan_ns w) (w_clock_ns w) (w_last_hw_ns w)
    (w_iozone_window_until_ns w) (w_bench_window_until_ns w) n.

(** The hardware clock, or the last reading moved on by a time slice. *)
Definition watchdog_now (hw_now : Z) (w : watchdog) : Z * watchdog :=
  if w_last_hw_ns w <? hw_now then (hw_now, with_clock hw_now hw_now w)
  else let now := Z.min (w_clock_ns w + SCHED_TIME_SLICE_NS) U64_MAX in (now, with_clock now (w_last_hw_ns w) w).

(** The process groups the watchdog looks after, with their names. *)
Definition watched_groups (l : list ProcessSnapshot) : gmap Z string :=
  foldl (fun m s => if sn_is_thread s || (sn_tgid s <=? 1) || bool_decide (is_Some (m !! sn_tgid s)) then m
                    else <[sn_tgid s := sn_name s]> m) ∅ l.

Definition watch_group (now : Z) (st : gmap Z Z * gmap Z string) (x : Z * string) : gmap Z Z * gmap Z string :=
  let '(started, seen) := st in
  let '(g, s) := x in
  let reset := match seen !! g with
               | None => true
               | Some previous => negb (String.eqb previous s) && watchdog_name_change_resets_timer previous s
               end in
  (if reset || bool_decide (started !! g = None) then <[g := now]> started else started, <[g := s]> seen).

Definition keep_watched {V} (watched : gmap Z string) (m : gmap Z V) : gmap Z V :=
  filter (fun x => is_Some (watched !! x.1)) m.

(** [sort_unstable] and [dedup] *)
Definition sorted_groups (gs : list Z) : list Z := merge_sort Z.le (remove_dups gs).

Definition bench_related (s : string) : bool := named s ["busybox"; "lmbench"; "unixbench"].
Definition cleanup_groups (watched : gmap Z string) (in_bench_phase : bool) (g : Z) (s : string) (subtree : list Z) : list Z :=
  sorted_groups (subtree ++
    if in_bench_phase && Path.contains_str s "busybox"
    then (List.filter (fun x => negb ((x.1 <=? 2) || (x.1 =? g)) && bench_related x.2) (items watched)).*1
    else []).

Fixpoint force_exit_others (gs : list Z) : kstm (list GroupExit) :=
  match gs with
  | [] => mret []
  | g :: gs' =>
      r ← attempt (on_table (force_exit_group g 124));
      xs ← force_exit_others gs';
      mret (match r with inl (Some x) => x :: xs | _ => xs end)
  end.

Definition reap_exit (x : GroupExit) : kstm unit :=
  _ ← on_sched (fun s => ((), (Sched.exit_group s (ge_tgid x)).2));
  _ ← match ge_parent_tgid x with Some g => _ ← wake_process_group_threads g; mret tt | None => mret tt end;
  match ge_vfork_parent_tid x with Some i => _ ← wake_task i; mret tt | None => mret tt end.

(** The groups a timed-out group takes with it are ended. *)
Definition end_groups (g : Z) (subtree groups : list Z) : kstm bool :=
  r ← attempt (on_table (force_exit_subtree g 124));
  others ← force_exit_others
    (List.filter (fun x => negb ((x =? g) || existsb (Z.eqb x) subtree)) groups);
  match match r with inl xs => xs | inr _ => [] end ++ others with
  | [] => mret false
  | xs =>
      _ ← each xs reap_exit;
      _ ← each (concat (ge_clear_child_tids <$> xs)) (wake_futex_at USIZE_MAX);
      _ ← each (concat (ge_robust_futex_addrs <$> xs)) (wake_futex_at 1);
      _ ← wake_all_blocked;
      mret true
  end.

Definition forget (gs : list Z) (w : watchdog) : watchdog :=
  with_groups (foldr delete (w_started_at w) gs) (foldr delete (w_seen_name w) gs) w.

Definition kill_group (watched : gmap Z string) (in_bench_phase : bool) (x : Z * string) : cstm bool :=
  let '(g, s) := x in
  c ← get;
  subtree ← lift (descendant_process_groups (k_table (c_kernel c)) g);
  match subtree with
  | [] => _ ← set_watch (forget [g]); mret false
  | _ =>
      let groups := cleanup_groups watched in_bench_phase g s subtree in
      _ ← set_watch (forget (g :: groups));
      on_kernel (end_groups g subtree groups)
  end.

Fixpoint kill_groups (watched : gmap Z string) (in_bench_phase : bool) (l : list (Z * string)) : cstm bool :=
  match l with
  | [] => mret false
  | x :: l' => a ← kill_group watched in_bench_phase x; b ← kill_groups watched in_bench_phase l'; mret ((a : bool) || (b : bool))
  end.

Definition timed_out (t : ptable) (w : watchdog) (watched : gmap Z string) (in_window in_bench : bool) (now : Z)
  : list (Z * string) :=
  List.filter (fun x =>
    match w_started_at w !! x.1 with
    | Some started =>
        oscomp_process_timeout_ns x.1 x.2 in_window (has_child_process_group t x.1) in_bench <=? saturating_sub now started
    | None => false
    end) (items watched).

Definition scan_groups (now : Z) : cstm bool :=
  c ← get;
  let t := k_table (c_kernel c) in
  let watched := watched_groups (process_snapshots t) in
  let names := values watched in
  let bench_seen := existsb is_bench_process names in
  _ ← set_watch (fun w =>
        let '(started, seen) := foldl (watch_group now) (keep_watched watched (w_started_at w), keep_watched watched (w_seen_name w))
                                  (items watched) in
        with_windows
          (if (0 <? OSCOMP_IOZONE_BUSYBOX_WINDOW_NS) && existsb (fun s => Path.contains_str s "iozone") names
           then Z.min (now + OSCOMP_IOZONE_BUSYBOX_WINDOW_NS) U64_MAX else w_iozone_window_until_ns w)
          (if (0 <? OSCOMP_BENCH_PHASE_WINDOW_NS) && bench_seen
           then Z.min (now + OSCOMP_BENCH_PHASE_WINDOW_NS) U64_MAX else w_bench_window_until_ns w)
          (with_groups started seen w));
  c ← get;
  let w := c_watch c in
  let in_window := (0 <? OSCOMP_IOZONE_BUSYBOX_WINDOW_NS) && (now <=? w_iozone_window_until_ns w) in
  let in_bench := bench_seen || (0 <? OSCOMP_BENCH_PHASE_WINDOW_NS) && (now <=? w_bench_window_until_ns w) in
  kill_groups watched in_bench (timed_out t w watched in_window in_bench now).

Definition enforce_oscomp_watchdog : cstm bool :=
  c ← get;
  let '(now, w) := watchdog_now (k_nanos (c_kernel c)) (c_watch c) in
  _ ← set_watch (fun _ => w);
  if negb (w_last_scan_ns w =? 0) && (saturating_sub now (w_last_scan_ns w) <? OSCOMP_WATCHDOG_SCAN_INTERVAL_NS)
  then mret false
  else _ ← set_watch (with_scan now); scan_groups now.

(** ** The scheduler loop *)
Definition has_non_init (t : ptable) : bool :=
  existsb (fun s => (1 <? sn_tgid s) && negb (sn_is_thread s)) (process_snapshots t).

(** Nothing is ready: what the timer has to do, if it ticked. *)
Definition idle : cstm unit :=
  c ← get;
  if has_non_init (k_table (c_kernel c)) then
    _ ← set_watch (with_idle_ticks 0);
    if 0 <? w_idle_ticks (c_watch c)
    then on_kernel (_ ← wake_timed_out; _ ← break_futex_deadlock; wake_signalled)
    else mret tt
  else mret tt.

(** When the timer interrupts a process that starts to run now. *)
Definition slice_deadline (s : string) (now window_until_ns : Z) : Z :=
  Z.min (now + if process_needs_forced_preempt s now window_until_ns then FORCED_PREEMPT_DELTA_NS else SCHED_TIME_SLICE_NS) U64_MAX.

(** A program in its address space, with its registers and the memory. *)
Definition user_program : Type := Mm.AddressSpaceInner → TrapFrame → gmap Z Z → TrapFrame * gmap Z Z.

Definition run_current_process (run_user : user_program) : kstm unit :=
  k ← get;
  match current (k_table k) with
  | Ok p =>
      let e := env (k_table k) in
      match Kernel.k_spaces e !! address_space p with
      | Some (space, _) =>
          let '(f, mem) := run_user space (trap_frame p) (Kernel.k_mem e) in
          _ ← on_kenv (modify (fun e => Kernel.mkEnv (Kernel.k_spaces e) (Kernel.k_next e) mem (Kernel.k_vfs e)));
          _ ← update_cur (set_frame f);
          handle_trap
      | None => lift Panic
      end
  | _ => mret tt
  end.

(** One round of the loop of [run_forever]. *)
Definition round (run_user : user_program) : cstm unit :=
  killed ← enforce_oscomp_watchdog;
  if (killed : bool) then mret tt
  else
    next ← on_kernel (on_sched Sched.ensure_current);
    match next with
    | None => idle
    | Some i =>
        r ← on_kernel (attempt (on_table (set_current i)));
        match r with
        | inr _ => on_kernel yield_now
        | inl _ =>
            p ← on_kernel cur;
            if force_thread_exit p then _ ← on_kernel (end_thread 7); mret tt
            else on_kernel (run_current_process run_user)
        end
    end.

(** ** Boot *)
Definition expect {B} (m : kstm B) : kstm B := fun k =>
  match m k with (Err _, k') => (Panic, k') | r => r end.

Fixpoint open_consoles (n : nat) : kstm (list Obj.FileHandle) :=
  match n with
  | O => mret []
  | S n' =>
      h ← on_vfs (Vfs.open "/" "/dev/console" Obj.O_RDWR 0);
      r ← attempt (open_consoles n');
      match r with
      | inl hs => mret (h :: hs)
      | inr e => _ ← drop_ref can_reserve h; fail e
      end
  end.

Definition install_init_stdio : kstm unit :=
  r ← attempt (open_consoles 3);
  match r with
  | inl hs => quietly (update_cur (fun p => set_fds (list_to_map (zip (seqZ 0 3) hs) ∪ fds p) p))
  | inr _ => mret tt
  end.

Definition oscomp_full_suite_ready (v : Vfs.KernelVfs M) : bool :=
  forallb (fun path => Vfs.is_ok (Vfs.access v "/" path)) OSCOMP_REQUIRED_TEST_FILES.

Definition with_busybox (image : list Z) (k : kernel) : kernel :=
  mkKernel (k_table k) (k_sched k) (k_locks k) (k_acct k) (k_shm k) (k_timex k) (k_keys k) (Some image) (k_time k) (k_nanos k).

Definition try_switch_init_to_rootfs : kstm bool :=
  v ← get_vfs;
  if negb (Vfs.is_ok (Vfs.access v "/" "/musl/busybox")) || negb (oscomp_full_suite_ready v) then mret false
  else
    r ← attempt (on_vfs (Vfs.read_file_all "/" "/musl/busybox"));
    match r with
    | inr _ => mret false
    | inl image =>
        _ ← modify (with_busybox image);
        r ← attempt (SysMem.on_space (Elf.load_elf_image can_reserve image
              (Vfs.bytes_of <$> ["/musl/busybox"; "sh"; OSCOMP_SUITE_ENTRY_PATH])
              (Vfs.bytes_of <$> ["PATH=/musl:/bin:/sbin:/usr/bin:/usr/sbin"; "TERM=vt100"])));
        match r with
        | inr _ => mret false
        | inl loaded =>
            _ ← update_cur (fun p =>
                  set_frame (set_reg 2 (Elf.li_stack_pointer loaded) (SysProc.set_sepc (Elf.li_entry loaded) (trap_frame p))) p);
            _ ← SysExec.map_trampoline can_reserve loongarch;
            mret true
        end
    end.

(** [user_init::seed_process] *)
Definition seed_process : kstm unit :=
  _ ← SysMem.on_space (Mm.install_bytes can_reserve 0x1000 (Vfs.bytes_of "/etc/motd" ++ [0]));
  _ ← SysMem.on_space (Mm.install_bytes can_reserve 0x2000 (Vfs.bytes_of "/tmp/boot.log" ++ [0]));
  _ ← SysMem.on_space (Mm.install_bytes can_reserve 0x3000 (Vfs.bytes_of "hello from init" ++ [10; 0]));
  SysMem.on_space (Mm.install_bytes can_reserve 0x4000 (replicate 256 0)).

Definition init_program : option SysExec.BuiltinProgram :=
  match builtin_program "/sbin/init" with Some p => Some p | None => builtin_program "/bin/init" end.

(** The part of [bootstrap] behind the mounting of the root file system. *)
Definition bootstrap : kstm unit :=
  init_entry ← match init_program with
               | Some program => lift (uadd USER_INIT_BASE (SysExec.bp_entry program))
               | None => mret 0
               end;
  init_pid ← on_table (spawn_init "init" init_entry);
  _ ← expect (on_table (set_current init_pid));
  _ ← install_init_stdio;
  _ ← match init_program with
      | Some program =>
          loaded ← try_switch_init_to_rootfs;
          if (loaded : bool) then mret tt
          else
            _ ← quietly (SysMem.on_space (Mm.map_fixed_bytes can_reserve USER_INIT_BASE (SysExec.bp_image program)
                                            (zlen (SysExec.bp_image program)) 5));
            expect (update_cur (fun p => set_frame (SysProc.set_sepc init_entry (trap_frame p)) p))
      | None => expect seed_process
      end;
  _ ← SysProc.spawn_task "init" init_pid init_pid;
  _ ← on_sched Sched.start;
  mret tt.

(** The statics of the kernel before the boot. *)
Definition cold (e : Kernel.kenv M) (shm : SharedMemoryState) (timex : KernelTimexState) : kernel :=
  mkKernel (PTable.new e) Sched.Scheduler_new [] None shm timex Keys.initial None (0, 0) 0.

(** A run of the machine: rounds of the loop and passing time. *)
Inductive core_step : core → core → Prop :=
  | cs_round run_user c : core_step c (round run_user c).2
  | cs_clock time nanos ticks c : core_step c (mkCore
      (let k := c_kernel c in mkKernel (k_table k) (k_sched k) (k_locks k) (k_acct k) (k_shm k) (k_timex k) (k_keys k)
                                (k_busybox k) time nanos)
      (with_idle_ticks ticks (c_watch c))).

End Core.
Arguments core : clear implicits.
End KernelCore.
