(* ===== verification/CoreInv.v ===== *)
(** * Invariants of the running machine

    The invariant of [SysInv] holds at boot and in every round of the kernel
    loop, whatever the user programs and the clock do. *)

From S2P Require Import Prelude Task AddrSpace Path FileObject Vfs Process KernelEnv ProcTable ProcSpec Locks Abi Keys Sys SysFile SysProc SysMem SysNet SysExec SysDispatch SysInv KernelCore.

Open Scope string_scope.
Open Scope list_scope.
Open Scope Z_scope.

Module CoreInv.
Import Proc PTable Locks Sys SysDispatch SysInv KernelCore.

(** ** The machine *)
Section Machine.
Context {M : Type}.
Implicit Types (k : kernel M) (c : core M).

(** The same for the whole machine. *)
Definition ck {B} (m : stm (core M) B) : Prop := ∀ c, kernel_inv (c_kernel c) →
  kernel_inv (c_kernel (m c).2) ∧ klater (c_kernel c) (c_kernel (m c).2).

Lemma ck_bind {A B} (m : stm (core M) A) (f : A → stm (core M) B) : ck m → (∀ a, ck (f a)) → ck (m ≫= f).
Proof.
  intros Hm Hf c Hi. destruct (Hm c Hi) as [Hi1 Hl1]. rewrite stm_bind_eq. destruct (m c) as [[a| | |] c1]; [|done..].
  destruct (Hf a c1 Hi1) as [Hi2 Hl2]. split; [done|]. by etrans.
Qed.
Lemma ck_ret {B} (b : B) : ck (mret b).
Proof. by intros c. Qed.
Lemma ck_lift {B} (o : outcome B) : ck (lift o).
Proof. by intros c. Qed.
Lemma ck_get : ck get.
Proof. by intros c. Qed.
Lemma ck_set_watch f : ck (set_watch f).
Proof. by intros c. Qed.
Lemma ck_on_kernel {B} (m : stm (kernel M) B) : kk m → ck (on_kernel m).
Proof. intros Hm c Hi. specialize (Hm _ Hi). unfold on_kernel. by destruct (m (c_kernel c)). Qed.

(** Code that reaches only the table. *)
Definition table_only {B} (m : stm (kernel M) B) : Prop := ∀ k, k_sched (m k).2 = k_sched k.
Lemma kq_of {B} (m : stm (kernel M) B) : kk m → table_only m → kq m.
Proof. intros Hm Hs k Hi. destruct (Hm k Hi). split_and!; [done..|]. by rewrite Hs. Qed.
Lemma to_bind {A B} (m : stm (kernel M) A) (f : A → stm (kernel M) B) :
  table_only m → (∀ a, table_only (f a)) → table_only (m ≫= f).
Proof.
  intros Hm Hf k. specialize (Hm k). rewrite stm_bind_eq. destruct (m k) as [[a| | |] k1]; [|done..].
  rewrite Hf. done.
Qed.
Lemma to_on_table {B} (m : stm (PTable.table Obj.FileHandle Z (Kernel.kenv M)) B) : table_only (on_table m).
Proof. intros k. unfold on_table. by destruct (m (k_table k)). Qed.
Lemma to_attempt {B} (m : stm (kernel M) B) : table_only m → table_only (attempt m).
Proof. intros Hm k. specialize (Hm k). unfold attempt. by destruct (m k) as [[]]. Qed.
Lemma to_expect {B} (m : stm (kernel M) B) : table_only m → table_only (expect m).
Proof. intros Hm k. specialize (Hm k). unfold expect. by destruct (m k) as [[]]. Qed.
Lemma kk_expect {B} (m : stm (kernel M) B) : kk m → kk (expect m).
Proof. intros Hm k Hi. specialize (Hm k Hi). unfold expect. by destruct (m k) as [[]]. Qed.
Lemma to_pure {B} (m : stm (kernel M) B) : (∀ k, (m k).2 = k) → table_only m.
Proof. intros Hm k. by rewrite Hm. Qed.

(** Boot code, run while no task exists. *)
Definition boots (i : Z) {B} (m : stm (kernel M) B) : Prop := ∀ k, kernel_inv k → k_sched k = Sched.Scheduler_new →
  i < next_pid (k_table k) → kernel_inv (m k).2.
Lemma boots_bind {A B} i (m : stm (kernel M) A) (f : A → stm (kernel M) B) :
  kk m → table_only m → (∀ a, boots i (f a)) → boots i (m ≫= f).
Proof.
  intros Hm Ht Hf k Hi Hs Hn. destruct (Hm k Hi) as [Hi1 Hl1]. specialize (Ht k). rewrite stm_bind_eq.
  destruct (m k) as [[a| | |] k1]; try done. apply Hf; [done|by rewrite <- Hs|].
  unfold klater, ProcSpec.later in Hl1. simpl in Hl1. lia.
Qed.
End Machine.

Create HintDb ck discriminated.
#[export] Hint Resolve ck_ret ck_lift ck_get ck_set_watch : ck.
Ltac ck_solve := repeat first
  [ solve [auto with ck]
  | lazymatch goal with
    | |- ck (mbind _ _) => apply ck_bind; [|intros ?]
    | |- ck (on_kernel _) => apply ck_on_kernel; kk_solve
    | |- ck (match ?x with _ => _ end) => destruct x
    end ].

Create HintDb to discriminated.
#[export] Hint Constants Opaque : to.
#[export] Hint Resolve to_on_table : to.
#[export] Hint Extern 1 (table_only (mret _)) => (apply to_pure; reflexivity) : to.
#[export] Hint Extern 1 (table_only (fail _)) => (apply to_pure; reflexivity) : to.
#[export] Hint Extern 1 (table_only (lift _)) => (apply to_pure; reflexivity) : to.
#[export] Hint Extern 1 (table_only get) => (apply to_pure; reflexivity) : to.
#[export] Hint Extern 1 (table_only get_vfs) => (apply to_pure; reflexivity) : to.
#[export] Hint Extern 1 (table_only (ask_table _)) => (apply to_pure; reflexivity) : to.
#[export] Hint Extern 1 (table_only (modify (with_busybox _))) => (intros ?; reflexivity) : to.
Ltac to_step :=
  first
  [ solve [auto with to]
  | lazymatch goal with
    | |- table_only (mbind _ _) => apply to_bind; [|intros ?]
    | |- table_only (attempt _) => apply to_attempt
    | |- table_only (expect _) => apply to_expect
    | |- table_only (match ?x with _ => _ end) => destruct x
    | |- table_only ?m => let h := kk_head m in unfold h; cbv zeta beta
    end ].
Ltac to_solve := repeat to_step.
Ltac kk_boot := repeat first [lazymatch goal with |- kk (expect _) => apply kk_expect end | kk_step].

Section Core.
Context {M : Type} `{!Obj.Ext4Ops M} `{!HalMemory} (can_reserve : Z → bool) (loongarch : bool) (heap : kernel M → Z).
Context (builtin_program : string → option SysExec.BuiltinProgram).
#[local] Hint Extern 0 (KernelEnv _ _ _) => exact (Kernel.kernel_env can_reserve) : typeclass_instances.
Abbreviation dispatch := (dispatch can_reserve loongarch heap builtin_program).
Abbreviation round := (round can_reserve loongarch heap builtin_program).
Implicit Types (k : kernel M) (c : core M).

Lemma lookup_call_in n (l : list (Z * (list Z → stm (kernel M) Z))) f : lookup_call n l = Some f → ∃ m, (m, f) ∈ l.
Proof.
  unfold lookup_call. destruct (find_first _ l) as [[m g]|] eqn:Hg; intros [= <-].
  apply find_first_Some in Hg as [Hin _]. eauto.
Qed.
Lemma kk_dispatch sysno args : kk (dispatch sysno args).
Proof.
  intros k Hi. unfold SysDispatch.dispatch, dispatch_call. destruct (lookup_call _ _) as [f|] eqn:Hf; [|done].
  apply lookup_call_in in Hf as [m Hin]. pose proof (all_calls_kk can_reserve loongarch heap builtin_program) as Ha.
  rewrite Forall_forall in Ha. pose proof (Ha _ Hin args k Hi) as Hk. by destruct (f args k).
Qed.

#[local] Hint Resolve kk_dispatch : kk.

Lemma kk_wake_all_blocked : kk (M := M) wake_all_blocked.
Proof.
  apply kk_bind; [|intros; apply kk_ret]. apply kk_on_sched. intros s. apply (wake_tasks_no_new (keys (Sched.blocked s))).
Qed.
#[local] Hint Resolve kk_wake_all_blocked : kk.
Lemma kk_force_exit_others gs : kk (M := M) (force_exit_others can_reserve gs).
Proof. induction gs as [|g gs IH]; cbn [force_exit_others]; [apply kk_ret|]. repeat first [apply IH|kk_step]. Qed.
#[local] Hint Resolve kk_force_exit_others : kk.

(** Changing a thread that is in the table. *)
Lemma kk_put i (f : Process Obj.FileHandle Z → stm (kernel M) TrapFrame) :
  (∀ p, ∃ o, f p = lift o) →
  kk (k ← get; match processes (k_table k) !! i with
               | Some p => x ← f p; on_table (put_process i (set_frame x p))
               | None => mret tt
               end).
Proof.
  intros Hf. apply kk_get_bind. intros k Hi. destruct (processes (k_table k) !! i) as [p|] eqn:Hp; [|done].
  destruct (Hf p) as [o ->]. rewrite stm_bind_eq. unfold lift. destruct o as [x| | |]; try done.
  destruct (kq_put_found i (set_frame x p) (k_table k) k p Hp eq_refl Hi) as (? & ? & _). done.
Qed.
Lemma lift_then {A B} (o : outcome A) (g : A → B) : (x ← lift o; mret (g x)) = (lift (x ← o; Ok (g x)) : stm (kernel M) B).
Proof. by destruct o. Qed.
Lemma kk_return_to_user i sysno result pc : kk (M := M) (return_to_user i sysno result pc).
Proof.
  unfold return_to_user. destruct (blocked_restart sysno result); [kk_solve|].
  apply kk_put. intros p. destruct (_ || _); [by eexists (Ok _)|]. eexists. apply lift_then.
Qed.
#[local] Hint Resolve kk_return_to_user : kk.

Lemma kk_handle_trap : kk (handle_trap can_reserve loongarch heap builtin_program).
Proof. kk_solve. Qed.

Lemma kk_run_current run_user : kk (run_current_process can_reserve loongarch heap builtin_program run_user).
Proof. pose proof kk_handle_trap. kk_solve. Qed.

#[local] Hint Resolve kk_run_current : kk.
Lemma ck_kill_groups watched b l : ck (M := M) (kill_groups can_reserve watched b l).
Proof.
  induction l as [|[g s] l IH]; cbn [kill_groups]; [apply ck_ret|]. apply ck_bind.
  - unfold kill_group. ck_solve.
  - intros x. apply ck_bind; [done|]. intros y. apply ck_ret.
Qed.
#[local] Hint Resolve ck_kill_groups : ck.
Lemma ck_watchdog : ck (M := M) (enforce_oscomp_watchdog can_reserve).
Proof. unfold enforce_oscomp_watchdog, scan_groups. ck_solve. Qed.
#[local] Hint Resolve ck_watchdog : ck.

Lemma ensure_no_new : no_new (fun s => (Sched.ensure_current s).2).
Proof.
  apply no_new_step; [constructor|]. intros s _ i. unfold Sched.ensure_current.
  destruct (Sched.current s); [done|]. apply schedule_next_sub.
Qed.
Lemma kk_ensure : kk (M := M) (on_sched Sched.ensure_current).
Proof. apply kk_on_sched, ensure_no_new. Qed.
#[local] Hint Resolve kk_ensure : kk.
Lemma ck_round run_user : ck (round run_user).
Proof. unfold KernelCore.round, idle. ck_solve. Qed.

(** ** Boot *)
Lemma kk_open_consoles n : kk (open_consoles (M := M) can_reserve n).
Proof. induction n as [|n IH]; cbn [open_consoles]; [apply kk_ret|]. repeat first [apply IH|kk_step]. Qed.
Lemma to_open_consoles n : table_only (open_consoles (M := M) can_reserve n).
Proof. induction n as [|n IH]; cbn [open_consoles]; [by apply to_pure|]. repeat first [apply IH|to_step]. Qed.
Lemma kk_busybox image : kk (M := M) (modify (with_busybox image)).
Proof. apply kk_modify. by intros k. Qed.
#[local] Hint Resolve kk_open_consoles kk_busybox : kk.
#[local] Hint Resolve to_open_consoles : to.

Lemma boots_new {B} j nm entry (f : Z → stm (kernel M) B) :
  (∀ i, boots i (f i)) → boots j (on_table (spawn_init nm entry) ≫= f).
Proof.
  intros Hf k Hi Hs Hn. pose proof (spawn_fresh (M := M) can_reserve nm None entry (k_table k)) as Hfr.
  assert (kk (M := M) (on_table (spawn_init nm entry))) as Hm by (unfold spawn_init; auto with kk).
  destruct (Hm k Hi) as [Hi1 _]. rewrite stm_bind_eq. unfold spawn_init in *. unfold on_table in *.
  destruct (spawn nm None entry (k_table k)) as [[i| | |] t]; try done. destruct (Hfr i eq_refl) as [-> Hlt].
  apply Hf; done.
Qed.
Lemma boots_start nm i g : boots (M := M) i (_ ← SysProc.spawn_task nm i g; _ ← on_sched Sched.start; mret tt).
Proof.
  intros k Hi Hn Hlt. rewrite stm_bind_eq. unfold SysProc.spawn_task. rewrite Hn.
  destruct (Sched.spawn Sched.Scheduler_new nm i g) as [[j s]| | |] eqn:Hsp; try done.
  destruct Hi as [Ht _ _ Hl Hk]. destruct (Sched.spawn_ids _ _ _ _ _ _ Hsp) as [_ Hids].
  assert (Sched.sched_wf s) as Hwf.
  { eapply Sched.spawn_wf; [|done|apply Sched.Scheduler_new_wf]. apply not_elem_of_nil. }
  assert (Sched.current s = None) as Hc by (unfold Sched.spawn in Hsp; destruct (uadd i 1); by simplify_eq/=).
  rewrite stm_bind_eq. unfold on_sched. cbn [k_sched with_sched].
  destruct (Sched.start s) as [r s1] eqn:Hst. split; simpl; try done.
  - pose proof (Sched.sched_step_wf _ _ (Sched.step_start s Hc) Hwf) as Hw. by rewrite Hst in Hw.
  - intros x Hx. pose proof (schedule_next_sub s x) as Hsub. unfold Sched.start in Hst. rewrite Hst in Hsub.
    specialize (Hsub Hx). rewrite Hids, list_elem_of_singleton in Hsub. by subst.
Qed.

Lemma bootstrap_inv k : kernel_inv k → k_sched k = Sched.Scheduler_new →
  kernel_inv (bootstrap can_reserve loongarch builtin_program k).2.
Proof.
  intros Hi Hs. assert (boots 0 (bootstrap can_reserve loongarch builtin_program)) as Hb.
  { unfold bootstrap. apply boots_bind; [kk_solve|to_solve|]. intros entry. apply boots_new. intros i.
    do 3 (apply boots_bind; [kk_boot|to_solve|intros _]). apply boots_start. }
  apply Hb; [done..|]. pose proof (ProcSpec.wf_next _ (ki_table _ Hi)). lia.
Qed.

Lemma cold_inv (e : Kernel.kenv M) shm timex : kernel_inv (cold e shm timex).
Proof.
  split; [apply ProcSpec.new_table_wf|apply Sched.Scheduler_new_wf|intros i Hi; by apply not_elem_of_nil in Hi|apply lock_inv_nil|].
  split; [by vm_compute|intros _; apply Keys.keys_inv_initial].
Qed.

Lemma run_inv c c' : rtc (core_step can_reserve loongarch heap builtin_program) c c' → kernel_inv (c_kernel c) →
  kernel_inv (c_kernel c') ∧ klater (c_kernel c) (c_kernel c').
Proof.
  induction 1 as [c|c c1 c' Hs _ IH]; [by intros|]. intros Hi.
  assert (kernel_inv (c_kernel c1) ∧ klater (c_kernel c) (c_kernel c1)) as [Hi1 Hl1].
  { destruct Hs as [run c|time nanos ticks c]; [by apply ck_round|by apply elsewhere_inv]. }
  destruct (IH Hi1). split; [done|]. by etrans.
Qed.

(** C1: From the end of the boot on, through any number of rounds of the
    kernel loop with any user programs, traps, system calls and clock
    readings, two processes never hold conflicting record locks on a byte of a
    file, each thread is filed under its own id, each task is in exactly one
    scheduler structure, a fork or a new thread gets an id that no
    thread and no task has, and keyrings of different owners stay apart until
    the serial numbers are used up. *)
Theorem machine_invariant (e : Kernel.kenv M) shm timex k c :
  bootstrap can_reserve loongarch builtin_program (cold e shm timex) = (Ok tt, k) →
  rtc (core_step can_reserve loongarch heap builtin_program) (mkCore k no_watch) c →
  let t := k_table (c_kernel c) in
  let s := k_sched (c_kernel c) in
  (∀ path o1 o2 b t1 t2, o1 ≠ o2 → holds (k_locks (c_kernel c)) path o1 b t1 → holds (k_locks (c_kernel c)) path o2 b t2 →
     lock_modes_conflict t1 t2 = false) ∧
  (∀ i p, processes t !! i = Some p → tid p = i) ∧
  Sched.sched_wf s ∧
  (∀ m i, m = fork_process_from_current ∨ m = fork_process_from_current_shared ∨ (∃ st tls, m = clone_thread_from_current st tls) →
     (m t).1 = Ok i → processes t !! i = None ∧ i ∉ Sched.task_ids s) ∧
  (Keys.next_serial (k_keys (c_kernel c)) < Keys.I32_MAX → Keys.keys_inv (k_keys (c_kernel c))).
Proof.
  intros Hb Hr t s. pose proof (bootstrap_inv _ (cold_inv e shm timex) eq_refl) as Hk. rewrite Hb in Hk.
  destruct (run_inv _ _ Hr Hk) as [[Ht Hs Hids Hl [_ Hkeys]] _]. split_and!; [by apply Hl|apply Ht|done| |done].
  intros m i Hm Hi. assert (i = next_pid t) as ->.
  { destruct Hm as [->|[->|(st & tls & ->)]]; [apply (fork_fresh can_reserve t i Hi)|apply (fork_shared_fresh can_reserve t i Hi)|apply (clone_fresh can_reserve st tls t i Hi)]. }
  split; [|intros Hin%Hids; unfold t in Hin; lia]. destruct (processes t !! next_pid t) as [p|] eqn:Hp; [|done].
  pose proof (ProcSpec.wf_fresh _ Ht _ _ Hp) as Hf. unfold t in Hf. lia.
Qed.

End Core.

(** ** A machine that boots and forks *)
Section Sample.
#[local] Existing Instance Obj.no_ext4.
#[local] Existing Instance Mm.sample_hal.
Definition no_memory : Z → bool := fun _ => false.
Definition sample_programs : string → option SysExec.BuiltinProgram := fun _ => Some (SysExec.mkBuiltin 0 []).
Definition sample_cold : kernel Empty_set :=
  cold (Kernel.mkEnv ∅ 1 ∅ Vfs.empty_vfs) (mkShmState 1 ∅ ∅) (mkTimex 0 0 0 0 0 0 0 0).
Definition sample_boot : kernel Empty_set := (bootstrap no_memory false sample_programs sample_cold).2.
(** A program that makes the system call [sysno] with the argument [x]. *)
Definition calls (sysno x : Z) : user_program := fun _ f mem =>
  (mkFrame (<[17%nat := sysno]> (<[10%nat := x]> (regs f))) (sepc f) (sstatus f) 8 (stval f) (fregs f) (fcsr f), mem).
Definition sample_forked : core Empty_set :=
  (KernelCore.round no_memory false (fun _ => 0) sample_programs (calls 220 17) (mkCore sample_boot no_watch)).2.

Lemma machine_invariant_witness :
  Sched.task_ids (k_sched (c_kernel sample_forked)) = [1; 2] ∧
  (fun p => regs (trap_frame p) !! 10%nat) <$> procs (k_table (c_kernel sample_forked)) = [Some 2; Some 0] ∧
  (∀ i p, processes (k_table (c_kernel sample_forked)) !! i = Some p → tid p = i).
Proof.
  split; [by vm_compute|]. split; [by vm_compute|].
  refine (proj1 (proj2 (machine_invariant no_memory false (fun _ => 0) sample_programs
    (Kernel.mkEnv ∅ 1 ∅ Vfs.empty_vfs) (mkShmState 1 ∅ ∅) (mkTimex 0 0 0 0 0 0 0 0) sample_boot sample_forked _ _))).
  - refine (eq_trans (surjective_pairing _) (f_equal (fun r => (r, sample_boot)) _)). vm_compute. reflexivity.
  - apply rtc_once, cs_round.
Defined.
End Sample.
End CoreInv.
