(* ===== verification/SignalSpec.v ===== *)
(** * Signal delivery and return

    [dispatch_pending_signals] stores the interrupted context on the user
    stack and [sys_rt_sigreturn] loads it again: between them lies whatever
    the handler does with the registers. *)

From S2P Require Import Prelude Task AddrSpace Elf Path FileObject Vfs Process KernelEnv ProcTable Locks Abi Keys Sys SysProc SysExec SysRun KernelCore.

Open Scope string_scope.
Open Scope list_scope.
Open Scope Z_scope.

Module SignalSpec.
Import Proc PTable Sys SysRun KernelCore.

(** ** The bytes of a frame *)
Lemma splice_mid a x b c : length x = length b → splice (length a) b (a ++ x ++ c) = a ++ b ++ c.
Proof.
  intros Hl. unfold splice. rewrite take_app_length. f_equal. f_equal.
  rewrite <- drop_drop, drop_app_length, <- Hl. apply drop_app_length.
Qed.
Lemma splice_words_mid ws a x c : length x = (8 * length ws)%nat →
  splice_words (length a) ws (a ++ x ++ c) = a ++ Elf.words_bytes ws ++ c.
Proof.
  revert a x. induction ws as [|w ws IH]; intros a x Hl; cbn [splice_words].
  { destruct x; [done|simpl in Hl; lia]. }
  simpl in Hl. rewrite <- (take_drop 8 x), <- app_assoc.
  rewrite splice_mid by (rewrite length_to_le_bytes, length_take; lia).
  rewrite app_assoc. replace (length a + 8)%nat with (length (a ++ to_le_bytes 8 w))
    by (rewrite length_app, length_to_le_bytes; done).
  rewrite IH by (rewrite length_drop; lia). unfold Elf.words_bytes. cbn [fmap list_fmap concat]. by rewrite <- !app_assoc.
Qed.

Definition word (w : Z) : Prop := 0 ≤ w < 2 ^ 64.
(** The registers of a processor. *)
Record frame_ok (f : TrapFrame) : Prop := mkFrameOk {
  fo_regs : length (regs f) = 32%nat; fo_fregs : length (fregs f) = 32%nat;
  fo_words : Forall word (regs f); fo_fwords : Forall word (fregs f);
  fo_pc : word (sepc f); fo_csr : 0 ≤ fcsr f < 2 ^ 32;
}.

Definition frame_layout (signum mask : Z) (f : TrapFrame) : list Z :=
  to_le_bytes 4 signum ++ replicate 164 0 ++ to_le_bytes 8 mask ++ replicate 120 0 ++ to_le_bytes 8 (sepc f) ++
  Elf.words_bytes (drop 1 (regs f)) ++ Elf.words_bytes (fregs f) ++ to_le_bytes 4 (fcsr f) ++ replicate 4 0.

Lemma length_words_bytes8 ws : length (Elf.words_bytes ws) = (8 * length ws)%nat.
Proof.
  unfold Elf.words_bytes. induction ws as [|w ws IH]; [done|]. cbn [fmap list_fmap concat length].
  rewrite length_app, length_to_le_bytes, IH. lia.
Qed.

Lemma zeros_split n m : replicate (n + m) 0 = replicate n 0 ++ replicate m 0 :> list Z.
Proof. by rewrite replicate_add. Qed.

(** Bytes stored into the zeros behind a prefix, after a gap. *)
Lemma splice_zeros off gap a b n m : off = (length a + gap)%nat → m = (gap + (length b + n))%nat →
  splice off b (a ++ replicate m 0) = (a ++ replicate gap 0 ++ b) ++ replicate n 0.
Proof.
  intros -> ->. rewrite !zeros_split, app_assoc.
  replace (length a + gap)%nat with (length (a ++ replicate gap (0 : Z))) by (rewrite length_app, length_replicate; done).
  rewrite splice_mid by (by rewrite length_replicate). by rewrite <- !app_assoc.
Qed.
Lemma splice_words_zeros off a ws n m : off = length a → m = (8 * length ws + n)%nat →
  splice_words off ws (a ++ replicate m 0) = (a ++ Elf.words_bytes ws) ++ replicate n 0.
Proof. intros -> ->. rewrite zeros_split, splice_words_mid by (by rewrite length_replicate). by rewrite app_assoc. Qed.
Lemma splice_noop off n a m : (length a ≤ off)%nat → (off + n ≤ length a + m)%nat →
  splice off (replicate n 0) (a ++ replicate m 0) = a ++ replicate m 0.
Proof.
  intros H1 H2. rewrite (splice_zeros off (off - length a) _ _ (m + length a - off - n)); rewrite ?length_replicate; try lia.
  rewrite <- !app_assoc, <- !zeros_split. do 2 f_equal. lia.
Qed.

Lemma signal_frame_layout signum mask f : length (regs f) = 32%nat → length (fregs f) = 32%nat →
  signal_frame false signum mask f = frame_layout signum mask f.
Proof.
  intros Hr Hf. unfold signal_frame, frame_layout. cbv zeta beta iota. rewrite <- (app_nil_l (replicate 816 0)).
  assert (length (drop 1 (regs f)) = 31%nat) as Hd by (rewrite length_drop; lia).
  rewrite (splice_zeros 0 0 [] _ 812) by (rewrite ?length_to_le_bytes; done).
  rewrite splice_noop by (rewrite ?length_app, ?length_to_le_bytes; simpl; lia).
  rewrite (splice_zeros 168 164 _ _ 640) by (rewrite ?length_app, ?length_to_le_bytes; done).
  rewrite (splice_zeros 296 120 _ _ 512) by (rewrite ?length_app, ?length_replicate, ?length_to_le_bytes; done).
  rewrite (splice_words_zeros 304 _ _ 264) by (rewrite ?length_app, ?length_replicate, ?length_to_le_bytes, ?Hd; done).
  rewrite splice_noop by (rewrite ?length_app, ?length_replicate, ?length_words_bytes8, ?length_to_le_bytes, ?Hd; simpl; lia).
  rewrite (splice_words_zeros 552 _ _ 8) by (rewrite ?length_app, ?length_replicate, ?length_words_bytes8, ?length_to_le_bytes, ?Hd, ?Hf; done).
  rewrite (splice_zeros 808 0 _ _ 4) by (rewrite ?length_app, ?length_replicate, ?length_words_bytes8, ?length_to_le_bytes, ?Hd, ?Hf; done).
  by rewrite <- !app_assoc.
Qed.

(** ** Reading it back *)
Lemma field_mid a x c n off : off = length a → n = length x → Locks.field off n (a ++ x ++ c) = from_le_bytes x.
Proof. intros -> ->. unfold Locks.field. by rewrite drop_app_length, take_app_length. Qed.
Lemma words_mid a ws c off n : off = length a → n = length ws → Forall word ws →
  SysProc.words off n (a ++ Elf.words_bytes ws ++ c) = ws.
Proof.
  intros -> -> Hw. apply list_eq. intros i. unfold SysProc.words. rewrite list_lookup_fmap.
  destruct (decide (i < length ws)%nat) as [Hi|Hi]; [|rewrite lookup_ge_None_2 by (rewrite length_seq; lia); symmetry; apply lookup_ge_None_2; lia].
  rewrite lookup_seq_lt by done. simpl. destruct (lookup_lt_is_Some_2 ws i Hi) as [w Hwi]. rewrite Hwi. f_equal.
  rewrite <- (take_drop_middle ws i w Hwi).
  unfold Elf.words_bytes. rewrite fmap_app, concat_app. cbn [fmap list_fmap concat]. rewrite <- !app_assoc, (app_assoc a).
  rewrite field_mid; [| |by rewrite length_to_le_bytes].
  - apply from_to_le_bytes. rewrite Forall_lookup in Hw. apply (Hw _ _ Hwi).
  - rewrite length_app. f_equal. change (concat _) with (Elf.words_bytes (take i ws)).
    rewrite length_words_bytes8, length_take. lia.
Qed.

Lemma restore_layout signum mask f g : frame_ok f → word mask →
  SysProc.restore_frame false (frame_layout signum mask f) g =
    mkFrame (take 1 (regs g) ++ drop 1 (regs f)) (sepc f) (sstatus g) (scause g) (stval g) (fregs f) (fcsr f) ∧
  Locks.field 168 8 (frame_layout signum mask f) = mask.
Proof.
  intros [Hr Hf Hw Hfw Hpc Hcsr] Hm. unfold frame_layout.
  assert (length (drop 1 (regs f)) = 31%nat) as Hd by (rewrite length_drop; lia).
  pose proof (length_words_bytes8 (drop 1 (regs f))) as Hl1. pose proof (length_words_bytes8 (fregs f)) as Hl2. rewrite Hd in Hl1. rewrite Hf in Hl2.
  split.
  - unfold SysProc.restore_frame. f_equal.
    + f_equal. rewrite !app_assoc, <- 3!app_assoc. apply words_mid; [|done|by apply Forall_drop].
      rewrite !length_app, !length_replicate, !length_to_le_bytes. done.
    + rewrite !app_assoc, <- 4!app_assoc. rewrite field_mid; [by apply from_to_le_bytes| |by rewrite length_to_le_bytes].
      rewrite !length_app, !length_replicate, !length_to_le_bytes. done.
    + rewrite !app_assoc, <- 2!app_assoc. apply words_mid; [|done|done].
      rewrite !length_app, !length_replicate, !length_to_le_bytes, Hl1. done.
    + rewrite !app_assoc, <- 1!app_assoc. rewrite field_mid; [by apply from_to_le_bytes| |by rewrite length_to_le_bytes].
      rewrite !length_app, !length_replicate, !length_to_le_bytes, Hl1, Hl2. done.
  - rewrite !app_assoc, <- 6!app_assoc. rewrite field_mid; [by apply from_to_le_bytes| |by rewrite length_to_le_bytes].
    rewrite !length_app, !length_replicate, !length_to_le_bytes. done.
Qed.

(** ** Running kernel code on the current process *)
Section Signals.
Context {M : Type} `{!Obj.Ext4Ops M} `{!HalMemory} (can_reserve : Z → bool) (loongarch : bool) (heap : kernel M → Z).
Context (builtin_program : string → option SysExec.BuiltinProgram).
#[local] Hint Extern 0 (KernelEnv _ _ _) => exact (Kernel.kernel_env can_reserve) : typeclass_instances.
Abbreviation process := (Process Obj.FileHandle Z).
Implicit Types (k : kernel M) (p q : process) (e : Kernel.kenv M).

(** The 816 bytes of a frame are mapped to bytes of their own. *)
Definition frame_mapped (m : gmap Z Mm.Segment) (a : Z) : Prop :=
  (∀ j, 0 ≤ j < FRAME_SIZE → is_Some (Mm.addr_ptr m (a + j))) ∧ Mm.unaliased m a FRAME_SIZE.

Lemma poke_mapped m mem a bs : (∀ j, 0 ≤ j < Z.of_nat (length bs) → is_Some (Mm.addr_ptr m (a + j))) →
  (Mm.poke m mem a bs).1 = Ok tt.
Proof.
  revert mem a. induction bs as [|b bs IH]; intros mem a Hm; cbn [Mm.poke]; [done|].
  destruct (Hm 0) as [q Hq]; [simpl; lia|]. rewrite Z.add_0_r in Hq. rewrite Hq. apply IH.
  intros j Hj. replace (a + 1 + j) with (a + (1 + j)) by lia. apply Hm. simpl. lia.
Qed.
Lemma length_frame_layout signum mask f : frame_ok f → length (frame_layout signum mask f) = 816%nat.
Proof.
  intros [Hr Hf _ _ _ _]. unfold frame_layout.
  rewrite !length_app, !length_replicate, !length_words_bytes8, !length_to_le_bytes, length_drop, Hr, Hf. done.
Qed.

(** A frame written to the stack can be read back. *)
Lemma write_frame k p i rc addr bs :
  current (k_table k) = Ok p → Kernel.k_spaces (env (k_table k)) !! address_space p = Some (i, rc) →
  Mm.mappings_wf (Mm.mappings i) → Mm.backed (Mm.mappings i) → frame_mapped (Mm.mappings i) addr →
  can_reserve FRAME_SIZE = true → length bs = 816%nat →
  ∃ e, write_user can_reserve addr bs k = (Ok tt, put_env e k) ∧
       space_read (address_space p) addr FRAME_SIZE e = Ok bs.
Proof.
  intros Hp Hs Hwf Hb [Hmap Hun] Hres Hlen.
  destruct (Mm.write_bytes addr bs (Mm.mkSpace i (Kernel.k_mem (env (k_table k))))) as [o s'] eqn:Hw.
  pose proof (Mm.write_loop_spec (S (length bs)) addr bs (Mm.mkSpace i (Kernel.k_mem (env (k_table k)))) Hwf Hb ltac:(lia)) as Hl.
  assert (Mm.write_loop (S (length bs)) addr bs (Mm.mkSpace i (Kernel.k_mem (env (k_table k)))) = (o, s')) as Hw' by (by destruct bs).
  pose proof (poke_mapped (Mm.mappings i) (Kernel.k_mem (env (k_table k))) addr bs) as Hok. rewrite Hlen in Hok. specialize (Hok Hmap).
  cbn [Mm.inner Mm.kmem] in Hl. destruct (Mm.poke _ _ addr bs) as [o' mem] eqn:Hpk. simpl in Hok. subst o'. rewrite Hw' in Hl. simplify_eq.
  exists (Kernel.mkEnv (<[address_space p := (i, rc)]> (Kernel.k_spaces (env (k_table k)))) (Kernel.k_next (env (k_table k))) mem
            (Kernel.k_vfs (env (k_table k)))).
  split.
  - unfold write_user. rewrite stm_bind_eq, (cur_run _ _ Hp). unfold err_as, on_kenv, on_table, on_env. simpl.
    unfold Kernel.run_space. rewrite Hs, Hw. done.
  - simpl. rewrite lookup_insert_eq. change FRAME_SIZE with (Z.of_nat 816) in *. rewrite <- Hlen in *.
    by apply (Mm.write_read_roundtrip can_reserve (Mm.mkSpace i (Kernel.k_mem (env (k_table k)))) addr bs (Mm.mkSpace i mem)).
Qed.
Definition reg (n : nat) (f : TrapFrame) : Z := default 0 (regs f !! n).

Lemma enter_handler_run k p signum sp action : current (k_table k) = Ok p → sp ≤ USIZE_MAX - FRAME_SIZE →
  length (regs (trap_frame p)) = 32%nat →
  ∃ p1, enter_handler signum sp action k = (Ok tt, put_cur p1 k) ∧
    sepc (trap_frame p1) = sa_handler action ∧ regs (trap_frame p1) !! 2%nat = Some sp ∧
    regs (trap_frame p1) !! 10%nat = Some signum ∧ regs (trap_frame p1) !! 12%nat = Some (sp + UCONTEXT_OFF) ∧
    signal_mask p1 = Z.lor (signal_mask p) (sa_mask action) ∧ pending_signals p1 = pending_signals p ∧
    address_space p1 = address_space p.
Proof.
  intros Hp Hsp Hr. unfold enter_handler. stm_step. rewrite uadd_ok by (unfold UCONTEXT_OFF, FRAME_SIZE in *; lia).
  cbv beta iota zeta. rewrite (update_cur_run _ _ _ Hp). eexists. split; [reflexivity|].
  assert (∀ q, (if signum =? 33 then mark_cancel_signal_dispatched q else q) =
               set_cancel (if signum =? 33 then true else cancel_signal_seen q) (if signum =? 33 then false else cancellation_in_progress q) q) as Hc.
  { intros q. destruct (_ =? _); [done|by destruct q]. }
  rewrite Hc. cbn [trap_frame sepc regs set_frame set_mask set_cancel set_frame_pending SysProc.set_sepc set_reg signal_mask
    pending_signals address_space].
  split_and!; try done; repeat first
    [ rewrite list_lookup_insert_eq by (rewrite ?length_insert; lia); reflexivity
    | rewrite list_lookup_insert_ne by done ].
Qed.
Lemma sigreturn_run k p sp signum mask f : current (k_table k) = Ok p → regs (trap_frame p) !! 2%nat = Some sp →
  space_read (address_space p) sp FRAME_SIZE (env (k_table k)) = Ok (frame_layout signum mask f) →
  frame_ok f → word mask →
  ∃ q, SysProc.sys_rt_sigreturn can_reserve false k = (Ok (reg 10 f), put_cur q k) ∧
    signal_mask q = mask ∧ signal_frame_pending q = false ∧ drop 1 (regs (trap_frame q)) = drop 1 (regs f) ∧
    sepc (trap_frame q) = sepc f ∧ fregs (trap_frame q) = fregs f ∧ fcsr (trap_frame q) = fcsr f.
Proof.
  intros Hp Hsp Hrd Hf Hm. destruct (restore_layout signum mask f (trap_frame p) Hf Hm) as [Hres Hmask].
  unfold SysProc.sys_rt_sigreturn. rewrite stm_bind_eq. unfold err_as. rewrite (cur_run _ _ Hp).
  cbn [Abi.map_err]. cbv beta iota. rewrite stm_bind_eq. unfold read_user at 1. rewrite stm_bind_eq, (cur_run _ _ Hp), Hsp.
  change (default 0 (Some sp)) with sp. unfold ask_table. change 816 with FRAME_SIZE. rewrite Hrd. cbn [Abi.map_err]. cbv beta iota.
  rewrite stm_bind_eq, (update_cur_run _ _ _ Hp). cbv beta iota.
  rewrite stm_bind_eq, (cur_run _ _ (current_put_cur _ _)), Hres, Hmask. cbv beta iota. eexists. split.
  { cbv beta iota delta [mret stm_ret]. f_equal. f_equal. unfold reg. cbn [trap_frame set_frame regs].
    destruct (regs f) as [|x l] eqn:Hx; [by pose proof (fo_regs _ Hf) as Hl; rewrite Hx in Hl|].
    assert (length (take 1 (regs (trap_frame p))) = 1%nat) as Ht.
    { rewrite length_take. apply lookup_lt_Some in Hsp. lia. }
    rewrite lookup_app_r by lia. by rewrite Ht. }
  assert (∀ q : process, arm_cancellation_persistent q =
    set_cancel (if cancel_signal_seen q then false else cancel_signal_seen q)
      (if cancel_signal_seen q then true else cancellation_in_progress q) q) as Ha.
  { intros q. unfold arm_cancellation_persistent. destruct (cancel_signal_seen q) eqn:Hseen; [done|]. destruct q. simpl in *. by subst. }
  rewrite Ha. cbn [trap_frame set_frame set_cancel set_frame_pending set_mask signal_mask signal_frame_pending regs sepc fregs fcsr].
  split_and!; try done. apply lookup_lt_Some in Hsp. destruct (regs (trap_frame p)); [simpl in Hsp; lia|done].
Qed.

(** C2: A signal with a handler is delivered by storing the interrupted
    registers, the program counter, the floating point state and the signal
    mask in a frame on the stack and entering the handler with the signal
    number and the frame in the argument registers; whatever the handler does
    to its registers, [rt_sigreturn] with the stack pointer at the intact
    frame restores all of it and the interrupted program goes on. *)
Theorem signal_roundtrip k p i rc :
  current (k_table k) = Ok p →
  Kernel.k_spaces (env (k_table k)) !! address_space p = Some (i, rc) →
  Mm.mappings_wf (Mm.mappings i) → Mm.backed (Mm.mappings i) → can_reserve FRAME_SIZE = true →
  frame_ok (trap_frame p) → word (signal_mask p) →
  let unmasked := andnot64 (pending_signals p) (signal_mask p) in
  let signum := trailing_zeros 64 unmasked + 1 in
  let action := default no_action (signal_actions p !! signum) in
  let sp := frame_address (reg 2 (trap_frame p)) in
  unmasked ≠ 0 → 2 ≤ sa_handler action →
  frame_mapped (Mm.mappings i) sp → sp ≤ USIZE_MAX - FRAME_SIZE →
  ∃ k1 p1, dispatch_pending_signals can_reserve false k = (Ok tt, k1) ∧ current (k_table k1) = Ok p1 ∧
    (sepc (trap_frame p1) = sa_handler action ∧ reg 2 (trap_frame p1) = sp ∧ reg 10 (trap_frame p1) = signum ∧
     reg 12 (trap_frame p1) = sp + UCONTEXT_OFF) ∧
    signal_mask p1 = Z.lor (signal_mask p) (sa_mask action) ∧
    pending_signals p1 = andnot64 (pending_signals p) (bit64 (signum - 1)) ∧
    ∀ f e, regs f !! 2%nat = Some sp →
      space_read (address_space p) sp FRAME_SIZE e = space_read (address_space p) sp FRAME_SIZE (env (k_table k1)) →
      ∃ k3 p3, SysProc.sys_rt_sigreturn can_reserve false (put_env e (put_cur (set_frame f p1) k1)) =
                 (Ok (reg 10 (trap_frame p)), k3) ∧
        current (k_table k3) = Ok p3 ∧ signal_mask p3 = signal_mask p ∧
        drop 1 (regs (trap_frame p3)) = drop 1 (regs (trap_frame p)) ∧ sepc (trap_frame p3) = sepc (trap_frame p) ∧
        fregs (trap_frame p3) = fregs (trap_frame p) ∧ fcsr (trap_frame p3) = fcsr (trap_frame p).
Proof.
  intros Hp Hs Hwf Hb Hres Hf Hm unmasked signum action sp Hu Hh Hmap Hsp.
  set (q := set_pending (andnot64 (pending_signals p) (bit64 (signum - 1))) p).
  set (k0 := put_cur q k). assert (current (k_table k0) = Ok q) as Hq by apply current_put_cur.
  destruct (write_frame k0 q i rc sp (frame_layout signum (signal_mask p) (trap_frame p)) Hq Hs Hwf Hb Hmap Hres
    (length_frame_layout _ _ _ Hf)) as (e1 & Hw & Hrd).
  destruct (enter_handler_run (put_env e1 k0) q signum sp action Hq Hsp (fo_regs _ Hf)) as (p1 & He & Hpc & H2 & H10 & H12 & Hmask & Hpend & Has).
  exists (put_cur p1 (put_env e1 k0)), p1. split_and!; try done.
  - unfold dispatch_pending_signals. stm_step. rewrite Hp. fold unmasked. destruct (Z.eqb_spec unmasked 0); [done|].
    cbv zeta. fold signum. rewrite stm_bind_eq, (update_cur_run _ _ _ Hp). cbv beta iota. fold q k0 action. unfold deliver.
    destruct (Z.eqb_spec (sa_handler action) 0); [lia|]. destruct (Z.eqb_spec (sa_handler action) 1); [lia|].
    rewrite stm_bind_eq, (cur_run _ _ Hq). cbv beta iota zeta. rewrite signal_frame_layout by apply Hf.
    rewrite stm_bind_eq. unfold attempt. change (frame_address _) with sp. change (signal_mask q) with (signal_mask p).
    change (trap_frame q) with (trap_frame p). rewrite Hw. done.
  - apply current_put_cur.
  - unfold reg. by rewrite H2.
  - unfold reg. by rewrite H10.
  - unfold reg. by rewrite H12.
  - intros f e Hsf Heq. set (k2 := put_env e (put_cur (set_frame f p1) _)).
    assert (current (k_table k2) = Ok (set_frame f p1)) as H2c by apply current_put_cur.
    destruct (sigreturn_run k2 (set_frame f p1) sp signum (signal_mask p) (trap_frame p) H2c Hsf) as (p3 & Hr & ? & _ & ? & ? & ? & ?);
      [|done|done|].
    { change (address_space (set_frame f p1)) with (address_space p1). rewrite Has. change (env (k_table k2)) with e.
      change (address_space q) with (address_space p). rewrite Heq. exact Hrd. }
    exists (put_cur p3 k2), p3. split_and!; try done. apply current_put_cur.
Qed.
End Signals.
(** ** A process with a stack page and a handler for signal 10 *)
Section Sample.
#[local] Existing Instance Obj.no_ext4.
#[local] Existing Instance Mm.sample_hal.
Definition plenty : Z → bool := fun _ => true.
#[local] Hint Extern 0 (KernelEnv _ _ _) => exact (Kernel.kernel_env plenty) : typeclass_instances.

Definition sample_frame : TrapFrame :=
  mkFrame (<[2%nat := 0x12000]> (<[10%nat := 42]> (replicate 32 7))) 0x400 0 8 0 (replicate 32 9) 1.
Definition sample_process : Process Obj.FileHandle Z := mkProcess
  5 5 5 5 5 None "worker" "/" 0 0 0 0 [] 18 Ready None 1 ∅ ∅ sample_frame None None None 1 (2 ^ 9) None
  {[10 := mkSigAction 0x800 0 0 6]} None 0 None false None 0 None None None None false false false false 0 false None.
Definition sample_env : Kernel.kenv Empty_set :=
  Kernel.mkEnv {[1 := (Mm.inner Mm.sample_host_space, 1)]} 2 ∅ Vfs.empty_vfs.
Definition sample_kernel : kernel Empty_set :=
  put_cur sample_process (with_table (with_current 5 (PTable.new sample_env)) (cold sample_env (mkShmState 1 ∅ ∅) (mkTimex 0 0 0 0 0 0 0 0))).

Lemma sample_addr a : 0x10000 ≤ a < 0x13000 → Mm.addr_ptr (Mm.mappings (Mm.inner Mm.sample_host_space)) a = Some a.
Proof.
  intros Ha. apply (Mm.addr_ptr_covers _ _ 0x10000 Mm.sample_host_seg); [apply Mm.sample_host_wf| |].
  - split; [by vm_compute|]. change (Mm.seg_len Mm.sample_host_seg) with 0x3000. lia.
  - unfold Mm.storage_ptr. cbn [Mm.storage Mm.sample_host_seg]. rewrite uadd_ok by (unfold USIZE_MAX; lia). f_equal. lia.
Qed.
Lemma sample_frame_mapped : frame_mapped (Mm.mappings (Mm.inner Mm.sample_host_space)) 0x11cd0.
Proof.
  unfold frame_mapped, FRAME_SIZE. split.
  - intros j Hj. rewrite sample_addr by lia. eauto.
  - intros i j Hi Hj Hne. rewrite !sample_addr by lia. intros [= ?]. lia.
Qed.

Lemma sample_frame_ok : frame_ok sample_frame.
Proof.
  split; [reflexivity|reflexivity| | |by vm_compute|by vm_compute].
  - apply Forall_insert; [apply Forall_insert; [apply Forall_replicate|]|]; by vm_compute.
  - apply Forall_replicate. by vm_compute.
Qed.

Lemma signal_roundtrip_witness :
  ∃ k1 p1, dispatch_pending_signals plenty false sample_kernel = (Ok tt, k1) ∧ current (k_table k1) = Ok p1 ∧
    sepc (trap_frame p1) = 0x800 ∧ reg 10 (trap_frame p1) = 10 ∧ signal_mask p1 = 7.
Proof.
  destruct (signal_roundtrip plenty sample_kernel sample_process (Mm.inner Mm.sample_host_space) 1)
    as (k1 & p1 & H1 & H2 & (H3 & _ & H4 & _) & H5 & _);
    [reflexivity|reflexivity|apply Mm.sample_host_wf|apply Mm.sample_host_backed|reflexivity|apply sample_frame_ok|by vm_compute
    |by vm_compute|by vm_compute|apply sample_frame_mapped|by vm_compute|].
  exists k1, p1. split_and!; done.
Defined.
End Sample.
End SignalSpec.
