(* ===== verification/FutexSpec.v ===== *)
(** * Waiting for a futex, end to end

    A wait is two system calls: the first one queues the thread, blocks it and
    asks for a restart; the second one, made after a wake-up, returns.  And a
    wait that must fail at once is restarted by the trap handler for ever. *)

From S2P Require Import Prelude Task AddrSpace Elf Path FileObject Vfs Process KernelEnv ProcTable ProcSpec ProcProps Locks Abi Keys Sys SysProc SysExec SysDispatch SysRun KernelCore SignalSpec.

Open Scope string_scope.
Open Scope list_scope.
Open Scope Z_scope.

Module FutexSpec.
Import Proc PTable Sys SysRun KernelCore.

(** ** Threads that may run *)
Section Runnable.
Import Sched.
Implicit Types (s : Scheduler).
Definition runnable s (i : Z) : Prop := i ∈ (id <$> ready s) ∨ current_thread_id s = Some i.

Lemma block_blocks s i : current_thread_id s = Some i → ∃ t, blocked (block_current s).2 !! i = Some t ∧ id t = i.
Proof.
  unfold current_thread_id, block_current. destruct (current s) as [c|]; intros [= <-]. exists (set_state c Blocked).
  split; [|done]. unfold schedule_next. simpl. destruct (ready s); simpl; by rewrite lookup_insert_eq.
Qed.
Lemma schedule_next_runnable s i : i ∈ (id <$> ready s) → runnable (schedule_next s).2 i.
Proof.
  unfold runnable, schedule_next, current_thread_id. destruct (ready s) as [|t r]; [by intros ?%not_elem_of_nil|].
  simpl. rewrite elem_of_cons. intros [->|?]; [by right|by left].
Qed.
Lemma yield_runnable s i : i ∈ (id <$> ready s) → runnable (yield_now s).2 i.
Proof.
  intros Hi. unfold yield_now. destruct (current s) as [c|]; [|by apply schedule_next_runnable].
  apply schedule_next_runnable. case_decide; [done|]. simpl. rewrite fmap_app, elem_of_app. by left.
Qed.

Lemma wake_tasks_ready s ks i : blocked s !! i = None → i ∈ (id <$> ready s) →
  blocked (wake_tasks s ks).2 !! i = None ∧ i ∈ (id <$> ready (wake_tasks s ks).2).
Proof.
  revert s. induction ks as [|j ks IH]; intros s Hb Hr; cbn [wake_tasks]; [done|]. unfold wake_task.
  destruct (blocked s !! j) as [t|] eqn:Hj.
  - set (s1 := with_ready _ _). destruct (IH s1) as [H1 H2].
    { simpl. rewrite lookup_delete. by case_decide. }
    { simpl. rewrite fmap_app, elem_of_app. by left. }
    by destruct (wake_tasks s1 ks).
  - specialize (IH s Hb Hr). by destruct (wake_tasks s ks).
Qed.
Lemma wake_tasks_wakes s ks i t : i ∈ ks → blocked s !! i = Some t → id t = i →
  blocked (wake_tasks s ks).2 !! i = None ∧ i ∈ (id <$> ready (wake_tasks s ks).2).
Proof.
  revert s. induction ks as [|j ks IH]; intros s Hin Hb Hid; [by apply not_elem_of_nil in Hin|]. cbn [wake_tasks].
  unfold wake_task. destruct (decide (i = j)) as [<-|Hne].
  - rewrite Hb. set (s1 := with_ready _ _). destruct (wake_tasks_ready s1 ks i) as [H1 H2].
    { simpl. apply lookup_delete_eq. }
    { simpl. rewrite fmap_app, elem_of_app. right. simpl. by apply list_elem_of_singleton. }
    by destruct (wake_tasks s1 ks).
  - apply elem_of_cons in Hin as [|Hin]; [done|]. destruct (blocked s !! j) as [t'|] eqn:Hj.
    + set (s1 := with_ready _ _). destruct (IH s1 Hin) as [H1 H2]; [|done|by destruct (wake_tasks s1 ks)].
      simpl. by rewrite lookup_delete_ne.
    + specialize (IH s Hin Hb Hid). by destruct (wake_tasks s ks).
Qed.
End Runnable.

Section Futex.
Context {M : Type} `{!Obj.Ext4Ops M} `{!HalMemory} (can_reserve : Z → bool).
#[local] Hint Extern 0 (KernelEnv _ _ _) => exact (Kernel.kernel_env can_reserve) : typeclass_instances.
Abbreviation process := (Process Obj.FileHandle Z).
Implicit Types (k : kernel M) (p q : process) (e : Kernel.kenv M).

(** The 32-bit word at a user address, read through the address space. *)
Definition user_word p k (addr : Z) : outcome Z :=
  Abi.read_i32 (fun a n => Abi.map_err Abi.EFAULT (space_read (address_space p) a n (env (k_table k)))) addr.
Abbreviation futex_wait := (SysProc.futex_wait can_reserve).
Abbreviation queue_at k uaddr := (ProcProps.queue (futex_waiters (k_table k)) uaddr).

(** The running thread, which has no wait in progress and nothing that
    interrupts one. *)
Record idle_thread k p : Prop := mkIdle {
  it_current : current (k_table k) = Ok p;
  it_tid : current_tid (k_table k) = tid p;
  it_running : Sched.current_thread_id (k_sched k) = Some (tid p);
  it_wait : futex_wait_addr p = None;
  it_calm : SysProc.must_interrupt p = false;
}.

(** The thread once it waits. *)
Definition waiting uaddr p : process := set_futex_wait (Some uaddr) (Some U64_MAX) (eintr_count p) p.

Lemma wait_run k p uaddr val : idle_thread k p → user_word p k uaddr = Ok val →
  futex_wait uaddr val 0 k =
    (Err EAGAIN, with_sched (Sched.block_current (k_sched k)).2
       (put_cur (waiting uaddr p) (put_futex (enqueue_futex_waiter uaddr (tid p) (futex_waiters (k_table k))) k))).
Proof.
  intros [Hp Ht Hr Hw Hc] Hword. unfold SysProc.futex_wait. rewrite stm_bind_eq, (cur_run _ _ Hp). cbv beta iota.
  stm_step. rewrite Hw. unfold SysProc.futex_wait_fresh. rewrite stm_bind_eq, (cur_run _ _ Hp). cbv beta iota. rewrite Hc.
  rewrite stm_bind_eq, (with_reader_run _ _ _ _ Hp). fold (user_word p k uaddr). rewrite Hword, Z.eqb_refl. cbv beta iota.
  cbn [negb]. stm_step. change (0 =? 0) with true. stm_step. rewrite stm_bind_eq, on_futex_run. cbv beta iota.
  rewrite stm_bind_eq, (update_cur_run _ _ p) by done. cbv beta iota. rewrite stm_bind_eq, block_run. done.
Qed.

Lemma wait_again k p uaddr val : current (k_table k) = Ok (waiting uaddr p) → SysProc.must_interrupt p = false →
  tid p ∉ queue_at k uaddr → (futex_wait uaddr val 0 k).1 = Ok 0.
Proof.
  intros Hp Hc Hn. unfold SysProc.futex_wait. rewrite stm_bind_eq, (cur_run _ _ Hp). cbv beta iota. stm_step.
  cbn [waiting futex_wait_addr futex_wait_deadline_ns set_futex_wait]. rewrite Z.eqb_refl.
  change (SysProc.must_interrupt (waiting uaddr p)) with (SysProc.must_interrupt p). rewrite Hc.
  rewrite ProcProps.is_futex_waiting_queue, bool_decide_eq_false_2 by done. done.
Qed.
Lemma wake_run k uaddr n : ∃ s, (SysProc.futex_wake_at uaddr n k).2 =
    with_sched s (put_futex (wake_futex uaddr n (futex_waiters (k_table k))).2 k) ∧
  ∀ i t, i ∈ take (Z.to_nat n) (queue_at k uaddr) → Sched.blocked (k_sched k) !! i = Some t → Sched.id t = i → runnable s i.
Proof.
  unfold SysProc.futex_wake_at. rewrite stm_bind_eq, on_futex_run. cbv beta iota. rewrite ProcProps.woken.
  set (ks := take _ _). set (k1 := put_futex _ k). rewrite stm_bind_eq. unfold SysProc.wake_each at 1.
  rewrite stm_bind_eq, on_sched_run. cbv beta iota delta [mret stm_ret]. change (k_sched k1) with (k_sched k).
  set (s1 := (Sched.wake_tasks (k_sched k) ks).2). stm_step.
  assert (∀ i t, i ∈ ks → Sched.blocked (k_sched k) !! i = Some t → Sched.id t = i → i ∈ (Sched.id <$> Sched.ready s1)) as Hr.
  { intros i t Hi Hb Hid. by destruct (wake_tasks_wakes _ _ _ _ Hi Hb Hid). }
  rewrite stm_bind_eq. destruct (_ && _ && _).
  - unfold yield_now. rewrite stm_bind_eq, on_sched_run. cbv beta iota delta [mret stm_ret].
    exists (Sched.yield_now s1).2. split; [done|]. intros i t Hi Hb Hid. apply yield_runnable. by eapply Hr.
  - exists s1. split; [done|]. intros i t Hi Hb Hid. left. by eapply Hr.
Qed.

(** C3: A thread that waits for a futex holding the expected value is blocked
    and queued last; a wake-up that reaches its place in the queue makes it
    runnable again, and the restarted call then returns 0, whatever the futex
    holds by then. *)
Theorem futex_handshake k p uaddr val :
  idle_thread k p → user_word p k uaddr = Ok val → tid p ∉ queue_at k uaddr →
  let '(r, k1) := futex_wait uaddr val 0 k in
  r = Err EAGAIN ∧
  is_Some (Sched.blocked (k_sched k1) !! tid p) ∧
  queue_at k1 uaddr = queue_at k uaddr ++ [tid p] ∧
  ∀ e n, zlen (queue_at k1 uaddr) ≤ n →
    let k2 := (SysProc.futex_wake_at uaddr n (put_env e k1)).2 in
    runnable (k_sched k2) (tid p) ∧
    ∃ k3, set_current (tid p) (k_table k2) = (Ok tt, k_table k3) ∧
      ∀ val', (futex_wait uaddr val' 0 k3).1 = Ok 0.
Proof.
  intros Hi Hword Hnq. pose proof Hi as [Hp Ht Hr Hw Hc]. rewrite (wait_run _ _ _ _ Hi Hword).
  set (k1 := with_sched _ _). destruct (block_blocks _ _ Hr) as (t & Hbl & Hid).
  assert (queue_at k1 uaddr = queue_at k uaddr ++ [tid p]) as Hq.
  { simpl. rewrite ProcProps.queue_enqueue, decide_True, decide_False by done. done. }
  split; [done|]. split; [by eexists|]. split; [done|]. intros e n Hn.
  destruct (wake_run (put_env e k1) uaddr n) as (s & -> & Hs). cbv zeta.
  change (queue_at (put_env e k1) uaddr) with (queue_at k1 uaddr) in Hs.
  rewrite take_ge in Hs by (unfold zlen in Hn; lia). split.
  { apply (Hs _ t); [rewrite Hq; set_solver|done|done]. }
  set (k2 := with_sched s _).
  assert (processes (k_table k2) !! tid p = Some (waiting uaddr p)) as Hpr.
  { simpl. rewrite Ht. apply lookup_insert_eq. }
  exists (with_table (with_current (tid p) (k_table k2)) k2). split.
  { unfold set_current. stm_step. by rewrite Hpr. }
  intros val'. apply wait_again with p; [|done|].
  - unfold current. cbn [k_table with_table processes with_current current_tid]. by rewrite Hpr.
  - simpl.
    rewrite ProcProps.queue_wake, decide_True by done. rewrite drop_ge; [set_solver|].
    unfold zlen in Hn. simpl in *. lia.
Qed.
Context (heap : kernel M → Z) (builtin_program : string → option SysExec.BuiltinProgram).
(** The entry of the dispatch table for futexes. *)
Lemma dispatch_futex args k :
  SysDispatch.dispatch can_reserve false heap builtin_program 98 args k =
  (SysDispatch.retval (SysProc.sys_futex can_reserve args k).1, (SysProc.sys_futex can_reserve args k).2).
Proof.
  unfold SysDispatch.dispatch, SysDispatch.dispatch_call.
  change (SysDispatch.lookup_call 98 _) with (Some (SysProc.sys_futex (M := M) can_reserve)). cbv iota beta.
  by destruct (SysProc.sys_futex can_reserve args k).
Qed.

(** FUTEX_WAIT on a futex that no longer holds the expected value must
    return EAGAIN at once; the trap handler takes EAGAIN for a blocked call
    and leaves the machine exactly as it was, so that the thread makes the
    same call again and never learns of the change. *)
Theorem futex_mismatch_restarts k p w :
  current (k_table k) = Ok p → futex_wait_addr p = None → SysProc.must_interrupt p = false →
  andnot64 (pending_signals p) (signal_mask p) = 0 →
  let f := trap_frame p in
  let args := syscall_args f in
  scause f = 8 → syscall_number f = 98 → Z.land (arg args 1) 0x7f = 0 →
  user_word p k (arg args 0) = Ok w → w ≠ to_i32 (arg args 2) →
  SysProc.sys_futex can_reserve args k = (Err EAGAIN, k) ∧
  handle_trap can_reserve false heap builtin_program k = (Ok tt, k).
Proof.
  intros Hp Hw Hc Hu f args Hcause Hno Hop Hword Hne.
  assert (SysProc.sys_futex can_reserve args k = (Err EAGAIN, k)) as Hf.
  { unfold SysProc.sys_futex. rewrite Hop. cbv zeta. cbn [Z.eqb orb]. unfold SysProc.futex_wait.
    rewrite stm_bind_eq, (cur_run _ _ Hp). cbv beta iota. stm_step. rewrite Hw. unfold SysProc.futex_wait_fresh.
    rewrite stm_bind_eq, (cur_run _ _ Hp). cbv beta iota. rewrite Hc, stm_bind_eq, (with_reader_run _ _ _ _ Hp).
    fold (user_word p k (arg args 0)). rewrite Hword. cbv beta iota. by destruct (Z.eqb_spec w (to_i32 (arg args 2))). }
  split; [done|]. unfold handle_trap. stm_step. rewrite Hp. fold f. cbv zeta. rewrite Hcause, Hno. fold args.
  change (is_external_interrupt false 8) with false. change (is_timer_interrupt false 8) with false.
  change (is_syscall false 8) with true. cbv iota. unfold handle_syscall.
  rewrite stm_bind_eq, dispatch_futex, Hf. cbn [fst snd SysDispatch.retval]. cbv beta iota.
  rewrite stm_bind_eq. unfold return_to_user. stm_step. change (blocked_restart 98 (- EAGAIN)) with true.
  assert (dispatch_pending_signals can_reserve false k = (Ok tt, k)) as Hd.
  { unfold dispatch_pending_signals. stm_step. by rewrite Hp, Hu. }
  destruct (processes (k_table k) !! tid p); cbv beta iota delta [mret stm_ret];
    rewrite stm_bind_eq, Hd; cbv beta iota; rewrite stm_bind_eq; done.
Qed.
End Futex.

(** ** A thread with a futex at 0x10000, which holds 0 *)
Section Sample.
#[local] Existing Instance Obj.no_ext4.
#[local] Existing Instance Mm.sample_hal.
Import SignalSpec.
Definition waiter (val : Z) : Process Obj.FileHandle Z :=
  set_pending 0 (set_frame (mkFrame (<[17%nat := 98]> (<[12%nat := val]> (<[11%nat := 128]> (<[10%nat := 0x10000]> (replicate 32 0)))))
    0x400 0 8 0 (replicate 32 0) 0) sample_process).
Definition waiter_kernel (val : Z) : kernel Empty_set :=
  with_sched (Sched.mkScheduler 6 [] (Some (Sched.mkTask 5 5 "worker" Sched.Running)) ∅ 0) (put_cur (waiter val) sample_kernel).

Lemma futex_handshake_witness :
  let '(r, k1) := SysProc.futex_wait plenty 0x10000 0 0 (waiter_kernel 0) in
  r = Err EAGAIN ∧ is_Some (Sched.blocked (k_sched k1) !! 5) ∧ ProcProps.queue (futex_waiters (k_table k1)) 0x10000 = [5].
Proof.
  pose proof (futex_handshake plenty (waiter_kernel 0) (waiter 0) 0x10000 0) as Hf.
  assert (idle_thread (waiter_kernel 0) (waiter 0)) as Hi by (split; reflexivity).
  specialize (Hf Hi). assert (user_word plenty (waiter 0) (waiter_kernel 0) 0x10000 = Ok 0) as Hw by (vm_compute; reflexivity).
  specialize (Hf Hw ltac:(apply not_elem_of_nil)). revert Hf.
  destruct (SysProc.futex_wait plenty 0x10000 0 0 (waiter_kernel 0)) as [r k1]. intros (H1 & H2 & H3 & _).
  split; [exact H1|]. split; [exact H2|]. etrans; [exact H3|reflexivity].
Defined.

Lemma futex_mismatch_restarts_witness :
  handle_trap plenty false (fun _ => 0) (fun _ => None) (waiter_kernel 1) = (Ok tt, waiter_kernel 1).
Proof.
  apply (futex_mismatch_restarts plenty (fun _ => 0) (fun _ => None) (waiter_kernel 1) (waiter 1) 0);
    first [reflexivity | by vm_compute].
Defined.
End Sample.
End FutexSpec.
