(* ===== verification/ExecSpec.v ===== *)
(** * Scripts that name scripts

    [sys_execve] follows interpreter lines in a loop.  Each hand-over is
    counted, but the one for a script with an empty body does not look at the
    count: the loop ends after at most six rounds unless the program that
    stands for an empty script, /musl/basic/exit, is itself an empty script,
    and then it never ends. *)

From S2P Require Import Prelude Task AddrSpace Elf Path FileObject Vfs Process KernelEnv ProcTable Locks Abi Keys Sys SysProc SysExec CoreInv.

Open Scope string_scope.
Open Scope list_scope.
Open Scope Z_scope.

Module ExecSpec.
Import Proc PTable Abi Sys SysExec.

(** A shell script whose lines after the first are blank. *)
Definition empty_shell_script (image : list Z) : bool :=
  match parse_shebang_line image with
  | Some (interp, _) => script_body_empty image && is_shell interp
  | None => false
  end.

Definition EXIT_PROGRAM : string := "/musl/basic/exit".

Section Exec.
Context {M : Type} `{!Obj.Ext4Ops M} `{!HalMemory} (can_reserve : Z → bool) (loongarch : bool).
Context (builtin_program : string → option BuiltinProgram) (dir display : string) (envp : list string).
Abbreviation step := (exec_step can_reserve loongarch builtin_program dir display envp).
Abbreviation loop rounds := (exec_loop can_reserve loongarch builtin_program rounds dir display envp).
Abbreviation read_image := (read_exec_file_image (M := M) can_reserve dir).
Implicit Types (k : kernel M) (st : exec_state).

(** [n] rounds, each of which handed over to the next. *)
Inductive handed : nat → exec_state → kernel M → exec_state → kernel M → Prop :=
  | handed_0 st k : handed 0 st k st k
  | handed_S n st k st1 k1 st2 k2 :
      step st k = (Ok (inr st1), k1) → handed n st1 k1 st2 k2 → handed (S n) st k st2 k2.

Definition hops (st : exec_state) : Z := st.2.
Definition path_of (st : exec_state) : string := st.1.1.

(** A hand-over counts one more script and, from the fourth on, replaces an
    empty script. *)
Lemma step_hands st k st' k' : step st k = (Ok (inr st'), k') →
  hops st' = hops st + 1 ∧
  (4 ≤ hops st → path_of st' = EXIT_PROGRAM ∧
     ∃ image k1, read_image (path_of st) k = (Ok image, k1) ∧ empty_shell_script image = true).
Proof.
  destruct st as [[path argv] h]. unfold exec_step, hops, path_of. cbn [fst snd]. rewrite stm_bind_eq.
  destruct (read_image path k) as [[image| | |] k1] eqn:Hrd; try done. intros Hs.
  assert (∀ m : stm (kernel M) Z, (v ← m; mret (inl v) : stm (kernel M) (Z + exec_state)) k1 ≠ (Ok (inr st'), k')) as Hrun.
  { intros m. rewrite stm_bind_eq. destruct (m k1) as [[]]; done. }
  destruct image as [|b image]; [done|]. set (img := b :: image) in *. unfold empty_shell_script.
  destruct (parse_shebang_line img) as [[interp arg]|] eqn:Hsb.
  - destruct (script_body_empty img && is_shell interp) eqn:He; [inversion Hs; subst; split; [done|intros _]|].
    { split; [done|]. exists img, k'. by rewrite Hsb. }
    destruct (if is_shell interp then _ else _) as [interp' arg']. destruct (Z.leb_spec 4 h); [done|].
    inversion Hs; subst. split; [done|]. lia.
  - destruct (Path.ends_with path ".sh"); [|by apply Hrun in Hs]. destruct (Z.leb_spec 4 h); [done|].
    rewrite stm_bind_eq in Hs. cbv [get_vfs] in Hs. destruct (Vfs.is_ok _); [|by apply Hrun in Hs].
    inversion Hs; subst. split; [done|]. lia.
Qed.

(** No round of the run reads an empty script under the name of the program
    that stands for one. *)
Definition exit_is_program st k : Prop := ∀ n st1 k1 image k2, handed n st k st1 k1 → path_of st1 = EXIT_PROGRAM →
  read_image EXIT_PROGRAM k1 = (Ok image, k2) → empty_shell_script image = false.

Lemma handed_hops n st k st' k' : handed n st k st' k' → hops st' = hops st + Z.of_nat n.
Proof.
  induction 1 as [|n st k st1 k1 st2 k2 Hs _ IH]; [lia|]. destruct (step_hands _ _ _ _ Hs) as [Hh _]. lia.
Qed.
Lemma exit_is_program_step st k st1 k1 : step st k = (Ok (inr st1), k1) → exit_is_program st k → exit_is_program st1 k1.
Proof. intros Hs He n st2 k2 image k3 Hn. apply (He (S n)). by econstructor. Qed.

(** From the fourth script on there is at most one more hand-over. *)
Lemma no_more st k st1 k1 st2 k2 : 4 ≤ hops st → exit_is_program st k →
  step st k = (Ok (inr st1), k1) → step st1 k1 ≠ (Ok (inr st2), k2).
Proof.
  intros Hh He Hs Hs1. destruct (step_hands _ _ _ _ Hs) as [H1 H2]. destruct (H2 Hh) as [Hp _].
  destruct (step_hands _ _ _ _ Hs1) as [_ H3]. destruct H3 as [_ (image & k3 & Hrd & Hem)]; [lia|].
  rewrite Hp in Hrd. assert (empty_shell_script image = false) as Hf; [|by rewrite Hf in Hem].
  eapply (He 1%nat); [by econstructor; [done|constructor]|done|exact Hrd].
Qed.

Lemma handed_split n m st k st2 k2 : handed (n + m) st k st2 k2 →
  ∃ st1 k1, handed n st k st1 k1 ∧ handed m st1 k1 st2 k2.
Proof.
  revert st k. induction n as [|n IH]; intros st k Hh; [eexists _, _; split; [constructor|done]|].
  inversion Hh as [|? ? ? st0 k0 ? ? Hs Hr]; subst. destruct (IH _ _ Hr) as (st1 & k1 & H1 & H2).
  exists st1, k1. split; [by econstructor|done].
Qed.
Lemma exit_is_program_handed n st k st1 k1 : handed n st k st1 k1 → exit_is_program st k → exit_is_program st1 k1.
Proof. induction 1 as [|n st k st1 k1 st2 k2 Hs _ IH]; [done|]. intros He. apply IH. by eapply exit_is_program_step. Qed.

Lemma handed_bound st k st' k' : hops st = 0 → exit_is_program st k → ¬ handed 6 st k st' k'.
Proof.
  intros Hz He Hh. apply (handed_split 4 2) in Hh as (st1 & k1 & H4 & H2).
  pose proof (handed_hops _ _ _ _ _ H4) as Hhops. pose proof (exit_is_program_handed _ _ _ _ _ H4 He) as He1.
  inversion H2 as [|? ? ? st2 k2 ? ? Hs Hr]; subst. inversion Hr as [|? ? ? st3 k3 ? ? Hs' _]; subst.
  by eapply no_more; [|exact He1|exact Hs|exact Hs']; lia.
Qed.

(** ** The loop without a bound on its rounds *)
Definition finished (o : outcome (Z + exec_state)) : option (outcome Z) :=
  match o with
  | Ok (inl v) => Some (Ok v)
  | Ok (inr _) => None
  | Err e => Some (Err e)
  | Panic => Some Panic
  | Diverge => Some Diverge
  end.
Inductive runs : exec_state → kernel M → outcome Z → kernel M → Prop :=
  | runs_done st k o k' r : step st k = (o, k') → finished o = Some r → runs st k r k'
  | runs_next st k st1 k1 r k' : step st k = (Ok (inr st1), k1) → runs st1 k1 r k' → runs st k r k'.

Lemma loop_runs n st k : (∀ st' k', ¬ handed n st k st' k') →
  ∃ o k', runs st k o k' ∧ ∀ r, (n ≤ r)%nat → loop r st k = (o, k').
Proof.
  revert st k. induction n as [|n IH]; intros st k Hn; [by destruct (Hn st k (handed_0 _ _))|].
  destruct (step st k) as [o k1] eqn:Hs. destruct (finished o) as [r|] eqn:Hf.
  - exists r, k1. split; [by econstructor|]. intros [|r'] Hr; [lia|]. cbn [exec_loop]. rewrite stm_bind_eq, Hs.
    destruct o as [[]| | |]; by simplify_eq/=.
  - destruct o as [[|st1]| | |]; try done. destruct (IH st1 k1) as (o & k' & Hr & Hl).
    { intros st' k' Hh. apply (Hn st' k'). by econstructor. }
    exists o, k'. split; [by econstructor|]. intros [|r'] Hr'; [lia|]. cbn [exec_loop]. rewrite stm_bind_eq, Hs.
    apply Hl. lia.
Qed.

(** C12: Following interpreter lines ends: from the first round on, the loop of
    [execve] is left after at most six rounds, with the result of the bounded
    loop, where the program for empty scripts is not an empty script. *)
Theorem exec_terminates st k : hops st = 0 → exit_is_program st k →
  ∃ o k', runs st k o k' ∧ ∀ rounds, (6 ≤ rounds)%nat → loop rounds st k = (o, k').
Proof. intros Hz He. apply loop_runs. intros st' k'. by apply handed_bound. Qed.

(** A script with an empty body is replaced by /musl/basic/exit without
    looking at the number of scripts followed: where that file is itself an
    empty shell script, [execve] never returns. *)
Theorem exec_empty_exit_hangs k image argv h : read_image EXIT_PROGRAM k = (Ok image, k) → empty_shell_script image = true →
  (∀ o k', ¬ runs (EXIT_PROGRAM, argv, h) k o k') ∧
  ∀ rounds, loop rounds (EXIT_PROGRAM, argv, h) k = (Diverge, k).
Proof.
  intros Hrd Hem.
  assert (∀ argv h, step (EXIT_PROGRAM, argv, h) k = (Ok (inr (EXIT_PROGRAM, [display], h + 1)), k)) as Hs.
  { intros argv' h'. unfold exec_step. rewrite stm_bind_eq, Hrd. unfold empty_shell_script in Hem.
    destruct image as [|b image]; [done|]. destruct (parse_shebang_line _) as [[interp arg]|]; [|done]. by rewrite Hem. }
  split.
  - intros o k' Hr. remember (EXIT_PROGRAM, argv, h) as st eqn:Hst. revert argv h Hst. remember k as k0 eqn:Hk0 in Hr at 1.
    induction Hr as [st k0 o k' r Hs' Hf|st k0 st1 k1 r k' Hs' _ IH]; intros argv h ->; subst k0.
    + rewrite Hs in Hs'. by simplify_eq/=.
    + rewrite Hs in Hs'. simplify_eq. by eapply IH.
  - intros rounds. revert argv h. induction rounds as [|r IH]; intros argv h; cbn [exec_loop]; [done|].
    rewrite stm_bind_eq, Hs. apply IH.
Qed.
End Exec.

(** ** Two file systems with empty scripts *)
Section Sample.
#[local] Existing Instance Obj.no_ext4.
#[local] Existing Instance Mm.sample_hal.
Import CoreInv.
Definition empty_script : list Z := Vfs.bytes_of "#!/bin/sh" ++ [10].
Definition no_programs : string → option BuiltinProgram := fun _ => None.
Definition script_kernel : kernel Empty_set := (on_vfs (Vfs.create_file "/" "/s" empty_script) sample_boot).2.
Definition script_state : exec_state := ("/s", ["/s"], 0).
Definition exit_kernel : kernel Empty_set :=
  (on_vfs (Vfs.create_file "/" EXIT_PROGRAM empty_script)
    (on_vfs (Vfs.mkdir "/" "/musl/basic" 0) (on_vfs (Vfs.mkdir "/" "/musl" 0) sample_boot).2).2).2.

Lemma script_step :
  exec_step no_memory false no_programs "/" "/s" [] script_state script_kernel = (Ok (inr (EXIT_PROGRAM, ["/s"], 1)), script_kernel).
Proof. vm_compute. reflexivity. Qed.
Lemma exit_missing : read_exec_file_image no_memory "/" EXIT_PROGRAM script_kernel = (Err 2, script_kernel).
Proof. vm_compute. reflexivity. Qed.

Lemma exec_terminates_witness :
  ∃ o k', runs no_memory false no_programs "/" "/s" [] script_state script_kernel o k' ∧
    ∀ rounds, (6 ≤ rounds)%nat →
      exec_loop no_memory false no_programs rounds "/" "/s" [] script_state script_kernel = (o, k').
Proof.
  apply (exec_terminates no_memory false no_programs "/" "/s" [] script_state script_kernel eq_refl).
  intros n st1 k1 image k2 Hh Hp Hrd.
  pose proof script_step as Hstep. pose proof exit_missing as Hmiss. revert Hh Hstep Hmiss. generalize script_kernel. intros k0 Hh Hstep Hmiss.
  inversion Hh as [|? ? ? st2 k3 ? ? Hs Hr]; subst; [discriminate Hp|]. rewrite Hstep in Hs. simplify_eq.
  inversion Hr as [|? ? ? st4 k5 ? ? Hs' _]; subst; [by rewrite Hmiss in Hrd|].
  unfold exec_step in Hs'. rewrite stm_bind_eq, Hmiss in Hs'. done.
Defined.

Lemma exec_empty_exit_hangs_witness :
  exec_loop no_memory false no_programs 1000 "/" "/s" [] (EXIT_PROGRAM, ["/s"], 1) exit_kernel = (Diverge, exit_kernel).
Proof.
  refine (proj2 (exec_empty_exit_hangs no_memory false no_programs "/" "/s" [] exit_kernel empty_script ["/s"] 1 _ _) 1000%nat).
  - vm_compute. reflexivity.
  - reflexivity.
Defined.
End Sample.
End ExecSpec.
