(* ===== verification/Dma.v ===== *)
(** * DMA pages (crates/hal-virtio/src/lib.rs: [VirtioDmaArena])

    A bitmap allocator over a fixed array of pages.  The arena is refined by
    the set of its used pages: first-fit allocation, release of exactly the
    given range, and over any run of allocations and releases the live ranges
    never overlap. *)

From S2P Require Import Prelude.

Open Scope Z_scope.

Module Dma.

Definition DMA_PAGE_SIZE : Z := 4096.

(** [u64] words; clearing a bit is [w & !(1 << bit)]. *)
Definition bit_is_set (bitmap : list Z) (index : Z) : bool :=
  match bitmap !! Z.to_nat (index / 64) with
  | Some w => negb (Z.land w (Z.shiftl 1 (index mod 64)) =? 0)
  | None => false
  end.

Definition set_bit (bitmap : list Z) (page : Z) (value : bool) : outcome (list Z) :=
  let word := Z.to_nat (page / 64) in
  let bit := page mod 64 in
  w ← unwrap (bitmap !! word);
  Ok (<[word := if value then Z.lor w (Z.shiftl 1 bit) else Z.ldiff w (Z.shiftl 1 bit)]> bitmap).

Fixpoint set_pages (bitmap : list Z) (start : Z) (len : nat) (value : bool) : outcome (list Z) :=
  match len with
  | O => Ok bitmap
  | S len' => b ← set_bit bitmap start value; set_pages b (start + 1) len' value
  end.
Definition set_range (bitmap : list Z) (start len : Z) (value : bool) : outcome (list Z) :=
  set_pages bitmap start (Z.to_nat len) value.

Section Arena.
(** The address and the size of the storage and the words of the bitmap. *)
Context (base BYTES WORDS : Z).

Record arena := mkArena { bitmap : list Z; memory : gmap Z Z }.
Definition new : arena := mkArena (replicate (Z.to_nat WORDS) 0) ∅.
Definition total_pages : Z := BYTES / DMA_PAGE_SIZE.

(** The loop over the pages; the first page of a run that is long enough. *)
Fixpoint find_run (bitmap : list Z) (pages page run_start run_len : Z) (rounds : nat) : option Z :=
  match rounds with
  | O => None
  | S rounds' =>
      if bit_is_set bitmap page then find_run bitmap pages (page + 1) (page + 1) 0 rounds'
      else if run_len + 1 =? pages then Some run_start
      else find_run bitmap pages (page + 1) run_start (run_len + 1) rounds'
  end.

Definition alloc (pages : Z) (a : arena) : outcome (option Z * arena) :=
  if pages =? 0 then Ok (None, a)
  else if (total_pages <? pages) || (WORDS * 64 <? total_pages) then Ok (None, a)
  else
    match find_run (bitmap a) pages 0 0 0 (Z.to_nat total_pages) with
    | None => Ok (None, a)
    | Some run_start =>
        b ← set_range (bitmap a) run_start pages true;
        let ptr := base + run_start * DMA_PAGE_SIZE in
        let a' := mkArena b (write_mem (memory a) ptr (replicate (Z.to_nat (pages * DMA_PAGE_SIZE)) 0)) in
        Ok (if ptr =? 0 then None else Some ptr, a')
    end.

Definition dealloc (paddr pages : Z) (a : arena) : outcome (Z * arena) :=
  if pages =? 0 then Ok (0, a)
  else
    end_ ← uadd base BYTES;
    if (paddr <? base) || (end_ <=? paddr) || negb (paddr mod DMA_PAGE_SIZE =? 0) then Ok (-1, a)
    else
      let offset := paddr - base in
      size ← umul pages DMA_PAGE_SIZE;
      last ← uadd offset size;
      if BYTES <? last then Ok (-1, a)
      else
        b ← set_range (bitmap a) (offset / DMA_PAGE_SIZE) pages false;
        Ok (0, mkArena b (memory a)).

Definition contains (paddr : Z) : bool := (base <=? paddr) && (paddr <? base + BYTES).
Definition phys_to_virt (paddr : Z) : option Z := if contains paddr && negb (paddr =? 0) then Some paddr else None.

(** ** Bits *)
Definition used (b : list Z) (page : Z) : Prop := bit_is_set b page = true.

Lemma land_shiftl w i : 0 ≤ i → negb (Z.land w (Z.shiftl 1 i) =? 0) = Z.testbit w i.
Proof.
  intros Hi. rewrite Z.shiftl_1_l. destruct (Z.testbit w i) eqn:Hb.
  - apply negb_true_iff, Z.eqb_neq. intros Hz. apply (f_equal (fun z => Z.testbit z i)) in Hz.
    by rewrite Z.land_spec, Hb, Z.pow2_bits_true, Z.bits_0 in Hz by lia.
  - apply negb_false_iff, Z.eqb_eq, Z.bits_inj'. intros j Hj. rewrite Z.land_spec, Z.bits_0, Z.pow2_bits_eqb by lia.
    destruct (Z.eqb_spec i j) as [->|]; [by rewrite Hb|apply andb_false_r].
Qed.

Lemma set_bit_spec b page v : 0 ≤ page < 64 * zlen b →
  ∃ b', set_bit b page v = Ok b' ∧ length b' = length b ∧
    ∀ i, 0 ≤ i → bit_is_set b' i = if decide (i = page) then v else bit_is_set b i.
Proof.
  intros Hp. unfold set_bit, zlen in *.
  destruct (lookup_lt_is_Some_2 b (Z.to_nat (page / 64))) as [w Hw].
  { apply Nat2Z.inj_lt. rewrite Z2Nat.id by (apply Z.div_pos; lia). apply Z.div_lt_upper_bound; lia. }
  rewrite Hw. cbn [unwrap]. eexists. split; [reflexivity|]. split; [apply length_insert|].
  intros i Hi. unfold bit_is_set. pose proof (Z.mod_pos_bound i 64). pose proof (Z.mod_pos_bound page 64).
  destruct (decide (i / 64 = page / 64)) as [Heq|Hne].
  - rewrite Heq, list_lookup_insert_eq by (by eapply lookup_lt_Some). rewrite Hw, !land_shiftl by lia.
    rewrite !Z.shiftl_1_l. destruct (decide (i = page)) as [->|Hip].
    + destruct v; rewrite ?Z.lor_spec, ?Z.ldiff_spec, Z.pow2_bits_true by lia; [apply orb_true_r|apply andb_false_r].
    + assert (page mod 64 ≠ i mod 64) as Hmod.
      { intros Hm. apply Hip. rewrite (Z.div_mod i 64), (Z.div_mod page 64), Heq, Hm by lia. done. }
      destruct v; rewrite ?Z.lor_spec, ?Z.ldiff_spec, Z.pow2_bits_false by lia; [apply orb_false_r|apply andb_true_r].
  - rewrite list_lookup_insert_ne; [by rewrite decide_False by (intros ->; done)|].
    intros Hn%Z2Nat.inj; [done|apply Z.div_pos; lia..].
Qed.

Lemma set_pages_spec b start len v : 0 ≤ start → start + Z.of_nat len ≤ 64 * zlen b →
  ∃ b', set_pages b start len v = Ok b' ∧ length b' = length b ∧
    ∀ i, 0 ≤ i → bit_is_set b' i = if decide (start ≤ i < start + Z.of_nat len) then v else bit_is_set b i.
Proof.
  revert b start. induction len as [|len IH]; intros b start Hs Hl; cbn [set_pages].
  { exists b. split_and!; [done..|]. intros i Hi. by rewrite decide_False by lia. }
  destruct (set_bit_spec b start v) as (b1 & -> & Hl1 & Hb1); [lia|]. cbn [mbind outcome_bind].
  destruct (IH b1 (start + 1)) as (b' & Hs' & Hl' & Hb'); [lia|unfold zlen in *; lia|].
  exists b'. split; [done|]. split; [lia|]. intros i Hi. rewrite Hb', Hb1 by done. repeat case_decide; lia || done.
Qed.

(** ** First fit *)
Definition free (b : list Z) (s n : Z) : Prop := ∀ i, s ≤ i < s + n → bit_is_set b i = false.

Lemma find_run_spec b pages page run_start run_len rounds :
  0 ≤ run_start → run_start + run_len = page → 0 ≤ run_len < pages → free b run_start run_len →
  (∀ s, 0 ≤ s < run_start → ¬ free b s pages) →
  match find_run b pages page run_start run_len rounds with
  | Some s => 0 ≤ s ∧ s + pages ≤ page + Z.of_nat rounds ∧ free b s pages ∧ ∀ s', 0 ≤ s' < s → ¬ free b s' pages
  | None => ∀ s, 0 ≤ s → s + pages ≤ page + Z.of_nat rounds → ¬ free b s pages
  end.
Proof.
  revert page run_start run_len. induction rounds as [|n IH]; intros page rs rl Hrs Hp Hrl Hf Hno; cbn [find_run].
  { intros s Hz Hs. apply Hno. lia. }
  replace (page + Z.of_nat (S n)) with ((page + 1) + Z.of_nat n) by lia.
  destruct (bit_is_set b page) eqn:Hb.
  - apply IH; [lia..|intros i Hi; lia|]. intros s Hs Hfs. destruct (decide (s < rs)); [by apply (Hno s); [lia|]|].
    by rewrite (Hfs page) in Hb by lia.
  - assert (free b rs (rl + 1)) as Hf'.
    { intros i Hi. destruct (decide (i = page)) as [->|]; [done|apply Hf; lia]. }
    destruct (Z.eqb_spec (rl + 1) pages) as [<-|]; [split_and!; try done; lia|]. apply IH; try done; lia.
Qed.

(** ** Allocation and release *)
Context (Hbase : 0 < base) (Haligned : base mod DMA_PAGE_SIZE = 0) (Htop : base + BYTES ≤ USIZE_MAX).

Record arena_ok (a : arena) : Prop := mkArenaOk { ao_words : zlen (bitmap a) = Z.max 0 WORDS }.
Definition capacity : Prop := total_pages ≤ WORDS * 64.

Lemma total_bytes : total_pages * DMA_PAGE_SIZE ≤ BYTES.
Proof. unfold total_pages, DMA_PAGE_SIZE. pose proof (Z.mul_div_le BYTES 4096). lia. Qed.

Lemma alloc_spec a pages : arena_ok a → capacity → 0 < pages ≤ total_pages →
  (∃ s a', alloc pages a = Ok (Some (base + s * DMA_PAGE_SIZE), a') ∧ 0 ≤ s ∧ s + pages ≤ total_pages ∧ arena_ok a' ∧
     free (bitmap a) s pages ∧ (∀ s', 0 ≤ s' < s → ¬ free (bitmap a) s' pages) ∧
     (∀ i, 0 ≤ i → bit_is_set (bitmap a') i = if decide (s ≤ i < s + pages) then true else bit_is_set (bitmap a) i) ∧
     (∀ x, memory a' !! x = if decide (base + s * DMA_PAGE_SIZE ≤ x < base + (s + pages) * DMA_PAGE_SIZE)
                            then Some 0 else memory a !! x)) ∨
  alloc pages a = Ok (None, a) ∧ ∀ s, 0 ≤ s → s + pages ≤ total_pages → ¬ free (bitmap a) s pages.
Proof.
  intros [Hw] Hcap Hp. unfold alloc. destruct (Z.eqb_spec pages 0); [lia|]. unfold capacity in Hcap.
  destruct (Z.ltb_spec total_pages pages); [lia|]. destruct (Z.ltb_spec (WORDS * 64) total_pages); [lia|]. cbn [orb].
  pose proof (find_run_spec (bitmap a) pages 0 0 0 (Z.to_nat total_pages)) as Hfind.
  specialize (Hfind ltac:(lia) ltac:(lia) ltac:(lia) ltac:(intros i Hi; lia) ltac:(intros; lia)).
  destruct (find_run _ _ _ _ _ _) as [s|]; [left|right; split; [done|intros s Hz Hs; apply Hfind; lia]].
  destruct Hfind as (Hz & Hs & Hf & Hno). rewrite Z2Nat.id in Hs by lia.
  destruct (set_pages_spec (bitmap a) s (Z.to_nat pages) true) as (b' & Hset & Hl & Hb); [lia..|].
  unfold set_range. rewrite Hset. cbn [mbind outcome_bind]. rewrite Z2Nat.id in Hb by lia.
  destruct (Z.eqb_spec (base + s * DMA_PAGE_SIZE) 0); [unfold DMA_PAGE_SIZE in *; lia|].
  eexists s, _. split; [reflexivity|]. split_and!; try done; [split; simpl; unfold zlen in *; lia|].
  intros x. simpl. rewrite lookup_write_mem, length_replicate, Z2Nat.id by (unfold DMA_PAGE_SIZE; lia).
  replace (base + (s + pages) * DMA_PAGE_SIZE) with (base + s * DMA_PAGE_SIZE + pages * DMA_PAGE_SIZE) by lia.
  case_decide; [|done]. apply lookup_replicate_2. lia.
Qed.

Lemma dealloc_spec a s pages : arena_ok a → capacity → 0 ≤ s → 0 < pages → s + pages ≤ total_pages →
  ∃ a', dealloc (base + s * DMA_PAGE_SIZE) pages a = Ok (0, a') ∧ arena_ok a' ∧ memory a' = memory a ∧
    ∀ i, 0 ≤ i → bit_is_set (bitmap a') i = if decide (s ≤ i < s + pages) then false else bit_is_set (bitmap a) i.
Proof.
  intros [Hw] Hcap Hs Hp Ht. pose proof total_bytes as Hb. unfold dealloc, capacity in *.
  destruct (Z.eqb_spec pages 0); [lia|]. rewrite uadd_ok by lia. cbn [mbind outcome_bind].
  assert ((base + s * DMA_PAGE_SIZE) mod DMA_PAGE_SIZE = 0) as Hal.
  { rewrite Z.add_mod, Haligned, Z.mod_mul by (unfold DMA_PAGE_SIZE; lia). done. }
  unfold DMA_PAGE_SIZE in *. destruct (Z.ltb_spec (base + s * 4096) base); [lia|].
  destruct (Z.leb_spec (base + BYTES) (base + s * 4096)); [lia|]. rewrite Hal. cbn [orb negb Z.eqb].
  replace (base + s * 4096 - base) with (s * 4096) by lia. rewrite umul_ok by lia. cbn [mbind outcome_bind].
  rewrite uadd_ok by lia. cbn [mbind outcome_bind]. destruct (Z.ltb_spec BYTES (s * 4096 + pages * 4096)); [lia|].
  rewrite Z.div_mul by lia.
  destruct (set_pages_spec (bitmap a) s (Z.to_nat pages) false) as (b' & Hset & Hl & Hbit); [lia..|].
  unfold set_range. rewrite Hset. cbn [mbind outcome_bind]. rewrite Z2Nat.id in Hbit by lia.
  eexists. split; [reflexivity|]. split_and!; try done. split. simpl. unfold zlen in *. lia.
Qed.

(** ** Clients: runs of allocations and releases

    [live] holds the ranges a client got and has not given back, as the
    address and the number of pages. *)
Definition covers (page : Z) (r : Z * Z) : Prop :=
  r.1 ≤ base + page * DMA_PAGE_SIZE < r.1 + r.2 * DMA_PAGE_SIZE.
#[global] Instance covers_dec page r : Decision (covers page r).
Proof. unfold covers. apply _. Defined.
Definition users (page : Z) (live : list (Z * Z)) : nat := length (filter (covers page) live).

Inductive dma_step : arena * list (Z * Z) → arena * list (Z * Z) → Prop :=
| step_alloc a a' live pages ptr : 0 ≤ pages → alloc pages a = Ok (Some ptr, a') → dma_step (a, live) (a', (ptr, pages) :: live)
| step_refused a a' live pages : 0 ≤ pages → alloc pages a = Ok (None, a') → dma_step (a, live) (a', live)
| step_free a a' live live' ptr pages r : live ≡ₚ (ptr, pages) :: live' → dealloc ptr pages a = Ok (r, a') →
    dma_step (a, live) (a', live').

Definition range_ok (r : Z * Z) : Prop :=
  ∃ s, r.1 = base + s * DMA_PAGE_SIZE ∧ 0 ≤ s ∧ 0 < r.2 ∧ s + r.2 ≤ total_pages.

(** A page is used exactly when one live range covers it. *)
Record dma_inv (st : arena * list (Z * Z)) : Prop := mkDmaInv {
  di_ok : arena_ok st.1;
  di_ranges : Forall range_ok st.2;
  di_users : ∀ page, 0 ≤ page → users page st.2 = if bit_is_set (bitmap st.1) page then 1%nat else 0%nat;
}.

Lemma covers_range page s pages : covers page (base + s * DMA_PAGE_SIZE, pages) ↔ s ≤ page < s + pages.
Proof. unfold covers, DMA_PAGE_SIZE. simpl. lia. Qed.

Lemma users_cons page r live : users page (r :: live) = ((if decide (covers page r) then 1 else 0) + users page live)%nat.
Proof. unfold users. rewrite filter_cons. by case_decide. Qed.

Lemma users_perm page live live' : live ≡ₚ live' → users page live = users page live'.
Proof. intros Hp. unfold users. by rewrite Hp. Qed.

Lemma users_0 page live : users page live = 0%nat ↔ ∀ r, r ∈ live → ¬ covers page r.
Proof.
  unfold users. rewrite length_zero_iff_nil. split.
  - intros Hn r Hr Hc. assert (r ∈ filter (covers page) live) as Hin by by apply list_elem_of_filter.
    rewrite Hn in Hin. by apply not_elem_of_nil in Hin.
  - intros Hno. apply elem_of_nil_inv. intros r Hr%list_elem_of_filter. by apply (Hno r); apply Hr.
Qed.

(** Two positions of the list that cover one page make two users. *)
Lemma users_two page live i j r r' : live !! i = Some r → live !! j = Some r' → i ≠ j → covers page r → covers page r' →
  (2 ≤ users page live)%nat.
Proof.
  revert i j. induction live as [|x live IH]; [done|]. intros i j Hi Hj Hij Hc Hc'. rewrite users_cons.
  assert (∀ k y, live !! k = Some y → covers page y → (1 ≤ users page live)%nat) as Hone.
  { intros k y Hk Hy. destruct (users page live) eqn:Hu; [|lia]. rewrite users_0 in Hu.
    by destruct (Hu y); [eapply list_elem_of_lookup_2|]. }
  destruct i as [|i], j as [|j]; simplify_eq/=; [by rewrite decide_True by done; specialize (Hone _ _ Hj Hc'); lia..| |].
  - rewrite decide_True by done. specialize (Hone _ _ Hi Hc). lia.
  - specialize (IH i j Hi Hj ltac:(congruence) Hc Hc'). lia.
Qed.

Lemma free_users st s pages : dma_inv st → 0 ≤ s →
  free (bitmap st.1) s pages ↔ ∀ page, s ≤ page < s + pages → users page st.2 = 0%nat.
Proof.
  intros [_ _ Hu] Hs. unfold free. apply forall_proper. intros i. split; intros Hf Hi; specialize (Hf Hi).
  - by rewrite Hu, Hf by lia.
  - rewrite Hu in Hf by lia. by destruct (bit_is_set _ _).
Qed.

Lemma dma_inv_new : dma_inv (new, []).
Proof.
  split; simpl; [split; unfold zlen; simpl; rewrite length_replicate; lia|constructor|].
  intros page Hp. unfold users, bit_is_set. simpl.
  destruct (replicate _ _ !! _) as [w|] eqn:Hw; [|done]. by apply lookup_replicate in Hw as [-> _].
Qed.

Context (Hcapacity : capacity).

Lemma alloc_inv a a' live pages ptr : dma_inv (a, live) → 0 ≤ pages → alloc pages a = Ok (ptr, a') →
  match ptr with Some p => dma_inv (a', (p, pages) :: live) | None => a' = a end.
Proof.
  intros Hinv Hp Ha. destruct (decide (0 < pages ≤ total_pages)) as [Hr|Hr].
  2: { revert Ha. unfold alloc. destruct (Z.eqb_spec pages 0); [by intros [= <- <-]|].
       destruct (Z.ltb_spec total_pages pages); [by intros [= <- <-]|lia]. }
  destruct (alloc_spec a pages (di_ok _ Hinv) Hcapacity Hr) as [(s & a1 & Heq & Hs & Ht & Hok & Hf & _ & Hb & _)|[Heq _]];
    rewrite Heq in Ha; injection Ha as <- <-; [|done].
  rewrite (free_users (a, live)) in Hf by done. simpl in Hf. destruct Hinv as [_ Hrs Hu]. simpl in *.
  split; simpl; [done| |].
  - constructor; [|done]. exists s. simpl. lia.
  - intros page Hpage. rewrite users_cons, Hb by done.
    destruct (decide (covers _ _)) as [Hc|Hc]; rewrite covers_range in Hc.
    + rewrite decide_True, Hf by done. done.
    + rewrite decide_False by done. apply Hu. done.
Qed.

Lemma dealloc_inv a live live' ptr pages : dma_inv (a, live) → live ≡ₚ (ptr, pages) :: live' →
  ∃ a', dealloc ptr pages a = Ok (0, a') ∧ dma_inv (a', live') ∧ memory a' = memory a.
Proof.
  intros [Hok Hrs Hu] Hp. simpl in *. rewrite Hp in Hrs. apply Forall_cons in Hrs as [(s & Hs & H0 & Hn & Ht) Hrs]. simpl in *.
  subst ptr. destruct (dealloc_spec a s pages Hok Hcapacity H0 Hn Ht) as (a' & -> & Hok' & Hm & Hb).
  exists a'. split_and!; [done| |done]. split; simpl; [done..|]. intros page Hpage.
  specialize (Hu page Hpage). rewrite (users_perm _ _ _ Hp), users_cons in Hu. rewrite Hb by done.
  destruct (decide (covers _ _)) as [Hc|Hc]; rewrite covers_range in Hc.
  - rewrite decide_True by done. destruct (bit_is_set _ _); lia.
  - by rewrite decide_False.
Qed.

Lemma dma_step_inv st st' : dma_inv st → dma_step st st' → dma_inv st'.
Proof.
  intros Hinv Hstep. destruct Hstep as [a a' live pages ptr Hp Ha|a a' live pages Hp Ha|a a' live live' ptr pages r Hp Hd].
  - exact (alloc_inv _ _ _ _ _ Hinv Hp Ha).
  - pose proof (alloc_inv _ _ _ _ _ Hinv Hp Ha) as ->. done.
  - destruct (dealloc_inv _ _ _ _ _ Hinv Hp) as (a1 & Hd1 & Hinv1 & _). rewrite Hd1 in Hd. by injection Hd as _ <-.
Qed.

Lemma dma_reachable st : rtc dma_step (new, []) st → dma_inv st.
Proof. intros Hr. eapply rtc_ind_r with (P := dma_inv); [apply dma_inv_new| |done]. eauto using dma_step_inv. Qed.

(** C33: Over any run of allocations and of releases of live ranges, the ranges
    handed out are page aligned, inside the arena and pairwise disjoint; a
    release of any of them succeeds; an allocation succeeds exactly when some
    run of that many pages is covered by no live range, and it then hands out
    zeroed memory and leaves every byte of the live ranges as it was. *)
Theorem dma_live_disjoint a live : rtc dma_step (new, []) (a, live) →
  (∀ i j r r', live !! i = Some r → live !! j = Some r' → i ≠ j →
     r.1 + r.2 * DMA_PAGE_SIZE ≤ r'.1 ∨ r'.1 + r'.2 * DMA_PAGE_SIZE ≤ r.1) ∧
  (∀ r, r ∈ live → r.1 mod DMA_PAGE_SIZE = 0 ∧ 0 < r.2 ∧ base ≤ r.1 ∧ r.1 + r.2 * DMA_PAGE_SIZE ≤ base + BYTES ∧
     ∃ a', dealloc r.1 r.2 a = Ok (0, a')) ∧
  (∀ pages, 0 < pages →
     (∃ ptr a', alloc pages a = Ok (Some ptr, a')) ↔
     ∃ s, 0 ≤ s ∧ s + pages ≤ total_pages ∧ ∀ page, s ≤ page < s + pages → ∀ r, r ∈ live → ¬ covers page r) ∧
  (∀ pages ptr a', 0 < pages → alloc pages a = Ok (Some ptr, a') →
     (∀ x, ptr ≤ x < ptr + pages * DMA_PAGE_SIZE → memory a' !! x = Some 0) ∧
     (∀ r x, r ∈ live → r.1 ≤ x < r.1 + r.2 * DMA_PAGE_SIZE → memory a' !! x = memory a !! x)).
Proof.
  intros Hinv%dma_reachable. pose proof (di_ranges _ Hinv) as Hrs. simpl in Hrs. rewrite Forall_forall in Hrs.
  split_and!.
  - intros i j r r' Hi Hj Hij.
    destruct (Hrs r) as (s & Hs & Hs0 & Hn & _); [by eapply list_elem_of_lookup_2|].
    destruct (Hrs r') as (s' & Hs' & Hs0' & Hn' & _); [by eapply list_elem_of_lookup_2|].
    destruct (decide (s + r.2 ≤ s')); [left; unfold DMA_PAGE_SIZE in *; lia|].
    destruct (decide (s' + r'.2 ≤ s)); [right; unfold DMA_PAGE_SIZE in *; lia|].
    pose proof (users_two (Z.max s s') live i j r r' Hi Hj Hij) as Htwo. unfold covers, DMA_PAGE_SIZE in *.
    specialize (Htwo ltac:(lia) ltac:(lia)). pose proof (di_users _ Hinv (Z.max s s') ltac:(lia)) as Hu. simpl in Hu.
    destruct (bit_is_set _ _); lia.
  - intros r Hr. destruct (Hrs r Hr) as (s & Hs & Hs0 & Hn & Ht). pose proof total_bytes. split_and!; [|lia| | |].
    + rewrite Hs, Z.add_mod, Haligned, Z.mod_mul by (unfold DMA_PAGE_SIZE; lia). done.
    + unfold DMA_PAGE_SIZE in *. lia.
    + unfold DMA_PAGE_SIZE in *. lia.
    + apply list_elem_of_split in Hr as (l1 & l2 & Hl). destruct r as [p n].
      destruct (dealloc_inv a live (l1 ++ l2) p n Hinv) as (a' & Hd & _); [|by exists a'].
      rewrite Hl. by rewrite Permutation_middle.
  - intros pages Hp. assert (∀ s, 0 ≤ s → free (bitmap a) s pages ↔
      ∀ page, s ≤ page < s + pages → ∀ r, r ∈ live → ¬ covers page r) as Hfree.
    { intros s Hs. rewrite (free_users (a, live)) by done. simpl. by setoid_rewrite users_0. }
    destruct (decide (pages ≤ total_pages)) as [Ht|Ht].
    2: { unfold alloc. destruct (Z.eqb_spec pages 0); [lia|]. destruct (Z.ltb_spec total_pages pages); [|lia].
         split; [by intros (? & ? & ?)|intros (s & ? & ? & _); lia]. }
    destruct (alloc_spec a pages (di_ok _ Hinv) Hcapacity ltac:(lia))
      as [(s & a' & Heq & Hs & Hst & _ & Hf & _)|[Heq Hno]]; rewrite Heq.
    + split; [|by intros _; eauto]. intros _. exists s. split_and!; [lia..|]. by apply Hfree.
    + split; [by intros (? & ? & ?)|]. intros (s & Hs & Hst & Hcov). destruct (Hno s Hs Hst). by apply Hfree.
  - intros pages ptr a' Hp Ha.
    assert (pages ≤ total_pages) as Ht.
    { revert Ha. unfold alloc. destruct (Z.eqb_spec pages 0); [done|]. by destruct (Z.ltb_spec total_pages pages). }
    destruct (alloc_spec a pages (di_ok _ Hinv) Hcapacity ltac:(lia))
      as [(s & a1 & Heq & Hs & Hst & _ & Hf & _ & _ & Hm)|[Heq _]]; rewrite Heq in Ha; [|done].
    injection Ha as <- <-. split.
    + intros x Hx. rewrite Hm, decide_True by (unfold DMA_PAGE_SIZE in *; lia). done.
    + intros r x Hr Hx. rewrite Hm. destruct (Hrs r Hr) as (sr & Hsr & Hsr0 & Hrn & Hrt).
      case_decide as Hin; [|done]. exfalso. rewrite (free_users (a, live)) in Hf by done.
      pose proof (Hf (Z.max s sr)) as Hfree. rewrite users_0 in Hfree. unfold covers, DMA_PAGE_SIZE in *.
      apply (Hfree ltac:(lia) r Hr). lia.
Qed.
End Arena.

(** Two pages taken from an arena of eight, given back and taken again. *)
Lemma dma_live_disjoint_witness :
  ∃ a live, rtc (dma_step 4096 (8 * 4096) 1) (new 1, []) (a, live) ∧ length live = 1%nat ∧
    (∀ r, r ∈ live → r.1 mod DMA_PAGE_SIZE = 0 ∧ 0 < r.2 ∧ 4096 ≤ r.1 ∧ r.1 + r.2 * DMA_PAGE_SIZE ≤ 4096 + 8 * 4096 ∧
       ∃ a', dealloc 4096 (8 * 4096) r.1 r.2 a = Ok (0, a')).
Proof.
  assert (capacity (8 * 4096) 1) as Hcap by (vm_compute; discriminate).
  destruct (alloc_spec 4096 (8 * 4096) 1 ltac:(lia) (new 1) 2) as [(s & a & Ha & _ & _ & Hok & _)|[_ Hno]].
  { by split. } { done. } { vm_compute; split; [done|discriminate]. }
  2: { exfalso. apply (Hno 0); [lia|by vm_compute|]. intros i Hi. by assert (i = 0 ∨ i = 1) as [->| ->] by lia. }
  assert (rtc (dma_step 4096 (8 * 4096) 1) (new 1, []) (a, [(4096 + s * DMA_PAGE_SIZE, 2)])) as H1.
  { eapply rtc_once, (step_alloc _ _ _ _ _ _ 2); [lia|exact Ha]. }
  exists a, [(4096 + s * DMA_PAGE_SIZE, 2)]. split; [exact H1|]. split; [reflexivity|].
  exact (proj1 (proj2 (dma_live_disjoint 4096 (8 * 4096) 1 ltac:(lia) eq_refl ltac:(vm_compute; discriminate) Hcap
    _ _ H1))).
Defined.

End Dma.
