(* ===== verification/Discovery.v ===== *)
(** * Discovery of the virtio devices (crates/hal-virtio/src/lib.rs)

    The flattened device tree is read by the [fdt] crate: its nodes, in the
    order of [all_nodes], are the argument of the two parsers.  A node gives
    its raw properties and the entries of [ranges] (address space, parent
    address, length; [None] for an entry that does not decode). *)

From S2P Require Import Prelude Vfs.
Import Vfs.

Open Scope Z_scope.

Module Discovery.

Inductive PciAddressSpace := Configuration | Io | Memory32 | Memory64.
Record fdt_node := mkFdtNode {
  raw_property : string → option (list Z);
  ranges : option (list (option (PciAddressSpace * Z * Z)));
}.

Fixpoint be_value (acc : Z) (bytes : list Z) : Z :=
  match bytes with [] => acc | b :: bytes' => be_value (acc * 256 + b) bytes' end.
(** [bytes.get(a..b).map(read_be)]. *)
Definition be_at (first last : nat) (bytes : list Z) : option Z :=
  if decide (last ≤ length bytes)%nat then Some (be_value 0 (take (last - first) (drop first bytes))) else None.
Definition first_u32 := be_at 0 4.
Definition second_u32 := be_at 4 8.
Definition first_u64 := be_at 0 8.
Definition second_u64 := be_at 8 16.

(** The parts of a string list: the pieces between the 0 bytes. *)
Fixpoint split_nul (value acc : list Z) : list (list Z) :=
  match value with
  | [] => [rev acc]
  | b :: value' => if b =? 0 then rev acc :: split_nul value' [] else split_nul value' (b :: acc)
  end.
Definition compatible_contains (value needle : list Z) : bool := existsb (fun part => bool_decide (part = needle)) (split_nul value []).

Record VirtioMmioConfig := mkMmio { mmio_base : Z; mmio_size : Z; mmio_irq : Z }.
Record VirtioPlicConfig := mkPlic { plic_base : Z; plic_size : Z; supervisor_context : Z; sources : Z }.
Record RiscvVirtioDiscovery := mkRiscvDiscovery { plic : option VirtioPlicConfig; mmio_devices : list VirtioMmioConfig }.
Record PciHostWindow := mkWindow { window_base : Z; window_size : Z }.
Record PciHostConfig := mkPciHost {
  ecam_base : Z; ecam_size : Z; bus_start : Z; bus_end : Z; pci_io : option PciHostWindow; pci_mmio : option PciHostWindow }.
Record LoongArchInterruptConfig := mkPchPic { pch_pic_base : Z; pch_pic_size : Z }.
Record LoongArchVirtioDiscovery := mkLoongDiscovery { pci_host : option PciHostConfig; interrupt : option LoongArchInterruptConfig }.

(** [chunks_exact(8)] and the index of the first chunk whose second word is 9. *)
Fixpoint supervisor_entry (bytes : list Z) (index : Z) (fuel : nat) : option Z :=
  match fuel with
  | O => None
  | S fuel' =>
      if decide (8 ≤ length bytes)%nat then
        if be_value 0 (take 4 (drop 4 bytes)) =? 9 then Some index else supervisor_entry (drop 8 bytes) (index + 1) fuel'
      else None
  end.

(** [continue] is the discovery unchanged, [?] the end of the parse. *)
Definition riscv_node (d : RiscvVirtioDiscovery) (node : fdt_node) : option RiscvVirtioDiscovery :=
  match raw_property node "compatible" with
  | None => Some d
  | Some compatible =>
      if compatible_contains compatible (bytes_of "virtio,mmio") then
        if (8 <=? length (mmio_devices d))%nat then Some d
        else match raw_property node "reg", raw_property node "interrupts" with
             | Some reg, Some interrupts =>
                 base ← first_u64 reg; size ← second_u64 reg; irq ← first_u32 interrupts;
                 Some (mkRiscvDiscovery (plic d) (mmio_devices d ++ [mkMmio base size irq]))
             | _, _ => Some d
             end
      else if compatible_contains compatible (bytes_of "riscv,plic0")
              || compatible_contains compatible (bytes_of "sifive,plic-1.0.0") then
        match raw_property node "reg" with
        | None => Some d
        | Some reg =>
            base ← first_u64 reg; size ← second_u64 reg;
            match raw_property node "riscv,ndev", raw_property node "interrupts-extended" with
            | Some ndev, Some extended =>
                sources ← first_u32 ndev;
                Some (mkRiscvDiscovery
                  (Some (mkPlic base size (default 1 (supervisor_entry extended 0 (length extended))) sources)) (mmio_devices d))
            | _, _ => Some d
            end
        end
      else Some d
  end.
Fixpoint riscv_nodes (d : RiscvVirtioDiscovery) (nodes : list fdt_node) : option RiscvVirtioDiscovery :=
  match nodes with [] => Some d | node :: nodes' => d' ← riscv_node d node; riscv_nodes d' nodes' end.
(** [all_nodes] is [None] when the blob is not a device tree. *)
Definition parse_riscv_virtio_discovery (all_nodes : option (list fdt_node)) : option RiscvVirtioDiscovery :=
  nodes ← all_nodes; riscv_nodes (mkRiscvDiscovery None []) nodes.

Fixpoint pci_windows (io mmio : option PciHostWindow) (entries : list (option (PciAddressSpace * Z * Z)))
  : option PciHostWindow * option PciHostWindow :=
  match entries with
  | [] => (io, mmio)
  | None :: entries' => pci_windows io mmio entries'
  | Some (Io, base, len) :: entries' => pci_windows (Some (mkWindow base len)) mmio entries'
  | Some (Configuration, _, _) :: entries' => pci_windows io mmio entries'
  | Some (_, base, len) :: entries' =>
      pci_windows io (match mmio with None => Some (mkWindow base len) | Some w => Some w end) entries'
  end.
Definition prop_contains (node : fdt_node) (name needle : string) : bool :=
  match raw_property node name with Some v => compatible_contains v (bytes_of needle) | None => false end.
Definition is_pci_host (node : fdt_node) : bool :=
  prop_contains node "compatible" "pci-host-ecam-generic" && prop_contains node "device_type" "pci".

Definition loongarch_node (d : LoongArchVirtioDiscovery) (node : fdt_node) : option LoongArchVirtioDiscovery :=
  if bool_decide (pci_host d = None) && is_pci_host node then
    match raw_property node "reg" with
    | None => Some d
    | Some reg =>
        base ← first_u64 reg; size ← second_u64 reg;
        match raw_property node "bus-range" with
        | None => Some d
        | Some bus_range =>
            lo ← first_u32 bus_range; hi ← second_u32 bus_range;
            let w := match ranges node with Some entries => pci_windows None None entries | None => (None, None) end in
            Some (mkLoongDiscovery (Some (mkPciHost base size (lo mod 256) (hi mod 256) w.1 w.2)) (interrupt d))
        end
    end
  else if bool_decide (interrupt d = None) && prop_contains node "compatible" "loongarch,ls7a" then
    match raw_property node "reg" with
    | None => Some d
    | Some reg => base ← first_u64 reg; size ← second_u64 reg; Some (mkLoongDiscovery (pci_host d) (Some (mkPchPic base size)))
    end
  else Some d.
Fixpoint loongarch_nodes (d : LoongArchVirtioDiscovery) (nodes : list fdt_node) : option LoongArchVirtioDiscovery :=
  match nodes with [] => Some d | node :: nodes' => d' ← loongarch_node d node; loongarch_nodes d' nodes' end.
Definition parse_loongarch_virtio_discovery (all_nodes : option (list fdt_node)) : option LoongArchVirtioDiscovery :=
  nodes ← all_nodes; loongarch_nodes (mkLoongDiscovery None None) nodes.

Inductive VirtioError :=
| QueueFull | NotReady | WrongToken | AlreadyUsed | InvalidParam | DmaError | IoError | Unsupported
| ConfigSpaceTooSmall | ConfigSpaceMissing | SocketDeviceError (code : Z).
Definition virtio_error_to_errno (e : VirtioError) : Z :=
  match e with
  | QueueFull | NotReady => 11
  | AlreadyUsed => 16
  | InvalidParam | ConfigSpaceTooSmall | ConfigSpaceMissing => 22
  | DmaError => 12
  | IoError | WrongToken | SocketDeviceError _ => 5
  | Unsupported => 95
  end.

(** ** What a parse finds *)
Definition is_mmio (node : fdt_node) : bool := prop_contains node "compatible" "virtio,mmio".
Definition is_plic (node : fdt_node) : bool :=
  negb (is_mmio node) && (prop_contains node "compatible" "riscv,plic0" || prop_contains node "compatible" "sifive,plic-1.0.0").
Definition mmio_of (node : fdt_node) : option VirtioMmioConfig :=
  guard (is_mmio node = true);;
  reg ← raw_property node "reg"; interrupts ← raw_property node "interrupts";
  base ← first_u64 reg; size ← second_u64 reg; irq ← first_u32 interrupts; Some (mkMmio base size irq).
Definition plic_of (node : fdt_node) : option VirtioPlicConfig :=
  guard (is_plic node = true);;
  reg ← raw_property node "reg"; ndev ← raw_property node "riscv,ndev"; extended ← raw_property node "interrupts-extended";
  base ← first_u64 reg; size ← second_u64 reg; sources ← first_u32 ndev;
  Some (mkPlic base size (default 1 (supervisor_entry extended 0 (length extended))) sources).

Lemma riscv_node_spec d d' node : riscv_node d node = Some d' →
  mmio_devices d' = (if (8 <=? length (mmio_devices d))%nat then mmio_devices d else mmio_devices d ++ option_list (mmio_of node)) ∧
  plic d' = match plic_of node with Some p => Some p | None => plic d end.
Proof.
  unfold riscv_node, mmio_of, plic_of, is_plic, is_mmio, prop_contains.
  generalize (8 <=? length (mmio_devices d))%nat as full. intros full.
  destruct (raw_property node "compatible") as [c|]; [|intros [= <-]; simpl; rewrite app_nil_r; by destruct full].
  destruct (compatible_contains c (bytes_of "virtio,mmio")); simpl.
  - destruct full; [by intros [= <-]|].
    destruct (raw_property node "reg"), (raw_property node "interrupts"); simpl;
      try (intros [= <-]; by rewrite app_nil_r).
    destruct (first_u64 _), (second_u64 _), (first_u32 _); simpl; try done. by intros [= <-].
  - rewrite app_nil_r. destruct (_ || _); simpl; [|intros [= <-]; by destruct full].
    destruct (raw_property node "reg") as [reg|]; simpl; [|intros [= <-]; by destruct full].
    destruct (first_u64 _), (second_u64 _); simpl; try done.
    destruct (raw_property node "riscv,ndev"), (raw_property node "interrupts-extended"); simpl;
      try (intros [= <-]; by destruct full).
    destruct (first_u32 _); simpl; [|done]. intros [= <-]. simpl. by destruct full.
Qed.

Lemma riscv_nodes_spec d d' nodes : (length (mmio_devices d) ≤ 8)%nat → riscv_nodes d nodes = Some d' →
  mmio_devices d' = take 8 (mmio_devices d ++ omap mmio_of nodes) ∧
  plic d' = match last (omap plic_of nodes) with Some p => Some p | None => plic d end.
Proof.
  revert d. induction nodes as [|node nodes IH]; intros d Hl; simpl.
  { intros [= <-]. by rewrite app_nil_r, take_ge. }
  destruct (riscv_node d node) as [d1|] eqn:Hn; simpl; [|done]. intros Hr. destruct (riscv_node_spec _ _ _ Hn) as [Hm Hp].
  destruct (IH d1) as [Hm1 Hp1]; [|done|].
  { rewrite Hm. destruct (Nat.leb_spec 8 (length (mmio_devices d))); [done|].
    rewrite length_app. destruct (mmio_of node); simpl; lia. }
  split.
  - rewrite Hm1, Hm. destruct (Nat.leb_spec 8 (length (mmio_devices d))).
    + by rewrite !take_app_le, !take_ge by lia.
    + destruct (mmio_of node); simpl; by rewrite ?app_nil_r, <- ?app_assoc.
  - rewrite Hp1, Hp. destruct (plic_of node); [|done]. rewrite last_cons. by destruct (last _).
Qed.

(** A parse that succeeds reports the first eight complete virtio-mmio nodes in
    the order of the tree and the last complete interrupt controller. *)
Theorem riscv_discovery_spec nodes d : parse_riscv_virtio_discovery (Some nodes) = Some d →
  mmio_devices d = take 8 (omap mmio_of nodes) ∧ plic d = last (omap plic_of nodes).
Proof. intros Hd. apply riscv_nodes_spec in Hd as [-> ->]; [|simpl; lia]. split; [done|]. by destruct (last _). Qed.

(** A node whose [reg] is cut short ends the whole parse: the nodes found so
    far are lost. *)
Theorem riscv_discovery_truncated before node after reg :
  is_mmio node = true → raw_property node "reg" = Some reg → (length reg < 16)%nat → is_Some (raw_property node "interrupts") →
  (length (omap mmio_of before) < 8)%nat → parse_riscv_virtio_discovery (Some (before ++ node :: after)) = None.
Proof.
  intros Hm Hreg Hlen [irq Hirq] Hbefore. unfold parse_riscv_virtio_discovery. simpl.
  assert (∀ d, (length (mmio_devices d) < 8)%nat → riscv_node d node = None) as Hnode.
  { intros d Hd. unfold riscv_node, is_mmio, prop_contains in *. destruct (raw_property node "compatible"); [|done].
    rewrite Hm. destruct (Nat.leb_spec 8 (length (mmio_devices d))); [lia|]. rewrite Hreg, Hirq.
    unfold first_u64, second_u64, be_at. destruct (decide (8 ≤ length reg)%nat); simpl; [|done].
    by rewrite decide_False by lia. }
  destruct (riscv_nodes _ (before ++ _)) as [d'|] eqn:Hd; [|done]. exfalso.
  assert (∃ d, riscv_nodes (mkRiscvDiscovery None []) before = Some d ∧ riscv_nodes d (node :: after) = Some d') as (d & Hb & Ha).
  { clear -Hd. revert Hd. generalize (mkRiscvDiscovery None []). induction before as [|n before IH]; intros d; simpl; [by eauto|].
    destruct (riscv_node d n); simpl; [apply IH|done]. }
  apply riscv_nodes_spec in Hb as [Hdev _]; [|simpl; lia]. simpl in *. rewrite Hnode in Ha; [done|].
  rewrite Hdev. rewrite length_take. lia.
Qed.

End Discovery.
