(* ===== verification/Plic.v ===== *)
(** * Interrupts of riscv64 (crates/hal-riscv64-virt/src/lib.rs: [VirtInterruptController])

    The platform-level interrupt controller over a file of 32-bit registers:
    priorities, enable bits of the supervisor context, threshold and claim. *)

From S2P Require Import Prelude Discovery.

Open Scope Z_scope.

Module Plic.
Import Discovery.

Record Plic := mkPlicState { pl_base : Z; pl_context : Z; pl_sources : Z }.
Definition plic_new : Plic := mkPlicState 0 0 0.
Definition reg_read (r : gmap Z Z) (a : Z) : Z := default 0 (r !! a).

Definition plic_is_ready (p : Plic) : bool := negb (pl_base p =? 0).
Definition enable_ptr (p : Plic) (irq : Z) : option Z :=
  if negb (plic_is_ready p) || (irq =? 0) || (pl_sources p <? irq) then None
  else Some (pl_base p + 0x2000 + pl_context p * 0x80 + irq / 32 * 4).
Definition priority_ptr (p : Plic) (irq : Z) : option Z :=
  if negb (plic_is_ready p) || (irq =? 0) || (pl_sources p <? irq) then None else Some (pl_base p + irq * 4).
Definition claim_complete_ptr (p : Plic) : option Z :=
  if negb (plic_is_ready p) then None else Some (pl_base p + 0x200000 + pl_context p * 0x1000 + 4).
Definition threshold_ptr (p : Plic) : option Z :=
  if negb (plic_is_ready p) then None else Some (pl_base p + 0x200000 + pl_context p * 0x1000).

Definition write_at (ptr : option Z) (f : Z → Z) (r : gmap Z Z) : gmap Z Z :=
  match ptr with Some a => <[a := f (reg_read r a)]> r | None => r end.
Definition write_threshold (p : Plic) (value : Z) : gmap Z Z → gmap Z Z := write_at (threshold_ptr p) (fun _ => value).
Definition configure (config : option VirtioPlicConfig) (s : Plic * gmap Z Z) : Plic * gmap Z Z :=
  match config with
  | None => s
  | Some c => let p := mkPlicState (plic_base c) (supervisor_context c) (sources c) in (p, write_threshold p 0 s.2)
  end.
Definition enable_irq (p : Plic) (irq : Z) (r : gmap Z Z) : gmap Z Z :=
  let r := write_at (priority_ptr p irq) (fun _ => 1) r in
  write_at (enable_ptr p irq) (fun current => Z.lor current (Z.shiftl 1 (irq mod 32))) r.
Definition disable_irq (p : Plic) (irq : Z) (r : gmap Z Z) : gmap Z Z :=
  write_at (enable_ptr p irq) (fun current => Z.ldiff current (Z.shiftl 1 (irq mod 32))) r.
Definition ack_irq (p : Plic) (irq : Z) : gmap Z Z → gmap Z Z := write_at (claim_complete_ptr p) (fun _ => irq mod 2 ^ 32).
Definition next_pending (p : Plic) (r : gmap Z Z) : option Z :=
  match claim_complete_ptr p with
  | Some a => let irq := reg_read r a in if irq =? 0 then None else Some irq
  | None => None
  end.

(** What the controller delivers. *)
Definition irq_enabled (p : Plic) (r : gmap Z Z) (irq : Z) : bool :=
  match enable_ptr p irq with Some a => Z.testbit (reg_read r a) (irq mod 32) | None => false end.
Definition irq_priority (p : Plic) (r : gmap Z Z) (irq : Z) : Z :=
  match priority_ptr p irq with Some a => reg_read r a | None => 0 end.

Lemma reg_read_insert r a v b : reg_read (<[a := v]> r) b = if decide (a = b) then v else reg_read r b.
Proof. unfold reg_read. rewrite lookup_insert. by case_decide. Qed.

Lemma enable_word i j : i ≠ j → i / 32 = j / 32 → i mod 32 ≠ j mod 32.
Proof. intros Hne Hd Hm. apply Hne. rewrite (Z.div_mod i 32), (Z.div_mod j 32), Hd, Hm by lia. done. Qed.

(** Up to 1023 sources, the priority words end before the enable bits. *)
Definition plic_fits (p : Plic) : Prop := pl_base p ≠ 0 ∧ 0 ≤ pl_context p ∧ pl_sources p ≤ 1023.

Lemma irq_enabled_write p r irq f j : plic_fits p → 0 < irq ≤ pl_sources p → 0 < j ≤ pl_sources p →
  irq_enabled p (write_at (enable_ptr p irq) f r) j =
  if decide (irq / 32 = j / 32) then Z.testbit (f (reg_read r (pl_base p + 0x2000 + pl_context p * 0x80 + irq / 32 * 4))) (j mod 32)
  else irq_enabled p r j.
Proof.
  intros (Hb & Hc & Hs) Hi Hj. unfold irq_enabled, enable_ptr, plic_is_ready.
  destruct (Z.eqb_spec (pl_base p) 0); [done|]. destruct (Z.eqb_spec irq 0), (Z.eqb_spec j 0); [lia..|].
  destruct (Z.ltb_spec (pl_sources p) irq), (Z.ltb_spec (pl_sources p) j); [lia..|]. simpl. rewrite reg_read_insert.
  destruct (decide (irq / 32 = j / 32)) as [He|Hne]; [by rewrite decide_True by (rewrite He; done)|].
  by rewrite decide_False by lia.
Qed.

Lemma irq_enabled_priority p r irq f j : plic_fits p → 0 < irq ≤ pl_sources p → 0 < j ≤ pl_sources p →
  irq_enabled p (write_at (priority_ptr p irq) f r) j = irq_enabled p r j.
Proof.
  intros (Hb & Hc & Hs) Hi Hj. unfold irq_enabled, enable_ptr, priority_ptr, plic_is_ready.
  destruct (Z.eqb_spec (pl_base p) 0); [done|]. destruct (Z.eqb_spec irq 0), (Z.eqb_spec j 0); [lia..|].
  destruct (Z.ltb_spec (pl_sources p) irq), (Z.ltb_spec (pl_sources p) j); [lia..|]. simpl. rewrite reg_read_insert.
  assert (0 ≤ j / 32) by (apply Z.div_pos; lia). by rewrite decide_False by lia.
Qed.

(** [enable_irq] enables one source, with a priority above the threshold, and
    [disable_irq] disables one; every other source keeps its state. *)
Theorem plic_enable_disable p r irq j : plic_fits p → 0 < irq ≤ pl_sources p → 0 < j ≤ pl_sources p →
  irq_enabled p (enable_irq p irq r) j = (if decide (j = irq) then true else irq_enabled p r j) ∧
  irq_enabled p (disable_irq p irq r) j = (if decide (j = irq) then false else irq_enabled p r j) ∧
  irq_priority p (enable_irq p irq r) j = (if decide (j = irq) then 1 else irq_priority p r j).
Proof.
  intros Hp Hi Hj. pose proof (Z.mod_pos_bound irq 32 ltac:(lia)). pose proof (Z.mod_pos_bound j 32 ltac:(lia)).
  assert (∀ r', irq / 32 = j / 32 → irq_enabled p r' j = Z.testbit (reg_read r' (pl_base p + 0x2000 + pl_context p * 0x80 + irq / 32 * 4)) (j mod 32)) as Hen.
  { intros r' He. unfold irq_enabled, enable_ptr, plic_is_ready. destruct Hp as (Hb & _).
    destruct (Z.eqb_spec (pl_base p) 0); [done|]. destruct (Z.eqb_spec j 0); [lia|].
    destruct (Z.ltb_spec (pl_sources p) j); [lia|]. simpl. by rewrite He. }
  unfold enable_irq, disable_irq. rewrite !irq_enabled_write by done. split_and!.
  - destruct (decide (irq / 32 = j / 32)) as [He|Hne].
    + rewrite <- (irq_enabled_priority p r irq (fun _ => 1) j), (Hen _ He), Z.lor_spec, Z.shiftl_1_l by done.
      case_decide as Hji; [subst j; rewrite Z.pow2_bits_true by lia; apply orb_true_r|].
      rewrite Z.pow2_bits_false by (apply not_eq_sym, (enable_word j irq); done || (intros ->; done)). apply orb_false_r.
    + rewrite irq_enabled_priority by done. by rewrite decide_False by (intros ->; done).
  - destruct (decide (irq / 32 = j / 32)) as [He|Hne].
    + rewrite (Hen _ He), Z.ldiff_spec, Z.shiftl_1_l.
      case_decide as Hji; [subst j; rewrite Z.pow2_bits_true by lia; apply andb_false_r|].
      rewrite Z.pow2_bits_false by (apply not_eq_sym, (enable_word j irq); done || (intros ->; done)). apply andb_true_r.
    + by rewrite decide_False by (intros ->; done).
  - destruct Hp as (Hb & Hc & Hs). unfold irq_priority, priority_ptr, enable_ptr, plic_is_ready.
    destruct (Z.eqb_spec (pl_base p) 0); [done|]. destruct (Z.eqb_spec irq 0), (Z.eqb_spec j 0); [lia..|].
    destruct (Z.ltb_spec (pl_sources p) irq), (Z.ltb_spec (pl_sources p) j); [lia..|]. simpl.
    assert (0 ≤ irq / 32) by (apply Z.div_pos; lia). rewrite reg_read_insert, decide_False by lia. rewrite reg_read_insert.
    repeat case_decide; lia || done.
Qed.

Definition sample_plic : Plic := mkPlicState 0xc000000 1 96.
Lemma plic_enable_disable_witness : plic_fits sample_plic ∧
  irq_enabled sample_plic (enable_irq sample_plic 8 ∅) 8 = true ∧ irq_enabled sample_plic (enable_irq sample_plic 8 ∅) 9 = false.
Proof.
  assert (plic_fits sample_plic) as Hp by done. split; [done|].
  split; [exact (proj1 (plic_enable_disable sample_plic ∅ 8 8 Hp ltac:(done) ltac:(done)))|].
  exact (proj1 (plic_enable_disable sample_plic ∅ 8 9 Hp ltac:(done) ltac:(done))).
Defined.

End Plic.
