(* ===== verification/Block.v ===== *)
(** * Block devices (crates/hal-api/src/lib.rs, crates/hal-riscv64-virt/src/lib.rs, crates/hal-loongarch64-virt/src/lib.rs)

    The trait [HalBlockDevice] as a class of operations on the state of a
    device, what a file system relies on as the class [BlockLaws], and the
    virtio block device of the two platforms, which keeps that promise over
    any driver that does ([VirtIOBlk] stands for the driver of the
    virtio-drivers crate). *)

From S2P Require Import Prelude Discovery Plic.

Open Scope Z_scope.

Module Block.
Import Discovery Plic.

Definition SECTOR_SIZE : Z := 512.
Definition EIO : Z := 5.
Definition ENODEV : Z := 19.
Definition EINVAL : Z := 22.
Definition EROFS : Z := 30.

(** ** Ranges of bytes: [range f start len] lists [f start], ..., [f (start + len - 1)]. *)
Definition range (f : Z → Z) (start len : Z) : list Z :=
  (fun i => f (start + Z.of_nat i)) <$> seq 0 (Z.to_nat len).

Lemma range_length f start len : length (range f start len) = Z.to_nat len.
Proof. unfold range. by rewrite length_fmap, length_seq. Qed.

Lemma range_zlen f start len : 0 ≤ len → zlen (range f start len) = len.
Proof. intros. unfold zlen. rewrite range_length. lia. Qed.

Lemma lookup_range f start len i : (i < Z.to_nat len)%nat → range f start len !! i = Some (f (start + Z.of_nat i)).
Proof. intros. unfold range. rewrite list_lookup_fmap, lookup_seq_lt by lia. done. Qed.

Lemma range_ext f g start len : (∀ i, start ≤ i < start + len → f i = g i) → range f start len = range g start len.
Proof. intros Hfg. unfold range. apply list_fmap_ext. intros i j Hj%lookup_seq. apply Hfg. lia. Qed.

Lemma range_app f start a b : 0 ≤ a → 0 ≤ b → range f start (a + b) = range f start a ++ range f (start + a) b.
Proof.
  intros. unfold range. rewrite Z2Nat.inj_add, seq_app, fmap_app by lia. f_equal. simpl.
  rewrite <- (fmap_add_seq (Z.to_nat a) 0 (Z.to_nat b)) at 1 || idtac.
  apply list_eq. intros i. rewrite !list_lookup_fmap. destruct (decide (i < Z.to_nat b)%nat).
  - rewrite !lookup_seq_lt by lia. simpl. f_equal. f_equal. lia.
  - rewrite !lookup_seq_ge by lia. done.
Qed.

Lemma range_slice f start len o n : 0 ≤ o → 0 ≤ n → o + n ≤ len →
  take (Z.to_nat n) (drop (Z.to_nat o) (range f start len)) = range f (start + o) n.
Proof.
  intros. apply list_eq. intros i. destruct (decide (i < Z.to_nat n)%nat).
  - rewrite lookup_take_lt, lookup_drop, !lookup_range by lia. f_equal. f_equal. lia.
  - rewrite lookup_take_ge, lookup_ge_None_2 by (rewrite ?range_length; lia). done.
Qed.

(** ** The trait *)
Class HalBlockDevice (D : Type) := {
  bd_init : stm D unit;
  bd_is_ready : D → bool;
  bd_sector_size : D → Z;
  bd_sector_count : D → Z;
  bd_read_sector : Z → Z → stm D (list Z);
  bd_read_sectors : Z → Z → stm D (list Z);
  bd_write_sector : Z → list Z → stm D unit;
}.

(** [buf.chunks_exact_mut(sector_size).enumerate()] with [read_sector] on each
    chunk: the buffer in the end is the chunks. *)
Fixpoint read_chunks {D} (read_sector : Z → Z → stm D (list Z)) (sector_size sector : Z) (n : nat) : stm D (list Z) :=
  match n with
  | O => mret []
  | S n' =>
      chunk ← read_sector sector sector_size;
      rest ← read_chunks read_sector sector_size (sector + 1) n';
      mret (chunk ++ rest)
  end.

(** The default of the trait. *)
Definition read_sectors_default {D} (sector_size : Z) (read_sector : Z → Z → stm D (list Z)) (start_sector len : Z) : stm D (list Z) :=
  if (sector_size =? 0) || negb (len mod sector_size =? 0) then fail 22
  else read_chunks read_sector sector_size start_sector (Z.to_nat (len / sector_size)).

(** What a reader of the device relies on: a read that succeeds gives the
    bytes of the disk, no read changes them, and no operation inside the disk
    panics. *)
Class BlockLaws (D : Type) `{!HalBlockDevice D} := {
  bd_byte : D → Z → Z;
  bd_same : relation D := fun d d' =>
    bd_sector_size d' = bd_sector_size d ∧ bd_sector_count d' = bd_sector_count d ∧ ∀ x, bd_byte d' x = bd_byte d x;
  bd_read_sector_law d s : 0 ≤ s < bd_sector_count d →
    let r := bd_read_sector s (bd_sector_size d) d in
    bd_same d r.2 ∧ match r.1 with
                    | Ok bs => bs = range (bd_byte d) (s * bd_sector_size d) (bd_sector_size d)
                    | Err _ => True | _ => False end;
  bd_read_sectors_law d s n : 0 ≤ s → 0 ≤ n → s + n ≤ bd_sector_count d →
    let r := bd_read_sectors s (n * bd_sector_size d) d in
    bd_same d r.2 ∧ match r.1 with
                    | Ok bs => bs = range (bd_byte d) (s * bd_sector_size d) (n * bd_sector_size d)
                    | Err _ => True | _ => False end;
}.

(** A driver may refuse a read; one that never refuses a sector of the disk. *)
Class BlockTotal (D : Type) `{!HalBlockDevice D} := {
  bd_read_sector_total d s : 0 ≤ s < bd_sector_count d → ∃ bs, (bd_read_sector s (bd_sector_size d) d).1 = Ok bs;
  bd_read_sectors_total d s n : 0 ≤ s → 0 < n → s + n ≤ bd_sector_count d →
    ∃ bs, (bd_read_sectors s (n * bd_sector_size d) d).1 = Ok bs;
}.

Section Same.
Context {D : Type} `{!HalBlockDevice D} `{!BlockLaws D}.
#[global] Instance bd_same_preorder : PreOrder (bd_same (D := D)).
Proof. unfold bd_same. split; [by intros d|]. intros d1 d2 d3 (-> & -> & H1) (-> & -> & H2). split_and!; [done..|]. intros. by rewrite H2. Qed.
End Same.

(** ** The virtio block device *)
(** The driver; a failed request is [None] or [false]. *)
Class VirtIOBlk (Drv : Type) := {
  read_blocks : Z → Z → Drv → option (list Z) * Drv;
  write_blocks : Z → list Z → Drv → bool * Drv;
  drv_flush : Drv → (VirtioError + unit) * Drv;
  drv_enable_interrupts : Drv → Drv;
  drv_capacity : Drv → Z;
  drv_readonly : Drv → bool;
}.

Class VirtIOBlkLaws (Drv : Type) `{!VirtIOBlk Drv} := {
  drv_byte : Drv → Z → Z;
  read_blocks_law s v : let r := read_blocks s SECTOR_SIZE v in
    (∀ x, drv_byte r.2 x = drv_byte v x) ∧ (∀ bs, r.1 = Some bs → bs = range (drv_byte v) (s * SECTOR_SIZE) SECTOR_SIZE);
  write_blocks_law s bs v : zlen bs = SECTOR_SIZE → let r := write_blocks s bs v in
    (∀ x, ¬ s * SECTOR_SIZE ≤ x < (s + 1) * SECTOR_SIZE → drv_byte r.2 x = drv_byte v x) ∧
    (r.1 = true → range (drv_byte r.2) (s * SECTOR_SIZE) SECTOR_SIZE = bs);
}.

Record VirtioBlockDevice (Drv : Type) := mkVirtioBlock {
  vb_state : option Drv; init_error : Z; capacity_sectors : Z; vb_readonly : bool; vb_irq : Z }.
Arguments mkVirtioBlock {_} _ _ _ _ _.
Arguments vb_state {_} _.
Arguments init_error {_} _.
Arguments capacity_sectors {_} _.
Arguments vb_readonly {_} _.
Arguments vb_irq {_} _.

Section Virtio.
Context {Drv : Type} `{!VirtIOBlk Drv}.
Implicit Types (d : VirtioBlockDevice Drv).

Definition vb_new : VirtioBlockDevice Drv := mkVirtioBlock None ENODEV 0 false 0.
Definition set_driver d (v : Drv) : VirtioBlockDevice Drv :=
  mkVirtioBlock (Some v) (init_error d) (capacity_sectors d) (vb_readonly d) (vb_irq d).

(** The transport and the driver of a device found on the bus: the driver, or
    the error of the step that failed (no device there, not a block device,
    initialisation). *)
Context (new_blk : VirtioMmioConfig → VirtioError + Drv) (mmio_transport : VirtioMmioConfig → option bool).

(** The state of the platform here is the device and the registers of the
    interrupt controller. *)
Definition try_init_mmio (p : Plic) (config : VirtioMmioConfig)
  : stm (VirtioBlockDevice Drv * gmap Z Z) unit := fun s =>
  let '(d, regs) := s in
  if mmio_base config =? 0 then (Err ENODEV, s)
  else match mmio_transport config with
       | None => (Err ENODEV, s)
       | Some is_block =>
           if negb is_block then (Err ENODEV, s)
           else match new_blk config with
                | inl e => (Err (virtio_error_to_errno e), s)
                | inr driver =>
                    let driver := drv_enable_interrupts driver in
                    (Ok tt, (mkVirtioBlock (match vb_state d with Some v => Some v | None => Some driver end) 0
                               (drv_capacity driver) (drv_readonly driver) (mmio_irq config),
                             enable_irq p (mmio_irq config) regs))
                end
       end.
Fixpoint bootstrap_devices (p : Plic) (configs : list VirtioMmioConfig) (s : VirtioBlockDevice Drv * gmap Z Z)
  : VirtioBlockDevice Drv * gmap Z Z :=
  match configs with
  | [] => s
  | config :: configs' =>
      match try_init_mmio p config s with
      | (Ok _, s') => s'
      | (_, s') => bootstrap_devices p configs' s'
      end
  end.
Definition bootstrap (p : Plic) (discovery : RiscvVirtioDiscovery) (s : VirtioBlockDevice Drv * gmap Z Z)
  : VirtioBlockDevice Drv * gmap Z Z :=
  match vb_state s.1 with Some _ => s | None => bootstrap_devices p (mmio_devices discovery) s end.

(** What the platform does with the device tree before the kernel starts. *)
Definition riscv_bootstrap (discovery : option RiscvVirtioDiscovery) (s : Plic * (VirtioBlockDevice Drv * gmap Z Z))
  : Plic * (VirtioBlockDevice Drv * gmap Z Z) :=
  match discovery with
  | None => s
  | Some discovery =>
      let '(p, regs) := configure (plic discovery) (s.1, s.2.2) in
      (p, bootstrap p discovery (s.2.1, regs))
  end.

(** [with_state()?.lock().driver]: the driver under its lock. *)
Definition with_state {A} (f : Drv → outcome A * Drv) : stm (VirtioBlockDevice Drv) A := fun d =>
  match vb_state d with
  | Some v => let r := f v in (r.1, set_driver d r.2)
  | None => (Err (init_error d), d)
  end.

Definition vb_init : stm (VirtioBlockDevice Drv) unit := fun d =>
  match vb_state d with Some _ => (Ok tt, d) | None => (Err (init_error d), d) end.
Definition vb_is_ready d : bool := match vb_state d with Some _ => negb (capacity_sectors d =? 0) | None => false end.
Definition irq_line d : option Z := if vb_irq d =? 0 then None else Some (vb_irq d).

Fixpoint read_attempts (attempts : nat) (sector len : Z) (v : Drv) : option (list Z) * Drv :=
  match attempts with
  | O => (None, v)
  | S attempts' =>
      match read_blocks sector len v with
      | (Some bs, v') => (Some bs, v')
      | (None, v') => read_attempts attempts' sector len v'
      end
  end.
Definition read_sector (sector len : Z) : stm (VirtioBlockDevice Drv) (list Z) := fun d =>
  if negb (len =? SECTOR_SIZE) then (Err EINVAL, d)
  else if capacity_sectors d <=? sector then (Err EINVAL, d)
  else with_state (fun v => match read_attempts 3 sector len v with
                            | (Some bs, v') => (Ok bs, v')
                            | (None, v') => (Err EIO, v')
                            end) d.

Definition read_sectors (start_sector len : Z) : stm (VirtioBlockDevice Drv) (list Z) :=
  if (len =? 0) || negb (len mod SECTOR_SIZE =? 0) then fail EINVAL
  else read_chunks read_sector SECTOR_SIZE start_sector (Z.to_nat (len / SECTOR_SIZE)).

Fixpoint write_attempts (attempts : nat) (sector : Z) (buf : list Z) (v : Drv) : bool * Drv :=
  match attempts with
  | O => (false, v)
  | S attempts' =>
      match write_blocks sector buf v with
      | (true, v') => (true, v')
      | (false, v') => write_attempts attempts' sector buf v'
      end
  end.
Definition write_sector (sector : Z) (buf : list Z) : stm (VirtioBlockDevice Drv) unit := fun d =>
  if vb_readonly d then (Err EROFS, d)
  else if negb (zlen buf =? SECTOR_SIZE) then (Err EINVAL, d)
  else if capacity_sectors d <=? sector then (Err EINVAL, d)
  else with_state (fun v => match write_attempts 3 sector buf v with
                            | (true, v') => (Ok tt, v')
                            | (false, v') => (Err EIO, v')
                            end) d.

Definition vb_flush : stm (VirtioBlockDevice Drv) unit :=
  with_state (fun v => match drv_flush v with
                       | (inr _, v') => (Ok tt, v')
                       | (inl e, v') => (Err (virtio_error_to_errno e), v')
                       end).

(** The start-up takes the first device of the tree that comes up as a block
    device and enables its interrupt. *)
Definition driver_of (config : VirtioMmioConfig) : option (VirtioMmioConfig * Drv) :=
  if mmio_base config =? 0 then None
  else match mmio_transport config, new_blk config with
       | Some true, inr driver => Some (config, drv_enable_interrupts driver)
       | _, _ => None
       end.
Lemma bootstrap_devices_spec p configs d regs : vb_state d = None →
  bootstrap_devices p configs (d, regs) =
  match head (omap driver_of configs) with
  | Some (config, v) => (mkVirtioBlock (Some v) 0 (drv_capacity v) (drv_readonly v) (mmio_irq config), enable_irq p (mmio_irq config) regs)
  | None => (d, regs)
  end.
Proof.
  intros Hd. induction configs as [|config configs IH]; [done|]. cbn [bootstrap_devices omap list_omap].
  unfold try_init_mmio, driver_of at 1. destruct (mmio_base config =? 0); [exact IH|].
  destruct (mmio_transport config) as [[]|]; [|exact IH..]. cbn [negb]. destruct (new_blk config); [exact IH|].
  simpl. by rewrite Hd.
Qed.

#[global] Instance virtio_block : HalBlockDevice (VirtioBlockDevice Drv) := {
  bd_init := vb_init; bd_is_ready := vb_is_ready; bd_sector_size _ := SECTOR_SIZE; bd_sector_count := capacity_sectors;
  bd_read_sector := read_sector; bd_read_sectors := read_sectors; bd_write_sector := write_sector }.
End Virtio.

(** ** Chunked reads *)
Section Chunks.
Context {D : Type} (read_sector : Z → Z → stm D (list Z)) (ss count : Z) (byte : Z → Z) (same : D → Prop) (Hss : 0 < ss).
Context (Hread : ∀ d s, same d → 0 ≤ s < count → let r := read_sector s ss d in
  same r.2 ∧ match r.1 with Ok bs => bs = range byte (s * ss) ss | Err _ => True | _ => False end).

Lemma read_chunks_spec n d s : same d → 0 ≤ s → s + Z.of_nat n ≤ count →
  let r := read_chunks read_sector ss s n d in
  same r.2 ∧
  match r.1 with Ok bs => bs = range byte (s * ss) (Z.of_nat n * ss) | Err _ => True | _ => False end.
Proof.
  revert d s. induction n as [|n IH]; intros d s Hd Hs Hn; cbn [read_chunks]; [done|].
  cbv zeta. rewrite stm_bind_eq. destruct (Hread d s Hd ltac:(lia)) as [Hd1 Ho].
  destruct (read_sector s ss d) as [[bs| | |] d1]; simpl in *; [|done..]. rewrite stm_bind_eq.
  destruct (IH d1 (s + 1) Hd1 ltac:(lia) ltac:(lia)) as [Hd2 Ho2].
  destruct (read_chunks _ _ _ _ d1) as [[rest| | |] d2]; simpl in *; [|done..]. split; [done|]. subst bs rest.
  replace (Z.of_nat (S n) * ss) with (ss + Z.of_nat n * ss) by lia. rewrite range_app by lia. f_equal. f_equal. lia.
Qed.

Lemma read_chunks_total n d s :
  (∀ d k, same d → 0 ≤ k < count → ∃ bs, (read_sector k ss d).1 = Ok bs) →
  same d → 0 ≤ s → s + Z.of_nat n ≤ count → ∃ bs, (read_chunks read_sector ss s n d).1 = Ok bs.
Proof.
  intros Hok. revert d s. induction n as [|n IH]; intros d s Hd Hs Hn; cbn [read_chunks]; [by exists []|].
  rewrite stm_bind_eq. destruct (Hok d s Hd ltac:(lia)) as [bs Hbs]. destruct (Hread d s Hd ltac:(lia)) as [Hd1 _].
  destruct (read_sector s ss d) as [o d1]; simpl in *; subst o. rewrite stm_bind_eq.
  destruct (IH d1 (s + 1)) as [rest Hrest]; [done|lia..|].
  destruct (read_chunks _ _ _ _ d1) as [o d2]; simpl in *; subst o. by eexists.
Qed.

(** The default [read_sectors] of the trait reads what its sectors hold. *)
Lemma read_sectors_default_spec n d s : same d → 0 ≤ s → 0 ≤ n → s + n ≤ count →
  let r := read_sectors_default ss read_sector s (n * ss) d in
  same r.2 ∧ match r.1 with Ok bs => bs = range byte (s * ss) (n * ss) | Err _ => True | _ => False end.
Proof.
  intros Hd Hs Hn Hc. unfold read_sectors_default. rewrite Z.mod_mul, Z.div_mul by lia.
  destruct (Z.eqb_spec ss 0); [lia|]. simpl. pose proof (read_chunks_spec (Z.to_nat n) d s Hd Hs ltac:(lia)) as Hr.
  by rewrite Z2Nat.id in Hr by lia.
Qed.
End Chunks.

(** ** The virtio device keeps the promise *)
Section VirtioLaws.
Context {Drv : Type} `{!VirtIOBlk Drv} `{!VirtIOBlkLaws Drv}.
Implicit Types (d : VirtioBlockDevice Drv).

Definition vb_byte d (x : Z) : Z := match vb_state d with Some v => drv_byte v x | None => 0 end.

(** The answer to a request repeated [n] times before, each time after the state
    the last refusal left. *)
Definition nth_read (s : Z) (v : Drv) (n : nat) : option (list Z) * Drv :=
  read_blocks s SECTOR_SIZE (Nat.iter n (fun v => (read_blocks s SECTOR_SIZE v).2) v).
Definition nth_write (s : Z) (bs : list Z) (v : Drv) (n : nat) : bool * Drv :=
  write_blocks s bs (Nat.iter n (fun v => (write_blocks s bs v).2) v).

Lemma read_attempts_refused n s v : (∀ i, (i < n)%nat → (nth_read s v i).1 = None) →
  read_attempts n s SECTOR_SIZE v = (None, Nat.iter n (fun v => (read_blocks s SECTOR_SIZE v).2) v).
Proof.
  revert v. induction n as [|n IH]; intros v Hn; [done|]. cbn [read_attempts]. pose proof (Hn O ltac:(lia)) as H0.
  unfold nth_read in H0. cbn in H0. rewrite Nat.iter_succ_r. destruct (read_blocks s SECTOR_SIZE v) as [[] v'] eqn:Hv; [done|]. apply IH.
  intros i Hi. specialize (Hn (S i) ltac:(lia)). unfold nth_read in *. by rewrite Nat.iter_succ_r, Hv in Hn.
Qed.
Lemma read_attempts_granted n i s v bs : (i < n)%nat → (∀ j, (j < i)%nat → (nth_read s v j).1 = None) →
  (nth_read s v i).1 = Some bs → read_attempts n s SECTOR_SIZE v = (Some bs, (nth_read s v i).2).
Proof.
  revert n v. induction i as [|i IH]; intros [|n] v Hi Hj Hb; [lia| |lia|]; cbn [read_attempts].
  - unfold nth_read in *. cbn in *. destruct (read_blocks s SECTOR_SIZE v) as [o v']. simpl in *. by subst o.
  - pose proof (Hj O ltac:(lia)) as H0. unfold nth_read in *. rewrite Nat.iter_succ_r in *. cbn in H0.
    destruct (read_blocks s SECTOR_SIZE v) as [[] v'] eqn:Hv; [done|]. apply IH; [lia| |done].
    intros j Hlt. specialize (Hj (S j) ltac:(lia)). by rewrite Nat.iter_succ_r, Hv in Hj.
Qed.
Lemma write_attempts_refused n s bs v : (∀ i, (i < n)%nat → (nth_write s bs v i).1 = false) →
  write_attempts n s bs v = (false, Nat.iter n (fun v => (write_blocks s bs v).2) v).
Proof.
  revert v. induction n as [|n IH]; intros v Hn; [done|]. cbn [write_attempts]. pose proof (Hn O ltac:(lia)) as H0.
  unfold nth_write in H0. cbn in H0. rewrite Nat.iter_succ_r. destruct (write_blocks s bs v) as [[] v'] eqn:Hv; [done|]. apply IH.
  intros i Hi. specialize (Hn (S i) ltac:(lia)). unfold nth_write in *. by rewrite Nat.iter_succ_r, Hv in Hn.
Qed.
Lemma write_attempts_granted n i s bs v : (i < n)%nat → (∀ j, (j < i)%nat → (nth_write s bs v j).1 = false) →
  (nth_write s bs v i).1 = true → write_attempts n s bs v = (true, (nth_write s bs v i).2).
Proof.
  revert n v. induction i as [|i IH]; intros [|n] v Hi Hj Hb; [lia| |lia|]; cbn [write_attempts].
  - unfold nth_write in *. cbn in *. destruct (write_blocks s bs v) as [o v']. simpl in *. by subst o.
  - pose proof (Hj O ltac:(lia)) as H0. unfold nth_write in *. rewrite Nat.iter_succ_r in *. cbn in H0.
    destruct (write_blocks s bs v) as [[] v'] eqn:Hv; [done|]. apply IH; [lia| |done].
    intros j Hlt. specialize (Hj (S j) ltac:(lia)). by rewrite Nat.iter_succ_r, Hv in Hj.
Qed.

Definition vb_same d d' : Prop := capacity_sectors d' = capacity_sectors d ∧ ∀ x, vb_byte d' x = vb_byte d x.
Lemma read_attempts_spec n s v :
  (∀ x, drv_byte (read_attempts n s SECTOR_SIZE v).2 x = drv_byte v x) ∧
  ∀ bs, (read_attempts n s SECTOR_SIZE v).1 = Some bs → bs = range (drv_byte v) (s * SECTOR_SIZE) SECTOR_SIZE.
Proof.
  revert v. induction n as [|n IH]; intros v; cbn [read_attempts]; [done|]. destruct (read_blocks_law s v) as [Hx Hbs].
  destruct (read_blocks s SECTOR_SIZE v) as [[bs|] v']; simpl in *; [done|]. destruct (IH v') as [Hx' Hbs'].
  split; [intros; by rewrite Hx', Hx|]. intros bs ->%Hbs'. apply range_ext. auto.
Qed.

#[local] Arguments read_attempts : simpl never.
Lemma read_sector_spec d0 d s : vb_same d0 d → 0 ≤ s < capacity_sectors d0 → let r := read_sector s SECTOR_SIZE d in
  vb_same d0 r.2 ∧
  match r.1 with Ok bs => bs = range (vb_byte d0) (s * SECTOR_SIZE) SECTOR_SIZE | Err _ => True | _ => False end.
Proof.
  intros [Hc Hb] Hs. unfold read_sector, with_state. rewrite Z.eqb_refl. cbn [negb].
  destruct (Z.leb_spec (capacity_sectors d) s); [lia|].
  unfold vb_same, vb_byte in *. destruct (vb_state d) as [v|] eqn:Hv; simpl; [|by rewrite Hv].
  destruct (read_attempts_spec 3 s v) as [Hx Hbs]. destruct (read_attempts 3 s SECTOR_SIZE v) as [[bs|] v']; simpl in *.
  - split; [split; [done|intros; by rewrite Hx]|]. rewrite (Hbs bs) by done. apply range_ext. auto.
  - split; [split; [done|intros; by rewrite Hx]|done].
Qed.

Lemma read_sectors_spec d s n : 0 ≤ s → 0 ≤ n → s + n ≤ capacity_sectors d → let r := read_sectors s (n * SECTOR_SIZE) d in
  vb_same d r.2 ∧
  match r.1 with Ok bs => bs = range (vb_byte d) (s * SECTOR_SIZE) (n * SECTOR_SIZE) | Err _ => True | _ => False end.
Proof.
  intros Hs Hn Hc. unfold read_sectors. rewrite Z.mod_mul by done. rewrite Z.eqb_refl. cbn [negb]. rewrite orb_false_r.
  destruct (_ =? 0); [done|]. rewrite Z.div_mul by done.
  pose proof (read_chunks_spec read_sector SECTOR_SIZE (capacity_sectors d) (vb_byte d) (vb_same d) ltac:(done)
    (fun d' k => read_sector_spec d d' k) (Z.to_nat n) d s) as Hr. rewrite Z2Nat.id in Hr by lia. apply Hr; [|lia..]. by split.
Qed.

#[global] Program Instance virtio_block_laws : BlockLaws (VirtioBlockDevice Drv) := { bd_byte := vb_byte }.
Next Obligation. intros d s Hs. destruct (read_sector_spec d d s) as [[Hc Hb] Ho]; [by split|done|]. by split. Qed.
Next Obligation. intros d s n Hs Hn Hc. destruct (read_sectors_spec d s n Hs Hn Hc) as [[Hc' Hb] Ho]. by split. Qed.

Lemma write_attempts_spec n s bs v : zlen bs = SECTOR_SIZE → let r := write_attempts n s bs v in
  (∀ x, ¬ s * SECTOR_SIZE ≤ x < (s + 1) * SECTOR_SIZE → drv_byte r.2 x = drv_byte v x) ∧
  (r.1 = true → range (drv_byte r.2) (s * SECTOR_SIZE) SECTOR_SIZE = bs).
Proof.
  intros Hl. revert v. induction n as [|n IH]; intros v; cbn [write_attempts]; [done|].
  destruct (write_blocks_law s bs v Hl) as [Hx Hbs]. destruct (write_blocks s bs v) as [[] v']; simpl in *; [done|].
  destruct (IH v') as [Hx' Hbs']. split; [|done]. intros x Hn. by rewrite Hx', Hx.
Qed.

#[local] Arguments write_attempts : simpl never.

(** What a request comes to that reaches the driver [v]: the first of three
    requests that is granted, or EIO after the third refusal; the driver is
    asked no further. *)
Definition write_outcome d (s : Z) (bs : list Z) (r : outcome unit * VirtioBlockDevice Drv) : Prop := ∀ v, vb_state d = Some v →
  (∀ i, (i < 3)%nat → (∀ j, (j < i)%nat → (nth_write s bs v j).1 = false) → (nth_write s bs v i).1 = true →
     r = (Ok tt, set_driver d (nth_write s bs v i).2)) ∧
  ((∀ i, (i < 3)%nat → (nth_write s bs v i).1 = false) → r = (Err EIO, set_driver d (nth_write s bs v 2).2)).
Definition read_outcome d (s : Z) (r : outcome (list Z) * VirtioBlockDevice Drv) : Prop := ∀ v, vb_state d = Some v →
  (∀ i bs, (i < 3)%nat → (∀ j, (j < i)%nat → (nth_read s v j).1 = None) → (nth_read s v i).1 = Some bs →
     r = (Ok bs, set_driver d (nth_read s v i).2)) ∧
  ((∀ i, (i < 3)%nat → (nth_read s v i).1 = None) → r = (Err EIO, set_driver d (nth_read s v 2).2)).

Lemma write_sector_outcome d s bs : vb_readonly d = false → zlen bs = SECTOR_SIZE → s < capacity_sectors d →
  write_outcome d s bs (write_sector s bs d).
Proof.
  intros Hr Hl Hc v Hv. unfold write_sector, with_state. rewrite Hr, Hl, Z.eqb_refl, Hv. cbn [negb].
  destruct (Z.leb_spec (capacity_sectors d) s); [lia|]. cbv zeta. split.
  - intros i Hi Hj Ht. by rewrite (write_attempts_granted 3 i).
  - intros Hn. by rewrite (write_attempts_refused 3).
Qed.
Lemma read_sector_outcome d s : s < capacity_sectors d → read_outcome d s (read_sector s SECTOR_SIZE d).
Proof.
  intros Hc v Hv. unfold read_sector, with_state. rewrite Z.eqb_refl, Hv. cbn [negb].
  destruct (Z.leb_spec (capacity_sectors d) s); [lia|]. cbv zeta. split.
  - intros i bs Hi Hj Ht. by rewrite (read_attempts_granted 3 i s v bs).
  - intros Hn. by rewrite (read_attempts_refused 3).
Qed.

(** A read changes no byte and no field but the driver. *)
Lemma read_sector_frame d s : let r := read_sector s SECTOR_SIZE d in
  vb_readonly r.2 = vb_readonly d ∧ capacity_sectors r.2 = capacity_sectors d ∧ ∀ x, vb_byte r.2 x = vb_byte d x.
Proof.
  cbv zeta. unfold read_sector, with_state. rewrite Z.eqb_refl. cbn [negb].
  destruct (_ <=? _); [done|]. unfold vb_byte. destruct (vb_state d) as [v|] eqn:Hv; simpl; [|by rewrite Hv].
  destruct (read_attempts_spec 3 s v) as [Hx _]. by destruct (read_attempts 3 s SECTOR_SIZE v) as [[]].
Qed.

Lemma read_sector_result d s : s < capacity_sectors d → is_Some (vb_state d) → let r := read_sector s SECTOR_SIZE d in
  r.1 = Ok (range (vb_byte d) (s * SECTOR_SIZE) SECTOR_SIZE) ∨ r.1 = Err EIO.
Proof.
  intros Hc [v Hv]. cbv zeta. unfold read_sector, with_state, vb_byte. rewrite Z.eqb_refl, Hv. cbn [negb].
  destruct (Z.leb_spec (capacity_sectors d) s); [lia|]. destruct (read_attempts_spec 3 s v) as [_ Hbs].
  destruct (read_attempts 3 s SECTOR_SIZE v) as [[bs|] v']; simpl in *; [|by right]. left. by rewrite (Hbs bs).
Qed.
(** A write changes no byte outside its sector; one that succeeds leaves its bytes there. *)
Lemma write_sector_frame d s bs : let w := write_sector s bs d in
  vb_readonly w.2 = vb_readonly d ∧ capacity_sectors w.2 = capacity_sectors d ∧
  (∀ x, ¬ s * SECTOR_SIZE ≤ x < (s + 1) * SECTOR_SIZE → vb_byte w.2 x = vb_byte d x) ∧
  (w.1 = Ok tt → is_Some (vb_state w.2) ∧ range (vb_byte w.2) (s * SECTOR_SIZE) SECTOR_SIZE = bs).
Proof.
  cbv zeta. unfold write_sector, with_state, vb_byte. destruct (vb_readonly d) eqn:Hr; [by simpl|].
  destruct (Z.eqb_spec (zlen bs) SECTOR_SIZE) as [Hl|]; [|by simpl]. cbn [negb]. destruct (_ <=? _); [by simpl|].
  destruct (vb_state d) as [v|] eqn:Hv; [|simpl; by rewrite Hv, Hr]. cbv zeta.
  destruct (write_attempts_spec 3 s bs v Hl) as [Hx Hbs].
  destruct (write_attempts 3 s bs v) as [[] v']; simpl in *; split_and!; try done.
  intros _. split; [done|]. by apply Hbs.
Qed.

(** C34: A sector written is read back. On a device that may be written, with a
    buffer of one sector and a sector inside the disk, the write asks the driver
    at most three times: it succeeds when one of the three requests is granted
    and answers EIO after the third refusal, the driver being left where the
    last request left it. After a write that succeeded the read behaves in the
    same way and gives the bytes written. A write that is not allowed answers
    EROFS, EINVAL or the error of the start-up and changes nothing. In every
    case no byte outside the sector changes. *)
Theorem virtio_block_roundtrip d s bs : 0 ≤ s →
  let w := write_sector s bs d in
  let r := read_sector s SECTOR_SIZE w.2 in
  (if vb_readonly d then w = (Err EROFS, d)
   else if negb (zlen bs =? SECTOR_SIZE) || (capacity_sectors d <=? s) then w = (Err EINVAL, d)
   else if bool_decide (vb_state d = None) then w = (Err (init_error d), d)
   else write_outcome d s bs w ∧ read_outcome w.2 s r ∧ (w.1 = Ok tt → r.1 = Ok bs ∨ r.1 = Err EIO)) ∧
  (∀ x, ¬ s * SECTOR_SIZE ≤ x < (s + 1) * SECTOR_SIZE → vb_byte r.2 x = vb_byte d x) ∧
  capacity_sectors r.2 = capacity_sectors d ∧ vb_readonly r.2 = vb_readonly d.
Proof.
  intros Hs. cbv zeta. destruct (write_sector_frame d s bs) as (Hwr & Hwc & Hwb & Hwbs).
  destruct (read_sector_frame (write_sector s bs d).2 s) as (Hrr & Hrc & Hrb).
  split; [|split_and!; [intros x Hx; rewrite Hrb; by apply Hwb|congruence..]].
  destruct (vb_readonly d) eqn:Hr; [unfold write_sector; by rewrite Hr|].
  destruct (Z.eqb_spec (zlen bs) SECTOR_SIZE) as [Hl|Hl]; cbn [negb orb];
    [|unfold write_sector; rewrite Hr; by destruct (Z.eqb_spec (zlen bs) SECTOR_SIZE)].
  destruct (Z.leb_spec (capacity_sectors d) s) as [Hc|Hc];
    [unfold write_sector; rewrite Hr, Hl, Z.eqb_refl; cbn [negb]; by destruct (Z.leb_spec (capacity_sectors d) s); [|lia]|].
  case_bool_decide as Hv.
  { unfold write_sector, with_state. rewrite Hr, Hl, Z.eqb_refl, Hv. cbn [negb]. by destruct (Z.leb_spec (capacity_sectors d) s); [lia|]. }
  split_and!; [by apply write_sector_outcome|apply read_sector_outcome; lia|]. intros Hok. destruct (Hwbs Hok) as [Hst Hbs].
  pose proof (read_sector_result _ s ltac:(by rewrite Hwc) Hst) as Hres. by rewrite Hbs in Hres.
Qed.
End VirtioLaws.

(** A driver over a list of sectors that refuses every other request. *)
Record flaky := mkFlaky { fl_bytes : Z → Z; fl_turn : bool }.
#[global] Instance flaky_driver : VirtIOBlk flaky := {
  read_blocks s n v := (if fl_turn v then Some (range (fl_bytes v) (s * SECTOR_SIZE) n) else None, mkFlaky (fl_bytes v) (negb (fl_turn v)));
  write_blocks s bs v :=
    (fl_turn v, mkFlaky (fun x => if fl_turn v && (s * SECTOR_SIZE <=? x) && (x <? (s + 1) * SECTOR_SIZE)
                                  then default 0 (bs !! Z.to_nat (x - s * SECTOR_SIZE)) else fl_bytes v x) (negb (fl_turn v)));
  drv_flush v := (inr tt, v); drv_enable_interrupts v := v; drv_capacity _ := 4; drv_readonly _ := false }.
#[global] Program Instance flaky_laws : VirtIOBlkLaws flaky := { drv_byte := fl_bytes }.
Next Obligation. intros s v. simpl. split; [done|]. intros bs. by destruct (fl_turn v); intros [= <-]. Qed.
Next Obligation.
  intros s bs [f t] Hl. simpl. unfold SECTOR_SIZE, zlen in *. split.
  - intros x Hx. destruct (Z.leb_spec (s * 512) x), (Z.ltb_spec x ((s + 1) * 512)), t; simpl; lia || done.
  - intros ->. apply list_eq. intros i. destruct (decide (i < 512)%nat).
    + rewrite lookup_range by lia. destruct (Z.leb_spec (s * 512) (s * 512 + Z.of_nat i)); [|lia].
      destruct (Z.ltb_spec (s * 512 + Z.of_nat i) ((s + 1) * 512)); [|lia]. simpl.
      replace (Z.to_nat (s * 512 + Z.of_nat i - s * 512)) with i by lia.
      destruct (lookup_lt_is_Some_2 bs i) as [b Hb]; [lia|]. by rewrite Hb.
    + rewrite !lookup_ge_None_2 by (rewrite ?range_length; lia). done.
Qed.

Definition sample_blk : VirtioBlockDevice flaky := mkVirtioBlock (Some (mkFlaky (fun _ => 0) false)) 0 4 false 8.

Lemma virtio_block_roundtrip_witness :
  let w := write_sector 2 (replicate 512 7) sample_blk in
  w.1 = Ok tt ∧ (read_sector 2 SECTOR_SIZE w.2).1 = Ok (replicate 512 7) ∧
  (∀ x, ¬ 2 * SECTOR_SIZE ≤ x < (2 + 1) * SECTOR_SIZE → vb_byte (read_sector 2 SECTOR_SIZE w.2).2 x = 0).
Proof.
  cbv zeta. destruct (virtio_block_roundtrip sample_blk 2 (replicate 512 7) ltac:(lia)) as ((Hw & Hr & _) & Hx & _).
  split; [|split; [|exact Hx]].
  - destruct (Hw _ eq_refl) as [Hg _]. rewrite (Hg 1%nat); [done|lia| |by vm_compute]. intros j Hj. by replace j with O by lia.
  - by vm_compute.
Defined.
End Block.
