(* ===== verification/Ext4Fs.v ===== *)
(** * The ext4 reader (crates/fs-ext4/src/lib.rs)

    [BlockDeviceReader] gives the ext4 library the bytes of a block device at
    any offset; [Ext4Mount] gives the kernel the files of the file system.
    The library (crate ext4-view) is the class [Ext4Lib]; what is relied on is
    its documented behaviour ([Ext4FileLaws]).  A mount is an instance of the
    interface the file name space uses. *)

From S2P Require Import Prelude Path FileObject Discovery Block.

Open Scope Z_scope.

Module Ext4Fs.
Import Path Obj Block.

Definition MAX_RANGE_READ : Z := 256 * 1024.

(** ** The reader of the device *)
Inductive BlockIoError :=
  | AddressOverflow
  | InvalidGeometry
  | DeviceError (code sector start_byte read_len : Z).

Section Reader.
Context {D : Type} `{!HalBlockDevice D}.

Record BlockDeviceReader := mkReader { rd_device : D; scratch : list Z }.

Definition reader_new (d : D) : BlockDeviceReader := mkReader d (replicate (Z.to_nat (Z.max (bd_sector_size d) 512)) 0).

(** [dst[at..at + len].copy_from_slice(&src[from..from + len])] *)
Definition copy_from_slice (dst : list Z) (at_ : Z) (src : list Z) (from len : Z) : outcome (list Z) :=
  if (at_ + len <=? zlen dst) && (from + len <=? zlen src)
  then Ok (ztake at_ dst ++ ztake len (zdrop from src) ++ zdrop (at_ + len) dst) else Panic.

(** The part of a sector that was asked for, copied from the scratch buffer. *)
Definition copy_sector (sector sector_size start end_ : Z) (dst scratch : list Z) : outcome (list Z) :=
  sector_start ← umul sector sector_size;
  sector_end ← uadd sector_start sector_size;
  let copy_start := Z.max start sector_start in
  let copy_end := Z.min end_ sector_end in
  len ← usub copy_end copy_start;
  copy_from_slice dst (copy_start - start) scratch (copy_start - sector_start) len.

(** The loop over the sectors: [inl] is an error of the device. *)
Fixpoint copy_sectors (sector : Z) (n : nat) (start end_ : Z) (dst : list Z) (r : BlockDeviceReader)
  : outcome (BlockIoError + list Z) * BlockDeviceReader :=
  match n with
  | O => (Ok (inr dst), r)
  | S n' =>
      let sector_size := bd_sector_size (rd_device r) in
      let '(o, d) := bd_read_sector sector (zlen (scratch r)) (rd_device r) in
      match o with
      | Ok bs =>
          let r := mkReader d bs in
          match copy_sector sector sector_size start end_ dst (scratch r) with
          | Ok dst' => copy_sectors (sector + 1) n' start end_ dst' r
          | Err e => (Err e, r)
          | Panic => (Panic, r)
          | Diverge => (Diverge, r)
          end
      | Err code => (Ok (inl (DeviceError code sector start (zlen dst))), mkReader d (scratch r))
      | Panic => (Panic, mkReader d (scratch r))
      | Diverge => (Diverge, mkReader d (scratch r))
      end
  end.

Definition reader_read (start_byte : Z) (dst : list Z) (r : BlockDeviceReader)
  : outcome (BlockIoError + list Z) * BlockDeviceReader :=
  let sector_size := bd_sector_size (rd_device r) in
  if (sector_size =? 0) || negb (zlen (scratch r) =? sector_size) then (Ok (inl InvalidGeometry), r)
  else
    match checked_add start_byte (zlen dst) with
    | None => (Ok (inl AddressOverflow), r)
    | Some end_ =>
        let first_sector := start_byte / sector_size in
        let last_sector := saturating_sub end_ 1 / sector_size in
        if (start_byte mod sector_size =? 0) && (zlen dst mod sector_size =? 0) then
          let '(o, d) := bd_read_sectors first_sector (zlen dst) (rd_device r) in
          let r := mkReader d (scratch r) in
          match o with
          | Ok bs => (Ok (inr bs), r)
          | Err code => (Ok (inl (DeviceError code first_sector start_byte (zlen dst))), r)
          | Panic => (Panic, r)
          | Diverge => (Diverge, r)
          end
        else copy_sectors first_sector (Z.to_nat (last_sector - first_sector + 1)) start_byte end_ dst r
    end.

(** ** Reads give the bytes of the disk *)
Context `{!BlockLaws D}.

Definition disk_size (d : D) : Z := bd_sector_count d * bd_sector_size d.
Definition reader_ok (r : BlockDeviceReader) : Prop := 0 < bd_sector_size (rd_device r) ∧ zlen (scratch r) = bd_sector_size (rd_device r).

(** [upto] bytes of [dst] hold the disk, the rest is as before. *)
Definition partly (byte : Z → Z) (start upto : Z) (dst0 dst : list Z) : Prop :=
  dst = range byte start upto ++ zdrop upto dst0.

Lemma copy_partly byte ss start end_ dst0 dst sector :
  0 < ss → 0 ≤ start → end_ = start + zlen dst0 → (sector + 1) * ss ≤ USIZE_MAX → start / ss ≤ sector → sector * ss ≤ end_ →
  partly byte start (Z.max start (sector * ss) - start) dst0 dst →
  ∃ dst', copy_sector sector ss start end_ dst (range byte (sector * ss) ss) = Ok dst' ∧
    partly byte start (Z.min end_ ((sector + 1) * ss) - start) dst0 dst' ∧ zlen dst' = zlen dst0.
Proof.
  intros Hss Hs He Hmax Hfirst Hlast Hp. pose proof (Z.mod_pos_bound start ss Hss). pose proof (Z.div_mod start ss). assert (0 ≤ zlen dst0) by (unfold zlen; lia).
  assert (start < (sector + 1) * ss) as Hnext by nia.
  assert (0 ≤ sector) by (pose proof (Z.div_pos start ss); lia).
  unfold copy_sector. rewrite umul_ok by lia. cbn [mbind outcome_bind]. rewrite uadd_ok by lia. cbn [mbind outcome_bind]. cbv zeta.
  replace (sector * ss + ss) with ((sector + 1) * ss) by lia.
  set (cs := Z.max start (sector * ss)) in *. set (ce := Z.min end_ ((sector + 1) * ss)) in *.
  assert (cs ≤ ce) by lia. rewrite usub_ok by lia. cbn [mbind outcome_bind].
  assert (zlen dst = zlen dst0) as Hl.
  { rewrite Hp. unfold zlen, zdrop in *. rewrite length_app, range_length, length_drop. lia. }
  unfold copy_from_slice. rewrite (range_zlen _ _ ss) by lia.
  destruct (Z.leb_spec (cs - start + (ce - cs)) (zlen dst)); [|lia].
  destruct (Z.leb_spec (cs - sector * ss + (ce - cs)) ss); [|lia]. cbn [andb].
  eexists. split; [reflexivity|].
  assert (ztake (cs - start) dst ++ ztake (ce - cs) (zdrop (cs - sector * ss) (range byte (sector * ss) ss))
    ++ zdrop (cs - start + (ce - cs)) dst = range byte start (ce - start) ++ zdrop (ce - start) dst0) as Heq.
  { unfold ztake, zdrop at 1. rewrite range_slice by lia.
    replace (sector * ss + (cs - sector * ss)) with (start + (cs - start)) by lia.
    replace (ce - start) with ((cs - start) + (ce - cs)) by lia. rewrite range_app, <- app_assoc by lia. f_equal.
    - rewrite Hp. apply take_app_length'. rewrite range_length. done.
    - f_equal. rewrite Hp. unfold zdrop. rewrite drop_app_ge by (rewrite range_length; lia).
      rewrite range_length, drop_drop. f_equal. lia. }
  split; [exact Heq|]. rewrite Heq. unfold zlen, zdrop in *. rewrite length_app, range_length, length_drop. lia.
Qed.

(** The bytes of the disk, or the error with which the device refused a sector
    of the range. *)
Definition read_result (d0 : D) (start : Z) (dst : list Z) (o : outcome (BlockIoError + list Z)) : Prop :=
  match o with
  | Ok (inr bs) => bs = range (bd_byte d0) start (zlen dst)
  | Ok (inl (DeviceError code sector start' len)) =>
      start' = start ∧ len = zlen dst ∧ start / bd_sector_size d0 ≤ sector ∧ sector * bd_sector_size d0 ≤ start + zlen dst ∧
      ∃ d, bd_same d0 d ∧
        ((bd_read_sector sector (bd_sector_size d0) d).1 = Err code ∧ sector < bd_sector_count d0 ∨
         (bd_read_sectors sector (zlen dst) d).1 = Err code ∧ zlen dst mod bd_sector_size d0 = 0)
  | _ => False
  end.

Lemma copy_sectors_spec n sector last start end_ dst0 dst (d0 : D) (r : BlockDeviceReader) :
  let ss := bd_sector_size d0 in
  reader_ok r → bd_same d0 (rd_device r) → disk_size d0 ≤ USIZE_MAX →
  0 ≤ start → end_ = start + zlen dst0 → start / ss ≤ sector → sector + Z.of_nat n = last + 1 →
  last * ss ≤ end_ ≤ (last + 1) * ss → last < bd_sector_count d0 →
  partly (bd_byte d0) start (Z.min end_ (Z.max start (sector * ss)) - start) dst0 dst → zlen dst = zlen dst0 →
  let res := copy_sectors sector n start end_ dst r in
  reader_ok res.2 ∧ bd_same d0 (rd_device res.2) ∧
  read_result d0 start dst0 res.1.
Proof.
  intros ss Hr Hsame Hmax Hs He Hfirst Hn Hlast Hcount. unfold disk_size in Hmax. fold ss in Hmax.
  revert sector dst r Hr Hsame Hfirst Hn.
  induction n as [|n IH]; intros sector dst r [Hss Hscr] Hsame Hfirst Hn Hp Hl; cbn [copy_sectors].
  { split; [by split|]. split; [done|]. simpl. rewrite Hp.
    replace (Z.min end_ (Z.max start (sector * ss)) - start) with (zlen dst0) by nia.
    unfold zdrop, zlen. rewrite drop_ge, app_nil_r by lia. done. }
  assert (bd_sector_size (rd_device r) = ss ∧ bd_sector_count (rd_device r) = bd_sector_count d0 ∧
    ∀ x, bd_byte (rd_device r) x = bd_byte d0 x) as (Hss' & Hc' & Hb') by (split_and!; apply Hsame).
  rewrite Hss' in Hss, Hscr. rewrite Hss', Hscr.
  assert (0 ≤ sector) by (pose proof (Z.div_pos start ss Hs Hss); lia).
  assert (0 ≤ sector < bd_sector_count (rd_device r)) as Hin by (rewrite Hc'; lia).
  destruct (bd_read_sector_law (rd_device r) sector Hin) as [Hd Ho]. rewrite Hss' in Hd, Ho.
  destruct (bd_read_sector sector ss (rd_device r)) as [o d] eqn:Heq. cbn [fst snd] in *.
  assert (bd_same d0 d) as Hsd by by etrans. assert (bd_sector_size d = ss) as Hssd by apply Hsd.
  destruct o as [bs|code| |]; [|simpl|done..].
  2: { split; [by split; simpl; rewrite Hssd|]. split; [done|]. split_and!; [done|done|done|fold ss; nia|].
       exists (rd_device r). split; [done|]. left. split; [fold ss; by rewrite Heq|lia]. }
  rewrite (range_ext _ (bd_byte d0)) in Ho by auto. subst bs. cbn [scratch].
  assert (sector * ss ≤ last * ss) by nia.
  destruct (copy_partly (bd_byte d0) ss start end_ dst0 dst sector) as (dst' & -> & Hp' & Hl'); try done; try nia.
  { by replace (Z.max start (sector * ss)) with (Z.min end_ (Z.max start (sector * ss))) by (unfold zlen in *; nia). }
  destruct (IH (sector + 1) dst' (mkReader d (range (bd_byte d0) (sector * ss) ss))) ; try done; try lia.
  - split; simpl; rewrite Hssd; [done|]. by rewrite range_zlen by lia.
  - pose proof (Z.mod_pos_bound start ss Hss). pose proof (Z.div_mod start ss).
    by replace (Z.max start ((sector + 1) * ss)) with ((sector + 1) * ss) by nia.
Qed.

Lemma last_sector_bounds ss start len : 0 < ss → 0 ≤ start → 0 ≤ len → start mod ss ≠ 0 ∨ len mod ss ≠ 0 →
  1 ≤ start + len ∧ start / ss ≤ (start + len - 1) / ss.
Proof.
  intros Hss Hs Hl Hnot. pose proof (Z.div_mod start ss ltac:(lia)). pose proof (Z.mod_pos_bound start ss Hss).
  destruct (decide (len = 0)) as [->|]; [|split; [lia|apply Z.div_le_mono; lia]].
  rewrite Z.mod_0_l in Hnot by lia. destruct Hnot as [Hnot|]; [|done]. pose proof (Z.div_pos start ss Hs Hss).
  assert (start ≠ 0) by (intros ->; by rewrite Z.mod_0_l in Hnot by lia).
  split; [lia|]. apply Z.div_le_lower_bound; lia.
Qed.

(** C35: A read of any alignment inside the disk gives the bytes of the disk there
    or the error of the device; it never panics and leaves the disk as it is. *)
Theorem reader_read_spec (r : BlockDeviceReader) start dst : reader_ok r → disk_size (rd_device r) ≤ USIZE_MAX →
  0 ≤ start → start + zlen dst ≤ disk_size (rd_device r) →
  let res := reader_read start dst r in
  reader_ok res.2 ∧ bd_same (rd_device r) (rd_device res.2) ∧
  read_result (rd_device r) start dst res.1.
Proof.
  intros [Hss Hscr] Hmax Hs He. cbv zeta. unfold reader_read. set (ss := bd_sector_size (rd_device r)) in *.
  destruct (Z.eqb_spec ss 0) as [|Hnz]; [lia|]. rewrite Hscr, Z.eqb_refl. cbn [orb negb].
  assert (0 ≤ zlen dst) by (unfold zlen; lia). unfold disk_size in *. fold ss in Hmax, He.
  unfold checked_add. destruct (Z.leb_spec (start + zlen dst) USIZE_MAX); [|lia].
  pose proof (Z.div_mod start ss ltac:(lia)) as Hdm. pose proof (Z.mod_pos_bound start ss Hss) as Hmb.
  destruct (Z.eqb_spec (start mod ss) 0) as [Hal|Hal], (Z.eqb_spec (zlen dst mod ss) 0) as [Hdl|Hdl]; cbn [andb].
  1: { pose proof (Z.div_mod (zlen dst) ss ltac:(lia)) as Hld.
       set (n := zlen dst / ss) in *. assert (zlen dst = n * ss) as Hn by lia. rewrite Hn.
       assert (0 ≤ start / ss) by (apply Z.div_pos; lia). assert (0 ≤ n) by nia.
       destruct (bd_read_sectors_law (rd_device r) (start / ss) n) as [Hd Ho]; [lia..|fold ss; nia|]. fold ss in Hd, Ho.
       destruct (bd_read_sectors (start / ss) (n * ss) (rd_device r)) as [o d] eqn:Heq. cbn [fst snd] in *.
       assert (bd_sector_size d = ss) as Hsd by apply Hd.
       destruct o as [bs|code| |]; [| |done..]; simpl; (split; [by split; simpl; rewrite Hsd|]); (split; [done|]).
       - subst bs. rewrite Hn. f_equal. lia.
       - split_and!; [done|done|fold ss; lia|fold ss; nia|]. exists (rd_device r). split; [done|]. right.
         split; [by rewrite Hn, Heq|done]. }
  all: destruct (last_sector_bounds ss start (zlen dst)) as [Hone Hle]; [lia..|by auto|].
  all: replace (saturating_sub (start + zlen dst) 1) with (start + zlen dst - 1) by (unfold saturating_sub; lia).
  all: pose proof (Z.div_mod (start + zlen dst - 1) ss Hnz) as Hle1; pose proof (Z.mod_pos_bound (start + zlen dst - 1) ss Hss) as Hle2.
  all: apply (copy_sectors_spec _ _ ((start + zlen dst - 1) / ss) start (start + zlen dst) dst dst (rd_device r) r);
    try done; try lia; try (fold ss; nia).
  all: fold ss; replace (Z.min _ _ - start) with 0 by nia; unfold partly, zdrop; by rewrite drop_0.
Qed.
End Reader.

(** ** The ext4 library *)
Inductive Ext4Error :=
  | NotAbsolute | NotASymlink | NotFound | IsADirectory | NotADirectory | IsASpecialFile | FileTooLarge | NotUtf8
  | MalformedPath | PathTooLong | TooManySymlinks | Encrypted | Io (err : BlockIoError) | Incompatible | Corrupt.
Inductive FileType := FtBlockDevice | FtCharacterDevice | FtDirectory | FtFifo | FtRegular | FtSocket | FtSymlink.
Record Metadata := mkMetadata { md_file_type : FileType; md_mode : Z; md_len : Z }.
Record LibDirEntry := mkLibDirEntry {
  de_file_name : string; de_file_type : Ext4Error + FileType; de_metadata : Ext4Error + Metadata }.

(** A mounted file system [F] over a reader [R], and an open file [Fl]. *)
Class Ext4Lib (R F Fl : Type) := {
  ext4_load : R → Ext4Error + F;
  fs_label : F → string;
  fs_metadata : F → string → Ext4Error + Metadata;
  fs_exists : F → string → Ext4Error + bool;
  fs_read : F → string → Ext4Error + list Z;
  fs_open : F → string → Ext4Error + Fl;
  fs_read_link : F → string → Ext4Error + string;
  fs_read_dir : F → string → Ext4Error + list (Ext4Error + LibDirEntry);
  file_seek_to : Fl → Z → Ext4Error + Fl;
  file_read_bytes : Fl → Z → Ext4Error + (list Z * Fl);
}.

Definition slice (p n : Z) (c : list Z) : list Z := ztake n (zdrop p c).

(** [read_bytes] gives a part of the file at its position, and nothing only at
    the end of the file; [seek_to] moves. *)
Class Ext4FileLaws (R F Fl : Type) `{!Ext4Lib R F Fl} := {
  file_content : Fl → list Z;
  file_pos : Fl → Z;
  read_bytes_law f n bs f' : 0 < n → file_read_bytes f n = inr (bs, f') →
    file_content f' = file_content f ∧ file_pos f' = file_pos f + zlen bs ∧ zlen bs ≤ n ∧
    bs = slice (file_pos f) (zlen bs) (file_content f) ∧ (bs = [] → zlen (file_content f) ≤ file_pos f);
  seek_to_law f p f' : file_seek_to f p = inr f' → file_content f' = file_content f ∧ file_pos f' = p;
}.

Inductive Kind := Regular | Directory | Symlink | Special.

Definition map_ext4_error (err : Ext4Error) : Z :=
  match err with
  | NotFound => ENOENT
  | NotADirectory => ENOTDIR
  | IsADirectory => EISDIR
  | MalformedPath | NotAbsolute | NotASymlink | PathTooLong | TooManySymlinks | FileTooLarge | IsASpecialFile => EINVAL
  | Io _ => EIO
  | Corrupt | Incompatible | Encrypted | NotUtf8 => EOPNOTSUPP
  end.
Definition normalize_device_error (err : Z) : Z := if err =? 0 then EIO else err.

Definition of_lib {A} (r : Ext4Error + A) : outcome A := match r with inl e => Err (map_ext4_error e) | inr a => Ok a end.

Definition metadata_to_stat (m : Metadata) : FileStat :=
  let type := match md_file_type m with
              | FtDirectory => 0x4000 | FtRegular => 0x8000 | FtSymlink => 0xa000 | FtCharacterDevice => 0x2000
              | FtBlockDevice => 0x6000 | FtFifo => 0x1000 | FtSocket => 0xc000
              end in
  mkStat (Z.lor type (md_mode m)) (md_len m) 1.
Definition file_type_to_kind (t : FileType) : Kind :=
  match t with FtRegular => Regular | FtDirectory => Directory | FtSymlink => Symlink | _ => Special end.

Section Mount.
Context {D F Fl : Type} `{!HalBlockDevice D} `{!Ext4Lib (BlockDeviceReader (D := D)) F Fl}.

Record Ext4Mount := mkMount { em_fs : F; em_label : string }.

Definition probe : stm D Ext4Mount := fun d =>
  match bd_init d with
  | (Ok _, d) =>
      if negb (bd_is_ready d) then (Err ENODEV, d)
      else if (bd_sector_size d =? 0) || (bd_sector_count d =? 0) then (Err ENODEV, d)
      else match ext4_load (reader_new d) with
           | inl e => (Err (map_ext4_error e), d)
           | inr fs => (Ok (mkMount fs (fs_label fs)), d)
           end
  | (Err e, d) => (Err (normalize_device_error e), d)
  | (Panic, d) => (Panic, d)
  | (Diverge, d) => (Diverge, d)
  end.

Definition stat (m : Ext4Mount) (path : string) : outcome FileStat := metadata_to_stat <$> of_lib (fs_metadata (em_fs m) path).
Definition is_dir (m : Ext4Mount) (path : string) : outcome bool :=
  metadata ← of_lib (fs_metadata (em_fs m) path);
  Ok (match md_file_type metadata with FtDirectory => true | _ => false end).
Definition exists_ (m : Ext4Mount) (path : string) : outcome bool := of_lib (fs_exists (em_fs m) path).
Definition read (m : Ext4Mount) (path : string) : outcome (list Z) := of_lib (fs_read (em_fs m) path).
Definition read_link (m : Ext4Mount) (path : string) : outcome string := of_lib (fs_read_link (em_fs m) path).

(** The inner loop: fill one chunk; the flag says that the file ended. *)
Fixpoint fill (fuel : nat) (file : Fl) (got : list Z) (chunk_len : Z) : outcome (bool * list Z * Fl) :=
  match fuel with
  | O => Diverge
  | S fuel' =>
      if zlen got <? chunk_len then
        r ← of_lib (file_read_bytes file (chunk_len - zlen got));
        match r.1 with
        | [] => Ok (true, got, r.2)
        | bs => fill fuel' r.2 (got ++ bs) chunk_len
        end
      else Ok (false, got, file)
  end.
Fixpoint read_chunks (fuel : nat) (file : Fl) (out : list Z) (len : Z) : outcome (list Z) :=
  match fuel with
  | O => Diverge
  | S fuel' =>
      if zlen out <? len then
        let chunk_len := Z.min (len - zlen out) MAX_RANGE_READ in
        r ← fill (S (Z.to_nat chunk_len)) file [] chunk_len;
        let '(ended, chunk, file) := r in
        if ended : bool then Ok (out ++ chunk) else read_chunks fuel' file (out ++ chunk) len
      else Ok out
  end.
Definition read_range (m : Ext4Mount) (path : string) (offset len : Z) : outcome (list Z) :=
  if len =? 0 then Ok []
  else
    file ← of_lib (fs_open (em_fs m) path);
    match file_seek_to file offset with
    | inl err => let code := map_ext4_error err in if code =? EINVAL then Ok [] else Err code
    | inr file => read_chunks (S (Z.to_nat len)) file [] len
    end.

Fixpoint dir_entries (entries : list (Ext4Error + LibDirEntry)) : outcome (list (string * Kind * FileStat)) :=
  match entries with
  | [] => Ok []
  | e :: entries' =>
      entry ← of_lib e;
      metadata ← of_lib (de_metadata entry);
      type ← of_lib (de_file_type entry);
      rest ← dir_entries entries';
      Ok ((de_file_name entry, file_type_to_kind type, metadata_to_stat metadata) :: rest)
  end.
Definition read_dir (m : Ext4Mount) (path : string) : outcome (list (string * Kind * FileStat)) :=
  entries ← of_lib (fs_read_dir (em_fs m) path); dir_entries entries.

Fixpoint dir_entries_lite (entries : list (Ext4Error + LibDirEntry)) : outcome (list (string * Kind)) :=
  match entries with
  | [] => Ok []
  | e :: entries' =>
      entry ← of_lib e;
      type ← of_lib (de_file_type entry);
      rest ← dir_entries_lite entries';
      Ok ((de_file_name entry, file_type_to_kind type) :: rest)
  end.
Definition read_dir_lite (m : Ext4Mount) (path : string) : outcome (list (string * Kind)) :=
  entries ← of_lib (fs_read_dir (em_fs m) path); dir_entries_lite entries.

(** The interface of the file name space: it tells directories and symbolic
    links from the rest. *)
Definition to_node_kind (k : Kind) : Ext4NodeKind := match k with Directory => E4Directory | Symlink => E4Symlink | _ => E4Other end.
#[global] Instance ext4_mount_ops : Ext4Ops Ext4Mount := {
  e4_stat := stat; e4_read_range := read_range; e4_read_link := read_link;
  e4_read_dir m path := fmap (M := list) (fun e => (e.1.1, to_node_kind e.1.2, e.2)) <$> read_dir m path;
  e4_read_dir_lite m path := fmap (M := list) (fun e => (e.1, to_node_kind e.2)) <$> read_dir_lite m path }.

(** The two listings agree: the short one is the long one without the
    attributes, whenever the long one succeeds. *)
Lemma dir_entries_agree entries es : dir_entries entries = Ok es → dir_entries_lite entries = Ok (fst <$> es).
Proof.
  revert es. induction entries as [|e entries IH]; intros es; simpl; [by intros [= <-]|].
  destruct e as [|entry]; simpl; [done|]. destruct (de_metadata entry); simpl; [done|].
  destruct (de_file_type entry); simpl; [done|]. destruct (dir_entries entries) as [rest| | |]; simpl; try done.
  rewrite (IH rest) by done. by intros [= <-].
Qed.

(** ** Ranges of a file *)
Context `{!Ext4FileLaws (BlockDeviceReader (D := D)) F Fl}.

(** An error of the library on the open file. *)
Definition read_error (code : Z) : Prop := ∃ e f n, code = map_ext4_error e ∧ file_read_bytes f n = inl e.

Lemma slice_app p a b c : 0 ≤ p → 0 ≤ a → 0 ≤ b → slice p (a + b) c = slice p a c ++ slice (p + a) b c.
Proof.
  intros. unfold slice, ztake, zdrop. rewrite !Z2Nat.inj_add by lia.
  by rewrite <- drop_drop, <- take_take_drop.
Qed.

(** [got] is the file from [p] on, up to the position of [file]. *)
Definition progress (c : list Z) (p : Z) (got : list Z) (file : Fl) : Prop :=
  file_content file = c ∧ file_pos file = p + zlen got ∧ got = slice p (zlen got) c.

Lemma progress_nil file : progress (file_content file) (file_pos file) [] file.
Proof. split_and!; [done|unfold zlen; simpl; lia|done]. Qed.

Lemma progress_read c p got file n bs file' : 0 ≤ p → 0 < n → progress c p got file →
  file_read_bytes file n = inr (bs, file') → progress c p (got ++ bs) file' ∧ zlen bs ≤ n ∧ (bs = [] → zlen c ≤ p + zlen got).
Proof.
  intros Hp Hn (<- & Hpos & Hgot) Hr. destruct (read_bytes_law _ _ _ _ Hn Hr) as (Hc & Hpos' & Hle & Hbs & Hend).
  assert (zlen (got ++ bs) = zlen got + zlen bs) as Hl by (unfold zlen; rewrite length_app; lia).
  unfold progress. split_and!; [done|lia| |done|rewrite <- Hpos; done]. rewrite Hl, slice_app by (unfold zlen; lia).
  rewrite <- Hpos. by rewrite <- Hbs, <- Hgot.
Qed.

Lemma fill_spec fuel c p got file chunk_len : 0 ≤ p → progress c p got file → zlen got ≤ chunk_len →
  (Z.to_nat (chunk_len - zlen got) < fuel)%nat →
  match fill fuel file got chunk_len with
  | Ok (ended, got', file') => progress c p got' file' ∧ zlen got' ≤ chunk_len ∧
      if ended : bool then zlen c ≤ p + zlen got' else zlen got' = chunk_len
  | Err code => read_error code
  | _ => False
  end.
Proof.
  intros Hp. revert got file. induction fuel as [|fuel IH]; intros got file Hg Hl Hf; [lia|]. cbn [fill].
  destruct (Z.ltb_spec (zlen got) chunk_len); [|split_and!; [done|lia|lia]].
  destruct (file_read_bytes file _) as [e|[bs file']] eqn:Hr; simpl; [by eexists _, _, _|].
  destruct (progress_read c p got file (chunk_len - zlen got) bs file' Hp ltac:(lia) Hg Hr) as (Hg' & Hle & Hend).
  destruct bs as [|b bs]; [rewrite app_nil_r in Hg'; split_and!; [done|lia|by apply Hend]|].
  assert (zlen (got ++ b :: bs) = zlen got + zlen (b :: bs)) as Hlen by (unfold zlen; rewrite length_app; simpl; lia).
  apply IH; [done|lia|]. unfold zlen in *. simpl in *. lia.
Qed.

Lemma read_chunks_range fuel c p out file len : 0 ≤ p → progress c p out file → zlen out ≤ len →
  (Z.to_nat (len - zlen out) < fuel)%nat →
  match read_chunks fuel file out len with
  | Ok bs => bs = slice p len c
  | Err code => read_error code
  | _ => False
  end.
Proof.
  intros Hp. revert out file. induction fuel as [|fuel IH]; intros out file Hg Hl Hf; [lia|]. cbn [read_chunks].
  destruct (Z.ltb_spec (zlen out) len); [|by rewrite (proj2 (proj2 Hg)) at 1; replace len with (zlen out) by lia].
  set (chunk_len := Z.min (len - zlen out) MAX_RANGE_READ).
  assert (0 < chunk_len ≤ len - zlen out) as Hcl by (unfold chunk_len, MAX_RANGE_READ; lia). clearbody chunk_len.
  assert (0 ≤ zlen out) by (unfold zlen; lia).
  destruct Hg as (Hc & Hpos & Hout).
  pose proof (progress_nil file) as Hnil. rewrite Hc, Hpos in Hnil.
  pose proof (fill_spec (S (Z.to_nat chunk_len)) c (p + zlen out) [] file chunk_len ltac:(lia) Hnil) as Hfill.
  change (zlen (A := Z) []) with 0 in Hfill. specialize (Hfill ltac:(lia) ltac:(lia)).
  destruct (fill _ _ _ _) as [[[ended chunk] file']|code| |]; cbn [mbind outcome_bind]; try done.
  destruct Hfill as ((Hc' & Hpos' & Hchunk) & Hle & Hend).
  assert (zlen (out ++ chunk) = zlen out + zlen chunk) as Hlen by (unfold zlen; rewrite length_app; lia).
  assert (progress c p (out ++ chunk) file') as Hg'.
  { split_and!; [done|lia|]. rewrite Hlen, slice_app by (unfold zlen; lia). by rewrite <- Hout, <- Hchunk. }
  destruct ended; [|apply IH; [done|lia|lia]]. rewrite (proj2 (proj2 Hg')) at 1. unfold slice, ztake, zdrop, zlen in *.
  rewrite !take_ge; [done|rewrite length_drop; lia..].
Qed.

(** [read_range] ends with the bytes [offset .. offset + len) of the file, cut
    at its end, however the library splits the reads; an error is an error of
    the library, and an offset the library refuses reads as empty. *)
Theorem read_range_spec (m : Ext4Mount) path offset len file : fs_open (em_fs m) path = inr file → 0 ≤ offset → 0 ≤ len →
  match read_range m path offset len with
  | Ok bs => bs = slice offset len (file_content file) ∨ bs = [] ∧ ∃ e, file_seek_to file offset = inl e ∧ map_ext4_error e = EINVAL
  | Err code => read_error code ∨ ∃ e, file_seek_to file offset = inl e ∧ code = map_ext4_error e
  | _ => False
  end.
Proof.
  intros Ho Hoff Hlen. unfold read_range. destruct (Z.eqb_spec len 0) as [->|Hn]; [by left|]. rewrite Ho. cbn [of_lib mbind outcome_bind].
  destruct (file_seek_to file offset) as [e|file'] eqn:Hs.
  { destruct (Z.eqb_spec (map_ext4_error e) EINVAL); [right; eauto|eauto]. }
  destruct (seek_to_law _ _ _ Hs) as [Hc Hpos].
  pose proof (progress_nil file') as Hnil. rewrite Hc, Hpos in Hnil.
  pose proof (read_chunks_range (S (Z.to_nat len)) (file_content file) offset [] file' len Hoff Hnil) as Hr.
  change (zlen (A := Z) []) with 0 in Hr. specialize (Hr ltac:(lia) ltac:(lia)).
  destruct (read_chunks _ _ _ _); naive_solver.
Qed.
End Mount.

(** ** A disk of four sectors behind a driver that refuses every other request,
    and a library that hands out one byte at a time *)
Definition sample_reader : BlockDeviceReader := reader_new sample_blk.

Lemma reader_read_spec_witness : reader_ok sample_reader ∧
  read_result (rd_device sample_reader) 700 (replicate 600 1) (reader_read 700 (replicate 600 1) sample_reader).1.
Proof.
  split; [by split|]. apply (reader_read_spec sample_reader 700 (replicate 600 1)); [by split|by vm_compute|lia|by vm_compute].
Defined.

Record toy_file := mkToy { toy_content : list Z; toy_pos : nat }.
#[global] Instance toy_lib : Ext4Lib (BlockDeviceReader (D := VirtioBlockDevice flaky)) (list Z) toy_file := {
  ext4_load _ := inr [104; 105; 33]; fs_label _ := EmptyString;
  fs_metadata fs _ := inr (mkMetadata FtRegular 420 (zlen fs)); fs_exists _ _ := inr true; fs_read fs _ := inr fs;
  fs_open fs _ := inr (mkToy fs 0%nat); fs_read_link _ _ := inl NotASymlink; fs_read_dir _ _ := inl NotADirectory;
  file_seek_to f p := if 0 <=? p then inr (mkToy (toy_content f) (Z.to_nat p)) else inl MalformedPath;
  file_read_bytes f n :=
    let bs := slice (Z.of_nat (toy_pos f)) (Z.min n 1) (toy_content f) in inr (bs, mkToy (toy_content f) (toy_pos f + length bs)) }.
#[global] Program Instance toy_laws : Ext4FileLaws _ (list Z) toy_file := { file_content := toy_content; file_pos f := Z.of_nat (toy_pos f) }.
Next Obligation.
  intros f n bs f' Hn [= <- <-]. simpl. replace (Z.min n 1) with 1 by lia.
  unfold slice, ztake, zdrop, zlen. split_and!; [done|lia|rewrite length_take; lia| |].
  - by destruct (drop _ _).
  - intros Ht. apply (f_equal length) in Ht. rewrite length_take, length_drop in Ht. cbn [length] in Ht. lia.
Qed.
Next Obligation. intros f p f'. simpl. destruct (Z.leb_spec 0 p); [|done]. intros [= <-]. simpl. split; [done|lia]. Qed.

Definition sample_mount : Ext4Mount (F := list Z) := mkMount [104; 105; 33] EmptyString.
Lemma read_range_spec_witness : read_range sample_mount EmptyString 1 9 = Ok [105; 33] ∧
  match read_range sample_mount EmptyString 1 9 with
  | Ok bs => bs = slice 1 9 [104; 105; 33] ∨ bs = [] ∧ ∃ e, file_seek_to (mkToy [104; 105; 33] 0%nat) 1 = inl e ∧ map_ext4_error e = EINVAL
  | Err code => read_error code ∨ ∃ e, file_seek_to (mkToy [104; 105; 33] 0%nat) 1 = inl e ∧ code = map_ext4_error e
  | _ => False
  end.
Proof.
  split; [by vm_compute|].
  exact (read_range_spec sample_mount EmptyString 1 9 (mkToy [104; 105; 33] 0%nat) eq_refl ltac:(lia) ltac:(lia)).
Defined.
End Ext4Fs.
