(* ===== verification/Platform.v ===== *)
(** * The two platforms (crates/hal-riscv64-virt/src/lib.rs, crates/hal-loongarch64-virt/src/lib.rs)

    What the platforms compute around their registers: the clocks, the memory map, the bounce buffers of the virtio drivers over the DMA arena,
    and the assignment of PCI base address registers on loongarch64.  The
    instructions that touch the machine (CSR accesses, [ecall], [rdtime]) are
    the arguments and the results of these definitions. *)

From S2P Require Import Prelude AddrSpace Discovery Dma Plic Block.

Open Scope Z_scope.

Module Platform.
Import Discovery Dma.

(** ** Clocks

    riscv64 counts at 10 MHz and computes in saturating 64-bit arithmetic;
    loongarch64 counts at 100 MHz. *)
Definition RISCV_TIMEBASE_HZ : Z := 10000000.
Definition nanos_to_time_ticks (nanos : Z) : Z := saturating_mul nanos RISCV_TIMEBASE_HZ / 1000000000.
Definition monotonic_nanos (ticks : Z) : Z := saturating_mul ticks 1000000000 / RISCV_TIMEBASE_HZ.
(** What [program_oneshot] does: the deadline in ticks, and the calls tried
    while the previous one failed. *)
Definition program_oneshot (deadline_nanos : Z) (sbi_v02 sbi_legacy : Z → Z) : Z * bool :=
  let ticks := nanos_to_time_ticks deadline_nanos in
  (ticks, if sbi_v02 ticks =? 0 then false else negb (sbi_legacy ticks =? 0)).
Definition la_monotonic_nanos (count : Z) : outcome Z := umul count 10.
(** The loongarch64 timer: [TCFG] for a deadline. *)
Definition la_program_oneshot (now_ticks deadline_nanos : Z) : outcome Z :=
  now_nanos ← umul now_ticks 10;
  let delta_ticks := saturating_sub deadline_nanos now_nanos / 10 in
  let init_val := Z.max delta_ticks 1000 in
  Ok (Z.lor (Z.shiftl init_val 2 mod 2 ^ 64) 1).
Definition timespec_from_nanos (total_nanos : Z) : Z * Z := (total_nanos / 1000000000, total_nanos mod 1000000000).

(** The last tick whose time is exact. *)
Definition LAST_TICK : Z := 18446744073.

(** C36: The clock is exact up to that tick: after 30 minutes and 44 seconds the
    product saturates and the clock of riscv64 stands still, so a deadline
    beyond it is never reached. *)
Theorem monotonic_clock_stops ticks : 0 ≤ ticks →
  monotonic_nanos ticks = (if ticks <=? LAST_TICK then 100 * ticks else 1844674407370) ∧
  ∀ deadline, 1844674407370 < deadline → monotonic_nanos ticks < deadline.
Proof.
  intros Ht. assert (monotonic_nanos ticks = if ticks <=? LAST_TICK then 100 * ticks else 1844674407370) as Heq.
  { unfold monotonic_nanos, saturating_mul, RISCV_TIMEBASE_HZ, LAST_TICK.
    change USIZE_MAX with 18446744073709551615. destruct (Z.leb_spec ticks 18446744073).
    - rewrite Z.min_l by lia. replace (ticks * 1000000000) with (100 * ticks * 10000000) by lia. apply Z.div_mul. lia.
    - rewrite Z.min_r by lia. done. }
  split; [done|]. intros deadline Hd. rewrite Heq. unfold LAST_TICK. destruct (Z.leb_spec ticks 18446744073); lia.
Qed.
Lemma monotonic_clock_stops_witness : monotonic_nanos 18446744074 = monotonic_nanos 36893488146.
Proof. rewrite !(fun t H => proj1 (monotonic_clock_stops t H)) by lia. reflexivity. Defined.

(** ** Memory *)
Definition memory_map (mmio_base phys_base phys_size kernel_end_symbol : Z) : outcome (list MemoryRegion) :=
  e ← uadd kernel_end_symbol 4095;
  let kernel_end := Z.land e (unot 4095) in
  Ok [mkRegion 0 mmio_base false; mkRegion kernel_end (saturating_sub (phys_base + phys_size) kernel_end) true].
Definition satp (token : Z) : Z := if token =? 0 then 0 else Z.lor (Z.shiftl 8 60) (Z.shiftr token 12).

(** ** Bounce buffers: [share] and [unshare] of the two [VirtioHal]s *)
Inductive BufferDirection := DriverToDevice | DeviceToDriver | Both.
Definition to_device (d : BufferDirection) : bool := match d with DeviceToDriver => false | _ => true end.
Definition to_driver (d : BufferDirection) : bool := match d with DriverToDevice => false | _ => true end.
Definition div_ceil (a b : Z) : Z := (a + b - 1) / b.

Section Bounce.
Context (base BYTES WORDS : Z).

Definition share (buffer : list Z) (direction : BufferDirection) (a : arena) : outcome (Z * arena) :=
  if zlen buffer =? 0 then Ok (0, a)
  else
    r ← alloc base BYTES WORDS (div_ceil (zlen buffer) DMA_PAGE_SIZE) a;
    match r with
    | (None, a) => Ok (0, a)
    | (Some paddr, a) =>
        Ok (paddr, if to_device direction then mkArena (bitmap a) (write_mem (memory a) paddr buffer) else a)
    end.
Definition unshare (paddr : Z) (buffer : list Z) (direction : BufferDirection) (a : arena) : outcome (list Z * arena) :=
  if (zlen buffer =? 0) || (paddr =? 0) then Ok (buffer, a)
  else
    let buffer' := if to_driver direction then
                     match phys_to_virt base BYTES paddr with
                     | Some v => (fun i => default 0 (memory a !! (v + Z.of_nat i))) <$> seq 0 (length buffer)
                     | None => buffer
                     end
                   else buffer in
    r ← dealloc base BYTES paddr (div_ceil (zlen buffer) DMA_PAGE_SIZE) a;
    Ok (buffer', r.2).

Context (Hbase : 0 < base) (Haligned : base mod DMA_PAGE_SIZE = 0) (Htop : base + BYTES ≤ USIZE_MAX) (Hcap : capacity BYTES WORDS).

Lemma div_ceil_bounds n : 0 < n → 0 < div_ceil n DMA_PAGE_SIZE ∧ n ≤ div_ceil n DMA_PAGE_SIZE * DMA_PAGE_SIZE.
Proof.
  intros Hn. unfold div_ceil, DMA_PAGE_SIZE. pose proof (Z.div_mod (n + 4096 - 1) 4096 ltac:(lia)).
  pose proof (Z.mod_pos_bound (n + 4096 - 1) 4096 ltac:(lia)). lia.
Qed.

(** What a buffer shared with a device sees and gets back: the device reads the
    bytes of the buffer, the buffer gets the bytes the device left there, and
    the pages are free again; or the arena had no room and nothing changed. *)
Theorem bounce_roundtrip a buffer direction : arena_ok WORDS a → 0 < zlen buffer →
  ∃ paddr a1, share buffer direction a = Ok (paddr, a1) ∧
    ((paddr = 0 ∧ a1 = a) ∨
     (base ≤ paddr ∧ paddr + zlen buffer ≤ base + BYTES ∧
      (to_device direction = true → ∀ i x, buffer !! i = Some x → memory a1 !! (paddr + Z.of_nat i) = Some x) ∧
      ∀ reply, length reply = length buffer →
        ∃ a3, unshare paddr buffer direction (mkArena (bitmap a1) (write_mem (memory a1) paddr reply)) =
              Ok (if to_driver direction then reply else buffer, a3) ∧
              ∀ page, 0 ≤ page → bit_is_set (bitmap a3) page = bit_is_set (bitmap a) page)).
Proof.
  intros Hok Hlen. destruct (div_ceil_bounds (zlen buffer) Hlen) as [Hp Hpl]. unfold share.
  destruct (Z.eqb_spec (zlen buffer) 0) as [|Hnz]; [lia|]. set (pages := div_ceil (zlen buffer) DMA_PAGE_SIZE) in *.
  destruct (decide (pages ≤ total_pages BYTES)) as [Ht|Ht].
  2: { exists 0, a. split; [|by left]. unfold alloc. destruct (Z.eqb_spec pages 0); [lia|].
       destruct (Z.ltb_spec (total_pages BYTES) pages); [done|lia]. }
  destruct (alloc_spec base BYTES WORDS Hbase a pages Hok Hcap ltac:(lia))
    as [(s & a' & -> & Hs & Hst & Hok' & Hf & _ & Hb & _)|[-> _]]; [|by exists 0, a; split; [|left]].
  cbn [mbind outcome_bind]. eexists _, _. split; [reflexivity|]. right.
  set (paddr := base + s * DMA_PAGE_SIZE) in *. pose proof (total_bytes BYTES) as Htb.
  assert (paddr + pages * DMA_PAGE_SIZE ≤ base + BYTES) as Hin by (unfold paddr, DMA_PAGE_SIZE in *; lia).
  assert (base ≤ paddr) as Hge by (unfold paddr, DMA_PAGE_SIZE; lia).
  split_and!; [done|lia| |].
  - intros -> i x Hx. simpl. rewrite lookup_write_mem. apply lookup_lt_Some in Hx as Hlt.
    rewrite decide_True by (unfold zlen in *; lia). rewrite <- Hx. f_equal. lia.
  - intros reply Hr. set (a2 := mkArena _ (write_mem _ paddr reply)).
    destruct (dealloc_spec base BYTES WORDS Hbase Haligned Htop a2 s pages) as (a3 & Hd & Hok3 & Hm & Hb3); try done.
    { destruct Hok' as [Hw]. constructor. unfold a2. by destruct (to_device direction). }
    exists a3. split.
    + unfold unshare. destruct (Z.eqb_spec (zlen buffer) 0); [lia|]. destruct (Z.eqb_spec paddr 0); [lia|]. cbn [orb].
      fold pages. change (base + s * DMA_PAGE_SIZE) with paddr in Hd. rewrite Hd. cbn [mbind outcome_bind]. do 2 f_equal.
      destruct (to_driver direction); [|done]. unfold phys_to_virt, contains.
      destruct (Z.leb_spec base paddr); [|lia]. destruct (Z.ltb_spec paddr (base + BYTES)); [|unfold DMA_PAGE_SIZE in *; lia].
      destruct (Z.eqb_spec paddr 0); [lia|]. cbn [andb negb]. rewrite <- Hr. apply list_eq. intros i.
      rewrite list_lookup_fmap. destruct (decide (i < length reply)%nat).
      * rewrite lookup_seq_lt by done. simpl. rewrite lookup_write_mem, decide_True by lia.
        replace (Z.to_nat (paddr + Z.of_nat i - paddr)) with i by lia.
        destruct (lookup_lt_is_Some_2 reply i) as [x Hx]; [done|]. by rewrite Hx.
      * rewrite lookup_seq_ge, lookup_ge_None_2 by lia. done.
    + intros page Hpage. rewrite Hb3 by done. unfold a2. simpl. replace (bitmap (if to_device direction then _ else _)) with (bitmap a')
        by by destruct (to_device direction). rewrite Hb by done. case_decide as Hin2; [|done]. symmetry. by apply Hf.
Qed.
End Bounce.

(** Three bytes through an arena of eight pages. *)
Lemma bounce_roundtrip_witness : ∃ paddr a1, share 4096 (8 * 4096) 1 [1; 2; 3] Both (new 1) = Ok (paddr, a1) ∧
  ((paddr = 0 ∧ a1 = new 1) ∨ 4096 ≤ paddr).
Proof.
  destruct (bounce_roundtrip 4096 (8 * 4096) 1 ltac:(lia) eq_refl ltac:(vm_compute; discriminate) ltac:(vm_compute; discriminate)
    (new 1) [1; 2; 3] Both ltac:(by split) ltac:(by vm_compute)) as (paddr & a1 & Hs & Hr).
  exists paddr, a1. split; [exact Hs|]. destruct Hr as [Hr|[Hr _]]; [by left|by right].
Defined.

(** ** Base address registers (loongarch64) *)
Inductive MemoryBarType := Width32 | Below1MiB | Width64.
Definition bar_type_bits (t : MemoryBarType) : Z := match t with Width32 => 0 | Below1MiB => 1 | Width64 => 2 end.
Inductive BarInfo := BarMemory (address_type : MemoryBarType) (prefetchable : bool) (size : Z) | BarIO (size : Z).

Record PciBarAllocator := mkBars {
  mmio_next : Z; mmio_limit : Z; io_next : Z; io_limit : Z; used_mem : bool; used_io : bool }.

Definition u32add (a b : Z) : outcome Z := if a + b <=? U32_MAX then Ok (a + b) else Panic.
Definition align_up_u64 (value align : Z) : outcome Z := align_up value align.
Definition align_up_u32 (value align : Z) : outcome Z :=
  s ← u32add value align; s' ← usub s 1; Ok (Z.land s' (U32_MAX - (align - 1))).

Definition bars_new (host : PciHostConfig) : outcome (option PciBarAllocator) :=
  match pci_mmio host with
  | None => Ok None
  | Some mmio =>
      let io := default (mkWindow 0 0) (pci_io host) in
      limit ← uadd (window_base mmio) (window_size mmio);
      io_end ← u32add (window_base io mod 2 ^ 32) (window_size io mod 2 ^ 32);
      Ok (Some (mkBars (window_base mmio) limit (window_base io mod 2 ^ 32) io_end false false))
  end.

Definition alloc_memory (size : Z) (address_type : MemoryBarType) (b : PciBarAllocator) : outcome (option Z * PciBarAllocator) :=
  start ← align_up_u64 (mmio_next b) (Z.max size 0x1000);
  low ← (match address_type with
         | Below1MiB => e ← uadd start size; Ok (0x100000 <? e)
         | _ => Ok false
         end);
  if low : bool then Ok (None, b)
  else match checked_add start size with
       | None => Ok (None, b)
       | Some e =>
           if mmio_limit b <? e then Ok (None, b)
           else Ok (Some start, mkBars e (mmio_limit b) (io_next b) (io_limit b) true (used_io b))
       end.

Definition alloc_io (size : Z) (b : PciBarAllocator) : outcome (option Z * PciBarAllocator) :=
  if io_limit b =? 0 then Ok (None, b)
  else
    start ← align_up_u32 (io_next b) (Z.max size 4);
    if U32_MAX <? start + size then Ok (None, b)
    else if io_limit b <? start + size then Ok (None, b)
    else Ok (Some start, mkBars (mmio_next b) (mmio_limit b) (start + size) (io_limit b) (used_mem b) true).

(** BUS_MASTER, MEMORY_SPACE and IO_SPACE. *)
Definition bars_command (b : PciBarAllocator) : Z := Z.lor (Z.lor 4 (if used_mem b then 2 else 0)) (if used_io b then 1 else 0).

(** The words written to the configuration space of the device. *)
Definition write_memory_bar (bar_index address flags : Z) : list (Z * Z) :=
  (0x10 + 4 * bar_index, Z.lor (Z.ldiff (address mod 2 ^ 32) 15) flags) ::
  (if Z.testbit flags 2 then [(0x10 + 4 * (bar_index + 1), Z.shiftr address 32 mod 2 ^ 32)] else []).

Fixpoint bars_loop (bars : list (option BarInfo)) (bar_index : Z) (b : PciBarAllocator) (words : list (Z * Z))
  : outcome (PciBarAllocator * list (Z * Z)) :=
  match bars with
  | [] => Ok (b, words)
  | None :: bars' => bars_loop bars' (bar_index + 1) b words
  | Some (BarMemory address_type prefetchable size) :: bars' =>
      r ← alloc_memory size address_type b;
      match r with
      | (None, _) => Err Block.ENODEV
      | (Some address, b) =>
          let flags := Z.lor (Z.shiftl (bar_type_bits address_type) 1) (if prefetchable then 8 else 0) in
          let words := words ++ write_memory_bar bar_index address flags in
          match address_type, bars' with
          | Width64, _ :: bars'' => bars_loop bars'' (bar_index + 2) b words
          | _, _ => bars_loop bars' (bar_index + 1) b words
          end
      end
  | Some (BarIO size) :: bars' =>
      r ← alloc_io size b;
      match r with
      | (None, _) => Err Block.ENODEV
      | (Some address, b) => bars_loop bars' (bar_index + 1) b (words ++ [(0x10 + 4 * bar_index, Z.lor address 1)])
      end
  end.
Definition allocate_virtio_bars (bars : option (list (option BarInfo))) (b : PciBarAllocator)
  : outcome (Z * PciBarAllocator * list (Z * Z)) :=
  match bars with
  | None => Err Block.ENODEV
  | Some bars => r ← bars_loop bars 0 b []; Ok (bars_command r.1, r.1, r.2)
  end.

Definition qemu_virt_fallback : LoongArchVirtioDiscovery :=
  mkLoongDiscovery
    (Some (mkPciHost 0x20000000 0x08000000 0 0x7f (Some (mkWindow 0x18004000 0xc000)) (Some (mkWindow 0x40000000 0x40000000))))
    (Some (mkPchPic 0x10000000 0x1000)).

(** The search of the bus: the first block device is the one, and an error on
    it ends the search.  [bars_of], [transport] and [new_blk] are the
    configuration space and the driver of the virtio-drivers crate. *)
Section PciProbe.
Context {Drv : Type} `{!Block.VirtIOBlk Drv}.
Context (enumerate_bus : Z → list (Z * bool)) (bars_of : Z → option (list (option BarInfo)))
  (pci_transport : Z → list (Z * Z) → Z → bool) (new_pci_blk : Z → VirtioError + Drv).
Implicit Types (d : Block.VirtioBlockDevice Drv).

Fixpoint pci_devices (devices : list (Z * bool)) (allocator : PciBarAllocator) d : outcome unit * Block.VirtioBlockDevice Drv :=
  match devices with
  | [] => (Err Block.ENODEV, d)
  | (_, false) :: devices' => pci_devices devices' allocator d
  | (device_function, true) :: _ =>
      match allocate_virtio_bars (bars_of device_function) allocator with
      | Ok (command, _, words) =>
          if pci_transport device_function words command then
            match new_pci_blk device_function with
            | inl e => (Err (virtio_error_to_errno e), d)
            | inr driver =>
                (Ok tt, Block.mkVirtioBlock (match Block.vb_state d with Some v => Some v | None => Some driver end) 0
                          (Block.drv_capacity driver) (Block.drv_readonly driver) (Block.vb_irq d))
            end
          else (Err Block.ENODEV, d)
      | Err e => (Err e, d)
      | Panic => (Panic, d)
      | Diverge => (Diverge, d)
      end
  end.
Definition try_init_pci (host : PciHostConfig) d : outcome unit * Block.VirtioBlockDevice Drv :=
  match bars_new host with
  | Ok None => (Err Block.ENODEV, d)
  | Ok (Some allocator) =>
      pci_devices (seqZ (bus_start host) (bus_end host - bus_start host + 1) ≫= enumerate_bus) allocator d
  | Err e => (Err e, d)
  | Panic => (Panic, d)
  | Diverge => (Diverge, d)
  end.
Definition la_bootstrap (discovery : LoongArchVirtioDiscovery) d : Block.VirtioBlockDevice Drv :=
  match Block.vb_state d with
  | Some _ => d
  | None => match pci_host discovery with None => d | Some host => (try_init_pci host d).2 end
  end.
End PciProbe.

(** ** The windows of the memory registers *)
Definition pow2 (z : Z) : Prop := ∃ k, 0 ≤ k < 63 ∧ z = 2 ^ k.
(** The window stays below 2^63, so that no sum overflows. *)
Definition bars_ok (b : PciBarAllocator) : Prop := 0 ≤ mmio_next b ∧ mmio_limit b < 2 ^ 63.

Lemma alloc_memory_spec size t b start b' : pow2 size → bars_ok b → alloc_memory size t b = Ok (Some start, b') →
  mmio_next b ≤ start ∧ (size | start) ∧ (0x1000 | start) ∧ start + size ≤ mmio_limit b ∧
  mmio_next b' = start + size ∧ mmio_limit b' = mmio_limit b ∧ bars_ok b' ∧ used_mem b' = true.
Proof.
  intros (k & Hk & ->) [Hn Hl]. unfold alloc_memory, align_up_u64. pose proof (Z.pow_pos_nonneg 2 k ltac:(lia) ltac:(lia)).
  assert (Z.max (2 ^ k) 0x1000 = 2 ^ Z.max k 12) as Hmax.
  { change 0x1000 with (2 ^ 12). destruct (decide (k ≤ 12)).
    - rewrite (Z.max_r k) by lia. apply Z.max_r, Z.pow_le_mono_r; lia.
    - rewrite (Z.max_l k) by lia. apply Z.max_l, Z.pow_le_mono_r; lia. }
  rewrite Hmax. destruct (decide (mmio_next b + 2 ^ Z.max k 12 ≤ USIZE_MAX)) as [Hle|Hgt].
  2: { rewrite align_up_overflow by lia. done. }
  rewrite align_up_pow2 by (unfold is_usize; lia). cbn [mbind outcome_bind].
  destruct (round_up_spec (mmio_next b) (2 ^ Z.max k 12)) as [Hr Hdiv]; [apply Z.pow_pos_nonneg; lia|].
  set (st := round_up _ _) in *. intros Ha.
  assert ((mmio_limit b <? st + 2 ^ k) = false ∧ start = st ∧ b' = mkBars (st + 2 ^ k) (mmio_limit b) (io_next b) (io_limit b) true (used_io b))
    as (Hlim & -> & ->).
  { destruct (match t with Below1MiB => _ | _ => _ end) as [[]| | |]; cbn [mbind outcome_bind] in Ha; try done.
    unfold checked_add in Ha. destruct (_ <=? USIZE_MAX); [|done]. destruct (mmio_limit b <? _); [done|]. by injection Ha as <- <-. }
  apply Z.ltb_ge in Hlim. simpl. split_and!; [lia| | |lia|done|done|split; simpl; lia|done].
  - etrans; [|exact Hdiv]. exists (2 ^ (Z.max k 12 - k)). rewrite <- Z.pow_add_r by lia. f_equal. lia.
  - etrans; [|exact Hdiv]. exists (2 ^ (Z.max k 12 - 12)). change 0x1000 with (2 ^ 12). rewrite <- Z.pow_add_r by lia. f_equal. lia.
Qed.

(** A register that got a window: its index, its type, the window. *)
Record grant := mkGrant { g_index : Z; g_type : MemoryBarType; g_start : Z; g_size : Z }.

(** The device decodes the address [a] from its words: a 64-bit register from
    two of them, another register from one. *)
Definition decodes (words : list (Z * Z)) (g : grant) (a : Z) : Prop :=
  ∃ low, (0x10 + 4 * g_index g, low) ∈ words ∧
    match g_type g with
    | Width64 => ∃ high, (0x10 + 4 * (g_index g + 1), high) ∈ words ∧ Z.ldiff low 15 + high * 2 ^ 32 = a
    | _ => Z.ldiff low 15 = a
    end.
(** The address that fits the register: a register of one word loses the upper half. *)
Definition truncated (g : grant) : Z := match g_type g with Width64 => g_start g | _ => g_start g mod 2 ^ 32 end.
Lemma truncated_small g : 0 ≤ g_start g < 2 ^ 32 → truncated g = g_start g.
Proof. unfold truncated. intros. destruct (g_type g); [apply Z.mod_small; lia..|done]. Qed.
Definition bar_sizes_ok (bars : list (option BarInfo)) : Prop :=
  ∀ t p size, Some (BarMemory t p size) ∈ bars → pow2 size.

Lemma low_word address flags : 0 ≤ address → (0x1000 | address) → 0 ≤ flags < 16 →
  Z.ldiff (Z.lor (Z.ldiff (address mod 2 ^ 32) 15) flags) 15 = address mod 2 ^ 32.
Proof.
  intros Ha [q Hq] Hf. apply Z.bits_inj'. intros n Hn. rewrite Z.ldiff_spec, Z.lor_spec, Z.ldiff_spec.
  change 15 with (Z.ones 4). destruct (decide (n < 4)).
  - rewrite Z.ones_spec_low, andb_false_r by lia. symmetry. rewrite Z.mod_pow2_bits_low by lia.
    rewrite Hq. change 0x1000 with (2 ^ 12). apply Z.mul_pow2_bits_low. lia.
  - rewrite Z.ones_spec_high by lia. cbn [negb]. rewrite !andb_true_r.
    assert (Z.testbit flags n = false) as ->; [|apply orb_false_r].
    destruct (decide (flags = 0)) as [->|]; [apply Z.bits_0|]. apply Z.bits_above_log2; [lia|].
    apply Z.log2_lt_pow2; [lia|]. apply Z.lt_le_trans with (2 ^ 4); [lia|apply Z.pow_le_mono_r; lia].
Qed.

Lemma memory_bar_decodes index t prefetchable start size : 0 ≤ start < 2 ^ 63 → (0x1000 | start) →
  decodes (write_memory_bar index start (Z.lor (Z.shiftl (bar_type_bits t) 1) (if prefetchable : bool then 8 else 0))) (mkGrant index t start size) (truncated (mkGrant index t start size)).
Proof.
  intros Hs Hd. set (flags := Z.lor _ _). assert (0 ≤ flags < 16) as Hf by (unfold flags; destruct t, prefetchable; vm_compute; done).
  assert (t = Width64 → Z.testbit flags 2 = true) as Hbit by (intros ->; unfold flags; by destruct prefetchable).
  eexists. split; [by left|]. unfold truncated. cbn [g_type g_start g_index]. rewrite low_word by (done || lia).
  destruct t; [done..|]. unfold write_memory_bar. rewrite Hbit by done.
  eexists. split; [by right; left|]. rewrite Z.shiftr_div_pow2 by lia.
  rewrite (Z.mod_small (start / 2 ^ 32)).
  2: { split; [apply Z.div_pos; lia|apply Z.div_lt_upper_bound; lia]. }
  pose proof (Z.div_mod start (2 ^ 32) ltac:(lia)). lia.
Qed.

(** The memory registers of a device, with the indices they have. *)
Fixpoint memory_bars (bars : list (option BarInfo)) (index : Z) : list (Z * MemoryBarType * Z) :=
  match bars with
  | [] => []
  | Some (BarMemory Width64 _ size) :: _ :: bars' => (index, Width64, size) :: memory_bars bars' (index + 2)
  | Some (BarMemory t _ size) :: bars' => (index, t, size) :: memory_bars bars' (index + 1)
  | _ :: bars' => memory_bars bars' (index + 1)
  end.

Definition grants_ok (b : PciBarAllocator) (words : list (Z * Z)) (gs : list grant) : Prop :=
  (∀ g, g ∈ gs → 0 < g_size g ∧ decodes words g (truncated g) ∧ (g_size g | g_start g) ∧ mmio_next b ≤ g_start g ∧ g_start g + g_size g ≤ mmio_limit b) ∧
  StronglySorted (fun g g' => g_start g + g_size g ≤ g_start g') gs.

Lemma decodes_mono words words' g a : words ⊆ words' → decodes words g a → decodes words' g a.
Proof. intros Hsub (low & Hl & Hrest). exists low. split; [by apply Hsub|]. destruct (g_type g); [done..|]. naive_solver. Qed.

Lemma grants_cons b b' words g gs : decodes words g (truncated g) → (g_size g | g_start g) → mmio_next b ≤ g_start g →
  g_start g + g_size g ≤ mmio_limit b → 0 < g_size g → mmio_next b' = g_start g + g_size g → mmio_limit b' = mmio_limit b →
  grants_ok b' words gs → grants_ok b words (g :: gs).
Proof.
  intros Hd Hdiv Hn Hl Hsz Hn' Hl' [Hgs Hss]. split.
  - intros g' [->|Hg']%elem_of_cons; [done|]. destruct (Hgs g' Hg') as (? & ? & ? & ? & ?). split_and!; [done..|lia|lia].
  - constructor; [done|]. apply Forall_forall. intros g' Hg'. destruct (Hgs g' Hg') as (_ & _ & _ & ? & _). lia.
Qed.

Lemma bars_loop_spec n bars index b words b' words' : (length bars ≤ n)%nat → bars_ok b → bar_sizes_ok bars →
  bars_loop bars index b words = Ok (b', words') →
  words ⊆ words' ∧ ∃ gs, grants_ok b words' gs ∧ (fun g => (g_index g, g_type g, g_size g)) <$> gs = memory_bars bars index.
Proof.
  revert bars index b words. induction n as [|n IH]; intros bars index b words Hlen Hok Hsz.
  { destruct bars; [|simpl in Hlen; lia]. intros [= <- <-]. split; [done|]. exists []. split; [split; [by intros g ?%not_elem_of_nil|constructor]|done]. }
  destruct bars as [|[[t p size|size]|] bars]; cbn [bars_loop].
  - intros [= <- <-]. split; [done|]. exists []. split; [split; [by intros g ?%not_elem_of_nil|constructor]|done].
  - assert (pow2 size) as Hp by (eapply Hsz; by left).
    destruct (alloc_memory size t b) as [[[start|] b1]| | |] eqn:Ha; try done. cbn [mbind outcome_bind]. intros Hloop.
    destruct (alloc_memory_spec _ _ _ _ _ Hp Hok Ha) as (Hn & Hdiv & Hpage & Hlim & Hn1 & Hl1 & Hok1 & _).
    assert (0 < size) as Hpos by (destruct Hp as (k & ? & ->); apply Z.pow_pos_nonneg; lia).
    set (ws := words ++ write_memory_bar index start _) in *.
    assert (∃ bars2 step, bars_loop bars2 (index + step) b1 ws = Ok (b', words') ∧ (length bars2 ≤ n)%nat ∧ bar_sizes_ok bars2 ∧
      memory_bars (Some (BarMemory t p size) :: bars) index = (index, t, size) :: memory_bars bars2 (index + step))
      as (bars2 & step & Hloop2 & Hlen2 & Hsz2 & Hm).
    { simpl in Hlen. assert (bar_sizes_ok bars) by (intros t' p' s' ?; eapply Hsz; by right).
      destruct t, bars as [|x bars];
        [exists [], 1|exists (x :: bars), 1|exists [], 1|exists (x :: bars), 1|exists [], 1|exists bars, 2];
        (split_and!; [done|simpl in *; lia| |done]); try done.
      intros t' p' s' ?. eapply Hsz. by right; right. }
    destruct (IH bars2 (index + step) b1 ws Hlen2 Hok1 Hsz2 Hloop2) as [Hsub (gs & Hgs & Hmap)].
    split; [etrans; [|exact Hsub]; unfold ws; set_solver|].
    exists (mkGrant index t start size :: gs). split.
    + destruct Hok as [? ?]. eapply grants_cons; try done.
      eapply decodes_mono; [|apply memory_bar_decodes; [lia|done]]. etrans; [|exact Hsub]. unfold ws. apply list_subseteq_app_r. reflexivity.
    + by rewrite fmap_cons, Hmap, Hm.
  - destruct (alloc_io size b) as [[[address|] b1]| | |] eqn:Ha; try done. cbn [mbind outcome_bind]. intros Hloop.
    assert (mmio_next b1 = mmio_next b ∧ mmio_limit b1 = mmio_limit b) as [Hn Hl].
    { revert Ha. unfold alloc_io. destruct (_ =? 0); [done|]. destruct (align_up_u32 _ _); simpl; try done.
      destruct (_ <? _); [done|]. destruct (_ <? _); [done|]. by intros [= _ <-]. }
    destruct (IH bars (index + 1) b1 (words ++ [(0x10 + 4 * index, Z.lor address 1)])) as [Hsub (gs & [Hgs Hss] & Hmap)];
      [simpl in *; lia|unfold bars_ok in *; by rewrite Hn, Hl|intros ? ? ? ?; eapply Hsz; by right|done|].
    split; [etrans; [|exact Hsub]; set_solver|]. exists gs. split; [split; [by rewrite <- Hn, <- Hl|done]|]. done.
  - intros Hloop. destruct (IH bars (index + 1) b words) as [Hsub Hgs];
      [simpl in *; lia|done|intros ? ? ? ?; eapply Hsz; by right|done|]. done.
Qed.

(** C37: When the registers of a device are assigned, each memory register gets a
    window of its size, aligned to it and inside the window of the host bridge,
    the windows are disjoint, and the command turns on exactly the spaces that
    were used. A 64-bit register decodes to its window, a register of one word
    to the address of the window modulo 2^32, which is the window itself when
    the bridge's window ends below 2^32. The sizes are powers of two, as PCI
    has it, and the bridge's window ends below 2^63. *)
Theorem bars_assigned host b bars command b' words : bars_new host = Ok (Some b) → bars_ok b → bar_sizes_ok bars →
  allocate_virtio_bars (Some bars) b = Ok (command, b', words) →
  command = bars_command b' ∧ ∃ mmio gs, pci_mmio host = Some mmio ∧
    (fun g => (g_index g, g_type g, g_size g)) <$> gs = memory_bars bars 0 ∧
    (∀ g, g ∈ gs → 0 < g_size g ∧ decodes words g (truncated g) ∧ (g_size g | g_start g) ∧ window_base mmio ≤ g_start g ∧
       g_start g + g_size g ≤ window_base mmio + window_size mmio) ∧
    (∀ g, g ∈ gs → g_type g = Width64 ∨ window_base mmio + window_size mmio ≤ 2 ^ 32 → decodes words g (g_start g)) ∧
    ∀ i j g g', (i < j)%nat → gs !! i = Some g → gs !! j = Some g' → g_start g + g_size g ≤ g_start g'.
Proof.
  intros Hnew Hok Hsz Ha. unfold allocate_virtio_bars in Ha. apply bind_Ok in Ha as ([b1 ws] & Hloop & [= <- <- <-]). split; [done|].
  destruct (bars_loop_spec _ _ _ _ _ _ _ (le_n _) Hok Hsz Hloop) as [_ (gs & [Hgs Hss] & Hmap)].
  revert Hnew. unfold bars_new. destruct (pci_mmio host) as [mmio|]; [|done]. intros Hnew. inv_bind.
  exists mmio, gs. split_and!; [done|done|exact Hgs| |].
  { intros g Hg Hw. destruct (Hgs g Hg) as (Hpos & Hd & _ & Hlo & Hhi). destruct Hok as [Hbase _]. simpl in Hlo, Hhi, Hbase.
    destruct Hw as [Hw|Hw]; [unfold truncated in Hd; by rewrite Hw in Hd|]. by rewrite truncated_small in Hd by lia. }
  clear -Hss. induction Hss as [|g0 gs Hss IH Hall]; [done|].
  intros [|i] [|j] g g' Hij Hi Hj; simpl in *; try lia; [|apply (IH i j); (done || lia)].
  simplify_eq. rewrite Forall_forall in Hall. apply Hall. by eapply list_elem_of_lookup_2.
Qed.

(** The windows of the fallback configuration and a device with a 16 KiB
    64-bit register after a 4 KiB one. *)
Definition sample_bars : list (option BarInfo) :=
  [Some (BarMemory Width32 false 0x1000); None; Some (BarMemory Width64 true 0x4000); None; Some (BarIO 32); None].
Definition sample_host : PciHostConfig :=
  mkPciHost 0x20000000 0x08000000 0 0x7f (Some (mkWindow 0x18004000 0xc000)) (Some (mkWindow 0x40000000 0x40000000)).
Definition sample_allocator : PciBarAllocator := mkBars 0x40000000 0x80000000 0x18004000 0x18010000 false false.

Lemma bars_assigned_witness : ∃ command b' words gs,
  allocate_virtio_bars (Some sample_bars) sample_allocator = Ok (command, b', words) ∧ command = 7 ∧
  (fun g => (g_index g, g_type g, g_size g)) <$> gs = [(0, Width32, 0x1000); (2, Width64, 0x4000)] ∧
  (∀ g, g ∈ gs → decodes words g (g_start g)).
Proof.
  destruct (allocate_virtio_bars (Some sample_bars) sample_allocator) as [[[command b'] words]| | |] eqn:Ha;
    [|vm_compute in Ha; discriminate..].
  destruct (bars_assigned sample_host sample_allocator sample_bars command b' words eq_refl) as [Hc (mmio & gs & Hmm & Hmap & _ & Hgs & _)].
  - split; vm_compute; [discriminate|reflexivity].
  - intros t p size Hin. assert (size = 2 ^ 12 ∨ size = 2 ^ 14) as [-> | ->]; [|by exists 12|by exists 14].
    repeat (apply elem_of_cons in Hin as [[= -> -> ->]|Hin] || apply elem_of_cons in Hin as [Hno|Hin]); try discriminate;
      [by left|by right|by apply not_elem_of_nil in Hin].
  - exact Ha.
  - exists command, b', words, gs. split; [reflexivity|]. split; [|split; [exact Hmap|intros g Hg; apply Hgs; [done|right; injection Hmm as <-; vm_compute; discriminate]]].
    vm_compute in Ha. by injection Ha as <- _ _.
Defined.
End Platform.
