(* ===== verification/Asm.v ===== *)
(** * Assembly (crates/hal-riscv64-virt, crates/hal-loongarch64-virt)

    A machine with general and floating-point registers, control registers and
    a memory of 64-bit words, and the instructions that the trap entries of the
    two platforms use.  Code without loops is a list of instructions.  The
    lemmas are about blocks of loads and stores, of which the entries consist. *)

From S2P Require Import Prelude Process.

Open Scope list_scope.
Open Scope Z_scope.

Module Asm.
Import Proc.

(** ** The machine *)
Definition wrap (z : Z) : Z := z mod 2 ^ 64.
Definition upd (f : Z → Z) (k v : Z) : Z → Z := fun x => if x =? k then v else f x.
(** Words of memory are named by their addresses; every access of the entries
    is to an aligned word. *)
Record machine := mkMachine { gpr : Z → Z; fpr : Z → Z; csr : Z → Z; mem : Z → Z }.
Definition get (m : machine) (r : Z) : Z := if r =? 0 then 0 else gpr m r.
Definition set (r v : Z) (m : machine) : machine :=
  if r =? 0 then m else mkMachine (upd (gpr m) r v) (fpr m) (csr m) (mem m).
Definition set_fpr (r v : Z) (m : machine) : machine := mkMachine (gpr m) (upd (fpr m) r v) (csr m) (mem m).
Definition set_csr (c v : Z) (m : machine) : machine := mkMachine (gpr m) (fpr m) (upd (csr m) c v) (mem m).
Definition set_mem (a v : Z) (m : machine) : machine := mkMachine (gpr m) (fpr m) (csr m) (upd (mem m) a v).
Definition addr (m : machine) (base off : Z) : Z := wrap (get m base + off).

Inductive instr :=
  | Load (rd base off : Z) | Store (rs base off : Z)
  | FLoad (fd base off : Z) | FStore (fs base off : Z)
  | AddrOf (rd a : Z) | LoadImm (rd v : Z) | Move (rd rs : Z)
  | AddI (rd rs imm : Z) | OrI (rd rs imm : Z) | AndI (rd rs imm : Z) | ShiftRightI (rd rs n : Z)
  | Or (rd rs1 rs2 : Z) | And (rd rs1 rs2 : Z)
  (** [CsrSwap rd c rs] puts [rs] into the register and its old value into [rd]. *)
  | CsrRead (rd c : Z) | CsrWrite (c rs : Z) | CsrSwap (rd c rs : Z)
  (** Over the next instructions when the register is not zero. *)
  | SkipIfNonzero (rs : Z) (n : nat)
  | Call (callee : machine → machine)
  | Return (link : Z) | TrapReturn.

(** Where the code ends: in the caller, or with the return from a trap. *)
Inductive ending := ToCaller (address : Z) | FromTrap.

Definition privileged_instr (i : instr) : bool :=
  match i with CsrRead _ _ | CsrWrite _ _ | CsrSwap _ _ _ | TrapReturn => true | _ => false end.

Section Exec.
(** Whether the machine runs with the privilege of the kernel; a privileged
    instruction without it is an exception. *)
Context (privileged : machine → bool).

Definition step (i : instr) (m : machine) : machine :=
  match i with
  | Load rd base off => set rd (mem m (addr m base off)) m
  | Store rs base off => set_mem (addr m base off) (get m rs) m
  | FLoad fd base off => set_fpr fd (mem m (addr m base off)) m
  | FStore fs base off => set_mem (addr m base off) (fpr m fs) m
  | AddrOf rd a => set rd a m
  | LoadImm rd v => set rd (wrap v) m
  | Move rd rs => set rd (get m rs) m
  | AddI rd rs imm => set rd (wrap (get m rs + imm)) m
  | OrI rd rs imm => set rd (Z.lor (get m rs) imm) m
  | AndI rd rs imm => set rd (Z.land (get m rs) imm) m
  | ShiftRightI rd rs n => set rd (Z.shiftr (get m rs) n) m
  | Or rd rs1 rs2 => set rd (Z.lor (get m rs1) (get m rs2)) m
  | And rd rs1 rs2 => set rd (Z.land (get m rs1) (get m rs2)) m
  | CsrRead rd c => set rd (csr m c) m
  | CsrWrite c rs => set_csr c (get m rs) m
  | CsrSwap rd c rs => set rd (csr m c) (set_csr c (get m rs) m)
  | Call callee => callee m
  | SkipIfNonzero _ _ | Return _ | TrapReturn => m
  end.

Fixpoint exec (code : list instr) (skip : nat) (m : machine) : option (ending * machine) :=
  match code with
  | [] => None
  | i :: code' =>
      match skip with
      | S skip' => exec code' skip' m
      | O =>
          if privileged_instr i && negb (privileged m) then None
          else match i with
          | Return link => Some (ToCaller (get m link), m)
          | TrapReturn => Some (FromTrap, m)
          | SkipIfNonzero rs n => exec code' (if get m rs =? 0 then O else n) m
          | _ => exec code' O (step i m)
          end
      end
  end.
Definition run (code : list instr) (m : machine) : option (ending * machine) := exec code O m.
End Exec.

Definition steps (code : list instr) (m : machine) : machine := foldl (fun m i => step i m) m code.

(** ** Registers *)
Lemma upd_eq f k v : upd f k v k = v.
Proof. unfold upd. by rewrite Z.eqb_refl. Qed.
Lemma upd_ne f k v x : x ≠ k → upd f k v x = f x.
Proof. intros Hn. unfold upd. by rewrite (proj2 (Z.eqb_neq x k)). Qed.
Lemma get_set m r v r' : get (set r v m) r' = if (r =? r') && negb (r =? 0) then v else get m r'.
Proof.
  unfold get, set. destruct (Z.eqb_spec r 0) as [->|Hr]; simpl; [by rewrite andb_false_r|].
  rewrite andb_true_r. unfold upd. destruct (Z.eqb_spec r' 0) as [->|Hr'].
  - by rewrite (proj2 (Z.eqb_neq r 0)).
  - by rewrite Z.eqb_sym.
Qed.
Lemma get_gpr m m' r : gpr m' = gpr m → get m' r = get m r. Proof. unfold get. by intros ->. Qed.
Lemma fpr_set m r v : fpr (set r v m) = fpr m. Proof. unfold set. by destruct (r =? 0). Qed.
Lemma csr_set m r v : csr (set r v m) = csr m. Proof. unfold set. by destruct (r =? 0). Qed.
Lemma mem_set m r v : mem (set r v m) = mem m. Proof. unfold set. by destruct (r =? 0). Qed.

Lemma get_set_mem m a v r : get (set_mem a v m) r = get m r. Proof. done. Qed.
Lemma get_set_csr m c v r : get (set_csr c v m) r = get m r. Proof. done. Qed.
Lemma mem_set_mem m a v : mem (set_mem a v m) = upd (mem m) a v. Proof. done. Qed.
Lemma mem_set_csr m c v : mem (set_csr c v m) = mem m. Proof. done. Qed.
Lemma csr_set_mem m a v : csr (set_mem a v m) = csr m. Proof. done. Qed.
Lemma csr_set_csr m c v : csr (set_csr c v m) = upd (csr m) c v. Proof. done. Qed.
Lemma fpr_set_mem m a v : fpr (set_mem a v m) = fpr m. Proof. done. Qed.
Lemma fpr_set_csr m c v : fpr (set_csr c v m) = fpr m. Proof. done. Qed.
Create Rewrite HintDb asm.
#[export] Hint Rewrite get_set get_set_mem get_set_csr mem_set mem_set_mem mem_set_csr csr_set csr_set_mem csr_set_csr fpr_set fpr_set_mem fpr_set_csr : asm.
(** The effect of a few instructions on one part of the machine. *)
Ltac asm_eval := unfold steps; cbn [foldl step app]; unfold addr; autorewrite with asm.

(** ** Blocks of loads and stores: pairs of a register and an offset *)
Definition loads_from (base : Z) (l : list (Z * Z)) : list instr := (fun '(r, off) => Load r base off) <$> l.
Definition stores_to (base : Z) (l : list (Z * Z)) : list instr := (fun '(r, off) => Store r base off) <$> l.
Definition floads_from (base : Z) (l : list (Z * Z)) : list instr := (fun '(r, off) => FLoad r base off) <$> l.
Definition fstores_to (base : Z) (l : list (Z * Z)) : list instr := (fun '(r, off) => FStore r base off) <$> l.

Definition straight (i : instr) : bool := match i with SkipIfNonzero _ _ | Return _ | TrapReturn => false | _ => true end.
(** Instructions that leave a control register alone. *)
Definition keeps_csr (c : Z) (i : instr) : bool :=
  match i with CsrWrite c' _ | CsrSwap _ c' _ => negb (c' =? c) | Call _ => false | _ => true end.
Lemma step_keeps_csr c i m : keeps_csr c i = true → csr (step i m) c = csr m c.
Proof.
  destruct i; simpl; rewrite ?csr_set; try done; intros Hk%negb_true_iff%Z.eqb_neq; simpl; by rewrite upd_ne by lia.
Qed.
Lemma steps_keep_csr c code m : forallb (keeps_csr c) code = true → csr (steps code m) c = csr m c.
Proof.
  revert m. induction code as [|i code IH]; intros m; [done|]. simpl. intros [Hi Hc]%andb_true_iff.
  change (steps (i :: code) m) with (steps code (step i m)). rewrite IH by done. by apply step_keeps_csr.
Qed.
(** Straight code runs to its end where the privilege, a function of one
    control register, is there and stays. *)
Lemma run_steps p c code rest m : (∀ m1 m2, csr m1 c = csr m2 c → p m1 = p m2) → p m = true →
  forallb (fun i => straight i && keeps_csr c i) code = true → run p (code ++ rest) m = run p rest (steps code m).
Proof.
  unfold run. intros Hp. revert m. induction code as [|i code IH]; intros m Hm; [done|].
  cbn [forallb]. intros [[Hs Hk]%andb_true_iff Hc]%andb_true_iff.
  change (steps (i :: code) m) with (steps code (step i m)). rewrite <- IH; [|rewrite <- Hm; apply Hp; by apply step_keeps_csr|done].
  cbn [app exec]. rewrite Hm, andb_false_r. by destruct i.
Qed.
Lemma steps_app c1 c2 m : steps (c1 ++ c2) m = steps c2 (steps c1 m).
Proof. apply foldl_app. Qed.

Lemma addr_inj m base o1 o2 : 0 ≤ o1 < 2 ^ 63 → 0 ≤ o2 < 2 ^ 63 → addr m base o1 = addr m base o2 → o1 = o2.
Proof.
  unfold addr, wrap. intros H1 H2 He.
  assert ((o1 - o2) mod 2 ^ 64 = 0) as Hz.
  { replace (o1 - o2) with ((get m base + o1) - (get m base + o2)) by lia. by rewrite Zminus_mod, He, Z.sub_diag. }
  apply Z.mod_divide in Hz as [k Hk]; lia.
Qed.
Lemma addr_set m r v base off : base ≠ r → addr (set r v m) base off = addr m base off.
Proof. intros Hn. unfold addr. rewrite get_set, (proj2 (Z.eqb_neq r base)) by done. done. Qed.

(** A block of loads fills its registers from the words at the base. *)
Lemma loads_spec base l m : base ∉ l.*1 → NoDup l.*1 → 0 ∉ l.*1 →
  let m' := steps (loads_from base l) m in
  (∀ r off, (r, off) ∈ l → get m' r = mem m (addr m base off)) ∧ (∀ r, r ∉ l.*1 → get m' r = get m r) ∧
  fpr m' = fpr m ∧ csr m' = csr m ∧ mem m' = mem m.
Proof.
  revert m. induction l as [|[r off] l IH]; intros m Hb Hd Hz; [split_and!; try done; by intros ?? ?%elem_of_nil|].
  change (steps (loads_from base ((r, off) :: l)) m) with (steps (loads_from base l) (step (Load r base off) m)).
  cbn [fmap list_fmap fst snd] in *.
  apply not_elem_of_cons in Hb as [Hbr Hb]. apply not_elem_of_cons in Hz as [Hr0 Hz]. apply NoDup_cons in Hd as [Hr Hd].
  destruct (IH (step (Load r base off) m) Hb Hd Hz) as (Hin & Hout & Hf & Hc & Hm). cbn [step] in *.
  rewrite fpr_set in Hf. rewrite csr_set in Hc. rewrite mem_set in Hm. split_and!; try done.
  - intros r' off' [[= -> ->]|Hin']%elem_of_cons.
    + rewrite Hout by done. rewrite get_set, Z.eqb_refl, (proj2 (Z.eqb_neq r 0)) by done. done.
    + rewrite (Hin r' off') by done. by rewrite mem_set, addr_set.
  - intros r' [Hne Hr']%not_elem_of_cons. rewrite Hout by done. rewrite get_set.
    by rewrite (proj2 (Z.eqb_neq r r')) by done.
Qed.
Lemma floads_spec base l m : NoDup l.*1 →
  let m' := steps (floads_from base l) m in
  (∀ r off, (r, off) ∈ l → fpr m' r = mem m (addr m base off)) ∧ (∀ r, r ∉ l.*1 → fpr m' r = fpr m r) ∧
  gpr m' = gpr m ∧ csr m' = csr m ∧ mem m' = mem m.
Proof.
  revert m. induction l as [|[r off] l IH]; intros m Hd; [split_and!; try done; by intros ?? ?%elem_of_nil|].
  change (steps (floads_from base ((r, off) :: l)) m) with (steps (floads_from base l) (step (FLoad r base off) m)).
  cbn [fmap list_fmap fst snd] in *. apply NoDup_cons in Hd as [Hr Hd].
  destruct (IH (step (FLoad r base off) m) Hd) as (Hin & Hout & Hg & Hc & Hm). cbn [step] in *. split_and!; try done.
  - intros r' off' [[= -> ->]|Hin']%elem_of_cons; [rewrite Hout by done; apply upd_eq | by apply Hin].
  - intros r' [Hne Hr']%not_elem_of_cons. rewrite Hout by done. by apply upd_ne.
Qed.
(** A block of stores, of either kind of register, writes their values behind
    the base and changes nothing else. *)
Definition offsets_fit (l : list (Z * Z)) : Prop := NoDup l.*2 ∧ Forall (fun '(_, off) => 0 ≤ off < 2 ^ 63) l.
Lemma block_stores (st : Z → Z → Z → instr) (value : machine → Z → Z) base l m :
  (∀ r off m, step (st r base off) m = set_mem (addr m base off) (value m r) m) →
  (∀ a v r m, value (set_mem a v m) r = value m r) → offsets_fit l →
  let m' := steps ((fun '(r, off) => st r base off) <$> l) m in
  (∀ r off, (r, off) ∈ l → mem m' (addr m base off) = value m r) ∧
  (∀ a, a ∉ addr m base <$> l.*2 → mem m' a = mem m a) ∧ gpr m' = gpr m ∧ fpr m' = fpr m ∧ csr m' = csr m.
Proof.
  intros Hst Hval. revert m. induction l as [|[r off] l IH]; intros m [Hd Hf]; [split_and!; try done; by intros ?? ?%elem_of_nil|].
  change (steps ((fun '(r, off) => st r base off) <$> (r, off) :: l) m) with
    (steps ((fun '(r, off) => st r base off) <$> l) (step (st r base off) m)).
  cbn [fmap list_fmap fst snd] in *. apply NoDup_cons in Hd as [Hr Hd]. apply Forall_cons in Hf as [Ho Hf].
  destruct (IH (step (st r base off) m) (conj Hd Hf)) as (Hin & Hout & Hg & Hfp & Hc). rewrite Hst in *.
  change (addr (set_mem (addr m base off) (value m r) m) base) with (addr m base) in *. split_and!; try done.
  - intros r' off' [[= -> ->]|Hin']%elem_of_cons.
    + rewrite Hout; [apply upd_eq|]. intros (o & He & Ho')%list_elem_of_fmap. apply addr_inj in He as ->; [done|done|].
      apply list_elem_of_fmap in Ho' as ([r1 o1] & -> & Hin1). by apply (proj1 (Forall_forall _ _) Hf) in Hin1.
    + rewrite (Hin r' off') by done. apply Hval.
  - intros a [Hne Ha]%not_elem_of_cons. rewrite Hout by done. by apply upd_ne.
Qed.
Lemma stores_spec base l m : offsets_fit l →
  let m' := steps (stores_to base l) m in
  (∀ r off, (r, off) ∈ l → mem m' (addr m base off) = get m r) ∧
  (∀ a, a ∉ addr m base <$> l.*2 → mem m' a = mem m a) ∧ gpr m' = gpr m ∧ fpr m' = fpr m ∧ csr m' = csr m.
Proof. by apply (block_stores Store get). Qed.
Lemma fstores_spec base l m : offsets_fit l →
  let m' := steps (fstores_to base l) m in
  (∀ r off, (r, off) ∈ l → mem m' (addr m base off) = fpr m r) ∧
  (∀ a, a ∉ addr m base <$> l.*2 → mem m' a = mem m a) ∧ gpr m' = gpr m ∧ fpr m' = fpr m ∧ csr m' = csr m.
Proof. by apply (block_stores FStore fpr). Qed.

(** ** Words at an address *)
Definition words_at (mem : Z → Z) (base : Z) (ws : list Z) : Prop := ∀ i w, ws !! i = Some w → mem (wrap (base + 8 * Z.of_nat i)) = w.
(** The addresses of [n] words. *)
Definition word_addrs (base : Z) (n : nat) : list Z := (fun i => wrap (base + 8 * Z.of_nat i)) <$> seq 0 n.
Lemma words_at_ext mem mem' base ws :
  (∀ a, a ∈ word_addrs base (length ws) → mem' a = mem a) → words_at mem base ws → words_at mem' base ws.
Proof.
  intros He Hw i w Hi. rewrite He; [by apply Hw|]. apply list_elem_of_fmap. exists i. split; [done|].
  apply elem_of_seq. apply lookup_lt_Some in Hi. lia.
Qed.
Lemma words_at_eq mem base ws : mem <$> word_addrs base (length ws) = ws → words_at mem base ws.
Proof.
  intros He i w Hi. pose proof (lookup_lt_Some _ _ _ Hi) as Hl. rewrite <- He in Hi. unfold word_addrs in Hi.
  rewrite !list_lookup_fmap in Hi. rewrite lookup_seq_lt in Hi by done. by injection Hi.
Qed.

(** ** The frame of a program in memory *)
Section Frame.
Implicit Types (m : machine) (f : TrapFrame).
(** The words of a frame, in the order of [TrapFrame]. *)
Definition frame_words (f : TrapFrame) : list Z := regs f ++ [Proc.sepc f; Proc.sstatus f; Proc.scause f; Proc.stval f] ++ fregs f ++ [Proc.fcsr f].
Definition FRAME_WORDS : nat := 69.
Definition frame_wf (f : TrapFrame) : Prop := length (regs f) = 32%nat ∧ length (fregs f) = 32%nat.

Lemma frame_word f i : frame_wf f →
  (0 ≤ i < 32 → frame_words f !! Z.to_nat i = regs f !! Z.to_nat i) ∧
  frame_words f !! 32%nat = Some (Proc.sepc f) ∧ frame_words f !! 33%nat = Some (Proc.sstatus f) ∧
  (0 ≤ i < 32 → frame_words f !! Z.to_nat (36 + i) = fregs f !! Z.to_nat i) ∧ frame_words f !! 68%nat = Some (Proc.fcsr f).
Proof.
  intros [Hr Hf]. unfold frame_words. split_and!.
  - intros Hi. apply lookup_app_l. lia.
  - rewrite lookup_app_r by lia. by rewrite Hr.
  - rewrite lookup_app_r by lia. by rewrite Hr.
  - intros Hi. rewrite lookup_app_r, Hr by lia. rewrite lookup_app_r by (simpl; lia).
    rewrite lookup_app_l by (simpl; lia). f_equal. simpl. lia.
  - rewrite lookup_app_r, Hr by lia. rewrite lookup_app_r by (simpl; lia). rewrite lookup_app_r, Hf by (simpl; lia). done.
Qed.
Lemma wrap_id z : 0 ≤ z < 2 ^ 64 → wrap (z + 0) = z.
Proof. intros Hz. unfold wrap. rewrite Z.add_0_r. by apply Z.mod_small. Qed.
Lemma slot_ne F o1 o2 : o1 ≠ o2 → 0 ≤ o1 < 2 ^ 63 → 0 ≤ o2 < 2 ^ 63 → wrap (F + o1) ≠ wrap (F + o2).
Proof.
  intros Hn H1 H2 He. apply Hn. assert ((o1 - o2) mod 2 ^ 64 = 0) as Hz.
  { replace (o1 - o2) with ((F + o1) - (F + o2)) by lia. unfold wrap in He. by rewrite Zminus_mod, He, Z.sub_diag. }
  apply Z.mod_divide in Hz as [k Hk]; lia.
Qed.
(** The addresses of the words of a frame at the given offsets. *)
Definition slots (F : Z) (offs : list Z) : list Z := (fun o => wrap (F + o)) <$> offs.
(** ** Writes of parts of a frame *)
Definition writes (F : Z) (offs vals : list Z) m m' : Prop :=
  mem m' <$> slots F offs = vals ∧ (∀ a, a ∉ slots F offs → mem m' a = mem m a).
Definition in_frame (offs : list Z) : Prop := Forall (fun o => 0 ≤ o < 2 ^ 63) offs.
Lemma slots_disjoint F o1 o2 a : in_frame o1 → in_frame o2 → o1 ## o2 → a ∈ slots F o1 → a ∉ slots F o2.
Proof.
  unfold in_frame. rewrite !Forall_forall. intros H1 H2 Hd (x & -> & Hx)%list_elem_of_fmap (y & He & Hy)%list_elem_of_fmap.
  destruct (decide (x = y)) as [->|Hne]; [by apply (Hd y)|]. by apply (slot_ne F x y Hne (H1 x Hx) (H2 y Hy)).
Qed.
Lemma writes_app F o1 v1 o2 v2 m m1 m2 : in_frame o1 → in_frame o2 → o1 ## o2 →
  writes F o1 v1 m m1 → writes F o2 v2 m1 m2 → writes F (o1 ++ o2) (v1 ++ v2) m m2.
Proof.
  intros H1 H2 Hd [Hv1 Hk1] [Hv2 Hk2]. unfold writes, slots in *. rewrite fmap_app. split.
  - rewrite fmap_app, Hv2. f_equal. rewrite <- Hv1. apply list_fmap_ext. intros k a Ha%list_elem_of_lookup_2.
    apply Hk2. by apply (slots_disjoint F o1 o2).
  - intros a [Ha1 Ha2]%not_elem_of_app. by rewrite Hk2, Hk1.
Qed.
Lemma block_writes F l m m' (value : machine → Z → Z) :
  (∀ r off, (r, off) ∈ l → mem m' (wrap (F + off)) = value m r) → (∀ a, a ∉ slots F l.*2 → mem m' a = mem m a) →
  writes F l.*2 (value m <$> l.*1) m m'.
Proof.
  intros Hin Hout. split; [|done]. unfold slots. rewrite <- !list_fmap_compose. apply list_fmap_ext.
  intros k [r off] Hk%list_elem_of_lookup_2. by apply Hin.
Qed.
(** Parts that were written one after the other, in the order of the frame. *)
Lemma writes_swap F o1 v1 o2 v2 m m' : length o1 = length v1 → writes F (o1 ++ o2) (v1 ++ v2) m m' → writes F (o2 ++ o1) (v2 ++ v1) m m'.
Proof.
  intros Hl [Hv Hout]. unfold writes, slots in *. rewrite !fmap_app in *. apply app_inj_1 in Hv as [-> ->]; [|by rewrite !length_fmap].
  split; [done|]. intros a Ha. apply Hout. set_solver.
Qed.
(** A block of stores, seen as a write of a part of the frame. *)
Lemma stores_writes base F l m (m' := steps (stores_to base l) m) : offsets_fit l → get m base = F →
  writes F l.*2 (get m <$> l.*1) m m' ∧ gpr m' = gpr m ∧ fpr m' = fpr m ∧ csr m' = csr m.
Proof.
  intros Hl HF. destruct (stores_spec base l m Hl) as (Hin & Hout & Hg & Hf & Hc). split_and!; try done.
  unfold addr in Hin, Hout. rewrite HF in Hin, Hout. by apply (block_writes F l m _ get).
Qed.
Lemma fstores_writes base F l m (m' := steps (fstores_to base l) m) : offsets_fit l → get m base = F →
  writes F l.*2 (fpr m <$> l.*1) m m' ∧ gpr m' = gpr m ∧ fpr m' = fpr m ∧ csr m' = csr m.
Proof.
  intros Hl HF. destruct (fstores_spec base l m Hl) as (Hin & Hout & Hg & Hf & Hc). split_and!; try done.
  unfold addr in Hin, Hout. rewrite HF in Hin, Hout. by apply (block_writes F l m _ fpr).
Qed.
Definition frame_offsets : list Z := (fun i => 8 * i) <$> seqZ 0 69.
Lemma word_addrs_slots F : word_addrs F FRAME_WORDS = slots F frame_offsets.
Proof. reflexivity. Qed.
Lemma writes_words F ws m m' : writes F frame_offsets ws m m' → words_at (mem m') F ws.
Proof.
  intros [Hv _] i w Hi. rewrite <- Hv in Hi. unfold slots, frame_offsets in Hi. rewrite !list_lookup_fmap in Hi.
  apply fmap_Some in Hi as (a & Ha & ->). apply fmap_Some in Ha as (o & Ho & ->). apply fmap_Some in Ho as (k & Hk & ->).
  apply lookup_seqZ in Hk as [-> _]. by f_equal.
Qed.
Lemma not_in_part F offs a : a ∉ word_addrs F FRAME_WORDS → offs ⊆ frame_offsets → a ∉ slots F offs.
Proof.
  rewrite word_addrs_slots. intros Ha Hs Hin. apply Ha. apply list_elem_of_fmap in Hin as (o & -> & Ho).
  apply list_elem_of_fmap. eauto.
Qed.
Lemma part_of_frame (offs : list Z) : bool_decide (Forall (fun o => o ∈ frame_offsets) offs) = true → offs ⊆ frame_offsets.
Proof. intros Hb%bool_decide_eq_true_1 o. rewrite Forall_forall in Hb. apply Hb. Qed.
Lemma parts_apart (o1 o2 : list Z) : bool_decide (Forall (fun o => o ∉ o2) o1) = true → o1 ## o2.
Proof. intros Hb%bool_decide_eq_true_1 o. rewrite Forall_forall in Hb. apply Hb. Qed.

Lemma frame_slot F o : bool_decide (o ∈ frame_offsets) = true → wrap (F + o) ∈ word_addrs F FRAME_WORDS.
Proof. intros Hb%bool_decide_eq_true_1. rewrite word_addrs_slots. apply list_elem_of_fmap. eauto. Qed.
Lemma in_frame_ok offs : bool_decide (Forall (fun o => 0 ≤ o < 2 ^ 63) offs) = true → in_frame offs.
Proof. apply bool_decide_eq_true_1. Qed.

End Frame.
Ltac slots_eval := repeat first [rewrite upd_eq | rewrite upd_ne by (apply slot_ne; lia)].
Ltac slots_other Ha := unfold slots in Ha; cbn [fmap list_fmap] in Ha;
  repeat (apply not_elem_of_cons in Ha as [? Ha]); by rewrite !upd_ne.
Ltac frame_part := lazymatch goal with | |- in_frame _ => apply in_frame_ok; by vm_compute | |- _ => apply parts_apart; by vm_compute end.
End Asm.
