(* ===== verification/AsmRiscv.v ===== *)
(** * Trap entries of riscv64 (crates/hal-riscv64-virt/src/lib.rs: [global_asm])

    The way into a user program and back, and the way of an interrupt through
    the kernel, instruction by instruction. *)

From S2P Require Import Prelude Process Asm.

Open Scope list_scope.
Open Scope Z_scope.

Module AsmRiscv.
Import Proc Asm.

(** Registers and control registers by their numbers. *)
Definition ra : Z := 1.
Definition sp : Z := 2.
Definition gp : Z := 3.
Definition tp : Z := 4.
Definition t0 : Z := 5.
Definition t1 : Z := 6.
Definition t2 : Z := 7.
Definition s0 : Z := 8.
Definition s1 : Z := 9.
Definition a0 : Z := 10.
Definition a1 : Z := 11.
Definition a2 : Z := 12.
Definition a3 : Z := 13.
Definition a4 : Z := 14.
Definition a5 : Z := 15.
Definition a6 : Z := 16.
Definition a7 : Z := 17.
Definition s2 : Z := 18.
Definition s3 : Z := 19.
Definition s4 : Z := 20.
Definition s5 : Z := 21.
Definition s6 : Z := 22.
Definition s7 : Z := 23.
Definition s8 : Z := 24.
Definition s9 : Z := 25.
Definition s10 : Z := 26.
Definition s11 : Z := 27.
Definition t3 : Z := 28.
Definition t4 : Z := 29.
Definition t5 : Z := 30.
Definition t6 : Z := 31.
Definition fcsr : Z := 0x003.
Definition sstatus : Z := 0x100.
Definition stvec : Z := 0x105.
Definition sscratch : Z := 0x140.
Definition sepc : Z := 0x141.
Definition scause : Z := 0x142.
Definition stval : Z := 0x143.

Section Code.
(** The addresses of the symbols. *)
Context (current_frame kernel_ra user_trap_entry : Z).

Definition user_loads : list (Z * Z) :=
  [(ra, 8); (sp, 16); (gp, 24); (tp, 32); (s1, 72); (a0, 80); (a1, 88); (a2, 96); (a3, 104); (a4, 112); (a5, 120); (a6, 128);
   (a7, 136); (s2, 144); (s3, 152); (s4, 160); (s5, 168); (s6, 176); (s7, 184); (s8, 192); (s9, 200); (s10, 208); (s11, 216);
   (t3, 224); (t4, 232); (t5, 240)].
Definition last_loads : list (Z * Z) := [(s0, 64); (t1, 48); (t2, 56); (t0, 40)].
(** f0 at 288 to f31 at 536 *)
Definition float_slots : list (Z * Z) := (fun i => (i, 288 + 8 * i)) <$> seqZ 0 32.
Definition run_user : list instr :=
  [AddrOf t0 current_frame; Store a0 t0 0; AddrOf t0 kernel_ra; Store ra t0 0; AddrOf t0 user_trap_entry; CsrWrite stvec t0;
   CsrWrite sscratch sp; Move t6 a0] ++
  loads_from t6 user_loads ++
  [Load t0 t6 256; CsrWrite sepc t0; Load t0 t6 264; OrI t0 t0 32; LoadImm t2 0x6000; Or t0 t0 t2; CsrWrite sstatus t0] ++
  floads_from t6 float_slots ++
  [Load t1 t6 544; CsrWrite fcsr t1] ++
  loads_from t6 last_loads ++
  [Load t6 t6 248; TrapReturn].

Definition user_stores : list (Z * Z) :=
  [(t2, 56); (s0, 64); (s1, 72); (a0, 80); (a1, 88); (a2, 96); (a3, 104); (a4, 112); (a5, 120); (a6, 128); (a7, 136); (s2, 144);
   (s3, 152); (s4, 160); (s5, 168); (s6, 176); (s7, 184); (s8, 192); (s9, 200); (s10, 208); (s11, 216); (t3, 224); (t4, 232);
   (t5, 240); (t6, 248)].
Definition user_trap : list instr :=
  [CsrSwap sp sscratch sp; AddI sp sp (-16); Store t0 sp 0; Store t1 sp 8; AddrOf t0 current_frame; Load t0 t0 0;
   Store 0 t0 0; Store ra t0 8; CsrRead t1 sscratch; Store t1 t0 16; Store gp t0 24; Store tp t0 32; Load t1 sp 0; Store t1 t0 40;
   Load t1 sp 8; Store t1 t0 48] ++
  stores_to t0 user_stores ++
  [CsrRead t1 sepc; Store t1 t0 256; CsrRead t1 sstatus; Store t1 t0 264; CsrRead t1 scause; Store t1 t0 272; CsrRead t1 stval;
   Store t1 t0 280] ++
  fstores_to t0 float_slots ++
  [CsrRead t1 fcsr; Store t1 t0 544; AddI sp sp 16; AddrOf t0 kernel_ra; Load ra t0 0; Return ra].

Definition kernel_saved : list (Z * Z) :=
  [(ra, 0); (t0, 8); (t1, 16); (t2, 24); (t3, 32); (t4, 40); (t5, 48); (t6, 56); (a0, 64); (a1, 72); (a2, 80); (a3, 88); (a4, 96);
   (a5, 104); (a6, 112); (a7, 120); (s0, 128); (s1, 136); (s2, 144); (s3, 152); (s4, 160); (s5, 168); (s6, 176); (s7, 184);
   (s8, 192); (s9, 200); (s10, 208); (s11, 216)].
Definition kernel_trap (handler : machine → machine) : list instr :=
  [AddI sp sp (-256)] ++ stores_to sp kernel_saved ++
  [CsrRead a0 scause; CsrRead a1 sepc; Call handler] ++
  loads_from sp kernel_saved ++ [AddI sp sp 256; TrapReturn].
End Code.

(** The kernel runs with the privilege of the supervisor. *)
Definition exec_kernel : list instr → machine → option (ending * machine) := run (fun _ => true).
Definition SPIE : Z := 0x20.
(** [sret] goes on with the privilege of bit 8 (SPP) and the interrupts of
    bit 5 (SPIE). *)
Definition sret_kernel (status : Z) : bool := Z.testbit status 8.
Definition sret_interrupts (status : Z) : bool := Z.testbit status 5.

(** ** Into the program *)
Lemma run_riscv code rest m : forallb (fun i => straight i && keeps_csr (-1) i) code = true →
  exec_kernel (code ++ rest) m = exec_kernel rest (steps code m).
Proof. by apply run_steps. Qed.

Section Run.
Context (current_frame kernel_ra user_trap_entry : Z).
Context (Hcf : 0 ≤ current_frame < 2 ^ 64) (Hkr : 0 ≤ kernel_ra < 2 ^ 64) (Hstatics : current_frame ≠ kernel_ra).
Implicit Types (m : machine) (f : TrapFrame).
Abbreviation run_user := (run_user current_frame kernel_ra user_trap_entry).
Abbreviation user_trap := (user_trap current_frame kernel_ra).

(** The code before the loads. *)
Definition entry_code : list instr :=
  [AddrOf t0 current_frame; Store a0 t0 0; AddrOf t0 kernel_ra; Store ra t0 0; AddrOf t0 user_trap_entry; CsrWrite stvec t0;
   CsrWrite sscratch sp; Move t6 a0].
Definition entered m : machine := steps entry_code m.
Lemma entered_mem m : mem (entered m) = upd (upd (mem m) current_frame (get m a0)) kernel_ra (get m ra).
Proof. unfold entered, entry_code. asm_eval. simpl. by rewrite !wrap_id. Qed.
Lemma entered_get m r : get (entered m) r = if r =? t6 then get m a0 else if r =? t0 then user_trap_entry else get m r.
Proof.
  unfold entered, entry_code. asm_eval. rewrite (Z.eqb_sym r t6), (Z.eqb_sym r t0).
  by destruct (t6 =? r), (t0 =? r).
Qed.
Lemma entered_csr m : csr (entered m) = upd (upd (csr m) stvec user_trap_entry) sscratch (get m sp).
Proof. unfold entered, entry_code. asm_eval. done. Qed.
Lemma entered_words m f F : get m a0 = F → frame_wf f → words_at (mem m) F (frame_words f) →
  current_frame ∉ word_addrs F FRAME_WORDS → kernel_ra ∉ word_addrs F FRAME_WORDS → words_at (mem (entered m)) F (frame_words f).
Proof.
  intros HF [H1 H2] Hw Hd1 Hd2. apply (words_at_ext (mem m)); [|done]. rewrite entered_mem. intros a Ha.
  assert (length (frame_words f) = FRAME_WORDS) as Hl by (unfold frame_words; rewrite !length_app, H1, H2; done).
  rewrite Hl in Ha. rewrite !upd_ne; [done|by intros ->..].
Qed.

Definition status_code : list instr :=
  [Load t0 t6 256; CsrWrite sepc t0; Load t0 t6 264; OrI t0 t0 32; LoadImm t2 0x6000; Or t0 t0 t2; CsrWrite sstatus t0].
Definition fcsr_code : list instr := [Load t1 t6 544; CsrWrite fcsr t1].
Lemma run_user_parts : run_user = entry_code ++ loads_from t6 user_loads ++ status_code ++ floads_from t6 float_slots ++ fcsr_code ++
  loads_from t6 last_loads ++ [Load t6 t6 248] ++ [TrapReturn].
Proof. done. Qed.
(** Every register but the base is loaded by one of the two blocks. *)
Lemma loads_cover i : 0 < i < 31 → (i, 8 * i) ∈ last_loads ∨ (i, 8 * i) ∈ user_loads ∧ i ∉ last_loads.*1.
Proof.
  intros Hi. assert (Forall (fun i => (i, 8 * i) ∈ last_loads ∨ (i, 8 * i) ∈ user_loads ∧ i ∉ last_loads.*1) (seqZ 1 30)) as Hall.
  { apply (bool_decide_unpack _). vm_compute. done. }
  rewrite Forall_forall in Hall. apply Hall, elem_of_seqZ. lia.
Qed.

Lemma status_spec m (m' := steps status_code m) :
  (∀ r, r ≠ t0 → r ≠ t2 → get m' r = get m r) ∧ fpr m' = fpr m ∧ mem m' = mem m ∧
  csr m' = upd (upd (csr m) sepc (mem m (addr m t6 256))) sstatus (Z.lor (Z.lor (mem m (addr m t6 264)) SPIE) 0x6000).
Proof.
  unfold m', status_code. split_and!; [intros r H0 H2| | |]; asm_eval; [|done..].
  rewrite (proj2 (Z.eqb_neq t0 r)), (proj2 (Z.eqb_neq t2 r)) by done. done.
Qed.
Lemma fcsr_spec m (m' := steps fcsr_code m) :
  (∀ r, r ≠ t1 → get m' r = get m r) ∧ fpr m' = fpr m ∧ mem m' = mem m ∧ csr m' = upd (csr m) fcsr (mem m (addr m t6 544)).
Proof.
  unfold m', fcsr_code. split_and!; [intros r H1| | |]; asm_eval; [|done..]. by rewrite (proj2 (Z.eqb_neq t1 r)).
Qed.
(** The machine while the frame is loaded: its base and its memory. *)
Definition loading (F : Z) (M : Z → Z) m : Prop := get m t6 = F ∧ mem m = M.
Lemma loading_word F M m f k w : loading F M m → words_at M F (frame_words f) → frame_words f !! k = Some w →
  mem m (addr m t6 (8 * Z.of_nat k)) = w.
Proof. intros [Hb ->] Hw Hk. unfold addr. rewrite Hb. by apply Hw. Qed.

(** Blocks that load registers from their places in the frame. *)
Definition frame_block (l : list (Z * Z)) : Prop :=
  (t6 ∉ l.*1) ∧ NoDup l.*1 ∧ Forall (fun p : Z * Z => p.2 = 8 * p.1 ∧ 0 < p.1 < 32) l.
Lemma blocks_ok : frame_block user_loads ∧ frame_block last_loads.
Proof. split; split_and!; try (by apply (bool_decide_unpack _); vm_compute); repeat constructor. Qed.
Lemma loaded_block l m f F : frame_block l → frame_wf f → get m t6 = F → words_at (mem m) F (frame_words f) →
  let m' := steps (loads_from t6 l) m in
  get m' t6 = F ∧ mem m' = mem m ∧ csr m' = csr m ∧ fpr m' = fpr m ∧ (∀ r, r ∉ l.*1 → get m' r = get m r) ∧
  ∀ i off, (i, off) ∈ l → regs f !! Z.to_nat i = Some (get m' i).
Proof.
  intros (Ht6 & Hd & Hall) Hwf Hb Hw m'. assert (0 ∉ l.*1) as H0.
  { intros ([i off] & He & Hin)%list_elem_of_fmap. simpl in He. subst i. rewrite Forall_forall in Hall. apply Hall in Hin. simpl in Hin. lia. }
  destruct (loads_spec t6 l m Ht6 Hd H0) as (Hin & Hout & Hf & Hc & Hm). split_and!; try done; [by rewrite Hout|].
  intros i off Hi. unfold m'. rewrite (Hin i off) by done. rewrite Forall_forall in Hall. destruct (Hall _ Hi) as [Ho Hr]. simpl in Ho, Hr.
  rewrite Ho. destruct (frame_word f i Hwf) as (Hreg & _). rewrite <- Hreg by lia.
  assert (is_Some (frame_words f !! Z.to_nat i)) as [w Hwd].
  { rewrite Hreg by lia. apply lookup_lt_is_Some. destruct Hwf as [-> _]. lia. }
  rewrite Hwd. f_equal. symmetry. replace (8 * i) with (8 * Z.of_nat (Z.to_nat i)) by lia. unfold addr. rewrite Hb. by apply Hw.
Qed.
Lemma loaded_floats m f F : frame_wf f → get m t6 = F → words_at (mem m) F (frame_words f) →
  let m' := steps (floads_from t6 float_slots) m in
  gpr m' = gpr m ∧ mem m' = mem m ∧ csr m' = csr m ∧ ∀ i, 0 ≤ i < 32 → fregs f !! Z.to_nat i = Some (fpr m' i).
Proof.
  intros Hwf Hb Hw m'. destruct (floads_spec t6 float_slots m) as (Hin & _ & Hg & Hc & Hm); [apply (bool_decide_unpack _); by vm_compute|].
  split_and!; try done. intros i Hi. unfold m'. rewrite (Hin i (288 + 8 * i)).
  2: { apply list_elem_of_fmap. exists i. split; [done|]. apply elem_of_seqZ. lia. }
  destruct (frame_word f i Hwf) as (_ & _ & _ & Hreg & _). rewrite <- Hreg by done.
  assert (is_Some (frame_words f !! Z.to_nat (36 + i))) as [w Hwd].
  { rewrite Hreg by done. apply lookup_lt_is_Some. destruct Hwf as [_ ->]. lia. }
  rewrite Hwd. f_equal. symmetry. replace (288 + 8 * i) with (8 * Z.of_nat (Z.to_nat (36 + i))) by lia. unfold addr. rewrite Hb. by apply Hw.
Qed.

Lemma last_load m f F (m' := steps [Load t6 t6 248] m) : frame_wf f → get m t6 = F → words_at (mem m) F (frame_words f) →
  regs f !! 31%nat = Some (get m' 31) ∧ (∀ r, r ≠ 31 → get m' r = get m r) ∧ fpr m' = fpr m ∧ csr m' = csr m ∧ mem m' = mem m.
Proof.
  intros Hwf Hb Hw. unfold m'. split_and!; asm_eval; try done.
  - destruct (frame_word f 31 Hwf) as (Hreg & _). specialize (Hreg ltac:(lia)). change (Z.to_nat 31) with 31%nat in Hreg. rewrite <- Hreg.
    assert (is_Some (frame_words f !! 31%nat)) as [w Hwd].
    { rewrite Hreg. apply lookup_lt_is_Some. destruct Hwf as [-> _]. lia. }
    rewrite Hwd. rewrite Hb. simpl. f_equal. symmetry. by apply (Hw 31%nat).
  - intros r Hr. asm_eval. by rewrite (proj2 (Z.eqb_neq t6 r)).
Qed.

(** With a frame at the address in [a0], the code leaves with every register
    of the program as in the frame, its floating-point state, its address and
    status; the kernel's stack pointer is kept in [sscratch], and nothing is
    written but the two words that remember the frame and the return address. *)
Theorem run_user_enters m f F : get m a0 = F → frame_wf f → words_at (mem m) F (frame_words f) →
  current_frame ∉ word_addrs F FRAME_WORDS → kernel_ra ∉ word_addrs F FRAME_WORDS →
  ∃ m', exec_kernel run_user m = Some (FromTrap, m') ∧
    (∀ i, 0 < i < 32 → regs f !! Z.to_nat i = Some (get m' i)) ∧ (∀ i, 0 ≤ i < 32 → fregs f !! Z.to_nat i = Some (fpr m' i)) ∧
    csr m' fcsr = Proc.fcsr f ∧ csr m' sepc = Proc.sepc f ∧ csr m' sstatus = Z.lor (Z.lor (Proc.sstatus f) SPIE) 0x6000 ∧
    csr m' stvec = user_trap_entry ∧ csr m' sscratch = get m sp ∧
    mem m' = upd (upd (mem m) current_frame F) kernel_ra (get m ra).
Proof.
  intros HF Hwf Hw Hd1 Hd2. rewrite run_user_parts. rewrite !run_riscv by done. destruct blocks_ok as [Hub Hlb].
  change (steps entry_code m) with (entered m). pose proof (entered_csr m) as Hc1. pose proof (entered_mem m) as Hm1.
  assert (get (entered m) t6 = F) as Hb1 by (by rewrite entered_get).
  assert (words_at (mem (entered m)) F (frame_words f)) as Hw1 by (by apply entered_words).
  generalize dependent (entered m). intros m1 Hc1 Hm1 Hb1 Hw1.
  destruct (loaded_block user_loads m1 f F Hub Hwf Hb1 Hw1) as (Hb2 & Hm2 & Hc2 & _ & Hk2 & Hr2).
  set (m2 := steps (loads_from t6 user_loads) m1) in *. clearbody m2.
  destruct (status_spec m2) as (Hk3 & _ & Hm3 & Hc3). set (m3 := steps status_code m2) in *. clearbody m3.
  assert (words_at (mem m3) F (frame_words f)) as Hw3 by (by rewrite Hm3, Hm2).
  destruct (loaded_floats m3 f F Hwf ltac:(by rewrite Hk3) Hw3) as (Hg4 & Hm4 & Hc4 & Hf4).
  set (m4 := steps (floads_from t6 float_slots) m3) in *. clearbody m4.
  assert (get m4 t6 = F) as Hb4 by (rewrite (get_gpr m3) by done; by rewrite Hk3).
  assert (words_at (mem m4) F (frame_words f)) as Hw4 by (by rewrite Hm4).
  destruct (fcsr_spec m4) as (Hk5 & Hf5 & Hm5 & Hc5). set (m5 := steps fcsr_code m4) in *. clearbody m5.
  assert (∀ r, r ≠ t0 → r ≠ t1 → r ≠ t2 → get m5 r = get m2 r) as Hk.
  { intros r H0 H1 H2. rewrite Hk5, (get_gpr m3) by done. by apply Hk3. }
  assert (words_at (mem m5) F (frame_words f)) as Hw5 by (by rewrite Hm5, Hm4).
  destruct (loaded_block last_loads m5 f F Hlb Hwf ltac:(by rewrite Hk) Hw5) as (Hb6 & Hm6 & Hc6 & Hf6 & Hk6 & Hr6).
  set (m6 := steps (loads_from t6 last_loads) m5) in *. clearbody m6.
  assert (words_at (mem m6) F (frame_words f)) as Hw6 by (by rewrite Hm6).
  exists (steps [Load t6 t6 248] m6). split; [done|]. destruct (last_load m6 f F Hwf Hb6 Hw6) as (Hr7 & Hk7 & Hf7 & Hc7 & Hm7).
  assert (csr (steps [Load t6 t6 248] m6) = upd (upd (upd (csr m1) sepc (Proc.sepc f)) sstatus
    (Z.lor (Z.lor (Proc.sstatus f) SPIE) 0x6000)) fcsr (Proc.fcsr f)) as Hcsr.
  { destruct (frame_word f 0 Hwf) as (_ & E1 & E2 & _ & E3). rewrite Hc7, Hc6, Hc5, Hc4, Hc3, Hc2. f_equal; [f_equal; [f_equal|do 2 f_equal]|].
    - unfold addr. rewrite Hb2, Hm2. by apply (Hw1 32%nat).
    - unfold addr. rewrite Hb2, Hm2. by apply (Hw1 33%nat).
    - unfold addr. rewrite Hb4. by apply (Hw4 68%nat). }
  rewrite Hcsr, Hf7, Hf6, Hf5, Hm7, Hm6, Hm5, Hm4, Hm3, Hm2. rewrite Hc1, Hm1, HF. split_and!; try done.
  intros i Hi. destruct (decide (i = 31)) as [->|H31]; [done|]. rewrite Hk7 by done.
  destruct (loads_cover i ltac:(lia)) as [Hl|[Hu Hl]]; [by apply (Hr6 i (8 * i))|]. rewrite Hk6, Hk by (done || by intros ->; apply Hl; apply (bool_decide_unpack _); vm_compute).
  by apply (Hr2 i (8 * i)).
Qed.

(** ** Back from the program *)
(** What a trap leaves of the program: its registers, the control registers of
    the trap, and the floating-point state, in the order of a frame. *)
Definition saved_words m : list Z :=
  (get m <$> seqZ 0 32) ++ [csr m sepc; csr m sstatus; csr m scause; csr m stval] ++ (fpr m <$> seqZ 0 32) ++ [csr m fcsr].

Definition trap_entry_code : list instr :=
  [CsrSwap sp sscratch sp; AddI sp sp (-16); Store t0 sp 0; Store t1 sp 8; AddrOf t0 current_frame; Load t0 t0 0].
Definition trap_sp_code : list instr := [Store 0 t0 0; Store ra t0 8; CsrRead t1 sscratch; Store t1 t0 16].
Definition trap_t_code : list instr := [Store gp t0 24; Store tp t0 32; Load t1 sp 0; Store t1 t0 40; Load t1 sp 8; Store t1 t0 48].
Definition trap_csr_code : list instr :=
  [CsrRead t1 sepc; Store t1 t0 256; CsrRead t1 sstatus; Store t1 t0 264; CsrRead t1 scause; Store t1 t0 272; CsrRead t1 stval;
   Store t1 t0 280].
Definition trap_exit_code : list instr := [CsrRead t1 fcsr; Store t1 t0 544; AddI sp sp 16; AddrOf t0 kernel_ra; Load ra t0 0].
Lemma user_trap_parts : user_trap = trap_entry_code ++ trap_sp_code ++ trap_t_code ++ stores_to t0 user_stores ++ trap_csr_code ++
  fstores_to t0 float_slots ++ trap_exit_code ++ [Return ra].
Proof. done. Qed.

(** The two words of the kernel stack that the entry uses. *)
Definition stack_slots (ksp : Z) : list Z := [wrap (wrap (ksp + -16) + 0); wrap (wrap (ksp + -16) + 8)].
Lemma trap_entry_spec m F (m' := steps trap_entry_code m) :
  mem m current_frame = F → current_frame ∉ stack_slots (csr m sscratch) →
  get m' t0 = F ∧ get m' sp = wrap (csr m sscratch + -16) ∧ (∀ r, r ≠ sp → r ≠ t0 → get m' r = get m r) ∧ fpr m' = fpr m ∧
  csr m' = upd (csr m) sscratch (get m sp) ∧ (∀ a, a ∉ stack_slots (csr m sscratch) → mem m' a = mem m a) ∧
  mem m' <$> stack_slots (csr m sscratch) = [get m t0; get m t1].
Proof.
  intros HF Hs. unfold stack_slots in *. apply not_elem_of_cons in Hs as [Hs1 Hs2]. apply not_elem_of_cons in Hs2 as [Hs2 _].
  unfold m', trap_entry_code. split_and!; [| |intros r H2 H5| | |intros a Ha|]; asm_eval; try done.
  - simpl. rewrite (wrap_id current_frame) by done. by rewrite !upd_ne.
  - by rewrite (proj2 (Z.eqb_neq t0 r)), (proj2 (Z.eqb_neq sp r)) by done.
  - simpl. apply not_elem_of_cons in Ha as [Ha1 Ha2]. apply not_elem_of_cons in Ha2 as [Ha2 _]. by rewrite !upd_ne.
  - simpl. rewrite upd_eq. rewrite upd_ne by (apply slot_ne; lia). by rewrite upd_eq.
Qed.

Lemma trap_sp_spec m F (m' := steps trap_sp_code m) : get m t0 = F →
  (∀ r, r ≠ t1 → get m' r = get m r) ∧ fpr m' = fpr m ∧ csr m' = csr m ∧
  (∀ a, a ∉ slots F [0; 8; 16] → mem m' a = mem m a) ∧ mem m' <$> slots F [0; 8; 16] = [0; get m ra; csr m sscratch].
Proof.
  intros HF. unfold m', trap_sp_code. split_and!; [intros r Hr| | |intros a Ha|]; asm_eval; try done.
  - by rewrite (proj2 (Z.eqb_neq t1 r)) by done.
  - simpl. rewrite HF. slots_other Ha.
  - simpl. rewrite HF. by slots_eval.
Qed.
Lemma trap_t_spec m F (m' := steps trap_t_code m) : get m t0 = F →
  wrap (get m sp + 0) ∉ slots F [24; 32; 40; 48] → wrap (get m sp + 8) ∉ slots F [24; 32; 40; 48] →
  (∀ r, r ≠ t1 → get m' r = get m r) ∧ fpr m' = fpr m ∧ csr m' = csr m ∧
  (∀ a, a ∉ slots F [24; 32; 40; 48] → mem m' a = mem m a) ∧
  mem m' <$> slots F [24; 32; 40; 48] = [get m gp; get m tp; mem m (wrap (get m sp + 0)); mem m (wrap (get m sp + 8))].
Proof.
  intros HF H1 H2. unfold slots in H1, H2. cbn [fmap list_fmap] in H1, H2.
  repeat (apply not_elem_of_cons in H1 as [? H1]). repeat (apply not_elem_of_cons in H2 as [? H2]).
  unfold m', trap_t_code. split_and!; [intros r Hr| | |intros a Ha|]; asm_eval; try done.
  - by rewrite (proj2 (Z.eqb_neq t1 r)) by done.
  - simpl. rewrite HF. slots_other Ha.
  - simpl. rewrite HF. slots_eval. by rewrite !upd_ne.
Qed.
Definition csr_offsets : list Z := [256; 264; 272; 280].
Lemma trap_csr_spec m F (m' := steps trap_csr_code m) : get m t0 = F →
  (∀ r, r ≠ t1 → get m' r = get m r) ∧ fpr m' = fpr m ∧ csr m' = csr m ∧
  (∀ a, a ∉ slots F csr_offsets → mem m' a = mem m a) ∧
  mem m' <$> slots F csr_offsets = [csr m sepc; csr m sstatus; csr m scause; csr m stval].
Proof.
  intros HF. unfold m', trap_csr_code. split_and!; [intros r Hr| | |intros a Ha|]; asm_eval; try done.
  - by rewrite (proj2 (Z.eqb_neq t1 r)) by done.
  - simpl. rewrite HF. slots_other Ha.
  - simpl. rewrite HF. by slots_eval.
Qed.
Lemma trap_exit_spec m F (m' := steps trap_exit_code m) : get m t0 = F → kernel_ra ≠ wrap (F + 544) →
  get m' ra = mem m kernel_ra ∧ get m' sp = wrap (get m sp + 16) ∧
  (∀ r, r ≠ ra → r ≠ sp → r ≠ t0 → r ≠ t1 → get m' r = get m r) ∧ fpr m' = fpr m ∧ csr m' = csr m ∧
  mem m' = upd (mem m) (wrap (F + 544)) (csr m fcsr).
Proof.
  intros HF Hk. unfold m', trap_exit_code. split_and!; [| |intros r H1 H2 H3 H4| | |]; asm_eval; try done.
  - simpl. rewrite (wrap_id kernel_ra) by done. rewrite HF. by rewrite upd_ne.
  - by rewrite (proj2 (Z.eqb_neq ra r)), (proj2 (Z.eqb_neq sp r)), (proj2 (Z.eqb_neq t0 r)), (proj2 (Z.eqb_neq t1 r)) by done.
  - simpl. by rewrite HF.
Qed.

(** The statics and the part of the kernel stack that the entry uses lie
    outside the frame, and apart from each other. *)
Definition apart (F ksp : Z) : Prop :=
  (kernel_ra ∉ word_addrs F FRAME_WORDS) ∧ (current_frame ∉ stack_slots ksp) ∧ (kernel_ra ∉ stack_slots ksp) ∧
  ∀ a, a ∈ stack_slots ksp → a ∉ word_addrs F FRAME_WORDS.
(** The registers that the entry has not changed when it stores them. *)
Lemma untouched m m1 : (∀ r, r ≠ sp → r ≠ t0 → r ≠ t1 → get m1 r = get m r) → get m1 <$> user_stores.*1 = get m <$> user_stores.*1.
Proof.
  intros Hk. apply list_fmap_ext. intros k r Hr%list_elem_of_lookup_2.
  assert (Forall (fun r => r ≠ sp ∧ r ≠ t0 ∧ r ≠ t1) user_stores.*1) as Hall by (apply (bool_decide_unpack _); by vm_compute).
  rewrite Forall_forall in Hall. destruct (Hall r Hr) as (? & ? & ?). by apply Hk.
Qed.
Lemma user_stores_fit : offsets_fit user_stores. Proof. split; apply (bool_decide_unpack _); by vm_compute. Qed.
Lemma float_slots_fit : offsets_fit float_slots. Proof. split; apply (bool_decide_unpack _); by vm_compute. Qed.
(** The six parts make up the frame. *)
Lemma frame_written F m m1 m2 m3 m4 m5 m6 m7 :
  writes F [0; 8; 16] [0; get m ra; get m sp] m1 m2 →
  writes F [24; 32; 40; 48] [get m gp; get m tp; get m t0; get m t1] m2 m3 →
  writes F user_stores.*2 (get m <$> user_stores.*1) m3 m4 →
  writes F csr_offsets [csr m sepc; csr m sstatus; csr m scause; csr m stval] m4 m5 →
  writes F float_slots.*2 (fpr m <$> float_slots.*1) m5 m6 → writes F [544] [csr m fcsr] m6 m7 →
  writes F frame_offsets (saved_words m) m1 m7.
Proof.
  intros W2 W3 W4 W5 W6 W7.
  refine (writes_app F _ _ _ _ _ _ _ _ _ _ W2 (writes_app F _ _ _ _ _ _ _ _ _ _ W3 (writes_app F _ _ _ _ _ _ _ _ _ _ W4
    (writes_app F _ _ _ _ _ _ _ _ _ _ W5 (writes_app F _ _ _ _ _ _ _ _ _ _ W6 W7))))).
  all: frame_part.
Qed.

(** A trap of the program: its state is in the frame, in the order in which
    the kernel reads it, and the code returns to the caller of [run_user] on
    the kernel's stack.  The caller's other registers hold the values of the
    program. *)
Theorem user_trap_saves m F : mem m current_frame = F → 0 ≤ csr m sscratch < 2 ^ 64 → apart F (csr m sscratch) →
  ∃ m', exec_kernel user_trap m = Some (ToCaller (mem m kernel_ra), m') ∧
    words_at (mem m') F (saved_words m) ∧ get m' sp = csr m sscratch ∧
    (∀ r, r ≠ ra → r ≠ sp → r ≠ t0 → r ≠ t1 → get m' r = get m r) ∧ fpr m' = fpr m ∧
    (∀ a, a ∉ word_addrs F FRAME_WORDS → a ∉ stack_slots (csr m sscratch) → mem m' a = mem m a).
Proof.
  intros HF Hksp (Hkr' & Hcs & Hks & Hss). rewrite user_trap_parts, !run_riscv by done.
  destruct (trap_entry_spec m F HF Hcs) as (Ht1 & Hs1 & Hk1 & Hf1 & Hc1 & Hm1 & Hsl).
  set (m1 := steps trap_entry_code m) in *. clearbody m1.
  destruct (trap_sp_spec m1 F Ht1) as (Hk2 & Hf2 & Hc2 & Hm2 & Hv2). set (m2 := steps trap_sp_code m1) in *. clearbody m2.
  assert (get m2 t0 = F) as Ht2 by (by rewrite Hk2).
  assert (∀ a, a ∈ stack_slots (csr m sscratch) → (a ∉ slots F [24; 32; 40; 48]) ∧ (a ∉ slots F [0; 8; 16])) as Hst.
  { intros a Ha. split; (apply not_in_part; [by apply Hss|by apply part_of_frame]). }
  assert (get m2 sp = wrap (csr m sscratch + -16)) as Hs2 by (by rewrite Hk2).
  unfold stack_slots in Hst, Hsl. rewrite <- Hs2 in Hst, Hsl.
  destruct (trap_t_spec m2 F Ht2) as (Hk3 & Hf3 & Hc3 & Hm3 & Hv3); [apply Hst; left|apply Hst; right; left|].
  set (m3 := steps trap_t_code m2) in *. clearbody m3.
  assert (get m3 t0 = F) as Ht3 by (by rewrite Hk3).
  destruct (stores_writes t0 F user_stores m3 user_stores_fit Ht3) as (W4 & Hg4 & Hf4 & Hc4).
  rewrite (untouched m m3) in W4 by (intros; by rewrite Hk3, Hk2, Hk1).
  set (m4 := steps (stores_to t0 user_stores) m3) in *. clearbody m4.
  assert (get m4 t0 = F) as Ht4 by (by rewrite (get_gpr m3)).
  destruct (trap_csr_spec m4 F Ht4) as (Hk5 & Hf5 & Hc5 & Hm5 & Hv5). set (m5 := steps trap_csr_code m4) in *. clearbody m5.
  assert (get m5 t0 = F) as Ht5 by (by rewrite Hk5).
  destruct (fstores_writes t0 F float_slots m5 float_slots_fit Ht5) as (W6 & Hg6 & Hf6 & Hc6).
  set (m6 := steps (fstores_to t0 float_slots) m5) in *. clearbody m6.
  assert (get m6 t0 = F) as Ht6 by (by rewrite (get_gpr m5)).
  assert (csr m6 = upd (csr m) sscratch (get m sp)) as Hcsr by congruence. assert (fpr m5 = fpr m) as Hfpr by congruence.
  destruct (trap_exit_spec m6 F Ht6) as (Hra & Hsp & Hk7 & Hf7 & _ & Hm7); [intros He; apply Hkr'; rewrite He; by apply (frame_slot F 544)|].
  set (m7 := steps trap_exit_code m6) in *. clearbody m7.
  assert (writes F [544] [csr m fcsr] m6 m7) as W7.
  { split; rewrite Hm7; [simpl; rewrite upd_eq, Hcsr; done|]. intros a Ha. apply upd_ne. set_solver. }
  assert (writes F frame_offsets (saved_words m) m1 m7) as W.
  { assert (∀ r, r ≠ sp → r ≠ t0 → r ≠ t1 → get m2 r = get m r) as Hkk by (intros; by rewrite Hk2, Hk1).
    apply (frame_written F m m1 m2 m3 m4 m5 m6 m7); [split; [|exact Hm2]|split; [|exact Hm3]|exact W4|split; [|exact Hm5]| |exact W7].
    - rewrite Hv2, Hc1, upd_eq. by rewrite Hk1.
    - rewrite Hv3, !Hkk by done. injection Hsl as <- <-. rewrite !Hm2; [done|apply Hst; right; left|apply Hst; left].
    - rewrite Hv5. replace (csr m4) with (csr m6) by congruence. rewrite Hcsr. done.
    - by rewrite <- Hfpr. }
  pose proof (writes_words F _ _ _ W) as Hw. destruct W as [_ Hout]. rewrite <- word_addrs_slots in Hout.
  assert (mem m6 kernel_ra = mem m kernel_ra) as Hkm.
  { rewrite <- Hm1, <- Hout, Hm7 by done. rewrite upd_ne; [done|]. intros He. apply Hkr'. rewrite He. by apply (frame_slot F 544). }
  exists m7. split_and!.
  - rewrite <- Hkm, <- Hra. done.
  - done.
  - rewrite Hsp, (get_gpr m5), Hk5, (get_gpr m3), Hk3, Hs2 by done. unfold wrap. rewrite Zplus_mod_idemp_l. rewrite <- (Z.mod_small (csr m sscratch) (2 ^ 64)) at 2 by done. f_equal. lia.
  - intros r H1 H2 H5 H6. rewrite Hk7, (get_gpr m5), Hk5, (get_gpr m3), Hk3, Hk2, Hk1 by done. done.
  - congruence.
  - intros a Ha Ha'. by rewrite Hout, Hm1.
Qed.

(** ** There and back *)
(** What the hardware writes when the program traps. *)
Definition trap_taken (pc status cause value : Z) m : machine :=
  set_csr sepc pc (set_csr sstatus status (set_csr scause cause (set_csr stval value m))).
(** The program has no access to [sscratch], and the pages of the kernel are
    not mapped for it. *)
Definition contained (program : machine → machine) : Prop :=
  ∀ m, csr (program m) sscratch = csr m sscratch ∧
    mem (program m) current_frame = mem m current_frame ∧ mem (program m) kernel_ra = mem m kernel_ra.

Lemma status_bits st : sret_interrupts (Z.lor (Z.lor st SPIE) 0x6000) = true ∧ sret_kernel (Z.lor (Z.lor st SPIE) 0x6000) = sret_kernel st.
Proof.
  unfold sret_interrupts, sret_kernel. rewrite !Z.lor_spec. split.
  - by rewrite orb_true_r.
  - change (Z.testbit SPIE 8) with false. change (Z.testbit 0x6000 8) with false. by rewrite !orb_false_r.
Qed.
Lemma back_from_program m f F program pc status cause value :
  get m a0 = F → 0 ≤ F < 2 ^ 64 → 0 ≤ get m sp < 2 ^ 64 → frame_wf f → words_at (mem m) F (frame_words f) →
  current_frame ∉ word_addrs F FRAME_WORDS → apart F (get m sp) → contained program →
  ∃ m1 m2, exec_kernel run_user m = Some (FromTrap, m1) ∧
    let mt := trap_taken pc status cause value (program m1) in
    exec_kernel user_trap mt = Some (ToCaller (get m ra), m2) ∧ get m2 sp = get m sp ∧
    words_at (mem m2) F (saved_words mt) ∧
    (∀ a, a ∉ word_addrs F FRAME_WORDS → a ∉ stack_slots (get m sp) → mem m2 a = mem (program m1) a) ∧
    (∀ r, r ≠ ra → r ≠ sp → r ≠ t0 → r ≠ t1 → get m2 r = get (program m1) r).
Proof.
  intros HF HFr Hsp Hwf Hw Hcf' Hap Hcont. destruct (run_user_enters m f F HF Hwf Hw Hcf' (proj1 Hap)) as (m1 & Hrun & _ & _ & _ & _ & _ & _ & Hss & Hm1).
  exists m1. destruct (Hcont m1) as (Hpss & Hpcf & Hpkr).
  set (mt := trap_taken pc status cause value (program m1)).
  assert (csr mt sscratch = get m sp) as Hsst by (by rewrite <- Hss, <- Hpss).
  destruct (user_trap_saves mt F) as (m2 & Ht & Hw2 & Hsp2 & Hr2 & _ & Hmem).
  - change (mem mt) with (mem (program m1)). rewrite Hpcf, Hm1, upd_ne by done. apply upd_eq.
  - by rewrite Hsst.
  - by rewrite Hsst.
  - rewrite Hsst in *. exists m2. split; [done|]. cbv zeta. fold mt. split; [|done]. rewrite Ht. do 2 f_equal. f_equal.
    change (mem mt) with (mem (program m1)). rewrite Hpkr, Hm1. apply upd_eq.
Qed.

(** C6: The contract of [run_user].  The program starts with the registers of the
    frame, the floating-point ones included, at the address of the frame, with
    interrupts, and in user mode when the frame's status says so.  When it
    traps, the code returns to its caller on the caller's stack, with the state
    of the program at the trap in the frame; the memory but the frame and two
    words below the stack pointer is as the program left it. *)
Theorem user_round_trip m f F program pc status cause value :
  get m a0 = F → 0 ≤ F < 2 ^ 64 → 0 ≤ get m sp < 2 ^ 64 → frame_wf f → words_at (mem m) F (frame_words f) →
  current_frame ∉ word_addrs F FRAME_WORDS → apart F (get m sp) → contained program →
  ∃ m1 m2, exec_kernel run_user m = Some (FromTrap, m1) ∧
    (∀ i, 0 < i < 32 → regs f !! Z.to_nat i = Some (get m1 i)) ∧ (∀ i, 0 ≤ i < 32 → fregs f !! Z.to_nat i = Some (fpr m1 i)) ∧
    csr m1 fcsr = Proc.fcsr f ∧ csr m1 sepc = Proc.sepc f ∧ csr m1 stvec = user_trap_entry ∧
    sret_interrupts (csr m1 sstatus) = true ∧ sret_kernel (csr m1 sstatus) = sret_kernel (Proc.sstatus f) ∧
    let mt := trap_taken pc status cause value (program m1) in
    exec_kernel user_trap mt = Some (ToCaller (get m ra), m2) ∧ get m2 sp = get m sp ∧
    words_at (mem m2) F (saved_words mt) ∧
    ∀ a, a ∉ word_addrs F FRAME_WORDS → a ∉ stack_slots (get m sp) → mem m2 a = mem (program m1) a.
Proof.
  intros HF HFr Hsp Hwf Hw Hcf' Hap Hcont.
  destruct (run_user_enters m f F HF Hwf Hw Hcf' (proj1 Hap)) as (m1 & Hrun & Hr & Hf & Hfc & Hpc & Hst & Hv & _).
  destruct (back_from_program m f F program pc status cause value HF HFr Hsp Hwf Hw Hcf' Hap Hcont) as (m1' & m2 & Hrun' & Ht & Hs & Hw2 & Hm & _).
  rewrite Hrun in Hrun'. injection Hrun' as <-. exists m1, m2. destruct (status_bits (Proc.sstatus f)) as [Hb1 Hb2]. by rewrite Hst.
Qed.

(** The calling convention gives [s0] to [s11] to the caller, and [run_user]
    is declared as a function of that convention; when it returns they hold
    what the program had in them. *)
Definition callee_saved : list Z := [s0; s1; s2; s3; s4; s5; s6; s7; s8; s9; s10; s11].
Theorem callee_saved_lost m f F pc status cause value :
  get m a0 = F → 0 ≤ F < 2 ^ 64 → 0 ≤ get m sp < 2 ^ 64 → frame_wf f → words_at (mem m) F (frame_words f) →
  current_frame ∉ word_addrs F FRAME_WORDS → apart F (get m sp) →
  ∃ m1 m2, exec_kernel run_user m = Some (FromTrap, m1) ∧
    exec_kernel user_trap (trap_taken pc status cause value m1) = Some (ToCaller (get m ra), m2) ∧
    ∀ r, r ∈ callee_saved → regs f !! Z.to_nat r = Some (get m2 r).
Proof.
  intros HF HFr Hsp Hwf Hw Hcf' Hap. destruct (run_user_enters m f F HF Hwf Hw Hcf' (proj1 Hap)) as (m1 & Hrun & Hr1 & _).
  destruct (back_from_program m f F (fun m => m) pc status cause value HF HFr Hsp Hwf Hw Hcf' Hap ltac:(done)) as (m1' & m2 & Hrun' & Ht & _ & _ & _ & Hr2).
  rewrite Hrun in Hrun'. injection Hrun' as <-. exists m1, m2. split_and!; try done. intros r Hr.
  assert (Forall (fun r => 0 < r < 32 ∧ r ≠ ra ∧ r ≠ sp ∧ r ≠ t0 ∧ r ≠ t1) callee_saved) as Hall by (apply (bool_decide_unpack _); by vm_compute).
  rewrite Forall_forall in Hall. destruct (Hall r Hr) as (Hrange & ? & ? & ? & ?). rewrite Hr2 by done. by apply Hr1.
Qed.

(** ** An interrupt of the kernel *)
(** What the handler, a function of the calling convention, leaves alone. *)
Definition well_behaved (handler : machine → machine) : Prop := ∀ m,
  (∀ r, r ∈ [sp; gp; tp] → get (handler m) r = get m r) ∧ csr (handler m) sepc = csr m sepc ∧ csr (handler m) sstatus = csr m sstatus ∧
  ∀ a, a ∈ slots (get m sp) kernel_saved.*2 → mem (handler m) a = mem m a.
Definition save_code : list instr := [AddI sp sp (-256)] ++ stores_to sp kernel_saved.
Definition pass_code : list instr := [CsrRead a0 scause; CsrRead a1 sepc].
(** The machine that the handler finds. *)
Definition interrupted m : machine := steps pass_code (steps save_code m).
Lemma kernel_saved_fit : offsets_fit kernel_saved. Proof. split; apply (bool_decide_unpack _); by vm_compute. Qed.
Lemma lowered_spec m (m' := steps [AddI sp sp (-256)] m) :
  get m' sp = wrap (get m sp + -256) ∧ (∀ r, r ≠ sp → get m' r = get m r) ∧ fpr m' = fpr m ∧ csr m' = csr m ∧ mem m' = mem m.
Proof. unfold m'. split_and!; [|intros r Hr| | |]; asm_eval; try done. by rewrite (proj2 (Z.eqb_neq sp r)). Qed.
Lemma raised_spec m (m' := steps [AddI sp sp 256] m) :
  get m' sp = wrap (get m sp + 256) ∧ (∀ r, r ≠ sp → get m' r = get m r) ∧ fpr m' = fpr m ∧ csr m' = csr m ∧ mem m' = mem m.
Proof. unfold m'. split_and!; [|intros r Hr| | |]; asm_eval; try done. by rewrite (proj2 (Z.eqb_neq sp r)). Qed.
Lemma passed_spec m (m' := steps pass_code m) :
  get m' a0 = csr m scause ∧ get m' a1 = csr m sepc ∧ (∀ r, r ≠ a0 → r ≠ a1 → get m' r = get m r) ∧
  fpr m' = fpr m ∧ csr m' = csr m ∧ mem m' = mem m.
Proof.
  unfold m', pass_code. split_and!; [| |intros r H1 H2| | |]; asm_eval; try done.
  by rewrite (proj2 (Z.eqb_neq a1 r)), (proj2 (Z.eqb_neq a0 r)).
Qed.
Lemma saved_not_sp r off : (r, off) ∈ kernel_saved → r ≠ sp.
Proof.
  intros Hr ->. assert (sp ∉ kernel_saved.*1) as Hn by (apply (bool_decide_unpack _); by vm_compute).
  apply Hn. apply list_elem_of_fmap. by exists (sp, off).
Qed.
Lemma interrupted_spec m : 
  get (interrupted m) a0 = csr m scause ∧ get (interrupted m) a1 = csr m sepc ∧ csr (interrupted m) = csr m ∧ fpr (interrupted m) = fpr m ∧
  get (interrupted m) sp = wrap (get m sp + -256) ∧ (∀ r, r ∈ [gp; tp] → get (interrupted m) r = get m r) ∧
  (∀ r off, (r, off) ∈ kernel_saved → mem (interrupted m) (wrap (wrap (get m sp + -256) + off)) = get m r) ∧
  (∀ a, a ∉ slots (wrap (get m sp + -256)) kernel_saved.*2 → mem (interrupted m) a = mem m a).
Proof.
  unfold interrupted, save_code. rewrite steps_app. destruct (lowered_spec m) as (Hs1 & Hk1 & Hf1 & Hc1 & Hm1).
  set (m1 := steps [AddI sp sp (-256)] m) in *. clearbody m1.
  destruct (stores_spec sp kernel_saved m1 kernel_saved_fit) as (Hin & Hout & Hg2 & Hf2 & Hc2).
  set (m2 := steps (stores_to sp kernel_saved) m1) in *. clearbody m2. unfold addr in Hin, Hout. rewrite Hs1 in Hin, Hout.
  destruct (passed_spec m2) as (Ha0 & Ha1 & Hk3 & Hf3 & Hc3 & Hm3). set (m3 := steps pass_code m2) in *. clearbody m3.
  split_and!; try congruence.
  - by rewrite Hk3, (get_gpr m1 m2).
  - intros r Hr. assert (r ≠ a0 ∧ r ≠ a1 ∧ r ≠ sp) as (? & ? & ?) by (repeat (apply elem_of_cons in Hr as [->|Hr]; [done|]); by apply elem_of_nil in Hr).
    by rewrite Hk3, (get_gpr m1 m2), Hk1.
  - intros r off Hr. rewrite Hm3, (Hin r off) by done. apply Hk1. by apply (saved_not_sp r off).
  - intros a Ha. rewrite Hm3, Hout by done. congruence.
Qed.
Lemma kernel_trap_parts handler : kernel_trap handler =
  save_code ++ pass_code ++ Call handler :: (loads_from sp kernel_saved ++ [AddI sp sp 256] ++ [TrapReturn]).
Proof. done. Qed.
(** The registers that are neither saved nor the stack pointer. *)
Lemma saved_cover r : 0 < r < 32 → r = sp ∨ r ∈ [gp; tp] ∨ ∃ off, (r, off) ∈ kernel_saved.
Proof.
  intros Hr. assert (Forall (fun r => r = sp ∨ r ∈ [gp; tp] ∨ Exists (fun p => p.1 = r) kernel_saved) (seqZ 1 31)) as Hall
    by (apply (bool_decide_unpack _); by vm_compute).
  rewrite Forall_forall in Hall. destruct (Hall r) as [H|[H|H]]; [apply elem_of_seqZ; lia|by left|by right; left|].
  apply Exists_exists in H as ([r' off] & Hin & He). simpl in He. subst r'. right; right. by exists off.
Qed.
(** An interrupt of the kernel calls the handler with the cause and the
    address of the interrupted instruction, and the kernel goes on with all its
    registers; what the handler did to the memory and to the floating-point
    registers stays. *)
Theorem kernel_trap_resumes handler m : well_behaved handler → 0 ≤ get m sp < 2 ^ 64 →
  ∃ m2, exec_kernel (kernel_trap handler) m = Some (FromTrap, m2) ∧
    (∀ r, 0 < r < 32 → get m2 r = get m r) ∧ csr m2 sepc = csr m sepc ∧ csr m2 sstatus = csr m sstatus ∧
    mem m2 = mem (handler (interrupted m)) ∧ fpr m2 = fpr (handler (interrupted m)).
Proof.
  intros Hh Hsp. rewrite kernel_trap_parts, !run_riscv by done. fold (interrupted m).
  destruct (interrupted_spec m) as (_ & _ & Hc1 & _ & Hs1 & Hk1 & Hin & _). generalize dependent (interrupted m). intros m1 Hc1 Hs1 Hk1 Hin.
  change (exec_kernel (Call handler :: ?c) m1) with (exec_kernel c (handler m1)). rewrite !run_riscv by done.
  destruct (Hh m1) as (Hkeep & Hc & Hst & Hmem). set (h := handler m1) in *. clearbody h.
  assert (get h sp = wrap (get m sp + -256)) as Hsh by (rewrite Hkeep, Hs1; [done|left]).
  destruct (loads_spec sp kernel_saved h) as (Hld & Hlk & Hlf & Hlc & Hlm); [apply (bool_decide_unpack _); by vm_compute..|].
  set (m2 := steps (loads_from sp kernel_saved) h) in *. clearbody m2. unfold addr in Hld. rewrite Hsh in Hld.
  destruct (raised_spec m2) as (Hs3 & Hk3 & Hf3 & Hc3 & Hm3). set (m3 := steps [AddI sp sp 256] m2) in *. clearbody m3.
  exists m3. split; [done|]. split_and!; try congruence. intros r Hr. destruct (saved_cover r Hr) as [->|[Hg|[off Hoff]]].
  - rewrite Hs3, Hlk, Hsh by (apply (bool_decide_unpack _); by vm_compute). unfold wrap. rewrite Zplus_mod_idemp_l.
    rewrite <- (Z.mod_small (get m sp) (2 ^ 64)) at 2 by done. f_equal. lia.
  - assert (r ≠ sp ∧ r ∉ kernel_saved.*1) as [H1 H2].
    { repeat (apply elem_of_cons in Hg as [->|Hg]; [by split; [|apply (bool_decide_unpack _); vm_compute]|]). by apply elem_of_nil in Hg. }
    rewrite Hk3, Hlk by done. rewrite Hkeep by (by right). by apply Hk1.
  - pose proof (saved_not_sp r off Hoff) as Hne.
    rewrite Hk3, (Hld r off) by done. rewrite Hmem; [by apply Hin|].
    rewrite Hs1. apply list_elem_of_fmap. exists off. split; [done|]. apply list_elem_of_fmap. by exists (r, off).
Qed.
End Run.

(** A frame at 0x1000, the statics at 0x8000 and a kernel stack at 0x9000; the
    program adds two numbers. *)
Definition example_frame : TrapFrame := mkFrame (seqZ 100 32) 0x4000 0 0 0 (seqZ 200 32) 7.
Definition example_machine : machine :=
  mkMachine (fun r => if r =? a0 then 0x1000 else if r =? sp then 0x9000 else if r =? ra then 0x2000 else 5) (fun _ => 0) (fun _ => 0)
    (fun a => default 0 (frame_words example_frame !! Z.to_nat ((a - 0x1000) / 8))).
Definition example_program (m : machine) : machine := set a0 (wrap (get m a0 + get m a1)) m.
Lemma user_round_trip_witness : ∃ m1 m2,
  exec_kernel (run_user 0x8000 0x8008 0x3000) example_machine = Some (FromTrap, m1) ∧ get m1 a0 = 110 ∧ get m1 a1 = 111 ∧
  exec_kernel (user_trap 0x8000 0x8008) (trap_taken 0x4004 0 8 0 (example_program m1)) = Some (ToCaller 0x2000, m2) ∧
  get m2 sp = 0x9000 ∧ mem m2 0x1050 = 221.
Proof.
  destruct (user_round_trip 0x8000 0x8008 0x3000 ltac:(lia) ltac:(lia) ltac:(lia) example_machine example_frame 0x1000 example_program 0x4004 0 8 0)
    as (m1 & m2 & Hrun & Hr & _ & _ & _ & _ & _ & _ & Ht & Hs & Hw & _).
  - reflexivity.
  - lia.
  - vm_compute. by split.
  - by split.
  - apply words_at_eq. vm_compute. reflexivity.
  - apply (bool_decide_unpack _). by vm_compute.
  - unfold apart. split_and!; try (apply (bool_decide_unpack _); by vm_compute). apply Forall_forall. apply (bool_decide_unpack _). by vm_compute.
  - done.
  - pose proof (Hr 10 ltac:(lia)) as H10. pose proof (Hr 11 ltac:(lia)) as H11. injection H10 as H10. injection H11 as H11.
    exists m1, m2. split_and!; [exact Hrun|exact (eq_sym H10)|exact (eq_sym H11)|exact Ht|exact Hs|].
    refine (Hw 10%nat 221 _). transitivity (Some (wrap (get m1 10 + get m1 11))); [reflexivity|]. by rewrite <- H10, <- H11.
Defined.
End AsmRiscv.
