(* ===== verification/AsmLoong.v ===== *)
(** * Trap entries of loongarch64 (crates/hal-loongarch64-virt/src/lib.rs: [global_asm])

    The way into a user program and back, and the way of an interrupt through
    the kernel.  A write to a control register swaps it with a general
    register, and privilege is a field of a control register, [CRMD]. *)

From S2P Require Import Prelude Process Asm.

Open Scope list_scope.
Open Scope Z_scope.

Module AsmLoong.
Import Proc Asm.

(** Registers and control registers by their numbers. *)
Definition ra : Z := 1.
Definition tp : Z := 2.
Definition sp : Z := 3.
Definition a0 : Z := 4.
Definition a1 : Z := 5.
Definition a2 : Z := 6.
Definition a3 : Z := 7.
Definition a4 : Z := 8.
Definition a5 : Z := 9.
Definition a6 : Z := 10.
Definition a7 : Z := 11.
Definition t0 : Z := 12.
Definition t1 : Z := 13.
Definition t2 : Z := 14.
Definition r15 : Z := 15.
Definition r16 : Z := 16.
Definition r17 : Z := 17.
Definition r18 : Z := 18.
Definition r19 : Z := 19.
Definition r20 : Z := 20.
Definition r21 : Z := 21.
Definition fp : Z := 22.
Definition s0 : Z := 23.
Definition s1 : Z := 24.
Definition s2 : Z := 25.
Definition s3 : Z := 26.
Definition s4 : Z := 27.
Definition s5 : Z := 28.
Definition s6 : Z := 29.
Definition s7 : Z := 30.
Definition s8 : Z := 31.
Definition CSR_CRMD : Z := 0x0.
Definition CSR_PRMD : Z := 0x1.
Definition CSR_EUEN : Z := 0x2.
Definition CSR_ESTAT : Z := 0x5.
Definition CSR_ERA : Z := 0x6.
Definition CSR_BADV : Z := 0x7.
Definition CSR_EENTRY : Z := 0xc.
Definition CSR_SAVE0 : Z := 0x30.
Definition CSR_SAVE1 : Z := 0x31.

(** [csrwr rd, c] *)
Definition csrwr (rd c : Z) : instr := CsrSwap rd c rd.

Section Code.
(** The addresses of the symbols. *)
Context (current_frame kernel_ra user_trap_entry : Z).

Definition user_loads : list (Z * Z) :=
  [(ra, 8); (sp, 16); (r15, 24); (tp, 32); (fp, 64); (s0, 72); (a1, 88); (a2, 96); (a3, 104); (a4, 112); (a5, 120); (a6, 128);
   (a7, 136); (s1, 144); (s2, 152); (s3, 160); (s4, 168); (s5, 176); (s6, 184); (s7, 192); (s8, 200); (r16, 208); (r17, 216);
   (r18, 224); (r19, 232); (r20, 240); (r21, 248)].
Definition last_loads : list (Z * Z) := [(t0, 40); (t1, 48); (t2, 56)].
Definition run_user : list instr :=
  [AddrOf t0 current_frame; Store a0 t0 0; AddrOf t0 kernel_ra; Store ra t0 0; AddrOf t0 user_trap_entry; csrwr t0 CSR_EENTRY;
   Move t0 sp; csrwr t0 CSR_SAVE1] ++
  loads_from a0 user_loads ++
  [Load t0 a0 256; csrwr t0 CSR_ERA; Load t0 a0 264] ++
  [SkipIfNonzero t0 1; LoadImm t0 3] ++
  [LoadImm t1 (-4); And t0 t0 t1; OrI t0 t0 3; csrwr t0 CSR_PRMD; Load t0 a0 80; csrwr t0 CSR_SAVE0; LoadImm t2 7; csrwr t2 CSR_EUEN] ++
  loads_from a0 last_loads ++
  [csrwr a0 CSR_SAVE0; TrapReturn].

Definition stores_low : list (Z * Z) :=
  [(ra, 8); (sp, 16); (r15, 24); (tp, 32); (t0, 40); (t1, 48); (t2, 56); (fp, 64); (s0, 72)].
Definition stores_high : list (Z * Z) :=
  [(a1, 88); (a2, 96); (a3, 104); (a4, 112); (a5, 120); (a6, 128); (a7, 136); (s1, 144); (s2, 152); (s3, 160); (s4, 168); (s5, 176);
   (s6, 184); (s7, 192); (s8, 200); (r16, 208); (r17, 216); (r18, 224); (r19, 232); (r20, 240); (r21, 248)].
Definition user_trap : list instr :=
  [csrwr a0 CSR_SAVE0] ++ stores_to a0 stores_low ++ stores_to a0 stores_high ++
  [CsrRead t0 CSR_SAVE0; Store t0 a0 80; CsrRead sp CSR_SAVE1] ++
  [CsrRead t0 CSR_ERA; Store t0 a0 256; CsrRead t0 CSR_PRMD; Store t0 a0 264; CsrRead t0 CSR_ESTAT; ShiftRightI t1 t0 16;
   AndI t1 t1 0x3f; Store t1 a0 272; CsrRead t0 CSR_BADV; Store t0 a0 280] ++
  [csrwr a0 CSR_SAVE0; CsrRead t0 CSR_PRMD; LoadImm t1 (-5); And t0 t0 t1; csrwr t0 CSR_PRMD; AddrOf t0 kernel_ra; Load ra t0 0] ++
  [Return ra].

Definition kernel_saved : list (Z * Z) :=
  [(ra, 0); (t0, 8); (t1, 16); (t2, 24); (a0, 32); (a1, 40); (a2, 48); (a3, 56); (a4, 64); (a5, 72); (a6, 80); (a7, 88)].
Definition kernel_trap (handler : machine → machine) : list instr :=
  [AddI sp sp (-144)] ++ stores_to sp kernel_saved ++
  [CsrRead t0 CSR_CRMD; Store t0 sp 96; LoadImm t0 0x53; csrwr t0 CSR_CRMD] ++
  [CsrRead a0 CSR_ESTAT; CsrRead a1 CSR_ERA; Call handler; Load t0 sp 96; csrwr t0 CSR_CRMD] ++
  loads_from sp kernel_saved ++ [AddI sp sp 144; TrapReturn].
End Code.

(** The lowest two bits of [CRMD] are the privilege level, the highest being 0. *)
Definition plv0 (m : machine) : bool := Z.land (csr m CSR_CRMD) 3 =? 0.
Definition exec_loong : list instr → machine → option (ending * machine) := run plv0.
Lemma run_loong code rest m : plv0 m = true → forallb (fun i => straight i && keeps_csr CSR_CRMD i) code = true →
  exec_loong (code ++ rest) m = exec_loong rest (steps code m).
Proof. apply run_steps. unfold plv0. by intros ? ? ->. Qed.

(** ** An interrupt of the kernel *)
Definition save_code : list instr := [AddI sp sp (-144)] ++ stores_to sp kernel_saved ++ [CsrRead t0 CSR_CRMD; Store t0 sp 96; LoadImm t0 0x53].
Definition after_code (handler : machine → machine) : list instr :=
  [CsrRead a1 CSR_ERA; Call handler; Load t0 sp 96; csrwr t0 CSR_CRMD] ++ loads_from sp kernel_saved ++ [AddI sp sp 144; TrapReturn].
Lemma save_code_t0 m : get (steps save_code m) t0 = 0x53.
Proof.
  unfold save_code. rewrite !steps_app. generalize (steps (stores_to sp kernel_saved) (steps [AddI sp sp (-144)] m)). clear m. intros m.
  by asm_eval.
Qed.
(** The value that the entry writes to [CRMD] is not the one of its comment:
    its privilege level is 3.  So the next instruction, which reads a control
    register, is an exception: the handler is never called. *)
Theorem kernel_trap_stuck handler m : plv0 m = true → exec_loong (kernel_trap handler) m = None.
Proof.
  intros Hp. change (kernel_trap handler) with (save_code ++ csrwr t0 CSR_CRMD :: CsrRead a0 CSR_ESTAT :: after_code handler).
  rewrite run_loong by done. assert (plv0 (steps save_code m) = true) as Hp1 by (unfold plv0; rewrite steps_keep_csr by done; exact Hp).
  pose proof (save_code_t0 m) as Ht. generalize dependent (steps save_code m). clear m Hp. intros m Hp Ht.
  unfold exec_loong, run. cbn [exec privileged_instr csrwr]. rewrite Hp. cbn [andb negb].
  replace (plv0 (step (csrwr t0 CSR_CRMD) m)) with false; [done|].
  unfold plv0, csrwr. cbn [step]. by rewrite csr_set, csr_set_csr, upd_eq, Ht.
Qed.

(** ** Into the program *)
(** The register that holds each word of a frame's registers. *)
Definition slot_regs : list Z :=
  [0; ra; sp; r15; tp; t0; t1; t2; fp; s0; a0; a1; a2; a3; a4; a5; a6; a7; s1; s2; s3; s4; s5; s6; s7; s8; r16; r17; r18; r19; r20; r21].

Section Run.
Context (current_frame kernel_ra user_trap_entry : Z).
Context (Hcf : 0 ≤ current_frame < 2 ^ 64) (Hkr : 0 ≤ kernel_ra < 2 ^ 64) (Hstatics : current_frame ≠ kernel_ra).
Implicit Types (m : machine) (f : TrapFrame).
Abbreviation run_user := (run_user current_frame kernel_ra user_trap_entry).
Abbreviation user_trap := (user_trap kernel_ra).

Definition statics_code : list instr :=
  [AddrOf t0 current_frame; Store a0 t0 0; AddrOf t0 kernel_ra; Store ra t0 0].
Definition vectors_code : list instr :=
  [AddrOf t0 user_trap_entry; csrwr t0 CSR_EENTRY; Move t0 sp; csrwr t0 CSR_SAVE1].
Definition return_code : list instr := [Load t0 a0 256; csrwr t0 CSR_ERA; Load t0 a0 264].
Definition status_code : list instr := [LoadImm t1 (-4); And t0 t0 t1; OrI t0 t0 3; csrwr t0 CSR_PRMD].
Definition units_code : list instr := [Load t0 a0 80; csrwr t0 CSR_SAVE0; LoadImm t2 7; csrwr t2 CSR_EUEN].
Lemma la_run_user_parts : run_user = statics_code ++ vectors_code ++ loads_from a0 user_loads ++ return_code ++
  SkipIfNonzero t0 1 :: LoadImm t0 3 :: status_code ++ units_code ++ loads_from a0 last_loads ++ [csrwr a0 CSR_SAVE0] ++ [TrapReturn].
Proof. done. Qed.

Lemma statics_spec m (m' := steps statics_code m) :
  (∀ r, r ≠ t0 → get m' r = get m r) ∧ fpr m' = fpr m ∧ csr m' = csr m ∧
  mem m' = upd (upd (mem m) current_frame (get m a0)) kernel_ra (get m ra).
Proof.
  unfold m', statics_code. split_and!; [intros r Hr| | |]; asm_eval; try done.
  - by rewrite (proj2 (Z.eqb_neq t0 r)).
  - simpl. by rewrite (wrap_id current_frame), (wrap_id kernel_ra).
Qed.
Lemma vectors_spec m (m' := steps vectors_code m) :
  (∀ r, r ≠ t0 → get m' r = get m r) ∧ fpr m' = fpr m ∧ mem m' = mem m ∧
  csr m' = upd (upd (csr m) CSR_EENTRY user_trap_entry) CSR_SAVE1 (get m sp).
Proof.
  unfold m', vectors_code, csrwr. split_and!; [intros r Hr| | |]; asm_eval; try done.
  by rewrite (proj2 (Z.eqb_neq t0 r)).
Qed.
Lemma return_spec m (m' := steps return_code m) :
  get m' t0 = mem m (addr m a0 264) ∧ (∀ r, r ≠ t0 → get m' r = get m r) ∧ fpr m' = fpr m ∧ mem m' = mem m ∧
  csr m' = upd (csr m) CSR_ERA (mem m (addr m a0 256)).
Proof.
  unfold m', return_code, csrwr. split_and!; [|intros r Hr| | |]; asm_eval; try done.
  by rewrite (proj2 (Z.eqb_neq t0 r)).
Qed.
Lemma la_status_spec m (m' := steps status_code m) :
  (∀ r, r ≠ t0 → r ≠ t1 → get m' r = get m r) ∧ fpr m' = fpr m ∧ mem m' = mem m ∧
  csr m' = upd (csr m) CSR_PRMD (Z.lor (Z.land (get m t0) (wrap (-4))) 3).
Proof.
  unfold m', status_code, csrwr. split_and!; [intros r H0 H1| | |]; asm_eval; try done.
  by rewrite (proj2 (Z.eqb_neq t0 r)), (proj2 (Z.eqb_neq t1 r)).
Qed.
Lemma units_spec m (m' := steps units_code m) :
  (∀ r, r ≠ t0 → r ≠ t2 → get m' r = get m r) ∧ fpr m' = fpr m ∧ mem m' = mem m ∧
  csr m' = upd (upd (csr m) CSR_SAVE0 (mem m (addr m a0 80))) CSR_EUEN 7.
Proof.
  unfold m', units_code, csrwr. split_and!; [intros r H0 H1| | |]; asm_eval; try done.
  by rewrite (proj2 (Z.eqb_neq t0 r)), (proj2 (Z.eqb_neq t2 r)).
Qed.
Lemma last_spec m (m' := steps [csrwr a0 CSR_SAVE0] m) :
  get m' a0 = csr m CSR_SAVE0 ∧ (∀ r, r ≠ a0 → get m' r = get m r) ∧ fpr m' = fpr m ∧ mem m' = mem m ∧
  csr m' = upd (csr m) CSR_SAVE0 (get m a0).
Proof.
  unfold m', csrwr. split_and!; [|intros r Hr| | |]; asm_eval; try done. by rewrite (proj2 (Z.eqb_neq a0 r)).
Qed.
Lemma skip_spec m c : exec_loong (SkipIfNonzero t0 1 :: LoadImm t0 3 :: c) m = exec_loong c (if get m t0 =? 0 then step (LoadImm t0 3) m else m).
Proof. unfold exec_loong, run. cbn [exec privileged_instr andb]. by destruct (get m t0 =? 0). Qed.
(** A status of zero becomes three first, and then both become three. *)
Lemma status_value m : let m' := if get m t0 =? 0 then step (LoadImm t0 3) m else m in
  Z.lor (Z.land (get m' t0) (wrap (-4))) 3 = Z.lor (Z.land (get m t0) (wrap (-4))) 3 ∧
  (∀ r, r ≠ t0 → get m' r = get m r) ∧ fpr m' = fpr m ∧ csr m' = csr m ∧ mem m' = mem m.
Proof.
  destruct (Z.eqb_spec (get m t0) 0) as [He|]; [|by split_and!]. cbn [step].
  rewrite fpr_set, csr_set, mem_set. split_and!; try done.
  - by rewrite get_set, He.
  - intros r Hr. by rewrite get_set, (proj2 (Z.eqb_neq t0 r)).
Qed.

Lemma frame_reg M F f i : frame_wf f → words_at M F (frame_words f) → (i < 32)%nat → regs f !! i = Some (M (wrap (F + 8 * Z.of_nat i))).
Proof.
  intros Hwf Hw Hi. destruct (frame_word f (Z.of_nat i) Hwf) as (Hr & _). specialize (Hr ltac:(lia)). rewrite Nat2Z.id in Hr.
  assert (is_Some (regs f !! i)) as [w Hl] by (apply lookup_lt_is_Some; destruct Hwf as [-> _]; lia).
  rewrite Hl. f_equal. symmetry. apply (Hw i w). by rewrite Hr.
Qed.
(** Every register of a frame but the base is loaded by one of two blocks. *)
Definition loaded_by (p : nat * Z) : Prop :=
  let '(i, r) := p in
  i = O ∨ (i = 10%nat ∧ r = a0) ∨ (r, 8 * Z.of_nat i) ∈ last_loads ∨
  ((r, 8 * Z.of_nat i) ∈ user_loads ∧ (r ∉ last_loads.*1) ∧ r ≠ a0).
Lemma all_loaded i r : slot_regs !! i = Some r → loaded_by (i, r).
Proof.
  intros Hi. assert (Forall (fun p : nat * Z => let '(i, r) := p in i = O ∨ (i = 10%nat ∧ r = a0) ∨ (r, 8 * Z.of_nat i) ∈ last_loads ∨
    ((r, 8 * Z.of_nat i) ∈ user_loads ∧ (r ∉ last_loads.*1) ∧ r ≠ a0)) (imap pair slot_regs)) as Hall.
  { repeat (constructor; [by apply (bool_decide_unpack _); vm_compute|]). constructor. }
  rewrite Forall_lookup in Hall. apply (Hall i (i, r)). rewrite list_lookup_imap, Hi. done.
Qed.
Lemma loads_ok (l : list (Z * Z)) : bool_decide ((a0 ∉ l.*1) ∧ NoDup l.*1 ∧ (0 ∉ l.*1)) = true → (a0 ∉ l.*1) ∧ NoDup l.*1 ∧ (0 ∉ l.*1).
Proof. apply bool_decide_eq_true_1. Qed.
(** With a frame at the address in [a0] the code leaves with the registers of
    the frame and its address.  The previous mode that it sets is user mode,
    with the interrupts of the frame's status.  The floating-point registers of
    the frame are not loaded. *)
Theorem la_run_user_enters m f F : plv0 m = true → get m a0 = F → frame_wf f → words_at (mem m) F (frame_words f) →
  current_frame ∉ word_addrs F FRAME_WORDS → kernel_ra ∉ word_addrs F FRAME_WORDS →
  ∃ m', exec_loong run_user m = Some (FromTrap, m') ∧
    (∀ i r, (0 < i)%nat → slot_regs !! i = Some r → regs f !! i = Some (get m' r)) ∧ fpr m' = fpr m ∧
    csr m' CSR_ERA = sepc f ∧ csr m' CSR_PRMD = Z.lor (Z.land (sstatus f) (wrap (-4))) 3 ∧
    csr m' CSR_SAVE0 = F ∧ csr m' CSR_SAVE1 = get m sp ∧ csr m' CSR_EENTRY = user_trap_entry ∧ csr m' CSR_CRMD = csr m CSR_CRMD ∧
    mem m' = upd (upd (mem m) current_frame F) kernel_ra (get m ra).
Proof.
  intros Hp HF Hwf Hw Hd1 Hd2. rewrite la_run_user_parts. rewrite !run_loong by (done || unfold plv0; rewrite !steps_keep_csr by done; exact Hp).
  destruct (statics_spec m) as (Hk1 & Hf1 & Hc1 & Hm1). set (m1 := steps statics_code m) in *. clearbody m1.
  destruct (vectors_spec m1) as (Hk2 & Hf2 & Hm2 & Hc2). set (m2 := steps vectors_code m1) in *. clearbody m2.
  assert (get m2 a0 = F) as Hb2 by (by rewrite Hk2, Hk1).
  assert (words_at (mem m2) F (frame_words f)) as Hw2.
  { apply (words_at_ext (mem m)); [|done]. intros a Ha. assert (length (frame_words f) = FRAME_WORDS) as Hl.
    { destruct Hwf as [H1 H2]. unfold frame_words. by rewrite !length_app, H1, H2. }
    rewrite Hl in Ha. rewrite Hm2, Hm1, !upd_ne; [done|by intros ->..]. }
  destruct (loads_spec a0 user_loads m2) as (Hld3 & Hk3 & Hf3 & Hc3 & Hm3); [by apply loads_ok..|].
  set (m3 := steps (loads_from a0 user_loads) m2) in *. clearbody m3.
  destruct (return_spec m3) as (Ht4 & Hk4 & Hf4 & Hm4 & Hc4). set (m4 := steps return_code m3) in *. clearbody m4.
  rewrite skip_spec. destruct (status_value m4) as (Hst & Hk5 & Hf5 & Hc5 & Hm5).
  generalize dependent (if get m4 t0 =? 0 then step (LoadImm t0 3) m4 else m4). intros m5 Hst Hk5 Hf5 Hc5 Hm5.
  assert (csr m5 = upd (csr m2) CSR_ERA (mem m3 (addr m3 a0 256))) as Hcsr5 by congruence.
  assert (plv0 m5 = true) as Hp5 by (unfold plv0; rewrite Hcsr5, Hc2, Hc1; exact Hp).
  rewrite !run_loong by (done || unfold plv0; rewrite ?steps_keep_csr by done; exact Hp5).
  destruct (la_status_spec m5) as (Hk6 & Hf6 & Hm6 & Hc6). set (m6 := steps status_code m5) in *. clearbody m6.
  destruct (units_spec m6) as (Hk7 & Hf7 & Hm7 & Hc7). set (m7 := steps units_code m6) in *. clearbody m7.
  assert (∀ r, r ∉ last_loads.*1 → get m7 r = get m3 r) as Hk.
  { intros r Hr. assert (r ≠ t0 ∧ r ≠ t1 ∧ r ≠ t2) as (? & ? & ?) by (split_and!; intros ->; apply Hr; apply (bool_decide_unpack _); by vm_compute).
    by rewrite Hk7, Hk6, Hk5, Hk4. }
  destruct (loads_spec a0 last_loads m7) as (Hld8 & Hk8 & Hf8 & Hc8 & Hm8); [by apply loads_ok..|].
  set (m8 := steps (loads_from a0 last_loads) m7) in *. clearbody m8.
  destruct (last_spec m8) as (Ha9 & Hk9 & Hf9 & Hm9 & Hc9). set (m9 := steps [csrwr a0 CSR_SAVE0] m8) in *. clearbody m9.
  assert (get m3 a0 = F) as Hb3 by (by rewrite Hk3 by (apply (bool_decide_unpack _); by vm_compute)).
  assert (get m7 a0 = F) as Hb7 by (by rewrite Hk by (apply (bool_decide_unpack _); by vm_compute)).
  assert (mem m7 = mem m2) as Hm72 by congruence. assert (a0 ∉ last_loads.*1) as Hna by (apply (bool_decide_unpack _); by vm_compute).
  assert (csr m9 = upd (upd (upd (upd (csr m5) CSR_PRMD (Z.lor (Z.land (get m4 t0) (wrap (-4))) 3)) CSR_SAVE0 (mem m6 (addr m6 a0 80)))
    CSR_EUEN 7) CSR_SAVE0 (get m8 a0)) as Hcsr9 by (rewrite Hc9, Hc8, Hc7, Hc6, Hst; done).
  assert (plv0 m9 = true) as Hp9 by (unfold plv0; rewrite Hcsr9; exact Hp5).
  assert (get m8 a0 = F) as Hb8 by (by rewrite Hk8 by (apply (bool_decide_unpack _); by vm_compute)).
  destruct (frame_word f 0 Hwf) as (_ & E1 & E2 & _ & _).
  assert (mem m3 (addr m3 a0 256) = sepc f) as Hpc by (unfold addr; rewrite Hb3, Hm3; by apply (Hw2 32%nat)).
  assert (get m4 t0 = sstatus f) as Hs4 by (rewrite Ht4; unfold addr; rewrite Hb3, Hm3; by apply (Hw2 33%nat)).
  exists m9. split; [unfold exec_loong, run; cbn [exec]; by rewrite Hp9|]. rewrite Hcsr9, Hcsr5, Hc2, Hc1, Hpc, Hs4, Hb8. split.
  { intros i r Hi Hr. assert (i < 32)%nat as Hlt by (by apply lookup_lt_Some in Hr). rewrite (frame_reg (mem m2) F f i Hwf Hw2 Hlt). f_equal.
    destruct (all_loaded i r Hr) as [->|[[-> ->]|[Hl|(Hl & Hn & Hne)]]]; [lia| | |].
    - rewrite Ha9, Hc8, Hc7. change (upd _ CSR_EUEN 7 CSR_SAVE0) with (mem m6 (addr m6 a0 80)). unfold addr.
      replace (mem m6) with (mem m2) by congruence. rewrite Hk6, Hk5, Hk4, Hb3 by done. done.
    - rewrite Hk9, (Hld8 r (8 * Z.of_nat i)) by (done || by intros ->; apply Hna, list_elem_of_fmap; exists (a0, 8 * Z.of_nat i)). unfold addr. by rewrite Hb7, Hm72.
    - rewrite Hk9, Hk8, Hk, (Hld3 r (8 * Z.of_nat i)) by done. unfold addr. by rewrite Hb2. }
  split_and!; try done; try congruence. by apply Hk1.
Qed.

(** ** Back from the program *)
(** What the trap keeps of the program, in the order of a frame, without the
    word for register 0. *)
Definition saved_words m : list Z :=
  (get m <$> tail slot_regs) ++ [csr m CSR_ERA; csr m CSR_PRMD; Z.land (Z.shiftr (csr m CSR_ESTAT) 16) 0x3f; csr m CSR_BADV].
Definition saved_offsets : list Z := (fun i => 8 * i) <$> seqZ 1 35.

Definition a0_code : list instr := [CsrRead t0 CSR_SAVE0; Store t0 a0 80; CsrRead sp CSR_SAVE1].
Definition era_code : list instr := [CsrRead t0 CSR_ERA; Store t0 a0 256; CsrRead t0 CSR_PRMD; Store t0 a0 264].
Definition cause_code : list instr :=
  [CsrRead t0 CSR_ESTAT; ShiftRightI t1 t0 16; AndI t1 t1 0x3f; Store t1 a0 272; CsrRead t0 CSR_BADV; Store t0 a0 280].
Definition leave_code : list instr :=
  [csrwr a0 CSR_SAVE0; CsrRead t0 CSR_PRMD; LoadImm t1 (-5); And t0 t0 t1; csrwr t0 CSR_PRMD].
Definition ra_code : list instr := [AddrOf t0 kernel_ra; Load ra t0 0].
Lemma la_user_trap_parts : user_trap = [csrwr a0 CSR_SAVE0] ++ stores_to a0 stores_low ++ stores_to a0 stores_high ++ a0_code ++
  era_code ++ cause_code ++ leave_code ++ ra_code ++ [Return ra].
Proof. done. Qed.
Lemma a0_spec m F (m' := steps a0_code m) : get m a0 = F →
  get m' sp = csr m CSR_SAVE1 ∧ (∀ r, r ≠ t0 → r ≠ sp → get m' r = get m r) ∧ fpr m' = fpr m ∧ csr m' = csr m ∧
  writes F [80] [csr m CSR_SAVE0] m m'.
Proof.
  intros HF. unfold m', a0_code. split_and!; [|intros r H0 H1| | |split; [|intros a Ha]]; asm_eval; try done.
  - by rewrite (proj2 (Z.eqb_neq t0 r)), (proj2 (Z.eqb_neq sp r)).
  - simpl. rewrite HF. by slots_eval.
  - simpl. rewrite HF. slots_other Ha.
Qed.
Lemma era_spec m F (m' := steps era_code m) : get m a0 = F →
  (∀ r, r ≠ t0 → get m' r = get m r) ∧ fpr m' = fpr m ∧ csr m' = csr m ∧ writes F [256; 264] [csr m CSR_ERA; csr m CSR_PRMD] m m'.
Proof.
  intros HF. unfold m', era_code. split_and!; [intros r H0| | |split; [|intros a Ha]]; asm_eval; try done.
  - by rewrite (proj2 (Z.eqb_neq t0 r)).
  - simpl. rewrite HF. by slots_eval.
  - simpl. rewrite HF. slots_other Ha.
Qed.
Lemma cause_spec m F (m' := steps cause_code m) : get m a0 = F →
  (∀ r, r ≠ t0 → r ≠ t1 → get m' r = get m r) ∧ fpr m' = fpr m ∧ csr m' = csr m ∧
  writes F [272; 280] [Z.land (Z.shiftr (csr m CSR_ESTAT) 16) 0x3f; csr m CSR_BADV] m m'.
Proof.
  intros HF. unfold m', cause_code. split_and!; [intros r H0 H1| | |split; [|intros a Ha]]; asm_eval; try done.
  - by rewrite (proj2 (Z.eqb_neq t0 r)), (proj2 (Z.eqb_neq t1 r)).
  - simpl. rewrite HF. by slots_eval.
  - simpl. rewrite HF. slots_other Ha.
Qed.
Lemma leave_spec m (m' := steps leave_code m) :
  (∀ r, r ≠ t0 → r ≠ t1 → r ≠ a0 → get m' r = get m r) ∧ fpr m' = fpr m ∧ mem m' = mem m ∧
  csr m' = upd (upd (csr m) CSR_SAVE0 (get m a0)) CSR_PRMD (Z.land (csr m CSR_PRMD) (wrap (-5))).
Proof.
  unfold m', leave_code, csrwr. split_and!; [intros r H0 H1 H2| | |]; asm_eval; try done.
  by rewrite (proj2 (Z.eqb_neq t0 r)), (proj2 (Z.eqb_neq t1 r)), (proj2 (Z.eqb_neq a0 r)).
Qed.
Lemma ra_spec m (m' := steps ra_code m) :
  get m' ra = mem m kernel_ra ∧ (∀ r, r ≠ t0 → r ≠ ra → get m' r = get m r) ∧ fpr m' = fpr m ∧ mem m' = mem m ∧ csr m' = csr m.
Proof.
  unfold m', ra_code. split_and!; [|intros r H0 H1| | |]; asm_eval; try done.
  - simpl. by rewrite wrap_id.
  - by rewrite (proj2 (Z.eqb_neq t0 r)), (proj2 (Z.eqb_neq ra r)).
Qed.
(** The parts of the frame. *)
Lemma la_frame_written F m m1 m2 m3 m4 m5 m6 : 
  writes F stores_low.*2 (get m <$> stores_low.*1) m1 m2 → writes F stores_high.*2 (get m <$> stores_high.*1) m2 m3 →
  writes F [80] [get m a0] m3 m4 → writes F [256; 264] [csr m CSR_ERA; csr m CSR_PRMD] m4 m5 →
  writes F [272; 280] [Z.land (Z.shiftr (csr m CSR_ESTAT) 16) 0x3f; csr m CSR_BADV] m5 m6 → writes F saved_offsets (saved_words m) m1 m6.
Proof.
  intros W1 W2 W3 W4 W5.
  assert (writes F ([80] ++ stores_high.*2) ([get m a0] ++ (get m <$> stores_high.*1)) m2 m4) as W23.
  { apply writes_swap; [done|]. refine (writes_app F _ _ _ _ _ _ _ _ _ _ W2 W3). all: frame_part. }
  refine (writes_app F _ _ _ _ _ _ _ _ _ _ W1 (writes_app F _ _ _ _ _ _ _ _ _ _ W23 (writes_app F _ _ _ _ _ _ _ _ _ _ W4 W5))).
  all: frame_part.
Qed.
Lemma low_fit : offsets_fit stores_low. Proof. split; apply (bool_decide_unpack _); by vm_compute. Qed.
Lemma high_fit : offsets_fit stores_high. Proof. split; apply (bool_decide_unpack _); by vm_compute. Qed.
(** The registers of a block do not change when the base is exchanged. *)
Lemma block_untouched (l : list Z) m m1 : bool_decide (a0 ∉ l) = true → (∀ r, r ≠ a0 → get m1 r = get m r) → get m1 <$> l = get m <$> l.
Proof.
  intros Hl%bool_decide_eq_true_1 Hk. apply list_fmap_ext. intros k r Hr%list_elem_of_lookup_2. apply Hk. by intros ->.
Qed.

(** A trap of the program: its state is in the frame, the floating-point
    registers excepted, and the code returns to the caller of [run_user] on the
    caller's stack.  The other registers hold the values of the program. *)
Theorem la_user_trap_saves m F : plv0 m = true → csr m CSR_SAVE0 = F → kernel_ra ∉ word_addrs F FRAME_WORDS →
  ∃ m', exec_loong user_trap m = Some (ToCaller (mem m kernel_ra), m') ∧
    mem m' <$> slots F saved_offsets = saved_words m ∧ get m' sp = csr m CSR_SAVE1 ∧
    (∀ r, r ∉ [ra; sp; a0; t0; t1] → get m' r = get m r) ∧ fpr m' = fpr m ∧ csr m' CSR_CRMD = csr m CSR_CRMD ∧
    (∀ a, a ∉ word_addrs F FRAME_WORDS → mem m' a = mem m a).
Proof.
  intros Hp HF Hd. rewrite la_user_trap_parts. rewrite !run_loong by (done || unfold plv0; rewrite ?steps_keep_csr by done; exact Hp).
  destruct (last_spec m) as (Ha1 & Hk1 & Hf1 & Hm1 & Hc1). set (m1 := steps [csrwr a0 CSR_SAVE0] m) in *. clearbody m1.
  assert (get m1 a0 = F) as Hb1 by (by rewrite Ha1).
  destruct (stores_writes a0 F stores_low m1 low_fit Hb1) as (W2 & Hg2 & Hf2 & Hc2). set (m2 := steps (stores_to a0 stores_low) m1) in *. clearbody m2.
  assert (get m2 a0 = F) as Hb2 by (by rewrite (get_gpr m1)).
  destruct (stores_writes a0 F stores_high m2 high_fit Hb2) as (W3 & Hg3 & Hf3 & Hc3). set (m3 := steps (stores_to a0 stores_high) m2) in *. clearbody m3.
  assert (get m3 a0 = F) as Hb3 by (by rewrite (get_gpr m2)).
  destruct (a0_spec m3 F Hb3) as (Hs4 & Hk4 & Hf4 & Hc4 & W4). set (m4 := steps a0_code m3) in *. clearbody m4.
  destruct (era_spec m4 F) as (Hk5 & Hf5 & Hc5 & W5); [by rewrite Hk4|]. set (m5 := steps era_code m4) in *. clearbody m5.
  destruct (cause_spec m5 F) as (Hk6 & Hf6 & Hc6 & W6); [by rewrite Hk5, Hk4|]. set (m6 := steps cause_code m5) in *. clearbody m6.
  destruct (leave_spec m6) as (Hk7 & Hf7 & Hm7 & Hc7). set (m7 := steps leave_code m6) in *. clearbody m7.
  destruct (ra_spec m7) as (Hra & Hk8 & Hf8 & Hm8 & Hc8). set (m8 := steps ra_code m7) in *. clearbody m8.
  assert (csr m6 = upd (csr m) CSR_SAVE0 (get m a0)) as Hcsr by congruence.
  assert (writes F saved_offsets (saved_words m) m1 m6) as [Hv Hout].
  { rewrite (block_untouched _ m m1) in W2 by done.
    rewrite (block_untouched _ m m2) in W3 by (done || (intros; rewrite (get_gpr m1) by done; by apply Hk1)).
    replace (csr m5) with (csr m6) in W6 by congruence. replace (csr m4) with (csr m6) in W5 by congruence.
    replace (csr m3) with (csr m6) in W4 by congruence. rewrite Hcsr in W4, W5, W6. by apply (la_frame_written F m m1 m2 m3 m4 m5 m6). }
  assert (∀ a, a ∉ word_addrs F FRAME_WORDS → mem m8 a = mem m a) as Hother.
  { intros a Ha. rewrite Hm8, Hm7, Hout, Hm1; [done|]. by apply not_in_part, part_of_frame. }
  assert (csr m8 CSR_CRMD = csr m CSR_CRMD) as Hcr by (by rewrite Hc8, Hc7, Hcsr).
  exists m8. split.
  { unfold exec_loong, run. cbn [exec privileged_instr andb]. by rewrite Hra, <- Hm8, Hother. }
  split_and!; try done; try congruence.
  - rewrite Hk8, Hk7, Hk6, Hk5, Hs4 by done. replace (csr m3) with (csr m6) by congruence. by rewrite Hcsr.
  - intros r Hr. do 5 apply not_elem_of_cons in Hr as [? Hr]. rewrite Hk8, Hk7, Hk6, Hk5, Hk4 by done.
    rewrite (get_gpr m2 m3), (get_gpr m1 m2) by done. by apply Hk1.
Qed.

(** ** There and back *)
(** The return from a trap takes the mode and the interrupt enable from
    [PRMD]; a trap puts them there and sets its own to zero.  The address, the
    cause and the bad address are the hardware's. *)
Definition ertn m : machine := set_csr CSR_CRMD (Z.lor (Z.land (csr m CSR_CRMD) (-8)) (Z.land (csr m CSR_PRMD) 7)) m.
Definition trap_taken (pc estat badv : Z) m : machine :=
  set_csr CSR_PRMD (Z.land (csr m CSR_CRMD) 7) (set_csr CSR_CRMD (Z.land (csr m CSR_CRMD) (-8))
    (set_csr CSR_ERA pc (set_csr CSR_ESTAT estat (set_csr CSR_BADV badv m)))).
Definition user_mode m : bool := Z.land (csr m CSR_CRMD) 3 =? 3.
Definition interrupts_on m : bool := Z.testbit (csr m CSR_CRMD) 2.
Definition status_interrupts (status : Z) : bool := Z.testbit status 2.
(** Without privilege the program does not write control registers, and the
    pages of the kernel are not mapped for it. *)
Definition contained (program : machine → machine) : Prop :=
  ∀ m, csr (program m) = csr m ∧ mem (program m) kernel_ra = mem m kernel_ra.

Lemma low_bits x y : Z.land (Z.lor (Z.land x (-8)) (Z.land y 7)) 7 = Z.land y 7.
Proof. rewrite Z.land_lor_distr_l, <- !Z.land_assoc. change (Z.land (-8) 7) with 0. change (Z.land 7 7) with 7. by rewrite Z.land_0_r. Qed.
Lemma bit2_low x : Z.testbit x 2 = Z.testbit (Z.land x 7) 2.
Proof. rewrite Z.land_spec. change (Z.testbit 7 2) with true. by rewrite andb_true_r. Qed.
Lemma ertn_mode m : csr m CSR_PRMD = Z.lor (Z.land (csr m CSR_PRMD) (wrap (-4))) 3 →
  user_mode (ertn m) = true ∧ interrupts_on (ertn m) = status_interrupts (csr m CSR_PRMD).
Proof.
  intros Hs. unfold user_mode, interrupts_on, status_interrupts, ertn. cbn [csr set_csr]. rewrite upd_eq. split.
  - apply Z.eqb_eq. change 3 with (Z.land 7 3) at 1. rewrite Z.land_assoc, low_bits, <- Z.land_assoc. change (Z.land 7 3) with 3.
    rewrite Hs, Z.land_lor_distr_l, <- Z.land_assoc. change (Z.land (wrap (-4)) 3) with 0. by rewrite Z.land_0_r.
  - by rewrite bit2_low, low_bits, <- bit2_low.
Qed.

(** The contract of [run_user].  The program starts in user mode with the
    registers of the frame at its address, with interrupts when the frame's
    status has them.  When it traps the code returns to its caller, on the
    caller's stack, with the registers of the program in the frame; the status
    in the frame has the same interrupts. *)
Theorem la_round_trip m f F program pc estat badv :
  plv0 m = true → get m a0 = F → frame_wf f → words_at (mem m) F (frame_words f) →
  current_frame ∉ word_addrs F FRAME_WORDS → kernel_ra ∉ word_addrs F FRAME_WORDS → contained program →
  ∃ m1 m2, exec_loong run_user m = Some (FromTrap, m1) ∧
    (∀ i r, (0 < i)%nat → slot_regs !! i = Some r → regs f !! i = Some (get m1 r)) ∧ fpr m1 = fpr m ∧ csr m1 CSR_ERA = sepc f ∧
    user_mode (ertn m1) = true ∧ interrupts_on (ertn m1) = status_interrupts (sstatus f) ∧
    let mt := trap_taken pc estat badv (program (ertn m1)) in
    exec_loong user_trap mt = Some (ToCaller (get m ra), m2) ∧ get m2 sp = get m sp ∧ fpr m2 = fpr mt ∧
    mem m2 <$> slots F saved_offsets = saved_words mt ∧
    status_interrupts (mem m2 (wrap (F + 264))) = status_interrupts (sstatus f) ∧
    (∀ r, r ∉ [ra; sp; a0; t0; t1] → get m2 r = get mt r) ∧
    ∀ a, a ∉ word_addrs F FRAME_WORDS → mem m2 a = mem (program (ertn m1)) a.
Proof.
  intros Hp HF Hwf Hw Hd1 Hd2 Hcont.
  destruct (la_run_user_enters m f F Hp HF Hwf Hw Hd1 Hd2) as (m1 & Hrun & Hr & Hf & Hpc & Hst & Hs0 & Hs1 & _ & _ & Hm1).
  destruct (ertn_mode m1) as [Hum Hio].
  { rewrite Hst. rewrite Z.land_lor_distr_l, <- Z.land_assoc, Z.land_diag. change (Z.land 3 (wrap (-4))) with 0. by rewrite Z.lor_0_r. }
  assert (status_interrupts (csr m1 CSR_PRMD) = status_interrupts (sstatus f)) as Hbit.
  { unfold status_interrupts. rewrite Hst, Z.lor_spec, Z.land_spec. change (Z.testbit (wrap (-4)) 2) with true.
    change (Z.testbit 3 2) with false. by rewrite andb_true_r, orb_false_r. }
  destruct (Hcont (ertn m1)) as [Hpc1 Hpm]. set (mp := program (ertn m1)) in *. set (mt := trap_taken pc estat badv mp).
  assert (csr mt CSR_PRMD = Z.land (csr (ertn m1) CSR_CRMD) 7) as Hprmd by (by rewrite <- Hpc1).
  destruct (la_user_trap_saves mt F) as (m2 & Ht & Hw2 & Hsp & Hk & Hfp & _ & Hmem).
  - unfold plv0, mt, trap_taken. cbn [csr set_csr]. rewrite upd_ne, upd_eq, <- Z.land_assoc by done. change (Z.land (-8) 3) with 0. by rewrite Z.land_0_r.
  - change (csr mt CSR_SAVE0) with (csr mp CSR_SAVE0). by rewrite Hpc1.
  - done.
  - exists m1, m2. split; [done|]. split; [done|]. split; [done|]. split; [done|]. split; [done|]. split; [by rewrite Hio|].
    cbv zeta. fold mt. split.
    { etrans; [exact Ht|]. do 2 f_equal. f_equal. change (mem mt) with (mem mp). rewrite Hpm. change (mem (ertn m1)) with (mem m1). rewrite Hm1. apply upd_eq. }
    split; [rewrite Hsp; change (csr mt CSR_SAVE1) with (csr mp CSR_SAVE1); by rewrite Hpc1|]. split; [done|]. split; [done|]. split; [|by split].
    assert (mem m2 (wrap (F + 264)) = csr mt CSR_PRMD) as ->.
    { assert ((mem m2 <$> slots F saved_offsets) !! 32%nat = Some (mem m2 (wrap (F + 264)))) as Hl by reflexivity.
      rewrite Hw2 in Hl. change (saved_words mt !! 32%nat) with (Some (csr mt CSR_PRMD)) in Hl. congruence. }
    rewrite Hprmd. unfold status_interrupts at 1. rewrite <- bit2_low. change (interrupts_on (ertn m1) = status_interrupts (sstatus f)). by rewrite Hio.
Qed.

(** One run of a program with its frame, from the call of [run_user] to its
    return; the status of the frame is the one that the trap stored. *)
Inductive one_run f f' : Prop :=
  | OneRun m F program pc estat badv m1 m2 :
      plv0 m = true → get m a0 = F → frame_wf f → words_at (mem m) F (frame_words f) →
      current_frame ∉ word_addrs F FRAME_WORDS → kernel_ra ∉ word_addrs F FRAME_WORDS → contained program →
      exec_loong run_user m = Some (FromTrap, m1) →
      exec_loong user_trap (trap_taken pc estat badv (program (ertn m1))) = Some (ToCaller (get m ra), m2) →
      sstatus f' = mem m2 (wrap (F + 264)) → one_run f f'.
Lemma one_run_status f f' : one_run f f' → status_interrupts (sstatus f') = status_interrupts (sstatus f).
Proof.
  intros [m F program pc estat badv m1 m2 Hp HF Hwf Hw Hd1 Hd2 Hcont Hrun Ht ->].
  destruct (la_round_trip m f F program pc estat badv Hp HF Hwf Hw Hd1 Hd2 Hcont) as (m1' & m2' & Hrun' & _ & _ & _ & _ & _ & Ht' & _ & _ & _ & Hb & _).
  rewrite Hrun in Hrun'. injection Hrun' as <-. rewrite Ht in Ht'. by injection Ht' as <-.
Qed.
(** The kernel makes a frame with status 0 ([TrapFrame::new_user]), and no other
    code of the kernel writes the status.  So however often the program runs,
    it never runs with interrupts: the timer does not end its time slice. *)
Theorem never_interrupted f entry stack m F :
  rtc one_run (new_user_frame entry stack) f →
  plv0 m = true → get m a0 = F → frame_wf f → words_at (mem m) F (frame_words f) →
  current_frame ∉ word_addrs F FRAME_WORDS → kernel_ra ∉ word_addrs F FRAME_WORDS →
  ∃ m1, exec_loong run_user m = Some (FromTrap, m1) ∧ user_mode (ertn m1) = true ∧ interrupts_on (ertn m1) = false.
Proof.
  intros Hruns Hp HF Hwf Hw Hd1 Hd2. assert (status_interrupts (sstatus f) = false) as Hs.
  { assert (∀ f1 f2, rtc one_run f1 f2 → status_interrupts (sstatus f1) = false → status_interrupts (sstatus f2) = false) as Hind.
    { intros f1 f2 Hr. induction Hr as [|? ? ? H12 _ IH]; [done|]. intros H1. apply IH. by rewrite (one_run_status _ _ H12). }
    by apply (Hind _ _ Hruns). }
  destruct (la_round_trip m f F (fun m => m) 0 0 0 Hp HF Hwf Hw Hd1 Hd2 ltac:(done)) as (m1 & m2 & Hrun & _ & _ & _ & Hu & Hi & _).
  exists m1. by rewrite Hi.
Qed.
End Run.
End AsmLoong.
