(* ===== verification/Cpu.v ===== *)
(** * The processors and the serial port (crates/hal-riscv64-virt/src/lib.rs, crates/hal-loongarch64-virt/src/lib.rs)

    What [VirtCpu] does with the control registers, the handlers of interrupts
    of the kernel with the callback they call, and the serial port. *)

From S2P Require Import Prelude AddrSpace PageLoong Discovery Block Platform Process Asm AsmRiscv AsmLoong.

Open Scope Z_scope.

Module Cpu.
Import Asm.

(** ** The handler of interrupts *)
(** The kernel's state beside the machine: the callback of the timer, 0 when
    there is none ([KERNEL_TRAP_HANDLER]). *)
Record cpu := mkCpu { trap_handler : Z; hardware : machine }.
Definition on_hardware (f : machine → machine) (c : cpu) : cpu := mkCpu (trap_handler c) (f (hardware c)).
Inductive trap_action := CallBack (cb : Z) | NoCallback | FatalTrap.
Definition timer_action (c : cpu) : trap_action := if trap_handler c =? 0 then NoCallback else CallBack (trap_handler c).

(** A vector for the kernel is set when the kernel has a callback. *)
Definition after_run_user (vector kernel_trap_entry : Z) (c : cpu) : cpu :=
  if trap_handler c =? 0 then c else on_hardware (set_csr vector kernel_trap_entry) c.
Definition set_kernel_timer_callback (vector kernel_trap_entry cb : Z) (c : cpu) : cpu :=
  on_hardware (set_csr vector kernel_trap_entry) (mkCpu cb (hardware c)).

(** ** riscv64 *)
Definition rv_SIE_BIT : Z := 1 ≪ 1.
Definition rv_SATP : Z := 0x180.
Definition rv_SIE : Z := 0x104.
Definition rv_STIMECMP : Z := 0x14d.
Definition rv_enable_interrupts (m : machine) : machine := set_csr AsmRiscv.sstatus (Z.lor (csr m AsmRiscv.sstatus) rv_SIE_BIT) m.
Definition rv_disable_interrupts (m : machine) : machine := set_csr AsmRiscv.sstatus (Z.land (csr m AsmRiscv.sstatus) (unot rv_SIE_BIT)) m.
Definition rv_interrupts_enabled (m : machine) : bool := negb (Z.land (csr m AsmRiscv.sstatus) rv_SIE_BIT =? 0).
Definition rv_switch_address_space (token : Z) (m : machine) : machine := set_csr rv_SATP (Platform.satp token) m.
(** [csrsi sstatus, 2]; the wait is the hardware's. *)
Definition rv_wait_for_interrupt (m : machine) : machine := rv_enable_interrupts m.
(** The registers of [program_oneshot]; the calls of the firmware are
    [Platform.program_oneshot]. *)
Definition rv_arm_timer (deadline_nanos : Z) (m : machine) : machine :=
  set_csr rv_STIMECMP (Platform.nanos_to_time_ticks deadline_nanos) (set_csr rv_SIE (Z.lor (csr m rv_SIE) (1 ≪ 5)) m).
Definition rv_kernel_trap_handler (scause : Z) (c : cpu) : trap_action :=
  let interrupt_bit := 1 ≪ 63 in
  if negb (Z.land scause interrupt_bit =? 0) && (Z.land scause (unot interrupt_bit) =? 5) then timer_action c else FatalTrap.

(** ** loongarch64 *)
Definition la_IE_BIT : Z := 1 ≪ 2.
Definition la_ECFG_TI : Z := 1 ≪ 11.
Definition la_CSR_TICLR : Z := 0x44.
Definition la_PGDL : Z := 0x19.
Definition la_PGDH : Z := 0x1a.
Definition la_enable_interrupts (m : machine) : machine := set_csr AsmLoong.CSR_CRMD (Z.lor (csr m AsmLoong.CSR_CRMD) la_IE_BIT) m.
Definition la_disable_interrupts (m : machine) : machine := set_csr AsmLoong.CSR_CRMD (Z.land (csr m AsmLoong.CSR_CRMD) (unot la_IE_BIT)) m.
Definition la_interrupts_enabled (m : machine) : bool := negb (Z.land (csr m AsmLoong.CSR_CRMD) la_IE_BIT =? 0).
(** The three writes, with the registers that the compiler chose for the
    operands; each of them exchanges. *)
Definition la_switch_code (root crmd : Z) : list instr := [AsmLoong.csrwr root la_PGDL; AsmLoong.csrwr root la_PGDH; AsmLoong.csrwr crmd AsmLoong.CSR_CRMD].
Definition la_new_crmd (crmd : Z) : Z := Z.lor (Z.land crmd (unot 0x1e8)) 0xb0.
Definition la_switch_address_space (root crmd token : Z) (m : machine) : machine :=
  steps (la_switch_code root crmd) (set root token (set crmd (la_new_crmd (csr m AsmLoong.CSR_CRMD)) m)).
Definition la_kernel_trap_handler (estat : Z) (c : cpu) : trap_action * cpu :=
  if negb (Z.land estat la_ECFG_TI =? 0) then (timer_action c, on_hardware (set_csr la_CSR_TICLR 1) c) else (FatalTrap, c).

(** ** The serial port *)
Inductive uart_access := ReadReg (a : Z) | WriteReg (a byte : Z).
(** riscv64 writes without a look at the status, and reads so too. *)
Definition rv_put_byte (base byte : Z) : list uart_access := [WriteReg base byte].
Definition rv_get_byte (receive : Z) : option Z := Some receive.
(** loongarch64 reads the line status until the transmitter is empty;
    [status] lists what the reads give.  [None]: not in so many reads. *)
Fixpoint la_put_byte (base byte : Z) (status : list Z) : option (list uart_access) :=
  match status with
  | [] => None
  | s :: rest =>
      if Z.land s (1 ≪ 5) =? 0 then a ← la_put_byte base byte rest; Some (ReadReg (base + 5) :: a)
      else Some [ReadReg (base + 5); WriteReg base byte]
  end.
Definition la_get_byte (status receive : Z) : option Z := if Z.land status 1 =? 0 then None else Some receive.
(** [ConsoleWriter::write_str] over [put_byte]. *)
Definition write_str (put_byte : Z → list uart_access) (s : list Z) : list uart_access := s ≫= put_byte.

(** ** The start of loongarch64 *)
Definition la_init_mmu (tlb_refill_entry : Z) (m : machine) : machine :=
  set_csr 0x88 tlb_refill_entry (set_csr 0x1d PtLoong.LA_PWCH_VALUE (set_csr 0x1c PtLoong.LA_PWCL_VALUE m)).
(** The interrupt controller is its base address; it enables, acknowledges and
    reports no interrupt. *)
Definition la_pic_configure (discovery : Discovery.LoongArchVirtioDiscovery) (base : Z) : Z :=
  match Discovery.interrupt discovery with Some config => Discovery.pch_pic_base config | None => base end.
Definition la_pic_is_ready (base : Z) : bool := negb (base =? 0).
Definition la_next_pending (base : Z) : option Z := None.

Section Bootstrap.
Context {Drv : Type} `{!Block.VirtIOBlk Drv}.
(** [block_bootstrap] is [Platform.la_bootstrap] with what the PCI bus says. *)
Context (block_bootstrap : Discovery.LoongArchVirtioDiscovery → Block.VirtioBlockDevice Drv → Block.VirtioBlockDevice Drv).
Record la_platform := mkLaPlatform { la_pic : Z; la_block : Block.VirtioBlockDevice Drv; la_regions : list MemoryRegion; la_machine : machine }.
(** Without a device tree the machine is taken to be the one of QEMU. *)
Definition la_discover (dtb_pa : Z) (tree : option (list Discovery.fdt_node)) : option Discovery.LoongArchVirtioDiscovery :=
  if dtb_pa =? 0 then Some Platform.qemu_virt_fallback else Discovery.parse_loongarch_virtio_discovery tree.
Definition la_platform_bootstrap (kernel_end tlb_refill_entry dtb_pa : Z) (tree : option (list Discovery.fdt_node)) (p : la_platform) : outcome la_platform :=
  regions ← Platform.memory_map 0x10000000 0x90000000 (512 * 1024 * 1024) kernel_end;
  let machine := la_init_mmu tlb_refill_entry (set_csr AsmLoong.CSR_EUEN 7 (la_machine p)) in
  Ok (match la_discover dtb_pa tree with
      | Some d => mkLaPlatform (la_pic_configure d (la_pic p)) (block_bootstrap d (la_block p)) regions machine
      | None => mkLaPlatform (la_pic p) (la_block p) regions machine
      end).
End Bootstrap.

(** ** The network device that both platforms register *)
Definition stub_can_send : bool := false.
Definition stub_can_recv : bool := false.
Definition stub_is_ready : bool := stub_can_send || stub_can_recv.
Definition stub_send_frame (frame : list Z) : outcome Z := Err 95.
Definition stub_recv_frame (len : Z) : outcome Z := Err 11.

(** ** What they do *)
Lemma land_shift_bit x k : 0 ≤ k → (Z.land x (1 ≪ k) =? 0) = negb (Z.testbit x k).
Proof.
  intros Hk. rewrite Z.shiftl_1_l. destruct (Z.testbit x k) eqn:Hb; [apply Z.eqb_neq|apply Z.eqb_eq].
  - intros He. assert (Z.testbit (Z.land x (2 ^ k)) k = true) as Ht by (by rewrite Z.land_spec, Z.pow2_bits_true, Hb).
    by rewrite He, Z.bits_0 in Ht.
  - apply Z.bits_inj_0. intros n. rewrite Z.land_spec, Z.pow2_bits_eqb by done. destruct (Z.eqb_spec k n) as [<-|]; [by rewrite Hb|by rewrite andb_false_r].
Qed.
Lemma unot_bits x k : 0 ≤ x < 2 ^ 64 → 0 ≤ k < 64 → Z.testbit (unot x) k = negb (Z.testbit x k).
Proof.
  intros Hx Hk. replace (unot x) with (Z.lnot x mod 2 ^ 64).
  - rewrite Z.mod_pow2_bits_low, Z.lnot_spec by lia. done.
  - symmetry. unfold unot. change USIZE_MAX with (2 ^ 64 - 1). apply Z.mod_unique_pos with (q := -1); unfold Z.lnot; lia.
Qed.
(** The flag of the interrupts, the other bits of the register. *)
Lemma flag_set x k i : 0 ≤ k → Z.testbit (Z.lor x (1 ≪ k)) i = (i =? k) || Z.testbit x i.
Proof. intros Hk. rewrite Z.lor_spec, Z.shiftl_1_l, Z.pow2_bits_eqb, orb_comm, Z.eqb_sym by done. done. Qed.
Lemma flag_clear x k i : 0 ≤ k < 64 → 0 ≤ i < 64 → Z.testbit (Z.land x (unot (1 ≪ k))) i = negb (i =? k) && Z.testbit x i.
Proof.
  intros Hk Hi. assert (0 ≤ 1 ≪ k < 2 ^ 64) as Hp by (rewrite Z.shiftl_1_l; split; [lia|apply Z.pow_lt_mono_r; lia]).
  rewrite Z.land_spec, unot_bits by lia. rewrite Z.shiftl_1_l, Z.pow2_bits_eqb, andb_comm, Z.eqb_sym by lia. done.
Qed.

Theorem rv_interrupts m :
  rv_interrupts_enabled (rv_enable_interrupts m) = true ∧ rv_interrupts_enabled (rv_disable_interrupts m) = false ∧
  rv_interrupts_enabled (rv_wait_for_interrupt m) = true ∧
  ∀ i, 0 ≤ i < 64 → i ≠ 1 → let bit m := Z.testbit (csr m AsmRiscv.sstatus) i in
    bit (rv_enable_interrupts m) = bit m ∧ bit (rv_disable_interrupts m) = bit m.
Proof.
  unfold rv_interrupts_enabled, rv_wait_for_interrupt, rv_enable_interrupts, rv_disable_interrupts, rv_SIE_BIT.
  cbn [csr set_csr]. rewrite !upd_eq, !land_shift_bit, !flag_set, !flag_clear, !negb_involutive by lia. split_and!; try done.
  intros i Hi Hn. rewrite flag_set, flag_clear, (proj2 (Z.eqb_neq i 1)) by lia. done.
Qed.
Theorem la_interrupts m :
  la_interrupts_enabled (la_enable_interrupts m) = true ∧ la_interrupts_enabled (la_disable_interrupts m) = false ∧
  ∀ i, 0 ≤ i < 64 → i ≠ 2 → let bit m := Z.testbit (csr m AsmLoong.CSR_CRMD) i in
    bit (la_enable_interrupts m) = bit m ∧ bit (la_disable_interrupts m) = bit m.
Proof.
  unfold la_interrupts_enabled, la_enable_interrupts, la_disable_interrupts, la_IE_BIT.
  cbn [csr set_csr]. rewrite !upd_eq, !land_shift_bit, !flag_set, !flag_clear, !negb_involutive by lia. split_and!; try done.
  intros i Hi Hn. rewrite flag_set, flag_clear, (proj2 (Z.eqb_neq i 2)) by lia. done.
Qed.

(** The first write leaves the old root of the lower half in the operand, which
    the second write puts into the register of the upper half: the two halves
    have different page tables. *)
Theorem la_switch m root crmd token : root ≠ 0 → crmd ≠ 0 → root ≠ crmd →
  let m' := la_switch_address_space root crmd token m in
  csr m' la_PGDL = token ∧ csr m' la_PGDH = csr m la_PGDL ∧
  csr m' AsmLoong.CSR_CRMD = la_new_crmd (csr m AsmLoong.CSR_CRMD) ∧ mem m' = mem m.
Proof.
  intros Hr Hc Hn m'. unfold m', la_switch_address_space, la_switch_code, AsmLoong.csrwr. asm_eval.
  rewrite !Z.eqb_refl, (proj2 (Z.eqb_neq root 0)), (proj2 (Z.eqb_neq crmd 0)), (proj2 (Z.eqb_neq root crmd)) by done. done.
Qed.
(** The mode and the interrupts stay. *)
Lemma new_crmd_mode x : Z.land (la_new_crmd x) 7 = Z.land x 7.
Proof.
  unfold la_new_crmd. rewrite Z.land_lor_distr_l, <- Z.land_assoc. change (Z.land (unot 0x1e8) 7) with 7.
  change (Z.land 0xb0 7) with 0. by rewrite Z.lor_0_r.
Qed.

(** After the start the walk of the refill handler has the geometry that the
    page tables are built with, and programs have their floating-point unit. *)
Theorem la_start `{!Block.VirtIOBlk Drv} boot kernel_end entry dtb_pa tree (p : la_platform) : 0 ≤ kernel_end < 2 ^ 63 →
  ∃ p', la_platform_bootstrap (Drv := Drv) boot kernel_end entry dtb_pa tree p = Ok p' ∧
    csr (la_machine p') 0x1c = PtLoong.LA_PWCL_VALUE ∧ csr (la_machine p') 0x1d = PtLoong.LA_PWCH_VALUE ∧
    csr (la_machine p') 0x88 = entry ∧ csr (la_machine p') AsmLoong.CSR_EUEN = 7.
Proof.
  intros Hk. unfold la_platform_bootstrap, Platform.memory_map. rewrite uadd_ok by (unfold USIZE_MAX; lia). cbn [mbind outcome_bind].
  eexists. split; [done|]. by destruct (la_discover dtb_pa tree).
Qed.

(** An interrupt of the kernel of riscv64 is the timer's when its cause is the
    fifth interrupt; every other trap of the kernel ends it. *)
Theorem rv_kernel_trap scause c : 0 ≤ scause < 2 ^ 64 →
  rv_kernel_trap_handler scause c = if scause =? 2 ^ 63 + 5 then timer_action c else FatalTrap.
Proof.
  intros Hs. unfold rv_kernel_trap_handler. change (1 ≪ 63) with (2 ^ 63).
  assert (Z.land scause (unot (2 ^ 63)) = scause mod 2 ^ 63) as ->.
  { change (unot (2 ^ 63)) with (Z.ones 63). apply Z.land_ones. lia. }
  replace (Z.land scause (2 ^ 63) =? 0) with (scause <? 2 ^ 63).
  - destruct (Z.ltb_spec scause (2 ^ 63)); cbn [negb andb].
    + by rewrite (proj2 (Z.eqb_neq scause (2 ^ 63 + 5))) by lia.
    + rewrite <- (Z.mod_unique_pos scause (2 ^ 63) 1 (scause - 2 ^ 63)) by lia.
      destruct (Z.eqb_spec (scause - 2 ^ 63) 5), (Z.eqb_spec scause (2 ^ 63 + 5)); done || lia.
  - change (2 ^ 63) with (1 ≪ 63) at 2. rewrite land_shift_bit by lia. destruct (Z.ltb_spec scause (2 ^ 63)) as [Hl|Hl].
    + rewrite Z.testbit_eqb, Z.div_small by lia. done.
    + assert (Z.testbit scause 63 = true) as ->; [|done]. apply Z.testbit_true; [lia|].
      by rewrite <- (Z.div_unique_pos scause (2 ^ 63) 1 (scause - 2 ^ 63)) by lia.
Qed.
(** On loongarch64 the bit of the pending timer decides, whatever the exception
    is: a fault of the kernel while the timer is pending is not seen as one. *)
Theorem la_pending_timer estat c : Z.testbit estat 11 = true →
  la_kernel_trap_handler estat c = (timer_action c, on_hardware (set_csr la_CSR_TICLR 1) c).
Proof. intros Hb. unfold la_kernel_trap_handler, la_ECFG_TI. by rewrite land_shift_bit, Hb. Qed.

(** The byte is written once, after the first read that shows room, and only
    then. *)
Theorem la_put_byte_spec base byte busy ready rest :
  Forall (fun s => Z.testbit s 5 = false) busy → Z.testbit ready 5 = true →
  la_put_byte base byte (busy ++ ready :: rest) = Some (replicate (S (length busy)) (ReadReg (base + 5)) ++ [WriteReg base byte]).
Proof.
  intros Hb Hr. induction Hb as [|s busy Hs _ IH]; cbn [app la_put_byte length]; rewrite land_shift_bit by lia; [by rewrite Hr|].
  rewrite Hs. cbn [negb]. by rewrite IH.
Qed.
End Cpu.
