(* ===== verification/Idle.v ===== *)
(** * Running, waiting and interrupts (crates/kernel-core/src/lib_riscv.inc.rs)

    The loop from the boot on; its rounds while nothing is ready and no process
    but the first one lives, which change nothing but the books of the
    watchdog; the timer callback of idle time and the service of device
    interrupts. *)

From S2P Require Import Prelude Task AddrSpace FileObject Vfs Process KernelEnv ProcTable Sys SysProc SysExec KernelCore.

Open Scope list_scope.
Open Scope Z_scope.

Module Idle.
Import Proc PTable Sys KernelCore.

Section Idle.
Context {M : Type} `{!Obj.Ext4Ops M} `{!HalMemory} (can_reserve : Z → bool) (loongarch : bool) (heap : kernel M → Z).
Context (builtin_program : string → option SysExec.BuiltinProgram).
Abbreviation round := (round can_reserve loongarch heap builtin_program).
Abbreviation core_step := (core_step can_reserve loongarch heap builtin_program).
Implicit Types (k : kernel M) (c : core M).

(** Nothing is ready, and all live processes are the first one and its threads. *)
Definition quiet k : Prop := Sched.ensure_current (k_sched k) = (None, k_sched k) ∧ has_non_init (k_table k) = false.
(** Equal but for the clock. *)
Definition same_state k k' : Prop := ∃ time nanos,
  k' = mkKernel (k_table k) (k_sched k) (k_locks k) (k_acct k) (k_shm k) (k_timex k) (k_keys k) (k_busybox k) time nanos.

Lemma watched_none (l : list ProcessSnapshot) :
  existsb (fun s => (1 <? sn_tgid s) && negb (sn_is_thread s)) l = false → watched_groups l = ∅.
Proof.
  unfold watched_groups. generalize (∅ : gmap Z string). induction l as [|s l IH]; intros m; [done|].
  cbn [existsb foldl]. intros [Hs Hl]%orb_false_iff. rewrite <- (IH m Hl).
  assert (sn_is_thread s || (sn_tgid s <=? 1) = true) as ->; [|by rewrite IH].
  destruct (sn_is_thread s); [done|]. rewrite andb_true_r in Hs. apply Z.ltb_ge in Hs. by apply Z.leb_le.
Qed.
Lemma scan_quiet now c : has_non_init (k_table (c_kernel c)) = false →
  ∃ w, scan_groups can_reserve now c = (Ok false, mkCore (c_kernel c) w).
Proof.
  intros Hn. unfold scan_groups. stm_step. rewrite (watched_none _ Hn). unfold set_watch. stm_step. stm_step. simpl. by eexists.
Qed.
Lemma watchdog_quiet c : has_non_init (k_table (c_kernel c)) = false →
  ∃ w, enforce_oscomp_watchdog can_reserve c = (Ok false, mkCore (c_kernel c) w).
Proof.
  intros Hn. unfold enforce_oscomp_watchdog. stm_step. destruct (watchdog_now _ _) as [now w]. unfold set_watch. stm_step.
  destruct (negb _ && _); [by eexists|]. stm_step.
  exact (scan_quiet now (mkCore (c_kernel c) (with_scan now w)) Hn).
Qed.
Lemma round_quiet run_user c : quiet (c_kernel c) → ∃ w, (round run_user c).2 = mkCore (c_kernel c) w.
Proof.
  intros [Hs Hn]. unfold KernelCore.round. rewrite stm_bind_eq. destruct (watchdog_quiet c Hn) as [w ->]. cbv iota.
  rewrite stm_bind_eq. unfold on_kernel at 1, on_sched. cbn [c_kernel c_watch]. rewrite Hs.
  assert (with_sched (k_sched (c_kernel c)) (c_kernel c) = c_kernel c) as -> by (by destruct (c_kernel c)).
  unfold idle. stm_step. cbn [c_kernel]. rewrite Hn. by exists w.
Qed.

Lemma same_refl k : same_state k k.
Proof. exists (k_time k), (k_nanos k). by destruct k. Qed.
Lemma same_quiet k k' : same_state k k' → quiet k → quiet k'.
Proof. by intros (? & ? & ->). Qed.

Lemma quiet_stays c c' : quiet (c_kernel c) → rtc core_step c c' → same_state (c_kernel c) (c_kernel c').
Proof.
  intros Hq Hr. assert (same_state (c_kernel c) (c_kernel c)) as Hs by apply same_refl.
  enough (∀ k, quiet k → same_state k (c_kernel c) → same_state k (c_kernel c')) as He by (by apply He).
  clear Hq Hs. induction Hr as [c|c c1 c' Hstep _ IH]; intros k Hq Hs; [done|]. apply IH; [done|].
  destruct Hstep as [run_user c|time nanos ticks c].
  - destruct (round_quiet run_user c (same_quiet _ _ Hs Hq)) as [w ->]. done.
  - destruct Hs as (? & ? & ->). by eexists _, _.
Qed.

(** C40: No wait ends where the first process is alone. When no thread is ready
    and all live processes are the first one and its threads, then, whatever
    programs there are, whatever time passes and however often
    the timer ticks, the rounds of the loop change nothing but the clock and the
    books of the watchdog. A thread that sleeps until [d] is still blocked after
    [d], though the kernel's own test for ended waits names it. *)
Theorem waits_for_ever c i p d : quiet (c_kernel c) →
  processes (k_table (c_kernel c)) !! i = Some p → sleep_deadline_ns p = Some d → d < U64_MAX →
  Sched.is_blocked (k_sched (c_kernel c)) (tid p) = true →
  (∀ c', rtc core_step c c' → same_state (c_kernel c) (c_kernel c') ∧ Sched.is_blocked (k_sched (c_kernel c')) (tid p) = true) ∧
  ∃ c', rtc core_step c c' ∧ d < k_nanos (c_kernel c') ∧
    tid p ∈ timed_wait_expired_tids (k_table (c_kernel c')) (k_nanos (c_kernel c')).
Proof.
  intros Hq Hp Hd Hlt Hb. split.
  - intros c' Hr. destruct (quiet_stays c c' Hq Hr) as (time & nanos & He). rewrite He. split; [by exists time, nanos|exact Hb].
  - eexists. split; [apply rtc_once, (cs_clock _ _ _ _ (k_time (c_kernel c)) (d + 1) (w_idle_ticks (c_watch c)))|].
    simpl. split; [lia|]. unfold timed_wait_expired_tids. apply list_elem_of_omap. exists p. split.
    + apply elem_of_values. by exists i.
    + unfold expired at 1. rewrite Hd. destruct (Z.eqb_spec d U64_MAX); [lia|]. destruct (Z.leb_spec d (d + 1)); [done|lia].
Qed.

(** ** From the boot on *)
(** The first [n] rounds, [run_user i] being what the program does in round [i]. *)
Fixpoint run_forever (run_user : nat → user_program) (n : nat) c : core M :=
  match n with
  | O => c
  | S n' => run_forever (fun i => run_user (S i)) n' (round (run_user O) c).2
  end.
Definition boot_forever (supports_userspace : bool) (run_user : nat → user_program) (n : nat) k : outcome (core M) :=
  match KernelCore.bootstrap can_reserve loongarch builtin_program k with
  | (Ok _, k') => let c := mkCore k' no_watch in Ok (if supports_userspace then run_forever run_user n c else c)
  | (Err e, _) => Err e
  | (Panic, _) => Panic
  | (Diverge, _) => Diverge
  end.
Lemma run_forever_steps run_user n c : rtc core_step c (run_forever run_user n c).
Proof. revert run_user c. induction n as [|n IH]; intros run_user c; [done|]. eapply rtc_l; [apply cs_round|]. apply IH. Qed.
End Idle.

(** ** Interrupts *)
(** The callback counts and sets the timer to the next slice. *)
Definition kernel_idle_timer_cb (now ticks : Z) : Z * Z := ((ticks + 1) mod 2 ^ 64, Z.min (now + SCHED_TIME_SLICE_NS) U64_MAX).

(** The controller and the block devices, which have numbers. *)
Class HalIrqs (S : Type) := {
  next_pending : S → option Z * S;
  ack_irq : Z → S → S;
  ack_interrupt : nat → S → S;
}.
Section Service.
Context {S : Type} `{!HalIrqs S} (irq_lines : list (option Z)).
Definition ack_devices (is_due : option Z → bool) (s : S) : S :=
  foldl (fun s '(n, line) => if is_due line then ack_interrupt n s else s) s (imap pair irq_lines).
Fixpoint service_pending (fuel : nat) (s : S) : outcome S :=
  match fuel with
  | O => Diverge
  | Datatypes.S fuel' =>
      match next_pending s with
      | (Some irq, s1) => service_pending fuel' (ack_irq irq (ack_devices (fun line => bool_decide (line = Some irq)) s1))
      | (None, s1) => Ok s1
      end
  end.
Definition service_irqs (fuel : nat) (s : S) : outcome S := s ← service_pending fuel s; Ok (ack_devices (fun _ => true) s).
End Service.

(** A board on which no interrupt arrives meanwhile, and what happens on it. *)
Inductive irq_event := DeviceAcked (n : nat) | Completed (irq : Z).
Record board := mkBoard { b_pending : list Z; b_log : list irq_event }.
Definition log_event (e : irq_event) (b : board) : board := mkBoard (b_pending b) (b_log b ++ [e]).
#[export] Instance board_irqs : HalIrqs board := {|
  next_pending b := match b_pending b with irq :: rest => (Some irq, mkBoard rest (b_log b)) | [] => (None, b) end;
  ack_irq irq := log_event (Completed irq);
  ack_interrupt n := log_event (DeviceAcked n);
|}.
Definition devices_due (irq_lines : list (option Z)) (is_due : option Z → bool) : list irq_event :=
  (fun x => DeviceAcked x.1) <$> List.filter (fun x => is_due x.2) (imap pair irq_lines).
Lemma ack_devices_log irq_lines is_due b :
  ack_devices irq_lines is_due b = mkBoard (b_pending b) (b_log b ++ devices_due irq_lines is_due).
Proof.
  unfold ack_devices, devices_due. revert b. induction (imap pair irq_lines) as [|[n line] l IH]; intros b.
  - simpl. rewrite app_nil_r. by destruct b.
  - cbn [foldl List.filter snd]. destruct (is_due line); rewrite IH; [|done]. simpl. by rewrite <- app_assoc.
Qed.
(** The service ends; each pending interrupt is completed once, after the
    devices on its line have been acknowledged, and at the end every device is
    acknowledged again. *)
Theorem service_irqs_log irq_lines b : let due irq := devices_due irq_lines (fun line => bool_decide (line = Some irq)) in
  service_irqs irq_lines (S (length (b_pending b))) b =
  Ok (mkBoard [] (b_log b ++ concat ((fun irq => due irq ++ [Completed irq]) <$> b_pending b) ++ devices_due irq_lines (fun _ => true))).
Proof.
  intros due. unfold service_irqs.
  assert (service_pending irq_lines (S (length (b_pending b))) b =
    Ok (mkBoard [] (b_log b ++ concat ((fun irq => due irq ++ [Completed irq]) <$> b_pending b)))) as ->.
  { destruct b as [pending l]. simpl b_pending. simpl b_log. revert l. induction pending as [|irq pending IH]; intros l.
    - simpl. by rewrite app_nil_r.
    - cbn [length]. set (n := S (length pending)) in *. cbn [service_pending]. cbn [next_pending board_irqs b_pending]. rewrite ack_devices_log. cbn [ack_irq board_irqs].
      unfold log_event. cbn [b_pending b_log]. etrans; [apply IH|]. cbn [fmap list_fmap concat]. by rewrite <- !app_assoc. }
  cbn [mbind outcome_bind]. rewrite ack_devices_log. cbn [b_pending b_log]. by rewrite <- app_assoc.
Qed.
End Idle.
