(* ===== verification/Rv64.v ===== *)
(** * User programs of riscv64

    The instructions of the programs assembled into the kernel: their words,
    their assembly lines, and the processor that fetches them through the page
    table of the kernel and runs them with the rights of a user until a trap.
    The words are those of the RV64I manual, without compressed forms. *)

From S2P Require Import Prelude AddrSpace PageTable Vfs Process Asm KernelCore.

Open Scope string_scope.
Open Scope list_scope.
Open Scope Z_scope.

Module Rv64.
Import Mm Pt Proc.

(** ** Words made of fields *)
Section Fields.
(** Fields from the lowest bits up: a width and a value. *)
Fixpoint pack (l : list (Z * Z)) : Z :=
  match l with [] => 0 | (w, v) :: l' => v + 2 ^ w * pack l' end.
Fixpoint unpack (ws : list Z) (z : Z) : list Z :=
  match ws with [] => [] | w :: ws' => z mod 2 ^ w :: unpack ws' (z / 2 ^ w) end.
Definition fits (x : Z * Z) : Prop := 0 ≤ x.1 ∧ 0 ≤ x.2 < 2 ^ x.1.
Lemma unpack_pack l : Forall fits l → unpack l.*1 (pack l) = l.*2.
Proof.
  induction 1 as [|[w v] l [Hw Hv] _ IH]; [done|]. cbn [pack fmap list_fmap fst snd unpack] in *.
  rewrite (Z.mul_comm (2 ^ w)), Z.mod_add, Z.mod_small, Z.div_add, Z.div_small, Z.add_0_l, IH by lia. done.
Qed.
Definition sext (n v : Z) : Z := if v <? 2 ^ (n - 1) then v else v - 2 ^ n.
Definition signed_fits (n v : Z) : Prop := - 2 ^ (n - 1) ≤ v < 2 ^ (n - 1).
Lemma sext_mod n v : 0 < n → signed_fits n v → sext n (v mod 2 ^ n) = v.
Proof.
  unfold sext, signed_fits. intros Hn Hv. assert (2 ^ n = 2 * 2 ^ (n - 1)) as Hp by (rewrite <- Z.pow_succ_r by lia; f_equal; lia).
  rewrite Hp in *. destruct (Z.ltb_spec v 0).
  - assert (v mod (2 * 2 ^ (n - 1)) = v + 2 * 2 ^ (n - 1)) as ->.
    { rewrite <- (Z.mod_add v 1) by lia. rewrite Z.mul_1_l. apply Z.mod_small. lia. }
    destruct (Z.ltb_spec (v + 2 * 2 ^ (n - 1)) (2 ^ (n - 1))); lia.
  - rewrite Z.mod_small by lia. destruct (Z.ltb_spec v (2 ^ (n - 1))); lia.
Qed.
End Fields.

(** ** Instructions *)
Inductive insn :=
  | Lui (rd imm : Z) | Auipc (rd imm : Z)
  | Addi (rd rs imm : Z) | Addiw (rd rs imm : Z)
  | Lw (rd rs imm : Z) | Sw (rs2 rs1 imm : Z) | Sd (rs2 rs1 imm : Z)
  | Beq (rs1 rs2 off : Z) | Bne (rs1 rs2 off : Z)
  | Jal (rd off : Z) | Ecall.

Definition i_type (op f3 rd rs imm : Z) : Z := pack [(7, op); (5, rd); (3, f3); (5, rs); (12, imm mod 2 ^ 12)].
Definition s_type (f3 rs2 rs1 imm : Z) : Z :=
  let u := imm mod 2 ^ 12 in pack [(7, 0x23); (5, u mod 32); (3, f3); (5, rs1); (5, rs2); (7, u / 32)].
(** The offset of a branch is even; its bits 11 and 12 stand apart. *)
Definition b_type (f3 rs1 rs2 off : Z) : Z :=
  let u := off mod 2 ^ 13 / 2 in
  pack [(7, 0x63); (1, u / 2 ^ 10 mod 2); (4, u mod 16); (3, f3); (5, rs1); (5, rs2); (6, u / 16 mod 64); (1, u / 2 ^ 11)].
Definition u_type (op rd imm : Z) : Z := pack [(7, op); (5, rd); (20, imm mod 2 ^ 20)].
Definition j_type (rd off : Z) : Z :=
  let u := off mod 2 ^ 21 / 2 in
  pack [(7, 0x6f); (5, rd); (8, u / 2 ^ 11 mod 2 ^ 8); (1, u / 2 ^ 10 mod 2); (10, u mod 2 ^ 10); (1, u / 2 ^ 19)].

Definition encode (i : insn) : Z :=
  match i with
  | Lui rd imm => u_type 0x37 rd imm
  | Auipc rd imm => u_type 0x17 rd imm
  | Addi rd rs imm => i_type 0x13 0 rd rs imm
  | Addiw rd rs imm => i_type 0x1b 0 rd rs imm
  | Lw rd rs imm => i_type 0x03 2 rd rs imm
  | Sw rs2 rs1 imm => s_type 2 rs2 rs1 imm
  | Sd rs2 rs1 imm => s_type 3 rs2 rs1 imm
  | Beq rs1 rs2 off => b_type 0 rs1 rs2 off
  | Bne rs1 rs2 off => b_type 1 rs1 rs2 off
  | Jal rd off => j_type rd off
  | Ecall => 0x73
  end.

Definition decode_i (w : Z) (mk : Z → Z → Z → insn) (f3 : Z) : option insn :=
  match unpack [7; 5; 3; 5; 12] w with
  | [_; rd; f; rs; imm] => if f =? f3 then Some (mk rd rs (sext 12 imm)) else None
  | _ => None
  end.
Definition decode_s (w : Z) : option insn :=
  match unpack [7; 5; 3; 5; 5; 7] w with
  | [_; lo; f; rs1; rs2; hi] =>
      let imm := sext 12 (lo + 32 * hi) in
      if f =? 2 then Some (Sw rs2 rs1 imm) else if f =? 3 then Some (Sd rs2 rs1 imm) else None
  | _ => None
  end.
Definition decode_b (w : Z) : option insn :=
  match unpack [7; 1; 4; 3; 5; 5; 6; 1] w with
  | [_; b11; lo; f; rs1; rs2; mid; b12] =>
      let off := sext 13 (2 * (lo + 16 * mid + 2 ^ 10 * b11 + 2 ^ 11 * b12)) in
      if f =? 0 then Some (Beq rs1 rs2 off) else if f =? 1 then Some (Bne rs1 rs2 off) else None
  | _ => None
  end.
Definition decode_u (w : Z) (mk : Z → Z → insn) : option insn :=
  match unpack [7; 5; 20] w with [_; rd; imm] => Some (mk rd (sext 20 imm)) | _ => None end.
Definition decode_j (w : Z) : option insn :=
  match unpack [7; 5; 8; 1; 10; 1] w with
  | [_; rd; hi; b11; lo; b20] => Some (Jal rd (sext 21 (2 * (lo + 2 ^ 10 * b11 + 2 ^ 11 * hi + 2 ^ 19 * b20))))
  | _ => None
  end.
Definition decode (w : Z) : option insn :=
  let op := w mod 2 ^ 7 in
  if op =? 0x37 then decode_u w Lui
  else if op =? 0x17 then decode_u w Auipc
  else if op =? 0x13 then decode_i w Addi 0
  else if op =? 0x1b then decode_i w Addiw 0
  else if op =? 0x03 then decode_i w Lw 2
  else if op =? 0x23 then decode_s w
  else if op =? 0x63 then decode_b w
  else if op =? 0x6f then decode_j w
  else if w =? 0x73 then Some Ecall
  else None.

Definition reg_ok (r : Z) : Prop := 0 ≤ r < 32.
Definition off_ok (n off : Z) : Prop := signed_fits n off ∧ off mod 2 = 0.
Definition insn_ok (i : insn) : Prop :=
  match i with
  | Lui rd imm | Auipc rd imm => reg_ok rd ∧ signed_fits 20 imm
  | Addi rd rs imm | Addiw rd rs imm | Lw rd rs imm | Sw rd rs imm | Sd rd rs imm => reg_ok rd ∧ reg_ok rs ∧ signed_fits 12 imm
  | Beq r1 r2 off | Bne r1 r2 off => reg_ok r1 ∧ reg_ok r2 ∧ off_ok 13 off
  | Jal rd off => reg_ok rd ∧ off_ok 21 off
  | Ecall => True
  end.

Lemma pack_op op l : 0 ≤ op < 2 ^ 7 → pack ((7, op) :: l) mod 2 ^ 7 = op.
Proof. intros Ho. cbn [pack]. rewrite Z.mul_comm, Z.mod_add, Z.mod_small by lia. done. Qed.
(** What the fields of a word say. *)
Lemma unpack_as ws vs w : w = pack (zip ws vs) → length ws = length vs → Forall fits (zip ws vs) → unpack ws w = vs.
Proof. intros -> Hl Hf. rewrite <- (fst_zip ws vs) at 1 by lia. rewrite unpack_pack by done. apply snd_zip. lia. Qed.
Ltac fields :=
  lazymatch goal with
  | |- Forall _ _ => cbn [zip zip_with]; repeat constructor; unfold fits, reg_ok in *; cbn [fst snd]; Z.to_euclidean_division_equations; lia
  | |- _ => reflexivity
  end.
Lemma decode_i_spec op mk f3 rd rs imm : reg_ok rd → reg_ok rs → signed_fits 12 imm → 0 ≤ op < 2 ^ 7 → 0 ≤ f3 < 8 →
  decode_i (i_type op f3 rd rs imm) mk f3 = Some (mk rd rs imm).
Proof.
  intros Hd Hs Hi Ho Hf. unfold decode_i, i_type.
  rewrite (unpack_as _ [op; rd; f3; rs; imm mod 2 ^ 12]) by fields.
  by rewrite Z.eqb_refl, sext_mod.
Qed.
Lemma decode_u_spec op mk rd imm : reg_ok rd → signed_fits 20 imm → 0 ≤ op < 2 ^ 7 → decode_u (u_type op rd imm) mk = Some (mk rd imm).
Proof.
  intros Hd Hi Ho. unfold decode_u, u_type. rewrite (unpack_as _ [op; rd; imm mod 2 ^ 20]) by fields.
  by rewrite sext_mod.
Qed.
Lemma decode_s_spec f3 rs2 rs1 imm : reg_ok rs2 → reg_ok rs1 → signed_fits 12 imm → f3 = 2 ∨ f3 = 3 →
  decode_s (s_type f3 rs2 rs1 imm) = Some (if f3 =? 2 then Sw rs2 rs1 imm else Sd rs2 rs1 imm).
Proof.
  intros H2 H1 Hi Hf. unfold decode_s, s_type. set (u := imm mod 2 ^ 12). assert (0 ≤ u < 2 ^ 12) by (by apply Z.mod_pos_bound).
  rewrite (unpack_as _ [0x23; u mod 32; f3; rs1; rs2; u / 32]) by fields.
  replace (u mod 32 + 32 * (u / 32)) with u by (Z.to_euclidean_division_equations; lia).
  unfold u. rewrite sext_mod by done. by destruct Hf as [-> | ->].
Qed.
Lemma even_half n off : 0 < n → off_ok n off → 2 * (off mod 2 ^ n / 2) = off mod 2 ^ n.
Proof.
  intros Hn [_ Ho%Z.mod_divide] ; [|done]. destruct Ho as [q ->].
  replace (2 ^ n) with (2 ^ (n - 1) * 2) by (rewrite Z.mul_comm, <- Z.pow_succ_r by lia; f_equal; lia).
  rewrite Z.mul_mod_distr_r, Z.div_mul by lia. apply Z.mul_comm.
Qed.
Lemma decode_b_spec f3 rs1 rs2 off : reg_ok rs1 → reg_ok rs2 → off_ok 13 off → f3 = 0 ∨ f3 = 1 →
  decode_b (b_type f3 rs1 rs2 off) = Some (if f3 =? 0 then Beq rs1 rs2 off else Bne rs1 rs2 off).
Proof.
  intros H1 H2 Ho Hf. pose proof (even_half 13 off ltac:(lia) Ho) as He. unfold decode_b, b_type.
  set (u := off mod 2 ^ 13 / 2) in *. assert (0 ≤ u < 2 ^ 12).
  { pose proof (Z.mod_pos_bound off (2 ^ 13) ltac:(lia)). change (2 ^ 13) with (2 * 2 ^ 12) in *. lia. }
  rewrite (unpack_as _ [0x63; u / 2 ^ 10 mod 2; u mod 16; f3; rs1; rs2; u / 16 mod 64; u / 2 ^ 11]) by fields.
  replace (u mod 16 + 16 * (u / 16 mod 64) + 2 ^ 10 * (u / 2 ^ 10 mod 2) + 2 ^ 11 * (u / 2 ^ 11)) with u
    by (Z.to_euclidean_division_equations; lia).
  rewrite He, sext_mod by (lia || apply Ho). by destruct Hf as [-> | ->].
Qed.
Lemma decode_j_spec rd off : reg_ok rd → off_ok 21 off → decode_j (j_type rd off) = Some (Jal rd off).
Proof.
  intros H1 Ho. pose proof (even_half 21 off ltac:(lia) Ho) as He. unfold decode_j, j_type.
  set (u := off mod 2 ^ 21 / 2) in *. assert (0 ≤ u < 2 ^ 20).
  { pose proof (Z.mod_pos_bound off (2 ^ 21) ltac:(lia)). change (2 ^ 21) with (2 * 2 ^ 20) in *. lia. }
  rewrite (unpack_as _ [0x6f; rd; u / 2 ^ 11 mod 2 ^ 8; u / 2 ^ 10 mod 2; u mod 2 ^ 10; u / 2 ^ 19]) by fields.
  replace (u mod 2 ^ 10 + 2 ^ 10 * (u / 2 ^ 10 mod 2) + 2 ^ 11 * (u / 2 ^ 11 mod 2 ^ 8) + 2 ^ 19 * (u / 2 ^ 19)) with u
    by (Z.to_euclidean_division_equations; lia).
  rewrite He, sext_mod by (lia || apply Ho). done.
Qed.

(** The operation is in the lowest seven bits. *)
Definition opcode (i : insn) : Z :=
  match i with
  | Lui _ _ => 0x37 | Auipc _ _ => 0x17 | Addi _ _ _ => 0x13 | Addiw _ _ _ => 0x1b | Lw _ _ _ => 0x03
  | Sw _ _ _ | Sd _ _ _ => 0x23 | Beq _ _ _ | Bne _ _ _ => 0x63 | Jal _ _ => 0x6f | Ecall => 0x73
  end.
Lemma encode_op i : encode i mod 2 ^ 7 = opcode i.
Proof. destruct i; [by apply pack_op..|done]. Qed.

(** The processor reads back what the assembler wrote. *)
Theorem decode_encode i : insn_ok i → decode (encode i) = Some i.
Proof.
  unfold decode. cbv zeta. rewrite encode_op. destruct i; cbn [opcode insn_ok encode Z.eqb Pos.eqb]; intros Hok; destruct_and?.
  1-2: by rewrite decode_u_spec.
  1-3: by rewrite decode_i_spec.
  1-2: rewrite decode_s_spec by auto; done.
  1-2: rewrite decode_b_spec by auto; done.
  - by rewrite decode_j_spec.
  - done.
Qed.

(** ** Memory as the hardware sees it *)
Section Mmu.
Context `{!HalMemory}.
Implicit Types (i : AddressSpaceInner) (mem : gmap Z Z).

(** The entry for a page of a user: that of the last segment with the page. *)
Definition user_entry i (va : Z) : option Z :=
  (fun s => seg_pte s va) <$> find_first (fun s => in_pages s va) (reverse (values (mappings i))).

(** It is the one of the table that the kernel builds for the space. *)
Lemma user_entry_walk fresh `{!PageHeap fresh} i : (∀ k s, mappings i !! k = Some s → ∃ phys, mappable s phys) →
  ∃ b, build_riscv_page_table fresh i = Ok (with_table i b) ∧
    ∀ va, 0 ≤ va < 2 ^ 39 → in_kernel_window va = false → in_mmio_window va = false → snd <$> sv39_walk b va = user_entry i va.
Proof.
  intros Hmp. unfold build_riscv_page_table. fold KERNEL_FLAGS MMIO_FLAGS.
  destruct (kernel_windows_spec fresh) as (b1 & b2 & -> & Hm2 & Hb2 & Hid). cbn [mbind outcome_bind].
  rewrite Hm2. cbn [mbind outcome_bind]. unfold map_segment_pages_riscv. pose proof (sv39_builder_laws fresh) as Hl.
  destruct (map_segments_spec _ _ _ _ _ _ _ _ _ _ 0x80000000 0x100000000 riscv_segment_pte_flags segment_flags_leaf
    (values (mappings i)) 0 b2 Hb2 I) as (b & -> & _ & Hw).
  { apply Forall_forall. intros s [k Hk]%elem_of_values. by apply (Hmp k). }
  exists b. split; [done|]. intros va Hva Hk Hm. assert (mega sv39_walk b2 va = false) as Hg by (unfold mega; by rewrite Hid, Hm, Hk).
  rewrite Hw, Hg by done. unfold user_entry, seg_pte. destruct (find_first _ _); [done|]. by rewrite Hid, Hm, Hk.
Qed.

(** What an entry lets a user do: every bit of [flags] has to be there. *)
Definition allows (pte flags : Z) : bool := Z.land pte flags =? flags.
Definition page_frame (pte : Z) : Z := Z.shiftl (Z.shiftr pte 10) 12.
Definition user_access i (flag va : Z) : option Z :=
  match user_entry i va with
  | Some pte =>
      if allows pte (Z.lor (Z.lor RISCV_PTE_V RISCV_PTE_U) flag) then Some (phys_to_virt (page_frame pte + va mod PAGE_SIZE)) else None
  | None => None
  end.

(** The kernel's addresses of [n] bytes; a fault is a cause and a value. *)
Fixpoint addresses i (flag cause : Z) (n : nat) (va : Z) : list Z + Z * Z :=
  match n with
  | O => inl []
  | S n' =>
      match user_access i flag va with
      | None => inr (cause, va)
      | Some a => match addresses i flag cause n' (Asm.wrap (va + 1)) with inl l => inl (a :: l) | inr e => inr e end
      end
  end.
Definition load i (flag cause : Z) (n : nat) (va : Z) mem : Z + Z * Z :=
  match addresses i flag cause n va with inl l => inl (from_le_bytes ((fun a => default 0 (mem !! a)) <$> l)) | inr e => inr e end.
Definition store i (n : nat) (va v : Z) mem : gmap Z Z + Z * Z :=
  match addresses i RISCV_PTE_W 15 n va with
  | inl l => inl (foldl (fun m '(a, b) => <[a := b]> m) mem (zip l (to_le_bytes n v)))
  | inr e => inr e
  end.

(** ** The processor *)
Definition rget (f : TrapFrame) (r : Z) : Z := if r =? 0 then 0 else default 0 (regs f !! Z.to_nat r).
Definition rset (r v : Z) (f : TrapFrame) : TrapFrame := if r =? 0 then f else set_reg (Z.to_nat r) (Asm.wrap v) f.
(** The program counter, which a trap leaves in [sepc]. *)
Definition jump (pc : Z) (f : TrapFrame) : TrapFrame :=
  mkFrame (regs f) (Asm.wrap pc) (sstatus f) (scause f) (stval f) (fregs f) (fcsr f).
Definition trapped (cause value : Z) (f : TrapFrame) : TrapFrame := mkFrame (regs f) (sepc f) (sstatus f) cause value (fregs f) (fcsr f).

Definition exec_insn i (n : insn) (f : TrapFrame) mem : (TrapFrame * gmap Z Z) + Z * Z :=
  let pc := sepc f in
  let goes f' := inl (jump (pc + 4) f', mem) in
  let stores (o : gmap Z Z + Z * Z) := match o with inl mem' => inl (jump (pc + 4) f, mem') | inr e => inr e end in
  match n with
  | Lui rd imm => goes (rset rd (imm * 2 ^ 12) f)
  | Auipc rd imm => goes (rset rd (pc + imm * 2 ^ 12) f)
  | Addi rd rs imm => goes (rset rd (rget f rs + imm) f)
  | Addiw rd rs imm => goes (rset rd (sext 32 ((rget f rs + imm) mod 2 ^ 32)) f)
  | Lw rd rs imm =>
      match load i RISCV_PTE_R 13 4 (Asm.wrap (rget f rs + imm)) mem with inl v => goes (rset rd (sext 32 v) f) | inr e => inr e end
  | Sw rs2 rs1 imm => stores (store i 4 (Asm.wrap (rget f rs1 + imm)) (rget f rs2) mem)
  | Sd rs2 rs1 imm => stores (store i 8 (Asm.wrap (rget f rs1 + imm)) (rget f rs2) mem)
  | Beq r1 r2 off => inl (jump (if rget f r1 =? rget f r2 then pc + off else pc + 4) f, mem)
  | Bne r1 r2 off => inl (jump (if rget f r1 =? rget f r2 then pc + 4 else pc + off) f, mem)
  | Jal rd off => inl (jump (pc + off) (rset rd (pc + 4) f), mem)
  | Ecall => inr (8, 0)
  end.
Definition step_insn i (f : TrapFrame) mem : (TrapFrame * gmap Z Z) + Z * Z :=
  match load i RISCV_PTE_X 12 4 (sepc f) mem with
  | inr e => inr e
  | inl w => match decode w with Some n => exec_insn i n f mem | None => inr (2, w) end
  end.

(** A program runs until it traps, or until the timer interrupts it after
    [slice] instructions. *)
Definition TIMER : Z := 2 ^ 63 + 5.
Fixpoint run_slice (slice : nat) : KernelCore.user_program := fun i f mem =>
  match slice with
  | O => (trapped TIMER 0 f, mem)
  | S slice' =>
      match step_insn i f mem with
      | inl (f', mem') => run_slice slice' i f' mem'
      | inr (cause, value) => (trapped cause value f, mem)
      end
  end.
End Mmu.

(** ** Assembly *)
(** A line of a program; the registers of a store come in the order of the
    assembler. *)
Inductive line :=
  | Label (l : string)
  | LI (rd v : Z) | LA (rd : Z) (l : string) | LSIZE (rd : Z) (last first : string)
  | MV (rd rs : Z) | ADDI (rd rs imm : Z)
  | SW (rs off base : Z) | SD (rs off base : Z) | LW (rd off base : Z)
  | ECALL | BEQZ (rs : Z) (l : string) | BNEZ (rs : Z) (l : string) | BNE (rs1 rs2 : Z) (l : string) | J (l : string)
  | Ascii (s : string) | Asciz (s : string) | Dword (v : Z).

(** A constant is split into a multiple of 4096 and a rest. *)
Definition hi20 (v : Z) : Z := (v + 2048) / 4096.
Definition lo12 (v : Z) : Z := v - 4096 * hi20 v.
Definition small (v : Z) : bool := (-2048 <=? v) && (v <? 2048).
Definition line_size (l : line) : Z :=
  match l with
  | Label _ => 0
  | LI _ v => if small v || (lo12 v =? 0) then 4 else 8
  | LA _ _ => 8
  | Ascii s => zlen (Vfs.Vfs.bytes_of s)
  | Asciz s => zlen (Vfs.Vfs.bytes_of s) + 1
  | Dword _ => 8
  | _ => 4
  end.
(** The labels with their distances from the start. *)
Fixpoint labels (pos : Z) (ls : list line) : list (string * Z) :=
  match ls with
  | [] => []
  | Label l :: ls' => (l, pos) :: labels pos ls'
  | l :: ls' => labels (pos + line_size l) ls'
  end.
Definition symbol (table : list (string * Z)) (l : string) : option Z :=
  snd <$> find_first (fun '(l', _) => bool_decide (l' = l)) table.

Section Assemble.
Context (table : list (string * Z)).
Definition insns (l : line) (pos : Z) : option (list insn) :=
  let to l' := (fun p => p - pos) <$> symbol table l' in
  match l with
  | LI rd v => Some (if small v then [Addi rd 0 v] else if lo12 v =? 0 then [Lui rd (hi20 v)] else [Lui rd (hi20 v); Addiw rd rd (lo12 v)])
  | LA rd l' => (fun off => [Auipc rd (hi20 off); Addi rd rd (lo12 off)]) <$> to l'
  | LSIZE rd last first => e ← symbol table last; s ← symbol table first; Some [Addi rd 0 (e - s)]
  | MV rd rs => Some [Addi rd rs 0]
  | ADDI rd rs imm => Some [Addi rd rs imm]
  | SW rs off base => Some [Sw rs base off]
  | SD rs off base => Some [Sd rs base off]
  | LW rd off base => Some [Lw rd base off]
  | ECALL => Some [Ecall]
  | BEQZ rs l' => (fun off => [Beq rs 0 off]) <$> to l'
  | BNEZ rs l' => (fun off => [Bne rs 0 off]) <$> to l'
  | BNE r1 r2 l' => (fun off => [Bne r1 r2 off]) <$> to l'
  | J l' => (fun off => [Jal 0 off]) <$> to l'
  | _ => Some []
  end.
Definition data (l : line) : list Z :=
  match l with
  | Ascii s => Vfs.Vfs.bytes_of s
  | Asciz s => Vfs.Vfs.bytes_of s ++ [0]
  | Dword v => to_le_bytes 8 v
  | _ => []
  end.
Fixpoint image (pos : Z) (ls : list line) : option (list Z) :=
  match ls with
  | [] => Some []
  | l :: ls' =>
      code ← insns l pos; rest ← image (pos + line_size l) ls';
      Some (concat ((fun i => to_le_bytes 4 (encode i)) <$> code) ++ data l ++ rest)
  end.
End Assemble.
Definition assemble (ls : list line) : option (list Z) := image (labels 0 ls) 0 ls.
End Rv64.
