(* ===== verification/LoongCore.v ===== *)
(** * The kernel loop on loongarch64 (crates/kernel-core/src/lib_loongarch.inc.rs)

    The second kernel loop: the same structure as [KernelCore] with other
    rules for signals, system call returns, ended threads, idle time and the
    watchdog.  What the two files have in common word for word is used from
    [KernelCore]; the platform is loongarch64, so a trap is never a timer
    interrupt. *)

From S2P Require Import Prelude Task AddrSpace Elf Path FileObject Vfs Process KernelEnv ProcTable Locks Abi Keys Sys SysProc SysMem SysExec SysDispatch KernelCore.

Open Scope string_scope.
Open Scope list_scope.
Open Scope Z_scope.

Module LoongCore.
Import Proc PTable Abi Sys KernelCore.

Definition LA_LMBENCH_TIMEOUT_NS : Z := 600 * SECOND.
Definition LA_UNIXBENCH_TIMEOUT_NS : Z := 600 * SECOND.
Definition OSCOMP_BUSYBOX_SHORT_TIMEOUT_MIN_TGID : Z := 4.
Definition la_required_test_files : list string :=
  ["/musl/busybox"; "/musl/basic_testcode.sh"; "/musl/busybox_testcode.sh"; "/musl/libcbench_testcode.sh";
   "/musl/libc-bench"; "/musl/iozone_testcode.sh"; "/musl/iozone"; "/musl/libctest_testcode.sh";
   "/musl/lmbench_testcode.sh"; "/musl/lua_testcode.sh"; "/musl/lua"; "/musl/ltp_testcode.sh"; "/musl/runtest.exe";
   "/musl/entry-static.exe"; "/musl/entry-dynamic.exe"; "/glibc/busybox"; "/glibc/basic_testcode.sh";
   "/glibc/busybox_testcode.sh"; "/glibc/libcbench_testcode.sh"; "/glibc/libc-bench"; "/glibc/iozone_testcode.sh";
   "/glibc/iozone"; "/glibc/libctest_testcode.sh"; "/glibc/lmbench_testcode.sh"; "/glibc/lua_testcode.sh"; "/glibc/lua";
   "/glibc/ltp_testcode.sh"].

(** ** Names *)
Definition la_is_busybox_supervisor (s : string) (has_child_groups in_bench_phase : bool) : bool :=
  Path.contains_str s "busybox" && (has_child_groups || in_bench_phase).
Definition la_name_change_resets_timer (previous cur : string) : bool :=
  let busybox_related := Path.contains_str previous "busybox" || Path.contains_str cur "busybox" in
  let lmbench_related := Path.contains_str previous "lmbench" || Path.contains_str cur "lmbench" in
  let unixbench_related := Path.contains_str previous "unixbench" || Path.contains_str cur "unixbench" in
  negb (busybox_related || lmbench_related || unixbench_related).
Definition la_is_libctest_entry_or_runner (s : string) : bool :=
  let base := default s (last (Path.split s)) in
  String.eqb base "runtest.exe" || (Path.starts_with base "entry-" && Path.ends_with base ".exe") ||
  String.eqb base "entry.exe".
Definition la_is_heavy_process (s : string) : bool :=
  named s ["iozone"; "lmbench"; "libc-bench"; "unixbench"; "netperf"; "iperf"; "cyclictest"; "hackbench"; "stream";
           "lat_"; "bw_"; "par_"].
Definition la_needs_forced_preempt (s : string) (now window_until_ns : Z) : bool :=
  la_is_heavy_process s || Path.contains_str s "busybox" || (now <=? window_until_ns) && Path.contains_str s "busybox".
Definition la_timeout_reason (s : string) (has_child_groups in_bench_phase : bool) : string :=
  if la_is_busybox_supervisor s has_child_groups in_bench_phase then "runner-stall"
  else if has_child_groups then "child-stall" else "leftover-cleanup".

(** The profile and the phase are chosen when the kernel is built. *)
Definition la_process_timeout_ns (profile phase : string) (g : Z) (s : string)
  (in_iozone_busybox_window has_child_groups in_bench_phase : bool) : Z :=
  let chain_fast := String.eqb profile "chain-fast" in
  let real_gate := negb chain_fast && String.eqb phase "gate" in
  let busybox_timeout_ns :=
    if chain_fast then 120 * SECOND else if real_gate then 120 * SECOND else OSCOMP_GROUP_TIMEOUT_NS in
  let libctest_timeout_ns := if chain_fast then 120 * SECOND else 300 * SECOND in
  let iozone_timeout_ns := 120 * SECOND in
  let heavy_timeout_ns := if chain_fast then 300 * SECOND else 600 * SECOND in
  if la_is_libctest_entry_or_runner s then libctest_timeout_ns
  else if Path.contains_str s "iozone" then iozone_timeout_ns
  else if Path.contains_str s "lmbench" then LA_LMBENCH_TIMEOUT_NS
  else if Path.contains_str s "unixbench" then LA_UNIXBENCH_TIMEOUT_NS
  else if Path.contains_str s "libc-bench" then busybox_timeout_ns
  else if Path.contains_str s "busybox" then
    if g <? OSCOMP_BUSYBOX_SHORT_TIMEOUT_MIN_TGID then busybox_timeout_ns
    else if in_iozone_busybox_window then iozone_timeout_ns
    else busybox_timeout_ns
  else if la_is_heavy_process s then heavy_timeout_ns
  else OSCOMP_GROUP_TIMEOUT_NS.

(** ** Signal frames *)
Definition LA_FRAME_SIZE : Z := 832.
Definition la_signal_frame (signum mask : Z) (f : TrapFrame) : list Z :=
  let frame := replicate 832 0 in
  let frame := splice 0 (to_le_bytes 4 signum) frame in
  let frame := splice 168 (to_le_bytes 8 mask) frame in
  let frame := splice 296 (to_le_bytes 8 (sepc f)) frame in
  splice_words 304 (drop 1 (regs f)) frame.

Section Core.
Context {M : Type} `{!Obj.Ext4Ops M} `{!HalMemory} (can_reserve : Z → bool) (heap : kernel M → Z).
Context (builtin_program : string → option SysExec.BuiltinProgram) (profile phase : string).
#[local] Hint Extern 0 (KernelEnv _ _ _) => exact (Kernel.kernel_env can_reserve) : typeclass_instances.

Abbreviation kernel := (kernel M).
Abbreviation kstm := (stm kernel).
Abbreviation cstm := (stm (core M)).
Abbreviation ptable := (PTable.table Obj.FileHandle Z (Kernel.kenv M)).

(** ** Threads that end *)
(** Only the group leader of the parent is woken. *)
Definition la_tell_parent (x : ThreadExit) : kstm unit :=
  match te_parent_tgid x with
  | Some g => _ ← quietly (on_table (send_signal g 17)); _ ← wake_task g; mret tt
  | None => mret tt
  end.
Definition la_wake_waiters (x : ThreadExit) : kstm unit :=
  each (exit_addrs (te_clear_child_tid x) (te_tid_address x)) (wake_futex_at USIZE_MAX).

(** The end of a thread whose group is being torn down by [exec] or exit. *)
Definition la_force_exit : kstm unit :=
  r ← attempt (on_table (exit_current_thread 7));
  match r with
  | inl x =>
      _ ← leave_scheduler x;
      _ ← match te_parent_tgid x with Some g => quietly (on_table (send_signal g 17)) | None => mret tt end;
      _ ← la_wake_waiters x;
      each (te_robust_futex_addrs x) (wake_futex_at 1)
  | inr _ => mret tt
  end.

(** ** Signals *)
(** The end of a thread by the default action of a signal. *)
Definition la_end_thread (code : Z) : kstm unit :=
  r ← attempt (on_table (exit_current_thread code));
  match r with
  | inl x => _ ← leave_scheduler x; _ ← la_tell_parent x; _ ← la_wake_waiters x; wake_all_blocked
  | inr _ => mret tt
  end.

Definition la_frame_address (sp : Z) : Z := align_down ((sp - LA_FRAME_SIZE) mod 2 ^ 64) 16.

Definition la_deliver (signum : Z) (action : SigAction) : kstm unit :=
  if sa_handler action =? 0 then
    if ignored_by_default signum then mret tt else la_end_thread (- signum)
  else if sa_handler action =? 1 then mret tt
  else
    p ← cur;
    let frame_sp := la_frame_address (default 0 (regs (trap_frame p) !! 2%nat)) in
    r ← attempt (write_user can_reserve frame_sp (la_signal_frame signum (signal_mask p) (trap_frame p)));
    match r with
    | inl _ => enter_handler signum frame_sp action
    | inr _ => mret tt
    end.

(** Signals below 32 stay pending. *)
Definition real_time (unmasked : Z) : Z := andnot64 unmasked (2 ^ 31 - 1).

Definition la_dispatch_pending_signals : kstm unit :=
  k ← get;
  match current (k_table k) with
  | Ok p =>
      let unmasked := andnot64 (pending_signals p) (signal_mask p) in
      if unmasked =? 0 then mret tt
      else
        let rt_unmasked := real_time unmasked in
        if rt_unmasked =? 0 then mret tt
        else
          let signum := trailing_zeros 64 rt_unmasked + 1 in
          _ ← update_cur (fun p => set_pending (andnot64 (pending_signals p) (bit64 (signum - 1))) p);
          la_deliver signum (default no_action (signal_actions p !! signum))
  | _ => mret tt
  end.

(** ** Traps *)
Definition wake_sigsuspended : kstm unit :=
  k ← get; SysProc.wake_each (sigsuspend_blocked_with_pending_signal_tids (k_table k)).
Definition la_timer_tick : kstm unit :=
  _ ← wake_timed_out;
  _ ← break_futex_deadlock;
  _ ← wake_signalled;
  _ ← wake_sigsuspended;
  _ ← la_dispatch_pending_signals;
  yield_now.

Definition la_restartable : list Z := [260; 63; 65; 133; 137; 98; 73; 72; 22; 441; 101; 115].
Definition la_blocked_restart (sysno result : Z) : bool := (result =? EAGAIN_RET) && existsb (Z.eqb sysno) la_restartable.
(** [(result as i32) < 0] *)
Definition is_negative_i32 (result : Z) : bool := Z.testbit result 31.

Definition la_return_to_user (i sysno result pc : Z) : kstm unit :=
  k ← get;
  match processes (k_table k) !! i with
  | Some p =>
      if la_blocked_restart sysno result then mret tt
      else
        let f := set_retval (result mod 2 ^ 64) (trap_frame p) in
        f ← (if ((sysno =? SYS_EXECVE) || (sysno =? SYS_RT_SIGRETURN)) && negb (is_negative_i32 result) then mret f
             else next ← lift (uadd pc 4); mret (SysProc.set_sepc next f));
        on_table (put_process i (set_frame f p))
  | None => mret tt
  end.

Definition la_handle_syscall (caller sysno : Z) (args : list Z) (pc : Z) : kstm unit :=
  result ← SysDispatch.dispatch can_reserve true heap builtin_program sysno args;
  _ ← la_return_to_user caller sysno result pc;
  _ ← la_dispatch_pending_signals;
  _ ← wake_timed_out;
  k ← get;
  if (0 <? Sched.ready_count (k_sched k))%nat then yield_now else mret tt.

Definition la_handle_fault : kstm unit :=
  r ← attempt (on_table (exit_current_process_group (-1)));
  match r with
  | inl x => _ ← leave_scheduler x; _ ← la_tell_parent x; _ ← la_wake_waiters x; wake_all_blocked
  | inr _ => mret tt
  end.

Definition la_handle_trap : kstm unit :=
  k ← get;
  match current (k_table k) with
  | Ok p =>
      let f := trap_frame p in
      if is_external_interrupt true (scause f) then mret tt
      else if is_timer_interrupt true (scause f) then la_timer_tick
      else if is_syscall true (scause f) then la_handle_syscall (tid p) (syscall_number f) (syscall_args f) (sepc f)
      else la_handle_fault
  | _ => mret tt
  end.

(** ** The watchdog *)
Definition la_watch_group (now : Z) (st : gmap Z Z * gmap Z string) (x : Z * string) : gmap Z Z * gmap Z string :=
  let '(started, seen) := st in
  let '(g, s) := x in
  let reset := match seen !! g with
               | None => true
               | Some previous => negb (String.eqb previous s) && la_name_change_resets_timer previous s
               end in
  (if reset || bool_decide (started !! g = None) then <[g := now]> started else started, <[g := s]> seen).

Definition la_reap_exit (x : GroupExit) : kstm unit :=
  _ ← on_sched (fun s => ((), (Sched.exit_group s (ge_tgid x)).2));
  match ge_parent_tgid x with Some g => _ ← wake_task g; mret tt | None => mret tt end.

Definition la_reap_exits (xs : list GroupExit) : kstm bool :=
  match xs with
  | [] => mret false
  | xs =>
      _ ← each xs la_reap_exit;
      _ ← each (concat (ge_clear_child_tids <$> xs)) (wake_futex_at USIZE_MAX);
      _ ← wake_all_blocked;
      mret true
  end.

(** A supervising shell among the first processes loses its children, any
    other group goes with its subtree. *)
Definition children_only (g : Z) (s : string) (has_child_groups in_bench_phase : bool) : bool :=
  la_is_busybox_supervisor s has_child_groups in_bench_phase && has_child_groups &&
  (g <=? OSCOMP_BUSYBOX_SHORT_TIMEOUT_MIN_TGID).

Definition restart_watch (g now : Z) (w : watchdog) : watchdog :=
  with_groups (<[g := now]> (w_started_at w)) (w_seen_name w) w.

Definition la_kill_group (in_bench_phase : bool) (now : Z) (x : Z * string * bool) : cstm bool :=
  let '(g, s, has_child_groups) := x in
  c ← get;
  subtree ← lift (descendant_process_groups (k_table (c_kernel c)) g);
  match subtree with
  | [] => _ ← set_watch (forget [g]); mret false
  | _ =>
      let only := children_only g s has_child_groups in_bench_phase in
      let groups := if only then List.filter (fun x => negb (x =? g)) subtree else subtree in
      match groups with
      | [] => _ ← set_watch (restart_watch g now); mret false
      | _ =>
          _ ← set_watch (forget groups);
          _ ← set_watch (if only then restart_watch g now else forget [g]);
          if only then on_kernel (xs ← force_exit_others can_reserve (rev groups); la_reap_exits xs)
          else on_kernel (
            r ← attempt (on_table (force_exit_subtree g 124));
            la_reap_exits (match r with inl xs => xs | inr _ => [] end))
      end
  end.

Fixpoint la_kill_groups (in_bench_phase : bool) (now : Z) (l : list (Z * string * bool)) : cstm bool :=
  match l with
  | [] => mret false
  | x :: l' => a ← la_kill_group in_bench_phase now x; b ← la_kill_groups in_bench_phase now l'; mret ((a : bool) || (b : bool))
  end.

(** The children are asked for before the first group is killed. *)
Definition la_timed_out (t : ptable) (w : watchdog) (watched : gmap Z string) (in_window in_bench : bool) (now : Z)
  : list (Z * string * bool) :=
  omap (fun x =>
    started ← w_started_at w !! x.1;
    let has_child_groups := has_child_process_group t x.1 in
    if la_process_timeout_ns profile phase x.1 x.2 in_window has_child_groups in_bench <=? saturating_sub now started
    then Some (x, has_child_groups) else None) (items watched).

Definition la_enforce_watchdog : cstm bool :=
  c ← get;
  let '(now, w) := watchdog_now (k_nanos (c_kernel c)) (c_watch c) in
  let t := k_table (c_kernel c) in
  let watched := watched_groups (process_snapshots t) in
  let names := values watched in
  let '(started, seen) := foldl (la_watch_group now) (keep_watched watched (w_started_at w), keep_watched watched (w_seen_name w))
                            (items watched) in
  let w := with_windows
             (if (0 <? OSCOMP_IOZONE_BUSYBOX_WINDOW_NS) && existsb (fun s => Path.contains_str s "iozone") names
              then Z.min (now + OSCOMP_IOZONE_BUSYBOX_WINDOW_NS) U64_MAX else w_iozone_window_until_ns w)
             (w_bench_window_until_ns w) (with_groups started seen w) in
  _ ← set_watch (fun _ => w);
  let in_window := (0 <? OSCOMP_IOZONE_BUSYBOX_WINDOW_NS) && (now <=? w_iozone_window_until_ns w) in
  let in_bench := existsb (fun s => named s ["lmbench"; "unixbench"]) names in
  la_kill_groups in_bench now (la_timed_out t w watched in_window in_bench now).

(** ** The scheduler loop *)
(** Expired waits are woken before the ticks are looked at. *)
Definition la_idle : cstm unit :=
  c ← get;
  if has_non_init (k_table (c_kernel c)) then
    _ ← set_watch (with_idle_ticks 0);
    match timed_wait_expired_tids (k_table (c_kernel c)) (k_nanos (c_kernel c)) with
    | [] =>
        if 0 <? w_idle_ticks (c_watch c)
        then on_kernel (_ ← wake_timed_out; _ ← break_futex_deadlock; wake_signalled)
        else mret tt
    | expired => on_kernel (SysProc.wake_each expired)
    end
  else mret tt.

Definition la_run_current_process (run_user : user_program) : kstm unit :=
  k ← get;
  match current (k_table k) with
  | Ok p =>
      let e := env (k_table k) in
      match Kernel.k_spaces e !! address_space p with
      | Some (space, _) =>
          let '(f, mem) := run_user space (trap_frame p) (Kernel.k_mem e) in
          _ ← on_kenv (modify (fun e => Kernel.mkEnv (Kernel.k_spaces e) (Kernel.k_next e) mem (Kernel.k_vfs e)));
          _ ← update_cur (set_frame f);
          la_handle_trap
      | None => lift Panic
      end
  | _ => mret tt
  end.

Definition la_round (run_user : user_program) : cstm unit :=
  killed ← la_enforce_watchdog;
  if (killed : bool) then mret tt
  else
    next ← on_kernel (on_sched Sched.ensure_current);
    match next with
    | None => la_idle
    | Some i =>
        r ← on_kernel (attempt (on_table (set_current i)));
        match r with
        | inr _ => on_kernel yield_now
        | inl _ =>
            p ← on_kernel cur;
            if force_thread_exit p then on_kernel la_force_exit
            else on_kernel (la_run_current_process run_user)
        end
    end.

(** ** Boot *)
Definition la_install_init_stdio : kstm unit :=
  r ← attempt (open_consoles can_reserve 3);
  match r with
  | inl hs => quietly (update_cur (fun p => set_fds (list_to_map (zip (seqZ 0 3) hs) ∪ fds p) p))
  | inr _ => mret tt
  end.

Definition la_full_suite_ready (v : Vfs.KernelVfs M) : bool :=
  forallb (fun path => Vfs.is_ok (Vfs.access v "/" path)) la_required_test_files.

Definition la_try_switch_init_to_rootfs : kstm bool :=
  v ← get_vfs;
  if negb (Vfs.is_ok (Vfs.access v "/" "/musl/busybox")) || negb (la_full_suite_ready v) then mret false
  else
    r ← attempt (on_vfs (Vfs.read_file_all "/" "/musl/busybox"));
    match r with
    | inr _ => mret false
    | inl image =>
        _ ← modify (with_busybox image);
        r ← attempt (SysMem.on_space (Elf.load_elf_image can_reserve image
              (Vfs.bytes_of <$> ["/musl/busybox"; "sh"; OSCOMP_SUITE_ENTRY_PATH])
              (Vfs.bytes_of <$> ["PATH=/musl:/bin:/sbin:/usr/bin:/usr/sbin"; "TERM=vt100"])));
        match r with
        | inr _ => mret false
        | inl loaded =>
            _ ← update_cur (fun p =>
                  set_frame (set_reg 2 (Elf.li_stack_pointer loaded) (SysProc.set_sepc (Elf.li_entry loaded) (trap_frame p))) p);
            _ ← SysExec.map_trampoline can_reserve true;
            mret true
        end
    end.

Definition la_bootstrap : kstm unit :=
  init_entry ← match init_program builtin_program with
               | Some program => lift (uadd USER_INIT_BASE (SysExec.bp_entry program))
               | None => mret 0
               end;
  init_pid ← on_table (spawn_init "init" init_entry);
  _ ← expect (on_table (set_current init_pid));
  _ ← la_install_init_stdio;
  _ ← match init_program builtin_program with
      | Some program =>
          loaded ← la_try_switch_init_to_rootfs;
          if (loaded : bool) then mret tt
          else
            _ ← quietly (SysMem.on_space (Mm.map_fixed_bytes can_reserve USER_INIT_BASE (SysExec.bp_image program)
                                            (zlen (SysExec.bp_image program)) 5));
            expect (update_cur (fun p => set_frame (SysProc.set_sepc init_entry (trap_frame p)) p))
      | None => expect (seed_process can_reserve)
      end;
  _ ← SysProc.spawn_task "init" init_pid init_pid;
  _ ← on_sched Sched.start;
  mret tt.

Inductive la_step : core M → core M → Prop :=
  | la_step_round run_user c : la_step c (la_round run_user c).2
  | la_step_clock time nanos ticks c : la_step c (mkCore
      (let k := c_kernel c in mkKernel (k_table k) (k_sched k) (k_locks k) (k_acct k) (k_shm k) (k_timex k) (k_keys k)
                                (k_busybox k) time nanos)
      (with_idle_ticks ticks (c_watch c))).
End Core.
End LoongCore.
