(* ===== verification/FdBoot.v ===== *)
(** * Descriptor tables at boot

    The boot of either target enters the console under the descriptors 0 to 2
    without entries of duplicates; the tables it leaves are tables of
    descriptors with descriptions of their own. *)

From S2P Require Import Prelude Task AddrSpace Elf Path FileObject Vfs Process KernelEnv ProcTable ProcSpec FdTable Sys SysProc SysMem SysExec SysInv KernelCore CoreInv LoongCore.

Open Scope Z_scope.

Module FdBoot.
Import Proc PTable Sys SysInv KernelCore LoongCore Fd.

Section Boot.
Context {M : Type} `{!Obj.Ext4Ops M} `{!HalMemory} (can_reserve : Z → bool).
#[local] Hint Extern 0 (KernelEnv _ _ _) => exact (Kernel.kernel_env can_reserve) : typeclass_instances.
Implicit Types (k : kernel M).

(** No table has entries of duplicates, and code that keeps it so. *)
Definition bare k : Prop := map_Forall (fun _ p => fd_alias p = ∅) (processes (k_table k)).
Definition kb {B} (m : stm (kernel M) B) : Prop := ∀ k, bare k → bare (m k).2.

Lemma kb_bind {A B} (m : stm (kernel M) A) (f : A → stm (kernel M) B) : kb m → (∀ a, kb (f a)) → kb (m ≫= f).
Proof. intros Hm Hf k Hk. specialize (Hm k Hk). rewrite stm_bind_eq. destruct (m k) as [[a| | |] k1]; [by apply Hf|done..]. Qed.
Lemma kb_pure {B} (m : stm (kernel M) B) : (∀ k, k_table (m k).2 = k_table k) → kb m.
Proof. intros Hm k Hk. unfold bare. by rewrite Hm. Qed.
Lemma kb_attempt {B} (m : stm (kernel M) B) : kb m → kb (attempt m).
Proof. intros Hm k Hk. specialize (Hm k Hk). unfold attempt. by destruct (m k) as [[]]. Qed.
Lemma kb_expect {B} (m : stm (kernel M) B) : kb m → kb (expect m).
Proof. intros Hm k Hk. specialize (Hm k Hk). unfold expect. by destruct (m k) as [[]]. Qed.
Lemma kb_on_kenv {B} (m : stm (Kernel.kenv M) B) : kb (on_kenv m).
Proof. intros k Hk. unfold on_kenv, on_table, on_env. by destruct (m (env (k_table k))). Qed.
Lemma kb_update_cur (f : Process Obj.FileHandle Z → Process Obj.FileHandle Z) : (∀ p, fd_alias (f p) = fd_alias p) → kb (update_cur f).
Proof.
  intros Hf k Hk. unfold update_cur, on_table, update_current. stm_step. stm_step.
  destruct (current (k_table k)) as [p| | |] eqn:Hp; try done. apply map_Forall_insert_2; [|done].
  rewrite Hf. unfold current in Hp. destruct (processes (k_table k) !! current_tid (k_table k)) as [q|] eqn:Hq; [|done].
  injection Hp as ->. by apply (Hk _ _ Hq).
Qed.
Lemma kb_set_current i : kb (on_table (set_current i)).
Proof. intros k Hk. unfold on_table, set_current. stm_step. by destruct (processes (k_table k) !! i). Qed.
Lemma kb_on_sched {B} (f : Sched.Scheduler → B * Sched.Scheduler) : kb (on_sched f).
Proof. apply kb_pure. intros k. unfold on_sched. by destruct (f (k_sched k)). Qed.
Lemma kb_spawn_task nm i g : kb (SysProc.spawn_task nm i g).
Proof. apply kb_pure. intros k. unfold SysProc.spawn_task. by destruct (Sched.spawn _ _ _ _) as [[]| | |]. Qed.
Lemma process_new_bare nm i par entry (e e' : Kernel.kenv M) p : Process_new nm i par entry e = (Ok p, e') → fd_alias p = ∅.
Proof. unfold Process_new. intros Hp. repeat (apply stm_bind_Ok in Hp as (? & ? & _ & Hp)). by injection Hp as <- _. Qed.
Lemma kb_spawn_init nm entry : kb (on_table (spawn_init nm entry)).
Proof.
  intros k Hk. unfold on_table, spawn_init, spawn, next_id, on_env, put_process. rewrite !stm_bind_eq. cbv beta iota delta [get lift].
  destruct (uadd _ _) as [n| | |]; try done. cbv beta iota delta [put mret stm_ret]. rewrite !stm_bind_eq.
  match goal with |- context [Process_new nm ?i None entry ?e] => destruct (Process_new nm i None entry e) as [[p| | |] e1] eqn:Hp end; try done.
  apply process_new_bare in Hp. simpl. destruct (_ =? 0); by apply map_Forall_insert_2.
Qed.

Ltac kb_step :=
  first
  [ apply kb_on_kenv | apply kb_on_sched | apply kb_spawn_task | apply kb_set_current | apply kb_spawn_init
  | apply kb_update_cur; reflexivity | apply kb_pure; reflexivity
  | lazymatch goal with
    | |- kb (mbind _ _) => apply kb_bind; [|intros ?]
    | |- kb (attempt _) => apply kb_attempt
    | |- kb (expect _) => apply kb_expect
    | |- kb (match ?x with _ => _ end) => destruct x
    | |- kb ?m => let h := kk_head m in unfold h; cbv zeta beta
    end ].

(** After the boot of either target every table has descriptors with
    descriptions of their own. *)
Theorem boot_tables_refine loongarch builtin_program k : bare k → ∀ k',
  k' = (bootstrap can_reserve loongarch builtin_program k).2 ∨ k' = (la_bootstrap can_reserve builtin_program k).2 →
  ∀ (i : Z) (p : Process Obj.FileHandle Z), processes (k_table k') !! i = Some p →
    refines (E := Kernel.kenv M) p (own_descriptions (A := Z) (E := Kernel.kenv M) (fds p)).
Proof.
  intros Hk k' Hk' i p Hp. apply refines_bare. apply (fun H : bare k' => H i p Hp).
  assert (∀ n, kb (open_consoles can_reserve n)) as Hc.
  { induction n as [|n IH]; cbn [open_consoles]; repeat first [apply IH|kb_step]. }
  destruct Hk' as [-> | ->].
  - refine ((_ : kb (bootstrap can_reserve loongarch builtin_program)) k Hk). repeat first [apply Hc|kb_step].
  - refine ((_ : kb (la_bootstrap can_reserve builtin_program)) k Hk). repeat first [apply Hc|kb_step].
Qed.
End Boot.
End FdBoot.
