(* ===== verification/LoongInv.v ===== *)
(** * Invariants of the machine on loongarch64

    The invariant of the kernel holds at the end of the boot and through every
    round of the loongarch64 loop; the rules of that loop for signals. *)

From S2P Require Import Prelude Task AddrSpace Elf Path FileObject Vfs Process KernelEnv ProcTable ProcSpec Locks Abi Keys Sys SysProc SysMem SysExec SysDispatch SysInv SysRun KernelCore CoreInv SignalSpec LoongCore.

Open Scope string_scope.
Open Scope list_scope.
Open Scope Z_scope.

Module LoongInv.
Import Proc PTable Locks Sys SysDispatch SysInv SysRun KernelCore CoreInv LoongCore.

Section Core.
Context {M : Type} `{!Obj.Ext4Ops M} `{!HalMemory} (can_reserve : Z → bool) (heap : kernel M → Z).
Context (builtin_program : string → option SysExec.BuiltinProgram) (profile phase : string).
#[local] Hint Extern 0 (KernelEnv _ _ _) => exact (Kernel.kernel_env can_reserve) : typeclass_instances.
Implicit Types (k : kernel M) (c : core M).

#[local] Hint Resolve kk_dispatch kk_wake_all_blocked kk_force_exit_others kk_ensure kk_open_consoles kk_busybox : kk.
#[local] Hint Resolve to_open_consoles : to.

Lemma kk_la_return_to_user i sysno result pc : kk (M := M) (la_return_to_user i sysno result pc).
Proof.
  unfold la_return_to_user. destruct (la_blocked_restart sysno result); [kk_solve|].
  apply kk_put. intros p. destruct (_ && _); [by eexists (Ok _)|].
  exists (x ← uadd pc 4; Ok (SysProc.set_sepc x (set_retval (result mod 2 ^ 64) (trap_frame p)))). destruct (uadd pc 4); done.
Qed.
#[local] Hint Resolve kk_la_return_to_user : kk.

Lemma kk_la_handle_trap : kk (la_handle_trap can_reserve heap builtin_program).
Proof. kk_solve. Qed.
#[local] Hint Resolve kk_la_handle_trap : kk.
Lemma kk_la_run_current run_user : kk (la_run_current_process can_reserve heap builtin_program run_user).
Proof. kk_solve. Qed.
#[local] Hint Resolve kk_la_run_current : kk.
Lemma kk_la_reap_exits xs : kk (M := M) (la_reap_exits xs).
Proof. destruct xs; kk_solve. Qed.
#[local] Hint Resolve kk_la_reap_exits : kk.

Lemma ck_la_kill_group b now x : ck (la_kill_group (M := M) can_reserve b now x).
Proof. destruct x as [[g s] h]. unfold la_kill_group. ck_solve. Qed.
Lemma ck_la_kill_groups b now l : ck (la_kill_groups (M := M) can_reserve b now l).
Proof.
  induction l as [|x l IH]; cbn [la_kill_groups]; [apply ck_ret|]. apply ck_bind; [apply ck_la_kill_group|].
  intros a. apply ck_bind; [done|]. intros y. apply ck_ret.
Qed.
#[local] Hint Resolve ck_la_kill_groups : ck.
Lemma ck_la_watchdog : ck (la_enforce_watchdog (M := M) can_reserve profile phase).
Proof. unfold la_enforce_watchdog. ck_solve. Qed.
#[local] Hint Resolve ck_la_watchdog : ck.
Lemma ck_la_round run_user : ck (la_round can_reserve heap builtin_program profile phase run_user).
Proof. unfold la_round, la_idle. ck_solve. Qed.

Lemma la_bootstrap_inv k : kernel_inv k → k_sched k = Sched.Scheduler_new →
  kernel_inv (la_bootstrap can_reserve builtin_program k).2.
Proof.
  intros Hi Hs. assert (boots 0 (la_bootstrap (M := M) can_reserve builtin_program)) as Hb.
  { unfold la_bootstrap. apply boots_bind; [kk_solve|to_solve|]. intros entry. apply boots_new. intros i.
    do 3 (apply boots_bind; [kk_boot|to_solve|intros _]). apply boots_start. }
  apply Hb; [done..|]. pose proof (ProcSpec.wf_next _ (ki_table _ Hi)). lia.
Qed.

Lemma la_run_inv c c' : rtc (la_step can_reserve heap builtin_program profile phase) c c' → kernel_inv (c_kernel c) →
  kernel_inv (c_kernel c') ∧ klater (c_kernel c) (c_kernel c').
Proof.
  induction 1 as [c|c c1 c' Hs _ IH]; [by intros|]. intros Hi.
  assert (kernel_inv (c_kernel c1) ∧ klater (c_kernel c) (c_kernel c1)) as [Hi1 Hl1].
  { destruct Hs as [run c|time nanos ticks c]; [by apply ck_la_round|by apply elsewhere_inv]. }
  destruct (IH Hi1). split; [done|]. by etrans.
Qed.

(** C38: On loongarch64 too, from the end of the boot on and through any rounds of
    its loop: no conflicting record locks, each thread under its own id, a
    well-formed scheduler all of whose tasks have ids that were given out, and
    keyrings of different owners apart. *)
Theorem la_machine_invariant (e : Kernel.kenv M) shm timex k c :
  la_bootstrap can_reserve builtin_program (cold e shm timex) = (Ok tt, k) →
  rtc (la_step can_reserve heap builtin_program profile phase) (mkCore k no_watch) c →
  let t := k_table (c_kernel c) in
  let s := k_sched (c_kernel c) in
  (∀ path o1 o2 b t1 t2, o1 ≠ o2 → holds (k_locks (c_kernel c)) path o1 b t1 → holds (k_locks (c_kernel c)) path o2 b t2 →
     lock_modes_conflict t1 t2 = false) ∧
  (∀ i p, processes t !! i = Some p → tid p = i) ∧
  Sched.sched_wf s ∧
  (∀ i, i ∈ Sched.task_ids s → i < next_pid t) ∧
  (Keys.next_serial (k_keys (c_kernel c)) < Keys.I32_MAX → Keys.keys_inv (k_keys (c_kernel c))).
Proof.
  intros Hb Hr t s. pose proof (la_bootstrap_inv _ (cold_inv e shm timex) eq_refl) as Hk. rewrite Hb in Hk.
  destruct (la_run_inv _ _ Hr Hk) as [[Ht Hs Hids Hl [_ Hkeys]] _]. split_and!; [by apply Hl|apply Ht|done|exact Hids|done].
Qed.

(** ** Signals *)
(** A signal below 32 is never acted on: while no signal from 32 on is pending
    and unmasked, delivery changes nothing, whatever the handlers are. *)
Theorem la_standard_signals_wait k p : current (k_table k) = Ok p → 0 ≤ pending_signals p < 2 ^ 64 →
  (∀ s, 32 ≤ s ≤ 64 → Z.testbit (pending_signals p) (s - 1) = true → Z.testbit (signal_mask p) (s - 1) = true) →
  la_dispatch_pending_signals can_reserve k = (Ok tt, k).
Proof.
  intros Hp Hr Hmask. unfold la_dispatch_pending_signals. stm_step. rewrite Hp.
  destruct (_ =? 0); [done|]. unfold real_time, andnot64. cbv zeta.
  assert (Z.ldiff (Z.ldiff (pending_signals p) (signal_mask p)) (2 ^ 31 - 1) = 0) as ->; [|done].
  apply Z.bits_inj'. intros n Hn. rewrite !Z.ldiff_spec, Z.bits_0. change (2 ^ 31 - 1) with (Z.ones 31).
  destruct (decide (n < 31)); [by rewrite Z.ones_spec_low, andb_false_r by lia|]. rewrite Z.ones_spec_high by lia.
  destruct (Z.testbit (pending_signals p) n) eqn:Hb; [|done]. destruct (decide (n < 64)).
  - specialize (Hmask (n + 1) ltac:(lia)). replace (n + 1 - 1) with n in Hmask by lia. by rewrite Hmask.
  - rewrite Z.bits_above_log2 in Hb; [done|lia|]. destruct (decide (pending_signals p = 0)) as [->|]; [simpl; lia|].
    apply Z.log2_lt_pow2; [lia|]. apply Z.lt_le_trans with (2 ^ 64); [lia|apply Z.pow_le_mono_r; lia].
Qed.

(** ** The return from a handler *)
(** The frame on the stack, of which [rt_sigreturn] reads 816 bytes. *)
Lemma la_frame_layout signum mask f : length (regs f) = 32%nat →
  take 816 (la_signal_frame signum mask f) =
  to_le_bytes 4 signum ++ replicate 164 0 ++ to_le_bytes 8 mask ++ replicate 120 0 ++ to_le_bytes 8 (sepc f) ++
  Elf.words_bytes (drop 1 (regs f)) ++ replicate 264 0.
Proof.
  intros Hr. unfold la_signal_frame. cbv zeta. rewrite <- (app_nil_l (replicate 832 0)).
  assert (length (drop 1 (regs f)) = 31%nat) as Hd by (rewrite length_drop; lia).
  rewrite (SignalSpec.splice_zeros 0 0 [] _ 828) by (rewrite ?length_to_le_bytes; done).
  rewrite (SignalSpec.splice_zeros 168 164 _ _ 656) by (rewrite ?length_app, ?length_to_le_bytes; done).
  rewrite (SignalSpec.splice_zeros 296 120 _ _ 528) by (rewrite ?length_app, ?length_replicate, ?length_to_le_bytes; done).
  rewrite (SignalSpec.splice_words_zeros 304 _ _ 280) by (rewrite ?length_app, ?length_replicate, ?length_to_le_bytes, ?Hd; done).
  change 280%nat with (264 + 16)%nat. rewrite replicate_add, app_assoc, take_app_length'.
  - by rewrite <- !app_assoc.
  - rewrite !length_app, !length_replicate, SignalSpec.length_words_bytes8, !length_to_le_bytes, Hd. done.
Qed.
Lemma la_restore_layout signum mask f g : SignalSpec.frame_ok f → SignalSpec.word mask →
  let frame := take 816 (la_signal_frame signum mask f) in
  SysProc.restore_frame true frame g =
    mkFrame (take 1 (regs g) ++ drop 1 (regs f)) (sepc f) (sstatus g) (scause g) (stval g) (fregs g) (fcsr g) ∧
  Locks.field 168 8 frame = mask.
Proof.
  intros [Hr _ Hw _ Hpc _] Hm. cbv zeta. rewrite la_frame_layout by done.
  assert (length (drop 1 (regs f)) = 31%nat) as Hd by (rewrite length_drop; lia). split.
  - unfold SysProc.restore_frame. f_equal.
    + f_equal. rewrite !app_assoc, <- 1!app_assoc. apply SignalSpec.words_mid; [|done|by apply Forall_drop].
      rewrite !length_app, !length_replicate, !length_to_le_bytes. done.
    + rewrite !app_assoc, <- 2!app_assoc. rewrite SignalSpec.field_mid; [by apply from_to_le_bytes| |by rewrite length_to_le_bytes].
      rewrite !length_app, !length_replicate, !length_to_le_bytes. done.
  - rewrite !app_assoc, <- 4!app_assoc. rewrite SignalSpec.field_mid; [by apply from_to_le_bytes| |by rewrite length_to_le_bytes].
    rewrite !length_app, !length_replicate, !length_to_le_bytes. done.
Qed.

(** The call itself: it restores the context and answers with its register 10. *)
Lemma la_sigreturn_run k p sp signum mask f args : current (k_table k) = Ok p → regs (trap_frame p) !! 2%nat = Some sp →
  space_read (address_space p) sp 816 (env (k_table k)) = Ok (take 816 (la_signal_frame signum mask f)) →
  SignalSpec.frame_ok f → SignalSpec.word mask →
  ∃ q, SysDispatch.dispatch can_reserve true heap builtin_program SYS_RT_SIGRETURN args k =
         (Ok (Obj.as_isize (SignalSpec.reg 10 f)), put_cur q k) ∧
    tid q = tid p ∧ signal_mask q = mask ∧ signal_frame_pending q = false ∧
    trap_frame q = mkFrame (take 1 (regs (trap_frame p)) ++ drop 1 (regs f)) (sepc f) (sstatus (trap_frame p))
      (scause (trap_frame p)) (stval (trap_frame p)) (fregs (trap_frame p)) (fcsr (trap_frame p)).
Proof.
  intros Hp Hsp Hrd Hf Hm. destruct (la_restore_layout signum mask f (trap_frame p) Hf Hm) as [Hres Hmask].
  unfold SysDispatch.dispatch, dispatch_call.
  change (lookup_call SYS_RT_SIGRETURN _) with (Some (fun _ : list Z => SysProc.sys_rt_sigreturn (M := M) can_reserve true)). cbv iota beta.
  unfold SysProc.sys_rt_sigreturn. rewrite stm_bind_eq. unfold err_as. rewrite (cur_run _ _ Hp).
  cbn [Abi.map_err]. cbv beta iota. rewrite stm_bind_eq. unfold read_user at 1. rewrite stm_bind_eq, (cur_run _ _ Hp), Hsp.
  change (default 0 (Some sp)) with sp. unfold ask_table. rewrite Hrd. cbn [Abi.map_err]. cbv beta iota.
  rewrite stm_bind_eq, (update_cur_run _ _ _ Hp). cbv beta iota.
  rewrite stm_bind_eq, (cur_run _ _ (current_put_cur _ _)), Hres, Hmask. cbv beta iota delta [mret stm_ret]. eexists. split.
  { f_equal. cbn [retval]. f_equal. f_equal. unfold SignalSpec.reg. cbn [trap_frame set_frame regs].
    destruct (regs f) as [|x l] eqn:Hx; [by pose proof (SignalSpec.fo_regs _ Hf) as Hl; rewrite Hx in Hl|].
    assert (length (take 1 (regs (trap_frame p))) = 1%nat) as Ht.
    { rewrite length_take. apply lookup_lt_Some in Hsp. lia. }
    rewrite lookup_app_r by lia. by rewrite Ht. }
  split_and!; try done; unfold arm_cancellation_persistent; by destruct (cancel_signal_seen _).
Qed.

(** C39: A program that ends its handler with [rt_sigreturn], its stack pointer at
    the intact frame of the delivery, gets back its signal mask and registers.
    The call answers with the restored register 10, which the return path
    stores there again. The program goes on at the saved program counter only
    where bit 31 of that register is clear; else it goes on behind the call
    of [rt_sigreturn]. *)
Theorem la_sigreturn_pc k p sp signum mask f args pc : current (k_table k) = Ok p → current_tid (k_table k) = tid p →
  regs (trap_frame p) !! 2%nat = Some sp →
  space_read (address_space p) sp 816 (env (k_table k)) = Ok (take 816 (la_signal_frame signum mask f)) →
  SignalSpec.frame_ok f → SignalSpec.word mask → pc + 4 ≤ USIZE_MAX →
  ∃ k' q,
    (result ← SysDispatch.dispatch can_reserve true heap builtin_program SYS_RT_SIGRETURN args;
     la_return_to_user (tid p) SYS_RT_SIGRETURN result pc) k = (Ok tt, k') ∧
    current (k_table k') = Ok q ∧ signal_mask q = mask ∧ drop 1 (regs (trap_frame q)) = drop 1 (regs f) ∧
    fregs (trap_frame q) = fregs (trap_frame p) ∧
    sepc (trap_frame q) = if Z.testbit (SignalSpec.reg 10 f) 31 then pc + 4 else sepc f.
Proof.
  intros Hp Ht Hsp Hrd Hf Hm Hpc.
  destruct (la_sigreturn_run k p sp signum mask f args Hp Hsp Hrd Hf Hm) as (q & Hrun & Htid & Hmask & _ & Hfr).
  rewrite stm_bind_eq, Hrun. cbv iota beta. unfold la_return_to_user. stm_step.
  assert (processes (k_table (put_cur q k)) !! tid p = Some q) as -> by (simpl; by rewrite Ht, lookup_insert_eq).
  set (a0 := SignalSpec.reg 10 f). assert (regs f !! 10%nat = Some a0) as Ha0.
  { unfold a0, SignalSpec.reg. destruct (lookup_lt_is_Some_2 (regs f) 10) as [x ->]; [rewrite (SignalSpec.fo_regs _ Hf); lia|done]. }
  assert (0 ≤ a0 < 2 ^ 64) as Hw by (pose proof (SignalSpec.fo_words _ Hf) as Hw; rewrite Forall_lookup in Hw; by eapply Hw).
  assert (Obj.as_isize a0 mod 2 ^ 64 = a0 ∧ Z.testbit (Obj.as_isize a0) 31 = Z.testbit a0 31) as [Hmod Hbit].
  { assert (Obj.as_isize a0 mod 2 ^ 64 = a0) as Hmod.
    { unfold Obj.as_isize. destruct (_ <? _); [by apply Z.mod_small|].
      replace (a0 - 2 ^ 64) with (a0 + (-1) * 2 ^ 64) by lia. rewrite Z_mod_plus_full. by apply Z.mod_small. }
    split; [done|]. rewrite <- Hmod at 2. by rewrite Z.mod_pow2_bits_low by lia. }
  replace (la_blocked_restart SYS_RT_SIGRETURN _) with false
    by (unfold la_blocked_restart; cbn; by rewrite andb_false_r).
  cbn [Z.eqb SYS_RT_SIGRETURN SYS_EXECVE Pos.eqb orb andb]. unfold is_negative_i32. rewrite Hbit, Hmod.
  assert (∀ fr, regs fr = take 1 (regs (trap_frame p)) ++ drop 1 (regs f) → drop 1 (regs (set_retval a0 fr)) = drop 1 (regs f)) as Hdrop.
  { intros fr Hr. unfold set_retval, set_reg. cbn [regs]. rewrite Hr, drop_insert_ge by lia.
    rewrite drop_app_length' by (rewrite length_take; apply lookup_lt_Some in Hsp; lia).
    apply list_insert_id. by rewrite lookup_drop. }
  assert (∀ q', current (k_table (on_table (put_process (tid p) q') (put_cur q k)).2) = Ok q') as Hcur.
  { intros q'. unfold current. simpl. by rewrite Ht, lookup_insert_eq. }
  destruct (Z.testbit a0 31); cbn [negb]; rewrite stm_bind_eq.
  - rewrite stm_bind_eq. unfold lift. rewrite uadd_ok by done. cbv iota beta. do 2 eexists. split; [reflexivity|]. split; [apply Hcur|].
    cbn [signal_mask set_frame trap_frame]. split_and!; [done|apply Hdrop; by rewrite Hfr|by simpl; rewrite Hfr|done].
  - cbv iota beta delta [mret stm_ret]. do 2 eexists. split; [reflexivity|]. split; [apply Hcur|].
    cbn [signal_mask set_frame trap_frame]. split_and!; [done|apply Hdrop; by rewrite Hfr|by simpl; rewrite Hfr|by simpl; rewrite Hfr].
Qed.
End Core.

(** ** A machine that boots and forks *)
Section Sample.
#[local] Existing Instance Obj.no_ext4.
#[local] Existing Instance Mm.sample_hal.
#[local] Hint Extern 0 (KernelEnv _ _ _) => exact (Kernel.kernel_env no_memory) : typeclass_instances.
Definition la_sample_boot : kernel Empty_set := (la_bootstrap no_memory sample_programs sample_cold).2.
(** A program that makes the system call [sysno] with the argument [x]. *)
Definition la_calls (sysno x : Z) : user_program := fun _ f mem =>
  (mkFrame (<[17%nat := sysno]> (<[10%nat := x]> (regs f))) (sepc f) (sstatus f) 11 (stval f) (fregs f) (fcsr f), mem).
Definition la_sample_forked : core Empty_set :=
  (la_round no_memory (fun _ => 0) sample_programs "" "" (la_calls 220 17) (mkCore la_sample_boot no_watch)).2.

Lemma la_machine_invariant_witness :
  Sched.task_ids (k_sched (c_kernel la_sample_forked)) = [1; 2] ∧
  (∀ i, i ∈ Sched.task_ids (k_sched (c_kernel la_sample_forked)) → i < next_pid (k_table (c_kernel la_sample_forked))).
Proof.
  split; [by vm_compute|].
  refine (proj1 (proj2 (proj2 (proj2 (la_machine_invariant no_memory (fun _ => 0) sample_programs "" ""
    (Kernel.mkEnv ∅ 1 ∅ Vfs.empty_vfs) (mkShmState 1 ∅ ∅) (mkTimex 0 0 0 0 0 0 0 0) la_sample_boot la_sample_forked _ _))))).
  - refine (eq_trans (surjective_pairing _) (f_equal (fun r => (r, la_sample_boot)) _)). vm_compute. reflexivity.
  - apply rtc_once, la_step_round.
Defined.

(** The first process with the termination signal pending. *)
Definition la_term : kernel Empty_set := (on_table (send_signal 1 15) la_sample_boot).2.
Lemma la_standard_signals_wait_witness :
  pending_signals <$> (processes (k_table la_term) !! 1) = Some (2 ^ 14) ∧
  la_dispatch_pending_signals no_memory la_term = (Ok tt, la_term).
Proof.
  split; [by vm_compute|].
  destruct (current (k_table la_term)) as [p| | |] eqn:Hp; [|vm_compute in Hp; discriminate..].
  assert (pending_signals p = 2 ^ 14) as Hpend by (vm_compute in Hp; by injection Hp as <-).
  apply (la_standard_signals_wait no_memory la_term p Hp); rewrite Hpend; [lia|].
  intros s Hs. rewrite Z.pow2_bits_eqb by lia. destruct (Z.eqb_spec 14 (s - 1)); [lia|done].
Defined.

(** A handler about to return: its frame at 0x11000 holds a context in which
    register 10 has bit 31 set. *)
Definition la_context : TrapFrame :=
  mkFrame (<[2%nat := 0x12000]> (<[10%nat := 2 ^ 31]> (replicate 32 7))) 0x400 0 11 0 (replicate 32 9) 1.
Definition la_handler : Process Obj.FileHandle Z :=
  set_frame (mkFrame (<[2%nat := 0x11000]> (replicate 32 1)) 0x800 0 11 0 (replicate 32 9) 1) SignalSpec.sample_process.
Definition la_sample_return : kernel Empty_set :=
  (write_user SignalSpec.plenty 0x11000 (la_signal_frame 40 5 la_context) (put_cur la_handler SignalSpec.sample_kernel)).2.
Lemma la_context_ok : SignalSpec.frame_ok la_context.
Proof.
  split; [reflexivity|reflexivity| | |by vm_compute|by vm_compute].
  - apply Forall_insert; [apply Forall_insert; [apply Forall_replicate|]|]; by vm_compute.
  - apply Forall_replicate. by vm_compute.
Qed.
Lemma la_sigreturn_pc_witness : ∃ k' q,
  (result ← SysDispatch.dispatch SignalSpec.plenty true (fun _ => 0) sample_programs SYS_RT_SIGRETURN [];
   la_return_to_user 5 SYS_RT_SIGRETURN result 0x900) la_sample_return = (Ok tt, k') ∧
  current (k_table k') = Ok q ∧ signal_mask q = 5 ∧ sepc (trap_frame q) = 0x904.
Proof.
  destruct (la_sigreturn_pc SignalSpec.plenty (fun _ => 0) sample_programs la_sample_return la_handler 0x11000 40 5 la_context [] 0x900)
    as (k' & q & Hk & Hq & Hm & _ & _ & Hpc);
    [by vm_compute|by vm_compute|by vm_compute|by vm_compute|apply la_context_ok|by vm_compute|by vm_compute|].
  exists k', q. split_and!; [exact Hk|exact Hq|exact Hm|exact Hpc].
Defined.
End Sample.
End LoongInv.
