(* ===== verification/Layout.v ===== *)
(** * The file system at boot (crates/kernel-core/src/lib_riscv.inc.rs, lib_loongarch.inc.rs, crates/user-init/src/lib.rs)

    What [bootstrap] does to the file name space before the first process
    exists: the seeds of the built-in programs, the mount of the ext4 disk, and
    the directories, wrappers, links and scripts of the test suites, chosen by
    a profile file on the disk.

    The texts of the scripts and of the configuration files are data: [asset]
    gives the bytes of the constant with a given name. *)

From S2P Require Import Prelude Path FileObject Vfs VfsInv SysExec.

Open Scope string_scope.
Open Scope list_scope.
Open Scope Z_scope.

Module Layout.
Import Obj Vfs.

(** ** Text *)
Definition cont_byte (b : Z) : bool := (0x80 <=? b) && (b <? 0xc0).
(** [core::str::from_utf8] and the characters of the string. *)
Fixpoint from_utf8 (bytes : list Z) : option (list Z) :=
  match bytes with
  | [] => Some []
  | a :: r1 =>
      if a <? 0x80 then cons a <$> from_utf8 r1
      else match r1 with
      | [] => None
      | b :: r2 =>
          if (0xc2 <=? a) && (a <=? 0xdf) then
            if cont_byte b then cons ((a - 0xc0) * 64 + (b - 0x80)) <$> from_utf8 r2 else None
          else match r2 with
          | [] => None
          | c :: r3 =>
              if (0xe0 <=? a) && (a <=? 0xef) then
                if cont_byte b && cont_byte c && negb ((a =? 0xe0) && (b <? 0xa0)) && negb ((a =? 0xed) && (0x9f <? b))
                then cons ((a - 0xe0) * 4096 + (b - 0x80) * 64 + (c - 0x80)) <$> from_utf8 r3 else None
              else match r3 with
              | [] => None
              | d :: r4 =>
                  if (0xf0 <=? a) && (a <=? 0xf4) then
                    if cont_byte b && cont_byte c && cont_byte d && negb ((a =? 0xf0) && (b <? 0x90)) &&
                       negb ((a =? 0xf4) && (0x8f <? b))
                    then cons ((a - 0xf0) * 262144 + (b - 0x80) * 4096 + (c - 0x80) * 64 + (d - 0x80)) <$> from_utf8 r4 else None
                  else None
              end
          end
      end
  end.

Definition is_whitespace (c : Z) : bool :=
  (0x9 <=? c) && (c <=? 0xd) || existsb (Z.eqb c) [0x20; 0x85; 0xa0; 0x1680; 0x2028; 0x2029; 0x202f; 0x205f; 0x3000] ||
  (0x2000 <=? c) && (c <=? 0x200a).
Fixpoint trim_start (s : list Z) : list Z :=
  match s with c :: s' => if is_whitespace c then trim_start s' else s | [] => [] end.
Definition trim (s : list Z) : list Z := rev (trim_start (rev (trim_start s))).

(** [str::lines]: a line ends at a line feed, with a carriage return before it. *)
Definition strip_cr (line : list Z) : list Z := match line with 13 :: rest => rest | _ => line end.
Fixpoint lines_from (line s : list Z) : list (list Z) :=
  match s with
  | [] => match line with [] => [] | _ => [rev line] end
  | c :: s' => if c =? 10 then rev (strip_cr line) :: lines_from [] s' else lines_from (c :: line) s'
  end.
Definition text_lines (s : list Z) : list (list Z) := lines_from [] s.
Fixpoint split_once (c : Z) (s : list Z) : option (list Z * list Z) :=
  match s with
  | [] => None
  | x :: s' => if x =? c then Some ([], s') else '(a, b) ← split_once c s'; Some (x :: a, b)
  end.

(** [str::replace]: occurrences from the left, none inside another. *)
Fixpoint strip (pat s : list Z) : option (list Z) :=
  match pat, s with
  | [], _ => Some s
  | p :: pat', c :: s' => if p =? c then strip pat' s' else None
  | _, [] => None
  end.
Fixpoint replace_fuel (fuel : nat) (pat with_ s : list Z) : list Z :=
  match fuel with
  | O => s
  | S fuel' =>
      match strip pat s with
      | Some rest => with_ ++ replace_fuel fuel' pat with_ rest
      | None => match s with [] => [] | c :: s' => c :: replace_fuel fuel' pat with_ s' end
      end
  end.
Definition replace (pat with_ s : list Z) : list Z := replace_fuel (S (length s)) pat with_ s.

(** ** Profiles *)
Definition normalize_value (known : list string) (other : string) (raw : list Z) : string :=
  default other (snd <$> list_find (fun s => bytes_of s = trim raw) known).

Definition oscomp_profiles : list string :=
  ["full"; "basic"; "busybox"; "iozone"; "libctest"; "libc-bench"; "lmbench"; "lua"; "ltp"; "unixbench"; "netperf"; "iperf"; "cyclic"].
Definition normalize_oscomp_profile_value : list Z → string := normalize_value oscomp_profiles "full".
Definition oscomp_full_groups : list string :=
  ["time-test"; "basic"; "busybox"; "iozone"; "libctest"; "libc-bench"; "lmbench"; "lua"; "unixbench"; "netperf"; "iperf"; "ltp"; "cyclic"].
Definition normalize_oscomp_full_max_group_value : list Z → string := normalize_value oscomp_full_groups "all".
Definition normalize_oscomp_iozone_profile_value : list Z → string := normalize_value ["full"] "smoke".
Definition normalize_oscomp_basic_profile_value : list Z → string := normalize_value ["smoke"] "full".
Definition normalize_oscomp_busybox_profile_value : list Z → string := normalize_value ["smoke"] "full".
Definition normalize_oscomp_gate_libctest_scope_value : list Z → string := normalize_value ["smoke"] "full".
Definition normalize_oscomp_libcbench_scope_value : list Z → string := normalize_value ["smoke"] "full".
Definition normalize_oscomp_lmbench_scope_value : list Z → string := normalize_value ["smoke"] "full".

Record OscompStage2Overrides := mkOverrides {
  full_max_group : string; iozone_profile : string; basic_profile : string; busybox_profile : string;
  gate_libctest_scope : string; libcbench_scope : string; lmbench_scope : string }.

Definition override_line (o : OscompStage2Overrides) (line : list Z) : OscompStage2Overrides :=
  match split_once 61 line with
  | None => o
  | Some (key, value) =>
      let k := trim key in
      let key_is (s : string) := bool_decide (k = bytes_of s) in
      if key_is "WHUSE_STAGE2_FULL_MAX_GROUP" then
        mkOverrides (normalize_oscomp_full_max_group_value value) (iozone_profile o) (basic_profile o) (busybox_profile o)
          (gate_libctest_scope o) (libcbench_scope o) (lmbench_scope o)
      else if key_is "WHUSE_STAGE2_IOZONE_PROFILE" then
        mkOverrides (full_max_group o) (normalize_oscomp_iozone_profile_value value) (basic_profile o) (busybox_profile o)
          (gate_libctest_scope o) (libcbench_scope o) (lmbench_scope o)
      else if key_is "WHUSE_STAGE2_BASIC_PROFILE" then
        mkOverrides (full_max_group o) (iozone_profile o) (normalize_oscomp_basic_profile_value value) (busybox_profile o)
          (gate_libctest_scope o) (libcbench_scope o) (lmbench_scope o)
      else if key_is "WHUSE_STAGE2_BUSYBOX_PROFILE" then
        mkOverrides (full_max_group o) (iozone_profile o) (basic_profile o) (normalize_oscomp_busybox_profile_value value)
          (gate_libctest_scope o) (libcbench_scope o) (lmbench_scope o)
      else if key_is "WHUSE_STAGE2_GATE_LIBCTEST_SCOPE" then
        mkOverrides (full_max_group o) (iozone_profile o) (basic_profile o) (busybox_profile o)
          (normalize_oscomp_gate_libctest_scope_value value) (libcbench_scope o) (lmbench_scope o)
      else if key_is "WHUSE_STAGE2_LIBCBENCH_SCOPE" then
        mkOverrides (full_max_group o) (iozone_profile o) (basic_profile o) (busybox_profile o)
          (gate_libctest_scope o) (normalize_oscomp_libcbench_scope_value value) (lmbench_scope o)
      else if key_is "WHUSE_STAGE2_LMBENCH_SCOPE" then
        mkOverrides (full_max_group o) (iozone_profile o) (basic_profile o) (busybox_profile o)
          (gate_libctest_scope o) (libcbench_scope o) (normalize_oscomp_lmbench_scope_value value)
      else o
  end.

(** ** Tables *)
Definition rv_directories : list string :=
  ["/var"; "/var/tmp"; "/var/tmp/lmbench"; "/usr"; "/usr/bin"; "/usr/sbin"; "/lib"; "/lib/riscv64-linux-gnu";
   "/lib/riscv64-linux-gnu/tls"; "/lib/loongarch64-linux-gnu"; "/lib/loongarch64-linux-gnu/tls"; "/lib64";
   "/lib64/loongarch64-linux-gnu"; "/lib64/loongarch64-linux-gnu/tls"; "/sbin"; "/lib/modules";
   "/lib/modules/6.8.0-whuse"; "/lib/modules/6.8.0-whuse/build"].
Definition rv_busybox_aliases : list (string * string) :=
  [("/musl/ls", "ls"); ("/musl/which", "which"); ("/musl/sleep", "sleep"); ("/musl/basename", "basename");
   ("/musl/dirname", "dirname"); ("/musl/awk", "awk"); ("/musl/sed", "sed"); ("/musl/grep", "grep"); ("/musl/[", "[");
   ("/musl/test", "test"); ("/musl/ar", "ar"); ("/musl/ip", "ip"); ("/musl/mktemp", "mktemp");
   ("/musl/chmod", "chmod"); ("/musl/id", "id"); ("/musl/cut", "cut"); ("/musl/head", "head"); ("/musl/tail", "tail");
   ("/musl/tr", "tr"); ("/musl/xargs", "xargs"); ("/musl/readlink", "readlink")].
Definition rv_links : list (string * string) :=
  [("/bin/busybox", "/musl/busybox"); ("/bin/sh", "/musl/busybox"); ("/bin/bash", "/musl/busybox");
   ("/bin/ls", "/musl/ls"); ("/bin/which", "/musl/which"); ("/bin/sleep", "/musl/sleep");
   ("/bin/basename", "/musl/basename"); ("/bin/dirname", "/musl/dirname"); ("/bin/awk", "/musl/awk");
   ("/bin/sed", "/musl/sed"); ("/bin/grep", "/musl/grep"); ("/bin/ar", "/musl/ar"); ("/bin/ip", "/musl/ip");
   ("/bin/mktemp", "/musl/mktemp"); ("/bin/chmod", "/musl/chmod"); ("/bin/id", "/musl/id");
   ("/bin/acct02_helper", "/musl/ltp/testcases/bin/acct02_helper"); ("/bin/cut", "/musl/cut");
   ("/bin/head", "/musl/head"); ("/bin/tail", "/musl/tail"); ("/bin/tr", "/musl/tr"); ("/bin/xargs", "/musl/xargs");
   ("/bin/readlink", "/musl/readlink"); ("/bin/wait", "/musl/wait"); ("/bin/locale", "/musl/locale");
   ("/bin/rsh", "/musl/rsh"); ("/bin/keyctl", "/musl/keyctl"); ("/bin/groupdel", "/musl/groupdel");
   ("/busybox", "/musl/busybox"); ("/usr/bin/ls", "/musl/ls"); ("/usr/bin/which", "/musl/which");
   ("/usr/bin/sleep", "/musl/sleep"); ("/usr/bin/basename", "/musl/basename"); ("/usr/bin/dirname", "/musl/dirname");
   ("/usr/bin/awk", "/musl/awk"); ("/usr/bin/sed", "/musl/sed"); ("/usr/bin/grep", "/musl/grep");
   ("/usr/bin/ar", "/musl/ar"); ("/usr/bin/ip", "/musl/ip"); ("/usr/bin/mktemp", "/musl/mktemp");
   ("/usr/bin/chmod", "/musl/chmod"); ("/usr/bin/id", "/musl/id");
   ("/usr/bin/acct02_helper", "/musl/ltp/testcases/bin/acct02_helper"); ("/usr/bin/cut", "/musl/cut");
   ("/usr/bin/head", "/musl/head"); ("/usr/bin/tail", "/musl/tail"); ("/usr/bin/tr", "/musl/tr");
   ("/usr/bin/xargs", "/musl/xargs"); ("/usr/bin/readlink", "/musl/readlink"); ("/usr/bin/wait", "/musl/wait");
   ("/usr/bin/locale", "/musl/locale"); ("/usr/bin/rsh", "/musl/rsh"); ("/usr/bin/keyctl", "/musl/keyctl");
   ("/usr/bin/groupdel", "/musl/groupdel"); ("/usr/sbin/useradd", "/musl/useradd");
   ("/usr/sbin/userdel", "/musl/userdel"); ("/usr/sbin/groupdel", "/musl/groupdel");
   ("/sbin/useradd", "/musl/useradd"); ("/sbin/userdel", "/musl/userdel"); ("/sbin/groupdel", "/musl/groupdel");
   ("/usr/bin/env", "/musl/busybox"); ("/lib/ld-musl-riscv64.so.1", "/musl/lib/libc.so");
   ("/lib/ld-musl-loongarch64.so.1", "/musl/lib/libc.so");
   ("/lib/ld-linux-riscv64-lp64d.so.1", "/glibc/lib/ld-linux-riscv64-lp64d.so.1");
   ("/lib/riscv64-linux-gnu/ld-linux-riscv64-lp64d.so.1", "/glibc/lib/ld-linux-riscv64-lp64d.so.1");
   ("/lib/ld-linux-loongarch-lp64d.so.1", "/glibc/lib/ld-linux-loongarch-lp64d.so.1");
   ("/lib/loongarch64-linux-gnu/ld-linux-loongarch-lp64d.so.1", "/glibc/lib/ld-linux-loongarch-lp64d.so.1");
   ("/lib64/ld-linux-loongarch-lp64d.so.1", "/glibc/lib/ld-linux-loongarch-lp64d.so.1");
   ("/lib64/loongarch64-linux-gnu/ld-linux-loongarch-lp64d.so.1", "/glibc/lib/ld-linux-loongarch-lp64d.so.1");
   ("/lib/libc.so.6", "/glibc/lib/libc.so.6"); ("/lib/libm.so.6", "/glibc/lib/libm.so.6");
   ("/lib/loongarch64-linux-gnu/libc.so.6", "/glibc/lib/libc.so.6");
   ("/lib/loongarch64-linux-gnu/libm.so.6", "/glibc/lib/libm.so.6");
   ("/lib/loongarch64-linux-gnu/libc.so", "/glibc/lib/libc.so.6");
   ("/lib/loongarch64-linux-gnu/libm.so", "/glibc/lib/libm.so.6");
   ("/lib/loongarch64-linux-gnu/tls/libc.so", "/glibc/lib/libc.so.6");
   ("/lib/loongarch64-linux-gnu/tls/libm.so", "/glibc/lib/libm.so.6"); ("/lib64/libc.so.6", "/glibc/lib/libc.so.6");
   ("/lib64/libm.so.6", "/glibc/lib/libm.so.6"); ("/lib64/loongarch64-linux-gnu/libc.so.6", "/glibc/lib/libc.so.6");
   ("/lib64/loongarch64-linux-gnu/libm.so.6", "/glibc/lib/libm.so.6");
   ("/lib64/loongarch64-linux-gnu/libc.so", "/glibc/lib/libc.so.6");
   ("/lib64/loongarch64-linux-gnu/libm.so", "/glibc/lib/libm.so.6");
   ("/lib64/loongarch64-linux-gnu/tls/libc.so", "/glibc/lib/libc.so.6");
   ("/lib64/loongarch64-linux-gnu/tls/libm.so", "/glibc/lib/libm.so.6"); ("/lib/libc.so", "/musl/lib/libc.so");
   ("/lib/libm.so", "/glibc/lib/libm.so"); ("/lib64/libm.so", "/glibc/lib/libm.so")].
Definition rv_overrides : list string :=
  ["/musl/.whuse_oscomp_only_step"; "/musl/.whuse_ltp_profile"; "/musl/.whuse_ltp_whitelist"; "/musl/.whuse_ltp_blacklist";
   "/musl/.whuse_ltp_step_timeout"; "/musl/.whuse_ltp_case_timeout"; "/musl/ltp_score_whitelist.host.txt";
   "/musl/ltp_score_blacklist.host.txt"].
Definition rv_root_aliases : list string :=
  ["arithoh"; "basic"; "basic_testcode.sh"; "busy"; "busybox"; "busybox_cmd.txt"; "busybox_testcode.sh"; "bw_file_rd";
   "bw_mem"; "bw_mmap_rd"; "bw_pipe"; "bw_tcp"; "bw_unix"; "cache"; "clock"; "context1"; "cyclictest";
   "cyclictest_testcode.sh"; "date.lua"; "dhry2"; "dhry2reg"; "disk"; "dlopen_dso.so"; "double"; "enough";
   "entry-dynamic.exe"; "entry-static.exe"; "execl"; "file_io.lua"; "float"; "flushdisk"; "fstime"; "getopt";
   "gfx-x11"; "hackbench"; "hanoi"; "hello"; "index.base"; "int"; "iozone"; "iozone_testcode.sh"; "iperf3";
   "iperf_testcode.sh"; "lat_cmd"; "lat_connect"; "lat_ctx"; "lat_dram_page"; "lat_fcntl"; "lat_fifo"; "lat_fs";
   "lat_http"; "lat_mem_rd"; "lat_mmap"; "lat_ops"; "lat_pagefault"; "lat_pipe"; "lat_pmake"; "lat_proc"; "lat_rand";
   "lat_rpc"; "lat_select"; "lat_sem"; "lat_sig"; "lat_syscall"; "lat_tcp"; "lat_udp"; "lat_unix"; "lat_unix_connect";
   "lat_usleep"; "libc-bench"; "libcbench_testcode.sh"; "libctest_testcode.sh"; "line"; "lmbench"; "lmbench_all";
   "lmbench_testcode.sh"; "lmdd"; "lmhttp"; "long"; "loop_o"; "looper"; "ltp"; "ltp_testcode.sh"; "lua";
   "lua_testcode.sh"; "max_min.lua"; "memsize"; "mhz"; "msleep"; "multi.sh"; "netperf"; "netperf_testcode.sh";
   "netserver"; "par_mem"; "par_ops"; "pipe"; "random.lua"; "register"; "remove.lua"; "rhttp"; "round_num.lua";
   "run-dynamic.sh"; "run-static.sh"; "runtest.exe"; "seek"; "short"; "sin30.lua"; "sort.lua"; "spawn"; "stream";
   "strings.lua"; "syscall"; "test.sh"; "timing_o"; "tlb"; "tls_get_new-dtv_dso.so"; "tst.sh"; "unixbench.logo";
   "unixbench_testcode.sh"; "whetstone-double"].
Definition la_directories : list string :=
  ["/var"; "/var/tmp"; "/var/tmp/lmbench"; "/usr"; "/usr/bin"; "/usr/lib64"; "/usr/sbin"; "/lib";
   "/lib/riscv64-linux-gnu"; "/lib/riscv64-linux-gnu/tls"; "/lib/loongarch64-linux-gnu";
   "/lib/loongarch64-linux-gnu/tls"; "/lib64"; "/lib64/loongarch64-linux-gnu"; "/lib64/loongarch64-linux-gnu/tls";
   "/sbin"].
Definition la_busybox_aliases : list (string * string) :=
  [("/musl/ls", "ls"); ("/musl/which", "which"); ("/musl/sleep", "sleep"); ("/musl/basename", "basename");
   ("/musl/dirname", "dirname"); ("/musl/awk", "awk"); ("/musl/sed", "sed"); ("/musl/grep", "grep"); ("/musl/[", "[");
   ("/musl/test", "test"); ("/musl/cut", "cut"); ("/musl/head", "head"); ("/musl/tail", "tail"); ("/musl/tr", "tr");
   ("/musl/xargs", "xargs"); ("/musl/readlink", "readlink")].
Definition la_links : list (string * string) :=
  [("/bin/busybox", "/musl/busybox"); ("/bin/sh", "/musl/busybox"); ("/bin/bash", "/musl/busybox");
   ("/bin/ls", "/musl/ls"); ("/bin/which", "/musl/which"); ("/bin/sleep", "/musl/sleep");
   ("/bin/basename", "/musl/basename"); ("/bin/dirname", "/musl/dirname"); ("/bin/awk", "/musl/awk");
   ("/bin/sed", "/musl/sed"); ("/bin/grep", "/musl/grep"); ("/bin/cut", "/musl/cut"); ("/bin/head", "/musl/head");
   ("/bin/tail", "/musl/tail"); ("/bin/tr", "/musl/tr"); ("/bin/xargs", "/musl/xargs");
   ("/bin/readlink", "/musl/readlink"); ("/busybox", "/musl/busybox"); ("/usr/bin/ls", "/musl/ls");
   ("/usr/bin/which", "/musl/which"); ("/usr/bin/sleep", "/musl/sleep"); ("/usr/bin/basename", "/musl/basename");
   ("/usr/bin/dirname", "/musl/dirname"); ("/usr/bin/awk", "/musl/awk"); ("/usr/bin/sed", "/musl/sed");
   ("/usr/bin/grep", "/musl/grep"); ("/usr/bin/cut", "/musl/cut"); ("/usr/bin/head", "/musl/head");
   ("/usr/bin/tail", "/musl/tail"); ("/usr/bin/tr", "/musl/tr"); ("/usr/bin/xargs", "/musl/xargs");
   ("/usr/bin/readlink", "/musl/readlink"); ("/usr/bin/env", "/musl/busybox");
   ("/lib/ld-musl-riscv64.so.1", "/musl/lib/libc.so"); ("/lib/ld-musl-loongarch64.so.1", "/musl/lib/libc.so");
   ("/lib64/ld-musl-loongarch-lp64d.so.1", "/musl/lib/libc.so");
   ("/lib/ld-linux-riscv64-lp64d.so.1", "/glibc/lib/ld-linux-riscv64-lp64d.so.1");
   ("/lib/riscv64-linux-gnu/ld-linux-riscv64-lp64d.so.1", "/glibc/lib/ld-linux-riscv64-lp64d.so.1");
   ("/lib/ld-linux-loongarch-lp64d.so.1", "/glibc/lib/ld-linux-loongarch-lp64d.so.1");
   ("/lib/loongarch64-linux-gnu/ld-linux-loongarch-lp64d.so.1", "/glibc/lib/ld-linux-loongarch-lp64d.so.1");
   ("/lib64/ld-linux-loongarch-lp64d.so.1", "/glibc/lib/ld-linux-loongarch-lp64d.so.1");
   ("/lib64/loongarch64-linux-gnu/ld-linux-loongarch-lp64d.so.1", "/glibc/lib/ld-linux-loongarch-lp64d.so.1");
   ("/lib/libc.so.6", "/glibc/lib/libc.so.6"); ("/lib/libm.so.6", "/glibc/lib/libm.so.6");
   ("/lib/riscv64-linux-gnu/libc.so.6", "/glibc/lib/libc.so.6");
   ("/lib/riscv64-linux-gnu/libm.so.6", "/glibc/lib/libm.so.6");
   ("/lib/riscv64-linux-gnu/libc.so", "/glibc/lib/libc.so.6");
   ("/lib/riscv64-linux-gnu/libm.so", "/glibc/lib/libm.so.6");
   ("/lib/riscv64-linux-gnu/tls/libc.so", "/glibc/lib/libc.so.6");
   ("/lib/riscv64-linux-gnu/tls/libm.so", "/glibc/lib/libm.so.6");
   ("/lib/loongarch64-linux-gnu/libc.so.6", "/glibc/lib/libc.so.6");
   ("/lib/loongarch64-linux-gnu/libm.so.6", "/glibc/lib/libm.so.6");
   ("/lib/loongarch64-linux-gnu/libc.so", "/glibc/lib/libc.so.6");
   ("/lib/loongarch64-linux-gnu/libm.so", "/glibc/lib/libm.so.6");
   ("/lib/loongarch64-linux-gnu/tls/libc.so", "/glibc/lib/libc.so.6");
   ("/lib/loongarch64-linux-gnu/tls/libm.so", "/glibc/lib/libm.so.6"); ("/lib64/libc.so.6", "/glibc/lib/libc.so.6");
   ("/lib64/libm.so.6", "/glibc/lib/libm.so.6"); ("/lib64/loongarch64-linux-gnu/libc.so.6", "/glibc/lib/libc.so.6");
   ("/lib64/loongarch64-linux-gnu/libm.so.6", "/glibc/lib/libm.so.6");
   ("/lib64/loongarch64-linux-gnu/libc.so", "/glibc/lib/libc.so.6");
   ("/lib64/loongarch64-linux-gnu/libm.so", "/glibc/lib/libm.so.6");
   ("/lib64/loongarch64-linux-gnu/tls/libc.so", "/glibc/lib/libc.so.6");
   ("/lib64/loongarch64-linux-gnu/tls/libm.so", "/glibc/lib/libm.so.6");
   ("/usr/lib64/libc.so.6", "/glibc/lib/libc.so.6"); ("/usr/lib64/libm.so.6", "/glibc/lib/libm.so.6");
   ("/usr/lib64/libc.so", "/glibc/lib/libc.so.6"); ("/usr/lib64/libm.so", "/glibc/lib/libm.so.6");
   ("/lib/libc.so", "/musl/lib/libc.so"); ("/lib/libm.so", "/glibc/lib/libm.so");
   ("/lib64/libm.so", "/glibc/lib/libm.so")].
Definition la_overrides : list string :=
  ["/musl/.whuse_oscomp_only_step"; "/musl/.whuse_ltp_profile"; "/musl/.whuse_ltp_whitelist"; "/musl/.whuse_ltp_blacklist";
   "/musl/.whuse_ltp_step_timeout"; "/musl/.whuse_ltp_case_timeout"; "/musl/ltp_score_whitelist.host.txt";
   "/musl/ltp_score_blacklist.host.txt"].
Definition la_root_aliases : list string :=
  ["arithoh"; "basic"; "basic_testcode.sh"; "busy"; "busybox"; "busybox_cmd.txt"; "busybox_testcode.sh"; "bw_file_rd";
   "bw_mem"; "bw_mmap_rd"; "bw_pipe"; "bw_tcp"; "bw_unix"; "cache"; "clock"; "context1"; "cyclictest";
   "cyclictest_testcode.sh"; "date.lua"; "dhry2"; "dhry2reg"; "disk"; "dlopen_dso.so"; "double"; "enough";
   "entry-dynamic.exe"; "entry-static.exe"; "execl"; "file_io.lua"; "float"; "flushdisk"; "fstime"; "getopt";
   "gfx-x11"; "hackbench"; "hanoi"; "hello"; "index.base"; "int"; "iozone"; "iozone_testcode.sh"; "iperf3";
   "iperf_testcode.sh"; "lat_cmd"; "lat_connect"; "lat_ctx"; "lat_dram_page"; "lat_fcntl"; "lat_fifo"; "lat_fs";
   "lat_http"; "lat_mem_rd"; "lat_mmap"; "lat_ops"; "lat_pagefault"; "lat_pipe"; "lat_pmake"; "lat_proc"; "lat_rand";
   "lat_rpc"; "lat_select"; "lat_sem"; "lat_sig"; "lat_syscall"; "lat_tcp"; "lat_udp"; "lat_unix"; "lat_unix_connect";
   "lat_usleep"; "libc-bench"; "libcbench_testcode.sh"; "libctest_testcode.sh"; "line"; "lmbench"; "lmbench_all";
   "lmbench_testcode.sh"; "lmdd"; "lmhttp"; "long"; "loop_o"; "looper"; "ltp"; "ltp_testcode.sh"; "lua";
   "lua_testcode.sh"; "max_min.lua"; "memsize"; "mhz"; "msleep"; "multi.sh"; "netperf"; "netperf_testcode.sh";
   "netserver"; "par_mem"; "par_ops"; "pipe"; "random.lua"; "register"; "remove.lua"; "rhttp"; "round_num.lua";
   "run-dynamic.sh"; "run-static.sh"; "runtest.exe"; "seek"; "short"; "sin30.lua"; "sort.lua"; "spawn"; "stream";
   "strings.lua"; "syscall"; "test.sh"; "timing_o"; "tlb"; "tls_get_new-dtv_dso.so"; "tst.sh"; "unixbench.logo";
   "unixbench_testcode.sh"; "whetstone-double"].
Definition la_libctest_preload_files : list (string * Z) :=
  [("/musl/basic_testcode.sh", 0x81ed); ("/glibc/basic_testcode.sh", 0x81ed); ("/musl/busybox_testcode.sh", 0x81ed);
   ("/glibc/busybox_testcode.sh", 0x81ed); ("/musl/busybox_cmd.txt", 0x81a4); ("/glibc/busybox_cmd.txt", 0x81a4);
   ("/musl/basic/run-all.sh", 0x81ed); ("/glibc/basic/run-all.sh", 0x81ed); ("/musl/iozone_testcode.sh", 0x81ed);
   ("/glibc/iozone_testcode.sh", 0x81ed); ("/musl/iozone", 0x81ed); ("/glibc/iozone", 0x81ed);
   ("/musl/libctest_testcode.sh", 0x81ed); ("/musl/run-static.sh", 0x81ed); ("/musl/run-dynamic.sh", 0x81ed);
   ("/musl/runtest.exe", 0x81ed); ("/musl/entry-static.exe", 0x81ed); ("/musl/entry-dynamic.exe", 0x81ed);
   ("/musl/lib/libc.so", 0x81ed); ("/glibc/lib/ld-linux-loongarch-lp64d.so.1", 0x81ed);
   ("/glibc/lib/libc.so.6", 0x81ed); ("/glibc/lib/libm.so.6", 0x81ed); ("/glibc/lib/libm.so", 0x81ed)].
Definition la_basic_binaries : list string :=
  ["brk"; "chdir"; "clone"; "close"; "dup2"; "dup"; "execve"; "exit"; "fork"; "fstat"; "getcwd"; "getdents"; "getpid";
   "getppid"; "gettimeofday"; "mkdir_"; "mmap"; "mount"; "munmap"; "openat"; "open"; "pipe"; "read"; "sleep";
   "test_echo"; "times"; "umount"; "uname"; "unlink"; "wait"; "waitpid"; "write"; "yield"].
Definition la_basic_extra_files : list (string * Z) := [("text.txt", 0x81a4)].

Section Boot.
Context {M : Type} `{!Ext4Ops M} (asset : string → list Z).
Abbreviation vfs := (stm (KernelVfs M)).
Abbreviation run_each := (Vfs.run_all (M := M)).

Definition access_ok (path : string) : vfs bool := reads (fun v => Ok (is_ok (access v "/" path))).
Definition when (b : bool) (m : vfs unit) : vfs unit := if b then m else mret tt.

(** ** Built-in files *)
Fixpoint chain (prefix : string) (components : list string) : list string :=
  match components with
  | [] => []
  | c :: cs => if String.eqb c "" then chain prefix cs else (prefix ++ "/" ++ c)%string :: chain (prefix ++ "/" ++ c)%string cs
  end.
Definition create_dir_chain (path : string) : vfs unit := run_each (mkdirs (chain "" (Path.split path))).

Definition seed_entry (entry : string * list Z) : vfs unit :=
  _ ← match Path.rsplit entry.1 with
      | Some (parent, _) => if String.eqb parent "" then mret tt else create_dir_chain parent
      | None => mret tt
      end;
  ignore (create_file "/" entry.1 entry.2).
Fixpoint seed_entries (entries : list (string * list Z)) : vfs unit :=
  match entries with [] => mret tt | e :: es => _ ← seed_entry e; seed_entries es end.
Fixpoint create_files (files : list (string * list Z)) : vfs unit :=
  match files with [] => mret tt | (path, bytes) :: fs => _ ← create_file "/" path bytes; create_files fs end.
Definition line (s : string) : list Z := bytes_of s ++ [10].
Definition builtin_files : list (string * list Z) :=
  [("/etc/motd", asset "INIT_BANNER"); ("/bin/init", line "builtin /sbin/init"); ("/bin/child", bytes_of "builtin-child");
   ("/bin/init-runner", line "builtin /sbin/init"); ("/bin/fork-exec-wait", line "builtin /sbin/init");
   ("/bin/thread-futex", line "builtin /sbin/init"); ("/bin/signal-basic", line "builtin /bin/child");
   ("/proc/version", bytes_of "whuse-riscv64-virt")].
(** [ROOTFS_ENTRIES] is generated by the build. *)
Definition seed_filesystem (rootfs_entries : list (string * list Z)) : vfs unit :=
  _ ← seed_entries rootfs_entries; create_files builtin_files.

(** ** Built-in programs *)
(** The linker places the two programs; [image] is the memory between two of
    its symbols. *)
Record symbols := mkSymbols { sym_start : Z; sym_entry : Z; sym_end : Z }.
Definition program_from_symbols (image : Z → Z → list Z) (s : symbols) : outcome SysExec.BuiltinProgram :=
  entry ← usub (sym_entry s) (sym_start s);
  len ← usub (sym_end s) (sym_start s);
  Ok (SysExec.mkBuiltin entry (image (sym_start s) len)).
Inductive builtin := UserInit | UserChild.
Definition builtin_of (path : string) : option builtin :=
  if existsb (String.eqb path) ["/sbin/init"; "/bin/init"; "/bin/sh"] then Some UserInit
  else if String.eqb path "/bin/child" then Some UserChild
  else if existsb (String.eqb path) ["/bin/init-runner"; "/bin/fork-exec-wait"; "/bin/thread-futex"] then Some UserInit
  else if String.eqb path "/bin/signal-basic" then Some UserChild
  else None.
Definition builtin_program (image : Z → Z → list Z) (init child : symbols) (path : string) : option (outcome SysExec.BuiltinProgram) :=
  (fun b => program_from_symbols image (match b with UserInit => init | UserChild => child end)) <$> builtin_of path.

(** ** Files for the test suites *)
Definition preload (path : string) (contents : list Z) (mode : Z) : vfs unit :=
  ignore (preload_external_file path contents (Some mode)).
Definition install_fallback_symlink (path target : string) : vfs unit :=
  ok ← access_ok target;
  when ok (_ ← ignore (unlink "/" path); ignore (create_symlink "/" path target)).
Definition busybox_script (applet : string) : list Z :=
  line "#!/musl/busybox sh" ++ bytes_of "exec /musl/busybox " ++ bytes_of applet ++ [32; 34; 36; 64; 34; 10].
Definition install_busybox_exec_alias (path applet : string) : vfs unit := preload path (busybox_script applet) 0x81ed.
Definition install_exec_wrapper (path name : string) : vfs unit := preload path (asset name) 0x81ed.

Definition install_keyctl_wrapper : vfs unit := install_exec_wrapper "/musl/keyctl" "OSCOMP_KEYCTL_WRAPPER".
Definition install_wait_wrapper : vfs unit := install_exec_wrapper "/musl/wait" "OSCOMP_WAIT_WRAPPER".
Definition install_locale_wrapper : vfs unit := install_exec_wrapper "/musl/locale" "OSCOMP_LOCALE_WRAPPER".
Definition install_rsh_wrapper : vfs unit := install_exec_wrapper "/musl/rsh" "OSCOMP_RSH_WRAPPER".
Definition install_user_mgmt_wrappers : list (vfs unit) :=
  [install_exec_wrapper "/musl/useradd" "OSCOMP_USERADD_WRAPPER"; install_exec_wrapper "/musl/userdel" "OSCOMP_USERDEL_WRAPPER";
   install_exec_wrapper "/musl/groupdel" "OSCOMP_GROUPDEL_WRAPPER"].
Definition install_etc_identity_files : list (vfs unit) :=
  [preload "/etc/passwd" (asset "OSCOMP_ETC_PASSWD") 0x81a4; preload "/etc/group" (asset "OSCOMP_ETC_GROUP") 0x81a4;
   preload "/etc/protocols" (asset "OSCOMP_ETC_PROTOCOLS") 0x81a4].
Definition install_kernel_config_file : list (vfs unit) :=
  mkdirs ["/lib"; "/lib/modules"; "/lib/modules/6.8.0-whuse"; "/lib/modules/6.8.0-whuse/build"] ++
  [preload "/lib/modules/6.8.0-whuse/build/.config" (asset "OSCOMP_KERNEL_CONFIG") 0x81a4].
Definition install_oscomp_root_aliases (names : list string) : list (vfs unit) :=
  (fun name => install_fallback_symlink ("/" ++ name) ("/musl/" ++ name)) <$> names.

(** A runtime setting left on the disk is removed. *)
Definition purge (path : string) : vfs unit := ok ← access_ok path; when ok (ignore (unlink "/" path)).
Definition write_script (path : string) (bytes : list Z) : vfs unit := ignore (create_file "/" path bytes).

(** A library is read from the disk once and kept in memory. *)
Definition preload_from_disk (path : string) (mode : Z) : vfs unit := fun v =>
  match read_file_all "/" path v with
  | (Ok [], v') => (Ok tt, v')
  | (Ok bytes, v') => preload path bytes mode v'
  | (_, v') => (Ok tt, v')
  end.
Definition ld_so_files : list (vfs unit) :=
  (fun path => preload path [] 0x81a4) <$> ["/etc/ld.so.preload"; "/etc/ld.so.cache"; "/etc/ld.so.conf"].

Definition read_oscomp_profile_default : vfs string := fun v =>
  match read_file_all "/" "/whuse-oscomp-profile" v with
  | (Ok bytes, v') => (Ok (match from_utf8 bytes with Some text => normalize_oscomp_profile_value text | None => "full" end), v')
  | (_, v') => (Ok "full", v')
  end.
Definition render_oscomp_official_suite_script (profile_default : string) : list Z :=
  replace (bytes_of "__WHUSE_OSCOMP_PROFILE_DEFAULT__") (bytes_of profile_default) (asset "OSCOMP_OFFICIAL_SUITE_SCRIPT").
Definition select_oscomp_suite_script : vfs (list Z) :=
  profile ← read_oscomp_profile_default; mret (render_oscomp_official_suite_script profile).

Definition rv_before_suite : list (vfs unit) :=
  mkdirs rv_directories ++
  ((fun a => install_busybox_exec_alias a.1 a.2) <$> rv_busybox_aliases) ++
  [install_wait_wrapper; install_locale_wrapper; install_rsh_wrapper] ++ install_user_mgmt_wrappers ++
  [install_keyctl_wrapper] ++ install_etc_identity_files ++ install_kernel_config_file ++
  ((fun l => install_fallback_symlink l.1 l.2) <$> rv_links) ++
  [ignore (unlink "/" "/lib/modules/6.8.0-whuse/build/.config");
   write_script "/lib/modules/6.8.0-whuse/build/.config" (asset "OSCOMP_LTP_KERNEL_CONFIG_STUB")] ++
  install_oscomp_root_aliases rv_root_aliases.
Definition rv_after_suite (suite_script : list Z) : list (vfs unit) :=
  [write_script "/tmp/whuse-oscomp-suite.sh" suite_script;
   write_script "/tmp/whuse-oscomp-entry.sh" (asset "OSCOMP_SUITE_ENTRY_SCRIPT");
   write_script "/tmp/whuse-busybox-testcode.sh" (asset "OSCOMP_BUSYBOX_COMPAT_SCRIPT");
   write_script "/musl/ltp_score_whitelist.txt" (asset "OSCOMP_LTP_SCORE_WHITELIST");
   write_script "/musl/ltp_score_blacklist.txt" (asset "OSCOMP_LTP_SCORE_BLACKLIST")] ++
  (purge <$> rv_overrides) ++ ld_so_files ++
  [preload_from_disk "/glibc/lib/ld-linux-riscv64-lp64d.so.1" 0x81ed; preload_from_disk "/glibc/lib/libc.so.6" 0x81ed;
   preload_from_disk "/glibc/lib/libm.so.6" 0x81ed].
Definition rv_prepare_runtime_layout : vfs unit :=
  _ ← run_each rv_before_suite; suite_script ← select_oscomp_suite_script; run_each (rv_after_suite suite_script).

(** The disk becomes the root, and a disk with the test suites is prepared;
    [probed] is the answer of the disk to the mount. *)
Definition mount_root (probed : option (outcome (M * string))) (prepare : vfs unit) : vfs unit := fun v =>
  match probed with
  | None => (Ok tt, v)
  | Some probed =>
      match mount_ext4 "virtio-blk0" "/" probed v with
      | (Ok _, v') => (busybox ← access_ok "/musl/busybox"; when busybox prepare) v'
      | (_, v') => (Ok tt, v')
      end
  end.
(** The file system when the first process is made. *)
Definition rv_boot_filesystem (rootfs_entries : list (string * list Z)) (probed : option (outcome (M * string))) : vfs unit :=
  _ ← ignore (seed_filesystem rootfs_entries); mount_root probed rv_prepare_runtime_layout.

(** ** loongarch64 *)
Section LoongArch.
(** What the build chose, and the disk as the boot code reads it directly. *)
Context (timeout_profile real_phase full_max_group_default iozone_profile_default iozone_full_scope_default : string).
Context (disk : option (string → outcome (list Z))).

Definition choose (known : list string) (other s : string) : string :=
  if existsb (String.eqb s) known then s else other.
Definition oscomp_real_full_max_group : string := choose oscomp_full_groups "all" full_max_group_default.
Definition oscomp_iozone_profile : string := choose ["full"] "smoke" iozone_profile_default.
Definition oscomp_iozone_full_scope : string := choose ["probe"] "full" iozone_full_scope_default.
Definition oscomp_suite_script : list Z :=
  if String.eqb timeout_profile "chain-fast" then asset "OSCOMP_SUITE_SCRIPT_CHAIN_FAST"
  else if String.eqb real_phase "gate" then asset "OSCOMP_SUITE_SCRIPT_REAL_GATE"
  else
    let script := replace (bytes_of "__WHUSE_STAGE2_FULL_MAX_GROUP__") (bytes_of oscomp_real_full_max_group)
                    (asset "OSCOMP_SUITE_SCRIPT_REAL_FULL_TEMPLATE") in
    let script := replace (bytes_of "__WHUSE_STAGE2_IOZONE_PROFILE__") (bytes_of oscomp_iozone_profile) script in
    replace (bytes_of "__WHUSE_STAGE2_IOZONE_FULL_SCOPE__") (bytes_of oscomp_iozone_full_scope) script.

Definition read_oscomp_stage2_overrides : vfs OscompStage2Overrides := fun v =>
  let overrides := mkOverrides oscomp_real_full_max_group oscomp_iozone_profile "full" "full" "full" "full" "full" in
  match read_file_all "/" "/musl/.whuse_stage2_local.env" v with
  | (Ok bytes, v') =>
      (Ok (match from_utf8 bytes with Some text => foldl override_line overrides (text_lines text) | None => overrides end), v')
  | (_, v') => (Ok overrides, v')
  end.
Definition la_render_official_suite_script (profile_default : string) (time_test_present : bool) (o : OscompStage2Overrides) : list Z :=
  let sub (pat with_ : string) (s : list Z) := replace (bytes_of pat) (bytes_of with_) s in
  sub "__WHUSE_OSCOMP_TIME_TEST_PRESENT__" (if time_test_present then "1" else "0")
    (sub "__WHUSE_STAGE2_LMBENCH_SCOPE__" (lmbench_scope o) (sub "__WHUSE_STAGE2_LIBCBENCH_SCOPE__" (libcbench_scope o)
    (sub "__WHUSE_STAGE2_GATE_LIBCTEST_SCOPE__" (gate_libctest_scope o) (sub "__WHUSE_STAGE2_BUSYBOX_PROFILE__" (busybox_profile o)
    (sub "__WHUSE_STAGE2_BASIC_PROFILE__" (basic_profile o) (sub "__WHUSE_STAGE2_IOZONE_PROFILE__" (iozone_profile o)
    (sub "__WHUSE_STAGE2_FULL_MAX_GROUP__" (full_max_group o)
    (sub "__WHUSE_OSCOMP_PROFILE_DEFAULT__" profile_default (asset "OSCOMP_OFFICIAL_SUITE_SCRIPT"))))))))).

Definition la_prepare_runtime_layout : list (vfs unit) :=
  mkdirs la_directories ++
  ((fun a => install_busybox_exec_alias a.1 a.2) <$> la_busybox_aliases) ++
  ((fun l => install_fallback_symlink l.1 l.2) <$> la_links) ++
  install_oscomp_root_aliases la_root_aliases ++
  (purge <$> la_overrides) ++
  [write_script "/tmp/whuse-oscomp-suite.sh" oscomp_suite_script;
   write_script "/tmp/whuse-oscomp-entry.sh" (asset "OSCOMP_SUITE_ENTRY_SCRIPT");
   write_script "/tmp/whuse-busybox-testcode.sh" (asset "OSCOMP_BUSYBOX_COMPAT_SCRIPT")].
Definition install_glibc_basic_absolute_path_shims : list (vfs unit) :=
  [preload "/glibc/basic_testcode.sh" (asset "OSCOMP_GLIBC_BASIC_TESTCODE_ABS") 0x81ed;
   preload "/glibc/basic/run-all.sh" (asset "OSCOMP_GLIBC_BASIC_RUN_ALL_ABS") 0x81ed].

(** A file of the disk, read past the name space, is kept in memory. *)
Definition copy_from_disk (read : string → outcome (list Z)) (keep_empty : bool) (source target : string) (mode : Z) : vfs unit :=
  match read source with
  | Ok [] => if keep_empty then preload target [] mode else mret tt
  | Ok bytes => preload target bytes mode
  | _ => mret tt
  end.
Definition materialize_loongarch_musl_loader_aliases : list (vfs unit) :=
  match disk with
  | None => []
  | Some read => [copy_from_disk read true "/musl/lib/libc.so" "/lib64/ld-musl-loongarch-lp64d.so.1" 0x81ed]
  end.
Definition preload_basic (read : string → outcome (list Z)) (root : string) : list (vfs unit) :=
  ((fun name => let path := (root ++ "/" ++ name)%string in copy_from_disk read false path path 0x81ed) <$> la_basic_binaries) ++
  ((fun x => let path := (root ++ "/" ++ x.1)%string in copy_from_disk read false path path x.2) <$> la_basic_extra_files).
Definition preload_libctest_hot_files_from_device : list (vfs unit) :=
  match disk with
  | None => []
  | Some read =>
      ((fun x => copy_from_disk read false x.1 x.1 x.2) <$> la_libctest_preload_files) ++
      preload_basic read "/musl/basic" ++ preload_basic read "/glibc/basic" ++ ld_so_files
  end.
Definition la_boot_filesystem (rootfs_entries : list (string * list Z)) (probed : option (outcome (M * string))) : vfs unit :=
  _ ← ignore (seed_filesystem rootfs_entries);
  mount_root probed (run_each (la_prepare_runtime_layout ++ preload_libctest_hot_files_from_device ++
                               materialize_loongarch_musl_loader_aliases ++ install_glibc_basic_absolute_path_shims)).
End LoongArch.
End Boot.

(** ** What the boot leaves behind *)
Section Proofs.
Context {M : Type} `{!Ext4Ops M} (can_reserve : Z → bool) (asset : string → list Z).
Import VfsInv.
Abbreviation vfs := (stm (KernelVfs M)).

(** Code made of the methods of the name space. *)
Definition lays {A} (m : vfs A) : Prop := ∀ v, rtc (vfs_step can_reserve) v (m v).2.

Lemma lays_ret {A} (a : A) : lays (mret a).
Proof. intros v. apply rtc_refl. Qed.
Lemma lays_reads {A} (f : KernelVfs M → outcome A) : lays (reads f).
Proof. intros v. apply rtc_refl. Qed.
Lemma lays_method {A} (m : vfs A) : vfs_method can_reserve A m → lays m.
Proof. intros Hm v. apply rtc_once. by apply (step_method can_reserve A m). Qed.
Lemma lays_ignore {A} (m : vfs A) : lays m → lays (ignore m).
Proof. intros Hm v. apply Hm. Qed.
Lemma lays_bind {A B} (m : vfs A) (f : A → vfs B) : lays m → (∀ a, lays (f a)) → lays (m ≫= f).
Proof.
  intros Hm Hf v. specialize (Hm v). rewrite stm_bind_eq. destruct (m v) as [[a| | |] v1]; [|done..].
  etrans; [exact Hm|apply Hf].
Qed.
Lemma lays_run_all (ms : list (vfs unit)) : Forall lays ms → lays (run_all ms).
Proof. induction 1 as [|m ms Hm _ IH]; cbn [run_all]; [apply lays_ret|]. apply lays_bind; [by apply lays_ignore|done]. Qed.
Lemma lays_each {A} (f : A → vfs unit) l : (∀ a, lays (f a)) → Forall lays (f <$> l).
Proof. intros Hf. induction l; constructor; auto. Qed.

(** One step of such code. *)
Ltac lay_step known := lazymatch goal with
  | |- lays (mbind _ _) => apply lays_bind; [|intros ?]
  | |- lays (ignore _) => apply lays_ignore
  | |- lays (run_all _) => apply lays_run_all
  | |- lays (mret _) => apply lays_ret
  | |- lays (reads _) => apply lays_reads
  | |- lays (create_file _ _ _) => apply lays_method, m_create_file
  | |- lays (create_symlink _ _ _) => apply lays_method, m_create_symlink
  | |- lays (unlink _ _) => apply lays_method, m_unlink
  | |- lays (mkdir _ _ _) => apply lays_method, m_mkdir
  | |- lays (preload_external_file _ _ _) => apply lays_method, m_preload
  | |- lays (match ?x with _ => _ end) => destruct x
  | |- Forall _ (_ ++ _) => apply Forall_app_2
  | |- Forall _ (_ <$> _) => apply lays_each; intros ?; cbv beta
  | |- Forall _ (_ :: _) => apply Forall_cons_2
  | |- Forall _ [] => apply Forall_nil_2
  | |- _ => known
  end.

Lemma lays_mkdirs ds : Forall lays (mkdirs (M := M) ds).
Proof. unfold mkdirs. repeat lay_step ltac:(idtac; fail). Qed.
Lemma lays_preload path bytes mode : lays (preload path bytes mode).
Proof. unfold preload. repeat lay_step ltac:(idtac; fail). Qed.
Lemma lays_write path bytes : lays (write_script path bytes).
Proof. unfold write_script. repeat lay_step ltac:(idtac; fail). Qed.
Lemma lays_link path target : lays (install_fallback_symlink path target).
Proof. unfold install_fallback_symlink, access_ok, when. repeat lay_step ltac:(idtac; fail). Qed.
Lemma lays_purge path : lays (purge path).
Proof. unfold purge, access_ok, when. repeat lay_step ltac:(idtac; fail). Qed.
Lemma lays_read_file path : lays (read_file_all "/" path).
Proof. apply lays_method, m_read_file_all. Qed.
Lemma lays_preload_from_disk path mode : lays (preload_from_disk path mode).
Proof.
  intros v. unfold preload_from_disk. pose proof (lays_read_file path v) as Hr.
  destruct (read_file_all "/" path v) as [[[|b bs]| | |] v1]; cbn [snd] in *; try exact Hr. etrans; [exact Hr|]. apply lays_preload.
Qed.
Lemma lays_profile : lays read_oscomp_profile_default.
Proof.
  intros v. unfold read_oscomp_profile_default. pose proof (lays_read_file "/whuse-oscomp-profile" v) as Hr.
  destruct (read_file_all "/" "/whuse-oscomp-profile" v) as [[bytes| | |] v1]; exact Hr.
Qed.
Lemma lays_copy read keep source target mode : lays (copy_from_disk read keep source target mode).
Proof.
  unfold copy_from_disk. destruct (read source) as [[|b bs]| | |]; try destruct keep;
    first [apply lays_preload|apply lays_ret].
Qed.

Ltac lay := repeat lay_step ltac:(first
  [ apply lays_mkdirs | apply lays_preload | apply lays_write | apply lays_link | apply lays_purge
  | apply lays_preload_from_disk | apply lays_profile | apply lays_copy ]).

Lemma lays_seed entries : lays (seed_filesystem asset entries).
Proof.
  unfold seed_filesystem. apply lays_bind.
  - induction entries as [|[path bytes] entries IH]; cbn [seed_entries]; [apply lays_ret|]. apply lays_bind; [|done].
    unfold seed_entry, create_dir_chain. lay.
  - intros _. unfold builtin_files.
    assert (∀ files, lays (create_files (M := M) files)) as Hf; [|apply Hf].
    induction files as [|[path bytes] files IH]; cbn [create_files]; [apply lays_ret|]. apply lays_bind; [lay|done].
Qed.
Lemma lays_rv_prepare : lays (rv_prepare_runtime_layout asset).
Proof.
  unfold rv_prepare_runtime_layout. apply lays_bind; [apply lays_run_all|intros _; apply lays_bind].
  - unfold rv_before_suite, install_user_mgmt_wrappers, install_etc_identity_files, install_kernel_config_file,
      install_wait_wrapper, install_locale_wrapper, install_rsh_wrapper, install_keyctl_wrapper, install_exec_wrapper,
      install_busybox_exec_alias, install_oscomp_root_aliases. lay.
  - unfold select_oscomp_suite_script. lay.
  - intros script. apply lays_run_all. unfold rv_after_suite, ld_so_files. lay.
Qed.
Lemma lays_mount_root probed m : lays m → lays (mount_root probed m).
Proof.
  intros Hm v. unfold mount_root. destruct probed as [probed|]; [|apply rtc_refl].
  assert (lays (mount_ext4 "virtio-blk0" "/" probed)) as Hmount by apply lays_method, m_mount_ext4.
  specialize (Hmount v). destruct (mount_ext4 _ _ _ _) as [[label| | |] v1]; try exact Hmount.
  etrans; [exact Hmount|]. assert (lays (busybox ← access_ok "/musl/busybox"; when busybox m)) as Hrest; [|apply Hrest].
  unfold access_ok, when. repeat lay_step ltac:(exact Hm).
Qed.

Lemma lays_rv_boot entries probed : lays (rv_boot_filesystem asset entries probed).
Proof.
  unfold rv_boot_filesystem. apply lays_bind; [apply lays_ignore, lays_seed|]. intros _. apply lays_mount_root, lays_rv_prepare.
Qed.
Lemma lays_la_boot tp rp fg io sc disk entries probed : lays (la_boot_filesystem asset tp rp fg io sc disk entries probed).
Proof.
  unfold la_boot_filesystem. apply lays_bind; [apply lays_ignore, lays_seed|]. intros _. apply lays_mount_root, lays_run_all.
  unfold la_prepare_runtime_layout, preload_libctest_hot_files_from_device, materialize_loongarch_musl_loader_aliases,
    install_glibc_basic_absolute_path_shims, install_busybox_exec_alias, preload_basic, install_oscomp_root_aliases, ld_so_files.
  destruct disk; lay.
Qed.

(** Whatever is on the disk and in the built-in texts, the boot of either
    platform leaves a well-formed name space that the methods of the name space
    can reach, and every path of it ends in an allocated node, ENOENT or
    ENOTDIR. *)
Theorem boot_filesystem_wf entries probed tp rp fg io sc disk v :
  v = (rv_boot_filesystem asset entries probed new).2 ∨ v = (la_boot_filesystem asset tp rp fg io sc disk entries probed new).2 →
  wf v ∧ rtc (vfs_step can_reserve) new v ∧
  ∀ p, (∃ n, lookup_abs v p = Ok n ∧ has_node (vstore v) n) ∨ lookup_abs v p = Err ENOENT ∨ lookup_abs v p = Err ENOTDIR.
Proof.
  intros Hv. assert (rtc (vfs_step can_reserve) new v) as Hr by (destruct Hv as [-> | ->]; [apply lays_rv_boot|apply lays_la_boot]).
  destruct (run_wf can_reserve _ _ Hr new_wf) as [Hwf _]. split_and!; [done|done|]. intros p.
  destruct (lookup_abs_total v p Hwf) as [[n Hn]|]; [|auto]. left. exists n. split; [done|]. by eapply lookup_abs_valid.
Qed.
End Proofs.

(** The profile a user writes is taken whatever white space surrounds it, and
    anything else is the full suite. *)
Lemma trim_start_white ws s : forallb is_whitespace ws = true → trim_start (ws ++ s) = trim_start s.
Proof. induction ws as [|c ws IH]; [done|]. simpl. intros [-> Hws]%andb_true_iff. by apply IH. Qed.
Lemma trim_start_keep c s : is_whitespace c = false → trim_start (c :: s) = c :: s.
Proof. simpl. by intros ->. Qed.

Lemma trim_around ws1 ws2 s : forallb is_whitespace ws1 = true → forallb is_whitespace ws2 = true →
  forallb (fun c => negb (is_whitespace c)) s = true → s ≠ [] → trim (ws1 ++ s ++ ws2) = s.
Proof.
  intros H1 H2 Hs Hn. unfold trim. rewrite trim_start_white by done.
  destruct s as [|c s]; [done|]. cbn [app]. apply andb_true_iff in Hs as [Hc%negb_true_iff Hs].
  rewrite trim_start_keep by done. rewrite app_comm_cons, rev_app_distr.
  rewrite trim_start_white by (rewrite forallb_rev in * || (apply forallb_forall; intros x Hx%in_rev; by apply (proj1 (forallb_forall _ _) H2))).
  destruct (rev (c :: s)) as [|x r] eqn:Hr; [apply (f_equal (@length Z)) in Hr; rewrite length_rev in Hr; done|].
  rewrite trim_start_keep; [rewrite <- Hr; apply rev_involutive|].
  assert (In x (c :: s)) as Hin by (apply in_rev; rewrite Hr; by left). destruct Hin as [<-|Hin]; [done|].
  apply negb_true_iff. by apply (proj1 (forallb_forall _ _) Hs).
Qed.

Theorem profile_normalized name ws1 ws2 : name ∈ oscomp_profiles → forallb is_whitespace ws1 = true → forallb is_whitespace ws2 = true →
  normalize_oscomp_profile_value (ws1 ++ bytes_of name ++ ws2) = name.
Proof.
  intros Hname H1 H2. unfold normalize_oscomp_profile_value, normalize_value. unfold oscomp_profiles in Hname.
  rewrite trim_around; [|done|done|by repeat (apply elem_of_cons in Hname as [->|Hname]; [by vm_compute|]); apply not_elem_of_nil in Hname
    |by repeat (apply elem_of_cons in Hname as [->|Hname]; [by vm_compute|]); apply not_elem_of_nil in Hname].
  repeat (apply elem_of_cons in Hname as [->|Hname]; [by vm_compute|]). by apply not_elem_of_nil in Hname.
Qed.

(** ** A boot from a small disk *)
Definition sample_files (p : string) : option (list Z) :=
  if String.eqb p "/musl/busybox" then Some [127; 69; 76; 70]
  else if String.eqb p "/whuse-oscomp-profile" then Some (line " basic") else None.
Definition sample_dirs (p : string) : bool := existsb (String.eqb p) ["/"; "/musl"; "/tmp"; "/etc"].
#[local] Instance sample_disk : Ext4Ops unit := {|
  e4_stat _ p := match sample_files p with
    | Some bytes => Ok (mkStat 0x81ed (Z.of_nat (length bytes)) 1)
    | None => if sample_dirs p then Ok (mkStat 0x41ed 0 1) else Err ENOENT
    end;
  e4_read_range _ p offset len := match sample_files p with
    | Some bytes => Ok (take (Z.to_nat len) (drop (Z.to_nat offset) bytes))
    | None => Err ENOENT
    end;
  e4_read_link _ _ := Err ENOENT;
  e4_read_dir _ _ := Ok [];
  e4_read_dir_lite _ _ := Ok [] |}.
Definition sample_asset (name : string) : list Z :=
  bytes_of (if String.eqb name "OSCOMP_OFFICIAL_SUITE_SCRIPT" then "run __WHUSE_OSCOMP_PROFILE_DEFAULT__" else name).
Definition sample_boot := rv_boot_filesystem sample_asset [] (Some (Ok (tt, "root"%string))) (new (M := unit)).

(** The boot reaches its end, the script of the suite has the profile of the
    disk, and the shell is the program of the disk. *)
Lemma boot_filesystem_wf_witness :
  sample_boot.1 = Ok tt ∧ VfsInv.wf sample_boot.2 ∧
  (read_file_all "/" "/tmp/whuse-oscomp-suite.sh" sample_boot.2).1 = Ok (bytes_of "run basic") ∧
  (read_file_all "/" "/bin/sh" sample_boot.2).1 = Ok [127; 69; 76; 70].
Proof.
  split; [by vm_compute|]. split; [|split; by vm_compute].
  refine (proj1 (boot_filesystem_wf (fun _ => true) sample_asset [] (Some (Ok (tt, "root"%string))) "" "" "" "" "" None
    sample_boot.2 _)).
  left. reflexivity.
Defined.
End Layout.
