(* ===== verification/UserInit.v ===== *)
(** * The first user programs (crates/user-init)

    The programs that are assembled into the kernel of riscv64, line by line,
    and their runs on a bench: from the boot without a disk, with one page of
    stack, through the kernel loop, to the end. *)

From Stdlib Require Import Ascii String.
From S2P Require Import Prelude Task AddrSpace PageTable Path FileObject Vfs Process KernelEnv ProcTable Locks Abi Keys Sys SysProc SysMem SysExec SysDispatch Asm AsmRiscv KernelCore Idle Rv64 Layout.

Open Scope string_scope.
Open Scope list_scope.
Open Scope Z_scope.

Module UserInit.
Import Idle Vfs AsmRiscv Proc PTable Sys KernelCore Rv64.

(** ** The programs *)
(** Greeting; an event counter and an epoll set. *)
Definition init_events : list line :=
  [Label "whuse_user_init_start"; Label "whuse_user_init_entry"; ADDI sp sp (-384); LI a0 1; LA a1 "init_msg"; LSIZE a2 "init_msg_end" "init_msg";
   LI a7 64; ECALL;
   LI a0 0; LI a1 0; LI a7 19; ECALL;
   MV s1 a0; MV a0 s1; LA a1 "one64"; LI a2 8; LI a7 64; ECALL;
   LI a0 0; LI a7 20; ECALL;
   MV s2 a0; LI t0 1; SW t0 0 sp; SW 0 4 sp; MV t0 s1; SD t0 8 sp; MV a0 s2; LI a1 1; MV a2 s1; MV a3 sp; LI a7 21;
   ECALL;
   MV a0 s2; ADDI a1 sp 16; LI a2 1; LI a3 0; LI a4 0; LI a5 0; LI a7 22; ECALL;
   MV a0 s1; ADDI a1 sp 32; LI a2 8; LI a7 63; ECALL;
   LI a0 1; LA a1 "event_msg"; LSIZE a2 "event_msg_end" "event_msg"; LI a7 64; ECALL].
(** A pair of sockets. *)
Definition init_sockets : list line :=
  [LI a0 1; LI a1 1; LI a2 0; ADDI a3 sp 40; LI a7 199; ECALL;
   LW s3 40 sp; LW s4 44 sp; MV a0 s3; LA a1 "sock_payload"; LSIZE a2 "sock_payload_end" "sock_payload"; LI a3 0; LI a4 0;
   LI a5 0; LI a7 206; ECALL;
   MV a0 s4; ADDI a1 sp 48; LI a2 4; LI a3 0; LI a4 0; LI a5 0; LI a7 207; ECALL;
   LI a0 1; LA a1 "socket_msg"; LSIZE a2 "socket_msg_end" "socket_msg"; LI a7 64; ECALL].
(** Ids, and a signal to itself. *)
Definition init_signals : list line :=
  [LI a7 172; ECALL;
   MV s5 a0; LI a7 173; ECALL;
   LI a7 178; ECALL;
   MV a0 s5; LI a1 10; LI a7 129; ECALL;
   ADDI a0 sp 56; LI a1 8; LI a7 136; ECALL;
   ADDI a0 sp 56; ADDI a1 sp 64; LI a2 0; LI a3 8; LI a7 137; ECALL;
   LI a0 1; LA a1 "signal_msg"; LSIZE a2 "signal_msg_end" "signal_msg"; LI a7 64; ECALL].
(** A shared memory segment. *)
Definition init_shm : list line :=
  [LI a0 1; LI a1 4096; LI a2 0; LI a7 194; ECALL;
   MV s6 a0; MV a0 s6; LI a1 0; LI a2 0; LI a7 196; ECALL;
   MV s7 a0; MV a0 s6; LI a1 2; ADDI a2 sp 200; LI a7 195; ECALL;
   MV a0 s7; LI a7 197; ECALL;
   LI a0 1; LA a1 "shm_msg"; LSIZE a2 "shm_msg_end" "shm_msg"; LI a7 64; ECALL].
(** A thread, and the futex of its end. *)
Definition init_thread : list line :=
  [ADDI s8 sp 96; SW 0 0 s8; LI a0 0x310f00; LI a1 0; MV a2 s8; MV a3 s8; LI a4 0; LI a7 220; ECALL;
   BEQZ a0 "1";
   MV s9 a0; MV a0 s8; LI a1 0; MV a2 s9; LI a3 0; LI a4 0; LI a5 0; LI a7 98; ECALL;
   LW t0 0 s8; BNEZ t0 "3";
   LI a0 1; LA a1 "clone_msg"; LSIZE a2 "clone_msg_end" "clone_msg"; LI a7 64; ECALL;
   J "2";
   Label "1"; LI a0 0; LI a7 93; ECALL;
   Label "3"; LI a0 1; LA a1 "clone_fail_msg"; LSIZE a2 "clone_fail_msg_end" "clone_fail_msg"; LI a7 64; ECALL;
   LI a0 98; LI a7 94; ECALL].
(** Code that is jumped over. *)
Definition init_fork : list line :=
  [Label "2"; J "8";
   LI a0 1; LA a1 "fork_msg"; LSIZE a2 "fork_msg_end" "fork_msg"; LI a7 64; ECALL;
   LI a7 220; ECALL;
   BEQZ a0 "4";
   MV s0 a0; LI a7 124; ECALL;
   LI a0 (-1); ADDI a1 sp 0; LI a7 260; ECALL;
   LI a0 1; LA a1 "parent_msg"; LSIZE a2 "parent_msg_end" "parent_msg"; LI a7 64; ECALL].
(** The shell of the test suite, where there is one. *)
Definition init_exec : list line :=
  [Label "8"; LI a0 1; LA a1 "final_msg"; LSIZE a2 "final_msg_end" "final_msg"; LI a7 64; ECALL;
   LI a0 1; LA a1 "oscomp_launch_msg"; LSIZE a2 "oscomp_launch_msg_end" "oscomp_launch_msg"; LI a7 64; ECALL;
   LA t0 "oscomp_busybox"; SD t0 256 sp; LA t0 "oscomp_sh"; SD t0 264 sp; LA t0 "oscomp_dash_c"; SD t0 272 sp; LA t0 "oscomp_cmd";
   SD t0 280 sp; SD 0 288 sp; LA a0 "oscomp_busybox"; ADDI a1 sp 256; LI a2 0; LI a7 221; ECALL;
   LI t0 (-2); BNE a0 t0 "5";
   LI a0 1; LA a1 "oscomp_skip_msg"; LSIZE a2 "oscomp_skip_msg_end" "oscomp_skip_msg"; LI a7 64; ECALL;
   J "6";
   Label "5"; LI a0 1; LA a1 "oscomp_fail_msg"; LSIZE a2 "oscomp_fail_msg_end" "oscomp_fail_msg"; LI a7 64; ECALL;
   Label "6"; LI a0 0; LI a7 94; ECALL;
   Label "4"; LI a0 1; LA a1 "fork_child_msg"; LSIZE a2 "fork_child_msg_end" "fork_child_msg"; LI a7 64; ECALL;
   LI a0 42; LI a7 94; ECALL].
Definition init_data : list line :=
  [Label "init_msg"; Ascii ("user:init entered" +:+ line_feed);
   Label "init_msg_end"; Label "event_msg"; Ascii ("user:eventfd epoll ok" +:+ line_feed);
   Label "event_msg_end"; Label "socket_msg"; Ascii ("user:socketpair ok" +:+ line_feed);
   Label "socket_msg_end"; Label "signal_msg"; Ascii ("user:signal ok" +:+ line_feed);
   Label "signal_msg_end"; Label "shm_msg"; Ascii ("user:shm ok" +:+ line_feed);
   Label "shm_msg_end"; Label "clone_msg"; Ascii ("user:clone futex ok" +:+ line_feed);
   Label "clone_msg_end"; Label "clone_fail_msg"; Ascii ("user:clone futex failed" +:+ line_feed);
   Label "clone_fail_msg_end"; Label "fork_msg"; Ascii ("user:fork start" +:+ line_feed);
   Label "fork_msg_end"; Label "fork_child_msg"; Ascii ("user:fork child ok" +:+ line_feed);
   Label "fork_child_msg_end"; Label "parent_msg"; Ascii ("user:init wait complete" +:+ line_feed);
   Label "parent_msg_end"; Label "final_msg"; Ascii ("user:integration ok" +:+ line_feed);
   Label "final_msg_end"; Label "oscomp_launch_msg"; Ascii ("user:oscomp basic launch" +:+ line_feed);
   Label "oscomp_launch_msg_end"; Label "oscomp_skip_msg"; Ascii ("user:oscomp basic skipped (no /musl)" +:+ line_feed);
   Label "oscomp_skip_msg_end"; Label "oscomp_fail_msg"; Ascii ("user:oscomp basic launch failed" +:+ line_feed);
   Label "oscomp_fail_msg_end"; Label "oscomp_busybox"; Asciz "/musl/busybox";
   Label "oscomp_sh"; Asciz "sh";
   Label "oscomp_dash_c"; Asciz "-c";
   Label "oscomp_cmd"; Asciz "echo whuse-oscomp-shell-entered; cd /musl && ./busybox sh ./basic_testcode.sh";
   Label "one64"; Dword 1;
   Label "sock_payload"; Ascii "pong";
   Label "sock_payload_end"; Label "whuse_user_init_end"].
Definition child_lines : list line :=
  [Label "whuse_user_child_start"; Label "whuse_user_child_entry"; LI a0 1; LA a1 "child_msg"; LSIZE a2 "child_msg_end" "child_msg";
   LI a7 64; ECALL;
   LI a0 42; LI a7 94; ECALL;
   Label "child_msg"; Ascii ("user:child exec ok" +:+ line_feed);
   Label "child_msg_end"; Label "whuse_user_child_end"].
Definition init_lines : list line :=
  init_events ++ init_sockets ++ init_signals ++ init_shm ++ init_thread ++ init_fork ++ init_exec ++ init_data.

(** The two programs lie behind each other; each is entered at its first byte. *)
Definition init_bytes : list Z := Eval vm_compute in default [] (assemble init_lines).
Definition child_bytes : list Z := Eval vm_compute in default [] (assemble child_lines).
Lemma programs_assemble : assemble init_lines = Some init_bytes ∧ assemble child_lines = Some child_bytes.
Proof. split; vm_compute; reflexivity. Qed.
Definition kernel_text (start len : Z) : list Z := take (Z.to_nat len) (drop (Z.to_nat start) (init_bytes ++ child_bytes)).
Definition init_symbols : Layout.symbols := Layout.mkSymbols 0 0 (zlen init_bytes).
Definition child_symbols : Layout.symbols :=
  let start := zlen init_bytes in Layout.mkSymbols start start (start + zlen child_bytes).
Definition builtin_program (path : string) : option SysExec.BuiltinProgram :=
  match Layout.builtin_program kernel_text init_symbols child_symbols path with Some (Ok p) => Some p | _ => None end.

(** ** A machine without a disk *)
Section Run.
#[local] Existing Instance Obj.no_ext4.
(** 256 MiB, where the addresses of the kernel are physical. *)
Definition machine_memory : HalMemory := {|
  memory_regions := [mkRegion 0x80000000 0x10000000 true];
  phys_to_virt := fun p => p |}.
#[local] Existing Instance machine_memory.
(** The runs below use a bench that differs from a machine in one point: the
    heap refuses the half MiB of zeros that the boot maps as the stack (the code
    passes over that failure), and [bench_boot] maps the page at its end
    instead, which is all the programs touch. *)
Definition heap_room : Z → bool := fun n => n <? 0x10000.
Definition heap_next : kernel Empty_set → Z := fun _ => 0x90000000.
#[local] Hint Extern 0 (KernelEnv _ _ _) => exact (Kernel.kernel_env heap_room) : typeclass_instances.
Abbreviation machine := (core Empty_set).
(** The file system of a build that packs no further files, without a disk (the
    files of the test suites are laid out on a disk only). *)
Definition powered_on : kernel Empty_set :=
  cold (Kernel.mkEnv ∅ 1 ∅ (Layout.rv_boot_filesystem (fun _ => []) [] None Vfs.new).2) (mkShmState 1 ∅ ∅) (mkTimex 0 0 0 0 0 0 0 0).
Definition bench_boot (programs : string → option SysExec.BuiltinProgram) : outcome unit * kernel Empty_set :=
  (_ ← bootstrap heap_room false programs;
   SysMem.on_space (Mm.map_fixed_bytes heap_room (USER_STACK_TOP - 4096) [] 4096 3)) powered_on.
(** A round of the loop; no program runs for more than a hundred
    instructions between two calls. *)
Definition next_round (programs : string → option SysExec.BuiltinProgram) (c : machine) : machine :=
  (round heap_room false heap_next programs (run_slice 100) c).2.

(** What the last call was: the thread, the number, the result, and the text
    of a write. *)
Record call := mkCall { who : Z; number : Z; result : Z; text : string }.
Definition reg_of (f : TrapFrame) (r : Z) : Z := default 0 (regs f !! Z.to_nat r).
Definition string_of (bs : list Z) : string := string_of_list_ascii ((fun b => ascii_of_N (Z.to_N b)) <$> bs).
Definition last_call (c : machine) : option call :=
  let t := k_table (c_kernel c) in
  match current t with
  | Ok p =>
      let f := trap_frame p in
      let n := reg_of f a7 in
      let printed := if n =? 64 then space_read (address_space p) (reg_of f a1) (reg_of f a2) (env t) else Ok [] in
      Some (mkCall (tid p) n (Obj.as_isize (reg_of f a0)) (match printed with Ok bs => string_of bs | _ => "" end))
  | _ => None
  end.
(** [n] rounds, with the calls that were made. *)
Fixpoint rounds (n : nat) (programs : string → option SysExec.BuiltinProgram) (c : machine) : list (option call) * machine :=
  match n with
  | O => ([], c)
  | S n' =>
      let c1 := next_round programs c in
      let x := last_call c1 in
      let '(l, c2) := rounds n' programs c1 in (x :: l, c2)
  end.
Definition calls_of (l : list (option call)) : list (Z * Z * Z) :=
  omap (fun o => (fun x => (who x, number x, result x)) <$> o) l.
(** The lines a program prints all begin with "user:". *)
Definition printed (l : list (option call)) : list string :=
  omap (fun o => x ← o; if String.prefix "user:" (text x) then Some (text x) else None) l.
Definition started (programs : string → option SysExec.BuiltinProgram) : machine := mkCore (bench_boot programs).2 no_watch.
Definition after (n : nat) (programs : string → option SysExec.BuiltinProgram) : machine := (rounds n programs (started programs)).2.

(** Nothing happens any more, whatever time passes. *)
Definition halted (programs : string → option SysExec.BuiltinProgram) (c : machine) : Prop :=
  ∀ c', rtc (core_step heap_room false heap_next programs) c c' → same_state (c_kernel c) (c_kernel c').
Definition is_quiet (k : kernel Empty_set) : bool :=
  match Sched.current (k_sched k), Sched.ready (k_sched k) with None, [] => negb (has_non_init (k_table k)) | _, _ => false end.
Lemma is_quiet_ok k : is_quiet k = true → quiet k.
Proof.
  unfold is_quiet, quiet, Sched.ensure_current, Sched.schedule_next. destruct (Sched.current (k_sched k)) eqn:Hc; [done|].
  destruct (Sched.ready (k_sched k)) eqn:Hr; [|done]. intros Hn%negb_true_iff. split; [|exact Hn].
  destruct (k_sched k). simpl in *. by subst.
Qed.

(** What a run shows: the result of the boot, the calls and the messages of the
    first rounds, the processes after them, and whether the machine is quiet. *)
Record report := mkReport { r_boot : outcome unit; r_calls : list (Z * Z * Z); r_messages : list string;
  r_states : list (Z * ProcessState); r_quiet : bool }.
Definition report_of (n : nat) (programs : string → option SysExec.BuiltinProgram) : report :=
  let b := bench_boot programs in
  let '(l, c) := rounds n programs (mkCore b.2 no_watch) in
  mkReport b.1 (calls_of l) (printed l) ((fun p => (tid p, state p)) <$> procs (k_table (c_kernel c))) (is_quiet (c_kernel c)).
Lemma report_halts n programs : r_quiet (report_of n programs) = true → halted programs (after n programs).
Proof.
  unfold report_of, after, started. cbv zeta. destruct (rounds n programs (mkCore (bench_boot programs).2 no_watch)) as [l c]. cbn [r_quiet snd].
  intros Hq c'. apply quiet_stays. by apply is_quiet_ok.
Qed.

(** The messages of the source, with their line ends. *)
Definition said (l : list string) : list string := (fun s => s +:+ line_feed) <$> l.

(** Without a disk the boot ends in the first program, which tests
    the event counter, the epoll set and the sockets, and sends itself SIGUSR1
    to receive it with rt_sigtimedwait: the signal is not blocked and ends the
    program on the way back from kill.  No other process exists, so by
    [report_halts] the machine stands still from there on. *)
Lemma init_run : report_of 16 builtin_program = mkReport (Ok tt)
  [(1, 64, 18); (1, 19, 3); (1, 64, 8); (1, 20, 4); (1, 21, 0); (1, 22, 1); (1, 63, 8); (1, 64, 22); (1, 199, 0);
   (1, 206, 4); (1, 207, 4); (1, 64, 19); (1, 172, 1); (1, 173, 0); (1, 178, 1); (1, 129, 0)]
  (said ["user:init entered"; "user:eventfd epoll ok"; "user:socketpair ok"]) [(1, Exited)] true.
Proof. by vm_compute. Qed.

(** ** The other tests of the program *)
Definition only (ls : list line) (path : string) : option SysExec.BuiltinProgram :=
  if String.eqb path "/sbin/init" then SysExec.mkBuiltin 0 <$> assemble ls else None.

(** With the signal blocked the program would wait for ever: rt_sigpending
    tells of the signals that are not blocked, so the set it then waits for is
    empty. *)
Definition block_usr1 : list line := [ADDI sp sp (-16); LI t0 512; SD t0 0 sp; LI a0 0; MV a1 sp; LI a2 0; LI a3 8; LI a7 135; ECALL].
Definition signal_test := only (block_usr1 ++ ADDI sp sp (-384) :: init_signals ++ init_data).
Lemma signal_test_waits : report_of 7 signal_test = mkReport (Ok tt)
  [(1, 135, 0); (1, 172, 1); (1, 173, 0); (1, 178, 1); (1, 129, 0); (1, 136, 0); (1, 137, 2147479192)] [] [(1, Ready)] true.
Proof. by vm_compute. Qed.

(** The thread test passes the address of the child's id where the kernel of
    riscv64 expects the thread pointer: nothing is cleared and no futex woken
    when the thread ends, and the program waits for ever.  The id that shmat
    returned before is 0, which shmdt does not know. *)
Definition thread_test := only (ADDI sp sp (-384) :: init_shm ++ init_thread ++ init_fork ++ init_exec ++ init_data).
Lemma thread_test_waits : report_of 8 thread_test = mkReport (Ok tt)
  [(1, 194, 1); (1, 196, 0); (1, 195, 0); (1, 197, -22); (1, 64, 12); (1, 220, 2); (2, 93, 0); (1, 98, 2147479248)]
  (said ["user:shm ok"]) [(1, Ready); (2, Exited)] true.
Proof. by vm_compute. Qed.

(** A failed execve returns to its own call: without the shell the program
    asks for it for ever, from the second time on with the error as the
    path. *)
Lemma failed_execve_repeats : report_of 20 (only (ADDI sp sp (-384) :: init_exec ++ init_data)) = mkReport (Ok tt)
  ((1, 64, 20) :: (1, 64, 25) :: (1, 221, -2) :: replicate 17 (1, 221, -14))
  (said ["user:integration ok"; "user:oscomp basic launch"]) [(1, Ready)] false.
Proof. by vm_compute. Qed.

(** A program that sleeps for a second. *)
Definition sleeper := only
  [ADDI sp sp (-16); LI t0 1; SD t0 0 sp; SD 0 8 sp; MV a0 sp; LI a1 0; LI a7 101; ECALL; LI a0 0; LI a7 94; ECALL].
Definition asleep : machine := after 1 sleeper.
Definition sleep_facts (k : kernel Empty_set) : option (Z * option Z) * bool * bool :=
  ((fun p => (tid p, sleep_deadline_ns p)) <$> processes (k_table k) !! 1, is_quiet k, Sched.is_blocked (k_sched k) 1).
Lemma sleep_facts_inv k d : sleep_facts k = (Some (1, Some d), true, true) →
  ∃ p, processes (k_table k) !! 1 = Some p ∧ tid p = 1 ∧ sleep_deadline_ns p = Some d ∧ quiet k ∧ Sched.is_blocked (k_sched k) 1 = true.
Proof.
  unfold sleep_facts. intros [= Hp Hq Hb]. destruct (processes (k_table k) !! 1) as [p|]; [|done]. injection Hp as Ht Hd.
  exists p. split_and!; [done..|by apply is_quiet_ok|done].
Qed.
Lemma waits_for_ever_witness :
  (∀ c', rtc (core_step heap_room false heap_next sleeper) asleep c' → Sched.is_blocked (k_sched (c_kernel c')) 1 = true) ∧
  ∃ c', rtc (core_step heap_room false heap_next sleeper) asleep c' ∧ 1000000000 < k_nanos (c_kernel c').
Proof.
  assert (sleep_facts (c_kernel asleep) = (Some (1, Some 1000000000), true, true)) as Hf by (vm_compute; reflexivity).
  destruct (sleep_facts_inv _ _ Hf) as (p & Hp & Ht & Hd & Hq & Hb). rewrite <- Ht in Hb.
  destruct (waits_for_ever heap_room false heap_next sleeper asleep 1 p 1000000000 Hq Hp Hd eq_refl Hb) as [Hstay (c' & Hr & Hn & _)].
  rewrite Ht in Hstay. split; [intros c1 H1; exact (proj2 (Hstay c1 H1))|exists c'; exact (conj Hr Hn)].
Defined.
End Run.
End UserInit.
