(* ===== verification/Xtask.v ===== *)
(** * The image tool (tools/xtask)

    The part of the build tool that decides what the kernel boots from: it
    prepares the disk images of the test suites, writes the profile the kernel
    reads at boot, checks the images, and builds the command lines of the
    emulator, on the host or in a container.  The host (its files, its clock,
    [debugfs], [xz], [make]) is the class [Host]; a message for the terminal is
    not modelled, an error is [Err 1].  A text is the list of its characters as
    in [Layout]. *)

From Stdlib Require Import Ascii.
From S2P Require Import Prelude Path FileObject Vfs Layout.

Open Scope string_scope.
Open Scope list_scope.
Open Scope Z_scope.

Module Xtask.
Import Vfs Layout.

(** ** Text and paths *)
Fixpoint contains (text pat : list Z) : bool :=
  match strip pat text with
  | Some _ => true
  | None => match text with [] => false | _ :: text' => contains text' pat end
  end.
Definition says (text : list Z) (s : string) : bool := contains text (bytes_of s).
Definition line_contains_all (line : string) (tokens : list string) : bool := forallb (Path.contains_str line) tokens.

(** [String::from_utf8_lossy]: the characters of the bytes; the longest start of
    a character that does not go on as one is the replacement character. *)
Definition second_ok (a b : Z) : bool :=
  cont_byte b && negb ((a =? 0xe0) && (b <? 0xa0)) && negb ((a =? 0xed) && (0x9f <? b)) &&
  negb ((a =? 0xf0) && (b <? 0x90)) && negb ((a =? 0xf4) && (0x8f <? b)).
Fixpoint from_utf8_lossy (bytes : list Z) : list Z :=
  match bytes with
  | [] => []
  | a :: r1 =>
      if a <? 0x80 then a :: from_utf8_lossy r1
      else match r1 with
      | [] => [0xfffd]
      | b :: r2 =>
          if (0xc2 <=? a) && (a <=? 0xdf) && cont_byte b then (a - 0xc0) * 64 + (b - 0x80) :: from_utf8_lossy r2
          else if (0xe0 <=? a) && (a <=? 0xf4) && second_ok a b then
            match r2 with
            | [] => [0xfffd]
            | c :: r3 =>
                if negb (cont_byte c) then 0xfffd :: from_utf8_lossy r2
                else if a <=? 0xef then (a - 0xe0) * 4096 + (b - 0x80) * 64 + (c - 0x80) :: from_utf8_lossy r3
                else match r3 with
                | [] => [0xfffd]
                | d :: r4 =>
                    if cont_byte d then (a - 0xf0) * 262144 + (b - 0x80) * 4096 + (c - 0x80) * 64 + (d - 0x80) :: from_utf8_lossy r4
                    else 0xfffd :: from_utf8_lossy r3
                end
            end
          else 0xfffd :: from_utf8_lossy r1
      end
  end.

(** The first occurrence of a pattern: the text before it and behind it. *)
Fixpoint cut_at (s pat : string) : option (string * string) :=
  match Path.strip_prefix s pat with
  | Some rest => Some (EmptyString, rest)
  | None =>
      match s with
      | EmptyString => None
      | String c s' => '(a, b) ← cut_at s' pat; Some (String c a, b)
      end
  end.

Definition is_absolute (p : string) : bool := Path.starts_with p "/".
Definition join (p q : string) : string :=
  if is_absolute q then q else if Path.ends_with p "/" || String.eqb p "" then (p ++ q)%string else (p ++ "/" ++ q)%string.
(** [Path::components], the root directory as the component [/]. *)
Definition path_components (p : string) : list string :=
  (if is_absolute p then ["/"] else match Path.split p with "." :: _ => ["."] | _ => [] end) ++
  List.filter (fun c => negb (String.eqb c "") && negb (String.eqb c ".")) (Path.split p).
Definition path_render (cs : list string) : string :=
  match cs with
  | c :: rest => if String.eqb c "/" then ("/" ++ String.concat "/" rest)%string else String.concat "/" cs
  | [] => ""
  end.
Definition parent (p : string) : option string :=
  match path_components p with
  | [] => None
  | cs => if bool_decide (cs = ["/"]) then None else Some (path_render (removelast cs))
  end.
Fixpoint strip_components (root cs : list string) : option (list string) :=
  match root, cs with
  | [], _ => Some cs
  | r :: root', c :: cs' => if String.eqb r c then strip_components root' cs' else None
  | _, [] => None
  end.

(** ** Profiles *)
Definition OSCOMP_ALLOWED_PROFILES : list string :=
  ["full"; "basic"; "busybox"; "iozone"; "libctest"; "libc-bench"; "lmbench"; "lua"; "ltp"; "unixbench"; "netperf"; "iperf"; "cyclic"].
Definition validate_oscomp_profile_value (value : list Z) : outcome string :=
  match list_find (fun candidate => bytes_of candidate = trim value) OSCOMP_ALLOWED_PROFILES with
  | Some (_, profile) => Ok profile
  | None => Err 1
  end.

(** ** Command lines of the emulator *)
Inductive QemuMode := ModeHost | ModeContest.
#[global] Instance QemuMode_eq_dec : EqDecision QemuMode.
Proof. solve_decision. Defined.
Definition from_env (var : option string) (default_ : QemuMode) : QemuMode :=
  let v := default (match default_ with ModeHost => "host" | ModeContest => "contest" end) var in
  if String.eqb v "host" then ModeHost else if String.eqb v "contest" then ModeContest else default_.

Definition drive (disk id : string) : list string :=
  ["-drive"; ("file=" ++ disk ++ ",if=none,format=raw,id=" ++ id ++ ",file.locking=off")%string].
Definition opt {A} (o : option A) (f : A → list string) : list string := match o with Some a => f a | None => [] end.

Definition build_qemu_riscv_args (memory : option string) (kernel : string) (disk extra_disk : option string) : list string :=
  ["-machine"; "virt"; "-m"; default "1G" memory; "-smp"; "1"; "-nographic"; "-bios"; "default"; "-kernel"; kernel;
   "-no-reboot"; "-rtc"; "base=utc"] ++
  opt disk (fun d => drive d "x0" ++ ["-device"; "virtio-blk-device,drive=x0,bus=virtio-mmio-bus.0";
                                      "-device"; "virtio-net-device,netdev=net"; "-netdev"; "user,id=net"]) ++
  opt extra_disk (fun d => drive d "x1" ++ ["-device"; "virtio-blk-device,drive=x1,bus=virtio-mmio-bus.1"]).
Definition build_qemu_loongarch_host_args (memory : option string) (bootrom_bin kernel_bin : string) (disk extra_disk : option string)
  : list string :=
  ["-machine"; "virt"; "-cpu"; "la464"; "-m"; default "1G" memory; "-smp"; "1"; "-nographic"; "-serial"; "stdio"; "-monitor"; "none";
   "-bios"; bootrom_bin; "-device"; ("loader,file=" ++ kernel_bin ++ ",addr=0x90000000,force-raw=on")%string;
   "-no-reboot"; "-rtc"; "base=utc"] ++
  opt disk (fun d => drive d "x0" ++ ["-device"; "virtio-blk-pci,drive=x0"]) ++
  opt extra_disk (fun d => drive d "x1" ++ ["-device"; "virtio-blk-pci,drive=x1"]) ++
  ["-device"; "virtio-net-pci,netdev=net0"; "-netdev"; "user,id=net0"].
Definition build_qemu_loongarch_contest_args (memory : option string) (kernel : string) (disk extra_disk : option string) : list string :=
  ["-machine"; "virt"; "-kernel"; kernel; "-m"; default "1G" memory; "-nographic"; "-smp"; "1"; "-no-reboot"; "-rtc"; "base=utc"] ++
  opt disk (fun d => drive d "x0" ++ ["-device"; "virtio-blk-pci,drive=x0"]) ++
  ["-device"; "virtio-net-pci,netdev=net0"; "-netdev"; "user,id=net0"] ++
  opt extra_disk (fun d => drive d "x1" ++ ["-device"; "virtio-blk-pci,drive=x1"]).

(** What the self check looks for in them. *)
Definition riscv_args_expected (memory : option string) : bool :=
  line_contains_all (String.concat " " (build_qemu_riscv_args memory "kernel-rv" (Some "sdcard-rv.img") (Some "disk.img")))
    ["-machine virt"; "-kernel kernel-rv"; "-no-reboot"; "-rtc base=utc"; "virtio-blk-device,drive=x0,bus=virtio-mmio-bus.0";
     "virtio-net-device,netdev=net"; "user,id=net"; "virtio-blk-device,drive=x1,bus=virtio-mmio-bus.1"].
Definition loongarch_args_expected (memory : option string) : bool :=
  line_contains_all
    (String.concat " " (build_qemu_loongarch_contest_args memory "kernel-la" (Some "sdcard-la.img") (Some "disk-la.img")))
    ["-kernel kernel-la"; "-no-reboot"; "-rtc base=utc"; "virtio-blk-pci,drive=x0"; "virtio-net-pci,netdev=net0"; "user,id=net0";
     "virtio-blk-pci,drive=x1"].
Definition contest_qemu_version_supported (version : list Z) : bool := says version "9.2.1" || says version "10.0.2".
Definition contest_smoke_has_progress (text : list Z) : bool :=
  says text "whuse-oscomp-script-start" || says text "#### OS COMP TEST GROUP START" || says text "testcase ".
Definition is_elf_artifact (contents : option (list Z)) (expected_machine : Z) : bool :=
  match contents with
  | None => false
  | Some bytes =>
      if (zlen bytes <? 20) || negb (bool_decide (take 4 bytes = [127; 69; 76; 70])) then false
      else from_le_bytes (take 2 (drop 18 bytes)) =? expected_machine
  end.

(** ** The container *)
Section Container.
Context (canonicalize : string → option string) (repo_root : string).

Definition canonical_of (path : string) : string := default path (canonicalize path).
Definition under_root (path : string) : option (list string) := strip_components (path_components repo_root) (path_components path).
Definition remap_path_for_container (path : string) : string :=
  match under_root (canonical_of path) with
  | Some relative => join "/work" (String.concat "/" relative)
  | None => canonical_of path
  end.
Definition remap_qemu_arg_for_container (arg : string) : string :=
  match cut_at arg "file=" with
  | Some (before, rest) =>
      let '(original, tail) := match cut_at rest "," with
                               | Some (o, t) => (o, ("," ++ t)%string)
                               | None => (rest, EmptyString)
                               end in
      (before ++ "file=" ++ remap_path_for_container original ++ tail)%string
  | None => if Path.starts_with arg "/" then remap_path_for_container arg else arg
  end.

(** A [BTreeSet] of strings. *)
Fixpoint set_insert (s : string) (l : list string) : list string :=
  match l with
  | [] => [s]
  | x :: l' => match String.compare s x with Lt => s :: l | Eq => l | Gt => x :: set_insert s l' end
  end.
Definition mount_same (p : string) : string := (p ++ ":" ++ p)%string.
Definition extra_mount (mounts : list string) (path : string) : list string :=
  if String.eqb path "" then mounts
  else match under_root (canonical_of path) with
       | Some _ => mounts
       | None => match parent (canonical_of path) with Some p => set_insert (mount_same p) mounts | None => mounts end
       end.
Definition collect_extra_mounts (paths : list string) : list string := foldl extra_mount [] paths.
Definition collect_used_paths (paths : list (option string)) : list string := omap id paths.

Definition docker_args (image binary : string) (args used_paths : list string) : list string :=
  ["run"; "--rm"; "--privileged"; "--network"; "host"; "-v"; (repo_root ++ ":/work")%string; "-w"; "/work"] ++
  concat ((fun mount => ["-v"; mount]) <$> collect_extra_mounts used_paths) ++
  [image; binary] ++ (remap_qemu_arg_for_container <$> args).
End Container.

(** ** The host *)
Record output := mkOutput { out_success : bool; out_stdout : list Z; out_stderr : list Z }.
(** A program to start, with the directory it runs in and what is added to its
    environment; a result without a code is the end by a signal. *)
Record command := mkCommand {
  c_program : string; c_args : list string; c_dir : option string; c_env : list (string * string) }.
Definition program (name : string) (args : list string) : command := mkCommand name args None [].
Record result := mkResult { r_code : option Z; r_stdout : list Z; r_stderr : list Z }.
Definition succeeded (r : option result) : bool :=
  match r with Some r => bool_decide (r_code r = Some 0) | None => false end.
(** [ExitCode::from(status.code().unwrap_or(1) as u8)], or 1 where the program
    cannot be started. *)
Definition exit_code (r : option result) : Z := match r with Some r => default 1 (r_code r) mod 256 | None => 1 end.
(** What is found below a path: a file, a directory, whose entries can be read
    or not, or an entry whose type cannot be read. *)
Inductive tree := TFile | TDir (readable : bool) (below : entries) | TUnknown
with entries := no_entries | entry (name : string) (t : tree) (rest : entries).
Inductive stat_result := Meta (len : Z) (modified : option Z) | NotFound | StatError.

(** [debugfs] opens the image for reading only unless it gets [-w]; the result
    of a program that cannot be started is [None]. *)
Class Host (H : Type) := {
  h_exists : H → string → bool;
  h_env : H → string → option string;
  h_metadata : H → string → stat_result;
  h_read_to_string : H → string → option (list Z);
  h_debugfs : H → string → string → option output;
  h_temp_path : H → option string;
  h_write : string → list Z → H → bool * H;
  h_copy : string → string → H → bool * H;
  h_create_dir_all : string → H → bool * H;
  h_remove_file : string → H → H;
  h_debugfs_w : string → string → H → option bool * H;
  h_run : command → H → option result * H;
  h_canonicalize : H → string → option string;
  h_current_dir : H → option string;
  h_read : H → string → option (list Z);
  h_tree : H → string → tree;
  h_remove_dir_all : string → H → bool * H;
  h_temp_image : H → string → option string;
  h_proc : H → option (list (list Z * option (list Z)));
}.

Section Images.
Context {H : Type} `{!Host H} (repo_root : string).

(** A step of the host that fails or not. *)
Definition checked (f : H → bool * H) : stm H unit := fun h =>
  let '(ok, h') := f h in ((if ok then Ok tt else Err 1), h').

Definition oscomp_image_path (tag : string) : string :=
  join (join (join repo_root "target") "oscomp") ("sdcard-" ++ tag ++ ".img").
Definition extra_disk_path (default_name : string) (h : H) : option string :=
  match h_env h "WHUSE_EXTRA_DISK_IMAGE" with
  | Some value => Some (if is_absolute value then value else join repo_root value)
  | None => let default_ := join repo_root default_name in if h_exists h default_ then Some default_ else None
  end.
(** The first of the disk of the environment, the image of the test suites and
    the root file system that is there. *)
Definition rootfs_image_path (arch : string) : string :=
  join (join (join repo_root "target") "rootfs") (arch ++ ".ext4").
Definition default_disk (tag arch : string) (h : H) : option string :=
  match h_env h "WHUSE_DISK_IMAGE" with
  | Some disk => Some disk
  | None =>
      if h_exists h (oscomp_image_path tag) then Some (oscomp_image_path tag)
      else if h_exists h (rootfs_image_path arch) then Some (rootfs_image_path arch) else None
  end.

Definition debugfs_list (h : H) (image path : string) : outcome (list Z) :=
  match h_debugfs h ("ls -l " ++ path) image with
  | Some o => if out_success o then Ok (from_utf8_lossy (out_stdout o)) else Err 1
  | None => Err 1
  end.
Definition debugfs_read_to_string (h : H) (image path : string) : outcome (list Z) :=
  match h_debugfs h ("cat " ++ path) image with
  | Some o => if out_success o then Ok (from_utf8_lossy (out_stdout o)) else Err 1
  | None => Err 1
  end.
Definition debugfs_exists (h : H) (image path : string) : bool :=
  match h_debugfs h ("stat " ++ path) image with
  | Some o =>
      let text := from_utf8_lossy (out_stdout o) ++ from_utf8_lossy (out_stderr o) in
      out_success o && negb (says text "File not found") && negb (says text "not found by ext2_lookup")
  | None => false
  end.
(** A removal that [debugfs] refuses is no error. *)
Definition debugfs_remove (image path : string) : stm H unit := fun h =>
  let '(r, h') := h_debugfs_w ("rm " ++ path) image h in ((match r with Some _ => Ok tt | None => Err 1 end), h').
Definition debugfs_write_file (temp_path image path : string) : stm H unit := fun h =>
  let '(r, h') := h_debugfs_w ("write " ++ temp_path ++ " " ++ path) image h in
  match r with
  | None => (Err 1, h')
  | Some status => ((if status then Ok tt else Err 1), h_remove_file temp_path h')
  end.
Definition debugfs_write_text (image path : string) (value : list Z) : stm H unit :=
  temp_path ← reads (fun h => match h_temp_path h with Some t => Ok t | None => Err 1 end);
  _ ← checked (h_write temp_path (value ++ [10]));
  _ ← debugfs_remove image path;
  debugfs_write_file temp_path image path.

Definition purged_overrides : list string :=
  ["/musl/.whuse_oscomp_only_step"; "/musl/.whuse_ltp_profile"; "/musl/.whuse_ltp_whitelist"; "/musl/.whuse_ltp_blacklist";
   "/musl/.whuse_ltp_step_timeout"; "/musl/.whuse_ltp_case_timeout"; "/musl/ltp_score_whitelist.host.txt";
   "/musl/ltp_score_blacklist.host.txt"].
Fixpoint remove_each (image : string) (paths : list string) : stm H unit :=
  match paths with [] => mret tt | p :: ps => _ ← debugfs_remove image p; remove_each image ps end.
Definition purge_runtime_oscomp_overrides (image : string) : stm H unit := remove_each image purged_overrides.

Definition same_file_metadata (src dst : string) (h : H) : outcome bool :=
  if String.eqb src dst then Ok true
  else match h_metadata h src with
       | Meta len_src src_modified =>
           match h_metadata h dst with
           | NotFound => Ok false
           | StatError => Err 1
           | Meta len_dst dst_modified =>
               if negb (len_src =? len_dst) then Ok false
               else match src_modified, dst_modified with
                    | Some s, Some d => Ok (s <=? d)
                    | _, _ => Err 1
                    end
           end
       | _ => Err 1
       end.
Definition refresh_oscomp_image (src dst : string) : stm H unit :=
  same ← reads (same_file_metadata src dst);
  if (same : bool) then mret tt else checked (h_copy src dst).

Definition testsuits_root (h : H) : outcome string :=
  match h_env h "WHUSE_OSCOMP_TESTSUITS_DIR" with
  | Some dir => Ok dir
  | None => match parent repo_root with Some p => Ok (join p "testsuits-for-oskernel") | None => Panic end
  end.
Definition ensure_oscomp_source_image (testsuits tag : string) : stm H string := fun h =>
  let raw := join testsuits ("sdcard-" ++ tag ++ ".img") in
  let compressed := join testsuits ("sdcard-" ++ tag ++ ".img.xz") in
  if h_exists h raw then (Ok raw, h)
  else if negb (h_exists h compressed) then (Err 1, h)
  else
    let '(r, h') := h_run (program "xz" ["-dk"; compressed]) h in
    ((if succeeded r && h_exists h' raw then Ok raw else Err 1), h').
Definition load_repo_oscomp_profile (h : H) : outcome string :=
  match h_read_to_string h (join repo_root "tools/oscomp/profile/default.txt") with
  | Some contents => validate_oscomp_profile_value contents
  | None => Err 1
  end.

(** ** The check of an image *)
Definition leaked_runtime_configs : list string :=
  [".whuse_oscomp_only_step"; ".whuse_ltp_profile"; ".whuse_ltp_whitelist"; ".whuse_ltp_blacklist"; ".whuse_ltp_step_timeout";
   ".whuse_ltp_case_timeout"; "ltp_score_whitelist.host.txt"; "ltp_score_blacklist.host.txt"].
Definition required_musl : list string :=
  ["busybox"; "basic_testcode.sh"; "busybox_testcode.sh"; "libcbench_testcode.sh"; "libc-bench"; "iozone_testcode.sh"; "iozone";
   "lua_testcode.sh"; "lua"; "lmbench_testcode.sh"; "libctest_testcode.sh"; "runtest.exe"; "entry-static.exe"; "entry-dynamic.exe";
   "ltp_testcode.sh"].
Definition required_glibc : list string :=
  ["busybox"; "basic_testcode.sh"; "busybox_testcode.sh"; "libcbench_testcode.sh"; "libc-bench"; "iozone_testcode.sh"; "iozone";
   "lua_testcode.sh"; "lua"; "lmbench_testcode.sh"; "libctest_testcode.sh"; "ltp_testcode.sh"].
Definition OSCOMP_PROFILE_IMAGE_PATH : string := "/whuse-oscomp-profile".

Definition missing_entries (musl basic glibc glibc_basic : list Z) : list string :=
  (omap (fun e => if says musl e then None else Some ("/musl/" ++ e)%string) required_musl) ++
  (omap (fun e => if says glibc e then None else Some ("/glibc/" ++ e)%string) required_glibc) ++
  (if negb (says musl "test_all.sh") && negb (says basic "run-all.sh") then ["/musl/test_all.sh(or /musl/basic/run-all.sh)"] else []) ++
  (if negb (says glibc "test_all.sh") && negb (says glibc_basic "run-all.sh") then ["/glibc/test_all.sh(or /glibc/basic/run-all.sh)"]
   else []).
Definition validate_oscomp_full_image (h : H) (image : string) : bool :=
  match debugfs_list h image "/musl", debugfs_list h image "/musl/basic", debugfs_list h image "/glibc", debugfs_list h image "/glibc/basic" with
  | Ok musl_listing, Ok basic_listing, Ok glibc_listing, Ok glibc_basic_listing =>
      match List.filter (fun entry => debugfs_exists h image ("/musl/" ++ entry)) leaked_runtime_configs with
      | _ :: _ => false
      | [] =>
          match debugfs_read_to_string h image OSCOMP_PROFILE_IMAGE_PATH with
          | Ok profile =>
              match validate_oscomp_profile_value profile with
              | Ok _ => match missing_entries musl_listing basic_listing glibc_listing glibc_basic_listing with [] => true | _ => false end
              | _ => false
              end
          | _ => false
          end
      end
  | _, _, _, _ => false
  end.

(** ** The images *)
Definition run (c : command) : stm H (option result) := fun h => let '(r, h') := h_run c h in (Ok r, h').
Definition canonical (path : string) (h : H) : string := default path (h_canonicalize h path).
Definition docker_image (h : H) : string := default "docker.educg.net/cg/os-contest:20260104" (h_env h "WHUSE_OSCOMP_DOCKER_IMAGE").
Definition run_make_sdcard_host (testsuits : string) : stm H bool :=
  r ← run (mkCommand "make" ["sdcard"] (Some testsuits) []); mret (succeeded r).
Definition run_make_sdcard_docker (testsuits image : string) : stm H bool :=
  mount_root ← reads (fun h => Ok (canonical testsuits h));
  r ← run (program "docker" ["run"; "--rm"; "-v"; (mount_root ++ ":/code")%string; "--entrypoint"; "bash"; "-w"; "/code"; "--privileged";
                             image; "-lc"; "make sdcard"]);
  mret (succeeded r).
(** The container first and then the host, or the other way round. *)
Definition build_oscomp_sdcard (testsuits : string) : stm H bool :=
  image ← reads (fun h => Ok (docker_image h));
  host_first ← reads (fun h => Ok (bool_decide (h_env h "WHUSE_OSCOMP_HOST_FIRST" = Some "1")));
  built ← (if (host_first : bool) then mret false else run_make_sdcard_docker testsuits image);
  if (built : bool) then mret true
  else
    built ← run_make_sdcard_host testsuits;
    if (built : bool) then mret true
    else if (host_first : bool) then run_make_sdcard_docker testsuits image else mret false.
(** A build that fails leaves the images that are there. *)
Definition prepare_images_body : stm H bool :=
  testsuits ← reads testsuits_root;
  there ← reads (fun h => Ok (h_exists h testsuits));
  if negb (there : bool) then fail 1
  else
    skip ← reads (fun h => Ok (bool_decide (is_Some (h_env h "WHUSE_OSCOMP_SKIP_BUILD"))));
    _ ← (if (skip : bool) then mret false else build_oscomp_sdcard testsuits);
    src_rv ← ensure_oscomp_source_image testsuits "rv";
    src_la ← ensure_oscomp_source_image testsuits "la";
    _ ← checked (h_create_dir_all (join (join repo_root "target") "oscomp"));
    let dst_rv := oscomp_image_path "rv" in
    let dst_la := oscomp_image_path "la" in
    _ ← refresh_oscomp_image src_rv dst_rv;
    _ ← refresh_oscomp_image src_la dst_la;
    _ ← purge_runtime_oscomp_overrides dst_rv;
    _ ← purge_runtime_oscomp_overrides dst_la;
    repo_profile ← reads load_repo_oscomp_profile;
    _ ← debugfs_write_text dst_rv OSCOMP_PROFILE_IMAGE_PATH (bytes_of repo_profile);
    _ ← debugfs_write_text dst_la OSCOMP_PROFILE_IMAGE_PATH (bytes_of repo_profile);
    reads (fun h => Ok (validate_oscomp_full_image h dst_rv && validate_oscomp_full_image h dst_la)).
Definition prepare_oscomp_images (h : H) : Z * H :=
  match prepare_images_body h with
  | (Ok true, h') => (0, h')
  | (Panic, h') => (101, h')
  | (_, h') => (1, h')
  end.

(** A running emulator that holds the disk: the entries of [/proc] with the
    command line of each. *)
Definition is_digit (c : Z) : bool := (48 <=? c) && (c <=? 57).
Definition u32_of (s : list Z) : option Z :=
  match s with
  | [] => None
  | _ =>
      let n := foldl (fun n c => 10 * n + (c - 48)) 0 s in
      if n <? 2 ^ 32 then Some n else None
  end.
Definition split_args (raw : list Z) : list (list Z) :=
  List.filter (fun a => negb (bool_decide (a = [])))
    (foldr (fun c acc => if c =? 0 then [] :: acc else match acc with a :: rest => (c :: a) :: rest | [] => [[c]] end) [[]] raw).
Fixpoint join_args (args : list (list Z)) : list Z :=
  match args with [] => [] | [a] => a | a :: rest => a ++ [32] ++ join_args rest end.
Definition holder_of (canonical_disk disk : list Z) (entry : list Z * option (list Z)) : option (Z * list Z) :=
  let '(name, cmdline) := entry in
  if negb (forallb is_digit name) then None
  else
    pid ← u32_of name;
    raw ← cmdline;
    if bool_decide (raw = []) then None
    else
      let args := split_args raw in
      if bool_decide (args = []) then None
      else
        let joined := join_args args in
        if says joined "qemu-system-" && (contains joined canonical_disk || contains joined disk) then Some (pid, joined) else None.
Definition detect_qemu_disk_holder (canonical_disk disk : list Z) (proc : option (list (list Z * option (list Z)))) : option (Z * list Z) :=
  entries ← proc; head (omap (holder_of canonical_disk disk) entries).
End Images.

(** ** Proofs *)
(** The self check finds the arguments it expects, for every size of the memory. *)
Lemma starts_with_app s t p : Path.starts_with s p = true → Path.starts_with (s ++ t)%string p = true.
Proof.
  revert s. induction p as [|a p IH]; intros [|b s]; simpl; try done; [by destruct t|].
  destruct (Ascii.ascii_dec a b); [apply IH | done].
Qed.
Lemma contains_str_app_l s t p : Path.contains_str s p = true → Path.contains_str (s ++ t)%string p = true.
Proof.
  induction s as [|a s IH]; intros Hc.
  - assert (p = "") as -> by (by destruct p). by destruct t.
  - change ((String a s ++ t)%string) with (String a (s ++ t)%string) in *. simpl in Hc |- *.
    apply orb_true_iff in Hc as [Hc|Hc]; apply orb_true_iff; [left | right; by apply IH].
    by apply (starts_with_app (String a s) t).
Qed.
Lemma contains_str_app_r s t p : Path.contains_str t p = true → Path.contains_str (s ++ t)%string p = true.
Proof. intros Hc. induction s as [|a s IH]; simpl; [done|]. apply orb_true_iff. by right. Qed.
Lemma line_around pre m post tokens : forallb (fun t => Path.contains_str pre t || Path.contains_str post t) tokens = true →
  line_contains_all (pre ++ m ++ post)%string tokens = true.
Proof.
  unfold line_contains_all. rewrite !forallb_forall. intros Ht t Hin. apply Ht, orb_true_iff in Hin as [Hc|Hc].
  - by apply contains_str_app_l.
  - by do 2 apply contains_str_app_r.
Qed.
Lemma args_expected memory : riscv_args_expected memory = true ∧ loongarch_args_expected memory = true.
Proof.
  split.
  - by apply (line_around "-machine virt -m " (default "1G" memory)
      (" " ++ String.concat " " (drop 4 (build_qemu_riscv_args None "kernel-rv" (Some "sdcard-rv.img") (Some "disk.img"))))%string).
  - by apply (line_around "-machine virt -kernel kernel-la -m " (default "1G" memory)
      (" " ++ String.concat " " (drop 6 (build_qemu_loongarch_contest_args None "kernel-la" (Some "sdcard-la.img")
                                          (Some "disk-la.img"))))%string).
Qed.

(** The tool and the kernel agree on the profiles. *)
Lemma validated_is_normalized text profile : validate_oscomp_profile_value text = Ok profile →
  profile ∈ OSCOMP_ALLOWED_PROFILES ∧ normalize_oscomp_profile_value text = profile.
Proof.
  unfold validate_oscomp_profile_value, normalize_oscomp_profile_value, normalize_value, oscomp_profiles.
  unfold OSCOMP_ALLOWED_PROFILES. destruct (list_find _ _) as [[i p]|] eqn:E; [|done]. intros [= ->].
  split; [|done]. apply list_find_Some in E as [E _]. by eapply list_elem_of_lookup_2.
Qed.
Lemma leaked_paths : (fun e => ("/musl/" ++ e)%string) <$> leaked_runtime_configs = rv_overrides.
Proof. done. Qed.

Section Facts.
Context {H : Type} `{!Host H} (repo_root : string).

Definition prepared (h : H) (image : string) : Prop :=
  (∃ text profile, debugfs_read_to_string h image "/whuse-oscomp-profile" = Ok text ∧
    profile ∈ OSCOMP_ALLOWED_PROFILES ∧ normalize_oscomp_profile_value text = profile ∧ trim text = bytes_of profile) ∧
  (∀ path, path ∈ rv_overrides → debugfs_exists h image path = false).

Lemma validated_prepared h image : validate_oscomp_full_image h image = true → prepared h image.
Proof.
  unfold validate_oscomp_full_image. destruct (debugfs_list h image "/musl"); try done.
  destruct (debugfs_list h image "/musl/basic"); try done. destruct (debugfs_list h image "/glibc"); try done.
  destruct (debugfs_list h image "/glibc/basic"); try done.
  destruct (List.filter _ _) as [|] eqn:Hf; [|done].
  unfold OSCOMP_PROFILE_IMAGE_PATH, prepared. destruct (debugfs_read_to_string h image _) as [text| | |] eqn:Ht; try done.
  destruct (validate_oscomp_profile_value text) as [profile| | |] eqn:Hv; try done. intros _. split.
  - exists text, profile. destruct (validated_is_normalized text profile Hv). split_and!; try done.
    unfold validate_oscomp_profile_value in Hv. destruct (list_find _ _) as [[i p]|] eqn:E; [|done]. injection Hv as ->.
    by apply list_find_Some in E as (_ & <- & _).
  - intros path Hp. rewrite <- leaked_paths in Hp. apply list_elem_of_fmap in Hp as (e & -> & He).
    destruct (debugfs_exists h image _) eqn:Hx; [|done]. exfalso.
    assert (In e []) as []. rewrite <- Hf. apply filter_In. split; [by apply list_elem_of_In|done].
Qed.

(** What holds of the result and the state when code succeeds. *)
Definition post {A} (m : stm H A) (P : A → H → Prop) : Prop := ∀ h a h', m h = (Ok a, h') → P a h'.
Lemma post_bind {A B} (m : stm H A) (f : A → stm H B) P : (∀ a, post (f a) P) → post (m ≫= f) P.
Proof. intros Hf h b h'. rewrite stm_bind_eq. destruct (m h) as [[a| | |] h1]; try done. apply Hf. Qed.
Lemma post_reads {A} (f : H → outcome A) P : (∀ h a, f h = Ok a → P a h) → post (reads f) P.
Proof. intros Hf h a h'. unfold reads. intros [= Ha <-]. by apply Hf. Qed.

Lemma prepare_body_post : post (prepare_images_body repo_root) (fun ok h => ok = true →
  prepared h (oscomp_image_path repo_root "rv") ∧ prepared h (oscomp_image_path repo_root "la")).
Proof.
  unfold prepare_images_body. do 2 (apply post_bind; intros ?).
  case_match; [by intros ???|]. cbv zeta. repeat (apply post_bind; intros ?).
  apply post_reads. intros h ok [= <-] [Hrv Hla]%andb_true_iff. split; by apply validated_prepared.
Qed.

(** When the preparation of the images succeeds, both images hold the profile
    the kernel takes at boot, one of the known ones, and none of the runtime
    settings that the kernel would remove. *)
Theorem prepared_images h h' : prepare_oscomp_images repo_root h = (0, h') →
  prepared h' (oscomp_image_path repo_root "rv") ∧ prepared h' (oscomp_image_path repo_root "la").
Proof.
  unfold prepare_oscomp_images. destruct (prepare_images_body repo_root h) as [[[]| | |] h1] eqn:E; try done. intros [= ->].
  exact (prepare_body_post h true h' E eq_refl).
Qed.
End Facts.

(** ** Paths in the container *)
Section Mounts.
Context (canonicalize : string → option string) (repo_root : string).
Abbreviation remap := (remap_path_for_container canonicalize repo_root).
Abbreviation mounts := (collect_extra_mounts canonicalize repo_root).

Lemma set_insert_spec s l x : x ∈ set_insert s l ↔ x = s ∨ x ∈ l.
Proof.
  induction l as [|y l IH]; cbn [set_insert]; [set_solver|].
  destruct (String.compare s y) eqn:E; [apply String.compare_eq_iff in E as ->; rewrite elem_of_cons; tauto|rewrite !elem_of_cons; tauto|].
  clear -IH. rewrite !elem_of_cons, IH. tauto.
Qed.
Lemma extra_mount_keeps l p x : x ∈ l → x ∈ extra_mount canonicalize repo_root l p.
Proof.
  intros Hx. unfold extra_mount. repeat case_match; try done. apply set_insert_spec. by right.
Qed.
Lemma extra_mounts_keep paths l x : x ∈ l → x ∈ foldl (extra_mount canonicalize repo_root) l paths.
Proof. revert l. induction paths as [|p paths IH]; intros l Hx; [done|]. cbn [foldl]. by apply IH, extra_mount_keeps. Qed.
Lemma mount_of_path paths l p dir : p ∈ paths → p ≠ "" → under_root repo_root (canonical_of canonicalize p) = None →
  parent (canonical_of canonicalize p) = Some dir → mount_same dir ∈ foldl (extra_mount canonicalize repo_root) l paths.
Proof.
  intros Hp Hne Hroot Hdir. revert l. induction Hp as [p paths|p q paths Hp IH]; intros l; cbn [foldl]; [|by apply IH].
  apply extra_mounts_keep. unfold extra_mount. rewrite (proj2 (String.eqb_neq p "") Hne), Hroot, Hdir. apply set_insert_spec. by left.
Qed.

(** A path of the emulator is visible in the container: it is under the
    repository, which is mounted at [/work], or it keeps its name and its
    directory is mounted under the same name. *)
Theorem container_sees_paths paths p : p ∈ paths → p ≠ "" →
  (∃ relative, path_components (canonical_of canonicalize p) = path_components repo_root ++ relative ∧
     remap p = join "/work" (String.concat "/" relative)) ∨
  (remap p = canonical_of canonicalize p ∧ ∀ dir, parent (remap p) = Some dir → mount_same dir ∈ mounts paths).
Proof.
  intros Hp Hne. unfold remap_path_for_container. destruct (under_root _ _) as [relative|] eqn:Hr.
  - left. exists relative. split; [|done]. revert Hr. unfold under_root.
    generalize (path_components (canonical_of canonicalize p)) as cs. induction (path_components repo_root) as [|r root IH]; intros cs; [by intros [= <-]|].
    destruct cs as [|c cs]; [done|]. cbn [strip_components]. destruct (String.eqb_spec r c) as [->|]; [|done]. intros Hr. cbn [app]. f_equal. by apply IH.
  - right. split; [done|]. intros dir Hdir. by eapply mount_of_path.
Qed.

(** An argument that names no file. *)
Definition plain (arg : string) : Prop := cut_at arg "file=" = None ∧ Path.starts_with arg "/" = false.
Lemma remap_plain arg : plain arg → remap_qemu_arg_for_container canonicalize repo_root arg = arg.
Proof. intros [H1 H2]. unfold remap_qemu_arg_for_container. by rewrite H1, H2. Qed.
Lemma remap_file arg : cut_at arg "file=" = None → Path.starts_with arg "/" = true →
  remap_qemu_arg_for_container canonicalize repo_root arg = remap arg.
Proof. intros H1 H2. unfold remap_qemu_arg_for_container. by rewrite H1, H2. Qed.

Definition comma : ascii := ","%char.
Fixpoint no_comma (s : string) : bool :=
  match s with EmptyString => true | String c s' => negb (Ascii.eqb comma c) && no_comma s' end.
Lemma cut_at_comma s rest : no_comma s = true → cut_at (s ++ "," ++ rest)%string "," = Some (s, rest).
Proof.
  induction s as [|c s IH]; [by destruct rest|]. cbn [no_comma]. intros [Hc%negb_true_iff Hs]%andb_true_iff.
  change (cut_at (String c (s ++ "," ++ rest)) "," = Some (String c s, rest)).
  unfold comma in Hc. cbn [cut_at Path.strip_prefix]. rewrite Hc. by rewrite (IH Hs).
Qed.
Lemma cut_at_file rest : cut_at ("file=" ++ rest)%string "file=" = Some ("", rest).
Proof. by destruct rest. Qed.
Lemma remap_drive disk id : no_comma disk = true →
  remap_qemu_arg_for_container canonicalize repo_root <$> drive disk id = drive (remap disk) id.
Proof.
  intros Hd. unfold drive. cbn [fmap list_fmap]. f_equal. f_equal. unfold remap_qemu_arg_for_container.
  rewrite cut_at_file.
  change (",if=none,format=raw,id=" ++ id ++ ",file.locking=off")%string
    with ("," ++ ("if=none,format=raw,id=" ++ id ++ ",file.locking=off"))%string.
  rewrite (cut_at_comma disk _ Hd). done.
Qed.
Lemma remap_opt_drive disk id rest : (∀ d, disk = Some d → no_comma d = true) → Forall plain rest →
  remap_qemu_arg_for_container canonicalize repo_root <$> opt disk (fun d => drive d id ++ rest) =
  opt (remap <$> disk) (fun d => drive d id ++ rest).
Proof.
  intros Hd Hrest. destruct disk as [d|]; [|done]. cbn [opt fmap option_fmap option_map]. rewrite fmap_app, remap_drive by auto. f_equal.
  induction Hrest as [|a l Ha _ IH]; [done|]. cbn [fmap list_fmap]. rewrite remap_plain by done. f_equal. exact IH.
Qed.
(** The emulator in the container gets the same command line, its paths
    renamed. *)
Theorem container_command memory kernel disk extra_disk :
  (∀ m, memory = Some m → plain m) → cut_at kernel "file=" = None → Path.starts_with kernel "/" = true →
  (∀ d, disk = Some d → no_comma d = true) → (∀ d, extra_disk = Some d → no_comma d = true) →
  remap_qemu_arg_for_container canonicalize repo_root <$> build_qemu_riscv_args memory kernel disk extra_disk =
  build_qemu_riscv_args memory (remap kernel) (remap <$> disk) (remap <$> extra_disk).
Proof.
  intros Hm Hk1 Hk2 Hd Hx. unfold build_qemu_riscv_args. rewrite !fmap_app. f_equal; [|f_equal].
  - cbn [fmap list_fmap]. rewrite (remap_file kernel) by done.
    assert (plain (default "1G" memory)) as Hmem by (destruct memory; [by apply Hm|done]).
    rewrite (remap_plain _ Hmem). reflexivity.
  - apply remap_opt_drive; [done|]. repeat constructor.
  - apply remap_opt_drive; [done|]. repeat constructor.
Qed.
End Mounts.

(** ** A host with two kinds of images *)
(** In the second kind the programs are missing and only the scripts that run
    them are there. *)
Definition sample_scripts : list string :=
  ["basic_testcode.sh"; "busybox_testcode.sh"; "libcbench_testcode.sh"; "iozone_testcode.sh"; "lua_testcode.sh"; "lmbench_testcode.sh";
   "libctest_testcode.sh"; "runtest.exe"; "entry-static.exe"; "entry-dynamic.exe"; "ltp_testcode.sh"; "test_all.sh"; "libc-bench"].
Definition sample_programs : list string := ["busybox"; "iozone"; "lua"].
Definition sample_names (complete : bool) : list string := (if complete then sample_programs else []) ++ sample_scripts.
Definition sample_answer (complete : bool) (command : string) : output :=
  if Path.starts_with command "ls -l " then mkOutput true (bytes_of (String.concat " " (sample_names complete))) []
  else if Path.starts_with command "cat " then mkOutput true (line " basic") []
  else mkOutput true [] (bytes_of "stat: File not found by ext2_lookup").
#[local] Instance sample_host : Host bool := {|
  h_exists _ _ := true; h_env _ _ := None; h_metadata _ _ := Meta 1 (Some 1);
  h_read_to_string _ _ := Some (line "basic"); h_debugfs h command _ := Some (sample_answer h command);
  h_temp_path _ := Some "/tmp/profile.tmp";
  h_write _ _ h := (true, h); h_copy _ _ h := (true, h); h_create_dir_all _ h := (true, h); h_remove_file _ h := h;
  h_debugfs_w _ _ h := (Some true, h); 
  h_run _ h := (Some (mkResult (Some 0) [] []), h); h_canonicalize _ _ := None; h_current_dir _ := Some "/repo"; h_read _ _ := None;
  h_tree _ _ := TFile; h_remove_dir_all _ h := (true, h); h_temp_image _ _ := None; h_proc _ := None |}.

Lemma prepared_images_witness : prepared (H := bool) true "/repo/target/oscomp/sdcard-rv.img" ∧
  prepared (H := bool) true "/repo/target/oscomp/sdcard-la.img".
Proof. apply (prepared_images "/repo" true true). by vm_compute. Defined.

(** The check looks for the names as parts of the listing, so the name of a
    script stands for the program it runs: an image without [busybox] is
    complete to the check, and the kernel then refuses to start the suite. *)
Lemma image_check_by_substring :
  validate_oscomp_full_image (H := bool) false "/repo/target/oscomp/sdcard-rv.img" = true ∧
  ("busybox" ∉ sample_names false) ∧ ("iozone" ∉ sample_names false) ∧ ("lua" ∉ sample_names false).
Proof. split; [by vm_compute|]. split_and!; apply (bool_decide_unpack _); by vm_compute. Qed.

Lemma container_sees_paths_witness : mount_same "/data" ∈ collect_extra_mounts (fun _ => None) "/repo" ["/repo/kernel-rv"; "/data/sdcard-rv.img"].
Proof.
  destruct (container_sees_paths (fun _ => None) "/repo" ["/repo/kernel-rv"; "/data/sdcard-rv.img"] "/data/sdcard-rv.img")
    as [(relative & Hr & _)|[_ Hm]]; [by right; left|done|exfalso; by vm_compute in Hr|].
  apply Hm. by vm_compute.
Defined.
Lemma container_command_witness :
  (remap_qemu_arg_for_container (fun _ => None) "/repo" <$> build_qemu_riscv_args None "/repo/kernel-rv" (Some "/data/a.img") None) =
  build_qemu_riscv_args None "/work/kernel-rv" (Some "/data/a.img") None.
Proof.
  apply (container_command (fun _ => None) "/repo" None "/repo/kernel-rv" (Some "/data/a.img") None); [done|done|done| |done].
  by intros d [= <-].
Defined.
End Xtask.
