(* ===== verification/XtaskRun.v ===== *)
(** * Commands of the image tool (tools/xtask)

    What the tool runs: the compiler, the conversion of kernels, the file
    system image, the emulator on the host or in a container, and the check of
    a release with its boot test.  Every program the tool starts is the
    operation [h_run] of the class [Host]; messages are not modelled.  An exit
    code is a number of one byte. *)

From S2P Require Import Prelude Path FileObject Vfs Layout Abi Xtask.

Open Scope string_scope.
Open Scope list_scope.
Open Scope Z_scope.

Module XtaskRun.
Import Vfs Layout Xtask.

Definition RISCV_TARGET : string := "riscv64gc-unknown-none-elf".
Definition RISCV_PACKAGE : string := "whuse-riscv64-virt".
Definition LOONGARCH_TARGET : string := "loongarch64-unknown-none".
Definition LOONGARCH_PACKAGE : string := "whuse-loongarch64-virt".
Definition LOONGARCH_BOOTROM_PACKAGE : string := "whuse-loongarch64-bootrom".
Definition CONTEST_TOOLCHAIN : string := "nightly-2025-01-18".

Inductive ContestRuntime := Docker (image : string) | Local.

Section Tool.
Context {H : Type} `{!Host H}.
Definition ask {A} (f : H → A) : stm H A := reads (fun h => Ok (f h)).
Definition exists_at (path : string) : stm H bool := ask (fun h => h_exists h path).
(** The result of a fallible operation of the host. *)
Definition tried (f : H → bool * H) : stm H bool := fun h => let '(ok, h') := f h in (Ok ok, h').
Definition status (c : command) : stm H Z := r ← run c; mret (exit_code r).

(** ** Where things are *)
Definition repo_root (manifest_dir : string) (h : H) : outcome string :=
  match h_current_dir h with
  | Some cwd =>
      if h_exists h (join cwd "Cargo.toml") && h_exists h (join (join (join cwd "tools") "xtask") "Cargo.toml") then Ok cwd
      else unwrap (parent manifest_dir ≫= parent)
  | None => unwrap (parent manifest_dir ≫= parent)
  end.

(** ** The compiler *)
Definition rustc_sysroot : stm H (option string) :=
  rustc ← ask (fun h => default "rustc" (h_env h "RUSTC"));
  r ← run (program rustc ["--print"; "sysroot"]);
  mret (if succeeded r then
          text ← r;
          if Abi.is_utf8 (r_stdout text) then
            match Abi.trim (r_stdout text) with [] => None | sysroot => Some (Abi.string_of sysroot) end
          else None
        else None).
Fixpoint first_with (tool dir : string) (es : entries) (h : H) : option string :=
  match es with
  | no_entries => None
  | entry name _ rest =>
      let path := join (join (join dir name) "bin") tool in
      if h_exists h path then Some path else first_with tool dir rest h
  end.
(** A tool of the installed compiler. *)
Definition bundled (tool : string) : stm H (option string) :=
  sysroot ← rustc_sysroot;
  match (sysroot : option string) with
  | None => mret None
  | Some sysroot =>
      let rustlib := join (join sysroot "lib") "rustlib" in
      ask (fun h => match h_tree h rustlib with TDir true es => first_with tool rustlib es h | _ => None end)
  end.
Definition bundled_rust_objcopy : stm H (option string) := bundled "rust-objcopy".
Definition bundled_rust_lld : stm H (option string) := bundled "rust-lld".
Definition rustc_binary : stm H string :=
  var ← ask (fun h => h_env h "RUSTC");
  match (var : option string) with
  | Some rustc => mret rustc
  | None => sysroot ← rustc_sysroot; mret (match sysroot with Some s => join (join s "bin") "rustc" | None => "rustc" end)
  end.
Definition bundled_rustc_lib_dir : stm H (option string) :=
  sysroot ← rustc_sysroot;
  match (sysroot : option string) with
  | None => mret None
  | Some sysroot => ask (fun h => if h_exists h (join sysroot "lib") then Some (join sysroot "lib") else None)
  end.
Definition prepend_env_path (var prefix : string) (h : H) : string :=
  match h_env h var with Some existing => (prefix ++ ":" ++ existing)%string | None => prefix end.

(** The first program that can be started. *)
Fixpoint first_program (candidates : list string) : stm H (option string) :=
  match candidates with
  | [] => mret None
  | c :: candidates' =>
      r ← run (program c ["--version"]);
      match (r : option result) with Some _ => mret (Some c) | None => first_program candidates' end
  end.
Definition objcopy_to_binary (input output : string) : stm H Z :=
  own ← bundled_rust_objcopy;
  path ← first_program ["llvm-objcopy"; "rust-objcopy"; "objcopy"];
  let args := ["-O"; "binary"; input; output] in
  match (own : option string), (path : option string) with
  | Some objcopy, _ =>
      lib ← bundled_rustc_lib_dir;
      env ← ask (fun h => match (lib : option string) with
                          | Some dir => [("LD_LIBRARY_PATH", prepend_env_path "LD_LIBRARY_PATH" dir h)]
                          | None => []
                          end);
      status (mkCommand objcopy args None env)
  | None, Some objcopy => status (program objcopy args)
  | None, None => mret 1
  end.

(** The compiler driver of the environment, of the compiler, of the home
    directory, or the one on the path. *)
Definition cargo_binary : stm H string :=
  var ← ask (fun h => h_env h "CARGO");
  match (var : option string) with
  | Some cargo => mret cargo
  | None =>
      sysroot ← rustc_sysroot;
      ask (fun h =>
        let there := fun path => if h_exists h path then Some path else None in
        let own := sysroot ≫= (fun s => there (join (join s "bin") "cargo")) in
        let home := h_env h "HOME" ≫= (fun home =>
          there (join (join (join (join (join home ".rustup") "toolchains") "stable-x86_64-unknown-linux-gnu") "bin") "cargo")) in
        match own, home with Some cargo, _ | None, Some cargo => cargo | None, None => "cargo" end)
  end.
Definition cargo (args : list string) : stm H Z := binary ← cargo_binary; status (program binary args).
Definition build_kernel (package target : string) : stm H Z := cargo ["build"; "-p"; package; "--target"; target].
Definition built (target name : string) : string := join (join (join "target" target) "debug") name.

(** Steps that end with the first exit code that is not 0. *)
Definition and_then (m k : stm H Z) : stm H Z := code ← m; if code =? 0 then k else mret code.

Section Root.
Context (root : string).

Definition package_kernel_artifact (source output_name : string) : stm H (option string) :=
  let output := join root output_name in
  ok ← tried (h_copy source output); mret (if (ok : bool) then Some output else None).
(** A kernel without its program headers (not used). *)
Definition package_riscv_kernel_artifact (source output_name : string) : stm H (option string) :=
  let target_dir := join (join (join root "target") "xtask") "riscv-raw" in
  made ← tried (h_create_dir_all target_dir);
  if negb (made : bool) then mret None
  else
    let staged_raw := join target_dir (output_name ++ ".raw") in
    raw_status ← objcopy_to_binary source staged_raw;
    if negb ((raw_status : Z) =? 0) then mret None
    else
      let output := join root output_name in
      ok ← tried (h_copy staged_raw output); mret (if (ok : bool) then Some output else None).
Definition packaged (source output_name : string) (k : string → stm H Z) : stm H Z :=
  r ← package_kernel_artifact source output_name; match (r : option string) with Some path => k path | None => mret 1 end.
Definition build_riscv_artifact : stm H Z :=
  and_then (build_kernel RISCV_PACKAGE RISCV_TARGET) (packaged (built RISCV_TARGET RISCV_PACKAGE) "kernel-rv" (fun _ => mret 0)).
Definition build_loongarch_artifact : stm H Z :=
  and_then (build_kernel LOONGARCH_PACKAGE LOONGARCH_TARGET)
    (packaged (built LOONGARCH_TARGET LOONGARCH_PACKAGE) "kernel-la" (fun _ => mret 0)).

(** ** The root file system *)
Definition rootfs_source_dir : string := join (join (join root "tools") "rootfs") "common".
Definition rootfs_stage_dir (arch : string) : string := join (join (join root "target") "rootfs") (arch ++ "-stage").
Fixpoint copy_tree (t : tree) (src dst : string) : stm H unit :=
  match t with
  | TDir true es => copy_entries es src dst
  | _ => fail 1
  end
with copy_entries (es : entries) (src dst : string) : stm H unit :=
  match es with
  | no_entries => mret tt
  | entry name t rest =>
      let from := join src name in
      let to := join dst name in
      _ ← match t with
          | TUnknown => fail 1
          | TDir _ _ => _ ← checked (h_create_dir_all to); copy_tree t from to
          | TFile =>
              _ ← match parent to with Some dir => checked (h_create_dir_all dir) | None => mret tt end;
              checked (h_copy from to)
          end;
      copy_entries rest src dst
  end.
Definition prepare_rootfs_stage (arch stage : string) : stm H unit :=
  there ← exists_at stage;
  _ ← (if (there : bool) then checked (h_remove_dir_all stage) else mret tt);
  _ ← checked (h_create_dir_all stage);
  t ← ask (fun h => h_tree h rootfs_source_dir);
  _ ← copy_tree t rootfs_source_dir stage;
  _ ← checked (h_create_dir_all (join stage "dev"));
  _ ← checked (h_create_dir_all (join stage "proc"));
  _ ← checked (h_create_dir_all (join stage "tmp"));
  checked (h_write (join (join stage "etc") "issue") (line ("whuse " ++ arch ++ " ext4 rootfs"))).
Definition rootfs_size (h : H) : string :=
  match h_env h "WHUSE_ROOTFS_SIZE_MB" with
  | Some value => if existsb (Path.ends_with value) ["K"; "M"; "G"] then value else (value ++ "M")%string
  | None => "64M"
  end.
Definition build_rootfs_body (arch : string) : stm H Z :=
  let stage := rootfs_stage_dir arch in
  let image := rootfs_image_path root arch in
  _ ← prepare_rootfs_stage arch stage;
  _ ← match parent image with Some dir => checked (h_create_dir_all dir) | None => mret tt end;
  size ← ask rootfs_size;
  r ← run (program "truncate" ["-s"; size; image]);
  match (r : option result) with
  | None => fail 1
  | Some _ => status (program "mke2fs" ["-t"; "ext4"; "-d"; stage; "-F"; image])
  end.
(** A failed step is exit code 1. *)
Definition exit_on_error (m : stm H Z) : stm H Z := fun h => match m h with (Err _, h') => (Ok 1, h') | r => r end.
Definition build_rootfs_image (arch : string) : stm H Z := exit_on_error (build_rootfs_body arch).

(** ** The emulator *)
Definition run_qemu_in_contest_docker (binary : string) (args used_paths : list string) : stm H Z :=
  image ← ask docker_image;
  root_canonical ← ask (canonical root);
  command ← ask (fun h => docker_args (h_canonicalize h) root_canonical image binary args used_paths);
  status (program "docker" command).
Definition run_qemu (binary : string) (args used_paths : list string) (mode : QemuMode) : stm H Z :=
  match mode with
  | ModeHost => status (program binary args)
  | ModeContest => run_qemu_in_contest_docker binary args used_paths
  end.

(** A disk that a running emulator has open. *)
Definition disk_held (disk : string) (h : H) : bool :=
  bool_decide (is_Some (detect_qemu_disk_holder (bytes_of (canonical disk h)) (bytes_of disk) (h_proc h))).
Definition disks_held (disks : list (option string)) (h : H) : bool := existsb (fun d => disk_held d h) (collect_used_paths disks).
(** On the host a disk in use is refused. *)
Definition unless_held (mode : QemuMode) (disks : list (option string)) (k : stm H Z) : stm H Z :=
  held ← ask (fun h => bool_decide (mode = ModeHost) && disks_held disks h);
  if (held : bool) then mret 1 else k.

Definition qemu_riscv_with_disk_and_mode (disk : option string) (mode : QemuMode) : stm H Z :=
  and_then (build_kernel RISCV_PACKAGE RISCV_TARGET) (
    extra_disk ← ask (extra_disk_path root "disk.img");
    unless_held mode [disk; extra_disk] (
      packaged (built RISCV_TARGET RISCV_PACKAGE) "kernel-rv" (fun kernel =>
        args ← ask (fun h => build_qemu_riscv_args (h_env h "WHUSE_QEMU_RISCV_MEM") kernel disk extra_disk);
        run_qemu "qemu-system-riscv64" args (collect_used_paths [Some kernel; disk; extra_disk]) mode))).

Definition qemu_loongarch_with_disk_and_mode (disk : option string) (mode : QemuMode) : stm H Z :=
  and_then (build_kernel LOONGARCH_PACKAGE LOONGARCH_TARGET) (
    extra_disk ← ask (extra_disk_path root "disk-la.img");
    unless_held mode [disk; extra_disk] (
      let kernel_elf := built LOONGARCH_TARGET LOONGARCH_PACKAGE in
      packaged kernel_elf "kernel-la" (fun kernel =>
        memory ← ask (fun h => h_env h "WHUSE_QEMU_LOONGARCH_MEM");
        match mode with
        | ModeContest =>
            run_qemu "qemu-system-loongarch64" (build_qemu_loongarch_contest_args memory kernel disk extra_disk)
              (collect_used_paths [Some kernel; disk; extra_disk]) mode
        | ModeHost =>
            let bootrom_elf := built LOONGARCH_TARGET LOONGARCH_BOOTROM_PACKAGE in
            let bootrom_bin := (bootrom_elf ++ ".bin")%string in
            let kernel_bin := (kernel_elf ++ ".bin")%string in
            and_then (build_kernel LOONGARCH_BOOTROM_PACKAGE LOONGARCH_TARGET) (
              and_then (objcopy_to_binary bootrom_elf bootrom_bin) (
                and_then (objcopy_to_binary kernel_elf kernel_bin) (
                  run_qemu "qemu-system-loongarch64" (build_qemu_loongarch_host_args memory bootrom_bin kernel_bin disk extra_disk)
                    (collect_used_paths [Some bootrom_bin; Some kernel_bin; disk; extra_disk]) mode)))
        end))).

Definition mode_of_env (default_ : QemuMode) : stm H QemuMode := ask (fun h => from_env (h_env h "WHUSE_QEMU_MODE") default_).
Definition qemu_riscv_mode (mode : QemuMode) : stm H Z :=
  disk ← ask (default_disk root "rv" "riscv64"); qemu_riscv_with_disk_and_mode disk mode.
Definition qemu_riscv : stm H Z := mode ← mode_of_env ModeHost; qemu_riscv_mode mode.
Definition qemu_loongarch_mode (mode : QemuMode) : stm H Z :=
  disk ← ask (default_disk root "la" "loongarch64"); qemu_loongarch_with_disk_and_mode disk mode.
Definition qemu_loongarch : stm H Z := mode ← mode_of_env ModeHost; qemu_loongarch_mode mode.
Definition prepare_images : stm H Z := fun h => let '(code, h') := prepare_oscomp_images root h in (Ok code, h').
Definition oscomp_riscv : stm H Z :=
  and_then prepare_images (
    mode ← mode_of_env ModeContest; qemu_riscv_with_disk_and_mode (Some (oscomp_image_path root "rv")) mode).
Definition oscomp_loongarch : stm H Z :=
  and_then prepare_images (
    mode ← mode_of_env ModeContest; qemu_loongarch_with_disk_and_mode (Some (oscomp_image_path root "la")) mode).

(** ** The check of a release *)
(** The output of a program that ends well; an error otherwise. *)
Definition captured (c : command) : stm H (list Z) :=
  r ← run c;
  match (r : option result) with
  | Some o => if succeeded r then mret (from_utf8_lossy (r_stdout o)) else fail 1
  | None => fail 1
  end.
Definition first_line (text : list Z) : stm H (list Z) :=
  match trim (default [] (head (text_lines text))) with [] => fail 1 | line => mret line end.
Definition docker_qemu_version (image binary : string) : stm H (list Z) :=
  captured (program "docker" ["run"; "--rm"; image; binary; "--version"]) ≫= first_line.
Definition docker_bash_output (image script : string) : stm H (list Z) :=
  captured (program "docker" ["run"; "--rm"; image; "bash"; "-lc"; script]).
Definition version_script (toolchain : string) : string :=
  ("rustup run " ++ toolchain ++ " cargo --version && rustup run " ++ toolchain ++ " rustc --version")%string.
Definition targets_script (toolchain : string) : string :=
  ("rustup target list --toolchain " ++ toolchain ++ "-x86_64-unknown-linux-gnu --installed")%string.
Definition installed_lines (text : list Z) : list (list Z) :=
  List.filter (fun l => negb (bool_decide (l = []))) (trim <$> text_lines text).
Definition docker_toolchain_version (image toolchain : string) : stm H (list Z) :=
  docker_bash_output image (version_script toolchain) ≫= first_line.
Definition docker_installed_targets (image toolchain : string) : stm H (list (list Z)) :=
  text ← docker_bash_output image (targets_script toolchain); mret (installed_lines text).
Definition local_bash_output (script : string) : stm H (list Z) := captured (program "bash" ["-lc"; script]).
Definition local_toolchain_version (toolchain : string) : stm H (list Z) :=
  local_bash_output (version_script toolchain) ≫= first_line.
Definition local_installed_targets (toolchain : string) : stm H (list (list Z)) :=
  text ← local_bash_output (targets_script toolchain); mret (installed_lines text).
Definition local_qemu_version (binary : string) : stm H (list Z) := captured (program binary ["--version"]) ≫= first_line.

Definition contest_toolchain_version (runtime : ContestRuntime) (toolchain : string) : stm H (list Z) :=
  match runtime with Docker image => docker_toolchain_version image toolchain | Local => local_toolchain_version toolchain end.
Definition contest_installed_targets (runtime : ContestRuntime) (toolchain : string) : stm H (list (list Z)) :=
  match runtime with Docker image => docker_installed_targets image toolchain | Local => local_installed_targets toolchain end.
Definition contest_qemu_version (runtime : ContestRuntime) (binary : string) : stm H (list Z) :=
  match runtime with Docker image => docker_qemu_version image binary | Local => local_qemu_version binary end.
Definition git_output (repo : string) (args : list string) : stm H (list Z) :=
  text ← captured (mkCommand "git" args (Some repo) []); mret (trim text).
Definition command_available (binary : string) (args : list string) : stm H bool :=
  r ← run (program binary args); mret (bool_decide (is_Some (r : option result))).
Definition detect : stm H ContestRuntime :=
  contest_image ← ask docker_image;
  available ← command_available "docker" ["version"];
  mret (if (available : bool) then Docker contest_image else Local).

(** *** Boot *)
Definition collect_command_output (c : command) : stm H (list Z) :=
  r ← run c;
  match (r : option result) with
  | Some o => mret (from_utf8_lossy (r_stdout o) ++ from_utf8_lossy (r_stderr o))
  | None => fail 1
  end.
Definition make_temp_disk_copy (prefix source : string) : stm H string :=
  temp ← reads (fun h => match h_temp_image h prefix with Some t => Ok t | None => Err 1 end);
  r ← run (program "cp" ["--reflink=auto"; "--sparse=always"; source; temp]);
  if succeeded r then mret temp else fail 1.
Definition removed (path : string) : stm H unit := fun h => (Ok tt, h_remove_file path h).
(** [path.strip_prefix(repo).unwrap_or(path)] *)
Definition relative_to_root (path : string) : string :=
  match under_root root path with Some cs => String.concat "/" cs | None => path end.
Definition smoke_container (image temp_disk docker_disk script : string) : command :=
  program "docker" ["run"; "--rm"; "-v"; (root ++ ":/work")%string; "-v"; (temp_disk ++ ":" ++ docker_disk)%string; "-w"; "/work";
                    image; "bash"; "-lc"; script].
Definition booted (text : list Z) (machine : string) : bool :=
  says text ("whuse: booting on " ++ machine) && contest_smoke_has_progress text.
Definition contest_riscv_boot_smoke (runtime : ContestRuntime) (kernel : string) (disk : option string) : stm H bool :=
  temp_disk ← match disk with
              | Some path => t ← make_temp_disk_copy "whuse-selfcheck-rv" path; mret (Some t)
              | None => mret None
              end;
  memory ← ask (fun h => h_env h "WHUSE_QEMU_RISCV_MEM");
  let docker_disk := "/tmp/whuse-selfcheck-rv.img" in
  let kernel_rel := relative_to_root kernel in
  text ← match runtime with
         | Docker image =>
             let args := build_qemu_riscv_args memory kernel_rel ((fun _ => docker_disk) <$> temp_disk) None in
             match (temp_disk : option string) with
             | Some temp =>
                 collect_command_output
                   (smoke_container image temp docker_disk ("timeout 60s qemu-system-riscv64 " ++ String.concat " " args))
             | None => fail 1
             end
         | Local =>
             let args := build_qemu_riscv_args memory kernel_rel (relative_to_root <$> temp_disk) None in
             collect_command_output (program "timeout" (["60s"; "qemu-system-riscv64"] ++ args))
         end;
  _ ← match (temp_disk : option string) with Some temp => removed temp | None => mret tt end;
  mret (booted text "riscv64-virt").
Definition contest_loongarch_boot_smoke (runtime : ContestRuntime) (kernel disk : string) : stm H bool :=
  temp_disk ← make_temp_disk_copy "whuse-selfcheck-la" disk;
  memory ← ask (fun h => h_env h "WHUSE_QEMU_LOONGARCH_MEM");
  let docker_disk := "/tmp/whuse-selfcheck-la.img" in
  let args := fun disk => build_qemu_loongarch_contest_args memory (relative_to_root kernel) (Some disk) None in
  text ← match runtime with
         | Docker image =>
             collect_command_output
               (smoke_container image temp_disk docker_disk
                  ("timeout 60s qemu-system-loongarch64 " ++ String.concat " " (args docker_disk)))
         | Local => collect_command_output (program "timeout" (["60s"; "qemu-system-loongarch64"] ++ args temp_disk))
         end;
  _ ← removed temp_disk;
  mret (booted text "loongarch64-virt").

(** *** The checks *)
(** A check that ends with an error has failed. *)
Definition holds (m : stm H bool) : stm H bool := fun h => match m h with (Err _, h') => (Ok false, h') | r => r end.
Definition check_exists (name : string) : stm H bool := exists_at (join root name).
(** A branch that is not known is no failure. *)
Definition check_branch (testsuits : string) : stm H bool := fun h =>
  match git_output testsuits ["rev-parse"; "--abbrev-ref"; "HEAD"] h with
  | (Ok branch, h') => (Ok (bool_decide (trim branch = bytes_of "pre-2025")), h')
  | (_, h') => (Ok true, h')
  end.
Definition check_testsuits : stm H bool :=
  testsuits ← reads (testsuits_root root);
  there ← exists_at testsuits;
  git ← exists_at (join testsuits ".git");
  if negb (there : bool) then mret false else if (git : bool) then check_branch testsuits else mret true.
Definition check_toolchain (runtime : ContestRuntime) : stm H bool := _ ← contest_toolchain_version runtime CONTEST_TOOLCHAIN; mret true.
Definition check_targets (runtime : ContestRuntime) : stm H bool :=
  installed ← contest_installed_targets runtime CONTEST_TOOLCHAIN;
  mret (forallb (fun target => bool_decide (bytes_of target ∈ installed)) [RISCV_TARGET; LOONGARCH_TARGET]).
Definition check_qemu (runtime : ContestRuntime) (binary : string) : stm H bool :=
  version ← contest_qemu_version runtime binary; mret (contest_qemu_version_supported version).
Definition check_args : stm H bool :=
  ask (fun h => riscv_args_expected (h_env h "WHUSE_QEMU_RISCV_MEM") && loongarch_args_expected (h_env h "WHUSE_QEMU_LOONGARCH_MEM")).
(** An image that is not there is no failure. *)
Definition check_image (tag : string) : stm H bool :=
  let image := oscomp_image_path root tag in
  ask (fun h => negb (h_exists h image) || validate_oscomp_full_image h image).
Definition check_riscv_boot (runtime : ContestRuntime) : stm H bool :=
  let kernel := join root "kernel-rv" in
  let image := oscomp_image_path root "rv" in
  there ← exists_at kernel;
  if (there : bool) then
    disk ← ask (fun h => if h_exists h image then Some image else None);
    contest_riscv_boot_smoke runtime kernel disk
  else mret true.
Definition check_loongarch_boot (runtime : ContestRuntime) : stm H bool :=
  let kernel := join root "kernel-la" in
  let image := oscomp_image_path root "la" in
  there ← ask (fun h => h_exists h kernel && h_exists h image);
  if (there : bool) then contest_loongarch_boot_smoke runtime kernel image else mret true.
Definition contest_checks (runtime : ContestRuntime) : list (stm H bool) :=
  [check_exists "cargo_config.toml"; check_exists "vendor"; check_exists "kernel-rv"; check_exists "kernel-la"; check_testsuits;
   check_toolchain runtime; check_targets runtime; check_qemu runtime "qemu-system-riscv64";
   check_qemu runtime "qemu-system-loongarch64"; check_args; check_image "rv"; check_image "la";
   check_riscv_boot runtime; check_loongarch_boot runtime].
(** Every check runs, whatever the others found. *)
Fixpoint all_checks (checks : list (stm H bool)) (ok : bool) : stm H bool :=
  match checks with
  | [] => mret ok
  | c :: checks' => passed ← holds c; all_checks checks' (ok && passed)
  end.
Definition contest_selfcheck : stm H Z :=
  runtime ← detect; ok ← all_checks (contest_checks runtime) true; mret (if (ok : bool) then 0 else 1).
End Root.

(** ** The commands *)
Definition default_command (args : list string) : string := default "build" (nth_error args 1).
Definition main (manifest_dir : string) (args : list string) : stm H Z :=
  let with_root := fun f => root ← reads (repo_root manifest_dir); f root in
  let command := default_command args in
  if existsb (String.eqb command) ["build"; "build-riscv"] then with_root build_riscv_artifact
  else if String.eqb command "build-loongarch" then with_root build_loongarch_artifact
  else if String.eqb command "image-riscv" then with_root (fun root => build_rootfs_image root "riscv64")
  else if String.eqb command "image-loongarch" then with_root (fun root => build_rootfs_image root "loongarch64")
  else if String.eqb command "check" then cargo ["check"; "--workspace"]
  else if existsb (String.eqb command) ["qemu"; "qemu-riscv"] then with_root qemu_riscv
  else if String.eqb command "qemu-riscv-contest" then with_root (fun root => qemu_riscv_mode root ModeContest)
  else if String.eqb command "qemu-loongarch" then with_root qemu_loongarch
  else if String.eqb command "qemu-loongarch-contest" then with_root (fun root => qemu_loongarch_mode root ModeContest)
  else if String.eqb command "oscomp-images" then with_root prepare_images
  else if String.eqb command "oscomp-riscv" then with_root oscomp_riscv
  else if String.eqb command "oscomp-loongarch" then with_root oscomp_loongarch
  else if String.eqb command "contest-selfcheck" then with_root contest_selfcheck
  else mret 2.
End Tool.

(** ** Proofs *)
Section Facts.
Context {H : Type} `{!Host H} (root : string).
Implicit Types (h : H) (code : Z).

(** Nothing is packaged or started after a build that failed, and the tool ends
    with the compiler's code. *)
Lemma and_then_stops (m k : stm H Z) h h' code : m h = (Ok code, h') → code ≠ 0 → and_then m k h = (Ok code, h').
Proof. intros Hm Hc. unfold and_then. rewrite stm_bind_eq, Hm. by rewrite (proj2 (Z.eqb_neq code 0)). Qed.
Lemma and_then_goes (m k : stm H Z) h h' : m h = (Ok 0, h') → and_then m k h = k h'.
Proof. intros Hm. unfold and_then. by rewrite stm_bind_eq, Hm. Qed.
Lemma failed_build_starts_nothing disk mode h h' code : code ≠ 0 →
  (build_kernel RISCV_PACKAGE RISCV_TARGET h = (Ok code, h') →
     qemu_riscv_with_disk_and_mode root disk mode h = (Ok code, h') ∧ build_riscv_artifact root h = (Ok code, h')) ∧
  (build_kernel LOONGARCH_PACKAGE LOONGARCH_TARGET h = (Ok code, h') →
     qemu_loongarch_with_disk_and_mode root disk mode h = (Ok code, h') ∧ build_loongarch_artifact root h = (Ok code, h')).
Proof. intros Hc. split; intros Hb; split; by apply and_then_stops. Qed.

(** On the host a disk that an emulator has open is refused: neither is the
    kernel packaged nor an emulator started. *)
Lemma held_disk_refused (disks : list (option string)) disk (k : stm H Z) h :
  Some disk ∈ disks → disk_held disk h = true → unless_held ModeHost disks k h = (Ok 1, h).
Proof.
  intros Hin Hh. unfold unless_held, ask. rewrite stm_bind_eq. unfold reads.
  rewrite bool_decide_true by done. unfold disks_held.
  assert (existsb (fun d => disk_held d h) (collect_used_paths disks) = true) as ->; [|done].
  apply existsb_exists. exists disk. split; [|done]. apply list_elem_of_In, list_elem_of_omap. by exists (Some disk).
Qed.
Lemma riscv_held_disk_refused disk h h' : build_kernel RISCV_PACKAGE RISCV_TARGET h = (Ok 0, h') → disk_held disk h' = true →
  qemu_riscv_with_disk_and_mode root (Some disk) ModeHost h = (Ok 1, h').
Proof.
  intros Hb Hh. unfold qemu_riscv_with_disk_and_mode. rewrite (and_then_goes _ _ _ h') by done.
  unfold ask at 1. rewrite stm_bind_eq. unfold reads at 1. apply (held_disk_refused _ disk); [left|done].
Qed.

(** ** The check of a release *)
Lemma all_checks_fails checks h ok h' : all_checks checks false h = (Ok ok, h') → ok = false.
Proof.
  revert h. induction checks as [|c checks IH]; intros h; simpl; [by intros [= <- _]|].
  rewrite stm_bind_eq. destruct (holds c h) as [[p| | |] h1]; try done. apply IH.
Qed.
Lemma all_checks_pass checks h h' : all_checks checks true h = (Ok true, h') →
  Forall (fun c : stm H bool => ∃ h1 h2, c h1 = (Ok true, h2)) checks.
Proof.
  revert h. induction checks as [|c checks IH]; intros h; simpl; [by constructor|].
  rewrite stm_bind_eq. unfold holds. destruct (c h) as [[p| | |] h1] eqn:E; try done.
  - destruct p; simpl; [|intros Hf; by apply all_checks_fails in Hf].
    intros Hr. constructor; [by exists h, h1 | by apply (IH h1)].
  - simpl. intros Hf. by apply all_checks_fails in Hf.
Qed.

(** The emulator ran and its output has the line of a booted kernel of the
    machine and the start of a test. *)
Definition saw_boot (machine : string) : Prop := ∃ (c : command) h1 o h2, h_run c h1 = (Some o, h2) ∧
  booted (from_utf8_lossy (r_stdout o) ++ from_utf8_lossy (r_stderr o)) machine = true.
Lemma collected c h text h' : collect_command_output c h = (Ok text, h') →
  ∃ o, h_run c h = (Some o, h') ∧ text = from_utf8_lossy (r_stdout o) ++ from_utf8_lossy (r_stderr o).
Proof.
  unfold collect_command_output, run. rewrite stm_bind_eq. destruct (h_run c h) as [[o|] h1]; [|done].
  intros [= <- <-]. by exists o.
Qed.
Lemma bind_ok {A B} (m : stm H A) (f : A → stm H B) h b h' : (m ≫= f) h = (Ok b, h') → ∃ a h1, m h = (Ok a, h1) ∧ f a h1 = (Ok b, h').
Proof. rewrite stm_bind_eq. destruct (m h) as [[a| | |] h1]; try done. intros Hf. by exists a, h1. Qed.
Ltac run_bind Hr a h Ha := apply bind_ok in Hr as (a & h & Ha & Hr).

Lemma riscv_smoke_boots runtime kernel disk h h' :
  contest_riscv_boot_smoke root runtime kernel disk h = (Ok true, h') → saw_boot "riscv64-virt".
Proof.
  unfold contest_riscv_boot_smoke. intros Hr. run_bind Hr temp h1 Ht. run_bind Hr memory h2 Hm. cbv zeta in Hr.
  run_bind Hr text h3 Hc. run_bind Hr u h4 Hu. injection Hr as Hb _.
  assert (∃ c, collect_command_output c h2 = (Ok text, h3)) as [c Hcol].
  { destruct runtime; [destruct temp; [|done]|]; by eexists. }
  apply collected in Hcol as (o & Ho & ->). by exists c, h2, o, h3.
Qed.
Lemma loongarch_smoke_boots runtime kernel disk h h' :
  contest_loongarch_boot_smoke root runtime kernel disk h = (Ok true, h') → saw_boot "loongarch64-virt".
Proof.
  unfold contest_loongarch_boot_smoke. intros Hr. run_bind Hr temp h1 Ht. run_bind Hr memory h2 Hm. cbv zeta in Hr.
  run_bind Hr text h3 Hc. run_bind Hr u h4 Hu. injection Hr as Hb _.
  assert (∃ c, collect_command_output c h2 = (Ok text, h3)) as [c Hcol] by (destruct runtime; by eexists).
  apply collected in Hcol as (o & Ho & ->). by exists c, h2, o, h3.
Qed.

Ltac in_list := unfold contest_checks; repeat first [by left | right].

(** A release that passes has its kernels and its sources in place, the tool
    chain and emulators of the contest answer, and the riscv64 kernel was seen
    to boot and to begin a test unless it has gone meanwhile.  The loongarch64
    kernel was seen to boot only where its image is there. *)
Theorem selfcheck_passes h h' : contest_selfcheck root h = (Ok 0, h') →
  Forall (fun name => ∃ h1, h_exists h1 (join root name) = true) ["cargo_config.toml"; "vendor"; "kernel-rv"; "kernel-la"] ∧
  (∃ runtime, Forall (fun binary => ∃ h1 h2 version, contest_qemu_version runtime binary h1 = (Ok version, h2) ∧
      contest_qemu_version_supported version = true) ["qemu-system-riscv64"; "qemu-system-loongarch64"]) ∧
  (saw_boot "riscv64-virt" ∨ ∃ h1, h_exists h1 (join root "kernel-rv") = false) ∧
  (saw_boot "loongarch64-virt" ∨ ∃ h1, h_exists h1 (join root "kernel-la") && h_exists h1 (oscomp_image_path root "la") = false).
Proof.
  unfold contest_selfcheck. intros Hr. run_bind Hr runtime h1 Hd. run_bind Hr ok h2 Hok. destruct ok; [|done].
  apply all_checks_pass in Hok. rewrite Forall_forall in Hok.
  assert (∀ name, check_exists root name ∈ contest_checks root runtime → ∃ h1, h_exists h1 (join root name) = true) as Hex.
  { intros name (h3 & h4 & Hc)%Hok. exists h3. by injection Hc. }
  assert (∀ binary, check_qemu runtime binary ∈ contest_checks root runtime → ∃ h1 h2 version,
    contest_qemu_version runtime binary h1 = (Ok version, h2) ∧ contest_qemu_version_supported version = true) as Hq.
  { intros binary (h3 & h4 & Hc)%Hok. unfold check_qemu in Hc. run_bind Hc version h5 Hv. injection Hc as Hs _. eauto. }
  split_and!.
  - repeat constructor; apply Hex; in_list.
  - exists runtime. repeat constructor; apply Hq; in_list.
  - destruct (Hok (check_riscv_boot root runtime)) as (h3 & h4 & Hc); [in_list|].
    unfold check_riscv_boot in Hc. run_bind Hc there h5 Ht. injection Ht as Ht <-. destruct there; [left | right; by exists h3].
    run_bind Hc disk h6 Hdisk. by apply riscv_smoke_boots in Hc.
  - destruct (Hok (check_loongarch_boot root runtime)) as (h3 & h4 & Hc); [in_list|].
    unfold check_loongarch_boot in Hc. run_bind Hc there h5 Ht. injection Ht as Ht <-. destruct there; [left | right; by exists h3].
    by apply loongarch_smoke_boots in Hc.
Qed.

(** In a container the boot test of the riscv64 kernel needs the image, which
    the check reports as missing without a failure. *)
Lemma container_smoke_needs_image image kernel h :
  contest_riscv_boot_smoke root (Docker image) kernel None h = (Err 1, h).
Proof. done. Qed.
(** An emulator that cannot be started leaves the copy of the image behind. *)
Lemma failed_smoke_leaves_copy kernel disk temp h h1 h2 : make_temp_disk_copy "whuse-selfcheck-la" disk h = (Ok temp, h1) →
  (∀ args, h_run (program "timeout" args) h1 = (None, h2)) →
  contest_loongarch_boot_smoke root Local kernel disk h = (Err 1, h2).
Proof.
  intros Ht Hrun. unfold contest_loongarch_boot_smoke. rewrite stm_bind_eq, Ht. unfold ask. rewrite stm_bind_eq. unfold reads.
  cbv zeta. rewrite stm_bind_eq. unfold collect_command_output, run. by rewrite stm_bind_eq, Hrun.
Qed.

(** An unknown command ends with 2 and does nothing. *)
Definition commands : list string :=
  ["build"; "build-riscv"; "build-loongarch"; "image-riscv"; "image-loongarch"; "check"; "qemu"; "qemu-riscv"; "qemu-riscv-contest";
   "qemu-loongarch"; "qemu-loongarch-contest"; "oscomp-images"; "oscomp-riscv"; "oscomp-loongarch"; "contest-selfcheck"].
Lemma unknown_command dir args h : default_command args ∉ commands → main dir args h = (Ok 2, h).
Proof.
  intros Hc. unfold main. set (c := default_command args) in *. simpl.
  repeat match goal with |- context [String.eqb c ?s] =>
    destruct (String.eqb_spec c s) as [->|_]; [exfalso; apply Hc; unfold commands; in_list|] end.
  done.
Qed.
End Facts.

(** ** A host on which a release passes *)
Definition sample_text (c : command) : list Z :=
  if String.eqb (c_program c) "git" then line "pre-2025"
  else flat_map line ["QEMU emulator version 9.2.1"; RISCV_TARGET; LOONGARCH_TARGET; "whuse: booting on riscv64-virt";
                      "whuse: booting on loongarch64-virt"; "testcase 1"].
#[local] Instance release_host : Host unit := {|
  h_exists _ _ := true; h_env _ _ := None; h_metadata _ _ := Meta 1 (Some 1);
  h_read_to_string _ _ := Some (line "basic"); h_debugfs _ command _ := Some (sample_answer true command);
  h_temp_path _ := Some "/tmp/profile.tmp";
  h_write _ _ h := (true, h); h_copy _ _ h := (true, h); h_create_dir_all _ h := (true, h); h_remove_file _ h := h;
  h_debugfs_w _ _ h := (Some true, h);
  h_run c h := (Some (mkResult (Some 0) (sample_text c) []), h); h_canonicalize _ _ := None; h_current_dir _ := Some "/repo";
  h_read _ _ := None; h_tree _ _ := TFile; h_remove_dir_all _ h := (true, h); h_temp_image _ _ := Some "/tmp/whuse.img";
  h_proc _ := None |}.

Lemma selfcheck_passes_witness : contest_selfcheck (H := unit) "/repo" tt = (Ok 0, tt) ∧
  (saw_boot (H := unit) "riscv64-virt" ∨ ∃ h1 : unit, h_exists h1 (join "/repo" "kernel-rv") = false).
Proof.
  assert (contest_selfcheck (H := unit) "/repo" tt = (Ok 0, tt)) as Hc by (by vm_compute). split; [done|].
  by apply (selfcheck_passes "/repo" tt tt).
Defined.
End XtaskRun.
