(* ===== verification/FileInv.v ===== *)
(** * References to files

    An [Arc<Node>] never dangles.  Here a handle names its node by a key, so
    this is an invariant: the name space is well formed and the handles in a
    state or a value are on allocated nodes.  The judgement [fk] says that code
    keeps it, on the state of any component: the name space, the environment of
    the process table, the table, the kernel and the kernel loop.  This file
    has the judgement and the methods of the process table; [FileRun] has the
    system calls and the kernel loops. *)

From S2P Require Import Prelude Task AddrSpace Elf Path FileObject Vfs VfsInv Process KernelEnv ProcTable Locks Abi Keys Sys KernelCore.

Open Scope string_scope.
Open Scope list_scope.
Open Scope Z_scope.

Module FileInv.
Import Obj Proc PTable Sys.

(** ** States and values that hold handles *)
(** A value carries the nodes of the handles in it. *)
Class Carries (B : Type) := carries : B → Z → Prop.
#[global] Hint Mode Carries ! : typeclass_instances.
#[global] Instance carries_nothing B : Carries B | 100 := fun _ _ => False.
#[global] Instance carries_handle : Carries FileHandle := fun h n => n = h_node h.
#[global] Instance carries_pair {A B} `{!Carries A} `{!Carries B} : Carries (A * B) := fun x n => carries x.1 n ∨ carries x.2 n.
#[global] Instance carries_sum {A B} `{!Carries A} `{!Carries B} : Carries (A + B) := fun x n =>
  match x with inl a => carries a n | inr b => carries b n end.
#[global] Instance carries_option {A} `{!Carries A} : Carries (option A) := fun x n => match x with Some a => carries a n | None => False end.
#[global] Instance carries_list {A} `{!Carries A} : Carries (list A) := fun l n => ∃ a, a ∈ l ∧ carries a n.
#[global] Instance carries_map {A} `{!Carries A} : Carries (gmap Z A) := fun m n => ∃ i a, m !! i = Some a ∧ carries a n.
#[global] Instance carries_process {A} : Carries (Process FileHandle A) := fun p n => carries (fds p) n.
#[global] Instance carries_table {A E} : Carries (table FileHandle A E) := fun t n => carries (processes t) n.
#[global] Instance carries_kernel {M} : Carries (kernel M) := fun k n => carries (k_table k) n.
#[global] Instance carries_core {M} : Carries (KernelCore.core M) := fun c n => carries (KernelCore.c_kernel c) n.

(** Types without handles. *)
Class Bare (B : Type) `{!Carries B} : Prop := bare : ∀ (b : B) n, ¬ carries b n.
#[global] Instance bare_nothing B : @Bare B (carries_nothing B).
Proof. by intros b n []. Qed.
#[global] Instance bare_pair {A B} `{!Carries A} `{!Carries B} `{!Bare A} `{!Bare B} : Bare (A * B).
Proof. intros [a b] n [Hn|Hn]; [exact (bare a n Hn)|exact (bare b n Hn)]. Qed.
#[global] Instance bare_sum {A B} `{!Carries A} `{!Carries B} `{!Bare A} `{!Bare B} : Bare (A + B).
Proof. intros [b|b] n Hn; exact (bare b n Hn). Qed.
#[global] Instance bare_option {A} `{!Carries A} `{!Bare A} : Bare (option A).
Proof. intros [b|] n Hn; [exact (bare b n Hn)|done]. Qed.
#[global] Instance bare_list {A} `{!Carries A} `{!Bare A} : Bare (list A).
Proof. intros l n (b & _ & Hn). exact (bare b n Hn). Qed.
#[global] Instance bare_map {A} `{!Carries A} `{!Bare A} : Bare (gmap Z A).
Proof. intros l n (i & b & _ & Hn). exact (bare b n Hn). Qed.

(** The name space of a state. *)
Class Files (M S : Type) := files : S → Vfs.KernelVfs M.
#[global] Hint Mode Files - ! : typeclass_instances.
#[global] Instance files_vfs M : Files M (Vfs.KernelVfs M) := fun v => v.
#[global] Instance files_env M : Files M (Kernel.kenv M) := Kernel.k_vfs.
#[global] Instance files_pair {M A S} `{!Files M S} : Files M (A * S) := fun x => files x.2.
#[global] Instance files_table {M H A E} `{!Files M E} : Files M (table H A E) := fun t => files (env t).
#[global] Instance files_kernel M : Files M (kernel M) := fun k => files (k_table k).
#[global] Instance files_core M : Files M (KernelCore.core M) := fun c => files (KernelCore.c_kernel c).

Section Judgement.
Context {M : Type} `{!Ext4Ops M}.
Implicit Types (v : Vfs.KernelVfs M).

Definition held v {B} `{!Carries B} (b : B) : Prop := ∀ n, carries b n → VfsInv.has_node (Vfs.vstore v) n.

Section State.
Context {S : Type} `{!Files M S} `{!Carries S}.
Definition fok (s : S) : Prop := VfsInv.wf (files s) ∧ held (files s) s.
Definition fle (s s' : S) : Prop := VfsInv.grows (files s) (files s').
#[global] Instance fle_preorder : PreOrder fle.
Proof. split; unfold fle; [intros s; reflexivity|intros ???; apply transitivity]. Qed.

Lemma fle_same (s s' : S) : files s' = files s → fle s s'.
Proof. unfold fle. intros ->. reflexivity. Qed.

(** The code keeps the references, and the handles in its result are on nodes. *)
Definition fk {B} `{!Carries B} (s : S) (m : stm S B) : Prop := keeps fok fle s m (fun b s' => held (files s') b).

Lemma held_later {B} `{!Carries B} (s s' : S) (b : B) : fle s s' → held (files s) b → held (files s') b.
Proof. intros [Hn _] Hb n Hc. apply Hn, Hb, Hc. Qed.

Lemma fk_bind {A B} `{!Carries A} `{!Carries B} s (m : stm S A) (f : A → stm S B) :
  fk s m → (∀ a s', fle s s' → held (files s') a → fk s' (f a)) → fk s (m ≫= f).
Proof. intros Hm Hf. eapply keeps_bind; [apply _|exact Hm|]. intros a s' _ Hg Ha. by apply Hf. Qed.
Lemma fk_ret {B} `{!Carries B} s (b : B) : held (files s) b → fk s (mret b).
Proof. intros Hb. by apply keeps_ret; [apply _|]. Qed.
Lemma fk_fail {B} `{!Carries B} s e : fk s (fail (A := B) e).
Proof. apply keeps_fail. apply _. Qed.
Lemma fk_lift {B} `{!Carries B} s (o : outcome B) : (∀ b, o = Ok b → held (files s) b) → fk s (lift o).
Proof. intros Ho. apply keeps_reads; [apply _|]. intros b _. apply Ho. Qed.
Lemma fk_get s : fk s get.
Proof. apply keeps_get; [apply _|]. by intros [_ Hs]. Qed.
Lemma fk_get_bind {B} `{!Carries B} s (f : S → stm S B) : (held (files s) s → fk s (f s)) → fk s (get ≫= f).
Proof. intros Hf Hs. rewrite stm_bind_eq. apply Hf; [apply Hs|done]. Qed.
Lemma fk_lift_bind {A B} `{!Carries B} s (o : outcome A) (f : A → stm S B) : (∀ a, o = Ok a → fk s (f a)) → fk s (lift o ≫= f).
Proof.
  intros Hf Hs. rewrite stm_bind_eq. unfold lift. destruct o as [a| | |]; [by apply Hf|split_and!; [done|reflexivity|done]..].
Qed.
(** An update that adds no handle and leaves the name space alone. *)
Definition no_more (s s' : S) : Prop := files s' = files s ∧ ∀ n, carries s' n → carries s n.
Lemma no_more_ok s s' : no_more s s' → fok s → fok s' ∧ fle s s'.
Proof.
  unfold fok, fle, held. intros [-> Hc] [Hwf Hs]. split; [|reflexivity]. split; [done|]. intros n Hn. by apply Hs, Hc.
Qed.
Lemma fk_modify s f : no_more s (f s) → fk s (modify f).
Proof.
  intros Hf. apply keeps_modify. intros Hs. destruct (no_more_ok _ _ Hf Hs). split_and!; [done|done|by intros n []].
Qed.
Lemma fk_put s s' : no_more s s' → fk s (put s').
Proof. intros Hf. exact (fk_modify s (fun _ => s') Hf). Qed.
End State.

(** What is held by parts of a value. *)
Lemma held_nothing v {B} (b : B) : @held v B (carries_nothing B) b.
Proof. by intros n []. Qed.
Lemma held_bare v {B} `{!Carries B} `{!Bare B} (b : B) : held v b.
Proof. intros n Hn. destruct (bare b n Hn). Qed.
Lemma held_pair v {A B} `{!Carries A} `{!Carries B} (a : A) (b : B) : held v (a, b) ↔ held v a ∧ held v b.
Proof. unfold held, carries at 1, carries_pair. naive_solver. Qed.
Lemma held_inl v {A B} `{!Carries A} `{!Carries B} (a : A) : held v (inl (B := B) a) ↔ held v a.
Proof. done. Qed.
Lemma held_inr v {A B} `{!Carries A} `{!Carries B} (b : B) : held v (inr (A := A) b) ↔ held v b.
Proof. done. Qed.
Lemma held_Some v {A} `{!Carries A} (a : A) : held v (Some a) ↔ held v a.
Proof. done. Qed.
Lemma held_None v {A} `{!Carries A} : held v (None (A := A)).
Proof. by intros n []. Qed.
Lemma held_nil v {A} `{!Carries A} : held v ([] : list A).
Proof. intros n (a & Ha & _). by apply not_elem_of_nil in Ha. Qed.
Lemma held_cons v {A} `{!Carries A} (a : A) l : held v (a :: l) ↔ held v a ∧ held v l.
Proof.
  unfold held, carries at 1 3, carries_list. split.
  - intros Hl. split; intros n Hn; [apply Hl; exists a; by split; [left|]|destruct Hn as (b & ? & ?); apply Hl; exists b; by split; [right|]].
  - intros [Ha Hl] n (b & Hb & Hn). apply elem_of_cons in Hb as [->|Hb]; [by apply Ha|]. apply Hl. eauto.
Qed.
Lemma held_handle v h : held v h ↔ VfsInv.handle_ok v h.
Proof. split; [intros Hh; by apply Hh|by intros Hh n ->]. Qed.
Lemma held_lookup v {A} `{!Carries A} (m : gmap Z A) i a : held v m → m !! i = Some a → held v a.
Proof. intros Hm Hi n Hn. apply Hm. by exists i, a. Qed.
Lemma held_insert v {A} `{!Carries A} (m : gmap Z A) i a : held v a → held v m → held v (<[i := a]> m).
Proof. intros Ha Hm n (j & b & [[_ <-]|[_ Hj]]%lookup_insert_Some & Hn); [by apply Ha|by apply Hm; exists j, b]. Qed.
Lemma held_values v {A} `{!Carries A} (m : gmap Z A) : held v m → held v (values m).
Proof. intros Hm n (a & Ha & Hn). apply elem_of_values in Ha as [i Hi]. apply Hm. by exists i, a. Qed.
Lemma held_sub v {A} `{!Carries A} (m m' : gmap Z A) : m' ⊆ m → held v m → held v m'.
Proof. intros Hsub Hm n (i & a & Hi & Hn). apply Hm. exists i, a. split; [by eapply lookup_weaken|done]. Qed.
Lemma held_current v {A E} (t : table FileHandle A E) p : held v t → current t = Ok p → held v p.
Proof. unfold current. intros Ht. destruct (processes t !! current_tid t) eqn:Hp; simpl; [|done]. intros [= <-]. by eapply held_lookup. Qed.
Lemma held_fd v {A} (p : Process FileHandle A) fd h : held v p → fd_get p fd = Ok h → held v h.
Proof. unfold fd_get. intros Hp. destruct (fds p !! fd) eqn:Hf; simpl; [|done]. intros [= <-]. by eapply held_lookup. Qed.
Lemma held_same v {A} (p q : Process FileHandle A) : held v q → fds p = fds q → held v p.
Proof. intros Hq Hp n Hn. apply Hq. unfold carries, carries_process in *. by rewrite <- Hp. Qed.
Lemma held_same_node v h h' : held v h' → h_node h = h_node h' → held v h.
Proof. intros Hq Hp n Hn. apply Hq. unfold carries, carries_handle in *. by rewrite <- Hp. Qed.
Lemma held_find v {A E} (t : table FileHandle A E) k p : held v t → find_process_by_pid t k = Ok p → held v p.
Proof.
  unfold find_process_by_pid. intros Ht. destruct (processes t !! k) as [q|] eqn:Hq; [intros [= <-]; by eapply held_lookup|].
  intros Hf%ok_or_inv. apply find_first_Some in Hf as [Hin _]. unfold procs in Hin. apply elem_of_values in Hin as [i Hi]. by eapply held_lookup.
Qed.
End Judgement.

(** ** Stepping through code *)
Ltac held_facts := repeat match goal with
  | H : held _ (_, _) |- _ => apply (proj1 (held_pair _ _ _)) in H as [? ?]
  | H : held _ (inl _) |- _ => apply (proj1 (held_inl _ _)) in H
  | H : held _ (inr _) |- _ => apply (proj1 (held_inr _ _)) in H
  | H : held _ (Some _) |- _ => apply (proj1 (held_Some _ _)) in H
  | H : held _ (_ :: _) |- _ => apply (proj1 (held_cons _ _ _)) in H as [? ?]
  | H : @held _ _ _ (carries_nothing _) _ |- _ => clear H
  | Ht : held ?v ?t, H : current ?t = Ok ?p |- _ => pose proof (held_current v t p Ht H); clear H
  | Ht : held ?v ?k, H : current (k_table ?k) = Ok ?p |- _ => pose proof (held_current v (k_table k) p Ht H); clear H
  | H : ok_or _ _ = Ok _ |- _ => apply ok_or_inv in H
  | Ht : held ?v ?t, H : find_process_by_pid ?t _ = Ok ?p |- _ => pose proof (held_find v t _ p Ht H); clear H
  | Ht : held ?v ?p, H : fd_get ?p _ = Ok ?h |- _ => pose proof (held_fd v p _ h Ht H); clear H
  | Ht : held ?v ?m, H : ?m !! _ = Some ?a |- _ => pose proof (held_lookup v m _ a Ht H); clear H
  | Ht : held ?v ?p, H : fds ?p !! _ = Some ?h |- _ => pose proof (held_lookup v (fds p) _ h Ht H); clear H
  | Ht : held ?v ?t, H : processes ?t !! _ = Some ?p |- _ => pose proof (held_lookup v (processes t) _ p Ht H); clear H
  | Ht : held ?v ?k, H : processes (k_table ?k) !! _ = Some ?p |- _ => pose proof (held_lookup v (processes (k_table k)) _ p Ht H); clear H
  end.
Ltac held_tac := lazymatch goal with
  | |- held (B := Process _ _) _ ?p => match goal with H : held (B := Process _ _) _ ?q |- _ => solve [apply (held_same _ p q H); reflexivity] end
  | |- held (B := FileHandle) _ ?p => match goal with H : held (B := FileHandle) _ ?q |- _ => solve [apply (held_same_node _ p q H); reflexivity] end
  | |- held _ (fds ?p) => match goal with H : held _ ?q |- _ => solve [apply (held_same _ p q H); reflexivity] end
  | |- @held _ _ _ (carries_nothing _) _ => apply held_nothing
  | |- held _ (_, _) => apply (proj2 (held_pair _ _ _)); split; held_tac
  | |- held _ (Some _) => apply (proj2 (held_Some _ _)); held_tac
  | |- held _ None => apply held_None
  | |- held _ (inl _) => apply (proj2 (held_inl _ _)); held_tac
  | |- held _ (inr _) => apply (proj2 (held_inr _ _)); held_tac
  | |- held _ [] => apply held_nil
  | |- held _ (_ :: _) => apply (proj2 (held_cons _ _ _)); split; held_tac
  | |- held _ _ => first [assumption | apply held_bare; apply _]
  end.
(** The facts about values move to the state after a step. *)
Ltac fk_next s :=
  let a := fresh "a" in let s' := fresh "s" in let Hg := fresh "Hg" in let Ha := fresh "Ha" in
  intros a s' Hg Ha;
  repeat match goal with
  | H : held _ ?x |- _ => lazymatch x with a => fail | _ => idtac end; apply (held_later s s' _ Hg) in H; revert H
  end; clear Hg; revert Ha;
  repeat lazymatch goal with |- held _ _ → _ => let H := fresh "Hh" in intros H end; cbn beta iota zeta; held_facts.

(** One step; [prim] knows the primitive steps of the state. *)
Ltac fk_with prim := lazymatch goal with
  | |- fk _ (mbind _ get) => apply fk_get_bind; let H := fresh "Hs" in intros H; cbn beta iota zeta
  | |- fk _ (mbind _ (lift _)) => apply fk_lift_bind; let a := fresh "a" in let H := fresh "Ha" in intros a H; cbn beta iota zeta; held_facts
  | |- fk ?s (mbind _ _) => apply fk_bind; [|fk_next s]
  | |- fk _ (mret _) => apply fk_ret; held_tac
  | |- fk _ (fail _) => apply fk_fail
  | |- fk _ get => apply fk_get
  | |- fk _ (lift _) => apply fk_lift; let b := fresh "b" in let H := fresh "Hb" in intros b H; held_facts; held_tac
  | |- fk _ (let '(_, _) := ?x in _) => destruct x; held_facts
  | |- fk _ (match ?x with _ => _ end) => case_match; held_facts
  | |- _ => prim
  end.

(** ** Files and memory of the process table *)
Section Env.
Context {M : Type} `{!Ext4Ops M} `{!HalMemory} (can_reserve : Z → bool).
#[local] Hint Extern 0 (KernelEnv _ _ _) => exact (Kernel.kernel_env can_reserve) : typeclass_instances.
Abbreviation kenv := (Kernel.kenv M).
Abbreviation process := (Process FileHandle Z).
Implicit Types (e : kenv).

(** Code on memory only. *)
Lemma fk_mem {B} `{!Carries B} e (m : stm kenv B) :
  Kernel.k_vfs (m e).2 = Kernel.k_vfs e → (∀ b : B, held (Kernel.k_vfs e) b) → fk e m.
Proof.
  intros Hv Hb [Hwf _]. unfold fok, fle, held, files, files_env. rewrite Hv. split_and!; [done|by intros n []|reflexivity|].
  intros b _. exact (Hb b).
Qed.
Lemma run_space_vfs {B} a (m : stm Mm.space B) e : Kernel.k_vfs (Kernel.run_space a m e).2 = Kernel.k_vfs e.
Proof. unfold Kernel.run_space. destruct (Kernel.k_spaces e !! a) as [[i rc]|]; [|done]. by destruct (m _). Qed.
Lemma add_space_vfs o e : Kernel.k_vfs (Kernel.add_space o e).2 = Kernel.k_vfs e.
Proof. by destruct o. Qed.

Lemma estep_handle e h up s' : fok e → held (files e) h → adjust_pipe_refcount (Vfs.vstore (Kernel.k_vfs e)) h up = Ok s' →
  let e' := Kernel.with_vfs (Vfs.set_vstore s' (Kernel.k_vfs e)) e in fok e' ∧ fle e e'.
Proof.
  intros [Hwf _] Hh%held_handle Hs. destruct (VfsInv.adjust_refcount_ok can_reserve _ h up s' Hwf Hh Hs) as [Hwf' Hg].
  split; [|exact Hg]. split; [exact Hwf'|by intros n []].
Qed.
Lemma clone_step e h : held (files e) h → fok e → fok (handle_clone h e) ∧ fle e (handle_clone h e).
Proof.
  intros Hh He. simpl. unfold Kernel.on_store, clone_handle.
  destruct (adjust_pipe_refcount _ h true) as [s'| | |] eqn:Hs; simpl; [by eapply estep_handle|split; [done|reflexivity]..].
Qed.
Lemma drop_step e h : held (files e) h → fok e → fok (handle_drop h e) ∧ fle e (handle_drop h e).
Proof.
  intros Hh He. simpl. unfold Kernel.on_store, drop_handle.
  destruct (adjust_pipe_refcount _ h false) as [s'| | |] eqn:Hs; simpl; [by eapply estep_handle|split; [done|reflexivity]..].
Qed.
Lemma fold_step e (f : FileHandle → kenv → kenv) l :
  (∀ e h, held (files e) h → fok e → fok (f h e) ∧ fle e (f h e)) →
  held (files e) l → fok e → let e' := foldl (fun e h => f h e) e l in fok e' ∧ fle e e'.
Proof.
  intros Hf. revert e. induction l as [|h l IH]; intros e Hl He; simpl; [split; [done|reflexivity]|].
  apply held_cons in Hl as [Hh Hl]. destruct (Hf e h Hh He) as [He' Hg].
  destruct (IH _ (held_later _ _ _ Hg Hl) He') as [? ?]. split; [done|by etrans].
Qed.
Lemma fk_step_env e (f : kenv → kenv) : (fok e → fok (f e) ∧ fle e (f e)) → fk e (modify f).
Proof. intros Hf. apply keeps_modify. intros He. destruct (Hf He). split_and!; [done|done|by intros n []]. Qed.
Lemma fk_clone e h : held (files e) h → fk e (modify (handle_clone h)).
Proof. intros Hh. apply fk_step_env. by apply clone_step. Qed.
Lemma fk_drop e h : held (files e) h → fk e (modify (handle_drop h)).
Proof. intros Hh. apply fk_step_env. by apply drop_step. Qed.
Lemma fk_clone_fds e (m : gmap Z FileHandle) : held (files e) m → fk e (modify (clone_fds m)).
Proof. intros Hm. apply fk_step_env, fold_step; [apply clone_step|by apply held_values]. Qed.
Lemma fk_drop_fds e (m : gmap Z FileHandle) : held (files e) m → fk e (modify (drop_fds m)).
Proof. intros Hm. apply fk_step_env, fold_step; [apply drop_step|by apply held_values]. Qed.

Lemma space_share_vfs a e : Kernel.k_vfs (Kernel.share_space a e) = Kernel.k_vfs e.
Proof. unfold Kernel.share_space. by destruct (Kernel.k_spaces e !! a) as [[]|]. Qed.
Lemma space_drop_vfs a e : Kernel.k_vfs (Kernel.drop_space a e) = Kernel.k_vfs e.
Proof. unfold Kernel.drop_space. destruct (Kernel.k_spaces e !! a) as [[]|]; [|done]. by destruct (_ =? _). Qed.
Lemma space_clear_vfs a e : Kernel.k_vfs (space_clear a e) = Kernel.k_vfs e.
Proof. unfold space_clear; cbn [Kernel.kernel_env]. by destruct (Kernel.k_spaces e !! a) as [[]|]. Qed.
Lemma clone_private_vfs a e : Kernel.k_vfs (space_clone_private a e).2 = Kernel.k_vfs e.
Proof.
  unfold space_clone_private; cbn [Kernel.kernel_env]. destruct (Kernel.k_spaces e !! a) as [[]|]; [apply add_space_vfs|done].
Qed.
Lemma clear_spaces_vfs (ps : list process) e : Kernel.k_vfs (clear_spaces ps e) = Kernel.k_vfs e.
Proof.
  unfold clear_spaces. revert e. induction ps as [|p ps IH]; intros e; cbn [foldl]; [done|]. rewrite IH. apply space_clear_vfs.
Qed.
Lemma fk_space_modify e (f : kenv → kenv) : Kernel.k_vfs (f e) = Kernel.k_vfs e → fk e (modify f).
Proof. intros Hf. apply fk_mem; [exact Hf|intros b; apply held_nothing]. Qed.
Lemma fk_new_user e : fk e space_new_user.
Proof. apply fk_mem; [apply add_space_vfs|intros b; apply held_nothing]. Qed.
Lemma fk_clone_private e a : fk e (space_clone_private a).
Proof. apply fk_mem; [apply clone_private_vfs|intros b; apply held_nothing]. Qed.
Lemma fk_write e a addr bs : fk e (space_write a addr bs).
Proof. apply fk_mem; [apply run_space_vfs|intros b; apply held_nothing]. Qed.
Lemma fk_ignore {B} e (m : stm kenv B) : Kernel.k_vfs (m e).2 = Kernel.k_vfs e → fk e (Proc.ignore m).
Proof.
  intros Hm. apply fk_mem; [|intros b; apply held_nothing]. unfold Proc.ignore. destruct (m e) as [[]]; done.
Qed.
Lemma fk_try_write e (p : process) addr bs : fk e (try_write p addr bs).
Proof.
  apply fk_mem; [|intros b; apply held_nothing]. unfold try_write.
  pose proof (run_space_vfs (address_space p) (Mm.write_bytes addr bs) e) as Hr.
  change (space_write (address_space p) addr bs e) with (Kernel.run_space (address_space p) (Mm.write_bytes addr bs) e).
  destruct (Kernel.run_space _ _ e) as [[]]; exact Hr.
Qed.

End Env.

Ltac env_prim := lazymatch goal with
  | |- fk _ space_new_user => apply fk_new_user
  | |- fk _ (space_clone_private _) => apply fk_clone_private
  | |- fk _ (space_write _ _ _) => apply fk_write
  | |- fk _ (try_write _ _ _) => apply fk_try_write
  | |- fk _ (modify (clone_fds _)) => apply fk_clone_fds; held_tac
  | |- fk _ (modify (drop_fds _)) => apply fk_drop_fds; held_tac
  | |- fk _ (modify (space_share _)) => apply fk_space_modify, space_share_vfs
  | |- fk _ (modify (space_drop _)) => apply fk_space_modify, space_drop_vfs
  | |- fk _ (modify (space_clear _)) => apply fk_space_modify, space_clear_vfs
  | |- fk _ (modify (clear_spaces _)) => apply fk_space_modify, clear_spaces_vfs
  | |- fk _ (Proc.ignore (space_map_fixed _ _ _ _ _)) => apply fk_ignore, run_space_vfs
  end.
Ltac fk_env := repeat fk_with ltac:(idtac; env_prim).

Section Images.
Context {M : Type} `{!Ext4Ops M} `{!HalMemory} (can_reserve : Z → bool).
#[local] Hint Extern 0 (KernelEnv _ _ _) => exact (Kernel.kernel_env can_reserve) : typeclass_instances.
Abbreviation kenv := (Kernel.kenv M).
Abbreviation process := (Process FileHandle Z).
Implicit Types (e : kenv).

Lemma held_no_fds (v : Vfs.KernelVfs M) (p : process) : fds p = ∅ → held v p.
Proof. intros Hp n (i & h & Hi & _). rewrite Hp in Hi. by rewrite lookup_empty in Hi. Qed.
Lemma fk_process_new e n k par entry : fk e (Process_new n k par entry).
Proof. unfold Process_new. fk_env. apply fk_ret. by apply held_no_fds. Qed.
Lemma fk_reset_image e entry sp (p : process) : held (files e) p → fk e (reset_image entry sp p).
Proof. intros Hp. unfold reset_image. fk_env. Qed.
Lemma fk_fork_from e (p : process) k : held (files e) p → fk e (fork_from p k).
Proof. intros Hp. unfold fork_from. fk_env. Qed.
Lemma fk_fork_shared e (p : process) k : held (files e) p → fk e (fork_from_shared p k).
Proof. intros Hp. unfold fork_from_shared. fk_env. Qed.
Lemma fk_clone_thread e (p : process) k st tls : held (files e) p → fk e (clone_thread_from p k st tls).
Proof.
  intros Hp. unfold clone_thread_from. fk_env. apply fk_mem; [|intros b; apply held_nothing].
  match goal with |- context [space_map_anonymous ?a ?n ?pr ?x] =>
    pose proof (run_space_vfs a (Mm.map_anonymous can_reserve n pr) x) as Hr;
    change (space_map_anonymous a n pr x) with (Kernel.run_space a (Mm.map_anonymous can_reserve n pr) x) end.
  destruct (Kernel.run_space _ _ _) as [[]]; exact Hr.
Qed.
Lemma fk_mark_owner e (p : process) addr i : fk e (maybe_mark_owner_died p addr i).
Proof.
  unfold maybe_mark_owner_died. intros He.
  assert (∀ o, o = (Ok tt : outcome unit) ∨ o = Panic ∨ o = Diverge → fok e ∧ fle e e ∧ ∀ b, o = Ok b → held (files e) b) as Hsame.
  { intros o _. split_and!; [done|reflexivity|]. intros b _. apply held_nothing. }
  destruct (read_user_u32 p addr e); try (apply Hsame; naive_solver). destruct (_ =? _); [|apply Hsame; naive_solver].
  by apply fk_try_write.
Qed.
Lemma fk_robust_entry e (p : process) node off addrs : fk e (robust_entry p node off addrs).
Proof. unfold robust_entry. repeat fk_with ltac:(idtac; apply fk_mark_owner). Qed.
Lemma fk_robust_scan e n (p : process) hd off node seen addrs : fk e (robust_scan n p hd off node seen addrs).
Proof.
  revert e node seen addrs. induction n as [|n IH]; intros e node seen addrs; cbn [robust_scan]; [fk_env|].
  repeat fk_with ltac:(idtac; first [apply IH|apply fk_robust_entry]).
Qed.
Lemma fk_robust e (p : process) : fk e (collect_robust_futex_addrs_for_exit p).
Proof.
  unfold collect_robust_futex_addrs_for_exit. repeat fk_with ltac:(idtac; first [apply fk_robust_scan|apply fk_robust_entry]).
Qed.
Lemma drop_process_step e (p : process) : held (files e) p → fok e → fok (drop_process p e) ∧ fle e (drop_process p e).
Proof.
  intros Hp He. unfold drop_process. destruct (fold_step e (handle_drop) (values (fds p)) (drop_step can_reserve) (held_values _ _ Hp) He) as [He' Hg].
  fold (drop_fds (fds p) e) in He', Hg. unfold fok, fle, files, files_env in *.
  change (space_drop (address_space p)) with (Kernel.drop_space (M := M) (address_space p)). rewrite space_drop_vfs.
  split; [|done]. destruct He' as [? _]. split; [done|by intros n []].
Qed.
End Images.

(** ** The process table *)
Section Table.
Context {M : Type} `{!Ext4Ops M} `{!HalMemory} (can_reserve : Z → bool).
#[local] Hint Extern 0 (KernelEnv _ _ _) => exact (Kernel.kernel_env can_reserve) : typeclass_instances.
Abbreviation ptable := (table FileHandle Z (Kernel.kenv M)).
Abbreviation process := (Process FileHandle Z).
Implicit Types (t : ptable) (p : process).

Lemma fk_on_env {B} `{!Carries B} t (m : stm (Kernel.kenv M) B) : fk (env t) m → fk t (on_env m).
Proof.
  intros Hm [Hwf Ht]. destruct Hm as (Hok & Hg & Hb); [split; [exact Hwf|by intros n []]|].
  unfold on_env. destruct (m (env t)) as [r e]. simpl in *. split_and!; [|exact Hg|exact Hb].
  split; [exact (proj1 Hok)|]. exact (held_later (env t) e (processes t) Hg Ht).
Qed.
Lemma no_more_processes t (ps : gmap Z process) : (∀ n, carries ps n → carries (processes t) n) → no_more t (with_processes ps t).
Proof. intros Hps. by split. Qed.
Definition sub_fds (f : process → process) : Prop := ∀ p n, carries (f p) n → carries p n.
Lemma no_more_fmap t f : sub_fds f → no_more t (with_processes (f <$> processes t) t).
Proof.
  intros Hf. apply no_more_processes. intros n (i & q & Hq & Hn). apply lookup_fmap_Some in Hq as (p & <- & Hp).
  exists i, p. split; [done|]. by apply Hf.
Qed.
Lemma carries_alter (m : gmap Z process) f i n : sub_fds f → carries (alter f i m) n → carries m n.
Proof.
  intros Hf (j & q & Hq & Hn). apply lookup_alter_Some in Hq as [(<- & p & Hp & ->)|[_ Hp]]; [|by exists j, q].
  exists i, p. split; [done|]. by apply Hf.
Qed.
Lemma no_more_alter t f i : sub_fds f → no_more t (with_processes (alter f i (processes t)) t).
Proof. intros Hf. apply no_more_processes. intros n. by apply carries_alter. Qed.
Lemma fk_put_process t i p : held (files t) p → fk t (put_process i p).
Proof.
  intros Hp. apply keeps_modify. intros [Hwf Ht]. split_and!; [|by apply fle_same|by intros n []]. split; [done|].
  exact (held_insert _ (processes t) i p Hp Ht).
Qed.
Lemma fk_update_current t f : sub_fds f → fk t (update_current f).
Proof.
  intros Hf. unfold update_current. do 2 fk_with idtac. apply fk_put_process. intros n Hn%Hf. eauto.
Qed.
Lemma fk_update_group t g f : sub_fds f → fk t (update_group g f).
Proof. intros Hf. apply fk_modify. apply (no_more_fmap t (fun p => if tgid p =? g then f p else p)). intros p n. destruct (_ =? _); auto. Qed.
Lemma fk_forget t k : fk t (forget_waiter k).
Proof. apply fk_modify. by split. Qed.
Lemma fk_remove t k : fk t (remove_process k).
Proof.
  apply keeps_modify. intros [Hwf Ht]. destruct (processes t !! k) as [p|] eqn:Hp; [|split_and!; [by split|reflexivity|by intros n []]].
  assert (held (files (env t)) p) as Hh by exact (held_lookup _ (processes t) _ _ Ht Hp).
  destruct (drop_process_step can_reserve (env t) p Hh) as [[Hwf' _] Hg]; [split; [exact Hwf|by intros n []]|].
  split_and!; [|exact Hg|by intros n []]. split; [exact Hwf'|]. apply (held_later (env t) _ (delete k (processes t)) Hg).
  apply (held_sub _ (processes t)); [apply delete_subseteq|exact Ht].
Qed.
Lemma fk_for_each {B} t (l : list B) f : (∀ x t', fk t' (f x)) → fk t (for_each l f).
Proof.
  intros Hf. revert t. induction l as [|x l IH]; intros t; cbn [for_each]; [apply fk_ret; held_tac|].
  apply fk_bind; [apply Hf|]. intros _ t' _ _. apply IH.
Qed.

Lemma fk_next_id t : fk t next_id.
Proof. unfold next_id. repeat fk_with ltac:(idtac; apply fk_put; by split). Qed.
End Table.

Ltac sub_tac := intros ?p ?n; repeat case_match; exact (fun x => x).
Ltac table_prim := lazymatch goal with
  | |- fk _ (on_env (Process_new _ _ _ _)) => apply fk_on_env, fk_process_new
  | |- fk _ (on_env (fork_from _ _)) => apply fk_on_env, fk_fork_from; held_tac
  | |- fk _ (on_env (fork_from_shared _ _)) => apply fk_on_env, fk_fork_shared; held_tac
  | |- fk _ (on_env (clone_thread_from _ _ _ _)) => apply fk_on_env, fk_clone_thread; held_tac
  | |- fk _ (on_env (reset_image _ _ _)) => apply fk_on_env, fk_reset_image; held_tac
  | |- fk _ (on_env (collect_robust_futex_addrs_for_exit _)) => apply fk_on_env, fk_robust
  | |- fk _ (on_env _) => apply fk_on_env; env_prim
  | |- fk _ next_id => apply fk_next_id
  | |- fk _ (put_process _ _) => apply fk_put_process; held_tac
  | |- fk _ (update_current _) => apply fk_update_current; sub_tac
  | |- fk _ (update_group _ _) => apply fk_update_group; sub_tac
  | |- fk _ (forget_waiter _) => apply fk_forget
  | |- fk _ (remove_process _) => apply fk_remove
  | |- fk _ (put _) => apply fk_put; by split
  | |- fk _ (modify (fun t => with_env (handle_clone ?h (env t)) t)) => apply (fk_on_env _ (modify (handle_clone h))), fk_clone; held_tac
  | |- fk _ (modify _) => apply fk_modify; cbn beta; repeat case_match; by split
  end.
Ltac fk_tab := repeat fk_with ltac:(idtac; table_prim).

Section Methods.
Context {M : Type} `{!Ext4Ops M} `{!HalMemory} (can_reserve : Z → bool).
#[local] Hint Extern 0 (KernelEnv _ _ _) => exact (Kernel.kernel_env can_reserve) : typeclass_instances.
Abbreviation ptable := (table FileHandle Z (Kernel.kenv M)).
Abbreviation process := (Process FileHandle Z).
Implicit Types (t : ptable) (p : process).

Lemma fk_spawn t n par entry : fk t (spawn n par entry).
Proof. unfold spawn. fk_tab. Qed.
Lemma fk_fork t : fk t (fork_process_from_current).
Proof. unfold fork_process_from_current. fk_tab. Qed.
Lemma fk_fork_shared_cur t : fk t (fork_process_from_current_shared).
Proof. unfold fork_process_from_current_shared. fk_tab. Qed.
Lemma fk_clone_cur t st tls : fk t (clone_thread_from_current st tls).
Proof. unfold clone_thread_from_current. fk_tab. Qed.
Lemma fk_set_sp t k sp : fk t (set_thread_stack_pointer k sp).
Proof. unfold set_thread_stack_pointer. fk_tab. Qed.
Lemma fk_set_vfork t c q : fk t (set_vfork_parent_tid c q).
Proof. unfold set_vfork_parent_tid. fk_tab. Qed.
Lemma fk_set_current t k : fk t (set_current k).
Proof. unfold set_current. fk_tab. Qed.
Lemma fk_duplicate_fd t k fd : fk t (duplicate_fd_from k fd).
Proof. unfold duplicate_fd_from. fk_tab. Qed.
Lemma fk_send_tid t k sg : fk t (send_signal_tid k sg).
Proof. unfold send_signal_tid. fk_tab. Qed.
Lemma fk_send_exact t k sg : fk t (send_signal_exact_tid k sg).
Proof. unfold send_signal_exact_tid. fk_tab. Qed.
Lemma fk_clear_pending t sg : fk t (clear_pending_signal sg).
Proof. unfold clear_pending_signal. fk_tab. Qed.
Lemma fk_sigaction t sg a : fk t (set_sigaction sg a).
Proof. unfold set_sigaction. fk_tab. Qed.
Lemma fk_sigmask t m : fk t (set_signal_mask m).
Proof. unfold set_signal_mask. fk_tab. Qed.
Lemma fk_sigaltstack t st : fk t (set_sigaltstack st).
Proof. unfold set_sigaltstack. fk_tab. Qed.
Lemma fk_clear_child t a : fk t (set_clear_child_tid a).
Proof. unfold set_clear_child_tid. fk_tab. Qed.
Lemma fk_tid_address t a : fk t (set_tid_address a).
Proof. unfold set_tid_address. fk_tab. Qed.
Lemma fk_robust_list t a l : fk t (set_robust_list a l).
Proof. unfold set_robust_list. fk_tab. Qed.
Lemma fk_setsid t : fk t (setsid_current).
Proof. unfold setsid_current. fk_tab. Qed.
Lemma fk_setuid t u : fk t (setuid_current u).
Proof. unfold setuid_current. fk_tab. Qed.
Lemma fk_setgid t u : fk t (setgid_current u).
Proof. unfold setgid_current. fk_tab. Qed.
Lemma fk_setresuid t r u : fk t (setresuid_current r u).
Proof. unfold setresuid_current, opt_set. fk_tab. Qed.
Lemma fk_setresgid t r u : fk t (setresgid_current r u).
Proof. unfold setresgid_current, opt_set. fk_tab. Qed.
Lemma fk_setgroups t gs : fk t (setgroups_current gs).
Proof. unfold setgroups_current. fk_tab. Qed.
Lemma fk_umask t m : fk t (umask_current m).
Proof. unfold umask_current. fk_tab. Qed.
Lemma fk_itimer t d i : fk t (set_itimer_real_current d i).
Proof. unfold set_itimer_real_current. fk_tab. Qed.
Lemma fk_consume t g n : fk t (consume_itimer_real_expiry g n).
Proof. unfold consume_itimer_real_expiry. fk_tab. Qed.
Lemma fk_send_signal t k sg : fk t (send_signal k sg).
Proof. unfold send_signal. repeat fk_with ltac:(idtac; apply fk_send_tid). Qed.
Lemma fk_broadcast t sel sg : fk t (broadcast sel sg).
Proof.
  unfold broadcast. repeat fk_with ltac:(idtac; lazymatch goal with |- fk _ (put _) => idtac end; apply fk_put, no_more_processes).
  generalize (z :: l) as ks. intros ks n. generalize (processes t) as ps. induction ks as [|k ks IH]; intros ps; cbn [foldl]; [done|].
  intros Hn%IH. revert Hn. apply carries_alter. sub_tac.
Qed.
Lemma fk_dequeue t : fk t dequeue_unmasked_signal.
Proof. unfold dequeue_unmasked_signal. repeat fk_with ltac:(idtac; apply fk_clear_pending). Qed.
Lemma fk_release_vfork t : fk t release_current_vfork_parent.
Proof.
  unfold release_current_vfork_parent. do 2 fk_with idtac. cbn [release_vfork_parent_for_tgid].
  apply fk_bind; [|intros; apply fk_ret; held_tac]. apply fk_put, no_more_fmap. sub_tac.
Qed.
Lemma fk_setpgid t k g : fk t (setpgid k g).
Proof.
  unfold setpgid. repeat fk_with ltac:(idtac; lazymatch goal with |- fk _ (modify _) => apply fk_modify, no_more_alter; sub_tac end).
Qed.
Lemma fk_notify t par : fk t (notify_parent par).
Proof.
  unfold notify_parent. destruct par as [g|]; [|fk_tab]. intros Hs. destruct (fk_send_signal t g SIGCHLD Hs) as (Hok & Hg & _).
  destruct (send_signal g SIGCHLD t) as [[]]; split_and!; try done; intros b _; apply held_nothing.
Qed.
Lemma held_exit v code p : held (M := M) v (exit_process code p).
Proof. by apply held_no_fds. Qed.
Lemma fk_exit_member t code k acc : fk t (exit_member code k acc).
Proof.
  unfold exit_member. repeat fk_with ltac:(idtac; first [apply fk_put_process; apply held_exit|table_prim]).
Qed.
Lemma fk_exit_members t code ks acc : fk t (exit_members code ks acc).
Proof.
  revert t acc. induction ks as [|k ks IH]; intros t acc; cbn [exit_members]; [fk_tab|].
  repeat fk_with ltac:(idtac; first [apply fk_exit_member|apply IH]).
Qed.
Lemma fk_exit_group t code : fk t (exit_current_process_group code).
Proof. unfold exit_current_process_group. repeat fk_with ltac:(idtac; first [apply fk_exit_members|apply fk_notify]). Qed.
Lemma fk_exit_thread t code : fk t (exit_current_thread code).
Proof.
  unfold exit_current_thread. repeat fk_with ltac:(idtac; lazymatch goal with
    | |- fk _ (put_process _ (exit_process _ _)) => apply fk_put_process; apply held_exit
    | |- fk _ (notify_parent _) => apply fk_notify
    | _ => table_prim end).
Qed.
Lemma fk_force_exit_group t g code : fk t (force_exit_group g code).
Proof. unfold force_exit_group. repeat fk_with ltac:(idtac; first [apply fk_exit_members|apply fk_notify]). Qed.
Lemma fk_force_exit_each t gs code : fk t (force_exit_each gs code).
Proof.
  revert t. induction gs as [|g gs IH]; intros t; cbn [force_exit_each]; [fk_tab|].
  repeat fk_with ltac:(idtac; first [apply fk_force_exit_group|apply IH]).
Qed.
Lemma fk_force_exit_subtree t g code : fk t (force_exit_subtree g code).
Proof. unfold force_exit_subtree. repeat fk_with ltac:(idtac; apply fk_force_exit_each). Qed.
Lemma fk_remove_all t ks : fk t (for_each ks (fun k => _ ← remove_process k; forget_waiter k)).
Proof. apply fk_for_each. intros k t'. fk_tab. Qed.
Lemma fk_reap t g : fk t (reap_thread_group g).
Proof.
  unfold reap_thread_group. repeat fk_with ltac:(idtac; lazymatch goal with
    | |- fk _ (modify _) => apply fk_modify, no_more_fmap; sub_tac
    | _ => apply fk_remove_all end).
Qed.
Lemma fk_wait_child t g sel : fk t (wait_child g sel).
Proof. unfold wait_child. repeat fk_with ltac:(idtac; apply fk_reap). Qed.
Lemma fk_clear_futex t i : fk t (modify (clear_futex_wait_state i)).
Proof.
  apply fk_modify. unfold clear_futex_wait_state. destruct (processes t !! i) as [p|] eqn:Hp; [|by split].
  assert (no_more t (with_processes (<[i := set_futex_wait None None 0 p]> (processes t)) t)) as [Hf Hc].
  { apply no_more_processes. intros n (j & q & [[<- <-]|[_ Hq]]%lookup_insert_Some & Hn); [by exists i, p|by exists j, q]. }
  case_match; by split.
Qed.
Lemma fk_exec t entry sp : fk t (execve_current_image entry sp).
Proof.
  unfold execve_current_image. repeat fk_with ltac:(idtac; first [apply fk_remove_all|table_prim]).
  - apply fk_on_env, fk_drop_fds. eapply held_sub; [apply map_filter_subseteq|eassumption].
  - apply fk_on_env, fk_reset_image. match goal with H : held _ ?p |- held _ (set_fds ?m (set_space _ ?p)) =>
      apply (held_sub _ (fds p) m); [apply map_filter_subseteq|exact H] end.
Qed.
End Methods.
End FileInv.
