(* ===== verification/FileRun.v ===== *)
(** * Open files through the system calls

    The judgement of [FileInv] on the kernel: each system call, trap, signal
    and exit keeps the name space well formed and every descriptor of every
    process on an allocated node. *)

From S2P Require Import Prelude Task AddrSpace Elf Path FileObject Vfs VfsInv Process KernelEnv ProcTable Locks Abi Keys Sys SysFile SysProc SysMem SysNet SysExec SysDispatch KernelCore CoreInv LoongCore Layout FileInv.

Open Scope string_scope.
Open Scope list_scope.
Open Scope Z_scope.

Module FileRun.
Import Obj Proc PTable Sys FileInv.

(** ** Steps of the kernel *)
Section Steps.
Context {M : Type} `{!Ext4Ops M} `{!HalMemory} (can_reserve : Z → bool).
#[local] Hint Extern 0 (KernelEnv _ _ _) => exact (Kernel.kernel_env can_reserve) : typeclass_instances.
Abbreviation kernel := (kernel M).
Abbreviation kstm := (stm kernel).
Abbreviation kenv := (Kernel.kenv M).
Abbreviation vfs := (Vfs.KernelVfs M).
Abbreviation ptable := (table FileHandle Z kenv).
Abbreviation process := (Process FileHandle Z).
Implicit Types (k : kernel) (p : process) (h : FileHandle).

Lemma fk_on_table {B} `{!Carries B} k (m : stm ptable B) : fk (k_table k) m → fk k (on_table m).
Proof.
  intros Hm Hk. destruct (Hm Hk) as (Hok & Hg & Hb). unfold on_table. destruct (m (k_table k)) as [r t]. simpl in *. by split_and!.
Qed.
Lemma fk_on_kenv {B} `{!Carries B} k (m : stm kenv B) : fk (env (k_table k)) m → fk k (on_kenv m).
Proof. intros Hm. by apply fk_on_table, fk_on_env. Qed.
Lemma fk_on_vfs {B} `{!Carries B} k (m : stm vfs B) : fk (Kernel.k_vfs (env (k_table k))) m → fk k (on_vfs m).
Proof.
  intros Hm. apply fk_on_kenv. intros [Hwf He]. destruct Hm as (Hok & Hg & Hb); [split; [exact Hwf|by intros n []]|].
  destruct (m _) as [r v]. simpl in *. split_and!; [|exact Hg|exact Hb]. split; [exact (proj1 Hok)|by intros n []].
Qed.

(** A step that leaves the table alone. *)
Lemma fk_same {B} `{!Carries B} `{!Bare B} k (m : kstm B) : k_table (m k).2 = k_table k → fk k m.
Proof.
  intros Hm Hk. unfold fok, fle, held, files, files_kernel, carries, carries_kernel in *. rewrite Hm.
  split_and!; [by apply Hk|by apply Hk|reflexivity|]. intros b _ n Hn. destruct (bare b n Hn).
Qed.
Lemma fk_on_sched {B} `{!Carries B} `{!Bare B} k (f : Sched.Scheduler → B * Sched.Scheduler) : fk k (on_sched f).
Proof. apply fk_same. unfold on_sched. by destruct (f _). Qed.
Lemma fk_clear_locks k f : fk k (clear_locks f).
Proof. apply fk_same. unfold clear_locks. by destruct (f _). Qed.
Lemma fk_on_keys {B} `{!Carries B} `{!Bare B} k (m : stm Keys.KeyringState B) : fk k (on_keys m).
Proof. apply fk_same. unfold on_keys. by destruct (m _). Qed.
Lemma fk_spawn_task k nm i g : fk k (SysProc.spawn_task nm i g).
Proof. apply fk_same. unfold SysProc.spawn_task. by destruct (Sched.spawn _ _ _ _) as [[]| | |]. Qed.
Lemma fk_get_vfs k : fk k get_vfs.
Proof. by apply fk_same. Qed.
Lemma fk_ask_vfs {B} `{!Carries B} `{!Bare B} k (f : vfs → outcome B) : fk k (ask_vfs f).
Proof. by apply fk_same. Qed.

(** What is read from the table is held. *)
Lemma fk_ask_table {B} `{!Carries B} k (f : ptable → outcome B) :
  (held (files k) (k_table k) → ∀ b, f (k_table k) = Ok b → held (files k) b) → fk k (ask_table f).
Proof. intros Hf Hk. split_and!; [done|reflexivity|]. intros b. apply Hf, Hk. Qed.
Lemma fk_ask {B} `{!Carries B} `{!Bare B} k (f : ptable → outcome B) : fk k (ask_table f).
Proof. apply fk_ask_table. intros _ b _. by apply held_bare. Qed.
Lemma fk_ask_all k : fk k (ask_table Ok).
Proof. apply fk_ask_table. by intros Ht b [= <-]. Qed.
Lemma fk_cur k : fk k cur.
Proof. apply fk_ask_table. intros Ht p Hp. by eapply held_current. Qed.
Lemma fk_fd_handle k fd : fk k (fd_handle fd).
Proof. unfold fd_handle. apply fk_bind; [apply fk_cur|]. intros p k' _ Hp. apply fk_lift. intros h Hh. by eapply held_fd. Qed.
Lemma fk_with_reader {B} `{!Carries B} `{!Bare B} k f : fk k (with_reader (B := B) can_reserve f).
Proof. unfold with_reader. apply fk_bind; [apply fk_cur|]. intros p k' _ _. apply fk_ask. Qed.

(** Error handling. *)
Lemma fk_attempt {B} `{!Carries B} k (m : kstm B) : fk k m → fk k (attempt m).
Proof.
  intros Hm Hk. destruct (Hm Hk) as (Hok & Hg & Hb). unfold attempt.
  destruct (m k) as [[b|e| |] k1]; simpl in *; split_and!; try done; intros x [= <-]; [by apply (Hb b)|by intros n []].
Qed.
Lemma fk_err_as {B} `{!Carries B} k code (m : kstm B) : fk k m → fk k (err_as code m).
Proof.
  intros Hm Hk. destruct (Hm Hk) as (Hok & Hg & Hb). unfold err_as. destruct (m k) as [[b|e| |] k1]; by split_and!.
Qed.
Lemma fk_expect {B} `{!Carries B} k (m : kstm B) : fk k m → fk k (KernelCore.expect m).
Proof.
  intros Hm Hk. destruct (Hm Hk) as (Hok & Hg & Hb). unfold KernelCore.expect. destruct (m k) as [[b|e| |] k1]; by split_and!.
Qed.
Lemma fk_drop_ref k h : held (files k) h → fk k (drop_ref can_reserve h).
Proof. intros Hh. by apply fk_on_kenv, fk_drop. Qed.
Lemma fk_clone_ref k h : held (files k) h → fk k (clone_ref can_reserve h).
Proof. intros Hh. by apply fk_on_kenv, fk_clone. Qed.
Lemma fk_owning {B} `{!Carries B} k h (m : kstm B) : held (files k) h → fk k m → fk k (owning can_reserve h m).
Proof.
  intros Hh Hm Hk. destruct (Hm Hk) as (Hok & Hg & Hb). unfold owning. destruct (m k) as [r k1]. simpl in *.
  destruct (fk_drop_ref k1 h (held_later _ _ _ Hg Hh) Hok) as (Hok2 & Hg2 & _). split_and!; [exact Hok2|by etrans|].
  intros b Hr. exact (held_later _ _ _ Hg2 (Hb b Hr)).
Qed.
Lemma fk_each {B} k (l : list B) (f : B → kstm unit) : (∀ x k', fk k' (f x)) → fk k (each l f).
Proof.
  intros Hf. revert k. induction l as [|x l IH]; intros k; cbn [each]; [apply fk_ret; held_tac|].
  apply fk_bind; [apply Hf|]. intros _ k' _ _. apply IH.
Qed.
(** *** The current process *)
Lemma fk_on_cur {B} `{!Carries B} k (m : stm (process * kenv) B) :
  (∀ p, held (files k) p → fk (p, env (k_table k)) m) → fk k (on_cur m).
Proof.
  intros Hm. apply fk_on_table. intros [Hwf Ht]. destruct (current (k_table k)) as [p| | |] eqn:Hp; [|split_and!; [done|reflexivity|done]..].
  pose proof (held_current _ _ _ Ht Hp) as Hh. destruct (Hm p Hh) as ((Hwf' & Hp') & Hg & Hb).
  { split; [exact Hwf|]. intros n [Hn|[]]. by apply Hh. }
  destruct (m _) as [r [p' e]]. simpl in *. split_and!; [|exact Hg|exact Hb]. split; [exact Hwf'|].
  apply (held_insert _ (processes (k_table k))).
  - intros n Hn. apply Hp'. by left.
  - exact (held_later (env (k_table k)) e (processes (k_table k)) Hg Ht).
Qed.
Lemma fk_on_proc {B} `{!Carries B} `{!Bare B} k (m : stm process B) :
  (∀ p, held (files k) p → held (files k) (m p).2) → fk k (on_proc m).
Proof.
  intros Hm. apply fk_on_cur. intros p Hp [Hwf _]. specialize (Hm p Hp). destruct (m p) as [r p']. simpl in *.
  split_and!; [|by apply fle_same|intros b _; by apply held_bare]. split; [exact Hwf|]. intros n [Hn|[]]. by apply Hm.
Qed.
Lemma fk_close_fd k fd : fk k (on_cur (close_fd fd)).
Proof.
  apply fk_on_cur. intros p Hp [Hwf Hh]. simpl. destruct (fds p !! fd) as [h|] eqn:Hf; [|split_and!; [done|reflexivity|by intros b]].
  destruct (drop_step can_reserve (env (k_table k)) h) as [[Hwf' _] Hg]; [exact (held_lookup _ (fds p) _ _ Hp Hf)|split; [exact Hwf|by intros n []]|].
  split_and!; [|exact Hg|intros b _; apply held_nothing]. split; [exact Hwf'|]. intros n [Hn|[]].
  refine (held_later (env (k_table k)) _ (delete fd (fds p)) Hg _ n Hn). eapply held_sub; [apply delete_subseteq|exact Hp].
Qed.
Lemma fk_update_cur k f : sub_fds f → fk k (update_cur f).
Proof. intros Hf. by apply fk_on_table, fk_update_current. Qed.

(** Methods on the descriptors of a process. *)
Lemma held_insert_fd v p fd h : held (M := M) v h → held v p → held v (set_fds (<[fd := h]> (fds p)) p).
Proof. intros Hh Hp. by apply (held_insert v (fds p)). Qed.
Lemma held_alter v (m : gmap Z FileHandle) f fd : (∀ h, h_node (f h) = h_node h) → held (M := M) v m → held v (alter f fd m).
Proof.
  intros Hf Hm n (i & h & Hi & Hn). apply Hm. apply lookup_alter_Some in Hi as [(<- & h0 & H0 & ->)|[_ Hi]]; [|by exists i, h].
  exists fd, h0. split; [done|]. unfold carries, carries_handle in *. by rewrite <- Hf.
Qed.
Lemma held_alters v (m : gmap Z FileHandle) f l : (∀ h, h_node (f h) = h_node h) → held (M := M) v m →
  held v (foldl (fun m i => alter f i m) m l).
Proof. intros Hf. revert m. induction l as [|i l IH]; intros m Hm; simpl; [done|]. by apply IH, held_alter. Qed.
Lemma held_add_fd v p h : held (M := M) v h → held v p → held v (add_fd h p).2.
Proof.
  intros Hh Hp. unfold add_fd. rewrite stm_bind_eq. cbv beta iota delta [get]. rewrite stm_bind_eq. unfold lift.
  destruct (free_fd _ _ _); [|done..]. by apply (held_insert v (fds p)).
Qed.
Lemma held_sync_from v p fd : held (M := M) v p → held v (sync_fd_offset_from_alias (E := kenv) fd p).2.
Proof.
  intros Hp. unfold sync_fd_offset_from_alias. rewrite stm_bind_eq. cbv beta iota delta [get]. rewrite stm_bind_eq. unfold lift.
  destruct (fd_alias_leader p fd) as [l| | |]; [|done..]. destruct (l =? fd); [done|]. rewrite stm_bind_eq.
  destruct (fd_get p l) as [hl| | |]; [|done..]. rewrite stm_bind_eq. destruct (fd_get p fd); [|done..].
  by apply (held_alter v (fds p)).
Qed.
Lemma held_sync_to v p fd : held (M := M) v p → held v (sync_fd_offset_to_aliases (E := kenv) fd p).2.
Proof.
  intros Hp. unfold sync_fd_offset_to_aliases. rewrite stm_bind_eq. cbv beta iota delta [get]. rewrite stm_bind_eq. unfold lift.
  destruct (fd_alias_leader p fd) as [l| | |]; [|done..]. rewrite stm_bind_eq.
  destruct (fd_get p fd) as [hl| | |]; [|done..]. apply (held_alter v (foldl _ _ _)); [done|]. by apply held_alters.
Qed.
Lemma held_add_from v p fd h : held (M := M) v h → held v p → held v (add_fd_from (E := kenv) fd h p).2.
Proof.
  intros Hh Hp. unfold add_fd_from. rewrite stm_bind_eq. pose proof (held_add_fd v p h Hh Hp) as Ha.
  destruct (add_fd h p) as [[i| | |] q]; [|done..]. cbn [snd] in Ha. rewrite stm_bind_eq. cbv beta iota delta [get].
  rewrite stm_bind_eq. unfold lift. destruct (fd_alias_leader q fd) as [l| | |]; [|done..].
  rewrite stm_bind_eq. cbv beta iota delta [put]. rewrite stm_bind_eq.
  pose proof (held_sync_from v (set_alias (<[i := l]> (fd_alias q)) q) i Ha) as Hs.
  by destruct (sync_fd_offset_from_alias i _) as [[]].
Qed.

(** *** Methods of the name space *)
Lemma fk_vfs {B} `{!Carries B} (v : vfs) (m : stm vfs B) Q :
  keeps VfsInv.wf VfsInv.grows v m Q → (∀ b v', Q b v' → held v' b) → fk v m.
Proof.
  intros Hm HQ [Hwf _]. destruct (Hm Hwf) as (Hwf' & Hg & Hb). split_and!; [|exact Hg|].
  - split; [exact Hwf'|by intros n []].
  - intros b Hr. by apply HQ, Hb.
Qed.
Lemma fk_method {B} `{!Carries B} `{!Bare B} (v : vfs) m : VfsInv.vfs_method can_reserve B m → fk v m.
Proof. intros Hm. eapply fk_vfs; [by apply (VfsInv.method_keeps can_reserve)|]. intros b v' _. by apply held_bare. Qed.
Lemma fk_makes (v : vfs) (m : stm vfs FileHandle) :
  keeps VfsInv.wf VfsInv.grows v m (fun h v' => VfsInv.handle_ok v' h) → fk v m.
Proof. intros Hm. eapply fk_vfs; [exact Hm|]. intros h v' Hh. by apply held_handle. Qed.
Lemma fk_makes_two (v : vfs) (m : stm vfs (FileHandle * FileHandle)) :
  keeps VfsInv.wf VfsInv.grows v m (fun '(a, b) v' => VfsInv.handle_ok v' a ∧ VfsInv.handle_ok v' b) → fk v m.
Proof. intros Hm. eapply fk_vfs; [exact Hm|]. intros [a b] v' [??]. apply held_pair. split; by apply held_handle. Qed.
Lemma fk_console (v : vfs) bs : fk v (modify (fun v => Vfs.set_vstore (write_console_bytes (Vfs.vstore v) bs) v)).
Proof.
  apply keeps_modify. intros [Hwf _]. destruct (VfsInv.wf_set_vstore v (write_console_bytes (Vfs.vstore v) bs) Hwf) as [? ?]; [|done..|].
  - apply Hwf.
  - split_and!; [|done|by intros n []]. split; [done|by intros n []].
Qed.
Lemma fk_on_fd {B} `{!Carries B} `{!Bare B} k fd m : VfsInv.handle_method can_reserve B m → fk k (on_fd fd m).
Proof.
  intros Hm. apply fk_on_cur. intros p Hp [Hwf _]. destruct (fd_get p fd) as [h| | |] eqn:Hf;
    [|split_and!; [split; [done|intros n [Hn|[]]; by apply Hp]|reflexivity|done]..].
  pose proof (held_fd _ _ _ _ Hp Hf) as Hh. destruct (VfsInv.handle_method_keeps can_reserve _ _ (h, Kernel.k_vfs (env (k_table k))) Hm) as ([Hwf' Hh'] & [Hg Hn] & _).
  { split; [exact Hwf|by apply held_handle]. }
  destruct (m _) as [r [h' v]]. simpl in *. split_and!; [|exact Hg|intros b _; by apply held_bare]. split; [exact Hwf'|].
  intros n [Hx|[]]. revert n Hx. apply (held_insert_fd v p); [by apply held_handle|].
  intros n Hx. by apply Hg, Hp.
Qed.
Lemma fk_on_local {B} `{!Carries B} `{!Bare B} k h m : VfsInv.handle_method can_reserve B m → held (files k) h → fk k (on_local h m).
Proof.
  intros Hm Hh. apply fk_on_kenv. intros [Hwf _]. destruct (VfsInv.handle_method_keeps can_reserve _ _ (h, Kernel.k_vfs (env (k_table k))) Hm) as ([Hwf' Hh'] & [Hg Hn] & _).
  { split; [exact Hwf|by apply held_handle]. }
  destruct (m _) as [r [h' v]]. simpl in *. split_and!; [|exact Hg|].
  - split; [exact Hwf'|by intros n []].
  - intros x Hx. destruct r as [b| | |]; simplify_eq/=. apply held_pair. split; [by apply held_bare|by apply held_handle].
Qed.

(** *** Memory and futexes *)
Lemma fk_on_space {B} `{!Carries B} `{!Bare B} k (m : stm Mm.space B) : fk k (SysMem.on_space m).
Proof.
  unfold SysMem.on_space. apply fk_bind; [apply fk_cur|]. intros p k' _ _. apply fk_on_kenv, fk_mem; [apply run_space_vfs|].
  intros b. by apply held_bare.
Qed.
Lemma fk_write_user k addr bs : fk k (write_user can_reserve addr bs).
Proof. unfold write_user. apply fk_bind; [apply fk_cur|]. intros p k' _ _. apply fk_err_as, fk_on_kenv, fk_write. Qed.
Lemma fk_set_mem k f : fk k (on_kenv (modify (fun e => Kernel.mkEnv (Kernel.k_spaces e) (Kernel.k_next e) (f e) (Kernel.k_vfs e)))).
Proof. by apply fk_on_kenv, fk_space_modify. Qed.
Lemma fk_on_futex {B} `{!Carries B} `{!Bare B} k f : fk k (SysProc.on_futex (M := M) (B := B) f).
Proof.
  apply fk_on_table. intros Ht. destruct (f (futex_waiters (k_table k))) as [b m]. split_and!; [exact Ht|by apply fle_same|].
  intros b' _. by apply held_bare.
Qed.
End Steps.

(** ** Automation *)
(** The methods of the name space, its handles and the process table. *)
Create HintDb methods discriminated.
#[export] Hint Constants Opaque : methods.
#[export] Hint Constructors VfsInv.vfs_method VfsInv.handle_method : methods.
#[export] Hint Resolve fk_spawn fk_fork fk_fork_shared_cur fk_clone_cur fk_set_sp fk_set_vfork fk_set_current fk_duplicate_fd fk_send_tid
  fk_send_exact fk_clear_pending fk_sigaction fk_sigmask fk_sigaltstack fk_clear_child fk_tid_address fk_robust_list fk_setsid fk_setuid
  fk_setgid fk_setresuid fk_setresgid fk_setgroups fk_umask fk_itimer fk_consume fk_send_signal fk_broadcast fk_dequeue fk_release_vfork
  fk_setpgid fk_notify fk_exit_group fk_exit_thread fk_force_exit_group fk_force_exit_subtree fk_wait_child fk_clear_futex fk_exec : methods.

Ltac methods := solve [auto with methods | eauto with methods].
Ltac vfs_prim := lazymatch goal with
  | |- fk _ (Vfs.open _ _ _ _) => apply fk_makes, VfsInv.open_keeps
  | |- fk _ (Vfs.create_eventfd _) => apply fk_makes, VfsInv.create_eventfd_keeps
  | |- fk _ Vfs.create_epoll => apply fk_makes, VfsInv.create_epoll_keeps
  | |- fk _ (Vfs.create_memfd _) => apply fk_makes, VfsInv.create_memfd_keeps
  | |- fk _ (Vfs.create_pidfd _) => apply fk_makes, VfsInv.create_pidfd_keeps
  | |- fk _ (Vfs.create_socket _ _ _) => apply fk_makes, VfsInv.create_socket_keeps
  | |- fk _ (Vfs.accept_socket _) => apply fk_makes, VfsInv.accept_socket_keeps
  | |- fk _ Vfs.create_pipe => apply fk_makes_two, VfsInv.create_pipe_keeps
  | |- fk _ Vfs.create_socketpair => apply fk_makes_two, VfsInv.create_socketpair_keeps
  | |- fk _ (modify _) => apply fk_console
  | |- fk _ _ => first [apply (fk_method (fun _ => true)); [methods] | eapply fk_method; [apply _|methods]]
  end.
(** A method of a process: its descriptors are old ones or the handle given. *)
Ltac proc_prim := lazymatch goal with
  | |- held _ (add_fd _ _).2 => apply held_add_fd; held_tac
  | |- held _ (sync_fd_offset_from_alias _ _).2 => apply held_sync_from; held_tac
  | |- held _ (sync_fd_offset_to_aliases _ _).2 => apply held_sync_to; held_tac
  | |- held _ (add_fd_from _ _ _).2 => apply held_add_from; held_tac
  | |- held _ (modify _ _).2 => cbn [modify snd]; proc_prim
  | |- held _ (set_fds (alter _ _ (fds ?p)) ?p) => apply (held_alter _ (fds p)); [reflexivity|held_tac]
  | |- held _ (set_fds (<[_ := _]> (fds _)) _) => apply held_insert_fd; held_tac
  | |- held _ (mbind _ _ _).2 =>
      repeat (rewrite stm_bind_eq; cbv beta iota delta [get lift put]; try (case_match; [|held_tac..])); held_tac
  | |- held _ (match fd_get _ _ with _ => _ end).2 => case_match; cbn [snd]; [proc_prim|held_tac..]
  end.
(** The calls that have a lemma of their own. *)
Create HintDb calls discriminated.
#[export] Hint Constants Opaque : calls.
#[export] Hint Extern 1 (held _ _) => held_tac : calls.
Ltac head_of t := lazymatch t with ?f _ => head_of f | _ => t end.
Ltac kern_prim := lazymatch goal with
  | |- Bare _ => apply _
  | |- fk _ cur => apply fk_cur
  | |- fk _ (fd_handle _) => apply fk_fd_handle
  | |- fk _ (ask_table Ok) => apply fk_ask_all
  | |- fk _ (ask_table _) => apply fk_ask
  | |- fk _ (ask_vfs _) => apply fk_ask_vfs
  | |- fk _ get_vfs => apply fk_get_vfs
  | |- fk _ (with_reader _ _) => apply fk_with_reader
  | |- fk _ (write_user _ _ _) => apply fk_write_user
  | |- fk _ (attempt _) => apply fk_attempt
  | |- fk _ (err_as _ _) => apply fk_err_as
  | |- fk _ (KernelCore.expect _) => apply fk_expect
  | |- fk _ (owning _ _ _) => apply fk_owning; [held_tac|]
  | |- fk _ (clone_ref _ _) => apply fk_clone_ref; held_tac
  | |- fk _ (drop_ref _ _) => apply fk_drop_ref; held_tac
  | |- fk _ (on_table (match ?x with _ => _ end)) => destruct x
  | |- fk _ (on_table (put_process _ _)) => apply fk_on_table, fk_put_process; held_tac
  | |- fk _ (on_table (send_signal_pgid _ _ _)) => apply fk_on_table, fk_broadcast
  | |- fk _ (on_table (send_signal_all _ _ _)) => apply fk_on_table, fk_broadcast
  | |- fk _ (on_table _) => apply fk_on_table; methods
  | |- fk _ (on_kenv (try_write _ _ _)) => apply fk_on_kenv, fk_try_write
  | |- fk _ (on_kenv (modify _)) => apply fk_set_mem
  | |- fk _ (on_vfs _) => apply fk_on_vfs; vfs_prim
  | |- fk _ (on_cur (close_fd _)) => apply fk_close_fd
  | |- fk _ (on_proc _) => apply fk_on_proc; let p := fresh "p" in let Hp := fresh "Hp" in intros p Hp; proc_prim
  | |- fk _ (on_fd _ _) => first [apply (fk_on_fd (fun _ => true)); [methods] | eapply fk_on_fd; [apply _|methods]]
  | |- fk _ (on_local _ _) => first [apply (fk_on_local (fun _ => true)); [methods|held_tac] | eapply fk_on_local; [apply _|methods|held_tac]]
  | |- fk _ (SysMem.on_space _) => apply fk_on_space
  | |- fk _ (on_sched _) => apply fk_on_sched
  | |- fk _ (clear_locks _) => apply fk_clear_locks
  | |- fk _ (on_keys _) => apply fk_on_keys
  | |- fk _ (SysProc.spawn_task _ _ _) => apply fk_spawn_task
  | |- fk _ (SysProc.on_futex _) => apply fk_on_futex
  | |- fk _ (modify _) => apply fk_same; reflexivity
  | |- fk _ (update_cur _) => apply fk_update_cur; unfold arm_cancellation_persistent; sub_tac
  | |- fk _ (each _ _) => apply fk_each; let x := fresh "x" in let k := fresh "k" in intros x k
  | |- fk _ ?m => first [solve [auto with calls] | let h := head_of m in unfold h; cbv zeta beta]
  end.
Ltac fk_kern := repeat fk_with ltac:(idtac; kern_prim).

(** The same inside an induction; [IH] is tried on every call of the loop. *)
Ltac fk_loop IH := repeat lazymatch goal with
  | |- fk _ (mbind _ _) => fk_with ltac:(idtac; kern_prim)
  | |- fk _ _ => first [apply IH; held_tac | fk_with ltac:(idtac; kern_prim)]
  end.

Section Calls.
Context {M : Type} `{!Ext4Ops M} `{!HalMemory} (can_reserve : Z → bool) (loongarch : bool) (heap : kernel M → Z).
#[local] Hint Extern 0 (KernelEnv _ _ _) => exact (Kernel.kernel_env can_reserve) : typeclass_instances.
Implicit Types (k : kernel M) (h : FileHandle).

(** Loops. *)
Lemma fk_close_each k owner l acc : fk k (SysFile.close_each can_reserve owner l acc).
Proof. revert k acc. induction l as [|fd l IH]; intros k acc; cbn [SysFile.close_each]; fk_loop IH. Qed.
Lemma fk_readv k fd iovs total : fk k (SysFile.readv_loop can_reserve fd iovs total).
Proof. revert k total. induction iovs as [|v iovs IH]; intros k total; cbn [SysFile.readv_loop]; fk_loop IH. Qed.
Lemma fk_writev k fd pipe iovs total : fk k (SysFile.writev_loop can_reserve fd pipe iovs total).
Proof. revert k total. induction iovs as [|v iovs IH]; intros k total; cbn [SysFile.writev_loop]; fk_loop IH. Qed.
Lemma fk_preadv k h iovs total : held (files k) h → fk k (SysFile.preadv_loop can_reserve h iovs total).
Proof. revert k h total. induction iovs as [|v iovs IH]; intros k h total Hh; cbn [SysFile.preadv_loop]; fk_loop IH. Qed.
Lemma fk_pwritev k h iovs total : held (files k) h → fk k (SysFile.pwritev_loop can_reserve h iovs total).
Proof. revert k h total. induction iovs as [|v iovs IH]; intros k h total Hh; cbn [SysFile.pwritev_loop]; fk_loop IH. Qed.
Lemma fk_poll_all k l : fk k (SysNet.poll_all l).
Proof. revert k. induction l as [|x l IH]; intros k; cbn [SysNet.poll_all]; fk_loop IH. Qed.
Lemma fk_ready_members k r l : (∀ k h, fk k (r h)) → fk k (SysNet.ready_members r l).
Proof. intros Hr. revert k. induction l as [|x l IH]; intros k; cbn [SysNet.ready_members]; repeat first [apply Hr|progress fk_loop IH]. Qed.
Lemma fk_ready_watches k room ws : fk k (SysNet.ready_watches room ws).
Proof. revert k room. induction ws as [|x ws IH]; intros k [|room]; cbn [SysNet.ready_watches]; fk_loop IH. Qed.
Lemma fk_accept_loop k n fd : fk k (SysNet.accept_loop n fd).
Proof. revert k. induction n as [|n IH]; intros k; cbn [SysNet.accept_loop]; fk_loop IH. Qed.
Lemma fk_sendmsg k fd iovs total wake : fk k (SysNet.sendmsg_loop can_reserve fd iovs total wake).
Proof. revert k total wake. induction iovs as [|v iovs IH]; intros k total wake; cbn [SysNet.sendmsg_loop]; fk_loop IH. Qed.
Lemma fk_recvmsg k fd iovs total : fk k (SysNet.recvmsg_loop can_reserve fd iovs total).
Proof. revert k total. induction iovs as [|v iovs IH]; intros k total; cbn [SysNet.recvmsg_loop]; fk_loop IH. Qed.
Lemma fk_read_image k n h data : held (files k) h → fk k (SysExec.read_image_loop n h data).
Proof. revert k h data. induction n as [|n IH]; intros k h data Hh; cbn [SysExec.read_image_loop]; fk_loop IH. Qed.
#[local] Hint Resolve fk_read_image : calls.
Lemma fk_load_interp k l : fk k (SysExec.load_interp can_reserve l).
Proof. revert k. induction l as [|c l IH]; intros k; cbn [SysExec.load_interp]; fk_loop IH. Qed.
#[local] Hint Resolve fk_load_interp : calls.
Lemma fk_exec_loop k b n dir display envp st : fk k (SysExec.exec_loop can_reserve loongarch b n dir display envp st).
Proof. revert k st. induction n as [|n IH]; intros k st; cbn [SysExec.exec_loop]; fk_loop IH. Qed.
End Calls.
#[export] Hint Resolve fk_close_each fk_readv fk_writev fk_preadv fk_pwritev fk_poll_all fk_ready_watches fk_accept_loop fk_sendmsg
  fk_recvmsg fk_read_image fk_load_interp fk_exec_loop : calls.
#[export] Hint Extern 1 (fk _ (SysNet.ready_members _ _)) => (apply fk_ready_members; intros; fk_kern) : calls.

Section Runs.
Context {M : Type} `{!Ext4Ops M} `{!HalMemory} (can_reserve : Z → bool) (loongarch : bool) (heap : kernel M → Z)
  (builtin_program : string → option SysExec.BuiltinProgram).
Import SysDispatch.

Lemma all_calls_fk : Forall (fun '(_, f) => ∀ args k, fk k (f args)) (all_calls (M := M) can_reserve loongarch heap builtin_program).
Proof.
  unfold all_calls, fs_domain, io_mpx_domain, ipc_domain, mm_domain, net_domain, resources_domain, signal_domain,
    sys_domain, task_domain, time_domain. cbn [app].
  repeat (apply Forall_cons_2; [intros args k; cbv beta; solve [fk_kern]|]). apply Forall_nil_2.
Qed.
Lemma fk_dispatch k sysno args : fk k (dispatch can_reserve loongarch heap builtin_program sysno args).
Proof.
  intros Hk. unfold dispatch, dispatch_call. destruct (lookup_call _ _) as [f|] eqn:Hf;
    [|split_and!; [done|reflexivity|intros; apply held_nothing]].
  apply CoreInv.lookup_call_in in Hf as [m Hin]. pose proof all_calls_fk as Ha. rewrite Forall_forall in Ha.
  destruct (Ha _ Hin args k Hk) as (Hok & Hg & _). destruct (f args k) as [r k1]. split_and!; [exact Hok|exact Hg|intros; apply held_nothing].
Qed.
End Runs.
#[export] Hint Resolve fk_dispatch : calls.

(** ** The kernel loop *)
Section Machine.
Context {M : Type}.
Implicit Types (c : KernelCore.core M).
Lemma fk_on_kernel {B} `{!Carries B} c (m : stm (kernel M) B) : fk (KernelCore.c_kernel c) m → fk c (KernelCore.on_kernel m).
Proof.
  intros Hm Hc. destruct (Hm Hc) as (Hok & Hg & Hb). unfold KernelCore.on_kernel. destruct (m _) as [r k]. simpl in *. by split_and!.
Qed.
Lemma fk_set_watch c f : fk c (KernelCore.set_watch f).
Proof. by apply fk_modify. Qed.
End Machine.
Ltac core_prim := lazymatch goal with
  | |- fk _ (KernelCore.on_kernel _) => apply fk_on_kernel; fk_kern
  | |- fk _ (KernelCore.set_watch _) => apply fk_set_watch
  end.
Ltac fk_core := repeat fk_with ltac:(idtac; core_prim).

Section Loop.
Context {M : Type} `{!Ext4Ops M} `{!HalMemory} (can_reserve : Z → bool) (loongarch : bool) (heap : kernel M → Z).
Context (builtin_program : string → option SysExec.BuiltinProgram).
Import KernelCore.
Implicit Types (k : kernel M) (c : core M).

Lemma fk_handle_trap k : fk k (handle_trap can_reserve loongarch heap builtin_program).
Proof. fk_kern. Qed.
#[local] Hint Resolve fk_handle_trap : calls.
Lemma fk_run_current k run_user : fk k (run_current_process can_reserve loongarch heap builtin_program run_user).
Proof. fk_kern. Qed.
#[local] Hint Resolve fk_run_current : calls.
Lemma fk_force_exit_others k gs : fk k (force_exit_others can_reserve gs).
Proof. revert k. induction gs as [|g gs IH]; intros k; cbn [force_exit_others]; fk_loop IH. Qed.
#[local] Hint Resolve fk_force_exit_others : calls.
Lemma fk_kill_groups c watched b l : fk c (kill_groups can_reserve watched b l).
Proof.
  revert c. induction l as [|x l IH]; intros c; cbn [kill_groups]; [fk_core|]. apply fk_bind; [unfold kill_group; fk_core|].
  intros a c' _ _. apply fk_bind; [apply IH|]. intros a' c'' _ _. fk_core.
Qed.
Lemma fk_watchdog c : fk c (enforce_oscomp_watchdog can_reserve).
Proof.
  unfold enforce_oscomp_watchdog, scan_groups. repeat fk_with ltac:(idtac; first [core_prim|apply fk_kill_groups]).
Qed.
Lemma fk_round c run_user : fk c (round can_reserve loongarch heap builtin_program run_user).
Proof. unfold round, idle. repeat fk_with ltac:(idtac; first [apply fk_watchdog|core_prim]). Qed.

(** *** Boot *)
Lemma fk_open_consoles k n : fk k (open_consoles can_reserve n).
Proof. revert k. induction n as [|n IH]; intros k; cbn [open_consoles]; fk_loop IH. Qed.
Lemma held_list_to_map v ids (hs : list FileHandle) : held (M := M) v hs → held v (list_to_map (zip ids hs) : gmap Z FileHandle).
Proof.
  intros Hhs n (i & h & Hi%elem_of_list_to_map_2 & Hn). apply Hhs. exists h. split; [|done].
  by apply elem_of_zip_r in Hi.
Qed.
Lemma fk_stdio k (hs : list FileHandle) : held (files k) hs →
  fk k (update_cur (fun p => set_fds (list_to_map (zip (seqZ 0 3) hs) ∪ fds p) p)).
Proof.
  intros Hhs. apply fk_on_table. unfold update_current. do 2 fk_with idtac. apply fk_put_process.
  intros n (i & h & Hi & Hn). apply lookup_union_Some_raw in Hi as [Hi|[_ Hi]].
  - apply (held_list_to_map _ (seqZ 0 3) hs Hhs). by exists i, h.
  - match goal with H : held _ a |- _ => apply H end. by exists i, h.
Qed.
End Loop.
#[export] Hint Resolve fk_force_exit_others fk_open_consoles : calls.
Ltac boot_prim := lazymatch goal with
  | |- fk _ (update_cur (fun p => set_fds (_ ∪ _) _)) => apply fk_stdio; held_tac
  | |- _ => kern_prim
  end.
Lemma fk_bootstrap {M} `{!Ext4Ops M} `{!HalMemory} can_reserve loongarch builtin_program (k : kernel M) :
  fk k (KernelCore.bootstrap can_reserve loongarch builtin_program).
Proof. unfold KernelCore.bootstrap, spawn_init. repeat fk_with ltac:(idtac; boot_prim). Qed.

(** *** loongarch64 *)
Section Loong.
Context {M : Type} `{!Ext4Ops M} `{!HalMemory} (can_reserve : Z → bool) (heap : kernel M → Z).
Context (builtin_program : string → option SysExec.BuiltinProgram) (profile phase : string).
Import KernelCore LoongCore.
Implicit Types (k : kernel M) (c : core M).

Lemma fk_la_handle_trap k : fk k (la_handle_trap can_reserve heap builtin_program).
Proof. fk_kern. Qed.
#[local] Hint Resolve fk_la_handle_trap : calls.
Lemma fk_la_kill_groups c b now l : fk c (la_kill_groups can_reserve b now l).
Proof.
  revert c. induction l as [|[[g s] h] l IH]; intros c; cbn [la_kill_groups]; [fk_core|]. apply fk_bind; [unfold la_kill_group; fk_core|].
  intros a c' _ _. apply fk_bind; [apply IH|]. intros a' c'' _ _. fk_core.
Qed.
Lemma fk_la_watchdog c : fk c (la_enforce_watchdog can_reserve profile phase).
Proof. unfold la_enforce_watchdog. repeat fk_with ltac:(idtac; first [core_prim|apply fk_la_kill_groups]). Qed.
Lemma fk_la_round c run_user : fk c (la_round can_reserve heap builtin_program profile phase run_user).
Proof. unfold la_round, la_idle. repeat fk_with ltac:(idtac; first [apply fk_la_watchdog|core_prim]). Qed.
Lemma fk_la_bootstrap k : fk k (la_bootstrap can_reserve builtin_program).
Proof.
  unfold la_bootstrap, spawn_init. repeat fk_with ltac:(idtac; boot_prim).
Qed.
End Loong.

(** ** Whole runs *)
Section Whole.
Context {M : Type} `{!Ext4Ops M} `{!HalMemory} (can_reserve : Z → bool) (heap : kernel M → Z).
Context (builtin_program : string → option SysExec.BuiltinProgram) (profile phase : string).
Import KernelCore LoongCore.
Implicit Types (k : kernel M) (c : core M).

Lemma fk_ok {S} `{!Files M S} `{!Carries S} {B} `{!Carries B} (s : S) (m : stm S B) : fk s m → fok s → fok (m s).2.
Proof. intros Hm Hs. apply (Hm Hs). Qed.
Lemma cold_ok (e : Kernel.kenv M) shm timex : VfsInv.wf (Kernel.k_vfs e) → fok (cold e shm timex).
Proof. intros Hwf. split; [exact Hwf|]. intros n (i & p & Hp & _). simpl in Hp. by rewrite lookup_empty in Hp. Qed.
Lemma run_ok c c' : rtc (core_step can_reserve false heap builtin_program) c c' → fok c → fok c'.
Proof.
  induction 1 as [c|c c1 c' Hs _ IH]; [done|]. intros Hc. apply IH. destruct Hs as [run c|time nanos ticks c]; [|exact Hc].
  by apply fk_ok; [apply fk_round|].
Qed.
Lemma la_run_ok c c' : rtc (la_step can_reserve heap builtin_program profile phase) c c' → fok c → fok c'.
Proof.
  induction 1 as [c|c c1 c' Hs _ IH]; [done|]. intros Hc. apply IH. destruct Hs as [run c|time nanos ticks c]; [|exact Hc].
  by apply fk_ok; [apply fk_la_round|].
Qed.

(** A machine that was booted from the name space of [e], on either target, and ran. *)
Definition booted (e : Kernel.kenv M) (c : core M) : Prop := ∃ shm timex k,
  (bootstrap can_reserve false builtin_program (cold e shm timex) = (Ok tt, k) ∧
   rtc (core_step can_reserve false heap builtin_program) (mkCore k no_watch) c) ∨
  (la_bootstrap can_reserve builtin_program (cold e shm timex) = (Ok tt, k) ∧
   rtc (la_step can_reserve heap builtin_program profile phase) (mkCore k no_watch) c).

Lemma booted_ok e c : VfsInv.wf (Kernel.k_vfs e) → booted e c → fok c.
Proof.
  intros Hwf (shm & timex & k & [[Hb Hr]|[Hb Hr]]); pose proof (cold_ok e shm timex Hwf) as Hcold.
  - pose proof (fk_ok _ _ (fk_bootstrap can_reserve false builtin_program _) Hcold) as Hk. rewrite Hb in Hk. by eapply run_ok.
  - pose proof (fk_ok _ _ (fk_la_bootstrap can_reserve builtin_program _) Hcold) as Hk. rewrite Hb in Hk. by eapply la_run_ok.
Qed.

(** No reference to a file dangles.  From the layout of the boot file
    system on, whatever is on the disk, through the boot of either target and
    any rounds of its kernel loop with any user programs, every descriptor of
    every process is on an allocated node, the name space is well formed, and
    every path ends in an allocated node, ENOENT or ENOTDIR. *)
Theorem no_dangling_files asset entries probed tp rp fg io sc disk e c :
  Kernel.k_vfs e = (Layout.rv_boot_filesystem asset entries probed Vfs.new).2 ∨
  Kernel.k_vfs e = (Layout.la_boot_filesystem asset tp rp fg io sc disk entries probed Vfs.new).2 →
  booted e c →
  let t := k_table (c_kernel c) in
  let v := Kernel.k_vfs (env t) in
  (∀ i p fd h, processes t !! i = Some p → fds p !! fd = Some h → ∃ nd, node_at (Vfs.vstore v) (h_node h) = Ok nd) ∧
  VfsInv.wf v ∧
  ∀ path, (∃ n nd, Vfs.lookup_abs v path = Ok n ∧ node_at (Vfs.vstore v) n = Ok nd) ∨
          Vfs.lookup_abs v path = Err Obj.ENOENT ∨ Vfs.lookup_abs v path = Err Obj.ENOTDIR.
Proof.
  intros Hv Hc t v. assert (VfsInv.wf (Kernel.k_vfs e)) as Hwf.
  { destruct Hv as [-> | ->]; [apply (VfsInv.run_wf can_reserve _ _ (Layout.lays_rv_boot can_reserve _ _ _ _))
      |apply (VfsInv.run_wf can_reserve _ _ (Layout.lays_la_boot can_reserve _ _ _ _ _ _ _ _ _ _))]; apply VfsInv.new_wf. }
  destruct (booted_ok e c Hwf Hc) as [Hwf' Hh]. split_and!; [|exact Hwf'|].
  - intros i p fd h Hp Hf. destruct (Hh (h_node h)) as [nd Hnd]; [by exists i, p; split; [|exists fd, h]|].
    exists nd. unfold node_at. change (Vfs.vstore (files c)) with (Vfs.vstore v) in Hnd. by rewrite Hnd.
  - intros path. destruct (VfsInv.lookup_abs_total v path Hwf') as [[n Hn]|]; [|auto].
    left. destruct (VfsInv.lookup_abs_valid v path n Hwf' Hn) as [nd Hnd]. exists n, nd. split; [done|]. unfold node_at. by rewrite Hnd.
Qed.
End Whole.

(** ** A machine that boots from a small disk and duplicates its console *)
Section Sample.
#[local] Existing Instance Layout.sample_disk.
#[local] Existing Instance Mm.sample_hal.
Definition sample_env : Kernel.kenv unit := Kernel.mkEnv ∅ 1 ∅ Layout.sample_boot.2.
Definition sample_started := KernelCore.bootstrap CoreInv.no_memory false CoreInv.sample_programs
  (KernelCore.cold sample_env (mkShmState 1 ∅ ∅) (mkTimex 0 0 0 0 0 0 0 0)).
(** The first process makes the system call [dup] on its descriptor 0. *)
Definition sample_dup : KernelCore.core unit :=
  (KernelCore.round CoreInv.no_memory false (fun _ => 0) CoreInv.sample_programs (CoreInv.calls 23 0)
     (KernelCore.mkCore sample_started.2 KernelCore.no_watch)).2.

Lemma no_dangling_files_witness :
  ((fun p => keys (fds p)) <$> procs (k_table (KernelCore.c_kernel sample_dup))) = [[0; 1; 2; 3]] ∧
  ∀ i p fd h, processes (k_table (KernelCore.c_kernel sample_dup)) !! i = Some p → fds p !! fd = Some h →
    ∃ nd, node_at (Vfs.vstore (Kernel.k_vfs (env (k_table (KernelCore.c_kernel sample_dup))))) (h_node h) = Ok nd.
Proof.
  split; [by vm_compute|].
  refine (proj1 (no_dangling_files CoreInv.no_memory (fun _ => 0) CoreInv.sample_programs "" "" Layout.sample_asset []
    (Some (Ok (tt, "root"))) "" "" "" "" "" None sample_env sample_dup _ _)).
  - left. reflexivity.
  - exists (mkShmState 1 ∅ ∅), (mkTimex 0 0 0 0 0 0 0 0), sample_started.2. left. split.
    + refine (eq_trans (surjective_pairing _) (f_equal (fun r => (r, sample_started.2)) _)). vm_compute. reflexivity.
    + apply rtc_once, KernelCore.cs_round.
Defined.
End Sample.
End FileRun.
