(* ===== verification/UnitTests.v ===== *)
(** * The tests of the components (src/crates/*, [mod tests])

    The unit tests of the source, run on the model: a test makes the state the
    source makes, calls the same operations and makes the same assertions; an
    assertion that does not hold and a failed [unwrap] are [Panic].  Tests of
    texts of scripts and tests that read disk images of the host are left out. *)

From S2P Require Import Prelude Task AddrSpace Path FileObject Vfs Process KernelEnv ProcTable Elf Dma Abi Xtask.

Open Scope string_scope.
Open Scope list_scope.
Open Scope Z_scope.

Module UnitTests.
Import Proc PTable.

(** [assert!], [assert_eq!] and [assert_ne!] *)
Definition assert {S} (b : bool) : stm S unit := fun s => (if b then Ok tt else Panic, s).
Definition assert_eq {S A} `{EqDecision A} (x y : A) : stm S unit := assert (bool_decide (x = y)).
Definition assert_ne {S A} `{EqDecision A} (x y : A) : stm S unit := assert (negb (bool_decide (x = y))).
Definition passes {S} (test : stm S unit) (s : S) : bool := match test s with (Ok _, _) => true | _ => false end.
(** A method that cannot fail, and a question about the state. *)
Definition method {S A} (f : S → A * S) : stm S A := fun s => let '(a, s') := f s in (Ok a, s').
Definition question {S A} (f : S → A) : stm S A := reads (fun s => Ok (f s)).
Definition returns {S A} `{EqDecision A} (m : stm S A) (a : A) : stm S unit := x ← m; assert_eq x a.
Definition holds {S} (m : stm S bool) : stm S unit := b ← m; assert b.
(** [unwrap()] and [unwrap_err()] *)
Definition unwrapped {S A} (m : stm S A) : stm S A := fun s => match m s with (Err _, s') => (Panic, s') | r => r end.
Definition fails_with {S A} (m : stm S A) (e : Z) : stm S unit := fun s =>
  match m s with (Err x, s') => assert (x =? e) s' | (_, s') => (Panic, s') end.

Definition text (s : string) : list Z := Vfs.bytes_of s.
Definition cstr (s : string) : list Z := text s ++ [0].
Definition zeros (n : nat) : list Z := replicate n 0.
Definition le (n : nat) (z : Z) : list Z := to_le_bytes n z.

(** ** Scheduler (crates/task) *)
Section Scheduler.
Import Sched.
Abbreviation test := (stm Scheduler unit).
Definition spawn_task (nm : string) (thread_id pid : Z) : stm Scheduler Z := fun s =>
  match spawn s nm thread_id pid with Ok (i, s') => (Ok i, s') | Err e => (Err e, s) | Panic => (Panic, s) | Diverge => (Diverge, s) end.
Definition new_queue : stm Scheduler WaitQueue := fun s =>
  match create_wait_queue s with Ok (q, s') => (Ok q, s') | Err e => (Err e, s) | Panic => (Panic, s) | Diverge => (Diverge, s) end.
(** [block_current_on(&mut queue).unwrap()] and [wake_one(&mut queue)] *)
Definition block_on (q : WaitQueue) : stm Scheduler (WaitToken * WaitQueue) := fun s =>
  match block_current_on s q with
  | (Some token, s', q') => (Ok (token, q'), s')
  | (None, s', _) => (Panic, s')
  end.
Definition wake_from (q : WaitQueue) : stm Scheduler (option Z * WaitQueue) := fun s =>
  let '(r, s', q') := wake_one s q in (Ok (r, q'), s').

Definition round_robin_scheduler : test :=
  a ← spawn_task "a" 1 1;
  b ← spawn_task "b" 2 2;
  _ ← returns (method start) (Some a);
  returns (method yield_now) (Some b).
Definition wait_queue_round_trip : test :=
  task_a ← spawn_task "a" 1 1;
  task_b ← spawn_task "b" 2 2;
  queue ← new_queue;
  _ ← returns (method start) (Some task_a);
  '(token, queue) ← block_on queue;
  _ ← assert_eq (task_id token) task_a;
  _ ← returns (question (fun s => id <$> current s)) (Some task_b);
  _ ← returns (question blocked_count) 1%nat;
  '(woken, queue) ← wake_from queue;
  _ ← assert_eq woken (Some task_a);
  _ ← returns (question blocked_count) 0%nat;
  returns (method yield_now) (Some task_a).
Definition direct_block_and_wake_round_trip : test :=
  task_a ← spawn_task "a" 1 1;
  task_b ← spawn_task "b" 2 2;
  _ ← returns (method start) (Some task_a);
  _ ← returns (method block_current) (Some task_a);
  _ ← returns (question current_thread_id) (Some task_b);
  _ ← holds (method (fun s => wake_task s task_a));
  returns (method yield_now) (Some task_a).
Definition exit_group_removes_ready_and_blocked_tasks : test :=
  task_a ← spawn_task "a" 1 10;
  task_b ← spawn_task "b" 2 20;
  task_c ← spawn_task "c" 3 10;
  queue ← new_queue;
  _ ← returns (method start) (Some task_a);
  _ ← block_on queue;
  _ ← returns (question current_thread_id) (Some task_b);
  _ ← returns (method (fun s => exit_group s 10)) 2%nat;
  _ ← returns (question current_thread_id) (Some task_b);
  removed ← method (fun s => remove_task s task_c);
  assert (negb removed).
Definition scheduler_tests : list test :=
  [round_robin_scheduler; wait_queue_round_trip; direct_block_and_wake_round_trip; exit_group_removes_ready_and_blocked_tasks].
Lemma scheduler_tests_pass : forallb (fun t => passes t Scheduler_new) scheduler_tests = true.
Proof. vm_cast_no_check (eq_refl true). Qed.
End Scheduler.

(** ** DMA arena (crates/hal-virtio), at an address of its own; the pointer to
    a page and its physical address are one number here. *)
Section Arena.
Definition arena_at : Z := 0x80200000.
Definition take_pages (BYTES pages : Z) : stm Dma.arena Z := fun a =>
  match Dma.alloc arena_at BYTES 1 pages a with Ok (Some p, a') => (Ok p, a') | Ok (None, a') => (Panic, a') | _ => (Panic, a) end.
Definition free_pages (BYTES paddr pages : Z) : stm Dma.arena Z := fun a =>
  match Dma.dealloc arena_at BYTES paddr pages a with Ok (r, a') => (Ok r, a') | _ => (Panic, a) end.
Definition dma_arena_allocates_and_reuses_pages : stm Dma.arena unit :=
  let BYTES := 8 * 4096 in
  first_paddr ← take_pages BYTES 2;
  second_paddr ← take_pages BYTES 2;
  _ ← assert_ne first_paddr second_paddr;
  _ ← returns (free_pages BYTES first_paddr 2) 0;
  returns (take_pages BYTES 2) first_paddr.
Definition dma_arena_rejects_out_of_range_free : stm Dma.arena unit := r ← free_pages (4 * 4096) 0xdeadbeef 1; assert_ne r 0.
Definition arena_tests : list (stm Dma.arena unit) := [dma_arena_allocates_and_reuses_pages; dma_arena_rejects_out_of_range_free].
Lemma arena_tests_pass : forallb (fun t => passes t (Dma.new 1)) arena_tests = true.
Proof. vm_cast_no_check (eq_refl true). Qed.
End Arena.

(** ** Address spaces (crates/mm) *)
(** A machine with one region of one MiB. *)
Definition TestMemory : HalMemory := {|
  memory_regions := [mkRegion 0x80000000 0x100000 true];
  phys_to_virt := fun p => p |}.
Section Memory.
#[local] Existing Instance TestMemory.
Abbreviation test := (stm Mm.space unit).
Definition roomy : Z → bool := fun _ => true.
Definition space_cstr (addr : Z) : stm Mm.space (list Z) := unwrapped (reads (fun s => Mm.read_cstr roomy Abi.is_utf8 s addr)).
Definition space_bytes (addr n : Z) : stm Mm.space (list Z) := reads (fun s => Mm.read_bytes roomy s addr n).

Definition address_space_round_trip : test :=
  _ ← Mm.install_bytes roomy 0x1000 (cstr "hello");
  _ ← returns (space_cstr 0x1000) (text "hello");
  addr ← unwrapped (Mm.map_anonymous roomy 8192 0);
  _ ← unwrapped (Mm.write_bytes addr (text "abc"));
  _ ← returns (unwrapped (space_bytes addr 3)) (text "abc");
  unwrapped (Mm.unmap addr 8192).
Definition read_cstr_across_short_segments : test :=
  _ ← Mm.install_bytes roomy 0x2fff (text "A");
  _ ← Mm.install_bytes roomy 0x3000 (cstr "BC");
  returns (space_cstr 0x2fff) (text "ABC").
Definition read_and_write_bytes_across_adjacent_segments : test :=
  _ ← Mm.install_bytes roomy 0x4000 (text "ab");
  _ ← Mm.install_bytes roomy 0x4002 (text "cd");
  _ ← returns (unwrapped (space_bytes 0x4001 3)) (text "bcd");
  _ ← unwrapped (Mm.write_bytes 0x4001 (text "XYZ"));
  returns (unwrapped (space_bytes 0x4000 4)) (text "aXYZ").
Definition unmapped_access_returns_efault : test := fails_with (space_bytes 0xdeadbeef 4) Abi.EFAULT.
Definition reject_non_elf_images : test := fails_with (Elf.load_static_elf roomy (text "nope") [] []) AddrSpace.ENOEXEC.
(** [AddressSpace::new_user], with a heap of no bytes. *)
Definition passes_in_new_space (t : test) : bool :=
  match Mm.new_user with Ok i => passes t (Mm.mkSpace i ∅) | _ => false end.
Definition memory_tests : list test :=
  [address_space_round_trip; read_cstr_across_short_segments; read_and_write_bytes_across_adjacent_segments;
   unmapped_access_returns_efault; reject_non_elf_images].
Lemma memory_tests_pass : forallb passes_in_new_space memory_tests = true.
Proof. vm_cast_no_check (eq_refl true). Qed.
End Memory.

(** ** Processes (crates/proc) *)
Section Processes.
#[local] Existing Instance Obj.no_ext4.
#[local] Existing Instance TestMemory.
(** The heap of the tests has no room for the stack of half a MiB with which a
    process begins, and which none of the tests uses: to map it is tried, and
    the failure passed over. *)
Definition room : Z → bool := fun n => n <? 0x10000.
#[local] Hint Extern 0 (KernelEnv _ _ _) => exact (Kernel.kernel_env room) : typeclass_instances.
Abbreviation ptable := (table Obj.FileHandle Z (Kernel.kenv Empty_set)).
Abbreviation test := (stm ptable unit).
Abbreviation process := (Process Obj.FileHandle Z).

(** [ProcessTable::new] *)
Definition new_table : ptable := PTable.new (Kernel.mkEnv ∅ 1 ∅ Vfs.new).
Definition the_current : stm ptable process := unwrapped (reads current).
Definition about_current (f : process → bool) : test := p ← the_current; assert (f p).
(** [find_by_tid_mut(tid).unwrap()] *)
Definition the_task (k : Z) : stm ptable process := unwrapped (reads (fun t => ok_or (processes t !! k) ENOENT)).
Definition task_space {B} (k : Z) (m : stm Mm.space B) : stm ptable B :=
  p ← the_task k; unwrapped (on_env (Kernel.run_space (address_space p) m)).
Definition task_reads (k addr n : Z) : stm ptable (list Z) := task_space k (fun s => (Mm.read_bytes room s addr n, s)).
Definition select (k : Z) : test := unwrapped (set_current k).
(** The first process, made the current one. *)
Definition start_init : stm ptable Z := init ← spawn_init "init" 0x1000; _ ← select init; mret init.
Definition on_futexes {B} (f : gmap Z (list Z) → B * gmap Z (list Z)) : stm ptable B := fun t =>
  let '(b, m) := f (futex_waiters t) in (Ok b, with_futex m t).
Definition wait_in_queue (addr k : Z) : test := on_futexes (fun m => (tt, enqueue_futex_waiter addr k m)).

Definition process_accessors_expose_competition_state : test :=
  pid0 ← start_init;
  _ ← unwrapped (set_tid_address 0x4000);
  _ ← unwrapped (setgroups_current [10; 20]);
  _ ← unwrapped (send_signal pid0 10);
  _ ← unwrapped (set_sigaction 10 (mkSigAction 1 2 3 4));
  p ← the_current;
  _ ← assert_eq (uid p) 0;
  _ ← assert_eq (groups p) [10; 20];
  _ ← assert_eq (tgid p) pid0;
  _ ← assert_eq (pgid p) pid0;
  _ ← assert_eq (clear_child_tid p) (Some 0x4000);
  _ ← assert_ne (pending_signals p) 0;
  action ← unwrapped (reads (fun t => sigaction t 10));
  assert_eq (sa_handler action) 1.

Definition thread_clone_shares_address_space_and_waits_only_processes : test :=
  leader ← start_init;
  addr ← task_space leader (Mm.map_anonymous room 4096 3);
  _ ← task_space leader (Mm.write_bytes addr (text "x"));
  thread ← unwrapped (clone_thread_from_current 0 None);
  _ ← select thread;
  _ ← returns (task_reads thread addr 1) (text "x");
  p ← the_current;
  _ ← assert_eq (tgid p) leader;
  _ ← assert_ne (tid p) (tgid p);
  _ ← select leader;
  child ← unwrapped fork_process_from_current;
  _ ← select child;
  _ ← unwrapped (exit_current_thread 7);
  _ ← select leader;
  '(waited, status) ← unwrapped (wait_child leader (SelPid child));
  _ ← assert_eq waited child;
  assert_eq status (Z.shiftl 7 8).

Definition futex_requeue_moves_waiters : test :=
  leader ← start_init;
  thread ← unwrapped (clone_thread_from_current 0 None);
  _ ← wait_in_queue 0x1000 leader;
  _ ← wait_in_queue 0x1000 thread;
  _ ← returns (on_futexes (requeue_futex 0x1000 0x2000 1 1)) [leader];
  returns (on_futexes (wake_futex 0x2000 1)) [thread].

(** The list of held locks of a thread: a head, one node and its word. *)
Definition robust_memory (exiting head_at node_at next : Z) : test :=
  _ ← task_space exiting (Mm.map_anonymous_at room 0x2000 0x2000 3);
  let futex := node_at + 0x20 in
  _ ← task_space exiting (Mm.write_bytes head_at (le 8 node_at ++ le 8 0x20 ++ le 8 0));
  _ ← task_space exiting (Mm.write_bytes node_at (le 8 next));
  task_space exiting (Mm.write_bytes futex (le 4 exiting)).
Definition robust_exit_marks_owner_died_and_reports_wake_addr : test :=
  leader ← start_init;
  exiting ← unwrapped (clone_thread_from_current 0 None);
  waiter ← unwrapped (clone_thread_from_current 0 None);
  let HEAD := 0x2000 in
  let NODE := 0x3000 in
  let FUTEX := NODE + 0x20 in
  _ ← robust_memory exiting HEAD NODE HEAD;
  _ ← select exiting;
  _ ← unwrapped (set_robust_list HEAD 24);
  _ ← wait_in_queue FUTEX waiter;
  w ← the_task waiter;
  _ ← put_process waiter (set_futex_wait (Some FUTEX) (futex_wait_deadline_ns w) (eintr_count w) w);
  exit ← unwrapped (exit_current_thread 0);
  _ ← assert_eq (te_robust_futex_addrs exit) [FUTEX];
  futex_word ← task_reads leader FUTEX 4;
  let value := from_le_bytes futex_word in
  _ ← assert_ne (Z.land value FUTEX_OWNER_DIED) 0;
  assert_eq (Z.land value FUTEX_TID_MASK) 0.
Definition robust_exit_cycle_scan_is_bounded : test :=
  leader ← start_init;
  exiting ← unwrapped (clone_thread_from_current 0 None);
  let HEAD := 0x2100 in
  let NODE := 0x3100 in
  let FUTEX := NODE + 0x20 in
  _ ← robust_memory exiting HEAD NODE NODE;
  _ ← select exiting;
  _ ← unwrapped (set_robust_list HEAD 24);
  exit ← unwrapped (exit_current_thread 0);
  assert_eq (te_robust_futex_addrs exit) [FUTEX].

Definition descendant_cleanup_reaps_process_subtree : test :=
  init ← spawn_init "init" 0x1000;
  shell ← spawn "shell" (Some init) 0x1000;
  worker ← spawn "worker" (Some shell) 0x1000;
  helper ← spawn "helper" (Some worker) 0x1000;
  _ ← holds (question (fun t => has_child_process_group t shell));
  descendants ← reads (fun t => descendant_process_groups t shell);
  _ ← assert (bool_decide (shell ∈ descendants));
  _ ← assert (bool_decide (worker ∈ descendants));
  _ ← assert (bool_decide (helper ∈ descendants));
  exits ← unwrapped (force_exit_subtree shell 124);
  _ ← assert_eq (length exits) 3%nat;
  _ ← returns (question (fun t => active_process_group_count_in t [shell; worker; helper])) 0;
  returns (reads (fun t => descendant_process_groups t shell)) [].

Definition reaping_process_group_reparents_live_children_to_init : test :=
  init ← spawn_init "init" 0x1000;
  shell ← spawn "shell" (Some init) 0x1000;
  worker ← spawn "worker" (Some shell) 0x1000;
  grandchild ← spawn "grandchild" (Some worker) 0x1000;
  _ ← select worker;
  _ ← unwrapped (exit_current_thread 0);
  _ ← select shell;
  '(waited, status) ← unwrapped (wait_child shell (SelPid worker));
  _ ← assert_eq waited worker;
  _ ← assert_eq status 0;
  g ← unwrapped (reads (fun t => find_process_by_pid t grandchild));
  assert_eq (parent g) (Some init).

Definition reset_current (entry : Z) : test :=
  p ← the_current; p' ← on_env (reset_image entry None p); update_current (fun _ => p').
Definition cancel_interrupt_token_is_one_shot : test :=
  _ ← start_init;
  _ ← update_current mark_cancel_signal_dispatched;
  _ ← about_current (fun p => cancel_signal_seen p && negb (cancellation_in_progress p));
  _ ← update_current arm_cancellation_persistent;
  _ ← about_current (fun p => negb (cancel_signal_seen p) && cancellation_in_progress p);
  _ ← update_current mark_cancel_signal_dispatched;
  _ ← update_current arm_cancellation_persistent;
  _ ← reset_current 0x2000;
  about_current (fun p => negb (cancel_signal_seen p) && negb (cancellation_in_progress p)).
Definition queued_sigcancel_does_not_arm_interrupt_before_delivery : test :=
  pid0 ← start_init;
  _ ← unwrapped (send_signal_tid pid0 33);
  about_current (fun p => negb (Z.land (pending_signals p) (Z.shiftl 1 (33 - 1)) =? 0) && negb (cancel_signal_seen p) &&
                          negb (cancellation_in_progress p)).

(** [current_mut().unwrap().add_fd(vfs.open("/", "/dev/null", 0, 0).unwrap())] *)
Definition open_null : stm ptable Z :=
  h ← unwrapped (on_env (fun e => let '(r, v) := Vfs.open "/" "/dev/null" 0 0 (Kernel.k_vfs e) in (r, Kernel.with_vfs v e)));
  t ← get;
  p ← the_current;
  '(fd, p') ← lift (match add_fd h p with (Ok fd, p') => Ok (fd, p') | (Err e, _) => Err e | (Panic, _) => Panic | (Diverge, _) => Diverge end);
  _ ← update_current (fun _ => p');
  mret fd.
Definition close_current (fd : Z) : test :=
  p ← the_current;
  p' ← unwrapped (on_env (fun e => let '(r, (p', e')) := close_fd fd (p, e) in ((_ ← r; Ok p'), e')));
  update_current (fun _ => p').
Definition add_fd_reuses_lowest_available_slot : test :=
  _ ← start_init;
  fd0 ← open_null;
  fd1 ← open_null;
  fd2 ← open_null;
  _ ← assert_eq (fd0, fd1, fd2) (0, 1, 2);
  _ ← close_current 1;
  returns open_null 1.

Definition is_no_action (a : SigAction) : bool :=
  (sa_handler a =? 0) && (sa_flags a =? 0) && (sa_restorer a =? 0) && (sa_mask a =? 0).
Definition reset_image_clears_signal_handlers_and_altstack : test :=
  _ ← start_init;
  _ ← unwrapped (set_sigaction 10 (mkSigAction 0x84e98 0x1234 0x7ff00000 0xffff));
  _ ← update_current (set_altstack (Some (0x7000, 0x2000, 0)));
  _ ← reset_current 0x2000;
  _ ← about_current (fun p => (size (signal_actions p) =? 0)%nat && bool_decide (sigaltstack p = None));
  action ← unwrapped (reads (fun t => sigaction t 10));
  assert (is_no_action action).

Definition process_tests : list test :=
  [process_accessors_expose_competition_state; thread_clone_shares_address_space_and_waits_only_processes; futex_requeue_moves_waiters;
   robust_exit_marks_owner_died_and_reports_wake_addr; robust_exit_cycle_scan_is_bounded; descendant_cleanup_reaps_process_subtree;
   reaping_process_group_reparents_live_children_to_init; cancel_interrupt_token_is_one_shot;
   queued_sigcancel_does_not_arm_interrupt_before_delivery; add_fd_reuses_lowest_available_slot;
   reset_image_clears_signal_handlers_and_altstack].
Lemma process_tests_pass : forallb (fun t => passes t new_table) process_tests = true.
Proof. vm_cast_no_check (eq_refl true). Qed.
End Processes.

(** ** The file name space (crates/vfs) *)
(** The disk of the tests: the image made of one file, /bin/hello. *)
Definition hello_bytes : list Z := text "hello from ext4".
Definition TestImage : Obj.Ext4Ops unit := {|
  Obj.e4_stat _ p :=
    if String.eqb p "/bin/hello" then Ok (Obj.mkStat (Z.lor Obj.S_IFREG 420) (zlen hello_bytes) 1)
    else if existsb (String.eqb p) ["/"; "/bin"] then Ok (Obj.mkStat (Z.lor Obj.S_IFDIR 493) 4096 2) else Err ENOENT;
  Obj.e4_read_range _ p offset len :=
    if String.eqb p "/bin/hello" then Ok (take (Z.to_nat len) (drop (Z.to_nat offset) hello_bytes)) else Err ENOENT;
  Obj.e4_read_link _ _ := Err ENOENT;
  Obj.e4_read_dir _ p :=
    if String.eqb p "/bin" then Ok [("hello", Obj.E4Other, Obj.mkStat (Z.lor Obj.S_IFREG 420) (zlen hello_bytes) 1)] else Ok [];
  Obj.e4_read_dir_lite _ p := if String.eqb p "/bin" then Ok [("hello", Obj.E4Other)] else Ok [] |}.
Section Files.
#[local] Existing Instance TestImage.
Abbreviation vfs := (Vfs.KernelVfs unit).
Abbreviation test := (stm vfs unit).
(** [vfs.method(&mut file, ..)]: the result and the handle afterwards. *)
Definition on_handle {B} (h : Obj.FileHandle) (m : stm (Obj.FileHandle * vfs) B) : stm vfs (B * Obj.FileHandle) := fun v =>
  let '(r, (h', v')) := m (h, v) in ((b ← r; Ok (b, h')), v').
(** A method of the handle itself. *)
Definition on_object {B} (h : Obj.FileHandle) (m : stm (Obj.FileHandle * Obj.store unit) B) : stm vfs (B * Obj.FileHandle) := fun v =>
  let '(r, (h', s')) := m (h, Vfs.vstore v) in ((b ← r; Ok (b, h')), Vfs.set_vstore s' v).
Definition drop_object (h : Obj.FileHandle) : test := fun v =>
  match Obj.drop_handle (Vfs.vstore v) h with Ok s => (Ok tt, Vfs.set_vstore s v) | _ => (Panic, v) end.
Definition of_kind (h : Obj.FileHandle) (kind : Obj.ObjectKind → bool) : test := holds (reads (fun v => kind <$> Obj.object_kind (Vfs.vstore v) h)).
Definition plenty : Z → bool := fun _ => true.
Definition CREATE : Z := Z.lor Obj.O_CREAT Obj.O_RDWR.

Definition vfs_file_round_trip : test :=
  file ← unwrapped (Vfs.open "/" "/tmp/hello.txt" CREATE 420);
  '(_, file) ← unwrapped (on_handle file (Vfs.write plenty (text "hello")));
  '(_, file) ← unwrapped (on_handle file (Vfs.seek 0 0));
  '(bytes, file) ← unwrapped (on_handle file (Vfs.read 5));
  _ ← assert_eq bytes (text "hello");
  returns (unwrapped (reads (fun v => Vfs.chdir v "/" "/tmp"))) "/tmp".
Definition object_layer_reports_backend_kind : test :=
  event ← unwrapped (Vfs.create_eventfd 1);
  _ ← of_kind event (fun k => match k with Obj.OEventFd => true | _ => false end);
  _ ← holds (reads (fun v => Obj.poll_read_ready (Vfs.vstore v) event));
  memfd ← unwrapped (Vfs.create_memfd "demo");
  _ ← of_kind memfd (fun k => match k with Obj.OMemFd => true | _ => false end);
  '(_, memfd) ← unwrapped (on_object memfd (Obj.write_object plenty (text "abc")));
  '(_, memfd) ← unwrapped (on_object memfd (Obj.seek_object 0 0));
  '(bytes, memfd) ← unwrapped (on_object memfd (Obj.read_object 3));
  _ ← assert_eq bytes (text "abc");
  regular ← unwrapped (Vfs.open "/" "/tmp/object.txt" CREATE 420);
  of_kind regular (fun k => match k with Obj.ORegular => true | _ => false end).
Definition pipe_write_returns_epipe_after_last_reader_close : test :=
  '(read_end, write_end) ← unwrapped Vfs.create_pipe;
  _ ← drop_object read_end;
  fails_with (on_handle write_end (Vfs.write plenty (text "x"))) Obj.EPIPE.
Definition pipe_read_returns_eof_after_last_writer_close : test :=
  '(read_end, write_end) ← unwrapped Vfs.create_pipe;
  _ ← drop_object write_end;
  '(bytes, _) ← unwrapped (on_handle read_end (Vfs.read 16));
  assert_eq bytes [].

Definition mount_image : test := _ ← unwrapped (Vfs.mount_ext4 "vecblk0" "/" (Ok (tt, "ext4"))); mret tt.
Definition ext4_root_mount_supports_open_and_getdents : test :=
  _ ← mount_image;
  file ← unwrapped (Vfs.open "/" "/bin/hello" 0 0);
  _ ← of_kind file (fun k => match k with Obj.ORegular => true | _ => false end);
  '(bytes, file) ← unwrapped (on_handle file (Vfs.read 32));
  _ ← assert_eq bytes hello_bytes;
  _ ← fails_with (Vfs.open "/" "/bin/not-found" 0 0) ENOENT;
  dir ← unwrapped (Vfs.open "/" "/bin" Path.O_DIRECTORY 0);
  '(entries, dir) ← unwrapped (on_handle dir (Vfs.getdents 4096));
  _ ← assert_ne entries [];
  cached ← question (fun v => Vfs.external_stat_cache v !! "/bin/hello");
  assert (match cached with
          | Some st => (Obj.st_mode st =? Z.lor Obj.S_IFREG 420) && (Obj.st_size st =? zlen hello_bytes) && (Obj.st_nlink st =? 1)
          | None => false
          end).
Definition access_reports_missing_files_under_ext4_root_mount : test :=
  _ ← mount_image; fails_with (reads (fun v => Vfs.access v "/" "/test.txt")) ENOENT.
Definition umount_non_external_mount_keeps_external_preload_cache : test :=
  _ ← mount_image;
  _ ← unwrapped (Vfs.preload_external_file "/musl/basic/wait" (text "wait-ok") (Some (Z.lor Obj.S_IFREG 493)));
  before ← unwrapped (Vfs.open "/" "/musl/basic/wait" 0 0);
  '(bytes, _) ← unwrapped (on_handle before (Vfs.read 16));
  _ ← assert_eq bytes (text "wait-ok");
  _ ← unwrapped (Vfs.mount "dev:/dev/vda2" "/mnt" "vfat" 0);
  _ ← unwrapped (Vfs.umount "/mnt");
  after ← unwrapped (Vfs.open "/" "/musl/basic/wait" 0 0);
  '(bytes, _) ← unwrapped (on_handle after (Vfs.read 16));
  assert_eq bytes (text "wait-ok").
Definition file_tests : list test :=
  [vfs_file_round_trip; object_layer_reports_backend_kind; pipe_write_returns_epipe_after_last_reader_close;
   pipe_read_returns_eof_after_last_writer_close; access_reports_missing_files_under_ext4_root_mount;
   umount_non_external_mount_keeps_external_preload_cache].
Lemma file_tests_pass : forallb (fun t => passes t (Vfs.new : vfs)) file_tests = true.
Proof. vm_cast_no_check (eq_refl true). Qed.

(** The test of the mounted disk does not pass: a new name space has a
    directory /bin of its own, which hides that of the disk, so the listing it
    expects is empty although /bin/hello can be opened. *)
Lemma mounted_listing_test_fails : passes ext4_root_mount_supports_open_and_getdents (Vfs.new : vfs) = false ∧
  passes (_ ← mount_image;
          file ← unwrapped (Vfs.open "/" "/bin/hello" 0 0);
          dir ← unwrapped (Vfs.open "/" "/bin" Path.O_DIRECTORY 0);
          '(entries, _) ← unwrapped (on_handle dir (Vfs.getdents 4096));
          assert_eq entries []) (Vfs.new : vfs) = true.
Proof. split; [vm_cast_no_check (eq_refl false) | vm_cast_no_check (eq_refl true)]. Qed.
End Files.

(** ** The image tool (tools/xtask); the memory size of the environment is not set. *)
Definition riscv_contest_args_match_expected_profile : stm unit unit :=
  let args := String.concat " " (Xtask.build_qemu_riscv_args None "kernel-rv" (Some "sdcard-rv.img") (Some "disk.img")) in
  assert (forallb (Path.contains_str args)
    ["-machine virt"; "-kernel kernel-rv"; "-no-reboot"; "-rtc base=utc"; "virtio-blk-device,drive=x0,bus=virtio-mmio-bus.0";
     "virtio-net-device,netdev=net"; "user,id=net"; "virtio-blk-device,drive=x1,bus=virtio-mmio-bus.1"]).
Definition loongarch_contest_args_match_expected_profile : stm unit unit :=
  let args := String.concat " " (Xtask.build_qemu_loongarch_contest_args None "kernel-la" (Some "sdcard-la.img") (Some "disk-la.img")) in
  assert (forallb (Path.contains_str args)
    ["-machine virt"; "-kernel kernel-la"; "-no-reboot"; "-rtc base=utc"; "virtio-blk-pci,drive=x0"; "virtio-net-pci,netdev=net0";
     "user,id=net0"; "virtio-blk-pci,drive=x1"]).
Definition validates (value : list Z) (profile : string) : bool :=
  match Xtask.validate_oscomp_profile_value value with Ok p => String.eqb p profile | _ => false end.
Definition validates_known_oscomp_subset_profiles : stm unit unit :=
  assert (forallb (fun profile => validates (text profile) profile && validates (text "  " ++ text profile ++ [10]) profile)
    ["full"; "basic"; "busybox"; "ltp"; "cyclic"]).
Definition rejects_unknown_oscomp_subset_profiles : stm unit unit :=
  assert (forallb (fun value => match Xtask.validate_oscomp_profile_value (text value) with Err _ => true | _ => false end)
    [""; "nope"; "basic_testcode.sh"]).
Definition tool_tests : list (stm unit unit) :=
  [riscv_contest_args_match_expected_profile; loongarch_contest_args_match_expected_profile; validates_known_oscomp_subset_profiles;
   rejects_unknown_oscomp_subset_profiles].
Lemma tool_tests_pass : forallb (fun t => passes t tt) tool_tests = true.
Proof. vm_cast_no_check (eq_refl true). Qed.
End UnitTests.
