(* ===== verification/CallTests.v ===== *)
(** * The tests of the system calls (crates/syscall, [mod tests])

    The unit tests of the source, run on the model: each test makes the kernel
    of the tests, calls the dispatcher as the test does and makes the same
    assertions; an assertion that does not hold is [Panic].  The platform of
    the tests has one region of one MiB and a clock that stands at one second. *)

From S2P Require Import Prelude Task AddrSpace Path FileObject Vfs Process KernelEnv ProcTable Locks Abi Keys Sys SysFile SysProc SysMem SysNet SysExec SysDispatch KernelCore UnitTests.

Open Scope string_scope.
Open Scope list_scope.
Open Scope Z_scope.

Module CallTests.
Import Proc PTable Sys SysProc KernelCore UnitTests.

(** The numbers of the calls. *)
Definition SYS_GETCWD : Z := 17.
Definition SYS_EVENTFD2 : Z := 19.
Definition SYS_EPOLL_CREATE1 : Z := 20.
Definition SYS_EPOLL_CTL : Z := 21.
Definition SYS_EPOLL_PWAIT : Z := 22.
Definition SYS_DUP3 : Z := 24.
Definition SYS_FLOCK : Z := 32.
Definition SYS_MKDIR : Z := 34.
Definition SYS_SYMLINKAT : Z := 36.
Definition SYS_LINKAT : Z := 37.
Definition SYS_RENAMEAT : Z := 38.
Definition SYS_FSTATFS : Z := 44.
Definition SYS_TRUNCATE : Z := 45.
Definition SYS_FALLOCATE : Z := 47.
Definition SYS_FCHDIR : Z := 50.
Definition SYS_FCHMOD : Z := 52.
Definition SYS_FCHMODAT : Z := 53.
Definition SYS_FCHOWNAT : Z := 54.
Definition SYS_FCHOWN : Z := 55.
Definition SYS_OPENAT : Z := 56.
Definition SYS_CLOSE : Z := 57.
Definition SYS_PIPE : Z := 59.
Definition SYS_LSEEK : Z := 62.
Definition SYS_READ : Z := 63.
Definition SYS_WRITE : Z := 64.
Definition SYS_WRITEV : Z := 66.
Definition SYS_PREAD64 : Z := 67.
Definition SYS_PWRITE64 : Z := 68.
Definition SYS_PREADV : Z := 69.
Definition SYS_PWRITEV : Z := 70.
Definition SYS_PSELECT6 : Z := 72.
Definition SYS_PPOLL : Z := 73.
Definition SYS_SPLICE : Z := 76.
Definition SYS_FSYNC : Z := 82.
Definition SYS_FDATASYNC : Z := 83.
Definition SYS_UTIMENSAT : Z := 88.
Definition SYS_SET_TID_ADDRESS : Z := 96.
Definition SYS_FUTEX : Z := 98.
Definition SYS_SET_ROBUST_LIST : Z := 99.
Definition SYS_GET_ROBUST_LIST : Z := 100.
Definition SYS_GETITIMER : Z := 102.
Definition SYS_SETITIMER : Z := 103.
Definition SYS_CLOCK_GETRES : Z := 114.
Definition SYS_SIGALTSTACK : Z := 132.
Definition SYS_RT_SIGSUSPEND : Z := 133.
Definition SYS_SIGACTION : Z := 134.
Definition SYS_SIGPROCMASK : Z := 135.
Definition SYS_RT_SIGPENDING : Z := 136.
Definition SYS_RT_SIGTIMEDWAIT : Z := 137.
Definition SYS_RT_SIGRETURN : Z := 139.
Definition SYS_GETPRIORITY : Z := 141.
Definition SYS_SETGID : Z := 144.
Definition SYS_SETUID : Z := 146.
Definition SYS_TIMES : Z := 153.
Definition SYS_GETSID : Z := 156.
Definition SYS_SETSID : Z := 157.
Definition SYS_GETGROUPS : Z := 158.
Definition SYS_SETGROUPS : Z := 159.
Definition SYS_UNAME : Z := 160.
Definition SYS_UMASK : Z := 166.
Definition SYS_PRCTL : Z := 167.
Definition SYS_GETTIMEOFDAY : Z := 169.
Definition SYS_SHMGET : Z := 194.
Definition SYS_SHMCTL : Z := 195.
Definition SYS_SHMAT : Z := 196.
Definition SYS_SHMDT : Z := 197.
Definition SYS_SOCKET : Z := 198.
Definition SYS_SOCKETPAIR : Z := 199.
Definition SYS_BIND : Z := 200.
Definition SYS_LISTEN : Z := 201.
Definition SYS_ACCEPT : Z := 202.
Definition SYS_CONNECT : Z := 203.
Definition SYS_GETSOCKNAME : Z := 204.
Definition SYS_SENDTO : Z := 206.
Definition SYS_RECVFROM : Z := 207.
Definition SYS_SETSOCKOPT : Z := 208.
Definition SYS_GETSOCKOPT : Z := 209.
Definition SYS_SHUTDOWN : Z := 210.
Definition SYS_SENDMSG : Z := 211.
Definition SYS_RECVMSG : Z := 212.
Definition SYS_CLONE : Z := 220.
Definition SYS_MSYNC : Z := 227.
Definition SYS_MLOCK : Z := 228.
Definition SYS_RISCV_FLUSH_ICACHE : Z := 259.
Definition SYS_WAIT : Z := 260.
Definition SYS_PRLIMIT64 : Z := 261.
Definition SYS_RENAMEAT2 : Z := 276.
Definition SYS_SECCOMP : Z := 277.
Definition SYS_MEMFD_CREATE : Z := 279.
Definition SYS_MEMBARRIER : Z := 283.
Definition SYS_MLOCK2 : Z := 284.
Definition SYS_COPY_FILE_RANGE : Z := 285.
Definition SYS_PREADV2 : Z := 286.
Definition SYS_PWRITEV2 : Z := 287.
Definition SYS_STATX : Z := 291.
Definition SYS_PIDFD_SEND_SIGNAL : Z := 424.
Definition SYS_PIDFD_OPEN : Z := 434.
Definition SYS_PIDFD_GETFD : Z := 438.
Definition SYS_FACCESSAT2 : Z := 439.

Section Tests.
#[local] Existing Instance Obj.no_ext4.
#[local] Existing Instance TestMemory.
#[local] Hint Extern 0 (KernelEnv _ _ _) => exact (Kernel.kernel_env room) : typeclass_instances.
Abbreviation test := (stm (kernel Empty_set) unit).

(** [ProcessTable::new], [Scheduler::new], [KernelVfs::new], [SyscallDispatcher::new], [TestTimer] *)
Definition test_kernel : kernel Empty_set :=
  let k := KernelCore.cold (Kernel.mkEnv ∅ 1 ∅ Vfs.new) (mkShmState 1 ∅ ∅) (mkTimex 0 0 0 0 0 0 0 0) in
  mkKernel (k_table k) (k_sched k) (k_locks k) (k_acct k) (k_shm k) (k_timex k) (k_keys k) (k_busybox k) (1, 0) 1000000000.
Definition on_sched {A} (f : Sched.Scheduler → A * Sched.Scheduler) : stm (kernel Empty_set) A := fun k =>
  let '(a, s) := f (k_sched k) in (Ok a, with_sched s k).
(** The first process, with which every test begins. *)
Definition start_init : stm (kernel Empty_set) Z :=
  init ← on_table (spawn_init "init" 0x1000);
  _ ← unwrapped (on_table (set_current init));
  s ← get;
  '(_, s') ← lift (Sched.spawn (k_sched s) "init" init init);
  _ ← modify (with_sched s');
  _ ← on_sched Sched.start;
  mret init.
Definition dispatch (sysno : Z) (args : list Z) : stm (kernel Empty_set) Z :=
  SysDispatch.dispatch room false (fun _ => 0) (fun _ => None) sysno args.
Definition gives (sysno : Z) (args : list Z) (v : Z) : test := r ← dispatch sysno args; assert_eq r v.
Definition install (addr : Z) (bytes : list Z) : test := SysMem.on_space (Mm.install_bytes room addr bytes).
Definition user_bytes (addr n : Z) : stm (kernel Empty_set) (list Z) := unwrapped (read_user room addr n).
Definition run_test (t : Z → test) : bool := passes (init ← start_init; t init) test_kernel.

Definition AT_CWD : Z := 2 ^ 64 - 1.

Definition basic_phase1_syscalls (init : Z) : test :=
  _ ← install 0x1000 (cstr "/work");
  _ ← gives SYS_MKDIR [0x1000; 493; 0; 0; 0; 0] 0;
  _ ← install 0x2000 (cstr "/work/log.txt");
  fd ← dispatch SYS_OPENAT [AT_CWD; 0x2000; CREATE; 420; 0; 0];
  _ ← assert (0 <=? fd);
  _ ← install 0x3000 (text "hello");
  _ ← gives SYS_WRITE [fd; 0x3000; 5; 0; 0; 0] 5;
  _ ← install 0x4000 (zeros 64);
  gives SYS_GETCWD [0x4000; 64; 0; 0; 0; 0] 0x4000.

Definition same_bytes (addr n : Z) (bytes : list Z) : test := bs ← user_bytes addr n; assert_eq bs bytes.
(** Two descriptors written by the kernel. *)
Definition fd_pair (addr : Z) : stm (kernel Empty_set) (Z * Z) :=
  bs ← user_bytes addr 8; mret (from_le_bytes (take 4 bs), from_le_bytes (drop 4 bs)).

Definition extended_syscall_smoke (init : Z) : test :=
  _ ← install 0x1000 (cstr "/tmp/ext.txt");
  fd ← dispatch SYS_OPENAT [AT_CWD; 0x1000; CREATE; 420; 0; 0];
  _ ← install 0x2000 (text "he");
  _ ← install 0x3000 (text "llo");
  let iov := le 8 0x2000 ++ le 8 2 ++ le 8 0x3000 ++ le 8 3 in
  _ ← install 0x4000 iov;
  _ ← gives SYS_WRITEV [fd; 0x4000; 2; 0; 0; 0] 5;
  _ ← gives SYS_LSEEK [fd; 0; 0; 0; 0; 0] 0;
  _ ← install 0x5000 (zeros 8);
  _ ← gives SYS_PREAD64 [fd; 0x5000; 5; 0; 0; 0] 5;
  _ ← same_bytes 0x5000 5 (text "hello");
  _ ← install 0x6000 (zeros 8);
  _ ← gives SYS_PIPE [0x6000; 0; 0; 0; 0; 0] 0;
  '(read_fd, write_fd) ← fd_pair 0x6000;
  _ ← install 0x7000 (text "ping");
  _ ← gives SYS_WRITE [write_fd; 0x7000; 4; 0; 0; 0] 4;
  _ ← install 0x7100 (zeros 4);
  _ ← gives SYS_READ [read_fd; 0x7100; 4; 0; 0; 0] 4;
  _ ← same_bytes 0x7100 4 (text "ping");
  _ ← gives SYS_CLOSE [write_fd; 0; 0; 0; 0; 0] 0;
  _ ← install 0x7200 (zeros 1);
  gives SYS_READ [read_fd; 0x7200; 1; 0; 0; 0] 0.

Definition eventfd_epoll_and_socketpair_smoke (init : Z) : test :=
  eventfd ← dispatch SYS_EVENTFD2 (replicate 6 0);
  _ ← install 0x8000 (le 8 1);
  _ ← gives SYS_WRITE [eventfd; 0x8000; 8; 0; 0; 0] 8;
  epfd ← dispatch SYS_EPOLL_CREATE1 (replicate 6 0);
  let event := le 4 1 ++ zeros 4 ++ le 8 eventfd in
  _ ← install 0x8100 event;
  _ ← gives SYS_EPOLL_CTL [epfd; 1; eventfd; 0x8100; 0; 0] 0;
  _ ← install 0x8200 (zeros 16);
  _ ← gives SYS_EPOLL_PWAIT [epfd; 0x8200; 4; 0; 0; 0] 1;
  _ ← install 0x8300 (zeros 8);
  _ ← gives SYS_READ [eventfd; 0x8300; 8; 0; 0; 0] 8;
  _ ← same_bytes 0x8300 8 (le 8 1);
  _ ← install 0x8400 (zeros 8);
  _ ← gives SYS_SOCKETPAIR [1; 1; 0; 0x8400; 0; 0] 0;
  '(left_fd, right_fd) ← fd_pair 0x8400;
  _ ← install 0x8500 (text "pong");
  _ ← gives SYS_SENDTO [left_fd; 0x8500; 4; 0; 0; 0] 4;
  _ ← install 0x8600 (zeros 4);
  _ ← gives SYS_RECVFROM [right_fd; 0x8600; 4; 0; 0; 0] 4;
  same_bytes 0x8600 4 (text "pong").

Definition CLONE_FS : Z := 0x200.
Definition CLONE_FILES : Z := 0x400.
Definition CLONE_SIGHAND : Z := 0x800.
Definition thread_flags : Z :=
  foldl Z.lor CLONE_VM [CLONE_FS; CLONE_FILES; CLONE_SIGHAND; CLONE_THREAD; CLONE_CHILD_CLEARTID].
Definition clone_wait_signal_and_futex_semantics (init : Z) : test :=
  _ ← install 0xa000 (zeros 4);
  thread_tid ← dispatch SYS_CLONE [thread_flags; 0; 0; 0xa000; 0; 0];
  _ ← assert (init <? thread_tid);
  _ ← install 0xa100 (zeros 32);
  _ ← gives SYS_SIGACTION [10; 0; 0xa100; 0; 0; 0] 0;
  _ ← same_bytes 0xa100 32 (zeros 32);
  _ ← gives SYS_FUTEX [0xa000; 0; 0; 0; 0; 0] (-11);
  k ← get;
  _ ← assert_eq (Sched.current_thread_id (k_sched k)) (Some thread_tid);
  _ ← gives SYS_FUTEX [0xa000; 1; 1; 0; 0; 0] 1;
  child ← dispatch SYS_CLONE (replicate 6 0);
  _ ← assert (thread_tid <? child);
  _ ← unwrapped (on_table (set_current child));
  _ ← unwrapped (on_table (exit_current_thread 5));
  _ ← on_sched (fun s => Sched.remove_task s child);
  _ ← unwrapped (on_table (set_current init));
  _ ← install 0xa200 (zeros 4);
  _ ← gives SYS_WAIT [child; 0xa200; 0; 0; 0; 0] child;
  _ ← same_bytes 0xa200 4 (le 4 (Z.shiftl 5 8));
  _ ← install 0xa300 (zeros 8);
  gives SYS_RT_SIGPENDING [0xa300; 8; 0; 0; 0; 0] 0.

Definition legacy_clone : list Z := [Z.lor CLONE_THREAD Abi.CLONE_SETTLS; 0x2000; 0x3000; 0x4000; 0x5000; 0].
Definition clone_decode_respects_riscv_legacy_tls_order (init : Z) : test :=
  let decoded := Abi.decode_clone_request_for_abi legacy_clone true in
  _ ← assert_eq (Abi.cl_flags decoded) (Z.lor CLONE_THREAD Abi.CLONE_SETTLS);
  _ ← assert_eq (Abi.cl_stack decoded) 0x2000;
  _ ← assert_eq (Abi.cl_parent_tid decoded) 0x3000;
  _ ← assert_eq (Abi.cl_tls decoded) (Some 0x4000);
  assert_eq (Abi.cl_child_tid decoded) 0x5000.
Definition clone_decode_respects_non_riscv_legacy_tls_order (init : Z) : test :=
  let decoded := Abi.decode_clone_request_for_abi legacy_clone false in
  _ ← assert_eq (Abi.cl_flags decoded) (Z.lor CLONE_THREAD Abi.CLONE_SETTLS);
  _ ← assert_eq (Abi.cl_stack decoded) 0x2000;
  _ ← assert_eq (Abi.cl_parent_tid decoded) 0x3000;
  _ ← assert_eq (Abi.cl_child_tid decoded) 0x4000;
  assert_eq (Abi.cl_tls decoded) (Some 0x5000).

Definition clone_vfork_tracks_blocked_parent_tid_not_parent_tid_pointer (init : Z) : test :=
  child ← dispatch SYS_CLONE [CLONE_VFORK; 0; 0xdeadbeef; 0; 0; 0];
  k ← get;
  assert_eq (vfork_parent_tid <$> (processes (k_table k) !! child)) (Some (Some init)).

Definition FUTEX_WAIT : Z := 0.
Definition FUTEX_WAKE : Z := 1.
Definition check_cur (f : Process Obj.FileHandle Z → bool) : test := p ← unwrapped cur; assert (f p).
Definition waits_at (addr : option Z) : test := check_cur (fun p => bool_decide (futex_wait_addr p = addr)).
Definition futex_cancel_interrupt_is_one_shot (init : Z) : test :=
  _ ← install 0xa400 (le 4 0);
  _ ← update_cur (fun p => arm_cancellation_persistent (mark_cancel_signal_dispatched p));
  _ ← gives SYS_FUTEX [0xa400; FUTEX_WAIT; 0; 0; 0; 0] (- EINTR);
  _ ← check_cur cancellation_in_progress;
  _ ← gives SYS_FUTEX [0xa400; FUTEX_WAIT; 0; 0; 0; 0] (- EINTR);
  _ ← check_cur cancellation_in_progress;
  _ ← gives SYS_FUTEX [0xa400; FUTEX_WAKE; 1; 0; 0; 0] 1;
  _ ← waits_at (Some 0xa400);
  _ ← gives SYS_FUTEX [0xa400; FUTEX_WAIT; 0; 0; 0; 0] 0;
  waits_at None.

Definition queued_sigcancel_alone_does_not_interrupt_futex_wait (init : Z) : test :=
  _ ← install 0xa800 (le 4 0);
  _ ← update_cur (fun p => set_cancel false (cancellation_in_progress p)
                             (set_frame_pending false (set_mask 0 (set_pending (Z.shiftl 1 (33 - 1)) p))));
  _ ← gives SYS_FUTEX [0xa800; FUTEX_WAIT; 0; 0; 0; 0] (- EAGAIN);
  waits_at (Some 0xa800).

Definition put_at (off : nat) (bytes frame : list Z) : list Z := take off frame ++ bytes ++ drop (off + length bytes) frame.
Definition rt_sigreturn_arms_cancellation_persistent (init : Z) : test :=
  let UCONTEXT_OFF := 128%nat in
  let UC_SIGMASK_OFF := (UCONTEXT_OFF + 40)%nat in
  let MCTX_OFF := (UCONTEXT_OFF + 168)%nat in
  let frame_sp := 0x7d00 in
  let saved_mask := 0x12345678 in
  let saved_pc := 0x40012000 in
  let retval := 77 in
  let a0_off := (MCTX_OFF + 10 * 8)%nat in
  let frame := put_at a0_off (le 8 retval) (put_at MCTX_OFF (le 8 saved_pc) (put_at UC_SIGMASK_OFF (le 8 saved_mask)
    (put_at (UC_SIGMASK_OFF + 8) (replicate 120 0xff) (zeros 816)))) in
  _ ← update_cur (fun p => set_frame (set_reg 2 frame_sp (trap_frame p))
                             (set_mask 0xffff (set_cancel true (cancellation_in_progress p) (set_frame_pending true p))));
  _ ← install frame_sp frame;
  _ ← gives SYS_RT_SIGRETURN (replicate 6 0) retval;
  check_cur (fun p => (signal_mask p =? saved_mask) && negb (signal_frame_pending p) && negb (cancel_signal_seen p) &&
                      cancellation_in_progress p).

Definition membarrier_private_commands_supported (init : Z) : test :=
  let QUERY := 0 in
  let PRIVATE_EXPEDITED := Z.shiftl 1 3 in
  let REGISTER_PRIVATE_EXPEDITED := Z.shiftl 1 4 in
  query ← dispatch SYS_MEMBARRIER [QUERY; 0; 0; 0; 0; 0];
  _ ← assert (0 <=? query);
  _ ← assert (negb (Z.land query PRIVATE_EXPEDITED =? 0));
  _ ← assert (negb (Z.land query REGISTER_PRIVATE_EXPEDITED =? 0));
  _ ← gives SYS_MEMBARRIER [REGISTER_PRIVATE_EXPEDITED; 0; 0; 0; 0; 0] 0;
  _ ← gives SYS_MEMBARRIER [PRIVATE_EXPEDITED; 0; 0; 0; 0; 0] 0;
  gives SYS_MEMBARRIER [REGISTER_PRIVATE_EXPEDITED; 1; 0; 0; 0; 0] (- EINVAL).

Definition inet_loopback_socket_smoke (init : Z) : test :=
  let sockaddr := le 2 2 ++ reverse (le 2 7000) ++ [127; 0; 0; 1] ++ zeros 8 in
  _ ← install 0x9000 sockaddr;
  _ ← install 0x9100 (zeros 16);
  _ ← install 0x9200 (le 4 16);
  server ← dispatch SYS_SOCKET [2; 1; 0; 0; 0; 0];
  _ ← gives SYS_BIND [server; 0x9000; 16; 0; 0; 0] 0;
  _ ← gives SYS_LISTEN [server; 1; 0; 0; 0; 0] 0;
  client ← dispatch SYS_SOCKET [2; 1; 0; 0; 0; 0];
  _ ← gives SYS_CONNECT [client; 0x9000; 16; 0; 0; 0] 0;
  accepted ← dispatch SYS_ACCEPT [server; 0x9100; 0x9200; 0; 0; 0];
  _ ← assert (0 <=? accepted);
  _ ← install 0x9300 (text "tcp");
  _ ← gives SYS_SENDTO [client; 0x9300; 3; 0; 0; 0] 3;
  _ ← install 0x9400 (zeros 3);
  _ ← gives SYS_RECVFROM [accepted; 0x9400; 3; 0; 0; 0] 3;
  _ ← same_bytes 0x9400 3 (text "tcp");
  _ ← gives SYS_GETSOCKNAME [server; 0x9100; 0x9200; 0; 0; 0] 0;
  returned ← user_bytes 0x9100 8;
  _ ← assert_eq (from_le_bytes (take 2 returned)) 2;
  assert_eq (from_le_bytes (reverse (take 2 (drop 2 returned)))) 7000.

Definition starry_syscalls : list Z :=
  [SYS_GETCWD; SYS_DUP3; SYS_FLOCK; SYS_MKDIR; SYS_SYMLINKAT; SYS_LINKAT; SYS_RENAMEAT; SYS_RENAMEAT2; SYS_FSTATFS;
   SYS_TRUNCATE; SYS_FALLOCATE; SYS_FCHDIR; SYS_FCHMOD; SYS_FCHMODAT; SYS_FCHOWNAT; SYS_FCHOWN; SYS_PWRITE64;
   SYS_PREADV; SYS_PWRITEV; SYS_PREADV2; SYS_PWRITEV2; SYS_PSELECT6; SYS_FSYNC; SYS_FDATASYNC; SYS_UTIMENSAT;
   SYS_SET_TID_ADDRESS; SYS_GET_ROBUST_LIST; SYS_SET_ROBUST_LIST; SYS_GETITIMER; SYS_SETITIMER; SYS_CLOCK_GETRES;
   SYS_SIGALTSTACK; SYS_RT_SIGSUSPEND; SYS_RT_SIGPENDING; SYS_RT_SIGRETURN; SYS_GETPRIORITY; SYS_GETSID; SYS_SETSID;
   SYS_GETGROUPS; SYS_SETGROUPS; SYS_UMASK; SYS_PRCTL; SYS_SHMGET; SYS_SHMAT; SYS_SHMCTL; SYS_SHMDT; SYS_SOCKET;
   SYS_SOCKETPAIR; SYS_BIND; SYS_LISTEN; SYS_ACCEPT; SYS_CONNECT; SYS_GETSOCKNAME; SYS_SENDTO; SYS_RECVFROM;
   SYS_SETSOCKOPT; SYS_GETSOCKOPT; SYS_SHUTDOWN; SYS_SENDMSG; SYS_RECVMSG; SYS_MSYNC; SYS_MLOCK; SYS_MLOCK2;
   SYS_MEMFD_CREATE; SYS_PIDFD_OPEN; SYS_PIDFD_SEND_SIGNAL; SYS_PIDFD_GETFD; SYS_FACCESSAT2; SYS_EPOLL_CREATE1;
   SYS_EPOLL_CTL; SYS_EPOLL_PWAIT; SYS_SECCOMP; SYS_RISCV_FLUSH_ICACHE; SYS_WAIT; SYS_PPOLL; SYS_TIMES; SYS_UNAME;
   SYS_GETTIMEOFDAY; SYS_PRLIMIT64; SYS_STATX; SYS_COPY_FILE_RANGE; SYS_SPLICE; SYS_SETUID; SYS_SETGID; SYS_SIGACTION;
   SYS_SIGPROCMASK; SYS_RT_SIGTIMEDWAIT].
Definition is_one_of (sysno : Z) (l : list Z) : bool := existsb (Z.eqb sysno) l.
Definition starry_args (sysno : Z) : list Z :=
  if is_one_of sysno [SYS_BIND; SYS_CONNECT] then [3; 0x1600; 32; 0; 0; 0]
  else if is_one_of sysno [SYS_GETSOCKNAME; SYS_GETSOCKOPT] then [3; 0x1800; 0x1380; 0x1800; 0x1380; 0]
  else if is_one_of sysno [SYS_SENDTO; SYS_RECVFROM] then [3; 0x1700; 4; 0; 0x1600; 32]
  else if is_one_of sysno [SYS_SENDMSG; SYS_RECVMSG] then [3; 0x1780; 0; 0; 0; 0]
  else if is_one_of sysno [SYS_PREADV; SYS_PWRITEV; SYS_PREADV2; SYS_PWRITEV2] then [3; 0x1680; 1; 0; 0; 0]
  else if is_one_of sysno [SYS_PWRITE64; SYS_PREAD64] then [3; 0x1700; 4; 0; 0; 0]
  else if is_one_of sysno [SYS_SETGROUPS; SYS_GETGROUPS] then [1; 0x1800; 0; 0; 0; 0]
  else if sysno =? SYS_EPOLL_CTL then [3; 1; 4; 0x17c0; 0; 0]
  else if sysno =? SYS_PPOLL then [0x1800; 1; 0; 0; 0; 0]
  else if sysno =? SYS_RT_SIGPENDING then [0x1800; 8; 0; 0; 0; 0]
  else if sysno =? SYS_SIGPROCMASK then [0; 0; 0x1800; 8; 0; 0]
  else if sysno =? SYS_RT_SIGTIMEDWAIT then [0x1800; 0x1900; 0; 8; 0; 0]
  else [0x1000; 0x1100; 0x1300; 0x1380; 0x1400; 0x1500].
Definition put_bytes (addr : Z) (bytes : list Z) : test := unwrapped (write_user room addr bytes).
Definition has_handler (sysno : Z) : test := rc ← dispatch sysno (starry_args sysno); assert (negb (rc =? - ENOSYS)).
Definition starry_riscv_syscalls_have_handlers (init : Z) : test :=
  _ ← install 0x1000 (zeros 4096);
  _ ← put_bytes 0x1000 (cstr "/tmp/x");
  _ ← put_bytes 0x1100 (cstr "/tmp/y");
  _ ← put_bytes 0x1200 (cstr "memfd");
  _ ← put_bytes 0x1380 (le 4 128);
  let sockaddr := put_at 2 (text "socktest" ++ zeros 2) (put_at 0 (le 2 1) (zeros 32)) in
  _ ← put_bytes 0x1600 sockaddr;
  _ ← put_bytes 0x1680 (le 8 0x1700 ++ le 8 4);
  _ ← put_bytes 0x1700 (text "data");
  let msghdr := put_at 24 (le 8 1) (put_at 16 (le 8 0x1680) (zeros 56)) in
  _ ← put_bytes 0x1780 msghdr;
  _ ← put_bytes 0x17c0 (put_at 0 (le 4 1) (zeros 16));
  each starry_syscalls has_handler.

(** The record locks of two tests, as a state of their own. *)
Definition lock_test : Type := stm (list Locks.FcntlRecordLock) unit.
Definition locked (path : string) (owner ty start : Z) (e : option Z) : stm (list Locks.FcntlRecordLock) bool :=
  method (Locks.apply_lock path owner ty start e).
Definition conflict (path : string) (owner ty start : Z) (e : option Z) : stm (list Locks.FcntlRecordLock) (option Locks.FcntlRecordLock) :=
  reads (fun ls => Ok (Locks.first_conflict path owner ty start e ls)).
Definition is_lock (lock : option Locks.FcntlRecordLock) (ty start : Z) (e : option Z) : lock_test :=
  match lock with
  | None => assert false
  | Some l => _ ← assert_eq (Locks.lk_type l) ty; _ ← assert_eq (Locks.lk_start l) start; assert_eq (Locks.lk_end l) e
  end.
Definition fcntl_lock_state_splits_overlaps_for_same_owner : lock_test :=
  _ ← holds (locked "/tmp/fcntl21" 100 Locks.F_RDLCK 10 (Some 15));
  _ ← holds (locked "/tmp/fcntl21" 100 Locks.F_WRLCK 5 (Some 13));
  lock_a ← conflict "/tmp/fcntl21" 200 Locks.F_WRLCK 0 None;
  _ ← is_lock lock_a Locks.F_WRLCK 5 (Some 13);
  lock_b ← conflict "/tmp/fcntl21" 200 Locks.F_WRLCK 13 None;
  is_lock lock_b Locks.F_RDLCK 13 (Some 15).
Definition fcntl_lock_state_unlock_and_owner_clear : lock_test :=
  _ ← locked "/tmp/a" 10 Locks.F_WRLCK 0 None;
  _ ← locked "/tmp/b" 10 Locks.F_RDLCK 5 (Some 12);
  _ ← locked "/tmp/a" 11 Locks.F_RDLCK 0 (Some 3);
  _ ← holds (method (Locks.clear_for_owner_path 10 "/tmp/b"));
  c ← conflict "/tmp/b" 20 Locks.F_WRLCK 0 None;
  _ ← assert (negb (bool_decide (is_Some c)));
  _ ← holds (method (Locks.clear_for_owner 10));
  c ← conflict "/tmp/a" 20 Locks.F_WRLCK 0 None;
  _ ← assert (bool_decide (is_Some c));
  c ← conflict "/tmp/a" 11 Locks.F_WRLCK 0 None;
  assert (negb (bool_decide (is_Some c))).

(** ** The results *)
(** The tests in the order of the source; one of them is apart. *)
Definition call_tests : list (Z → test) :=
  [basic_phase1_syscalls; extended_syscall_smoke; eventfd_epoll_and_socketpair_smoke; clone_wait_signal_and_futex_semantics;
   clone_decode_respects_riscv_legacy_tls_order; clone_decode_respects_non_riscv_legacy_tls_order;
   clone_vfork_tracks_blocked_parent_tid_not_parent_tid_pointer; queued_sigcancel_alone_does_not_interrupt_futex_wait;
   rt_sigreturn_arms_cancellation_persistent; membarrier_private_commands_supported; inet_loopback_socket_smoke].
Definition lock_tests : list lock_test :=
  [fcntl_lock_state_splits_overlaps_for_same_owner; fcntl_lock_state_unlock_and_owner_clear].
Lemma call_tests_pass : forallb run_test call_tests = true.
Proof. vm_cast_no_check (eq_refl true). Qed.
Lemma lock_tests_pass : forallb (fun t => passes t []) lock_tests = true.
Proof. vm_cast_no_check (eq_refl true). Qed.
Lemma starry_test_passes : run_test starry_riscv_syscalls_have_handlers = true.
Proof. vm_cast_no_check (eq_refl true). Qed.

(** The test of the cancelled futex wait does not pass: it expects a waiter
    after two interrupted waits, but a thread with a cancellation in progress
    is turned away before it queues up, and the wake finds nobody. *)
Lemma futex_cancel_test_fails : run_test futex_cancel_interrupt_is_one_shot = false ∧
  run_test (fun init =>
    _ ← install 0xa400 (le 4 0);
    _ ← update_cur (fun p => arm_cancellation_persistent (mark_cancel_signal_dispatched p));
    _ ← gives SYS_FUTEX [0xa400; FUTEX_WAIT; 0; 0; 0; 0] (- EINTR);
    _ ← gives SYS_FUTEX [0xa400; FUTEX_WAIT; 0; 0; 0; 0] (- EINTR);
    _ ← gives SYS_FUTEX [0xa400; FUTEX_WAKE; 1; 0; 0; 0] 0;
    waits_at None) = true.
Proof. split; [vm_cast_no_check (eq_refl false) | vm_cast_no_check (eq_refl true)]. Qed.
End Tests.
End CallTests.
